(* ===== verification/_CoqProject ===== *)
-Q . S2P
Prelude.v
GoStrings.v
Bytes.v
EventLog.v
Pppoe.v
Subscriber.v
Md5.v
TacacsProtocol.v
ServiceChain.v
PolicyTypes.v
PolicyTyped.v
PolicySets.v
PolicyEngine.v
PolicyVersions.v
SimulationAnalysis.v
HaController.v
HaFencing.v
DacQueue.v
PacketHardening.v
PacketRate.v
RequestSigning.v
SessionPolicy.v
Sessions.v
IdentityFailover.v
Sha.v
FallbackPolicy.v
Mfa.v
PortalAuth.v
Mab.v
AccountingEvents.v
RuntimeFirewall.v
FirewallSnapshots.v
EnforcementTransactions.v
VsaCodec.v
Portal.v
GuestWorkflow.v
GuestAccess.v
Secrets.v
TacacsPolicy.v
TacacsServer.v
