(* ===== verification/Prelude.v ===== *)
(** * AegisNAS: a verification development

    AegisNAS (the Go program under [src/]) is a network access appliance: it answers RADIUS and TACACS+
    clients, decides admission by a policy engine, keeps the sessions of those it admits, enforces their
    policies in a firewall, accounts for them, and runs in pairs with a shared virtual address. This
    development models the parts of it that take the decisions, as executable definitions translated
    from the Go code function by function and under its names, and proves what makes them correct.

    ** The program's parts and the files

    - [PolicyTypes], [PolicyTyped], [PolicySets], [PolicyEngine] model [internal/policy]. A rule has
      match conditions, typed or legacy JSON. [CompileMatchConditions] turns them into an expression
      within limits, [EvaluateTypedExpression] evaluates it to a verdict and a trace. Rules live in a
      tree of policy sets; [FlattenPolicySet] gives the ordered list that [EvaluateRules] runs, merging
      the decisions of the rules that match until one denies. [EvaluateDetailed] chooses the list: the
      tenant's active version, the default's, or the rule table.
    - [SimulationAnalysis] models [internal/policy/simulation_analysis.go]: retained requests are replayed
      under the active and the candidate rules, the differences counted and the risk classified.
    - [ServiceChain] models [internal/policy/service_chain.go]: the ordered services a decision
      activates, their normal form, validation and merge.
    - [PolicyVersions] models [internal/db/policy_set_versions.go] and the handlers of
      [internal/adminapi/policy_sets.go]: the tables of versions and approvals as state, each request
      as a function from tables to tables or an error, and what requests can reach as [reachable].
    - [TacacsProtocol], [TacacsPolicy], [TacacsServer] model [internal/tacacs] (and the command sets of
      [internal/db/tacacs.go]): packets and their MD5 obfuscation ([Md5]), the command decision, which
      asks the policy engine first, and the server's handlers and connection loop. [Secrets] models the
      resolution of secrets of [internal/secrets/secrets.go] that the server uses.
    - [PacketHardening] models [internal/radius/packet_hardening.go] and its table of decisions: the list of known
      sources, the token buckets, the parser, the limits, the Message-Authenticator and the replay cache, for
      a packet as bytes and as parsed. [PacketRate] bounds what the buckets let through. [RequestSigning]
      models how [internal/radius/health.go] signs what is sent to such a receiver.
    - [SessionPolicy] models [internal/radius/mapping.go]: role, VLAN, profile and time-outs from the attributes of
      an answer. [Sessions] models [internal/sessions]: the manager of the table of sessions, and the server of
      disconnect and change-of-authorization requests, which passes packets through [PacketHardening] and resolves
      them by [SessionPolicy].
    - [PortalAuth] models the logins of the captive portal ([internal/portal/auth/auth.go], with the outcome of the exchange with the
      broker in [internal/radius/client.go]), over [IdentityFailover] ([internal/identity/failover.go] and its tables: the plan of the
      sources, their circuits, the cache of credentials), [FallbackPolicy] ([internal/radius/fallback_policy.go]: who may log in
      during an outage), [SessionPolicy] and [Mfa] ([internal/mfa/mfa.go], [internal/db/mfa.go]: one-time passwords over the
      hashes of [Sha], challenges, recovery codes, enrolment). [Mab] models [internal/mab/mab.go], [internal/db/mab.go] and the choice of
      the entries in [internal/radius/generator.go]: devices that are let in by their MAC address. The tables of events of these
      parts are [EventLog]s.
    - [DacQueue] models the queue of outbound disconnect and change-of-authorization requests
      ([internal/db/outbound_dac_queue.go], [internal/radius/outbound_dac_queue.go]): each statement or
      transaction as a function of the table, and the nodes' interleavings as steps.
    - [VsaCodec] models [internal/radius/vsa_codec.go]: vendor payloads by the vendor's format, tags and groups.
    - [AccountingEvents] models [internal/db/accounting_events.go] and [accounting_counters.go]: the ledger of
      accounting packets and their merge into sessions.
    - [Portal] models the captive portal's sessions ([internal/portal/statemachine.go], the handlers of
      [internal/portal/server/server.go]), over the policy engine.
    - [GuestWorkflow] models the registrations of guests ([internal/portal/guestworkflow/service.go]): submission, decision by a
      sponsor or an administrator, the account that an approval creates, completion, and the interleavings of their statements.
      [GuestAccess] models the handlers over it ([internal/portal/server/guest.go], [internal/adminapi/guest_registrations.go]) and
      vouchers ([internal/radius/voucher.go]), with the sessions of [Portal] that they open.
    - [RuntimeFirewall], [FirewallSnapshots] model [internal/enforcement/runtime_firewall.go] and
      [internal/db/runtime_firewall.go]: the nftables table compiled from the sessions, and its application,
      synchronisation and rollback. [EnforcementTransactions] models [internal/enforcement/transactions.go] and its
      ledger: a transaction over several participants, of which the firewall is one.
    - [HaController] models [internal/ha/controller.go]: the tick of a node of a pair, over a lease file
      the nodes share; a cluster's steps are whole ticks, or ticks split between reading and writing.
      [HaFencing] models [internal/ha/fencing.go]: heartbeats, witnesses and the verdict that lets a
      standby promote itself, and the tick under it.
    - [Subscriber] and [Pppoe] model [internal/broadband]: the subscriber state machine and the codec of
      PPPoE discovery frames.
    - [GoStrings], [Bytes] and this file are what they share.

    The interfaces between them: the engine takes what it reads from the database, LDAP and the clock as
    a record [PolicyEngine.Environment]; the TACACS+ policy takes the engine's environment, the command
    sets and the user table as [TacacsPolicy.TacacsEnvironment]; the server adds the secret provider
    ([TacacsServer.Server]). [PolicyVersions] writes the contents that the engine reads as
    [ActiveDefault] and [ActiveForTenant]. A transaction's participants are the contract
    [EnforcementTransactions.Targets] with [TargetLaws], and the firewall's operations discharge its part.
    A login gets what comes from outside as [PortalAuth.LoginEnv] and the tables of its parts as [PortalAuth.LoginDB].
    [HaFencing.fenced_tick] gives its verdict to the tick of [HaController].

    ** Conventions

    A Go function that returns an error is a function to [result]; strings are byte strings
    ([String.string]), byte slices lists of [Z] below 256, machine integers [Z] with the wrap-around
    written out where the code can reach it, maps stdpp's [gmap], structs records, and instants counts
    of seconds or nanoseconds with [None] for Go's zero time. Loops that return early are [firstSome] or
    structural recursions that stop. Mutated state is passed along. A table is a list of rows, or a map by its
    key, and a query or statement is its meaning on it.

    ** Parameters

    What is not code of the repository is a type class or a section variable, and every theorem holds
    for all its instances: [MapRange] (the order in which Go ranges over a map, any permutation),
    [GoStrings.Unicode] (the case tables, off ASCII; [UnicodeLaws] adds that lower-casing is idempotent and
    does not expose white space), [Numbers] (floats), [PacketHardening.Rounding] with [RoundingLaws] (one rounding of
    a [float64], within the relative error of the format), [Json], [PolicySetDecoder] and [encode_policy_set] (JSON), [Regexp]
    and [GlobTables] (regular expressions), [IPAddr], [NetIP] and [SourceAddress] (addresses), [Bcrypt], [PolicyDigest],
    [ChainDigest], [DecisionDigest], [RulesetDigest], [TxPlanDigest], [HexDigest] (SHA-256, of JSON or texts), [Hmac],
    [PasswordHash], [Base32] with [Base32Laws], [Sealing] with [SealingLaws] (bcrypt with its salt, the text of TOTP
    secrets, AES-GCM under the sealing key), [TimeText], [ParseRFC3339], [SessionTime] (texts of times), [JoinPath], [BodyJson], [Quote], [RequestURI] (whether [net/url] accepts an address), the process
    environment and files ([Secrets]), [Nft] with [NftLaws] (the nft program: a script is loaded as a whole or not at
    all), the RADIUS library ([VendorSpecificAttributes], [RadiusParse], [RadiusMarshal] with [RadiusMarshalLaws],
    the attributes of a packet in [DacAttributes]), the texts of error messages
    where a response carries them, and for the queue SQLite's [datetime]. Each has an instance with which the witnesses and examples evaluate.

    ** What the theorems show

    - Engine: access is allowed exactly when an applicable rule allows or quarantines and none denies
      ([EvaluateRules_allow]); the decision is the merge of the applicable rules up to the first deny
      ([EvaluateRules_refines]); a tenant's requests depend on its own active version alone
      ([tenant_isolation]). Expressions: evaluation is the boolean combination of the leaves, within the
      depth and node limits ([compiled_evaluation]). Sets: flattening is ordered, named by path and
      faithful to the tree ([FlattenPolicySet_order], [FlattenPolicySet_rules]). Simulation: a rule that is reported
      as without influence can be removed ([reported_rules_removable]).
    - Versions: one active version per set and tenant ([versions_consistent]), approval by enough
      persons other than the creator ([four_eyes]), and the exact effect of an activation
      ([activatePolicySetVersion_spec]).
    - TACACS+: the exact conditions of PASS and PASS_ADD ([authentication_pass],
      [authorization_pass], [EvaluateCommand_permit]), which clients are served
      ([clientForRemote_spec]), one answer per packet ([handleConnection_answers]), the merge of command
      sets, the pattern matcher against its inductive meaning ([glob_spec]), and the codecs against an
      encoder written from RFC 8907, in both directions.
    - RADIUS packets: the parser accepts exactly the encodings within the limits ([parseRaw_spec]), bytes are accepted under
      exactly stated conditions ([ValidateRawPacket_accepts]), which the parsed packet shares but for one
      ([raw_and_packet_agree]); repetitions are refused within the window while the cache has room ([repeated_packet_refused],
      [full_cache_forgets]); a source's packets are bounded by burst and rate, with the errors of the floats
      ([rate_bounded]); what is signed verifies, except the requests whose authenticator is replaced after it
      ([signed_request_verifies], [dac_request_mis_signed]).
    - Logins: who is let in by the identity sources, as a function of what each of them says ([fallback_accepts]), in which order they are asked
      ([plan_order], [plan_deterministic]) and when a source is passed over ([circuit_open_iff]); the second factor
      ([step_up_enforced]), whose challenges take a bounded number of answers and are passed once ([challenge_bounded]) and whose codes
      verify after an enrolment ([enrolled_code_accepted]); and what defeats these ([forged_state_skips_step_up],
      [skipped_login_closes_circuit], [outage_window_restarts], [totp_code_replayable], [recovery_code_race]). MAC addresses: who is let in
      ([mab_accepts]), the spellings of an address ([mac_variants_roundtrip]), and the generated entries that disagree
      ([generated_entries_outlive_endpoint]).
    - Sessions: where a role comes from ([resolved_role]); the sweep ends exactly the sessions over a limit
      ([timeouts_enforced]); a request changes at most one session, which it names ([request_changes_named_session]); and
      three requests that do something else than they say ([unknown_session_ends_another],
      [coa_without_role_resets_role], [large_timeout_escapes]).
    - Queue: claims are exclusive while their locks last, bounded and earliest first ([claim_spec]); attempts
      stay bounded in every interleaving ([attempts_bounded]), of which a replayer's pass is one
      ([replay_refines]); the schedule of retries ([retry_schedule]); what a repeated request gets
      ([enqueue_spec]); and a late attempt that undoes a cancellation ([cancel_undone]).
    - Accounting: each packet counts once and the totals do not depend on the order of arrival ([ledger_exact],
      [arrival_order_irrelevant]); pending packets are drained ([pending_drained]). Vendor attributes: decoding is bounded, sound and inverse
      to encoding ([decodeVendorPayload_bounded], [decodeVendorPayload_sound], [decode_encoded]).
    - Portal: a session row needs a login ([session_needs_login]); logout, restart and a second login.
    - Guests: how a registration moves, in all interleavings ([registration_lifecycle]), which account it has ([guest_accounts]), that the operations are
      runs of their statements ([service_refines]), what a session needs ([guest_session_needs_approval]), who decides
      ([admin_tenant_scope]), whom a submission and an invitation admit ([self_registration_admits], [invited_guest_can_log_in]), how often a
      voucher is used ([voucher_uses_bounded]); and links that outlive their registration, overspent vouchers and invitations that were never
      sent ([guest_link_never_expires], [voucher_overspent], [unsent_invitation_recorded]).
    - Firewall: the ruleset as a packet filter is the table of the sessions' policies ([ruleset_refines_table],
      [quarantine_cuts_off]); the kernel's table is that of the ledger's active snapshot ([table_matches_ledger]); a failed
      transaction is undone ([compensation_restores]), in dependency order.
    - High availability: after an undisturbed tick a node serves the address exactly if the lease names
      it ([tick_agreement]); leases are taken over only when expired or preempted; two runs that leave both nodes serving
      ([overlapping_ticks_split], [unreadable_lease_split]). Fencing: what a promotion needs ([promotion_rule]), that more approvals never
      hurt ([approval_monotone]), a standby held back by a live peer and promoted after its silence ([standby_held_back], [standby_takes_over]).
    - Service chains, the subscriber machine and PPPoE: order of dependencies, merge, independence of map
      order, admission before accounting, and round trips.

    ** Recursion and fuel

    Most recursion is structural. [Pppoe.ParseTags_loop], [TacacsServer.serve] and [VsaCodec.decode_loop] consume their input
    and get its length plus one as fuel; [Pppoe.parse_total], [handleConnection_answers] and the induction principle of
    [decode_loop] show that this is enough. [PacketHardening.parse_attributes] and [RequestSigning.offset_loop] get the length of
    the rest, and take at least two bytes a turn ([parseRaw_spec], [signed_request_verifies]). [TacacsProtocol.xorBody_loop] takes sixteen bytes a turn with the length as fuel, and
    [length_xorBody] shows that no byte is left over. The limits of the code itself (32 levels of sets,
    five groups of a recovery code, 8 levels and 128 nodes of expressions, 5 levels of grouped attributes, 32 services, 65,535 bytes) are in the definitions.

    ** What is not modelled

    Time-outs, the listeners and concurrency inside one process (each handler runs to its end; the pair
    of nodes, the queue's nodes, overlapping applications of accounting packets, guest registrations and vouchers are the exceptions), logging and status texts, evidence identifiers, SQL as text,
    calls on a nil receiver, and the saturation of Go's [Duration]. Of the subsystems: the compilers of vendor replies and ACLs
    and the generators of FreeRADIUS configuration (tables and texts for other programs; the choice of the MAC entries excepted), the clients of directories, controllers and
    certificate authorities (protocol I/O), replication and history of the pair, the other participants of enforcement, the loader of the configuration
    (30,000 lines of field tables), and the reports of the administration API. *)

From stdpp Require Export prelude list gmap strings sorting.
From Stdlib Require Export ZArith Lia Bool.

#[global] Open Scope string_scope.
#[global] Open Scope list_scope.
#[global] Open Scope Z_scope.

(** ** Fallible code: Go's [(T, error)] as a sum *)

Inductive result (E A : Type) : Type :=
| Ok (a : A)
| Err (e : E).
Arguments Ok {E A} a.
Arguments Err {E A} e.

#[global] Instance result_ret {E} : MRet (result E) := fun A a => Ok a.
#[global] Instance result_bind {E} : MBind (result E) :=
  fun A B f m => match m with Ok a => f a | Err e => Err e end.
#[global] Instance result_fmap {E} : FMap (result E) :=
  fun A B f m => match m with Ok a => Ok (f a) | Err e => Err e end.

Definition is_Ok {E A} (m : result E A) : bool := match m with Ok _ => true | Err _ => false end.

Create HintDb nas discriminated.

Section result_lemmas.
Context {E : Type}.

Lemma bind_Ok {A B} (m : result E A) (f : A -> result E B) b :
  (m ≫= f) = Ok b <-> exists a, m = Ok a /\ f a = Ok b.
Proof. destruct m; split; [eauto | intros (a' & [= ->] & H); exact H | discriminate | intros (a' & [=] & _)]. Qed.

Lemma bind_Err {A B} (m : result E A) (f : A -> result E B) e :
  (m ≫= f) = Err e <-> m = Err e \/ exists a, m = Ok a /\ f a = Err e.
Proof. destruct m; split; [eauto | intros [[=] | (a' & [= ->] & H)]; exact H
  | intros [= ->]; eauto | intros [[= ->] | (a' & [=] & _)]; reflexivity]. Qed.
End result_lemmas.

(** ** Tactics *)

(** Splits every boolean test of the goal or of a hypothesis, keeping the equation. *)
Ltac split_if :=
  match goal with
  | |- context [if ?b then _ else _] => lazymatch b with context [if _ then _ else _] => fail | _ => destruct b eqn:? end
  | H : context [if ?b then _ else _] |- _ => lazymatch b with context [if _ then _ else _] => fail | _ => destruct b eqn:? end
  end.

(** Splits a [match] whose scrutinee is not itself a match. *)
Ltac split_match :=
  match goal with
  | |- context [match ?x with _ => _ end] => lazymatch x with context [match _ with _ => _ end] => fail | _ => destruct x eqn:? end
  | H : context [match ?x with _ => _ end] |- _ => lazymatch x with context [match _ with _ => _ end] => fail | _ => destruct x eqn:? end
  end.

(** Turns boolean comparisons of the context into arithmetic. *)
Ltac bool_arith :=
  repeat match goal with
  | H : (_ && _)%bool = true |- _ => apply andb_true_iff in H as [? ?]
  | H : (_ || _)%bool = false |- _ => apply orb_false_iff in H as [? ?]
  | H : negb _ = true |- _ => apply negb_true_iff in H
  | H : negb _ = false |- _ => apply negb_false_iff in H
  | H : (_ <? _) = true |- _ => apply Z.ltb_lt in H
  | H : (_ <? _) = false |- _ => apply Z.ltb_ge in H
  | H : (_ <=? _) = true |- _ => apply Z.leb_le in H
  | H : (_ <=? _) = false |- _ => apply Z.leb_gt in H
  | H : (_ =? _) = true |- _ => apply Z.eqb_eq in H
  | H : (_ =? _) = false |- _ => apply Z.eqb_neq in H
  | H : (_ >? _) = true |- _ => rewrite Z.gtb_ltb in H; apply Z.ltb_lt in H
  | H : (_ >? _) = false |- _ => rewrite Z.gtb_ltb in H; apply Z.ltb_ge in H
  | H : (_ >=? _) = true |- _ => rewrite Z.geb_leb in H; apply Z.leb_le in H
  | H : (_ >=? _) = false |- _ => rewrite Z.geb_leb in H; apply Z.leb_gt in H
  | H : (_ <? _)%nat = true |- _ => apply Nat.ltb_lt in H
  | H : (_ <? _)%nat = false |- _ => apply Nat.ltb_ge in H
  | H : (_ =? _)%string = true |- _ => apply String.eqb_eq in H
  | H : (_ =? _)%string = false |- _ => apply String.eqb_neq in H
  end.

(** Splits [Forall] hypotheses over a cons or an append. *)
Ltac inv_Forall :=
  repeat match goal with
  | H : Forall _ (_ :: _) |- _ => apply Forall_cons in H as [? ?]
  | H : Forall _ (_ ++ _) |- _ => apply Forall_app in H as [? ?]
  end.

(** Evaluates the decision procedure of a closed goal. *)
Ltac decided := refine (bool_decide_unpack _ _); vm_compute; exact I.

(** ** Lists *)

(** [firstSome f l]: the first hit of [f] along [l] (a [for ... return] loop). *)
Fixpoint firstSome {A B} (f : A -> option B) (l : list A) : option B :=
  match l with
  | [] => None
  | x :: l' => match f x with Some b => Some b | None => firstSome f l' end
  end.

Lemma firstSome_Some {A B} (f : A -> option B) l b :
  firstSome f l = Some b <->
  exists l1 x l2, l = l1 ++ x :: l2 /\ f x = Some b /\ Forall (fun y => f y = None) l1.
Proof.
  split.
  - induction l as [|y l IH]; simpl; [discriminate|].
    destruct (f y) eqn:E.
    + intros [= ->]. exists [], y, l. auto.
    + intros (l1 & x & l2 & -> & Hx & HF)%IH. exists (y :: l1), x, l2. auto.
  - intros (l1 & x & l2 & -> & Hx & HF). induction HF as [|y l1 Hy HF IH]; simpl.
    + by rewrite Hx.
    + by rewrite Hy.
Qed.

Lemma firstSome_None {A B} (f : A -> option B) l :
  firstSome f l = None <-> Forall (fun y => f y = None) l.
Proof.
  split.
  - induction l as [|y l IH]; simpl; [constructor|]. destruct (f y) eqn:E; [discriminate|]. auto.
  - induction 1 as [|y l Hy HF IH]; simpl; [done|]. by rewrite Hy.
Qed.

Lemma existsb_and {A} (f g : A -> bool) l :
  existsb (fun x => f x && g x) l = true <-> exists x, x ∈ l /\ f x = true /\ g x = true.
Proof.
  rewrite existsb_exists. split; intros (x & Hx & H); exists x; split; try (by apply list_elem_of_In); by apply andb_true_iff.
Qed.

Lemma forallb_map_id {A} (f : A -> bool) l : forallb (fun b => b) (map f l) = forallb f l.
Proof. induction l as [|x l IH]; simpl; [done|]. by rewrite IH. Qed.
Lemma existsb_map_id {A} (f : A -> bool) l : existsb (fun b => b) (map f l) = existsb f l.
Proof. induction l as [|x l IH]; simpl; [done|]. by rewrite IH. Qed.

(** ** Maps keyed by strings

    Go leaves the order of [range] over a map unspecified. Code that ranges over a map is modelled
    for an arbitrary order: a permutation of the map's entries. *)
Class MapRange := {
  range_map : forall {A}, gmap string A -> list (string * A);
  range_map_perm : forall {A} (m : gmap string A), range_map m ≡ₚ map_to_list m;
}.

(** Two orders to evaluate definitions with. *)
#[export] Instance forward_range : MapRange | 100 := {| range_map A m := map_to_list m; range_map_perm A m := Permutation_refl _ |}.
Definition backward_range : MapRange :=
  {| range_map A m := reverse (map_to_list m); range_map_perm A m := reverse_Permutation _ |}.

Lemma elem_of_range_map `{MapRange} {A} (m : gmap string A) k x : (k, x) ∈ range_map m <-> m !! k = Some x.
Proof. rewrite range_map_perm. apply elem_of_map_to_list. Qed.

Lemma NoDup_range_map `{MapRange} {A} (m : gmap string A) : NoDup (range_map m).*1.
Proof. rewrite range_map_perm. apply NoDup_fst_map_to_list. Qed.

(** ** Stable sorting with a "less" function (Go's [sort.SliceStable]) *)

(** Two neighbours are in order when the second is not less than the first. *)
Definition in_order {A} (less : A -> A -> bool) (x y : A) : Prop := less y x = false.

(** A strict weak order: what a comparison function of [sort] has to be. *)
Class WeakOrder {A} (less : A -> A -> bool) : Prop := {
  less_asym x y : less x y = true -> less y x = false;
  in_order_trans x y z : in_order less x y -> in_order less y z -> in_order less x z;
}.

Section sort_by.
Context {A : Type} (less : A -> A -> bool).

Fixpoint insert_by (x : A) (l : list A) : list A :=
  match l with
  | [] => [x]
  | y :: l' => if less y x then y :: insert_by x l' else x :: l
  end.

Definition sort_by (l : list A) : list A := foldr insert_by [] l.

Lemma insert_by_perm x l : insert_by x l ≡ₚ x :: l.
Proof.
  induction l as [|y l IH]; simpl; [done|].
  case_match; [|done]. rewrite IH. constructor.
Qed.

Lemma sort_by_perm l : sort_by l ≡ₚ l.
Proof. induction l as [|x l IH]; simpl; [done|]. by rewrite insert_by_perm, IH. Qed.

Lemma length_sort_by l : length (sort_by l) = length l.
Proof. by rewrite sort_by_perm. Qed.

Lemma insert_by_id x l : Forall (in_order less x) l -> insert_by x l = x :: l.
Proof. destruct l as [|y l]; simpl; [done|]. intros H; inversion H as [|?? Hy]. unfold in_order in Hy. by rewrite Hy. Qed.

Lemma sort_by_id l : StronglySorted (in_order less) l -> sort_by l = l.
Proof. induction 1 as [|x l Hs IH HF]; simpl; [done|]. by rewrite IH, insert_by_id. Qed.

Context `{!WeakOrder less}.

Lemma insert_by_sorted x l : StronglySorted (in_order less) l -> StronglySorted (in_order less) (insert_by x l).
Proof using All.
  induction 1 as [|y l Hs IH HF]; simpl; [repeat constructor|].
  destruct (less y x) eqn:E.
  - constructor; [done|]. rewrite insert_by_perm. constructor; [by apply less_asym|done].
  - constructor; [by constructor|]. constructor; [done|].
    eapply Forall_impl; [exact HF|]. intros z Hz. by eapply in_order_trans; [|exact Hz].
Qed.

Lemma sort_by_sorted l : StronglySorted (in_order less) (sort_by l).
Proof using All. induction l; simpl; [constructor | by apply insert_by_sorted]. Qed.

Lemma sort_by_idem l : sort_by (sort_by l) = sort_by l.
Proof using All. apply sort_by_id, sort_by_sorted. Qed.

(** Without ties the result does not depend on the order of the input. *)
Lemma sorted_perm_unique l k :
  (forall x y, x ∈ l -> y ∈ l -> in_order less x y -> in_order less y x -> x = y) ->
  StronglySorted (in_order less) l -> StronglySorted (in_order less) k -> l ≡ₚ k -> l = k.
Proof using Type.
  clear WeakOrder0. intros Htie Hl. revert k Htie. induction Hl as [|x l Hs IH HF]; intros k Htie Hk Hp.
  - apply Permutation_nil in Hp. done.
  - destruct k as [|y k]; [by apply Permutation_sym, Permutation_nil in Hp|].
    assert (x = y) as <-.
    { inversion Hk as [|?? Hk' HFk]; subst.
      assert (x ∈ y :: k) as Hx by (rewrite <- Hp; left).
      assert (y ∈ x :: l) as Hy by (rewrite Hp; left).
      apply elem_of_cons in Hx as [?|Hx]; [done|]. apply elem_of_cons in Hy as [?|Hy]; [done|].
      rewrite Forall_forall in HF, HFk. apply Htie; [by left | by right | by apply HF | by apply HFk]. }
    f_equal. apply Permutation_cons_inv in Hp. inversion Hk; subst.
    apply IH; [|done..]. intros; apply Htie; try (by right); done.
Qed.

Lemma sort_by_perm_eq l k :
  (forall x y, x ∈ l -> y ∈ l -> in_order less x y -> in_order less y x -> x = y) ->
  l ≡ₚ k -> sort_by l = sort_by k.
Proof using All.
  intros Htie Hp. apply sorted_perm_unique; [|apply sort_by_sorted..|].
  - intros x y Hx Hy. rewrite sort_by_perm in Hx, Hy. by apply Htie.
  - by rewrite !sort_by_perm.
Qed.
End sort_by.

#[export] Instance Zltb_key {A} (f : A -> Z) : WeakOrder (fun x y => f x <? f y).
Proof. split; unfold in_order; intros *; rewrite ?Z.ltb_lt, ?Z.ltb_ge; lia. Qed.
#[export] Instance Zgtb_key {A} (f : A -> Z) : WeakOrder (fun x y => f x >? f y).
Proof. split; unfold in_order; intros *; rewrite !Z.gtb_ltb, ?Z.ltb_lt, ?Z.ltb_ge; lia. Qed.

(** Comparison by a first criterion and, on ties of it, by a second one. *)
#[export] Instance lex_order {A} (same less1 less2 : A -> A -> bool) :
  WeakOrder less1 -> WeakOrder less2 ->
  (forall x y, same x y = true <-> less1 x y = false /\ less1 y x = false) ->
  WeakOrder (fun x y => if same x y then less2 x y else less1 x y).
Proof.
  intros [asym1 trans1] [asym2 trans2] Hs. unfold in_order in *.
  assert (forall x y, same x y = same y x) as Hsym.
  { intros x y. apply eq_true_iff_eq. rewrite !Hs. tauto. }
  assert (forall x y, same x y = false -> less1 y x = false -> less1 x y = true) as Hlt.
  { intros x y Hxy Hyx. destruct (less1 x y) eqn:E; [done|]. assert (same x y = true) by (apply Hs; auto). congruence. }
  split.
  - intros x y. rewrite (Hsym y x). destruct (same x y); eauto.
  - intros x y z. unfold in_order. rewrite (Hsym y x), (Hsym z y), (Hsym z x).
    destruct (same x y) eqn:Exy, (same y z) eqn:Eyz; intros Hyx Hzy;
      repeat match goal with H : same _ _ = true |- _ => apply Hs in H as [? ?] end.
    + assert (same x z = true) as -> by (apply Hs; split; eauto). eauto.
    + assert (less1 z x = false) as Hzx by eauto.
      destruct (same x z) eqn:Exz; [|done]. apply Hs in Exz as [? ?].
      assert (same y z = true) by (apply Hs; split; eauto). congruence.
    + assert (less1 z x = false) as Hzx by eauto.
      destruct (same x z) eqn:Exz; [|done]. apply Hs in Exz as [? ?].
      assert (same x y = true) by (apply Hs; split; eauto). congruence.
    + assert (less1 z x = false) as Hzx by eauto.
      destruct (same x z) eqn:Exz; [|done]. apply Hs in Exz as [? ?].
      assert (same x y = true) by (apply Hs; split; eauto). congruence.
Qed.

#[export] Hint Resolve sort_by_perm insert_by_perm : nas.
