(* ===== verification/GoStrings.v ===== *)
(** * Go strings

    The part of Go's [strings], [strconv] and [fmt] packages that the modelled code uses, on byte
    strings ([String.string] is a sequence of 8-bit [ascii]; a Go string is a sequence of bytes).
    Every function is total and executable. The case mappings of the Go library take a fast path on
    ASCII strings, which is spelled out here; the Unicode tables of the slow path are the interface
    [Unicode], so every theorem holds for whatever those tables are. *)

From S2P Require Import Prelude.
From Stdlib Require Import Ascii String DecimalString DecimalZ.

(** What the code gets from the Unicode tables, on strings that are not ASCII. *)
Class Unicode := {
  unicode_lower : string -> string;            (** [strings.Map(unicode.ToLower, s)] *)
  unicode_upper : string -> string;            (** [strings.Map(unicode.ToUpper, s)] *)
  unicode_fold : string -> string -> bool;     (** the [hasUnicode] tail of [strings.EqualFold] *)
}.

(** Tables that leave every string alone: enough to evaluate the definitions on ASCII inputs. *)
#[export] Instance ascii_tables : Unicode | 100 := {|
  unicode_lower := fun s => s;
  unicode_upper := fun s => s;
  unicode_fold := fun s t => (s =? t)%string;
|}.

(** SHA-256 of a text, in hexadecimal digits *)
Class HexDigest := hex_digest : string -> string.

Definition byte_of (c : ascii) : Z := Z.of_N (N_of_ascii c).
Definition is_ascii_char (c : ascii) : bool := byte_of c <? 128.

Fixpoint all_chars (p : ascii -> bool) (s : string) : bool :=
  match s with EmptyString => true | String c s' => p c && all_chars p s' end.

Fixpoint map_chars (f : ascii -> ascii) (s : string) : string :=
  match s with EmptyString => "" | String c s' => String (f c) (map_chars f s') end.

Definition is_ascii : string -> bool := all_chars is_ascii_char.

Definition in_range (lo hi : ascii) (c : ascii) : bool := (byte_of lo <=? byte_of c) && (byte_of c <=? byte_of hi).

Definition lower_char (c : ascii) : ascii :=
  if in_range "A"%char "Z"%char c then ascii_of_N (N_of_ascii c + 32) else c.
Definition upper_char (c : ascii) : ascii :=
  if in_range "a"%char "z"%char c then ascii_of_N (N_of_ascii c - 32) else c.

(** [strings.ToLower], [strings.ToUpper] *)
Definition ToLower `{Unicode} (s : string) : string :=
  if is_ascii s then map_chars lower_char s else unicode_lower s.
Definition ToUpper `{Unicode} (s : string) : string :=
  if is_ascii s then map_chars upper_char s else unicode_upper s.

(** [strings.EqualFold]: bytewise on the common ASCII prefix, the tables from the first byte that is
    not ASCII on. *)
Fixpoint EqualFold `{Unicode} (s t : string) : bool :=
  match s, t with
  | String a s', String b t' =>
      if is_ascii_char a && is_ascii_char b
      then if (lower_char a =? lower_char b)%char then EqualFold s' t' else false
      else unicode_fold s t
  | EmptyString, EmptyString => true
  | _, _ => false
  end.

(** [strings.TrimSpace]. A white-space rune is one of the six ASCII ones, or one of the runes of
    Unicode's White_Space property, given by their UTF-8 encodings: U+0085 and U+00A0 (two bytes),
    U+1680, U+2000 to U+200A, U+2028, U+2029, U+202F, U+205F and U+3000 (three bytes). *)
Definition space1 (a : ascii) : bool := ((9 <=? byte_of a) && (byte_of a <=? 13)) || (byte_of a =? 32).
Definition space2 (a b : ascii) : bool := (byte_of a =? 194) && ((byte_of b =? 133) || (byte_of b =? 160)).
Definition space3 (a b c : ascii) : bool :=
  let x := byte_of a in let y := byte_of b in let z := byte_of c in
  ((x =? 225) && (y =? 154) && (z =? 128)) ||
  ((x =? 226) && (y =? 128) && (((128 <=? z) && (z <=? 138)) || (z =? 168) || (z =? 169) || (z =? 175))) ||
  ((x =? 226) && (y =? 129) && (z =? 159)) ||
  ((x =? 227) && (y =? 128) && (z =? 128)).

Section trim.
Context (p1 : ascii -> bool) (p2 : ascii -> ascii -> bool) (p3 : ascii -> ascii -> ascii -> bool).

(** Drops the runes recognised by [p1], [p2] and [p3] from the front. *)
Fixpoint trim_front (s : string) : string :=
  match s with
  | EmptyString => ""
  | String a s1 =>
      if p1 a then trim_front s1 else
      match s1 with
      | EmptyString => s
      | String b s2 =>
          if p2 a b then trim_front s2 else
          match s2 with
          | EmptyString => s
          | String c s3 => if p3 a b c then trim_front s3 else s
          end
      end
  end.
End trim.

Definition TrimLeftSpace : string -> string := trim_front space1 space2 space3.
Definition TrimRightSpace (s : string) : string :=
  String.rev (trim_front space1 (fun b a => space2 a b) (fun c b a => space3 a b c) (String.rev s)).
Definition TrimSpace (s : string) : string := TrimRightSpace (TrimLeftSpace s).

(** The composition the code uses everywhere to normalise a token. *)
Definition lower_trim `{Unicode} (s : string) : string := ToLower (TrimSpace s).

(** The loop that keeps the first occurrence of each value that is not empty, in their order *)
Fixpoint distinct_from (seen values : list string) : list string :=
  match values with
  | [] => []
  | v :: rest => if (v =? "")%string || existsb (String.eqb v) seen then distinct_from seen rest else v :: distinct_from (seen ++ [v]) rest
  end.
Definition distinct_normalized `{Unicode} (values : list string) : list string := distinct_from [] (lower_trim <$> values).

(** The text after the last [sep]; [strings.LastIndex] *)
Fixpoint after_last (sep : ascii) (s : string) : option string :=
  match s with
  | EmptyString => None
  | String c s => match after_last sep s with Some rest => Some rest | None => if (c =? sep)%char then Some s else None end
  end.

Definition HasPrefix (s p : string) : bool := String.prefix p s.
Definition HasSuffix (s p : string) : bool := String.prefix (String.rev p) (String.rev s).

Fixpoint Contains (s sub : string) : bool :=
  String.prefix sub s || match s with EmptyString => false | String _ s' => Contains s' sub end.

(** [s[n:]] for [n <= len(s)] *)
Fixpoint string_drop (n : nat) (s : string) : string :=
  match n, s with
  | O, _ => s
  | S n', String _ s' => string_drop n' s'
  | S _, EmptyString => ""
  end.

(** [strings.TrimPrefix(s, p)] *)
Definition TrimPrefix (s p : string) : string :=
  if HasPrefix s p then string_drop (String.length p) s else s.

(** [strings.ReplaceAll] and [strings.Cut] with one-byte patterns. *)
Definition ReplaceAllChar (s : string) (old new : ascii) : string :=
  map_chars (fun c => if (c =? old)%char then new else c) s.

Fixpoint RemoveAllChar (s : string) (old : ascii) : string :=
  match s with
  | EmptyString => ""
  | String c s' => if (c =? old)%char then RemoveAllChar s' old else String c (RemoveAllChar s' old)
  end.

Fixpoint CutChar (s : string) (sep : ascii) : string * string * bool :=
  match s with
  | EmptyString => ("", "", false)
  | String c s' =>
      if (c =? sep)%char then ("", s', true)
      else let '(before, after, found) := CutChar s' sep in
           if found then (String c before, after, true) else (s, "", false)
  end.

(** [strings.Split] at a byte *)
Fixpoint SplitChar (s : string) (sep : ascii) : list string :=
  match s with
  | EmptyString => [EmptyString]
  | String c s' =>
      if Ascii.eqb c sep then EmptyString :: SplitChar s' sep
      else match SplitChar s' sep with [] => [String c EmptyString] | w :: ws => String c w :: ws end
  end.

(** [hex.EncodeToString] *)
Definition hex_char (d : Z) : ascii := ascii_of_N (Z.to_N (if d <? 10 then 48 + d else 87 + d)).
Definition hex_encode (l : list Z) : string := foldr (fun b s => String (hex_char (Z.shiftr b 4)) (String (hex_char (Z.land b 15)) s)) "" l.

Definition Join (l : list string) (sep : string) : string := String.concat sep l.

(** [strconv.Itoa], and [%d] of [fmt]. *)
Definition Itoa (z : Z) : string := NilZero.string_of_int (Z.to_int z).

(** Go's [<] on strings: bytewise lexicographic. *)
Definition string_less (s t : string) : bool := String.ltb s t.

(** Byte slices and strings: [string(b)] and [[]byte(s)]. Bytes of a slice are [Z] in [0,256). *)
Fixpoint bytes_of_string (s : string) : list Z :=
  match s with EmptyString => [] | String c s' => byte_of c :: bytes_of_string s' end.
Fixpoint string_of_bytes (l : list Z) : string :=
  match l with [] => "" | b :: l' => String (ascii_of_N (Z.to_N b)) (string_of_bytes l') end.

(** [strings.Fields]: the maximal runs without white space. [cur] is the current run, reversed. *)
Fixpoint fields_from (cur s : string) : list string :=
  match s with
  | EmptyString => if (cur =? "")%string then [] else [String.rev cur]
  | String a s1 =>
      let flush := if (cur =? "")%string then (fun rest => rest) else cons (String.rev cur) in
      if space1 a then flush (fields_from "" s1) else
      match s1 with
      | EmptyString => fields_from (String a cur) s1
      | String b s2 =>
          if space2 a b then flush (fields_from "" s2) else
          match s2 with
          | EmptyString => fields_from (String a cur) s1
          | String c s3 => if space3 a b c then flush (fields_from "" s3) else fields_from (String a cur) s1
          end
      end
  end.
Definition Fields (s : string) : list string := fields_from "" s.

(** [strings.TrimRight(s, cutset)] for an ASCII cutset. *)
Definition TrimRightChars (cut : ascii -> bool) (s : string) : string :=
  String.rev (trim_front cut (fun _ _ => false) (fun _ _ _ => false) (String.rev s)).

(** The bytes of the cutset CR LF. *)
Definition line_end (c : ascii) : bool := (byte_of c =? 13) || (byte_of c =? 10).

(** [strconv.Atoi]: an optional sign and decimal digits, within 64 bits. *)
Fixpoint decimal_value (acc : Z) (s : string) : option Z :=
  match s with
  | EmptyString => Some acc
  | String c s' => if in_range "0"%char "9"%char c then decimal_value (10 * acc + (byte_of c - 48)) s' else None
  end.
Definition Atoi (s : string) : option Z :=
  let '(sign, digits) :=
    match s with
    | String "+" s' => (1, s')
    | String "-" s' => (-1, s')
    | _ => (1, s)
    end in
  if (digits =? "")%string then None
  else match decimal_value 0 digits with
       | Some v => let v := sign * v in
                   if (v <? -9223372036854775808) || (v >? 9223372036854775807) then None else Some v
       | None => None
       end.

Lemma byte_of_bound c : 0 <= byte_of c < 256.
Proof. unfold byte_of. pose proof (N_ascii_bounded c). lia. Qed.

Lemma bytes_of_string_bound s : Forall (fun b => 0 <= b < 256) (bytes_of_string s).
Proof. induction s as [|c s IH]; [constructor|]. constructor; [apply byte_of_bound|exact IH]. Qed.

Lemma string_of_bytes_of_string s : string_of_bytes (bytes_of_string s) = s.
Proof.
  induction s as [|c s IH]; [done|]. cbn [bytes_of_string string_of_bytes]. rewrite IH. f_equal.
  unfold byte_of. rewrite N2Z.id. apply ascii_N_embedding.
Qed.

Lemma bytes_of_string_of_bytes l : Forall (fun b => 0 <= b < 256) l -> bytes_of_string (string_of_bytes l) = l.
Proof.
  induction 1 as [|b l Hb HF IH]; [done|]. cbn [bytes_of_string string_of_bytes]. rewrite IH. f_equal.
  unfold byte_of. rewrite N_ascii_embedding by lia. lia.
Qed.

Lemma length_bytes_of_string s : List.length (bytes_of_string s) = String.length s.
Proof. induction s as [|c s IH]; [done|]. cbn [bytes_of_string List.length String.length]. by rewrite IH. Qed.

#[export] Hint Resolve byte_of_bound bytes_of_string_bound : nas.

(** ** Order *)

Lemma string_less_asym s t : string_less s t = true -> string_less t s = false.
Proof.
  unfold string_less, String.ltb. rewrite (String.compare_antisym s t).
  by destruct (String.compare t s).
Qed.

Lemma string_less_total s t : string_less s t = false -> string_less t s = false -> s = t.
Proof.
  unfold string_less, String.ltb. rewrite (String.compare_antisym s t).
  destruct (String.compare t s) eqn:E; try done. intros _ _. by apply String.compare_eq_iff in E.
Qed.

Lemma string_less_trans s t u : string_less s t = true -> string_less t u = true -> string_less s u = true.
Proof.
  unfold string_less, String.ltb. revert t u.
  induction s as [|a s IH]; intros [|b t] [|c u]; cbn [String.compare]; try done.
  specialize (IH t u). unfold Ascii.compare.
  destruct (N.compare_spec (N_of_ascii a) (N_of_ascii b)), (N.compare_spec (N_of_ascii b) (N_of_ascii c)),
    (N.compare_spec (N_of_ascii a) (N_of_ascii c)); try done; lia.
Qed.

#[export] Instance string_less_key {A} (f : A -> string) : WeakOrder (fun x y => string_less (f x) (f y)).
Proof.
  split; intros *; unfold in_order; [apply string_less_asym|].
  intros Hyx Hzy. destruct (string_less (f z) (f x)) eqn:E; [|done].
  destruct (string_less (f x) (f y)) eqn:Exy.
  - rewrite (string_less_trans _ _ _ E Exy) in Hzy. done.
  - rewrite (string_less_total _ _ Exy Hyx) in E. congruence.
Qed.

(** ** Trimming twice is trimming once *)

Lemma app_empty_r s : (s +:+ "") = s.
Proof. induction s as [|c s IH]; [done|]. change (String c (s +:+ "") = String c s). by rewrite IH. Qed.

Lemma app_assoc_str s t u : (s +:+ t) +:+ u = s +:+ (t +:+ u).
Proof. induction s as [|c s IH]; [done|]. change (String c ((s +:+ t) +:+ u) = String c (s +:+ (t +:+ u))). by rewrite IH. Qed.

Lemma length_app_str s t : String.length (s +:+ t) = (String.length s + String.length t)%nat.
Proof. induction s as [|c s IH]; [done|]. change (S (String.length (s +:+ t)) = S (String.length s + String.length t)). by rewrite IH. Qed.

Lemma rev_app_spec s t : String.rev_app s t = String.rev s +:+ t.
Proof.
  unfold String.rev. revert t. induction s as [|c s IH]; intros t; [done|]. cbn [String.rev_app].
  rewrite (IH (String c t)), (IH (String c "")), app_assoc_str. done.
Qed.

Lemma rev_app_distr s t : String.rev (s +:+ t) = String.rev t +:+ String.rev s.
Proof.
  induction s as [|c s IH]; [by rewrite app_empty_r|].
  change (String.rev_app (s +:+ t) (String c "") = String.rev t +:+ String.rev_app s (String c "")).
  by rewrite !rev_app_spec, IH, app_assoc_str.
Qed.

Lemma rev_involutive s : String.rev (String.rev s) = s.
Proof.
  induction s as [|c s IH]; [done|]. unfold String.rev at 2. cbn [String.rev_app].
  by rewrite rev_app_spec, rev_app_distr, IH.
Qed.

Section trim_lemmas.
Context (p1 : ascii -> bool) (p2 : ascii -> ascii -> bool) (p3 : ascii -> ascii -> ascii -> bool).
Local Abbreviation trim := (trim_front p1 p2 p3).

Lemma string_len_ind (P : string -> Prop) :
  (forall s, (forall t, (String.length t < String.length s)%nat -> P t) -> P s) -> forall s, P s.
Proof.
  intros H s. assert (forall n t, (String.length t < n)%nat -> P t) as Hn.
  { induction n as [|n IH]; intros t Ht; [lia|]. apply H. intros u Hu. apply IH. lia. }
  apply (Hn (S (String.length s))). lia.
Qed.

(** What is left is a suffix, and it starts with no white space. *)
Lemma trim_front_suffix s : exists k, s = k +:+ trim s.
Proof.
  induction s as [s IH] using string_len_ind. destruct s as [|a s1]; [by exists ""|]. cbn [trim_front].
  destruct (p1 a); [destruct (IH s1) as [k Hk]; [cbn; lia|]; exists (String a k); exact (f_equal (String a) Hk)|].
  destruct s1 as [|b s2]; [by exists ""|].
  destruct (p2 a b); [destruct (IH s2) as [k Hk]; [cbn; lia|]; exists (String a (String b k)); exact (f_equal (fun s => String a (String b s)) Hk)|].
  destruct s2 as [|c s3]; [by exists ""|].
  destruct (p3 a b c); [|by exists ""].
  destruct (IH s3) as [k Hk]; [cbn; lia|]. exists (String a (String b (String c k))). exact (f_equal (fun s => String a (String b (String c s))) Hk).
Qed.

Lemma trim_front_idem s : trim (trim s) = trim s.
Proof.
  induction s as [s IH] using string_len_ind. destruct s as [|a s1]; [done|]. cbn [trim_front].
  destruct (p1 a) eqn:E1; [apply IH; cbn; lia|].
  destruct s1 as [|b s2]; [cbn [trim_front]; by rewrite E1|].
  destruct (p2 a b) eqn:E2; [apply IH; cbn; lia|].
  destruct s2 as [|c s3]; [cbn [trim_front]; by rewrite E1, E2|].
  destruct (p3 a b c) eqn:E3; [apply IH; cbn; lia|]. cbn [trim_front]. by rewrite E1, E2, E3.
Qed.

Lemma trim_front_prefix p k : trim (p +:+ k) = p +:+ k -> trim p = p.
Proof.
  assert (forall s, (String.length (trim s) <= String.length s)%nat) as Hle.
  { intros s. destruct (trim_front_suffix s) as [q Hq]. rewrite Hq at 2. rewrite length_app_str. lia. }
  assert (forall s t, trim s = t -> (String.length s < String.length t)%nat -> False) as Hno.
  { intros s t <- Hlt. specialize (Hle s). lia. }
  destruct p as [|a p1']; [done|]. change (String a p1' +:+ k) with (String a (p1' +:+ k)). cbn [trim_front].
  destruct (p1 a); [intros H; exfalso; apply (Hno _ _ H); cbn [String.length]; lia|].
  destruct p1' as [|b p2']; [done|]. change (String b p2' +:+ k) with (String b (p2' +:+ k)). cbn [trim_front].
  destruct (p2 a b); [intros H; exfalso; apply (Hno _ _ H); cbn [String.length]; lia|].
  destruct p2' as [|c p3']; [done|]. change (String c p3' +:+ k) with (String c (p3' +:+ k)). cbn [trim_front].
  destruct (p3 a b c); [intros H; exfalso; apply (Hno _ _ H); cbn [String.length]; lia|done].
Qed.
End trim_lemmas.

Lemma TrimRightSpace_idem s : TrimRightSpace (TrimRightSpace s) = TrimRightSpace s.
Proof. unfold TrimRightSpace. by rewrite rev_involutive, trim_front_idem. Qed.

Lemma TrimLeftSpace_of_right s : TrimLeftSpace s = s -> TrimLeftSpace (TrimRightSpace s) = TrimRightSpace s.
Proof.
  intros Hs. set (t := String.rev s).
  destruct (trim_front_suffix space1 (fun b a => space2 a b) (fun c b a => space3 a b c) t) as [k Hk].
  apply (f_equal String.rev) in Hk. unfold t in Hk at 1. rewrite rev_involutive, rev_app_distr in Hk.
  unfold TrimLeftSpace, TrimRightSpace in *. fold t. apply (trim_front_prefix _ _ _ _ (String.rev k)). by rewrite <- Hk.
Qed.

Lemma TrimSpace_idem s : TrimSpace (TrimSpace s) = TrimSpace s.
Proof.
  unfold TrimSpace. rewrite TrimLeftSpace_of_right by apply trim_front_idem. apply TrimRightSpace_idem.
Qed.

(** ** Lower case and trimming together *)

(** What Go documents of [unicode.ToLower] and the code relies on: lower-casing what is already lower
    case changes nothing, and no white space appears at the ends. *)
Class UnicodeLaws `{Unicode} := {
  unicode_lower_lower s : is_ascii s = false -> ToLower (unicode_lower s) = unicode_lower s;
  unicode_lower_trim s : is_ascii s = false -> TrimSpace s = s -> TrimSpace (unicode_lower s) = unicode_lower s;
}.

#[export] Instance ascii_tables_laws : UnicodeLaws.
Proof. split; cbn; [|done]. intros s Hs. unfold ToLower. by rewrite Hs. Qed.

Lemma all_chars_app p s t : all_chars p (s +:+ t) = all_chars p s && all_chars p t.
Proof.
  induction s as [|c s IH]; [done|]. change (p c && all_chars p (s +:+ t) = (p c && all_chars p s) && all_chars p t).
  by rewrite IH, andb_assoc.
Qed.

Lemma all_chars_rev p s : all_chars p (String.rev s) = all_chars p s.
Proof.
  induction s as [|c s IH]; [done|]. change (String.rev (String c s)) with (String.rev_app s (String c "")).
  rewrite rev_app_spec, all_chars_app, IH. cbn. by rewrite andb_true_r, andb_comm.
Qed.

Lemma map_chars_app f s t : map_chars f (s +:+ t) = map_chars f s +:+ map_chars f t.
Proof.
  induction s as [|c s IH]; [done|]. change (String (f c) (map_chars f (s +:+ t)) = String (f c) (map_chars f s +:+ map_chars f t)).
  by rewrite IH.
Qed.

Lemma map_chars_rev f s : map_chars f (String.rev s) = String.rev (map_chars f s).
Proof.
  induction s as [|c s IH]; [done|]. change (String.rev (String c s)) with (String.rev_app s (String c "")).
  cbn [map_chars]. change (String.rev (String (f c) (map_chars f s))) with (String.rev_app (map_chars f s) (String (f c) "")).
  by rewrite !rev_app_spec, map_chars_app, IH.
Qed.

Section ascii_trim.
Context (f : ascii -> ascii) (p2 : ascii -> ascii -> bool) (p3 : ascii -> ascii -> ascii -> bool).
Context (Hf1 : forall c, space1 (f c) = space1 c) (Hfa : forall c, is_ascii_char (f c) = is_ascii_char c)
  (H2 : forall a b, is_ascii_char a = true -> p2 a b = false)
  (H3 : forall a b c, is_ascii_char a = true -> p3 a b c = false).

Lemma trim_front_map s :
  is_ascii s = true -> trim_front space1 p2 p3 (map_chars f s) = map_chars f (trim_front space1 p2 p3 s).
Proof using All.
  induction s as [|a s IH]; [done|]. intros Hs. unfold is_ascii in Hs. cbn [all_chars] in Hs.
  apply andb_true_iff in Hs as [Ha Hs]. cbn [map_chars trim_front]. rewrite Hf1.
  destruct (space1 a); [by apply IH|]. destruct s as [|b s]; [done|]. cbn [map_chars].
  rewrite (H2 a), (H2 (f a)) by (by rewrite ?Hfa). destruct s as [|c s]; [done|]. cbn [map_chars].
  by rewrite (H3 a), (H3 (f a)) by (by rewrite ?Hfa).
Qed.

Lemma trim_front_ascii s : is_ascii s = true -> is_ascii (trim_front space1 p2 p3 s) = true.
Proof using Type.
  intros Hs. destruct (trim_front_suffix space1 p2 p3 s) as [k Hk]. rewrite Hk in Hs.
  unfold is_ascii in *. rewrite all_chars_app in Hs. by apply andb_true_iff in Hs as [_ ?].
Qed.
End ascii_trim.

Lemma all_ascii_dec (P : ascii -> bool) :
  forallb (fun n => P (ascii_of_nat n)) (seq 0 256) = true -> forall c, P c = true.
Proof.
  intros H c. rewrite forallb_forall in H. rewrite <- (ascii_nat_embedding c). apply H. apply in_seq.
  pose proof (nat_ascii_bounded c). lia.
Qed.

Lemma lower_char_lower c : lower_char (lower_char c) = lower_char c.
Proof. apply Ascii.eqb_eq. revert c. apply all_ascii_dec. by vm_compute. Qed.
Lemma space1_lower c : space1 (lower_char c) = space1 c.
Proof. apply Bool.eqb_prop. revert c. apply (all_ascii_dec (fun c => Bool.eqb (space1 (lower_char c)) (space1 c))). by vm_compute. Qed.
Lemma is_ascii_lower_char c : is_ascii_char (lower_char c) = is_ascii_char c.
Proof. apply Bool.eqb_prop. revert c. apply (all_ascii_dec (fun c => Bool.eqb (is_ascii_char (lower_char c)) (is_ascii_char c))). by vm_compute. Qed.

(** A change of characters that keeps spaces and what is not ASCII commutes with trimming. *)
Lemma TrimSpace_map f s : (forall c, space1 (f c) = space1 c) -> (forall c, is_ascii_char (f c) = is_ascii_char c) ->
  is_ascii s = true -> TrimSpace (map_chars f s) = map_chars f (TrimSpace s).
Proof.
  intros Hf1 Hfa Hs. unfold TrimSpace, TrimRightSpace, TrimLeftSpace.
  rewrite trim_front_map; [|done..
    | intros a b Ha; unfold space2, is_ascii_char in *; bool_arith; destruct (Z.eqb_spec (byte_of a) 194); [lia|done]
    | intros a b c Ha; unfold space3, is_ascii_char in *; bool_arith;
      repeat match goal with |- context [byte_of a =? ?k] => destruct (Z.eqb_spec (byte_of a) k); [lia|] end; done | done].
  set (t := trim_front space1 space2 space3 s).
  assert (is_ascii t = true) as Ht by (by apply trim_front_ascii).
  rewrite <- map_chars_rev. rewrite trim_front_map.
  - by rewrite map_chars_rev.
  - done.
  - done.
  - intros a b Ha; unfold space2, is_ascii_char in *; bool_arith.
    destruct (Z.eqb_spec (byte_of a) 133); [lia|]. destruct (Z.eqb_spec (byte_of a) 160); [lia|]. by rewrite andb_false_r.
  - intros a b c Ha; unfold space3, is_ascii_char in *; bool_arith.
    repeat match goal with |- context [byte_of a =? ?k] => destruct (Z.eqb_spec (byte_of a) k); [lia|] end.
    destruct (Z.leb_spec 128 (byte_of a)); [lia|]. by rewrite !andb_false_r.
  - unfold is_ascii. by rewrite all_chars_rev.
Qed.

Lemma is_ascii_TrimSpace s : is_ascii s = true -> is_ascii (TrimSpace s) = true.
Proof.
  intros Hs. unfold TrimSpace, TrimRightSpace, TrimLeftSpace, is_ascii. rewrite all_chars_rev. apply trim_front_ascii.
  unfold is_ascii. rewrite all_chars_rev. by apply trim_front_ascii.
Qed.

Lemma is_ascii_map_lower s : is_ascii (map_chars lower_char s) = is_ascii s.
Proof.
  induction s as [|c s IH]; [done|]. unfold is_ascii in *. cbn [map_chars all_chars]. by rewrite is_ascii_lower_char, IH.
Qed.

Lemma map_lower_lower s : map_chars lower_char (map_chars lower_char s) = map_chars lower_char s.
Proof. induction s as [|c s IH]; [done|]. cbn [map_chars]. by rewrite lower_char_lower, IH. Qed.

Section lower_trim.
Context `{UnicodeLaws}.

Lemma ToLower_idem s : ToLower (ToLower s) = ToLower s.
Proof.
  destruct (is_ascii s) eqn:E; unfold ToLower at 2 3; rewrite E.
  - unfold ToLower. by rewrite is_ascii_map_lower, E, map_lower_lower.
  - by apply unicode_lower_lower.
Qed.

Lemma TrimSpace_ToLower s : TrimSpace s = s -> TrimSpace (ToLower s) = ToLower s.
Proof.
  intros Hs. destruct (is_ascii s) eqn:E; unfold ToLower; rewrite E.
  - rewrite TrimSpace_map by (apply space1_lower || apply is_ascii_lower_char || done). by rewrite Hs.
  - by apply unicode_lower_trim.
Qed.

Lemma TrimSpace_lower_trim s : TrimSpace (lower_trim s) = lower_trim s.
Proof. apply TrimSpace_ToLower, TrimSpace_idem. Qed.

Lemma lower_trim_idem s : lower_trim (lower_trim s) = lower_trim s.
Proof. unfold lower_trim at 1. rewrite TrimSpace_lower_trim. apply ToLower_idem. Qed.
End lower_trim.

Create Rewrite HintDb gostrings.
#[export] Hint Rewrite @TrimSpace_idem @lower_trim_idem @TrimSpace_lower_trim @ToLower_idem using apply _ : gostrings.

(** ** Decimal texts *)

Lemma existsb_elem x l : existsb (String.eqb x) l = true <-> x ∈ l.
Proof.
  rewrite existsb_exists. split.
  - intros (y & Hy & ->%String.eqb_eq). by apply list_elem_of_In.
  - intros H. exists x. split; [by apply list_elem_of_In | apply String.eqb_refl].
Qed.

Lemma elem_of_distinct_from x seen values : x ∈ distinct_from seen values <-> x ∈ values /\ x <> "" /\ x ∉ seen.
Proof.
  revert seen. induction values as [|v values IH]; intros seen; simpl; [set_solver|].
  destruct (String.eqb_spec v "") as [->|Hv]; simpl; [rewrite IH; set_solver|].
  destruct (existsb (String.eqb v) seen) eqn:E.
  - apply existsb_elem in E. rewrite IH. set_solver.
  - assert (v ∉ seen) by (rewrite <- existsb_elem, E; done). rewrite elem_of_cons, IH. destruct (decide (x = v)) as [->|]; set_solver.
Qed.
Lemma NoDup_distinct_from seen values : NoDup (distinct_from seen values).
Proof.
  revert seen. induction values as [|v values IH]; intros seen; simpl; [constructor|]. split_if; [done|]. constructor; [|done].
  rewrite elem_of_distinct_from. set_solver.
Qed.

Lemma elem_of_distinct_normalized `{Unicode} x values : x ∈ distinct_normalized values <-> x <> "" /\ exists v, v ∈ values /\ x = lower_trim v.
Proof. unfold distinct_normalized. rewrite elem_of_distinct_from, list_elem_of_fmap. set_solver. Qed.

Lemma decimal_value_acc d acc : decimal_value (Zpos acc) (NilEmpty.string_of_uint d) = Some (Zpos (Pos.of_uint_acc d acc)).
Proof.
  revert acc. induction d; intros acc; [done|..]; cbn [NilEmpty.string_of_uint decimal_value Pos.of_uint_acc]; rewrite <- IHd;
    match goal with |- (if ?b then _ else _) = _ => change b with true end; cbn iota; f_equal;
    match goal with |- context [byte_of ?c] => let v := eval vm_compute in (byte_of c) in change (byte_of c) with v end; lia.
Qed.

Lemma decimal_value_uint d : decimal_value 0 (NilEmpty.string_of_uint d) = Some (Z.of_N (Pos.of_uint d)).
Proof. induction d; [done|exact IHd|..]; apply decimal_value_acc. Qed.

(** What [Itoa] writes for a number that is not negative is read back. *)
Lemma decimal_value_Itoa n : 0 <= n -> decimal_value 0 (Itoa n) = Some n.
Proof.
  intros Hn. unfold Itoa. pose proof (DecimalZ.of_to n) as Ht. destruct n as [|p|p]; [done| |lia]. cbn [Z.to_int] in *.
  unfold NilZero.string_of_int, NilZero.string_of_uint. cbn [Z.of_int] in Ht. destruct (Pos.to_uint p) eqn:E; [done|..]; rewrite decimal_value_uint, <- Ht; done.
Qed.

Definition is_digit : ascii -> bool := in_range "0"%char "9"%char.

Lemma digits_Itoa n : 0 <= n -> all_chars is_digit (Itoa n) = true /\ Itoa n <> "".
Proof.
  intros Hn. assert (forall d, all_chars is_digit (NilEmpty.string_of_uint d) = true) as Hd by (induction d; done).
  unfold Itoa, NilZero.string_of_int, NilZero.string_of_uint. destruct n as [|p|p]; [done| |lia]. cbn [Z.to_int].
  destruct (Pos.to_uint p); split; try done; apply Hd.
Qed.

Definition visible_char (c : ascii) : bool := is_ascii_char c && negb (space1 c).
Lemma visible_char_spec c : visible_char c = true -> byte_of c < 128 /\ space1 c = false.
Proof. unfold visible_char, is_ascii_char. intros [H%Z.ltb_lt Hs%negb_true_iff]%andb_true_iff. done. Qed.

Lemma all_chars_impl (p q : ascii -> bool) s : (forall c, p c = true -> q c = true) -> all_chars p s = true -> all_chars q s = true.
Proof. intros Hpq. induction s as [|c s IH]; simpl; [done|]. intros [Hc Hs]%andb_true_iff. by rewrite (Hpq c Hc), (IH Hs). Qed.

Lemma trim_front_visible_chars p2 p3 s : (forall a b, visible_char a = true -> p2 a b = false) -> (forall a b c, visible_char a = true -> p3 a b c = false) ->
  all_chars visible_char s = true -> trim_front space1 p2 p3 s = s.
Proof.
  intros H2 H3. destruct s as [|a [|b [|c s]]]; cbn [trim_front all_chars]; intros Hs; bool_arith; [done|..];
    destruct (visible_char_spec a ltac:(assumption)) as [_ E]; rewrite E, ?H2, ?H3 by done; done.
Qed.

(** A text of visible ASCII characters has nothing to trim. *)
Lemma TrimSpace_visible_chars s : all_chars visible_char s = true -> TrimSpace s = s.
Proof.
  intros Hs. assert (TrimLeftSpace s = s) as Hl.
  { apply trim_front_visible_chars; [| |done].
    - intros a b [Ha _]%visible_char_spec. unfold space2. lia.
    - intros a b c [Ha _]%visible_char_spec. unfold space3. cbv zeta. lia. }
  unfold TrimSpace. rewrite Hl. unfold TrimRightSpace. rewrite trim_front_visible_chars; [apply rev_involutive|..|by rewrite all_chars_rev].
  - intros a b [Ha _]%visible_char_spec. unfold space2. lia.
  - intros a b c [Ha _]%visible_char_spec. unfold space3. cbv zeta. lia.
Qed.

Lemma is_digit_visible c : is_digit c = true -> visible_char c = true.
Proof.
  unfold visible_char, is_digit, in_range, is_ascii_char, space1. change (byte_of "0"%char) with 48. change (byte_of "9"%char) with 57. intros ?. bool_arith.
  apply andb_true_iff. split; lia.
Qed.

Lemma TrimSpace_digits s : all_chars is_digit s = true -> TrimSpace s = s.
Proof. intros Hs. eapply TrimSpace_visible_chars, all_chars_impl; [apply is_digit_visible | done]. Qed.

Lemma TrimSpace_Itoa n : 0 <= n -> TrimSpace (Itoa n) = Itoa n /\ Itoa n <> "".
Proof. intros Hn. destruct (digits_Itoa n Hn). split; [by apply TrimSpace_digits|done]. Qed.

(** ** Texts that are not blank *)

Definition visible (s : string) : bool := negb (all_chars (fun c => negb (visible_char c)) s).

Lemma trim_front_visible p2 p3 s : (forall a b, p2 a b = true -> visible_char a = false /\ visible_char b = false) ->
  (forall a b c, p3 a b c = true -> visible_char a = false /\ visible_char b = false /\ visible_char c = false) ->
  visible (trim_front space1 p2 p3 s) = visible s.
Proof.
  intros H2 H3. unfold visible. f_equal. induction s as [s IH] using string_len_ind. destruct s as [|a s1]; [done|]. cbn [trim_front].
  destruct (space1 a) eqn:E1; [rewrite IH by (cbn; lia); cbn [all_chars]; unfold visible_char at 2; by rewrite E1, andb_false_r|].
  destruct s1 as [|b s2]; [done|].
  destruct (p2 a b) eqn:E2; [rewrite IH by (cbn; lia); cbn [all_chars]; by destruct (H2 _ _ E2) as [-> ->]|].
  destruct s2 as [|c s3]; [done|].
  destruct (p3 a b c) eqn:E3; [|done]. rewrite IH by (cbn; lia). cbn [all_chars]. by destruct (H3 _ _ _ E3) as (-> & -> & ->).
Qed.

Lemma space2_visible a b : space2 a b = true -> visible_char a = false /\ visible_char b = false.
Proof.
  unfold space2, visible_char, is_ascii_char. intros (Ha & Hb)%andb_true_iff. apply Z.eqb_eq in Ha.
  assert (byte_of b = 133 \/ byte_of b = 160) as Hb' by (apply orb_true_iff in Hb as [?%Z.eqb_eq|?%Z.eqb_eq]; auto).
  split; [rewrite Ha|destruct Hb' as [-> | ->]]; reflexivity.
Qed.

Lemma space3_visible a b c : space3 a b c = true -> visible_char a = false /\ visible_char b = false /\ visible_char c = false.
Proof.
  unfold space3, visible_char, is_ascii_char. cbv zeta. rewrite !orb_true_iff, !andb_true_iff, !orb_true_iff, !andb_true_iff, !Z.eqb_eq, !Z.leb_le. intros H.
  assert (128 <= byte_of a /\ 128 <= byte_of b /\ 128 <= byte_of c) as (Ha & Hb & Hc) by lia.
  rewrite (proj2 (Z.ltb_ge _ _) Ha), (proj2 (Z.ltb_ge _ _) Hb), (proj2 (Z.ltb_ge _ _) Hc). auto.
Qed.

Lemma visible_rev s : visible (String.rev s) = visible s.
Proof. unfold visible. by rewrite all_chars_rev. Qed.

Lemma visible_TrimSpace s : visible (TrimSpace s) = visible s.
Proof.
  unfold TrimSpace, TrimRightSpace, TrimLeftSpace. rewrite visible_rev, trim_front_visible, visible_rev, trim_front_visible; try done.
  - intros a b H. by apply space2_visible.
  - intros a b c H. by apply space3_visible.
  - intros a b [? ?]%space2_visible. done.
  - intros a b c (? & ? & ?)%space3_visible. done.
Qed.

Lemma visible_not_blank s : visible s = true -> TrimSpace s <> "".
Proof. intros H E. rewrite <- visible_TrimSpace, E in H. discriminate. Qed.

Lemma visible_app s t : visible (s +:+ t) = visible s || visible t.
Proof. unfold visible. by rewrite all_chars_app, negb_andb. Qed.
