(* ===== verification/Bytes.v ===== *)
(** * Byte slices and big-endian integers

    Go's [[]byte] as a list of [Z] in [0,256), and the [encoding/binary] big-endian accessors the
    codecs use, bit by bit, with the lemmas that they are inverse to each other. *)

From S2P Require Import Prelude.

Definition is_byte (b : Z) : Prop := 0 <= b < 256.
Definition is_uint16 (v : Z) : Prop := 0 <= v < 65536.
Definition is_uint32 (v : Z) : Prop := 0 <= v < 4294967296.

#[export] Instance is_byte_dec b : Decision (is_byte b).
Proof. unfold is_byte. apply _. Defined.
#[export] Instance is_uint32_dec b : Decision (is_uint32 b).
Proof. unfold is_uint32. apply _. Defined.
#[export] Instance is_uint16_dec b : Decision (is_uint16 b).
Proof. unfold is_uint16. apply _. Defined.

Abbreviation wf_bytes := (Forall is_byte).

(** Conversions [byte(v)], [uint16(v)], [uint32(v)] keep the low bits. *)
Definition to_byte (v : Z) : Z := Z.land v 255.
Definition to_uint16 (v : Z) : Z := Z.land v 65535.
Definition to_uint32 (v : Z) : Z := Z.land v 4294967295.

(** [binary.BigEndian.Uint16([b0, b1])], [Uint32] *)
Definition Uint16 (b0 b1 : Z) : Z := Z.lor b1 (Z.shiftl b0 8).
Definition Uint32 (b0 b1 b2 b3 : Z) : Z :=
  Z.lor (Z.lor (Z.lor b3 (Z.shiftl b2 8)) (Z.shiftl b1 16)) (Z.shiftl b0 24).

(** [binary.BigEndian.PutUint16], [PutUint32]: the bytes written. *)
Definition PutUint16 (v : Z) : list Z := [to_byte (Z.shiftr v 8); to_byte v].
Definition PutUint32 (v : Z) : list Z :=
  [to_byte (Z.shiftr v 24); to_byte (Z.shiftr v 16); to_byte (Z.shiftr v 8); to_byte v].

Definition zlen {A} (l : list A) : Z := Z.of_nat (length l).

Lemma zlen_nonneg {A} (l : list A) : 0 <= zlen l.
Proof. unfold zlen. lia. Qed.

Lemma zlen_nil {A} : zlen (@nil A) = 0.
Proof. done. Qed.

Lemma zlen_cons {A} (x : A) l : zlen (x :: l) = 1 + zlen l.
Proof. unfold zlen. simpl length. lia. Qed.

Lemma zlen_app {A} (l k : list A) : zlen (l ++ k) = zlen l + zlen k.
Proof. unfold zlen. rewrite length_app. lia. Qed.

Lemma zlen_0 {A} (l : list A) : zlen l = 0 <-> l = [].
Proof. destruct l as [|x l]; [done|]. rewrite zlen_cons. pose proof (zlen_nonneg l). split; [lia|done]. Qed.

Lemma zlen_filter_0 {A} (p : A -> bool) l x : zlen (List.filter p l) = 0 -> x ∈ l -> p x = false.
Proof.
  intros Hz%zlen_0 Hx. destruct (p x) eqn:E; [|done]. apply list_elem_of_In in Hx. assert (In x (List.filter p l)) as Hf by (by apply filter_In).
  by rewrite Hz in Hf.
Qed.

Create Rewrite HintDb zlen.
#[export] Hint Rewrite @zlen_nil @zlen_cons @zlen_app : zlen.

Lemma to_byte_mod v : to_byte v = v mod 256.
Proof. unfold to_byte. change 255 with (Z.ones 8). by rewrite Z.land_ones. Qed.
Lemma to_uint16_mod v : to_uint16 v = v mod 65536.
Proof. unfold to_uint16. change 65535 with (Z.ones 16). by rewrite Z.land_ones. Qed.
Lemma to_uint32_mod v : to_uint32 v = v mod 4294967296.
Proof. unfold to_uint32. change 4294967295 with (Z.ones 32). by rewrite Z.land_ones. Qed.

Lemma to_byte_is_byte v : is_byte (to_byte v).
Proof. rewrite to_byte_mod. unfold is_byte. apply Z.mod_pos_bound. lia. Qed.

Lemma to_byte_small v : is_byte v -> to_byte v = v.
Proof. intros [? ?]. rewrite to_byte_mod. apply Z.mod_small. lia. Qed.
Lemma to_uint16_small v : is_uint16 v -> to_uint16 v = v.
Proof. intros [? ?]. rewrite to_uint16_mod. apply Z.mod_small. lia. Qed.
Lemma to_uint32_small v : is_uint32 v -> to_uint32 v = v.
Proof. intros [? ?]. rewrite to_uint32_mod. apply Z.mod_small. lia. Qed.

Lemma land_shiftl_disjoint lo hi n : 0 <= n -> 0 <= lo < 2 ^ n -> Z.land lo (Z.shiftl hi n) = 0.
Proof.
  intros Hn Hlo. apply Z.bits_inj'. intros i Hi.
  rewrite Z.land_spec, Z.bits_0, Z.shiftl_spec by lia.
  destruct (Z.ltb_spec i n).
  - rewrite (Z.testbit_neg_r hi) by lia. apply andb_false_r.
  - rewrite <- (Z.mod_small lo (2 ^ n)) by done. rewrite Z.mod_pow2_bits_high by lia. done.
Qed.

(** [hi << n | lo] is a sum when [lo] fits in [n] bits. *)
Lemma lor_shiftl_add lo hi n : 0 <= n -> 0 <= lo < 2 ^ n -> Z.lor lo (Z.shiftl hi n) = lo + hi * 2 ^ n.
Proof.
  intros Hn Hlo. pose proof (land_shiftl_disjoint lo hi n Hn Hlo) as H0.
  rewrite <- Z.shiftl_mul_pow2, Z.add_nocarry_lxor by done. symmetry. by apply Z.lxor_lor.
Qed.

Lemma Uint16_eq b0 b1 : is_byte b1 -> Uint16 b0 b1 = b1 + b0 * 256.
Proof. intros H. unfold Uint16. rewrite lor_shiftl_add; [done | lia | exact H]. Qed.

Lemma Uint32_eq b0 b1 b2 b3 :
  is_byte b1 -> is_byte b2 -> is_byte b3 ->
  Uint32 b0 b1 b2 b3 = b3 + b2 * 256 + b1 * 65536 + b0 * 16777216.
Proof.
  unfold is_byte. intros. unfold Uint32.
  rewrite (lor_shiftl_add b3) by (simpl; lia). change (2 ^ 8) with 256.
  rewrite (lor_shiftl_add (b3 + b2 * 256)) by (simpl; lia). change (2 ^ 16) with 65536.
  rewrite lor_shiftl_add by (simpl; lia). change (2 ^ 24) with 16777216. lia.
Qed.

Lemma Uint16_is_uint16 b0 b1 : is_byte b0 -> is_byte b1 -> is_uint16 (Uint16 b0 b1).
Proof. intros H0 H1. rewrite Uint16_eq by done. unfold is_byte, is_uint16 in *. lia. Qed.

Lemma Uint32_is_uint32 b0 b1 b2 b3 :
  is_byte b0 -> is_byte b1 -> is_byte b2 -> is_byte b3 -> is_uint32 (Uint32 b0 b1 b2 b3).
Proof. intros. rewrite Uint32_eq by done. unfold is_byte, is_uint32 in *. lia. Qed.

Lemma Uint16_Put v : is_uint16 v -> Uint16 (to_byte (Z.shiftr v 8)) (to_byte v) = v.
Proof.
  intros Hv. rewrite Uint16_eq by apply to_byte_is_byte. rewrite !to_byte_mod, Z.shiftr_div_pow2 by lia.
  unfold is_uint16 in *. change (2 ^ 8) with 256. Z.to_euclidean_division_equations; lia.
Qed.

Lemma Uint32_Put v :
  is_uint32 v ->
  Uint32 (to_byte (Z.shiftr v 24)) (to_byte (Z.shiftr v 16)) (to_byte (Z.shiftr v 8)) (to_byte v) = v.
Proof.
  intros Hv. rewrite Uint32_eq by apply to_byte_is_byte. rewrite !to_byte_mod, !Z.shiftr_div_pow2 by lia.
  unfold is_uint32 in *. change (2 ^ 8) with 256. change (2 ^ 16) with 65536. change (2 ^ 24) with 16777216.
  Z.to_euclidean_division_equations; lia.
Qed.

Lemma PutUint16_Uint16 b0 b1 : is_byte b0 -> is_byte b1 -> PutUint16 (Uint16 b0 b1) = [b0; b1].
Proof.
  intros H0 H1. unfold PutUint16. rewrite Uint16_eq by done.
  rewrite !to_byte_mod, Z.shiftr_div_pow2 by lia. change (2 ^ 8) with 256. unfold is_byte in *.
  repeat apply (f_equal2 cons); try done; Z.to_euclidean_division_equations; lia.
Qed.

Lemma PutUint32_Uint32 b0 b1 b2 b3 :
  is_byte b0 -> is_byte b1 -> is_byte b2 -> is_byte b3 -> PutUint32 (Uint32 b0 b1 b2 b3) = [b0; b1; b2; b3].
Proof.
  intros H0 H1 H2 H3. unfold PutUint32. rewrite Uint32_eq by done.
  rewrite !to_byte_mod, !Z.shiftr_div_pow2 by lia.
  change (2 ^ 8) with 256; change (2 ^ 16) with 65536; change (2 ^ 24) with 16777216. unfold is_byte in *.
  repeat apply (f_equal2 cons); try done; Z.to_euclidean_division_equations; lia.
Qed.

Lemma PutUint16_wf v : wf_bytes (PutUint16 v).
Proof. repeat constructor; apply to_byte_is_byte. Qed.
Lemma PutUint32_wf v : wf_bytes (PutUint32 v).
Proof. repeat constructor; apply to_byte_is_byte. Qed.

#[export] Hint Resolve to_byte_is_byte Uint16_is_uint16 Uint32_is_uint32 PutUint16_wf PutUint32_wf zlen_nonneg : nas.
