(* ===== verification/EventLog.v ===== *)
(** * Event tables

    The tables of events of the program have one shape: a row gets the next id and the time of its observation, in whole seconds, and after each insertion
    the table is cut down to its newest rows, by that time and then by the id. A log of [A] is such a table with the other columns in [A]. *)

From S2P Require Import Prelude Bytes.

Record LogRow (A : Type) := mkRow { LrID : Z; LrAt : Z; LrData : A }.
Arguments mkRow {A}.
Arguments LrID {A}.
Arguments LrAt {A}.
Arguments LrData {A}.
Record EventLog (A : Type) := mkLog { LogRows : list (LogRow A); LogSequence : Z }.
Arguments mkLog {A}.
Arguments LogRows {A}.
Arguments LogSequence {A}.

Section log.
Context {A : Type}.
Implicit Types (r : LogRow A) (rows : list (LogRow A)) (log : EventLog A).

Definition empty_log : EventLog A := mkLog [] 0.

(** [ORDER BY datetime(observed_at) DESC, id DESC LIMIT n] *)
Definition newer (a b : LogRow A) : bool := (LrAt b <? LrAt a) || (LrAt a =? LrAt b) && (LrID b <? LrID a).
Definition newest (n : Z) rows : list (LogRow A) := take (Z.to_nat n) (sort_by newer rows).

Definition trim_log (maxRows : Z) log : EventLog A :=
  if maxRows <=? 0 then log
  else mkLog (List.filter (fun r => bool_decide (LrID r ∈ LrID <$> newest maxRows (LogRows log))) (LogRows log)) (LogSequence log).
Definition insert_row (at_ : Z) (data : A) log : EventLog A :=
  mkLog (LogRows log ++ [mkRow (LogSequence log + 1) at_ data]) (LogSequence log + 1).
Definition record_event (maxRows at_ : Z) (data : A) log : EventLog A := trim_log maxRows (insert_row at_ data log).

(** Ids are given out once, in order. *)
Definition log_ok log : Prop := NoDup (LrID <$> LogRows log) /\ Forall (fun r => LrID r <= LogSequence log) (LogRows log).
Definition until (at_ : Z) log : Prop := Forall (fun r => LrAt r <= at_) (LogRows log).

Lemma empty_log_ok : log_ok empty_log.
Proof. split; constructor. Qed.

Lemma NoDup_kept {B} (f : LogRow A -> B) keep rows : NoDup (f <$> rows) -> NoDup (f <$> List.filter keep rows).
Proof.
  intros Hnodup. eapply sublist_NoDup; [exact Hnodup|]. apply fmap_sublist. induction rows as [|r rows IH]; simpl; [done|].
  rewrite fmap_cons in Hnodup. apply NoDup_cons in Hnodup as [_ Hnodup]. split_if; constructor; auto.
Qed.

Lemma Forall_kept (P : LogRow A -> Prop) keep rows : Forall P rows -> Forall P (List.filter keep rows).
Proof.
  rewrite !Forall_forall. intros H r Hr. apply list_elem_of_In, filter_In in Hr as [Hr _]. apply H. by apply list_elem_of_In.
Qed.

Lemma trim_log_ok maxRows log : log_ok log -> log_ok (trim_log maxRows log).
Proof. intros [Hnodup Hseq]. unfold trim_log. split_if; [done|]. split; simpl; [by apply NoDup_kept | by apply Forall_kept]. Qed.

Lemma insert_row_ok at_ data log : log_ok log -> log_ok (insert_row at_ data log).
Proof.
  intros [Hnodup Hseq]. split; simpl.
  - rewrite fmap_app. apply NoDup_app. split; [done|]. split; [|by apply NoDup_singleton]. intros id Hid Hnew. apply list_elem_of_singleton in Hnew as ->. simpl in Hid.
    apply list_elem_of_fmap in Hid as (r & Hr & Hin). rewrite Forall_forall in Hseq. specialize (Hseq r Hin). lia.
  - apply Forall_app. split; [|by constructor; simpl; [lia|]]. eapply Forall_impl; [exact Hseq|]. simpl. lia.
Qed.
Lemma record_event_ok maxRows at_ data log : log_ok log -> log_ok (record_event maxRows at_ data log).
Proof. intros H. by apply trim_log_ok, insert_row_ok. Qed.

Lemma until_record maxRows at_ data log : until at_ log -> until at_ (record_event maxRows at_ data log).
Proof.
  intros H. unfold until, record_event, trim_log, insert_row. assert (Forall (fun r => LrAt r <= at_) (LogRows log ++ [mkRow (LogSequence log + 1) at_ data])) by (apply Forall_app; split; [done|]; constructor; simpl; [lia|constructor]).
  split_if; simpl; [done | by apply Forall_kept].
Qed.
Lemma until_later at_ at' log : at_ <= at' -> until at_ log -> until at' log.
Proof. intros Hle H. eapply Forall_impl; [exact H|]. simpl. lia. Qed.

(** The table never holds more rows than its limit. *)
Lemma record_event_bounded maxRows at_ data log : 0 < maxRows -> log_ok log -> zlen (LogRows (record_event maxRows at_ data log)) <= maxRows.
Proof.
  intros Hmax Hok. apply (insert_row_ok at_ data) in Hok as [Hnodup _]. unfold record_event, trim_log. destruct (Z.leb_spec maxRows 0); [lia|].
  set (log' := insert_row at_ data log) in *. set (kept := LrID <$> newest maxRows (LogRows log')).
  assert (length (LrID <$> List.filter (fun r => bool_decide (LrID r ∈ kept)) (LogRows log')) <= length kept)%nat as Hle.
  { apply NoDup_incl_length.
    - apply NoDup_ListNoDup. by apply NoDup_kept.
    - intros id Hid. apply list_elem_of_In. apply list_elem_of_In, list_elem_of_fmap in Hid as (r & -> & Hr). apply list_elem_of_In, filter_In in Hr as [_ Hr].
      by apply bool_decide_eq_true in Hr. }
  assert (length kept <= Z.to_nat maxRows)%nat by (unfold kept, newest; rewrite length_fmap, length_take; lia).
  rewrite length_fmap in Hle. change (zlen (List.filter (fun r => bool_decide (LrID r ∈ kept)) (LogRows log')) <= maxRows). unfold zlen. lia.
Qed.

(** The newest row comes first. *)
Lemma sort_by_newest rows r : Forall (fun x => newer r x = true) rows -> sort_by newer (rows ++ [r]) = r :: sort_by newer rows.
Proof.
  assert (forall l, Forall (fun x => newer r x = true) l -> foldr (insert_by newer) [r] l = r :: foldr (insert_by newer) [] l) as H.
  { induction 1 as [|x l Hx _ IH]; simpl; [done|]. rewrite IH. simpl. by rewrite Hx. }
  intros Hrows. unfold sort_by. rewrite foldr_app. simpl. by apply H.
Qed.

Lemma newer_inserted at_ data log : log_ok log -> until at_ log ->
  Forall (fun x => newer (mkRow (LogSequence log + 1) at_ data) x = true) (LogRows log).
Proof.
  intros [_ Hseq] Huntil. unfold until in Huntil. rewrite Forall_forall in *. intros x Hx. specialize (Hseq x Hx). specialize (Huntil x Hx).
  unfold newer. simpl. apply orb_true_iff. destruct (Z.ltb_spec (LrAt x) at_); [by left|]. right. apply andb_true_iff. split; [apply Z.eqb_eq; lia | apply Z.ltb_lt; lia].
Qed.

Lemma newest_record (p : LogRow A -> bool) n maxRows at_ data log (row := mkRow (LogSequence log + 1) at_ data) :
  log_ok log -> until at_ log -> 0 < maxRows -> p row = true ->
  exists older, newest n (List.filter p (LogRows (record_event maxRows at_ data log))) = take (Z.to_nat n) (row :: older).
Proof.
  intros Hok Huntil Hmax Hp. unfold record_event, trim_log. destruct (Z.leb_spec maxRows 0); [lia|]. simpl LogRows.
  pose proof (newer_inserted at_ data log Hok Huntil) as Hnew. fold row in Hnew |- *.
  set (keep := fun r : LogRow A => bool_decide (LrID r ∈ LrID <$> newest maxRows (LogRows log ++ [row]))).
  assert (keep row = true) as Hkeep.
  { apply bool_decide_eq_true. unfold newest. rewrite sort_by_newest by done. destruct (Z.to_nat maxRows) eqn:E; [lia|]. simpl. by left. }
  exists (sort_by newer (List.filter p (List.filter keep (LogRows log)))). unfold newest.
  rewrite !List.filter_app. simpl. rewrite Hkeep. simpl. rewrite Hp, sort_by_newest; [done|]. by apply Forall_kept, Forall_kept.
Qed.
End log.
