(* ===== verification/Pppoe.v ===== *)
(** * PPPoE discovery frames ([internal/broadband/pppoe/codec.go])

    The parser and the serialiser of PPPoE discovery frames and of their tag lists. A slice access
    of the source is a pattern on the list of remaining bytes, so an access the source's length
    check does not cover would be a missing case here. *)

From S2P Require Import Prelude Bytes.

Definition Version : Z := 1.
Definition Type_ : Z := 1.
Definition CodePADI : Z := 9.
Definition CodePADO : Z := 7.
Definition CodePADR : Z := 25.
Definition CodePADS : Z := 101.
Definition CodePADT : Z := 167.
Definition TagEndOfList : Z := 0.
Definition HeaderLen : Z := 6.

(** The sentinel errors, with the values their messages print. *)
Inductive error :=
| ErrFrameTooShort
| ErrInvalidHeader_version (version type : Z)
| ErrInvalidHeader_code (code : Z)
| ErrLengthMismatch (header actual : Z)
| ErrInvalidTag_at (offset : Z)
| ErrInvalidTag_length (type length remaining : Z)
| ErrInvalidTag_value (type : Z)
| ErrInvalidTag_payload
| FuelExhausted.  (** not an error of the source: the loop bound of the model *)

Record Tag := mkTag { TagType : Z; TagValue : list Z }.

Record Frame := mkFrame {
  FrameVersion : Z; FrameType : Z; FrameCode : Z; FrameSessionID : Z;
  FramePayload : list Z; FrameTags : list Tag }.

Definition IsDiscoveryCode (code : Z) : bool :=
  (code =? CodePADI) || (code =? CodePADO) || (code =? CodePADR) || (code =? CodePADS) || (code =? CodePADT).

(** One turn of the loop per unit of fuel; [rest] is [payload[offset:]] and [tags] the tags so far,
    in order. *)
Fixpoint ParseTags_loop (fuel : nat) (rest : list Z) (offset : Z) (tags : list Tag) : result error (list Tag) :=
  match fuel with
  | O => Err FuelExhausted
  | S fuel' =>
      match rest with
      | [] => Ok tags
      | t0 :: t1 :: l0 :: l1 :: rest4 =>
          let tagType := Uint16 t0 t1 in
          let tagLen := Uint16 l0 l1 in
          let offset := offset + 4 in
          if tagLen >? zlen rest4 then Err (ErrInvalidTag_length tagType tagLen (zlen rest4))
          else
            let value := take (Z.to_nat tagLen) rest4 in
            let tags := tags ++ [mkTag tagType value] in
            if tagType =? TagEndOfList then Ok tags
            else ParseTags_loop fuel' (drop (Z.to_nat tagLen) rest4) (offset + tagLen) tags
      | _ => Err (ErrInvalidTag_at offset)
      end
  end.

Definition ParseTags (payload : list Z) : result error (list Tag) :=
  ParseTags_loop (S (length payload)) payload 0 [].

Definition ParseDiscoveryFrame (packet : list Z) : result error Frame :=
  match packet with
  | versionType :: code :: s0 :: s1 :: l0 :: l1 :: body =>
      let version := Z.shiftr versionType 4 in
      let frameType := Z.land versionType 15 in
      if negb (version =? Version) || negb (frameType =? Type_)
      then Err (ErrInvalidHeader_version version frameType)
      else if negb (IsDiscoveryCode code) then Err (ErrInvalidHeader_code code)
      else
        let length := Uint16 l0 l1 in
        if negb (zlen packet - HeaderLen =? length)
        then Err (ErrLengthMismatch length (zlen packet - HeaderLen))
        else
          let payload := body in
          tags ← ParseTags payload;
          Ok (mkFrame version frameType code (Uint16 s0 s1) payload tags)
  | _ => Err ErrFrameTooShort
  end.

(** The first loop of [MarshalDiscoveryFrame]: the payload length, or the first oversized tag. *)
Fixpoint payload_length (tags : list Tag) (payloadLen : Z) : result error Z :=
  match tags with
  | [] => Ok payloadLen
  | tag :: tags' =>
      if zlen (TagValue tag) >? 65535 then Err (ErrInvalidTag_value (TagType tag))
      else payload_length tags' (payloadLen + (4 + zlen (TagValue tag)))
  end.

(** What the second loop writes for one tag. *)
Definition marshal_tag (tag : Tag) : list Z :=
  PutUint16 (TagType tag) ++ PutUint16 (to_uint16 (zlen (TagValue tag))) ++ TagValue tag.

(** The second loop: what it writes after the header. *)
Fixpoint marshal_tags (tags : list Tag) : list Z :=
  match tags with
  | [] => []
  | tag :: tags' => marshal_tag tag ++ marshal_tags tags'
  end.

Definition MarshalDiscoveryFrame (code sessionID : Z) (tags : list Tag) : result error (list Z) :=
  if negb (IsDiscoveryCode code) then Err (ErrInvalidHeader_code code)
  else
    payloadLen ← payload_length tags 0;
    if payloadLen >? 65535 then Err ErrInvalidTag_payload
    else Ok ([Z.lor (to_byte (Z.shiftl Version 4)) (to_byte Type_); code]
             ++ PutUint16 sessionID ++ PutUint16 (to_uint16 payloadLen) ++ marshal_tags tags).

(** [string(tag.Value)] is the byte sequence itself. *)
Definition TagValueString (tags : list Tag) (tagType : Z) : option (list Z) :=
  firstSome (fun tag => if TagType tag =? tagType then Some (TagValue tag) else None) tags.

(** The tags a parser sees: up to the first end-of-list tag, included. *)
Fixpoint upto_end (tags : list Tag) : list Tag :=
  match tags with
  | [] => []
  | tag :: tags' => tag :: (if TagType tag =? TagEndOfList then [] else upto_end tags')
  end.

Definition wf_tag (tag : Tag) : Prop := is_uint16 (TagType tag).

(** ** Helper lemmas *)

Lemma zlen_marshal_tag t : zlen (marshal_tag t) = 4 + zlen (TagValue t).
Proof. unfold marshal_tag, PutUint16. autorewrite with zlen. lia. Qed.

Lemma payload_length_acc tags n m :
  payload_length tags n = Ok m ->
  m = n + zlen (marshal_tags tags) /\ Forall (fun t => zlen (TagValue t) <= 65535) tags.
Proof.
  revert n. induction tags as [|t tags IH]; intros n; cbn [payload_length marshal_tags].
  - intros [= ->]. split; [unfold zlen; simpl; lia | done].
  - split_if; [discriminate|]. bool_arith. intros [-> HF]%IH. split; [|by constructor].
    rewrite zlen_app, zlen_marshal_tag. lia.
Qed.

Lemma parse_marshal_loop tags : forall fuel offset acc,
  Forall wf_tag tags -> Forall (fun t => zlen (TagValue t) <= 65535) tags ->
  (length (marshal_tags tags) < fuel)%nat ->
  ParseTags_loop fuel (marshal_tags tags) offset acc = Ok (acc ++ upto_end tags).
Proof.
  induction tags as [|t tags IH]; intros [|fuel] offset acc Hwf Hlen Hfuel; try (simpl in Hfuel; lia).
  - simpl. by rewrite app_nil_r.
  - apply Forall_cons in Hwf as [Ht Hwf]; apply Forall_cons in Hlen as [Hl Hlen].
    cbn [marshal_tags upto_end] in *. unfold marshal_tag in *. rewrite <- !app_assoc in *.
    cbn [PutUint16 app ParseTags_loop].
    assert (is_uint16 (zlen (TagValue t))) as Hu by (pose proof (zlen_nonneg (TagValue t)); unfold is_uint16; lia).
    rewrite (to_uint16_small _ Hu), (Uint16_Put _ Hu), (Uint16_Put _ Ht).
    assert (Z.to_nat (zlen (TagValue t)) = length (TagValue t)) as -> by (unfold zlen; lia).
    rewrite take_app_length, drop_app_length.
    destruct (zlen (TagValue t) >? _) eqn:E; [bool_arith; rewrite zlen_app in E; pose proof (zlen_nonneg (marshal_tags tags)); unfold marshal_tag in *; lia|].
    destruct t as [ty v]; cbn [TagType TagValue upto_end] in *.
    destruct (ty =? TagEndOfList); [done|].
    rewrite IH; [by rewrite <- app_assoc | done | done |].
    rewrite !length_app in Hfuel. simpl in Hfuel. lia.
Qed.

Lemma ParseTags_loop_fuel fuel : forall rest offset acc,
  (length rest < fuel)%nat -> ParseTags_loop fuel rest offset acc <> Err FuelExhausted.
Proof.
  induction fuel as [|fuel IH]; intros rest offset acc Hf; [lia|].
  destruct rest as [|t0 [|t1 [|l0 [|l1 rest]]]]; simpl in *; try done.
  repeat split_if; try done. apply IH. rewrite length_drop. lia.
Qed.

(** What a successful parse read back is what the tags serialise to. *)
Lemma parse_loop_inv fuel : forall rest offset acc tags,
  wf_bytes rest -> ParseTags_loop fuel rest offset acc = Ok tags ->
  exists new, tags = acc ++ new /\ upto_end new = new /\ Forall wf_tag new /\
    exists tail, rest = marshal_tags new ++ tail /\
      (tail = [] \/ Exists (fun t => TagType t = TagEndOfList) new) /\
      Forall (fun t => zlen (TagValue t) <= 65535) new.
Proof.
  induction fuel as [|fuel IH]; intros rest offset acc tags Hwf; [done|].
  destruct rest as [|t0 [|t1 [|l0 [|l1 rest]]]]; cbn [ParseTags_loop]; try done.
  { intros [= ->]. exists []. rewrite app_nil_r. repeat split; try constructor. exists []. by repeat split; try left. }
  inv_Forall. destruct (Uint16 l0 l1 >? zlen rest) eqn:Hlen; [done|]. bool_arith.
  assert (is_uint16 (Uint16 l0 l1)) as Hu by auto with nas. pose proof Hu as [Hu0 Hu1].
  set (n := Z.to_nat (Uint16 l0 l1)) in *. set (v := take n rest).
  assert (zlen v = Uint16 l0 l1) as Hv by (unfold v, zlen in *; rewrite length_take; lia).
  assert (t0 :: t1 :: l0 :: l1 :: rest = marshal_tag (mkTag (Uint16 t0 t1) v) ++ drop n rest) as Heq.
  { unfold marshal_tag. simpl TagType; simpl TagValue. rewrite Hv, to_uint16_small by done.
    rewrite !PutUint16_Uint16 by done. simpl. unfold v. by rewrite take_drop. }
  assert (wf_tag (mkTag (Uint16 t0 t1) v)) as Hwt by (by apply Uint16_is_uint16).
  destruct (Uint16 t0 t1 =? TagEndOfList) eqn:Hend.
  - intros [= <-]. bool_arith. exists [mkTag (Uint16 t0 t1) v]. rewrite Heq. cbn. rewrite Hend. simpl.
    repeat split; [by repeat constructor|]. exists (drop n rest). rewrite app_nil_r.
    repeat split; [right; by constructor | constructor; [simpl; lia|done]].
  - intros Hrec. apply IH in Hrec as (new & -> & Hup & Hf & tail & Hr & Htl & Hlens); [|by apply Forall_drop].
    exists (mkTag (Uint16 t0 t1) v :: new). rewrite Heq, Hr. cbn [upto_end TagType marshal_tags].
    rewrite Hend, Hup. split_and!; [by rewrite <- app_assoc | done | by constructor |]. exists tail.
    split_and!; [by rewrite app_assoc | destruct Htl; [by left | right; by constructor 2] | constructor; [simpl; lia|done]].
Qed.

Lemma version_byte : Z.lor (to_byte (Z.shiftl Version 4)) (to_byte Type_) = 17.
Proof. reflexivity. Qed.

Lemma payload_length_ok tags n :
  Forall (fun t => zlen (TagValue t) <= 65535) tags -> payload_length tags n = Ok (n + zlen (marshal_tags tags)).
Proof.
  intros H; revert n. induction H as [|t tags Ht H IH]; intros n; cbn [payload_length marshal_tags].
  - by rewrite zlen_nil, Z.add_0_r.
  - replace (_ >? _) with false by (symmetry; rewrite Z.gtb_ltb; apply Z.ltb_ge; lia).
    rewrite IH, zlen_app, zlen_marshal_tag. f_equal. lia.
Qed.

Lemma version_nibbles b :
  is_byte b -> (Z.shiftr b 4 =? Version) = true -> (Z.land b 15 =? Type_) = true -> b = 17.
Proof.
  unfold is_byte, Version, Type_. intros Hb Hv Ht. bool_arith.
  rewrite Z.shiftr_div_pow2 in Hv by lia. change 15 with (Z.ones 4) in Ht.
  rewrite Z.land_ones in Ht by lia. change (2 ^ 4) with 16 in *.
  rewrite (Z.div_mod b 16) by lia. rewrite Hv, Ht. reflexivity.
Qed.

(** ** Properties *)

(** Parsing a marshalled discovery frame gives back its code, its session id and its tags up to
    the first end-of-list tag, with the payload the tags serialise to. *)
Theorem parse_marshal code sessionID tags p :
  is_uint16 sessionID -> Forall wf_tag tags ->
  MarshalDiscoveryFrame code sessionID tags = Ok p ->
  ParseDiscoveryFrame p =
    Ok (mkFrame Version Type_ code sessionID (marshal_tags tags) (upto_end tags)).
Proof.
  intros Hs Hwf. unfold MarshalDiscoveryFrame. destruct (IsDiscoveryCode code) eqn:Hc; [|done].
  cbn [negb]. intros (n & Hn & H)%bind_Ok. apply payload_length_acc in Hn as [-> Hlens].
  destruct (_ >? 65535) eqn:E; [done|]. bool_arith. injection H as <-.
  assert (is_uint16 (0 + zlen (marshal_tags tags))) as Hu.
  { pose proof (zlen_nonneg (marshal_tags tags)). unfold is_uint16. lia. }
  change (Z.lor (to_byte (Z.shiftl Version 4)) (to_byte Type_)) with 17.
  cbn [PutUint16 app ParseDiscoveryFrame].
  change (Z.shiftr 17 4) with Version. change (Z.land 17 15) with Type_. rewrite Hc, !Z.eqb_refl.
  rewrite (to_uint16_small _ Hu), (Uint16_Put _ Hu), (Uint16_Put _ Hs).
  autorewrite with zlen. unfold HeaderLen. cbn [negb orb].
  replace (_ =? _) with true by (symmetry; apply Z.eqb_eq; lia).
  unfold ParseTags. rewrite parse_marshal_loop; [done | done | done | lia].
Qed.

(** A discovery frame accepted by the parser is, byte for byte, what the serialiser writes for
    its code, session id and tags, unless it carries an end-of-list tag (after which the parser
    skips the padding). *)
Theorem marshal_parse p f :
  wf_bytes p -> ParseDiscoveryFrame p = Ok f ->
  Forall (fun t => TagType t <> TagEndOfList) (FrameTags f) ->
  MarshalDiscoveryFrame (FrameCode f) (FrameSessionID f) (FrameTags f) = Ok p.
Proof.
  intros Hwf. unfold ParseDiscoveryFrame.
  destruct p as [|vt [|code [|s0 [|s1 [|l0 [|l1 body]]]]]]; try done.
  destruct (Z.shiftr vt 4 =? Version) eqn:Hv; [|done]. destruct (Z.land vt 15 =? Type_) eqn:Ht; [|done].
  destruct (IsDiscoveryCode code) eqn:Hc; [|done]. cbn [negb orb].
  destruct (_ =? Uint16 l0 l1) eqn:Hl; [|done]. cbn [negb].
  intros (tags & Hp & H)%bind_Ok Hend. injection H as <-. cbn [FrameCode FrameSessionID FrameTags] in *.
  inv_Forall. apply parse_loop_inv in Hp as (new & -> & _ & _ & tail & Heq & Htail & Hlens); [|done].
  cbn [app] in *. destruct Htail as [->|Hex].
  2: { rewrite Forall_forall in Hend. apply Exists_exists in Hex as (t & Hin & Ht'). by destruct (Hend t Hin). }
  rewrite app_nil_r in Heq. subst body. bool_arith.
  autorewrite with zlen in Hl. unfold HeaderLen in Hl.
  assert (is_uint16 (Uint16 l0 l1)) as Hu by auto with nas.
  unfold MarshalDiscoveryFrame. rewrite Hc. cbn [negb]. rewrite payload_length_ok, Z.add_0_l by done. cbn -[PutUint16 marshal_tags].
  replace (zlen (marshal_tags new)) with (Uint16 l0 l1) by lia.
  replace (_ >? 65535) with false by (symmetry; rewrite Z.gtb_ltb; apply Z.ltb_ge; unfold is_uint16 in Hu; lia).
  rewrite to_uint16_small, !PutUint16_Uint16 by done.
  rewrite (version_nibbles vt) by (done || by apply Z.eqb_eq).
  reflexivity.
Qed.

(** The parser always terminates with one of the source's own results, a frame or an error. *)
Theorem parse_total p : ParseDiscoveryFrame p <> Err FuelExhausted.
Proof.
  unfold ParseDiscoveryFrame, ParseTags. repeat (split_match; try done).
  intros [H|(a & _ & [=])]%bind_Err. revert H. apply ParseTags_loop_fuel. lia.
Qed.

(** ** Witnesses *)

Definition sample_tags : list Tag := [mkTag 257 []; mkTag 259 [222; 173]].

Lemma parse_marshal_witness :
  ParseDiscoveryFrame [17; 9; 0; 7; 0; 10; 1; 1; 0; 0; 1; 3; 0; 2; 222; 173] =
    Ok (mkFrame 1 1 9 7 [1; 1; 0; 0; 1; 3; 0; 2; 222; 173] sample_tags).
Proof.
  apply (parse_marshal 9 7 sample_tags); [unfold is_uint16; lia | | reflexivity].
  repeat constructor; unfold is_uint16; cbn; lia.
Defined.

Lemma marshal_parse_witness :
  MarshalDiscoveryFrame 9 7 sample_tags = Ok [17; 9; 0; 7; 0; 10; 1; 1; 0; 0; 1; 3; 0; 2; 222; 173].
Proof.
  apply (marshal_parse _ (mkFrame 1 1 9 7 [1; 1; 0; 0; 1; 3; 0; 2; 222; 173] sample_tags));
    [| reflexivity |].
  - repeat constructor; unfold is_byte; lia.
  - repeat constructor; done.
Defined.
