(* ===== verification/Subscriber.v ===== *)
(** * Broadband subscriber state machine ([internal/broadband/subscriber/state_machine.go])

    The states, the events, the table of canonical transitions and [Apply]. The Go types [State] and
    [Event] are strings restricted to the declared constants by [parseState] and [parseEvent]; they
    are enumerations here, with the constants' spellings as [State_string] and [Event_string]. The
    table is a step relation on states; the second half of the file is about its reachable part. *)

From S2P Require Import Prelude GoStrings.

Inductive State :=
| StateNew
| StateDiscovered
| StateAuthenticating
| StateAuthorized
| StateAddressAssigned
| StateServiceActive
| StateAccountingStarted
| StateInterimSeen
| StatePolicyUpdatePending
| StateReconnecting
| StateSuspended
| StateDisconnecting
| StateStopped
| StateRecovered
| StateFailed.

Inductive Event :=
| EventDiscovery
| EventAccessRequest
| EventAccessAccept
| EventAccessReject
| EventAddressAssigned
| EventServiceActivate
| EventAccountingStart
| EventAccountingInterim
| EventPolicyUpdate
| EventCoAAck
| EventReconnectRequest
| EventReconnectRecovered
| EventAccountingStop
| EventDisconnect
| EventRecoveryScan
| EventFailure.

#[export] Instance State_eq_dec : EqDecision State.
Proof. solve_decision. Defined.
#[export] Instance Event_eq_dec : EqDecision Event.
Proof. solve_decision. Defined.

Definition all_states : list State :=
  [StateNew; StateDiscovered; StateAuthenticating; StateAuthorized; StateAddressAssigned; StateServiceActive; StateAccountingStarted; StateInterimSeen; StatePolicyUpdatePending; StateReconnecting; StateSuspended; StateDisconnecting; StateStopped; StateRecovered; StateFailed].
Definition all_events : list Event :=
  [EventDiscovery; EventAccessRequest; EventAccessAccept; EventAccessReject; EventAddressAssigned; EventServiceActivate; EventAccountingStart; EventAccountingInterim; EventPolicyUpdate; EventCoAAck; EventReconnectRequest; EventReconnectRecovered; EventAccountingStop; EventDisconnect; EventRecoveryScan; EventFailure].

#[export] Program Instance State_finite : finite.Finite State := {| finite.enum := all_states |}.
Next Obligation. by apply (bool_decide_unpack _). Qed.
Next Obligation. intros []; by apply (bool_decide_unpack _). Qed.
#[export] Program Instance Event_finite : finite.Finite Event := {| finite.enum := all_events |}.
Next Obligation. by apply (bool_decide_unpack _). Qed.
Next Obligation. intros []; by apply (bool_decide_unpack _). Qed.

Definition State_string (s : State) : string :=
  match s with
  | StateNew => "new"
  | StateDiscovered => "discovered"
  | StateAuthenticating => "authenticating"
  | StateAuthorized => "authorized"
  | StateAddressAssigned => "address_assigned"
  | StateServiceActive => "service_active"
  | StateAccountingStarted => "accounting_started"
  | StateInterimSeen => "interim_seen"
  | StatePolicyUpdatePending => "policy_update_pending"
  | StateReconnecting => "reconnecting"
  | StateSuspended => "suspended"
  | StateDisconnecting => "disconnecting"
  | StateStopped => "stopped"
  | StateRecovered => "recovered"
  | StateFailed => "failed"
  end.

Definition Event_string (e : Event) : string :=
  match e with
  | EventDiscovery => "discovery"
  | EventAccessRequest => "access-request"
  | EventAccessAccept => "access-accept"
  | EventAccessReject => "access-reject"
  | EventAddressAssigned => "address-assigned"
  | EventServiceActivate => "service-activate"
  | EventAccountingStart => "accounting-start"
  | EventAccountingInterim => "accounting-interim"
  | EventPolicyUpdate => "policy-update"
  | EventCoAAck => "coa-ack"
  | EventReconnectRequest => "reconnect-request"
  | EventReconnectRecovered => "reconnect-recovered"
  | EventAccountingStop => "accounting-stop"
  | EventDisconnect => "disconnect"
  | EventRecoveryScan => "recovery-scan"
  | EventFailure => "failure"
  end.

Record Transition := mkTransition {
  From_ : State; Event_ : Event; To : State; Required : bool; Actions : list string;
  Accounting : bool; Recoverable : bool; Description : string }.

Record Decision_ := mkDecision { Transition_ : Transition; Allowed : bool; Reason : string }.

Inductive error :=
| ErrInvalidState (current : string)   (** subscriber state %q is invalid *)
| ErrInvalidEvent (event : string).    (** subscriber event %q is invalid *)

Definition canonicalTransitions : list Transition := [
  mkTransition StateNew EventDiscovery StateDiscovered true ["bind access circuit"; "record discovery evidence"] false true
    "Access circuit or PPPoE discovery creates a pending subscriber context.";
  mkTransition StateDiscovered EventAccessRequest StateAuthenticating true ["correlate identity"; "attach NAS and circuit attributes"] false true
    "RADIUS Access-Request moves the subscriber into authentication.";
  mkTransition StateAuthenticating EventAccessAccept StateAuthorized true ["select product"; "render authorization attributes"] false true
    "Access-Accept authorizes the selected product and role.";
  mkTransition StateAuthenticating EventAccessReject StateFailed true ["record rejection"; "release pending resources"] false false
    "Access-Reject closes the pending subscriber context.";
  mkTransition StateAuthorized EventAddressAssigned StateAddressAssigned true ["allocate IPv4/IPv6 leases"; "bind delegated prefix"] false true
    "Address assignment binds pools, leases, and delegated prefixes.";
  mkTransition StateAddressAssigned EventServiceActivate StateServiceActive true ["activate service legs"; "publish route and QoS intent"] false true
    "Service activation attaches route, QoS, NAT, multicast, and wholesale legs.";
  mkTransition StateServiceActive EventAccountingStart StateAccountingStarted true ["open accounting ledger"; "correlate Acct-Session-Id"] true true
    "Accounting-Start makes the subscriber session operationally durable.";
  mkTransition StateAccountingStarted EventAccountingInterim StateInterimSeen true ["update counters"; "refresh quota and charging hooks"] true true
    "Accounting-Interim refreshes counters, quota, charging, and support evidence.";
  mkTransition StateInterimSeen EventAccountingInterim StateInterimSeen false ["update counters"; "refresh quota and charging hooks"] true true
    "Repeated interim updates keep the service active.";
  mkTransition StateAccountingStarted EventPolicyUpdate StatePolicyUpdatePending false ["stage policy delta"; "prepare CoA"] false true
    "Quota, posture, or product changes stage a policy transition.";
  mkTransition StateInterimSeen EventPolicyUpdate StatePolicyUpdatePending false ["stage policy delta"; "prepare CoA"] false true
    "Quota, posture, or product changes stage a policy transition.";
  mkTransition StatePolicyUpdatePending EventCoAAck StateAccountingStarted true ["commit policy revision"; "record CoA acknowledgement"] false true
    "Successful CoA commits a live policy transition.";
  mkTransition StateAccountingStarted EventReconnectRequest StateReconnecting false ["preserve ownership lease"; "start reconnect timer"] false true
    "Reconnect handling preserves subscriber ownership across access flaps.";
  mkTransition StateInterimSeen EventReconnectRequest StateReconnecting false ["preserve ownership lease"; "start reconnect timer"] false true
    "Reconnect handling preserves subscriber ownership across access flaps.";
  mkTransition StateReconnecting EventReconnectRecovered StateAccountingStarted false ["rebind access circuit"; "resume accounting correlation"] true true
    "Recovered reconnect resumes the same subscriber service context.";
  mkTransition StateAccountingStarted EventAccountingStop StateStopped true ["close accounting ledger"; "release leases and service legs"] true false
    "Accounting-Stop cleanly releases subscriber state.";
  mkTransition StateInterimSeen EventAccountingStop StateStopped true ["close accounting ledger"; "release leases and service legs"] true false
    "Accounting-Stop cleanly releases subscriber state.";
  mkTransition StatePolicyUpdatePending EventDisconnect StateDisconnecting true ["send disconnect"; "rollback pending policy"] false false
    "Disconnect tears down an unsafe pending policy transition.";
  mkTransition StateAccountingStarted EventDisconnect StateDisconnecting true ["send disconnect"; "close services"] false false
    "Disconnect tears down the active session.";
  mkTransition StateDisconnecting EventAccountingStop StateStopped true ["close accounting ledger"; "release resources"] true false
    "Stop after disconnect finalizes cleanup.";
  mkTransition StateReconnecting EventRecoveryScan StateRecovered false ["mark recovered"; "emit recovery evidence"] false true
    "Recovery scan reconciles stale reconnect state.";
  mkTransition StateRecovered EventAccountingInterim StateInterimSeen false ["refresh counters"; "clear recovery marker"] true true
    "Interim after recovery resumes normal accounting.";
  mkTransition StateSuspended EventPolicyUpdate StatePolicyUpdatePending false ["stage restore policy"; "prepare CoA"] false true
    "Suspended subscribers can be restored by a policy transition.";
  mkTransition StateServiceActive EventFailure StateFailed true ["fail closed"; "release pending service resources"] false false
    "Service activation failure fails closed before accounting starts."].

Definition CanonicalTransitions : list Transition := canonicalTransitions.

Section subscriber.
Context `{Unicode}.

Definition parseState (value : string) : option State :=
  List.find (fun s => (lower_trim value =? State_string s)%string) all_states.

Definition parseEvent (value : string) : option Event :=
  List.find (fun e => (lower_trim value =? Event_string e)%string) all_events.

Definition ValidState (value : string) : bool := match parseState value with Some _ => true | None => false end.
Definition ValidEvent (value : string) : bool := match parseEvent value with Some _ => true | None => false end.

(** The first transition of the table for a state and an event (the [for] loop of [Apply]). *)
Definition find_transition (state : State) (ev : Event) : option Transition :=
  List.find (fun t => bool_decide (From_ t = state) && bool_decide (Event_ t = ev)) canonicalTransitions.

Definition Apply (current event : string) : result error Decision_ :=
  match parseState current with
  | None => Err (ErrInvalidState current)
  | Some state =>
      match parseEvent event with
      | None => Err (ErrInvalidEvent event)
      | Some ev =>
          match find_transition state ev with
          | Some transition => Ok (mkDecision transition true "")
          | None =>
              Ok (mkDecision (mkTransition state ev state false [] false false "") false
                    ("event " +:+ Event_string ev +:+ " is not valid from state " +:+ State_string state))
          end
      end
  end.

(** ** The step relation and its runs *)

(** One accepted event. *)
Definition step (s : State) (ev : Event) (s' : State) : Prop :=
  exists t, find_transition s ev = Some t /\ To t = s'.

(** The events accepted along a path of the machine. *)
Inductive run : State -> list Event -> State -> Prop :=
| run_nil s : run s [] s
| run_snoc s evs s' ev s'' : run s evs s' -> step s' ev s'' -> run s (evs ++ [ev]) s''.

Definition reachable (s : State) : Prop := exists evs, run StateNew evs s.

(** The states of a session whose accounting has been opened. *)
Definition accounted (s : State) : bool :=
  bool_decide (s ∈ [StateAccountingStarted; StateInterimSeen; StatePolicyUpdatePending; StateReconnecting; StateSuspended;
                    StateDisconnecting; StateStopped; StateRecovered]).

(** The one admission sequence of the table. *)
Definition admission : list Event :=
  [EventDiscovery; EventAccessRequest; EventAccessAccept; EventAddressAssigned; EventServiceActivate;
   EventAccountingStart].

(** The admission prefix a state before accounting stands for. *)
Definition admission_prefix (s : State) : option nat :=
  match s with
  | StateNew => Some 0%nat | StateDiscovered => Some 1%nat | StateAuthenticating => Some 2%nat
  | StateAuthorized => Some 3%nat | StateAddressAssigned => Some 4%nat | StateServiceActive => Some 5%nat
  | _ => None
  end.

Definition terminal (s : State) : bool := bool_decide (s = StateStopped) || bool_decide (s = StateFailed).

(** An event sequence that closes a session from each reachable state. *)
Definition closing (s : State) : list Event :=
  match s with
  | StateNew => [EventDiscovery; EventAccessRequest; EventAccessReject]
  | StateDiscovered => [EventAccessRequest; EventAccessReject]
  | StateAuthenticating => [EventAccessReject]
  | StateAuthorized => [EventAddressAssigned; EventServiceActivate; EventFailure]
  | StateAddressAssigned => [EventServiceActivate; EventFailure]
  | StateServiceActive => [EventFailure]
  | StateAccountingStarted | StateInterimSeen | StateDisconnecting => [EventAccountingStop]
  | StatePolicyUpdatePending => [EventDisconnect; EventAccountingStop]
  | StateReconnecting => [EventReconnectRecovered; EventAccountingStop]
  | StateSuspended => [EventPolicyUpdate; EventDisconnect; EventAccountingStop]
  | StateRecovered => [EventAccountingInterim; EventAccountingStop]
  | StateStopped | StateFailed => []
  end.

(** ** Helper lemmas *)

Lemma lower_trim_State s : lower_trim (State_string s) = State_string s.
Proof. destruct s; reflexivity. Qed.
Lemma lower_trim_Event e : lower_trim (Event_string e) = Event_string e.
Proof. destruct e; reflexivity. Qed.

Lemma State_string_inj s s' : State_string s = State_string s' -> s = s'.
Proof. destruct s, s'; first [reflexivity | discriminate]. Qed.
Lemma Event_string_inj e e' : Event_string e = Event_string e' -> e = e'.
Proof. destruct e, e'; first [reflexivity | discriminate]. Qed.

Lemma parseState_Some v s : parseState v = Some s <-> lower_trim v = State_string s.
Proof.
  unfold parseState. split.
  - intros [_ Hf]%List.find_some. by apply String.eqb_eq.
  - intros ->. destruct s; reflexivity.
Qed.
Lemma parseEvent_Some v e : parseEvent v = Some e <-> lower_trim v = Event_string e.
Proof.
  unfold parseEvent. split.
  - intros [_ Hf]%List.find_some. by apply String.eqb_eq.
  - intros ->. destruct e; reflexivity.
Qed.

(** Facts about every state and event are decided by evaluation of the table. *)
Lemma step_table (P : State -> Event -> State -> bool) :
  forallb (fun t => P (From_ t) (Event_ t) (To t)) canonicalTransitions = true ->
  forall s ev s', step s ev s' -> P s ev s' = true.
Proof.
  intros HP s ev s' (t & Hf & <-). unfold find_transition in Hf.
  apply List.find_some in Hf as [Hin Hb]. apply andb_true_iff in Hb as [Hs He].
  apply bool_decide_eq_true in Hs, He. subst. rewrite forallb_forall in HP. by apply HP.
Qed.

Lemma step_accounted s ev s' : step s ev s' -> accounted s' = true -> accounted s = true \/ (s = StateServiceActive /\ ev = EventAccountingStart).
Proof.
  intros Hs Ha. pose proof (step_table (fun s ev s' => negb (accounted s') || accounted s ||
    (bool_decide (s = StateServiceActive) && bool_decide (ev = EventAccountingStart))) eq_refl s ev s' Hs) as HP.
  cbn beta in HP. rewrite Ha in HP. cbn in HP. apply orb_true_iff in HP as [HP|HP]; [by left|right].
  apply andb_true_iff in HP as [?%bool_decide_eq_true ?%bool_decide_eq_true]. done.
Qed.

Lemma step_prefix s ev s' n :
  step s ev s' -> admission_prefix s' = Some n ->
  exists m, admission_prefix s = Some m /\ n = S m /\ admission !! m = Some ev.
Proof.
  intros Hs Hn. pose proof (step_table (fun s ev s' => match admission_prefix s' with None => true | Some n =>
    match admission_prefix s with None => false | Some m => Nat.eqb n (S m) && bool_decide (admission !! m = Some ev) end end)
    eq_refl s ev s' Hs) as HP. cbn beta in HP. rewrite Hn in HP.
  destruct (admission_prefix s) as [m|]; [|done]. apply andb_true_iff in HP as [HP1 HP2].
  apply Nat.eqb_eq in HP1. apply bool_decide_eq_true in HP2. eauto.
Qed.

Lemma run_prefix evs s n : run StateNew evs s -> admission_prefix s = Some n -> evs = take n admission.
Proof.
  intros Hr. remember StateNew as s0 eqn:E. revert n. induction Hr as [s|s evs s' ev s'' Hr IH Hs]; intros n Hn; subst.
  - by simplify_eq/=.
  - destruct (step_prefix _ _ _ _ Hs Hn) as (m & Hm & -> & Hl). rewrite (IH eq_refl _ Hm).
    symmetry. by apply take_S_r.
Qed.

Lemma run_app s evs1 s' evs2 s'' : run s evs1 s' -> run s' evs2 s'' -> run s (evs1 ++ evs2) s''.
Proof.
  intros H1 H2. induction H2 as [|s' evs2 s2 ev s3 H2 IH Hs]; [by rewrite app_nil_r|].
  rewrite app_assoc. econstructor; eauto.
Qed.

(** Runs are computed by folding the transition function. *)
Definition exec (s : State) (evs : list Event) : option State :=
  foldl (fun o ev => o ≫= fun s => To <$> find_transition s ev) (Some s) evs.

Lemma exec_run s evs s' : exec s evs = Some s' -> run s evs s'.
Proof.
  unfold exec. revert s'. induction evs as [|ev evs IH] using rev_ind; intros s'.
  - intros [= ->]. constructor.
  - rewrite foldl_app. cbn [foldl]. intros (s1 & H1 & (t & H2 & H3)%fmap_Some)%bind_Some.
    econstructor; [by apply IH | exists t; eauto].
Qed.

Lemma closing_exec s : exists s', exec s (closing s) = Some s' /\ terminal s' = true.
Proof. destruct s; eexists; (split; [reflexivity | reflexivity]). Qed.

(** ** Properties *)

(** [Apply] accepts an event exactly when the table has a transition for it; the answer is that
    transition, and otherwise the state stays what it was. *)
Theorem Apply_spec s ev :
  exists d, Apply (State_string s) (Event_string ev) = Ok d /\
    From_ (Transition_ d) = s /\ Event_ (Transition_ d) = ev /\
    (Allowed d = true <-> exists s', step s ev s') /\
    (Allowed d = true -> step s ev (To (Transition_ d)) /\ Transition_ d ∈ canonicalTransitions) /\
    (Allowed d = false -> To (Transition_ d) = s).
Proof.
  unfold Apply. rewrite (proj2 (parseState_Some _ s) (lower_trim_State s)).
  rewrite (proj2 (parseEvent_Some _ ev) (lower_trim_Event ev)).
  destruct (find_transition s ev) as [t|] eqn:Ht; eexists; (split; [reflexivity|]); cbn.
  - pose proof Ht as Ht'. unfold find_transition in Ht'. apply List.find_some in Ht' as [Hin Hb].
    apply andb_true_iff in Hb as [Hs He]. apply bool_decide_eq_true in Hs, He.
    split_and!; try done; [split; [exists (To t), t; done | done]|].
    intros _. split; [by exists t | by apply list_elem_of_In].
  - split_and!; try done. split; [done|]. intros (s' & t & Ht' & _). congruence.
Qed.

(** A subscriber whose accounting has been opened went through the whole admission sequence, in
    its order: discovery, access request, access accept, address, service activation, start. *)
Theorem accounting_after_admission evs s :
  run StateNew evs s -> accounted s = true -> take 6 evs = admission.
Proof.
  intros Hr. remember StateNew as s0 eqn:E. induction Hr as [s|s evs s' ev s'' Hr IH Hs]; intros Ha; subst; [done|].
  destruct (step_accounted _ _ _ Hs Ha) as [Ha'|[-> ->]].
  - specialize (IH eq_refl Ha'). rewrite take_app_le; [done|].
    apply (f_equal length) in IH. rewrite length_take in IH. change (length admission) with 6%nat in IH. lia.
  - rewrite (run_prefix _ _ 5 Hr eq_refl). reflexivity.
Qed.

(** From every state some sequence of events closes the subscriber, in state stopped or
    failed, and nothing leads out of these two: every session can be ended, and ends for good. *)
Theorem every_state_can_close s :
  (exists evs s', run s evs s' /\ terminal s' = true) /\ (terminal s = true -> forall ev s', ~ step s ev s').
Proof.
  split.
  - destruct (closing_exec s) as (s' & He & Ht). exists (closing s), s'. split; [by apply exec_run | done].
  - intros Ht ev s' Hs.
    pose proof (step_table (fun s _ _ => negb (terminal s)) eq_refl s ev s' Hs) as HP. cbn beta in HP.
    by rewrite Ht in HP.
Qed.

(** No event sequence takes a new subscriber to [StateSuspended]: the state is declared, and
    left by a policy update, but the table has no transition into it. *)
Theorem suspended_unreachable : ~ reachable StateSuspended.
Proof.
  intros (evs & Hr). inversion Hr as [|? ? s' ev ? _ Hs]; subst.
  by pose proof (step_table (fun _ _ s' => negb (bool_decide (s' = StateSuspended))) eq_refl _ _ _ Hs).
Qed.
End subscriber.

(** ** Witnesses *)

Lemma accounting_after_admission_witness :
  take 6 (admission ++ [EventAccountingInterim; EventPolicyUpdate]) = admission.
Proof.
  apply (accounting_after_admission _ StatePolicyUpdatePending); [|reflexivity].
  apply exec_run. vm_compute. reflexivity.
Defined.

Lemma every_state_can_close_witness : ~ step StateStopped EventDiscovery StateDiscovered.
Proof. apply (every_state_can_close StateStopped). reflexivity. Defined.
