(* ===== verification/Md5.v ===== *)
(** * MD5 (Go's [crypto/md5], RFC 1321)

    The digest the TACACS+ body obfuscation uses, executable, on 32-bit words as [Z] with the
    wrap-around written out. Checked against the test vectors of RFC 1321; the development relies on
    two facts only, that a digest has sixteen bytes and that they are bytes. *)

From S2P Require Import Prelude Bytes.

Definition add32 (x y : Z) : Z := to_uint32 (x + y).
Definition not32 (x : Z) : Z := Z.lxor x 4294967295.
Definition rotl32 (x n : Z) : Z := Z.lor (to_uint32 (Z.shiftl x n)) (Z.shiftr x (32 - n)).

(** Additive constant and shift of the 64 operations. *)
Definition md5_table : list (Z * Z) :=
  [
(3614090360, 7); (3905402710, 12); (606105819, 17); (3250441966, 22);
   (4118548399, 7); (1200080426, 12); (2821735955, 17); (4249261313, 22);
   (1770035416, 7); (2336552879, 12); (4294925233, 17); (2304563134, 22);
   (1804603682, 7); (4254626195, 12); (2792965006, 17); (1236535329, 22);
   (4129170786, 5); (3225465664, 9); (643717713, 14); (3921069994, 20);
   (3593408605, 5); (38016083, 9); (3634488961, 14); (3889429448, 20);
   (568446438, 5); (3275163606, 9); (4107603335, 14); (1163531501, 20);
   (2850285829, 5); (4243563512, 9); (1735328473, 14); (2368359562, 20);
   (4294588738, 4); (2272392833, 11); (1839030562, 16); (4259657740, 23);
   (2763975236, 4); (1272893353, 11); (4139469664, 16); (3200236656, 23);
   (681279174, 4); (3936430074, 11); (3572445317, 16); (76029189, 23);
   (3654602809, 4); (3873151461, 11); (530742520, 16); (3299628645, 23);
   (4096336452, 6); (1126891415, 10); (2878612391, 15); (4237533241, 21);
   (1700485571, 6); (2399980690, 10); (4293915773, 15); (2240044497, 21);
   (1873313359, 6); (4264355552, 10); (2734768916, 15); (1309151649, 21);
   (4149444226, 6); (3174756917, 10); (718787259, 15); (3951481745, 21)].

(** Little-endian words of a 64-byte block. *)
Fixpoint le_words (l : list Z) : list Z :=
  match l with
  | b0 :: b1 :: b2 :: b3 :: l' =>
      Z.lor (Z.lor (Z.lor b0 (Z.shiftl b1 8)) (Z.shiftl b2 16)) (Z.shiftl b3 24) :: le_words l'
  | _ => []
  end.

Definition le_bytes (n : nat) (v : Z) : list Z :=
  (fun i => to_byte (Z.shiftr v (8 * Z.of_nat i))) <$> seq 0 n.

Definition md5_state : Type := Z * Z * Z * Z.

Definition md5_init : md5_state := (1732584193, 4023233417, 2562383102, 271733878).

Definition md5_round (words : list Z) (st : md5_state) (i : nat) (ks : Z * Z) : md5_state :=
  let '(a, b, c, d) := st in
  let '(k, s) := ks in
  let '(f, g) :=
    if Nat.ltb i 16 then (Z.lor (Z.land b c) (Z.land (not32 b) d), i)
    else if Nat.ltb i 32 then (Z.lor (Z.land d b) (Z.land (not32 d) c), (5 * i + 1) mod 16)%nat
    else if Nat.ltb i 48 then (Z.lxor (Z.lxor b c) d, (3 * i + 5) mod 16)%nat
    else (Z.lxor c (Z.lor b (not32 d)), (7 * i) mod 16)%nat in
  let f := add32 (add32 (add32 f a) k) (default 0 (words !! g)) in
  (d, add32 b (rotl32 f s), b, c).

Fixpoint md5_rounds (words : list Z) (st : md5_state) (i : nat) (table : list (Z * Z)) : md5_state :=
  match table with
  | [] => st
  | ks :: table' => md5_rounds words (md5_round words st i ks) (S i) table'
  end.

Definition md5_block (st : md5_state) (block : list Z) : md5_state :=
  let '(a, b, c, d) := st in
  let '(a', b', c', d') := md5_rounds (le_words block) st 0 md5_table in
  (add32 a a', add32 b b', add32 c c', add32 d d').

Fixpoint md5_blocks (n : nat) (st : md5_state) (l : list Z) : md5_state :=
  match n with
  | O => st
  | S n' => md5_blocks n' (md5_block st (take 64 l)) (drop 64 l)
  end.

(** The message, a one bit, zeros up to 56 modulo 64, and the length in bits on eight bytes. *)
Definition md5_pad (m : list Z) : list Z :=
  m ++ 128 :: repeat 0 (Z.to_nat ((55 - zlen m) mod 64)) ++ le_bytes 8 (8 * zlen m).

Definition md5 (m : list Z) : list Z :=
  let p := md5_pad m in
  let '(a, b, c, d) := md5_blocks (length p / 64) md5_init p in
  le_bytes 4 a ++ le_bytes 4 b ++ le_bytes 4 c ++ le_bytes 4 d.

Lemma length_le_bytes n v : length (le_bytes n v) = n.
Proof. unfold le_bytes. by rewrite length_fmap, length_seq. Qed.

Lemma length_md5 m : length (md5 m) = 16%nat.
Proof. unfold md5. destruct (md5_blocks _ _ _) as [[[a b] c] d]. by rewrite !length_app, !length_le_bytes. Qed.

Lemma le_bytes_wf n v : wf_bytes (le_bytes n v).
Proof. unfold le_bytes. apply Forall_fmap, Forall_true. intros i. apply to_byte_is_byte. Qed.

Lemma md5_wf m : wf_bytes (md5 m).
Proof.
  unfold md5. destruct (md5_blocks _ _ _) as [[[a b] c] d].
  repeat apply Forall_app_2; apply le_bytes_wf.
Qed.

#[export] Hint Resolve length_md5 md5_wf : nas.

(** The digests of the empty message and of "abc", as in RFC 1321. *)
Example md5_empty : md5 [] = [212; 29; 140; 217; 143; 0; 178; 4; 233; 128; 9; 152; 236; 248; 66; 126].
Proof. vm_compute. reflexivity. Qed.
Example md5_abc : md5 [97; 98; 99] = [144; 1; 80; 152; 60; 210; 79; 176; 214; 150; 63; 125; 40; 225; 127; 114].
Proof. vm_compute. reflexivity. Qed.
(** 62 bytes: the padding takes a second block. *)
Example md5_two_blocks :
  md5 (repeat 97 62) = [36; 97; 47; 12; 226; 201; 210; 207; 43; 2; 46; 241; 224; 39; 165; 79].
Proof. vm_compute. reflexivity. Qed.
