(* ===== verification/TacacsProtocol.v ===== *)
(** * TACACS+ packets ([internal/tacacs/protocol.go])

    The packet layer (header, MD5 body obfuscation, reading from and writing to a stream) and the
    body codecs of RFC 8907 that the server uses. A stream is the list of the bytes still to be
    read; a Go string inside a body is the [string] with the same bytes. *)

From S2P Require Import Prelude GoStrings Bytes Md5.

Definition VersionDefault : Z := 192.
Definition TypeAuthentication : Z := 1.
Definition TypeAuthorization : Z := 2.
Definition TypeAccounting : Z := 3.
Definition FlagUnencrypted : Z := 1.
Definition FlagSingleConnect : Z := 4.
Definition AuthenActionLogin : Z := 1.
Definition AuthenTypeASCII : Z := 1.
Definition AuthenTypePAP : Z := 2.
Definition AuthenServiceShell : Z := 6.
Definition AuthenStatusPass : Z := 1.
Definition AuthenStatusFail : Z := 2.
Definition AuthenStatusGetPass : Z := 5.
Definition AuthenStatusError : Z := 7.
Definition AuthorStatusPassAdd : Z := 1.
Definition AuthorStatusFail : Z := 16.
Definition AuthorStatusError : Z := 17.
Definition AcctStatusSuccess : Z := 1.
Definition AcctStatusError : Z := 2.

(** The errors of the codec, with the values their messages print. *)
Inductive error :=
| ErrEOF                                    (** [io.ReadFull]: too few bytes on the stream *)
| ErrVersion (version : Z)                  (** unsupported TACACS+ version *)
| ErrBodyLength (length : Z)                (** packet body length exceeds limit *)
| ErrUnencryptedNotAllowed
| ErrSecretRequired                         (** encrypted packet requires a shared secret *)
| ErrTooShort                               (** ... body too short *)
| ErrStringLength                           (** TACACS+ string exceeds body length *)
| ErrDataLength                             (** ... data exceeds body length *)
| ErrArgCount (count : Z)                   (** arg count exceeds limit *)
| ErrArgLengths                             (** arg lengths exceed body length *)
| ErrTooLarge                               (** a marshalled field is too large *)
| ErrPacketType (type : Z)                  (** unsupported TACACS+ packet type *)
| ErrHandler (message : string).            (** an error of the code behind a handler *)

Record Header := mkHeader {
  HVersion : Z; HType : Z; HSeqNo : Z; HFlags : Z; HSessionID : Z; HLength : Z }.
Record Packet := mkPacket { PHeader : Header; PBody : list Z }.

Record AuthenStart := mkAuthenStart {
  ASAction : Z; ASPrivilege : Z; ASAuthenType : Z; ASService : Z;
  ASUser : string; ASPort : string; ASRemoteAddress : string; ASData : list Z }.
Record AuthenReply := mkAuthenReply {
  ARStatus : Z; ARFlags : Z; ARServerMsg : string; ARData : list Z }.
Record AuthenContinue := mkAuthenContinue { ACUserMsg : string; ACData : list Z; ACFlags : Z }.
Record AuthorRequest := mkAuthorRequest {
  QAuthenMethod : Z; QPrivilege : Z; QAuthenType : Z; QService : Z;
  QUser : string; QPort : string; QRemoteAddress : string; QArgs : list string }.
Record AuthorResponse := mkAuthorResponse {
  RStatus : Z; RServerMsg : string; RData : string; RArgs : list string }.
Record AcctRequest := mkAcctRequest {
  TFlags : Z; TAuthenMethod : Z; TPrivilege : Z; TAuthenType : Z; TService : Z;
  TUser : string; TPort : string; TRemoteAddress : string; TArgs : list string }.
Record AcctResponse := mkAcctResponse { CStatus : Z; CServerMsg : string; CData : string }.

Definition maxPacketLimit (value : Z) : Z := if (value <=? 0) || (value >? 65535) then 65535 else value.
Definition maxArgLimit (value : Z) : Z := if (value <=? 0) || (value >? 255) then 255 else value.

(** ** Body obfuscation *)

(** [body[i] ^= pad[i]] over the common length. *)
Fixpoint xor_bytes (body pad : list Z) : list Z :=
  match body, pad with
  | b :: body', p :: pad' => Z.lxor b p :: xor_bytes body' pad'
  | _, [] => body
  | [], _ => []
  end.

Definition xor_pad (header : Header) (secret previous : list Z) : list Z :=
  md5 (PutUint32 (HSessionID header) ++ secret ++ [HVersion header; HSeqNo header] ++ previous).

(** One digest per turn; each turn covers sixteen bytes, so [length body] turns are enough. *)
Fixpoint xorBody_loop (fuel : nat) (body : list Z) (header : Header) (secret previous : list Z) : list Z :=
  match fuel, body with
  | _, [] => []
  | O, _ => []
  | S fuel', _ =>
      let pad := xor_pad header secret previous in
      xor_bytes (take 16 body) pad ++ xorBody_loop fuel' (drop 16 body) header secret pad
  end.

Definition xorBody (body : list Z) (header : Header) (secret : list Z) : list Z :=
  xorBody_loop (length body) body header secret [].

(** ** Packets *)

(** Go's [int] to [uint32] conversion is the identity on [maxPacketLimit]'s range. The result is the
    packet and what is left of the stream. *)
Definition ReadPacket (r : list Z) (secret : string) (maxPacketBytes : Z) (allowUnencrypted : bool)
  : result error (Packet * list Z) :=
  match r with
  | v :: t :: s :: fl :: i0 :: i1 :: i2 :: i3 :: l0 :: l1 :: l2 :: l3 :: r' =>
      let header := mkHeader v t s fl (Uint32 i0 i1 i2 i3) (Uint32 l0 l1 l2 l3) in
      if negb (Z.shiftr (HVersion header) 4 =? 12) then Err (ErrVersion (HVersion header))
      else if HLength header >? maxPacketLimit maxPacketBytes then Err (ErrBodyLength (HLength header))
      else if zlen r' <? HLength header then Err ErrEOF
      else
        let body := take (Z.to_nat (HLength header)) r' in
        let rest := drop (Z.to_nat (HLength header)) r' in
        if negb (Z.land (HFlags header) FlagUnencrypted =? 0)
        then if negb allowUnencrypted then Err ErrUnencryptedNotAllowed
             else Ok (mkPacket header body, rest)
        else if (secret =? "")%string then Err ErrSecretRequired
        else Ok (mkPacket header (xorBody body header (bytes_of_string secret)), rest)
  | _ => Err ErrEOF
  end.

(** The header [WritePacket] sends: length filled in, version and sequence number defaulted. *)
Definition written_header (packet : Packet) : Header :=
  let h := PHeader packet in
  mkHeader (if HVersion h =? 0 then VersionDefault else HVersion h) (HType h)
    (if HSeqNo h =? 0 then 1 else HSeqNo h) (HFlags h) (HSessionID h) (to_uint32 (zlen (PBody packet))).

Definition header_bytes (h : Header) : list Z :=
  [HVersion h; HType h; HSeqNo h; HFlags h] ++ PutUint32 (HSessionID h) ++ PutUint32 (HLength h).

(** The bytes written. *)
Definition WritePacket (packet : Packet) (secret : string) : result error (list Z) :=
  let header := written_header packet in
  if Z.land (HFlags header) FlagUnencrypted =? 0
  then if (secret =? "")%string then Err ErrSecretRequired
       else Ok (header_bytes header ++ xorBody (PBody packet) header (bytes_of_string secret))
  else Ok (header_bytes header ++ PBody packet).

(** ** Bodies *)

Definition slice (body : list Z) (lo hi : Z) : list Z := take (Z.to_nat (hi - lo)) (drop (Z.to_nat lo) body).

Definition readString (body : list Z) (offset length : Z) : result error (string * Z) :=
  if (length <? 0) || (offset <? 0) || (offset + length >? zlen body) then Err ErrStringLength
  else Ok (string_of_bytes (slice body offset (offset + length)), offset + length).

(** The loop over [argLens]. *)
Fixpoint readArgs (body : list Z) (offset : Z) (argLens : list Z) : result error (list string) :=
  match argLens with
  | [] => Ok []
  | length :: argLens' =>
      '(value, offset) ← readString body offset length;
      args ← readArgs body offset argLens';
      Ok (value :: args)
  end.

Definition ParseAuthenStart (body : list Z) : result error AuthenStart :=
  match body with
  | action :: priv :: atype :: service :: userLen :: portLen :: remLen :: dataLen :: _ =>
      '(user, offset) ← readString body 8 userLen;
      '(port, offset) ← readString body offset portLen;
      '(remote, offset) ← readString body offset remLen;
      if offset + dataLen >? zlen body then Err ErrDataLength
      else Ok (mkAuthenStart action priv atype service user port remote (slice body offset (offset + dataLen)))
  | _ => Err ErrTooShort
  end.

Definition MarshalAuthenReply (reply : AuthenReply) : result error (list Z) :=
  let msg := bytes_of_string (ARServerMsg reply) in
  if (zlen msg >? 65535) || (zlen (ARData reply) >? 65535) then Err ErrTooLarge
  else Ok ([ARStatus reply; ARFlags reply] ++ PutUint16 (to_uint16 (zlen msg))
           ++ PutUint16 (to_uint16 (zlen (ARData reply))) ++ msg ++ ARData reply).

Definition ParseAuthenContinue (body : list Z) : result error AuthenContinue :=
  match body with
  | u0 :: u1 :: d0 :: d1 :: flags :: _ =>
      let userMsgLen := Uint16 u0 u1 in
      let dataLen := Uint16 d0 d1 in
      '(userMsg, offset) ← readString body 5 userMsgLen;
      if offset + dataLen >? zlen body then Err ErrDataLength
      else Ok (mkAuthenContinue userMsg (slice body offset (offset + dataLen)) flags)
  | _ => Err ErrTooShort
  end.

Definition ParseAuthorRequest (body : list Z) (maxArgs : Z) : result error AuthorRequest :=
  match body with
  | method :: priv :: atype :: service :: userLen :: portLen :: remLen :: argCount :: _ =>
      if argCount >? maxArgLimit maxArgs then Err (ErrArgCount argCount)
      else if zlen body <? 8 + argCount then Err ErrArgLengths
      else
        let argLens := slice body 8 (8 + argCount) in
        '(user, offset) ← readString body (8 + argCount) userLen;
        '(port, offset) ← readString body offset portLen;
        '(remote, offset) ← readString body offset remLen;
        args ← readArgs body offset argLens;
        Ok (mkAuthorRequest method priv atype service user port remote args)
  | _ => Err ErrTooShort
  end.

Definition arg_length_byte (arg : string) : Z := to_byte (zlen (bytes_of_string arg)).

Definition MarshalAuthorResponse (resp : AuthorResponse) : result error (list Z) :=
  let msg := bytes_of_string (RServerMsg resp) in
  let data := bytes_of_string (RData resp) in
  if (zlen msg >? 65535) || (zlen data >? 65535) || (zlen (RArgs resp) >? 255) then Err ErrTooLarge
  else if existsb (fun arg => zlen (bytes_of_string arg) >? 255) (RArgs resp) then Err ErrTooLarge
  else Ok ([RStatus resp; to_byte (zlen (RArgs resp))] ++ PutUint16 (to_uint16 (zlen msg))
           ++ PutUint16 (to_uint16 (zlen data)) ++ (arg_length_byte <$> RArgs resp)
           ++ msg ++ data ++ mjoin (bytes_of_string <$> RArgs resp)).

Definition ParseAcctRequest (body : list Z) (maxArgs : Z) : result error AcctRequest :=
  match body with
  | flags :: method :: priv :: atype :: service :: userLen :: portLen :: remLen :: argCount :: _ =>
      if argCount >? maxArgLimit maxArgs then Err (ErrArgCount argCount)
      else if zlen body <? 9 + argCount then Err ErrArgLengths
      else
        let argLens := slice body 9 (9 + argCount) in
        '(user, offset) ← readString body (9 + argCount) userLen;
        '(port, offset) ← readString body offset portLen;
        '(remote, offset) ← readString body offset remLen;
        args ← readArgs body offset argLens;
        Ok (mkAcctRequest flags method priv atype service user port remote args)
  | _ => Err ErrTooShort
  end.

Definition MarshalAcctResponse (resp : AcctResponse) : result error (list Z) :=
  let msg := bytes_of_string (CServerMsg resp) in
  let data := bytes_of_string (CData resp) in
  if (zlen msg >? 65535) || (zlen data >? 65535) then Err ErrTooLarge
  else Ok (PutUint16 (to_uint16 (zlen msg)) ++ PutUint16 (to_uint16 (zlen data))
           ++ [CStatus resp] ++ msg ++ data).

(** ** What the codecs are measured against

    RFC 8907's layout of the requests, written as an encoder. A client encodes, the server parses. *)

Definition len1 (s : string) : Z := zlen (bytes_of_string s).

Definition ident_wire (user port remote : string) (args : list string) : list Z :=
  bytes_of_string user ++ bytes_of_string port ++ bytes_of_string remote ++ mjoin (bytes_of_string <$> args).

Definition author_wire (q : AuthorRequest) : list Z :=
  [QAuthenMethod q; QPrivilege q; QAuthenType q; QService q;
   len1 (QUser q); len1 (QPort q); len1 (QRemoteAddress q); zlen (QArgs q)]
  ++ (len1 <$> QArgs q) ++ ident_wire (QUser q) (QPort q) (QRemoteAddress q) (QArgs q).

Definition acct_wire (q : AcctRequest) : list Z :=
  [TFlags q; TAuthenMethod q; TPrivilege q; TAuthenType q; TService q;
   len1 (TUser q); len1 (TPort q); len1 (TRemoteAddress q); zlen (TArgs q)]
  ++ (len1 <$> TArgs q) ++ ident_wire (TUser q) (TPort q) (TRemoteAddress q) (TArgs q).

Definition authen_start_wire (q : AuthenStart) : list Z :=
  [ASAction q; ASPrivilege q; ASAuthenType q; ASService q;
   len1 (ASUser q); len1 (ASPort q); len1 (ASRemoteAddress q); zlen (ASData q)]
  ++ bytes_of_string (ASUser q) ++ bytes_of_string (ASPort q) ++ bytes_of_string (ASRemoteAddress q) ++ ASData q.

(** A client's decoder of the authorization response: status, message, data and arguments. *)
Definition client_author_response (body : list Z) : result error AuthorResponse :=
  match body with
  | status :: argCount :: m0 :: m1 :: d0 :: d1 :: _ =>
      let argLens := slice body 6 (6 + argCount) in
      '(msg, offset) ← readString body (6 + argCount) (Uint16 m0 m1);
      '(data, offset) ← readString body offset (Uint16 d0 d1);
      args ← readArgs body offset argLens;
      Ok (mkAuthorResponse status msg data args)
  | _ => Err ErrTooShort
  end.

(** ** Slices and strings *)

Lemma slice_app pre mid rest : slice (pre ++ mid ++ rest) (zlen pre) (zlen pre + zlen mid) = mid.
Proof.
  unfold slice, zlen. rewrite Nat2Z.id, drop_app_length.
  replace (Z.to_nat _) with (length mid) by lia. apply take_app_length.
Qed.

Lemma slice_app_split pre rest n :
  0 <= n <= zlen rest ->
  rest = slice (pre ++ rest) (zlen pre) (zlen pre + n) ++ drop (Z.to_nat n) rest
  /\ zlen (slice (pre ++ rest) (zlen pre) (zlen pre + n)) = n.
Proof.
  intros Hn. unfold slice, zlen in *. rewrite Nat2Z.id, drop_app_length.
  replace (Z.to_nat (_ + n - _)) with (Z.to_nat n) by lia. split; [by rewrite take_drop|].
  rewrite length_take. lia.
Qed.

Lemma offset_app pre v : zlen pre + len1 v = zlen (pre ++ bytes_of_string v).
Proof. symmetry. apply zlen_app. Qed.

Lemma readString_app pre rest len v off :
  wf_bytes rest ->
  readString (pre ++ rest) (zlen pre) len = Ok (v, off) <->
  exists rest', rest = bytes_of_string v ++ rest' /\ len = len1 v /\ off = zlen pre + len1 v.
Proof.
  intros Hwf. pose proof (zlen_nonneg pre). unfold readString, len1. split.
  - destruct (_ || _) eqn:E; [discriminate|]. intros [= <- <-]. bool_arith. autorewrite with zlen in *.
    destruct (slice_app_split pre rest len) as [Hr Hl]; [lia|].
    assert (wf_bytes (slice (pre ++ rest) (zlen pre) (zlen pre + len))) as Hs
      by (rewrite Hr in Hwf; by apply Forall_app in Hwf as [? _]).
    rewrite bytes_of_string_of_bytes by exact Hs. rewrite Hl. eauto.
  - intros (rest' & -> & -> & ->). pose proof (zlen_nonneg (bytes_of_string v)). pose proof (zlen_nonneg rest').
    destruct (_ || _) eqn:E.
    + exfalso. apply orb_true_iff in E as [[E|E]%orb_true_iff|E]; bool_arith; autorewrite with zlen in *; lia.
    + by rewrite slice_app, string_of_bytes_of_string.
Qed.

Lemma readArgs_app pre rest lens args :
  wf_bytes rest ->
  readArgs (pre ++ rest) (zlen pre) lens = Ok args <->
  exists rest', rest = mjoin (bytes_of_string <$> args) ++ rest' /\ lens = len1 <$> args.
Proof.
  intros Hwf. revert pre rest args Hwf. induction lens as [|n lens IH]; intros pre rest args Hwf; cbn [readArgs].
  - split; [intros [= <-]; by exists rest | intros (rest' & _ & Hl)].
    by destruct args.
  - rewrite bind_Ok. split.
    + intros ([v off] & (rest' & -> & -> & ->)%readString_app & (args' & Ha & [= <-])%bind_Ok); [|done].
      rewrite app_assoc in Ha. rewrite offset_app in Ha.
      apply IH in Ha as (rest & -> & ->); [|by apply Forall_app in Hwf as [_ ?]].
      exists rest. split; [|done]. cbn [fmap list_fmap mjoin list_join]. by rewrite <- !app_assoc.
    + intros (rest' & -> & Hl). destruct args as [|v args]; [done|].
      cbn [fmap list_fmap mjoin list_join] in *. injection Hl as -> ->.
      exists (v, zlen pre + len1 v). rewrite <- app_assoc in *. split; [by apply readString_app; eauto|].
      apply bind_Ok. exists args. split; [|done]. rewrite (app_assoc pre). rewrite offset_app.
      apply IH; [by apply Forall_app in Hwf as [_ ?] | by exists rest'].
Qed.

(** The three identity strings and the arguments that both requests end with. *)
Lemma read_ident_app {A} pre rest ul pl rl lens (k : string -> string -> string -> list string -> A) x :
  wf_bytes rest ->
  ('(user, offset) ← readString (pre ++ rest) (zlen pre) ul;
   '(port, offset) ← readString (pre ++ rest) offset pl;
   '(remote, offset) ← readString (pre ++ rest) offset rl;
   args ← readArgs (pre ++ rest) offset lens;
   Ok (k user port remote args)) = Ok x <->
  exists user port remote args rest',
    x = k user port remote args /\ rest = ident_wire user port remote args ++ rest' /\
    ul = len1 user /\ pl = len1 port /\ rl = len1 remote /\ lens = len1 <$> args.
Proof.
  intros Hwf. unfold ident_wire. split.
  - intros ([u o1] & (r1 & -> & -> & ->)%readString_app & H)%bind_Ok; [|done].
    rewrite app_assoc in H. rewrite offset_app in H. apply Forall_app in Hwf as [_ Hwf].
    apply bind_Ok in H as ([p o2] & (r2 & -> & -> & ->)%readString_app & H); [|done].
    rewrite app_assoc in H. rewrite offset_app in H. apply Forall_app in Hwf as [_ Hwf].
    apply bind_Ok in H as ([m o3] & (r3 & -> & -> & ->)%readString_app & H); [|done].
    rewrite app_assoc in H. rewrite offset_app in H. apply Forall_app in Hwf as [_ Hwf].
    apply bind_Ok in H as (args & (r4 & -> & ->)%readArgs_app & [= <-]); [|done].
    exists u, p, m, args, r4. by rewrite <- !app_assoc.
  - intros (u & p & m & args & r & -> & -> & -> & -> & -> & ->). rewrite <- !app_assoc in *.
    apply bind_Ok. exists (u, zlen pre + len1 u). split; [by apply readString_app; eauto|].
    rewrite (app_assoc pre). rewrite offset_app. apply Forall_app in Hwf as [_ Hwf].
    apply bind_Ok. eexists (p, _). split; [apply readString_app; eauto|].
    rewrite (app_assoc (pre ++ _)). rewrite offset_app. apply Forall_app in Hwf as [_ Hwf].
    apply bind_Ok. eexists (m, _). split; [apply readString_app; eauto|].
    rewrite (app_assoc (_ ++ _)). rewrite offset_app. apply Forall_app in Hwf as [_ Hwf].
    apply bind_Ok. exists args. split; [apply readArgs_app; eauto | done].
Qed.

(** The count byte, the lengths and the strings after a fixed part [pre]. *)
Lemma read_counted_app {A} pre rest argCount maxArgs ul pl rl (k : string -> string -> string -> list string -> A) x :
  wf_bytes rest -> is_byte argCount ->
  (if argCount >? maxArgLimit maxArgs then Err (ErrArgCount argCount)
   else if zlen (pre ++ rest) <? zlen pre + argCount then Err ErrArgLengths
   else let argLens := slice (pre ++ rest) (zlen pre) (zlen pre + argCount) in
     '(user, offset) ← readString (pre ++ rest) (zlen pre + argCount) ul;
     '(port, offset) ← readString (pre ++ rest) offset pl;
     '(remote, offset) ← readString (pre ++ rest) offset rl;
     args ← readArgs (pre ++ rest) offset argLens;
     Ok (k user port remote args)) = Ok x <->
  exists user port remote args rest',
    x = k user port remote args /\
    rest = (len1 <$> args) ++ ident_wire user port remote args ++ rest' /\
    argCount = zlen args /\ zlen args <= maxArgLimit maxArgs /\
    ul = len1 user /\ pl = len1 port /\ rl = len1 remote.
Proof.
  intros Hwf Hc. unfold is_byte in Hc. split.
  - repeat split_if; try discriminate. bool_arith. autorewrite with zlen in *.
    destruct (slice_app_split pre rest argCount) as [Hr Hl]; [lia|].
    set (lens := slice _ _ _) in *. clearbody lens. set (tail := drop _ _) in *. clearbody tail. subst rest.
    cbv zeta. rewrite app_assoc. rewrite <- Hl at 1. rewrite <- zlen_app.
    intros (u & p & m & args & r & -> & -> & -> & -> & -> & ->)%(read_ident_app (pre ++ lens)); [|by apply Forall_app in Hwf as [_ ?]].
    exists u, p, m, args, r. unfold zlen in *. rewrite length_fmap in *. split_and!; try done; lia.
  - intros (u & p & m & args & r & -> & -> & -> & Hle & -> & -> & ->).
    assert (zlen (len1 <$> args) = zlen args) as Hl by (unfold zlen; by rewrite length_fmap).
    pose proof (zlen_nonneg (ident_wire u p m args ++ r)).
    destruct (zlen args >? _) eqn:E1; [exfalso; bool_arith; lia|].
    destruct (zlen (pre ++ _) <? _) eqn:E2; [exfalso; bool_arith; rewrite !zlen_app in *; lia|].
    cbv zeta. rewrite <- Hl. rewrite slice_app. rewrite (app_assoc pre). rewrite <- zlen_app.
    apply read_ident_app; [by apply Forall_app in Hwf as [_ ?]|]. by exists u, p, m, args, r.
Qed.

(** The server's parser of authorization requests accepts exactly the bodies that start with
    RFC 8907's encoding of a request with at most the allowed number of arguments, and returns that
    request: every length byte is honoured, nothing is misattributed, and what follows is ignored. *)
Theorem ParseAuthorRequest_spec (body : list Z) (maxArgs : Z) (q : AuthorRequest) :
  wf_bytes body ->
  ParseAuthorRequest body maxArgs = Ok q <->
  exists rest, body = author_wire q ++ rest /\ zlen (QArgs q) <= maxArgLimit maxArgs.
Proof.
  intros Hwf. split.
  - unfold ParseAuthorRequest. do 8 (destruct body as [|? body]; [discriminate|]).
    change 8 with (zlen [z; z0; z1; z2; z3; z4; z5; z6]). inv_Forall.
    intros (u & p & m & args & r & -> & -> & -> & Hle & -> & -> & ->)%(read_counted_app [z; z0; z1; z2; z3; z4; z5; z6]); try done.
    exists r. split; [|exact Hle]. unfold author_wire. simpl. by rewrite <- !app_assoc.
  - intros (rest & -> & Hle). destruct q as [a b c d u p m args]. unfold author_wire in *. cbn [QArgs TArgs] in Hle.
    rewrite <- !app_assoc in *. unfold ParseAuthorRequest. cbn [app QAuthenMethod QPrivilege QAuthenType QService QUser QPort QRemoteAddress QArgs] in *.
    set (pre := [a; b; c; d; len1 u; len1 p; len1 m; zlen args]). change 8 with (zlen pre).
    do 8 (apply Forall_cons in Hwf as [? Hwf]). apply (read_counted_app pre); [done..|]. by exists u, p, m, args, rest.
Qed.

(** The parser of accounting requests accepts exactly RFC 8907's encodings likewise. *)
Theorem ParseAcctRequest_spec (body : list Z) (maxArgs : Z) (q : AcctRequest) :
  wf_bytes body ->
  ParseAcctRequest body maxArgs = Ok q <->
  exists rest, body = acct_wire q ++ rest /\ zlen (TArgs q) <= maxArgLimit maxArgs.
Proof.
  intros Hwf. split.
  - unfold ParseAcctRequest. do 9 (destruct body as [|? body]; [discriminate|]).
    change 9 with (zlen [z; z0; z1; z2; z3; z4; z5; z6; z7]). inv_Forall.
    intros (u & p & m & args & r & -> & -> & -> & Hle & -> & -> & ->)%(read_counted_app [z; z0; z1; z2; z3; z4; z5; z6; z7]); try done.
    exists r. split; [|exact Hle]. unfold acct_wire. simpl. by rewrite <- !app_assoc.
  - intros (rest & -> & Hle). destruct q as [f a b c d u p m args]. unfold acct_wire in *. cbn [QArgs TArgs] in Hle.
    rewrite <- !app_assoc in *. unfold ParseAcctRequest. cbn [app TFlags TAuthenMethod TPrivilege TAuthenType TService TUser TPort TRemoteAddress TArgs] in *.
    set (pre := [f; a; b; c; d; len1 u; len1 p; len1 m; zlen args]). change 9 with (zlen pre).
    do 9 (apply Forall_cons in Hwf as [? Hwf]). apply (read_counted_app pre); [done..|]. by exists u, p, m, args, rest.
Qed.

Definition author_response_fits (resp : AuthorResponse) : Prop :=
  len1 (RServerMsg resp) <= 65535 /\ len1 (RData resp) <= 65535 /\ zlen (RArgs resp) <= 255 /\
  Forall (fun arg => len1 arg <= 255) (RArgs resp).

Lemma MarshalAuthorResponse_fits resp body :
  MarshalAuthorResponse resp = Ok body -> author_response_fits resp.
Proof.
  unfold MarshalAuthorResponse, author_response_fits, len1. cbv zeta.
  split_if; [discriminate|]. split_if; [discriminate|]. intros _. bool_arith. split_and!; [lia..|].
  apply Forall_forall. intros a Ha. apply not_true_iff_false in Heqb0.
  destruct (Z.leb_spec (zlen (bytes_of_string a)) 255); [done|]. contradict Heqb0.
  apply existsb_exists. exists a. split; [by apply list_elem_of_In | rewrite Z.gtb_ltb; by apply Z.ltb_lt].
Qed.

Lemma fits_MarshalAuthorResponse resp :
  author_response_fits resp ->
  MarshalAuthorResponse resp =
  Ok ([RStatus resp; zlen (RArgs resp)] ++ PutUint16 (len1 (RServerMsg resp)) ++ PutUint16 (len1 (RData resp))
      ++ (len1 <$> RArgs resp) ++ bytes_of_string (RServerMsg resp) ++ bytes_of_string (RData resp)
      ++ mjoin (bytes_of_string <$> RArgs resp)).
Proof.
  unfold MarshalAuthorResponse, author_response_fits. intros (Hm & Hd & Hn & Ha). unfold len1 in *.
  pose proof (zlen_nonneg (RArgs resp)). pose proof (zlen_nonneg (bytes_of_string (RServerMsg resp))).
  pose proof (zlen_nonneg (bytes_of_string (RData resp))).
  destruct (_ || _) eqn:E.
  { exfalso. apply orb_true_iff in E as [[E|E]%orb_true_iff|E]; bool_arith; lia. }
  destruct (existsb _ _) eqn:E'.
  { exfalso. apply existsb_exists in E' as (a & Hin & Hlt). apply list_elem_of_In in Hin.
    rewrite Forall_forall in Ha. apply Ha in Hin. bool_arith. lia. }
  rewrite !to_uint16_small by (unfold is_uint16; lia). rewrite to_byte_small by (unfold is_byte; lia).
  assert (arg_length_byte <$> RArgs resp = len1 <$> RArgs resp) as ->; [|done].
  apply list_fmap_ext. intros i a Hi. unfold arg_length_byte, len1.
  apply to_byte_small. apply (Forall_lookup_1 _ _ _ _ Ha) in Hi. pose proof (zlen_nonneg (bytes_of_string a)).
  unfold is_byte. lia.
Qed.

(** What the server marshals as an authorization response, a client reads back: status, message,
    data and every argument; and marshalling fails exactly when a field does not fit its length. *)
Theorem MarshalAuthorResponse_spec (resp : AuthorResponse) :
  is_byte (RStatus resp) ->
  (author_response_fits resp <-> is_Ok (MarshalAuthorResponse resp) = true) /\
  forall body, MarshalAuthorResponse resp = Ok body -> client_author_response body = Ok resp.
Proof.
  intros Hst. split.
  - split; [intros H; by rewrite fits_MarshalAuthorResponse|].
    destruct (MarshalAuthorResponse resp) eqn:E; [|discriminate]. intros _. by eapply MarshalAuthorResponse_fits.
  - intros body Hb. pose proof (MarshalAuthorResponse_fits _ _ Hb) as Hf.
    rewrite (fits_MarshalAuthorResponse _ Hf) in Hb. injection Hb as <-. destruct Hf as (Hm & Hd & _ & _).
    destruct resp as [status msg data args]. cbn [RStatus RServerMsg RData RArgs] in *.
    unfold client_author_response, PutUint16. cbn [app].
    pose proof (zlen_nonneg (bytes_of_string msg)). pose proof (zlen_nonneg (bytes_of_string data)).
    rewrite !Uint16_Put by (unfold is_uint16, len1 in *; lia).
    match goal with |- context [status :: ?a :: ?b :: ?c :: ?d :: ?e :: _] => set (pre := [status; a; b; c; d; e]) end.
    assert (zlen (len1 <$> args) = zlen args) as Hl by (unfold zlen; by rewrite length_fmap).
    match goal with |- context [status :: _ :: _ :: _ :: _ :: _ :: ?l] =>
      change (status :: _ :: _ :: _ :: _ :: _ :: l) with (pre ++ l) end.
    change 6 with (zlen pre). rewrite <- Hl, slice_app. rewrite app_assoc. rewrite <- zlen_app.
    assert (forall s, wf_bytes (bytes_of_string s)) as Hs by (intros; apply bytes_of_string_bound).
    assert (wf_bytes (mjoin (bytes_of_string <$> args))) as Hargs.
    { clear -Hs. induction args; [constructor|]. cbn [fmap list_fmap mjoin list_join]. apply Forall_app; split; [apply Hs|done]. }
    apply bind_Ok. eexists (msg, _). split.
    { apply readString_app; [|eauto]. apply Forall_app; split; [apply Hs|]. apply Forall_app; split; [apply Hs|done]. }
    rewrite (app_assoc (pre ++ _)). rewrite offset_app.
    apply bind_Ok. eexists (data, _). split.
    { apply readString_app; [|eauto]. apply Forall_app; split; [apply Hs|done]. }
    rewrite (app_assoc (_ ++ bytes_of_string msg)). rewrite offset_app.
    apply bind_Ok. exists args. split; [|done].
    apply readArgs_app; [done|]. exists []. by rewrite app_nil_r.
Qed.

(** ** The packet layer *)

Lemma length_xor_bytes b p : length (xor_bytes b p) = length b.
Proof. revert p. induction b as [|x b IH]; intros [|y p]; simpl; auto. Qed.

Lemma xor_bytes_involutive b p : xor_bytes (xor_bytes b p) p = b.
Proof.
  revert p. induction b as [|x b IH]; intros [|y p]; simpl; try done.
  rewrite IH. f_equal. by rewrite Z.lxor_assoc, Z.lxor_nilpotent, Z.lxor_0_r.
Qed.

Lemma length_xorBody_loop fuel b h s prev : (length b <= fuel)%nat -> length (xorBody_loop fuel b h s prev) = length b.
Proof.
  revert b prev. induction fuel as [|fuel IH]; intros b prev Hf; [destruct b; simpl in *; lia|].
  destruct b as [|x b]; [done|]. cbn [xorBody_loop]. rewrite length_app, length_xor_bytes, length_take, IH.
  - rewrite length_drop. lia.
  - rewrite length_drop. simpl in *. lia.
Qed.

Lemma xorBody_loop_involutive fuel b h s prev :
  (length b <= fuel)%nat -> xorBody_loop fuel (xorBody_loop fuel b h s prev) h s prev = b.
Proof.
  revert b prev. induction fuel as [|fuel IH]; intros b prev Hf; [by destruct b; simpl in *; [|lia]|].
  destruct b as [|x b]; [done|]. cbn [xorBody_loop]. set (pad := xor_pad _ _ _).
  set (l := x :: b). assert (length (drop 16 l) <= fuel)%nat as Hd by (rewrite length_drop; simpl in *; lia).
  assert (length (take 16 l) = 16%nat \/ drop 16 l = []) as Hcase.
  { destruct (Nat.le_gt_cases (length l) 16); [right; by apply drop_ge | left; rewrite length_take; lia]. }
  assert (take 16 (xor_bytes (take 16 l) pad ++ xorBody_loop fuel (drop 16 l) h s pad) = xor_bytes (take 16 l) pad
       /\ drop 16 (xor_bytes (take 16 l) pad ++ xorBody_loop fuel (drop 16 l) h s pad) = xorBody_loop fuel (drop 16 l) h s pad)
    as [Ht Hdr].
  { destruct Hcase as [Hc|Hc].
    - rewrite <- (length_xor_bytes _ pad) in Hc. split; [by apply take_app_length' | by apply drop_app_length'].
    - rewrite Hc. assert (xorBody_loop fuel [] h s pad = []) as -> by (by destruct fuel). rewrite app_nil_r.
      assert (length (xor_bytes (take 16 l) pad) <= 16)%nat by (rewrite length_xor_bytes, length_take; lia).
      split; [by apply take_ge | by apply drop_ge]. }
  destruct (xor_bytes (take 16 l) pad ++ _) as [|y k] eqn:E.
  - exfalso. apply (f_equal length) in E. rewrite length_app, length_xor_bytes in E. by subst l.
  - rewrite Ht, Hdr, xor_bytes_involutive, IH by done. apply take_drop.
Qed.

Lemma length_xorBody b h s : length (xorBody b h s) = length b.
Proof. by apply length_xorBody_loop. Qed.

(** The obfuscation only depends on these header fields. *)
Lemma xorBody_involutive b h s : xorBody (xorBody b h s) h s = b.
Proof. unfold xorBody at 1. rewrite length_xorBody. by apply xorBody_loop_involutive. Qed.

Definition wf_header (h : Header) : Prop :=
  is_byte (HVersion h) /\ is_byte (HType h) /\ is_byte (HSeqNo h) /\ is_byte (HFlags h) /\
  is_uint32 (HSessionID h) /\ is_uint32 (HLength h).

Lemma header_read v t s f i l body :
  is_uint32 i -> is_uint32 l ->
  exists i0 i1 i2 i3 l0 l1 l2 l3,
    header_bytes (mkHeader v t s f i l) ++ body = v :: t :: s :: f :: i0 :: i1 :: i2 :: i3 :: l0 :: l1 :: l2 :: l3 :: body
    /\ Uint32 i0 i1 i2 i3 = i /\ Uint32 l0 l1 l2 l3 = l.
Proof.
  intros Hi Hl. do 8 eexists. split; [reflexivity|]. split; by apply Uint32_Put.
Qed.

Definition plain (h : Header) : bool := negb (Z.land (HFlags h) FlagUnencrypted =? 0).

(** C36: A packet written and then read with the same secret comes back with the header that was
    sent, the clear body, and the stream positioned after it, for every following traffic. *)
Theorem WritePacket_ReadPacket (p : Packet) (secret : string) (wire rest : list Z) (maxBytes : Z) (allow : bool) :
  is_uint32 (HSessionID (PHeader p)) ->
  HVersion (PHeader p) = 0 \/ Z.shiftr (HVersion (PHeader p)) 4 = 12 ->
  zlen (PBody p) <= maxPacketLimit maxBytes ->
  (plain (PHeader p) = true -> allow = true) ->
  WritePacket p secret = Ok wire ->
  ReadPacket (wire ++ rest) secret maxBytes allow = Ok (mkPacket (written_header p) (PBody p), rest).
Proof.
  intros Hid Hver Hlen Hplain Hw.
  assert (0 <= maxPacketLimit maxBytes <= 65535) as Hlim by (unfold maxPacketLimit; split_if; bool_arith; lia).
  assert (is_uint32 (zlen (PBody p))) as Hu by (pose proof (zlen_nonneg (PBody p)); unfold is_uint32; lia).
  assert (exists body, wire = header_bytes (written_header p) ++ body /\ length body = length (PBody p) /\
    (plain (PHeader p) = true /\ body = PBody p \/
     plain (PHeader p) = false /\ secret <> "" /\ body = xorBody (PBody p) (written_header p) (bytes_of_string secret)))
    as (body & -> & Hl & Hbody).
  { unfold WritePacket, plain in *. cbn [HFlags written_header] in *. destruct (_ =? 0) eqn:E; simpl in *.
    - destruct (secret =? "")%string eqn:Es; [discriminate|]. injection Hw as <-. bool_arith.
      eexists. split; [done|]. split; [apply length_xorBody|]. by right.
    - injection Hw as <-. exists (PBody p). split_and!; auto. }
  unfold ReadPacket. rewrite <- app_assoc. unfold written_header in *. rewrite (to_uint32_small _ Hu) in *.
  destruct (header_read (if HVersion (PHeader p) =? 0 then VersionDefault else HVersion (PHeader p)) (HType (PHeader p))
    (if HSeqNo (PHeader p) =? 0 then 1 else HSeqNo (PHeader p)) (HFlags (PHeader p)) _ _ (body ++ rest) Hid Hu)
    as (i0 & i1 & i2 & i3 & l0 & l1 & l2 & l3 & -> & Hi & Hl').
  rewrite Hi, Hl'. cbn [HVersion HLength HFlags].
  assert ((Z.shiftr (if HVersion (PHeader p) =? 0 then VersionDefault else HVersion (PHeader p)) 4 =? 12) = true) as ->.
  { destruct (Z.eqb_spec (HVersion (PHeader p)) 0) as [E|E]; [done|]. apply Z.eqb_eq. lia. }
  rewrite Z.gtb_ltb. rewrite (proj2 (Z.ltb_ge (maxPacketLimit maxBytes) _)) by done.
  rewrite (proj2 (Z.ltb_ge (zlen (body ++ rest)) _))
    by (pose proof (zlen_nonneg rest); rewrite zlen_app; unfold zlen in *; lia).
  cbn [negb]. cbv zeta.
  replace (Z.to_nat (zlen (PBody p))) with (length body) by (unfold zlen; lia).
  rewrite take_app_length, drop_app_length. fold (plain (PHeader p)).
  destruct Hbody as [[Hp ->]|(Hp & Hs & ->)]; rewrite Hp.
  - by rewrite Hplain.
  - destruct (secret =? "")%string eqn:Es; [by apply String.eqb_eq in Es|]. by rewrite xorBody_involutive.
Qed.

(** A packet the server accepts is within the configured size, clear only where clear packets are
    allowed and keyed otherwise, and, unless its sequence number is 0, sending it again produces
    exactly the bytes that were read: nothing of the wire image is lost or added. *)
Theorem ReadPacket_sound (r : list Z) (secret : string) (maxBytes : Z) (allow : bool) (p : Packet) (rest : list Z) :
  wf_bytes r ->
  ReadPacket r secret maxBytes allow = Ok (p, rest) ->
  zlen (PBody p) = HLength (PHeader p) /\ zlen (PBody p) <= maxPacketLimit maxBytes /\
  Z.shiftr (HVersion (PHeader p)) 4 = 12 /\
  ((if plain (PHeader p) then allow = true else secret <> "") : Prop) /\
  (HSeqNo (PHeader p) <> 0 ->
   exists wire, WritePacket p secret = Ok wire /\ r = wire ++ rest).
Proof.
  intros Hwf. unfold ReadPacket. do 12 (destruct r as [|? r]; [discriminate|]).
  set (h := mkHeader _ _ _ _ _ _). cbv zeta. inv_Forall.
  destruct (negb (Z.shiftr _ _ =? 12)) eqn:Ev; [discriminate|]. destruct (_ >? _) eqn:El; [discriminate|].
  destruct (_ <? _) eqn:Er; [discriminate|]. fold (plain h). bool_arith.
  set (raw := take _ r). intros Hp.
  assert (is_uint32 (HLength h)) as Hu by (by apply Uint32_is_uint32).
  assert (zlen raw = HLength h) as Hraw by (subst raw; unfold zlen, is_uint32 in *; rewrite length_take; lia).
  assert (r = raw ++ drop (Z.to_nat (HLength h)) r) as Hr by (subst raw; by rewrite take_drop).
  assert (PHeader p = h /\ zlen (PBody p) = HLength h /\ rest = drop (Z.to_nat (HLength h)) r /\
    ((if plain h then allow = true else secret <> "") : Prop) /\
    raw = (if plain h then PBody p else xorBody (PBody p) h (bytes_of_string secret)))
    as (Hh & Hb & -> & Hk & Hraw').
  { destruct (plain h); [destruct (negb allow) eqn:Ea; [discriminate|] | destruct (secret =? "")%string eqn:Es; [discriminate|]];
      bool_arith; injection Hp as <- <-; cbn [PBody PHeader]; split_and!; try done.
    - unfold zlen. by rewrite length_xorBody.
    - by rewrite xorBody_involutive. }
  rewrite Hh, Hb. split_and!; [done..|]. intros Hseq.
  assert (written_header p = h) as Hwh.
  { unfold written_header. rewrite Hh, Hb, (to_uint32_small _ Hu).
    destruct (Z.eqb_spec (HVersion h) 0) as [E|_]; [rewrite E in *; discriminate|].
    by destruct (Z.eqb_spec (HSeqNo h) 0) as [E|_]. }
  exists (header_bytes h ++ raw). rewrite <- app_assoc, <- Hr. split.
  - unfold WritePacket. rewrite Hwh. unfold plain in *. destruct (_ =? 0); simpl in *; [|by rewrite Hraw'].
    destruct (secret =? "")%string eqn:Es; [bool_arith; done|]. by rewrite Hraw'.
  - unfold header_bytes, h. cbn [HVersion HType HSeqNo HFlags HSessionID HLength].
    by rewrite !PutUint32_Uint32.
Qed.

(** ** The theorems at concrete inputs *)

Definition example_author_body : list Z :=
  [6; 15; 1; 1; 2; 1; 0; 2; 5; 3] ++ bytes_of_string "alp" ++ bytes_of_string "cmd=sha=b" ++ [7].

Lemma ParseAuthorRequest_spec_witness :
  ParseAuthorRequest example_author_body 64 =
    Ok (mkAuthorRequest 6 15 1 1 "al" "p" "" ["cmd=s"; "ha="]) /\
  exists rest, example_author_body = author_wire (mkAuthorRequest 6 15 1 1 "al" "p" "" ["cmd=s"; "ha="]) ++ rest /\ 2 <= 64.
Proof.
  split; [reflexivity|]. apply (ParseAuthorRequest_spec example_author_body 64); [|reflexivity].
  decided.
Defined.

Lemma ParseAcctRequest_spec_witness :
  ParseAcctRequest (2 :: example_author_body) 1 = Err (ErrArgCount 2) /\
  exists rest, 2 :: example_author_body = acct_wire (mkAcctRequest 2 6 15 1 1 "al" "p" "" ["cmd=s"; "ha="]) ++ rest /\ 2 <= 2.
Proof.
  split; [reflexivity|]. apply (ParseAcctRequest_spec (2 :: example_author_body) 2); [|reflexivity].
  decided.
Defined.

Definition example_response : AuthorResponse := mkAuthorResponse AuthorStatusPassAdd "ok" "" ["priv-lvl=15"; "idletime=5"].

Lemma MarshalAuthorResponse_spec_witness :
  exists body, MarshalAuthorResponse example_response = Ok body /\ client_author_response body = Ok example_response.
Proof.
  eexists. split; [reflexivity|]. apply (MarshalAuthorResponse_spec example_response); [|reflexivity].
  decided.
Defined.

(** Forty body bytes: three digests. *)
Definition example_packet : Packet := mkPacket (mkHeader 193 2 1 0 305419896 0) (repeat 7 40).

Lemma WritePacket_ReadPacket_witness :
  exists wire, WritePacket example_packet "k3y" = Ok wire /\ zlen wire = 52 /\
    ReadPacket (wire ++ [1; 2]) "k3y" 4096 false =
      Ok (mkPacket (mkHeader 193 2 1 0 305419896 40) (repeat 7 40), [1; 2]).
Proof.
  eexists. split; [reflexivity|]. split; [vm_compute; reflexivity|].
  refine (WritePacket_ReadPacket example_packet "k3y" _ [1; 2] 4096 false _ _ _ _ eq_refl).
  - decided.
  - right. reflexivity.
  - decided.
  - intros H. discriminate H.
Defined.

Definition example_wire : list Z := [192; 1; 1; 1; 0; 0; 0; 9; 0; 0; 0; 2; 65; 66; 5].

Lemma ReadPacket_sound_witness :
  ReadPacket example_wire "" 0 true = Ok (mkPacket (mkHeader 192 1 1 1 9 2) [65; 66], [5]) /\
  exists wire, WritePacket (mkPacket (mkHeader 192 1 1 1 9 2) [65; 66]) "" = Ok wire /\ example_wire = wire ++ [5].
Proof.
  split; [reflexivity|].
  refine (proj2 (proj2 (proj2 (proj2 (ReadPacket_sound example_wire "" 0 true _ _ _ eq_refl)))) _).
  - decided.
  - discriminate.
Defined.
