(* ===== verification/ServiceChain.v ===== *)
(** * Service chains ([internal/policy/service_chain.go])

    The ordered list of services a policy decision activates for one subscriber session: its
    normal form, its validation and the merge of two chains. Normalisation and merging range over Go
    maps, so the definitions take the iteration order from [MapRange]; the hash of a chain (SHA-256 of
    its JSON) is the parameter [ChainDigest]. *)

From S2P Require Import Prelude GoStrings Bytes.
From Stdlib Require Import Ascii.

Definition MaxServiceChainLength : Z := 32.
Definition MaxServiceIntentAttributes : Z := 32.

Record ServiceIntent := mkServiceIntent {
  SKey : string; SName : string; SType : string; SVendor : string; SVendorPack : string;
  SAction : string; SSequence : Z; SOptional : bool; SDependsOn : list string;
  SRole : option string; SVLAN : option Z; SBandwidthProfile : option string;
  SACLPolicyName : option string; SPortalProfile : option string; SFilterID : option string;
  SPolicyTag : option string; STenant : option string; SDeviceGroup : option string;
  SAccountingClass : option string; SSessionLimit : option Z; SAttributes : gmap string string }.

Inductive chain_error :=
| TooManyServices (count limit : Z)
| InvalidKey (i : nat) (key : string)
| DuplicateKey (i : nat) (key : string)
| SequenceRange (i : nat)
| InvalidType (i : nat) (type : string)
| InvalidVendorPack (i : nat) (pack : string)
| InvalidAction (i : nat) (action : string)
| VLANRange (i : nat)
| NegativeSessionLimit (i : nat)
| TooManyAttributes (i : nat) (count : Z)
| InvalidAttributeKey (i : nat) (key : string)
| AttributeTooLong (i : nat) (key : string)
| SelfDependency (i : nat)
| UnknownDependency (i : nat) (dependency : string)
| DependencyOrder (i : nat) (dependency : string).

(** SHA-256 over [json.Marshal] of a chain, in hexadecimal. *)
Class ChainDigest := chain_digest : list ServiceIntent -> string.

Definition strlen (s : string) : Z := Z.of_nat (String.length s).

Definition lower_letter : ascii -> bool := in_range "a"%char "z"%char.
Definition upper_letter : ascii -> bool := in_range "A"%char "Z"%char.
Definition digit : ascii -> bool := in_range "0"%char "9"%char.
Definition one_of (cs : string) (c : ascii) : bool := negb (all_chars (fun d => negb (d =? c)%char) cs).

(** [for i, r := range value]: every accepted rune is ASCII, so runes are bytes here. *)
Definition first_then (first rest : ascii -> bool) (s : string) : bool :=
  match s with EmptyString => true | String c s' => first c && all_chars rest s' end.

(** [validPolicyToken] of policy_set.go *)
Definition validPolicyToken (value : string) : bool :=
  let value := TrimSpace value in
  if (value =? "")%string || (strlen value >? 96) then false
  else first_then (fun c => lower_letter c || upper_letter c)
         (fun c => lower_letter c || upper_letter c || digit c || one_of "-_." c) value.

Definition validServiceAttributeKey (value : string) : bool :=
  let value := TrimSpace value in
  if (value =? "")%string || (strlen value >? 128) then false
  else first_then (fun c => lower_letter c || upper_letter c || digit c)
         (fun c => lower_letter c || upper_letter c || digit c || one_of "-_.:/" c) value.

Section with_unicode.
Context {U : Unicode}.

Definition normalizeStringPtr (value : option string) : option string :=
  match value with
  | None => None
  | Some v => let trimmed := TrimSpace v in if (trimmed =? "")%string then None else Some trimmed
  end.

Definition normalizeServiceAction (value : string) : string :=
  let value := lower_trim value in if (value =? "")%string then "activate" else value.

Definition validServiceAction (value : string) : bool :=
  bool_decide (normalizeServiceAction value ∈ ["activate"; "authorize"; "deactivate"]).

Definition normalizeServiceType (value : string) : string := lower_trim value.

Definition service_types : list string :=
  ["access"; "subscriber"; "data"; "voice"; "video"; "qos"; "acl"; "firewall"; "captive_portal"; "hotspot";
   "quarantine"; "routing"; "ipv6"; "lawful_intercept"; "charging"; "controller"].

Definition validServiceType (value : string) : bool := bool_decide (normalizeServiceType value ∈ service_types).

(** The loop of [normalizeServiceDependencies], with its [seen] set. *)
Fixpoint collect_dependencies (seen : gset string) (values : list string) : list string :=
  match values with
  | [] => []
  | value :: values' =>
      let value := lower_trim value in
      if (value =? "")%string then collect_dependencies seen values'
      else if bool_decide (value ∈ seen) then collect_dependencies seen values'
      else value :: collect_dependencies ({[value]} ∪ seen) values'
  end.

Definition normalizeServiceDependencies (values : list string) : list string :=
  sort_by string_less (collect_dependencies ∅ values).
End with_unicode.

Section with_range.
Context {U : Unicode} {R : MapRange}.

(** One turn of the loop of [normalizeServiceAttributes]. *)
Definition put_attribute (out : gmap string string) (entry : string * string) : gmap string string :=
  let key := TrimSpace entry.1 in
  let value := TrimSpace entry.2 in
  if (key =? "")%string || (value =? "")%string then out else <[key := value]> out.

Definition normalizeServiceAttributes (attrs : gmap string string) : gmap string string :=
  foldl put_attribute ∅ (range_map attrs).

(** One turn of the loop of [NormalizeServiceChain]. *)
Definition normalize_service (i : nat) (s : ServiceIntent) : ServiceIntent :=
  mkServiceIntent (lower_trim (SKey s)) (TrimSpace (SName s)) (normalizeServiceType (SType s))
    (TrimSpace (SVendor s)) (lower_trim (SVendorPack s)) (normalizeServiceAction (SAction s))
    (if SSequence s <=? 0 then Z.of_nat i + 1 else SSequence s) (SOptional s)
    (normalizeServiceDependencies (SDependsOn s))
    (normalizeStringPtr (SRole s)) (SVLAN s) (normalizeStringPtr (SBandwidthProfile s))
    (normalizeStringPtr (SACLPolicyName s)) (normalizeStringPtr (SPortalProfile s))
    (normalizeStringPtr (SFilterID s)) (normalizeStringPtr (SPolicyTag s)) (normalizeStringPtr (STenant s))
    (normalizeStringPtr (SDeviceGroup s)) (normalizeStringPtr (SAccountingClass s)) (SSessionLimit s)
    (normalizeServiceAttributes (SAttributes s)).

Definition service_less (x y : ServiceIntent) : bool :=
  if SSequence x =? SSequence y then string_less (SKey x) (SKey y) else SSequence x <? SSequence y.

Definition NormalizeServiceChain (chain : list ServiceIntent) : list ServiceIntent :=
  sort_by service_less (imap normalize_service chain).

Definition check_attribute (i : nat) (entry : string * string) : option chain_error :=
  if negb (validServiceAttributeKey entry.1) then Some (InvalidAttributeKey i entry.1)
  else if strlen entry.2 >? 512 then Some (AttributeTooLong i entry.1)
  else None.

Definition optional_check {A} (bad : A -> bool) (value : option A) : bool :=
  match value with Some v => bad v | None => false end.

(** One turn of the first loop of [ValidateServiceChainWithLimit]; [seen] has the keys so far. *)
Definition check_service (seen : gset string) (i : nat) (s : ServiceIntent) : option chain_error :=
  if negb (validPolicyToken (SKey s)) then Some (InvalidKey i (SKey s))
  else if bool_decide (SKey s ∈ seen) then Some (DuplicateKey i (SKey s))
  else if (SSequence s <? 1) || (SSequence s >? 4096) then Some (SequenceRange i)
  else if negb (SType s =? "")%string && negb (validServiceType (SType s)) then Some (InvalidType i (SType s))
  else if negb (SVendorPack s =? "")%string && negb (validPolicyToken (SVendorPack s))
       then Some (InvalidVendorPack i (SVendorPack s))
  else if negb (validServiceAction (SAction s)) then Some (InvalidAction i (SAction s))
  else if optional_check (fun v => (v <? 1) || (v >? 4094)) (SVLAN s) then Some (VLANRange i)
  else if optional_check (fun v => v <? 0) (SSessionLimit s) then Some (NegativeSessionLimit i)
  else if Z.of_nat (size (SAttributes s)) >? MaxServiceIntentAttributes
       then Some (TooManyAttributes i (Z.of_nat (size (SAttributes s))))
  else firstSome (check_attribute i) (range_map (SAttributes s)).

Fixpoint check_services (seen : gset string) (i : nat) (chain : list ServiceIntent) : option chain_error :=
  match chain with
  | [] => None
  | s :: chain' =>
      match check_service seen i s with
      | Some e => Some e
      | None => check_services ({[SKey s]} ∪ seen) (S i) chain'
      end
  end.

(** The second loop; [sequenceByKey] is complete by then. *)
Definition check_dependency (sequenceByKey : gmap string Z) (i : nat) (s : ServiceIntent) (dependency : string)
  : option chain_error :=
  if (dependency =? SKey s)%string then Some (SelfDependency i)
  else match sequenceByKey !! dependency with
       | None => Some (UnknownDependency i dependency)
       | Some dependencySequence =>
           if dependencySequence >=? SSequence s then Some (DependencyOrder i dependency) else None
       end.

Fixpoint check_dependencies (sequenceByKey : gmap string Z) (i : nat) (chain : list ServiceIntent) : option chain_error :=
  match chain with
  | [] => None
  | s :: chain' =>
      match firstSome (check_dependency sequenceByKey i s) (SDependsOn s) with
      | Some e => Some e
      | None => check_dependencies sequenceByKey (S i) chain'
      end
  end.

Definition sequence_by_key (chain : list ServiceIntent) : gmap string Z :=
  foldl (fun m s => <[SKey s := SSequence s]> m) ∅ chain.

(** [None] is Go's nil error. *)
Definition ValidateServiceChainWithLimit (chain : list ServiceIntent) (limit : Z) : option chain_error :=
  let chain := NormalizeServiceChain chain in
  if bool_decide (chain = []) then None
  else
    let limit := if (limit <=? 0) || (limit >? MaxServiceChainLength) then MaxServiceChainLength else limit in
    if zlen chain >? limit then Some (TooManyServices (zlen chain) limit)
    else match check_services ∅ 0 chain with
         | Some e => Some e
         | None => check_dependencies (sequence_by_key chain) 0 chain
         end.

Definition ValidateServiceChain (chain : list ServiceIntent) : option chain_error :=
  ValidateServiceChainWithLimit chain MaxServiceChainLength.

Definition ServiceChainHash `{ChainDigest} (chain : list ServiceIntent) : string :=
  chain_digest (NormalizeServiceChain chain).

(** The loop over [merged]; what is left of [replacements] comes back with the list. *)
Fixpoint replace_services (merged : list ServiceIntent) (replacements : gmap string ServiceIntent)
  : list ServiceIntent * gmap string ServiceIntent :=
  match merged with
  | [] => ([], replacements)
  | service :: merged' =>
      match replacements !! SKey service with
      | Some replacement =>
          let '(out, remaining) := replace_services merged' (delete (SKey service) replacements) in (replacement :: out, remaining)
      | None => let '(out, remaining) := replace_services merged' replacements in (service :: out, remaining)
      end
  end.

Definition by_key (chain : list ServiceIntent) : gmap string ServiceIntent :=
  foldl (fun m s => <[SKey s := s]> m) ∅ chain.

Definition MergeServiceChains (current next : list ServiceIntent) : list ServiceIntent :=
  let merged := NormalizeServiceChain current in
  let replacements := by_key (NormalizeServiceChain next) in
  if bool_decide (replacements = ∅) then merged
  else let '(out, remaining) := replace_services merged replacements in
       NormalizeServiceChain (out ++ (range_map remaining).*2).

Record ServiceChainValidation := mkServiceChainValidation {
  VValid : bool; VServiceCount : Z; VRequired : Z; VOptional : Z; VChainHash : string;
  VServices : list ServiceIntent; VErrors : list chain_error }.

Definition SummarizeServiceChain `{ChainDigest} (chain : list ServiceIntent) : ServiceChainValidation :=
  let normalized := NormalizeServiceChain chain in
  let optional := zlen (filter (fun s => SOptional s = true) normalized) in
  let required := zlen (filter (fun s => SOptional s = false) normalized) in
  let hash := ServiceChainHash normalized in
  match ValidateServiceChain normalized with
  | Some e => mkServiceChainValidation false (zlen normalized) required optional hash normalized [e]
  | None => mkServiceChainValidation true (zlen normalized) required optional hash normalized []
  end.
End with_range.

(** ** Attributes *)

(** No two attributes whose names differ only in surrounding white space have different values. *)
Definition clear_attributes (attrs : gmap string string) : Prop :=
  forall k1 v1 k2 v2, attrs !! k1 = Some v1 -> attrs !! k2 = Some v2 ->
    TrimSpace k1 = TrimSpace k2 -> TrimSpace v1 <> "" -> TrimSpace v2 <> "" -> TrimSpace v1 = TrimSpace v2.

Definition trimmed_attributes (attrs : gmap string string) : Prop :=
  forall k v, attrs !! k = Some v -> TrimSpace k = k /\ TrimSpace v = v /\ k <> "" /\ v <> "".

Definition puts (k v : string) (entry : string * string) : Prop :=
  TrimSpace entry.1 = k /\ TrimSpace entry.2 = v /\ k <> "" /\ v <> "".

#[export] Instance puts_dec k v entry : Decision (puts k v entry).
Proof. unfold puts. apply _. Defined.

Lemma put_attribute_lookup out entry k v :
  put_attribute out entry !! k = Some v <->
  puts k v entry \/ (forall w, ~ puts k w entry) /\ out !! k = Some v.
Proof.
  unfold put_attribute, puts. destruct (_ || _) eqn:E.
  - split; [intros H; right; split; [|done] | intros [(<- & <- & ? & ?)|[_ ?]]; [|done]].
    + intros w (<- & <- & ? & ?). apply orb_true_iff in E as [E|E]; by apply String.eqb_eq in E.
    + apply orb_true_iff in E as [E|E]; by apply String.eqb_eq in E.
  - bool_arith. destruct (decide (TrimSpace entry.1 = k)) as [<-|Hk].
    + rewrite lookup_insert_eq. split; [intros [= <-]; left; auto|].
      intros [(_ & -> & _)|[Hn _]]; [done|]. by destruct (Hn (TrimSpace entry.2)).
    + rewrite lookup_insert_ne by done. split; [intros ?; right; split; [|done]; by intros w (? & _)|].
      intros [(? & _)|[_ ?]]; done.
Qed.

Lemma fold_put_lookup l out k v :
  (forall e1 e2 v1 v2, e1 ∈ l -> e2 ∈ l -> puts k v1 e1 -> puts k v2 e2 -> v1 = v2) ->
  foldl put_attribute out l !! k = Some v <->
  (exists e, e ∈ l /\ puts k v e) \/ (forall e w, e ∈ l -> ~ puts k w e) /\ out !! k = Some v.
Proof.
  revert out. induction l as [|e l IH]; intros out Hu; cbn [foldl].
  { split; [intros H; right; split; [|done]; by intros ?? ?%elem_of_nil | by intros [(? & ?%elem_of_nil & _)|[_ ?]]]. }
  rewrite IH by (intros e1 e2 v1 v2 H1 H2; apply (Hu e1 e2 v1 v2); by right). rewrite put_attribute_lookup. split.
  - intros [(e' & He & Hp)|[Hn [Hp|[Hn' Ho]]]].
    + left. exists e'. split; [by right|done].
    + left. exists e. split; [by left|done].
    + right. split; [|done]. intros e' w [->|He]%elem_of_cons; [apply Hn' | by apply Hn].
  - intros [(e' & [->|He]%elem_of_cons & Hp)|[Hn Ho]].
    + destruct (decide (Exists (puts k v) l)) as [Hy|Hno]; [left; by apply Exists_exists|].
      right. split; [|by left]. intros e' w He Hw. apply Hno. apply Exists_exists. exists e'. split; [done|].
      assert (w = v) as -> by (apply (Hu e' e w v); [by right | by left | done | done]). done.
    + left. by exists e'.
    + right. split; [intros e' w He; apply Hn; by right|]. right. split; [intros w; apply Hn; by left|done].
Qed.

Section attributes.
Context `{MapRange}.

Lemma normalizeServiceAttributes_lookup attrs k v :
  clear_attributes attrs ->
  normalizeServiceAttributes attrs !! k = Some v <-> exists k0 v0, attrs !! k0 = Some v0 /\ puts k v (k0, v0).
Proof.
  intros Hc. unfold normalizeServiceAttributes. rewrite fold_put_lookup.
  - split.
    + intros [([k0 v0] & Hin & Hp)|[_ Hno]]; [|by rewrite lookup_empty in Hno].
      apply elem_of_range_map in Hin. eauto.
    + intros (k0 & v0 & Hl & Hp). left. exists (k0, v0). by rewrite elem_of_range_map.
  - intros [k1 v1] [k2 v2] w1 w2 H1%elem_of_range_map H2%elem_of_range_map (<- & <- & ? & ?) (Hk & <- & _ & ?).
    by apply (Hc k1 v1 k2 v2).
Qed.

Lemma normalizeServiceAttributes_trimmed attrs : trimmed_attributes (normalizeServiceAttributes attrs).
Proof.
  unfold normalizeServiceAttributes.
  assert (forall l out, trimmed_attributes out -> trimmed_attributes (foldl put_attribute out l)) as Hf.
  { induction l as [|e l IH]; intros out Ho; [done|]. apply IH. intros k v [(<- & <- & ? & ?)|[_ Hl]]%put_attribute_lookup.
    - by rewrite !TrimSpace_idem.
    - by apply Ho. }
  apply Hf. intros k v Hl. by rewrite lookup_empty in Hl.
Qed.

Lemma trimmed_clear attrs : trimmed_attributes attrs -> clear_attributes attrs.
Proof.
  intros Ht k1 v1 k2 v2 H1 H2. destruct (Ht _ _ H1) as (-> & _), (Ht _ _ H2) as (-> & _). congruence.
Qed.

Lemma normalizeServiceAttributes_trimmed_id attrs : trimmed_attributes attrs -> normalizeServiceAttributes attrs = attrs.
Proof.
  intros Ht. apply map_eq. intros k. apply option_eq. intros v.
  rewrite normalizeServiceAttributes_lookup by by apply trimmed_clear. split.
  - intros (k0 & v0 & Hl & (<- & <- & _)). cbn [fst snd]. destruct (Ht _ _ Hl) as (-> & -> & _). done.
  - intros Hl. exists k, v. split; [done|]. destruct (Ht _ _ Hl) as (? & ? & ? & ?). by unfold puts.
Qed.
End attributes.

Lemma normalizeServiceAttributes_order (R1 R2 : MapRange) attrs :
  clear_attributes attrs -> @normalizeServiceAttributes R1 attrs = @normalizeServiceAttributes R2 attrs.
Proof. intros Hc. apply map_eq. intros k. apply option_eq. intros v. by rewrite !normalizeServiceAttributes_lookup. Qed.

(** ** Normal forms *)

Section normal.
Context `{UnicodeLaws} {R : MapRange}.

Lemma normalizeStringPtr_idem v : normalizeStringPtr (normalizeStringPtr v) = normalizeStringPtr v.
Proof.
  destruct v as [v|]; [|done]. cbn. destruct (TrimSpace v =? "")%string eqn:E; [done|].
  cbn. by rewrite TrimSpace_idem, E.
Qed.

Lemma normalizeServiceAction_idem v : normalizeServiceAction (normalizeServiceAction v) = normalizeServiceAction v.
Proof.
  unfold normalizeServiceAction. destruct (lower_trim v =? "")%string eqn:E; [done|]. by rewrite lower_trim_idem, E.
Qed.

Lemma collect_dependencies_spec seen values d :
  d ∈ collect_dependencies seen values <-> d <> "" /\ (d ∉ seen) /\ exists v, v ∈ values /\ lower_trim v = d.
Proof.
  revert seen. induction values as [|v values IH]; intros seen; cbn [collect_dependencies].
  { split; [by intros ?%elem_of_nil | by intros (_ & _ & ? & ?%elem_of_nil & _)]. }
  destruct (_ =? _)%string eqn:E; [|case_bool_decide as Hin]; bool_arith; rewrite ?elem_of_cons, ?IH, ?elem_of_union, ?elem_of_singleton.
  - split; [intros (? & ? & w & ? & ?); split_and!; try done; exists w; split; [by right|done]|].
    intros (? & ? & w & [->|?]%elem_of_cons & ?); [congruence|]. split_and!; eauto.
  - split; [intros (? & ? & w & ? & ?); split_and!; try done; exists w; split; [by right|done]|].
    intros (? & ? & w & [->|?]%elem_of_cons & ?); [congruence|]. split_and!; eauto.
  - split.
    + intros [->|(? & ? & w & ? & ?)]; [split_and!; [done..|]; exists v; split; [by left|done]|].
      split_and!; [done | set_solver | exists w; split; [by right|done]].
    + intros (? & ? & w & [->|?]%elem_of_cons & <-); [by left|].
      destruct (decide (lower_trim w = lower_trim v)) as [->|?]; [by left|]. right. split_and!; [done | set_solver | eauto].
Qed.

Lemma collect_dependencies_NoDup seen values : NoDup (collect_dependencies seen values).
Proof.
  revert seen. induction values as [|v values IH]; intros seen; cbn [collect_dependencies]; [constructor|].
  repeat case_match; try done. constructor; [|done]. rewrite collect_dependencies_spec. set_solver.
Qed.

Lemma collect_dependencies_id seen values :
  NoDup values -> Forall (fun v => lower_trim v = v /\ v <> "" /\ v ∉ seen) values -> collect_dependencies seen values = values.
Proof.
  revert seen. induction values as [|v values IH]; intros seen Hnd HF; [done|]. cbn [collect_dependencies].
  apply NoDup_cons in Hnd as [Hv Hnd]. apply Forall_cons in HF as [(Hl & Hne & Hs) HF]. rewrite Hl.
  destruct (_ =? _)%string eqn:E; [by apply String.eqb_eq in E|]. rewrite bool_decide_false by done. f_equal.
  apply IH; [done|]. rewrite Forall_forall in *. intros w Hw. destruct (HF w Hw) as (? & ? & ?).
  split_and!; [done..|]. set_solver.
Qed.

Lemma normalizeServiceDependencies_idem v :
  normalizeServiceDependencies (normalizeServiceDependencies v) = normalizeServiceDependencies v.
Proof.
  unfold normalizeServiceDependencies. rewrite (collect_dependencies_id ∅).
  - apply sort_by_idem. exact (string_less_key (fun s => s)).
  - rewrite sort_by_perm. apply collect_dependencies_NoDup.
  - rewrite sort_by_perm. apply Forall_forall. intros d (? & ? & w & _ & <-)%collect_dependencies_spec.
    by rewrite lower_trim_idem.
Qed.

#[export] Instance service_less_order : WeakOrder service_less.
Proof.
  apply (lex_order (fun x y => SSequence x =? SSequence y) (fun x y => SSequence x <? SSequence y)).
  - exact (Zltb_key SSequence).
  - exact (string_less_key SKey).
  - intros x y. rewrite Z.eqb_eq, !Z.ltb_ge. lia.
Qed.

(** The services a normalised chain is made of. *)
Definition normal_service (s : ServiceIntent) : Prop := forall i, normalize_service i s = s.

Lemma normalize_service_normal i s : normal_service (normalize_service i s).
Proof.
  intros j. unfold normalize_service.
  cbn [SKey SName SType SVendor SVendorPack SAction SSequence SOptional SDependsOn SRole SVLAN SBandwidthProfile
    SACLPolicyName SPortalProfile SFilterID SPolicyTag STenant SDeviceGroup SAccountingClass SSessionLimit SAttributes].
  rewrite !normalizeStringPtr_idem, normalizeServiceAction_idem, normalizeServiceDependencies_idem, !TrimSpace_idem.
  unfold normalizeServiceType. rewrite !lower_trim_idem.
  rewrite normalizeServiceAttributes_trimmed_id by apply normalizeServiceAttributes_trimmed.
  assert ((if (if SSequence s <=? 0 then Z.of_nat i + 1 else SSequence s) <=? 0 then Z.of_nat j + 1
           else if SSequence s <=? 0 then Z.of_nat i + 1 else SSequence s)
          = (if SSequence s <=? 0 then Z.of_nat i + 1 else SSequence s)) as ->; [|done].
  repeat split_if; bool_arith; lia.
Qed.

Lemma imap_normal l : Forall normal_service l -> imap normalize_service l = l.
Proof.
  intros HF. apply list_eq. intros i. rewrite list_lookup_imap. destruct (l !! i) as [s|] eqn:E; [|done].
  cbn. f_equal. by apply (Forall_lookup_1 _ _ _ _ HF E).
Qed.

Lemma NormalizeServiceChain_normal chain : Forall normal_service (NormalizeServiceChain chain).
Proof.
  unfold NormalizeServiceChain. rewrite sort_by_perm. apply Forall_forall. intros s (i & t & -> & _)%elem_of_lookup_imap.
  apply normalize_service_normal.
Qed.

Lemma NormalizeServiceChain_sorted chain : StronglySorted (in_order service_less) (NormalizeServiceChain chain).
Proof. apply sort_by_sorted, _. Qed.

Lemma NormalizeServiceChain_of_normal chain :
  Forall normal_service chain -> NormalizeServiceChain chain = sort_by service_less chain.
Proof. intros HF. unfold NormalizeServiceChain. by rewrite imap_normal. Qed.
End normal.

(** ** Validation *)

Section validation.
Context {U : Unicode} {R : MapRange}.

Lemma check_services_None seen i chain :
  check_services seen i chain = None ->
  NoDup (SKey <$> chain) /\ Forall (fun s => SKey s ∉ seen) chain /\
  Forall (fun s => validPolicyToken (SKey s) = true /\ 1 <= SSequence s <= 4096) chain.
Proof.
  revert seen i. induction chain as [|s chain IH]; intros seen i; cbn [check_services]; [by repeat constructor|].
  destruct (check_service seen i s) eqn:E; [discriminate|]. intros (Hnd & Hs & HF)%IH.
  unfold check_service in E. destruct (validPolicyToken (SKey s)) eqn:Ek; [|discriminate]. cbn [negb] in E.
  case_bool_decide as Hin; [discriminate|]. destruct (_ || _) eqn:Er; [discriminate|]. bool_arith.
  split_and!.
  - rewrite fmap_cons. apply NoDup_cons. split; [|done]. intros (t & Ht & Hin')%list_elem_of_fmap.
    rewrite Forall_forall in Hs. apply (Hs t Hin'). rewrite <- Ht. set_solver.
  - constructor; [done|]. eapply Forall_impl; [exact Hs|]. cbn. intros t Ht Hts. set_solver.
  - constructor; [|done]. split; [done|lia].
Qed.

Lemma check_dependencies_None m i chain :
  check_dependencies m i chain = None ->
  forall s d, s ∈ chain -> d ∈ SDependsOn s -> exists q, m !! d = Some q /\ q < SSequence s.
Proof.
  revert i. induction chain as [|t chain IH]; intros i; cbn [check_dependencies]; [by intros _ ?? ?%elem_of_nil|].
  destruct (firstSome _ _) eqn:E; [discriminate|]. intros Hc s d [->|Hs]%elem_of_cons Hd; [|by eapply IH].
  apply firstSome_None in E. rewrite Forall_forall in E. specialize (E d Hd). unfold check_dependency in E.
  destruct (_ =? _)%string; [discriminate|]. destruct (m !! d) as [q|]; [|discriminate].
  destruct (_ >=? _) eqn:Eq; [discriminate|]. bool_arith. eauto.
Qed.

Lemma foldl_insert_lookup {A B} (key : A -> string) (val : A -> B) l (m : gmap string B) k b :
  NoDup (key <$> l) ->
  foldl (fun m x => <[key x := val x]> m) m l !! k = Some b <->
  (exists x, x ∈ l /\ key x = k /\ val x = b) \/ (k ∉ key <$> l) /\ m !! k = Some b.
Proof.
  revert m. induction l as [|x l IH]; intros m Hnd; cbn [foldl].
  { split; [right; split; [apply not_elem_of_nil|done] | by intros [(? & ?%elem_of_nil & _)|[_ ?]]]. }
  rewrite fmap_cons in *. apply NoDup_cons in Hnd as [Hx Hnd]. rewrite IH by done. rewrite not_elem_of_cons. split.
  - intros [(y & Hy & Hk & Hv)|[Hk Hm]]; [left; exists y; split; [by right|done]|].
    destruct (decide (key x = k)) as [<-|Hne].
    + rewrite lookup_insert_eq in Hm. injection Hm as <-. left. exists x. split; [by left|done].
    + rewrite lookup_insert_ne in Hm by done. right. split_and!; congruence.
  - intros [(y & [->|Hy]%elem_of_cons & <- & <-)|[[Hne Hk] Hm]].
    + right. split; [done|]. by rewrite lookup_insert_eq.
    + left. by exists y.
    + right. split; [done|]. by rewrite lookup_insert_ne.
Qed.

Lemma sorted_before chain s t :
  StronglySorted (in_order service_less) chain -> s ∈ chain -> t ∈ chain -> SSequence t < SSequence s ->
  exists l1 l2 l3, chain = l1 ++ t :: l2 ++ s :: l3.
Proof.
  intros Hs Hin Hit Hlt. apply list_elem_of_split in Hit as (l1 & l2 & ->).
  apply elem_of_app in Hin as [Hin|Hin].
  - exfalso. clear -Hs Hin Hlt. induction l1 as [|a l1 IH]; [by apply elem_of_nil in Hin|].
    inversion Hs as [|?? Hs' HF]; subst. apply elem_of_cons in Hin as [->|Hin]; [|by apply IH].
    rewrite Forall_forall in HF. specialize (HF t). unfold in_order, service_less in HF.
    rewrite (proj2 (Z.eqb_neq _ _)) in HF by lia. rewrite (proj2 (Z.ltb_lt _ _)) in HF by lia.
    discriminate HF. apply elem_of_app. right. by left.
  - apply elem_of_cons in Hin as [->|Hin]; [lia|]. apply list_elem_of_split in Hin as (m & n & ->).
    by exists l1, m, n.
Qed.
End validation.

(** A validated chain activates in an order that respects its dependencies: in the normal form,
    keys are unique, at most 32 services remain, and every service a service depends on stands
    strictly before it, so no dependency is missing, circular or late. *)
Theorem valid_chain_order {U : Unicode} {R : MapRange} (chain : list ServiceIntent) (limit : Z) :
  ValidateServiceChainWithLimit chain limit = None ->
  NoDup (SKey <$> NormalizeServiceChain chain) /\ zlen (NormalizeServiceChain chain) <= MaxServiceChainLength /\
  forall s d, s ∈ NormalizeServiceChain chain -> d ∈ SDependsOn s ->
    exists t l1 l2 l3, NormalizeServiceChain chain = l1 ++ t :: l2 ++ s :: l3 /\ SKey t = d.
Proof.
  unfold ValidateServiceChainWithLimit. set (N := NormalizeServiceChain chain). cbv zeta.
  case_bool_decide as HN; [rewrite HN; intros _; split_and!; [constructor | done | by intros ?? ?%elem_of_nil]|].
  set (lim := if _ : bool then _ else limit).
  assert (lim <= 32) by (subst lim; unfold MaxServiceChainLength; split_if; bool_arith; lia).
  clearbody lim. destruct (zlen N >? lim) eqn:El; [discriminate|]. bool_arith.
  destruct (check_services ∅ 0 N) eqn:Ec; [discriminate|]. apply check_services_None in Ec as (Hnd & _ & _).
  intros Hd. split_and!; [done | unfold MaxServiceChainLength; lia |]. intros s d Hs Hin.
  destruct (check_dependencies_None _ _ _ Hd s d Hs Hin) as (q & Hq & Hlt).
  unfold sequence_by_key in Hq. apply foldl_insert_lookup in Hq as [(t & Ht & Hk & Hv)|[_ Hq]]; [ | by rewrite lookup_empty in Hq | done].
  destruct (sorted_before N s t) as (l1 & l2 & l3 & ->); [|done..|lia|by exists t, l1, l2, l3].
  apply sort_by_sorted. apply _.
Qed.

(** ** Merging *)

Section merging.
Context `{UnicodeLaws}.

Definition clear_service (s : ServiceIntent) : Prop := clear_attributes (SAttributes s).

Lemma NormalizeServiceChain_order (R1 R2 : MapRange) chain :
  Forall clear_service chain -> @NormalizeServiceChain _ R1 chain = @NormalizeServiceChain _ R2 chain.
Proof.
  intros HF. unfold NormalizeServiceChain. f_equal. apply list_eq. intros i. rewrite !list_lookup_imap.
  destruct (chain !! i) as [s|] eqn:E; [|done]. cbn. f_equal. unfold normalize_service.
  by rewrite (normalizeServiceAttributes_order R1 R2) by apply (Forall_lookup_1 _ _ _ _ HF E).
Qed.

Lemma replace_services_spec merged reps out remaining :
  replace_services merged reps = (out, remaining) ->
  (forall k, remaining !! k = if bool_decide (k ∈ SKey <$> merged) then None else reps !! k) /\
  Forall (fun s => s ∈ merged \/ exists k, reps !! k = Some s) out /\
  (NoDup (SKey <$> merged) -> forall s, s ∈ out <->
     exists m, m ∈ merged /\ (reps !! SKey m = Some s \/ reps !! SKey m = None /\ s = m)).
Proof.
  revert reps out remaining. induction merged as [|m merged IH]; intros reps out remaining; cbn [replace_services].
  { intros [= <- <-]. split_and!; [done | constructor |]. intros _ s.
    split; [by intros ?%elem_of_nil | by intros (? & ?%elem_of_nil & _)]. }
  set (r := match reps !! SKey m with Some _ => delete (SKey m) reps | None => reps end).
  intros Hr. assert (exists out', replace_services merged r = (out', remaining) /\
      out = match reps !! SKey m with Some x => x | None => m end :: out') as (out' & Hr' & ->).
  { subst r. destruct (reps !! SKey m); destruct (replace_services merged _) as [o l]; injection Hr as <- <-; eauto. }
  destruct (IH _ _ _ Hr') as (Hk & HF & Hspec). clear Hr Hr' IH.
  assert (forall k, r !! k = if bool_decide (k = SKey m) then None else reps !! k) as Hrk.
  { intros k. subst r. case_bool_decide as Ek.
    - subst k. destruct (reps !! SKey m) eqn:E; [by rewrite lookup_delete_eq | done].
    - destruct (reps !! SKey m); [by rewrite lookup_delete_ne | done]. }
  split_and!.
  - intros k. rewrite Hk, Hrk, fmap_cons. repeat case_bool_decide; try done; set_solver.
  - constructor.
    + destruct (reps !! SKey m) eqn:E; [right; eauto | left; by left].
    + eapply Forall_impl; [exact HF|]. cbn. intros s [Hs|[k Hs]]; [left; by right|].
      rewrite Hrk in Hs. case_bool_decide; [done|]. eauto.
  - rewrite fmap_cons. intros [Hm Hnd]%NoDup_cons s. rewrite elem_of_cons, (Hspec Hnd). split.
    + intros [->|(n & Hn & Hs)].
      * exists m. split; [by left|]. destruct (reps !! SKey m) eqn:E; auto.
      * exists n. split; [by right|]. rewrite Hrk in Hs. rewrite bool_decide_false in Hs; [done|].
        intros E. apply Hm. rewrite <- E. by apply list_elem_of_fmap_2.
    + intros (n & [->|Hn]%elem_of_cons & Hs).
      * left. by destruct Hs as [->|[-> ->]].
      * right. exists n. split; [done|]. rewrite Hrk, bool_decide_false; [done|].
        intros E. apply Hm. rewrite <- E. by apply list_elem_of_fmap_2.
Qed.
End merging.

Section merge_result.
Context `{UnicodeLaws}.

Lemma by_key_key chain k s : by_key chain !! k = Some s -> SKey s = k /\ s ∈ chain.
Proof.
  unfold by_key. assert (forall l (m : gmap string ServiceIntent), (forall k s, m !! k = Some s -> SKey s = k /\ s ∈ chain) -> (forall y, y ∈ l -> y ∈ chain) ->
    forall k s, foldl (fun m s => <[SKey s := s]> m) m l !! k = Some s -> SKey s = k /\ s ∈ chain) as Hf.
  { induction l as [|x l IH]; intros m Hm Hl; [done|]. cbn [foldl]. apply IH; [|intros y Hy; apply Hl; by right].
    intros k' s' Hk'. destruct (decide (SKey x = k')) as [<-|Hne].
    - rewrite lookup_insert_eq in Hk'. injection Hk' as <-. split; [done|]. apply Hl. by left.
    - rewrite lookup_insert_ne in Hk' by done. by apply Hm. }
  apply Hf; [|tauto]. intros k' s' Hk'. by rewrite lookup_empty in Hk'.
Qed.

Lemma elem_of_tail (R : MapRange) (m : gmap string ServiceIntent) s :
  s ∈ (range_map m).*2 <-> exists k, m !! k = Some s.
Proof.
  rewrite list_elem_of_fmap. split.
  - intros ([k x] & -> & Hin%elem_of_range_map). eauto.
  - intros [k Hk]. exists (k, s). by rewrite elem_of_range_map.
Qed.

(** The list that [MergeServiceChains] normalises at the end, and its two halves. *)
Lemma merge_parts (R : MapRange) current next :
  exists out remaining,
    replace_services (NormalizeServiceChain current) (by_key (NormalizeServiceChain next)) = (out, remaining) /\
    Forall normal_service out /\ Forall normal_service (range_map remaining).*2 /\
    (forall k s, remaining !! k = Some s -> SKey s = k /\ k ∉ SKey <$> NormalizeServiceChain current) /\
    MergeServiceChains current next = foldr (insert_by service_less) (sort_by service_less (range_map remaining).*2) out.
Proof.
  destruct (replace_services (NormalizeServiceChain current) (by_key (NormalizeServiceChain next)))
    as [out remaining] eqn:E. exists out, remaining. split; [done|].
  destruct (replace_services_spec _ _ _ _ E) as (Hrem & Hout & _).
  pose proof (NormalizeServiceChain_normal current) as Hc. pose proof (NormalizeServiceChain_normal next) as Hn.
  rewrite Forall_forall in Hc, Hn.
  assert (Forall normal_service out) as H1.
  { eapply Forall_impl; [exact Hout|]. cbn. intros s [Hs|[k Hs]]; [by apply Hc|]. apply by_key_key in Hs as [_ Hs]. by apply Hn. }
  assert (forall k s, remaining !! k = Some s -> SKey s = k /\ (k ∉ SKey <$> NormalizeServiceChain current) /\ s ∈ NormalizeServiceChain next) as H2.
  { intros k s Hk. rewrite Hrem in Hk. case_bool_decide as Hin; [done|]. by apply by_key_key in Hk as [? ?]. }
  assert (Forall normal_service (range_map remaining).*2) as H3.
  { apply Forall_forall. intros s (k & Hk)%elem_of_tail. apply Hn. by apply (H2 k). }
  split_and!; [done..| intros k s Hk; destruct (H2 k s Hk) as (? & ? & _); done |].
  unfold MergeServiceChains. cbv zeta. rewrite E. case_bool_decide as Hempty.
  - rewrite Hempty in E. assert (out = NormalizeServiceChain current /\ remaining = ∅) as [-> ->].
    { clear -E. revert out remaining E. induction (NormalizeServiceChain current) as [|m l IH]; intros out remaining; cbn [replace_services].
      - intros [= <- <-]. done.
      - rewrite lookup_empty. destruct (replace_services l ∅) as [o r]. destruct (IH _ _ eq_refl) as [<- ->]. intros [= <- <-]. done. }
    assert ((range_map (∅ : gmap string ServiceIntent)).*2 = []) as ->.
    { apply Permutation_nil. rewrite range_map_perm. by rewrite map_to_list_empty. }
    symmetry. apply (sort_by_id service_less). apply NormalizeServiceChain_sorted.
  - rewrite NormalizeServiceChain_of_normal by by apply Forall_app. unfold sort_by. by rewrite foldr_app.
Qed.
End merge_result.

(** Go ranges over the replacement map in an unspecified order, but the merged chain does not
    depend on it, nor on the order the attribute maps are ranged over when attribute names are clear. *)
Theorem MergeServiceChains_deterministic `{UnicodeLaws} (R1 R2 : MapRange) (current next : list ServiceIntent) :
  Forall clear_service current -> Forall clear_service next ->
  @MergeServiceChains _ R1 current next = @MergeServiceChains _ R2 current next.
Proof.
  intros Hc Hn. destruct (merge_parts R1 current next) as (o1 & r1 & E1 & _ & _ & Hk1 & ->).
  destruct (merge_parts R2 current next) as (o2 & r2 & E2 & _ & _ & _ & ->).
  rewrite (NormalizeServiceChain_order R1 R2), (NormalizeServiceChain_order R1 R2 next) in E1 by done.
  rewrite E1 in E2. injection E2 as <- <-. f_equal. apply sort_by_perm_eq.
  - apply _.
  - intros x y Hx Hy Hxy Hyx. apply elem_of_tail in Hx as [k Hx], Hy as [k' Hy].
    assert (SKey x = SKey y) as Hkey.
    { unfold in_order, service_less in Hxy, Hyx. destruct (Z.eqb_spec (SSequence x) (SSequence y)) as [E|E].
      - rewrite E, Z.eqb_refl in Hxy. by apply string_less_total.
      - rewrite (proj2 (Z.eqb_neq _ _)) in Hxy by congruence. bool_arith. lia. }
    destruct (Hk1 _ _ Hx) as [<- _], (Hk1 _ _ Hy) as [<- _]. rewrite Hkey in Hx. congruence.
  - by rewrite !range_map_perm.
Qed.

(** For chains without duplicate keys, merging keeps every service of the later chain, and of the
    earlier one those whose key the later one does not have; the result is sorted, has no duplicate key
    and is in normal form, so a rule that is merged later overrides services key by key. *)
Theorem MergeServiceChains_spec `{UnicodeLaws} {R : MapRange} (current next : list ServiceIntent) :
  NoDup (SKey <$> NormalizeServiceChain current) -> NoDup (SKey <$> NormalizeServiceChain next) ->
  (forall s, s ∈ MergeServiceChains current next <->
     s ∈ NormalizeServiceChain next \/
     s ∈ NormalizeServiceChain current /\ SKey s ∉ SKey <$> NormalizeServiceChain next) /\
  StronglySorted (in_order service_less) (MergeServiceChains current next) /\
  NormalizeServiceChain (MergeServiceChains current next) = MergeServiceChains current next.
Proof.
  intros Hc Hn. destruct (merge_parts R current next) as (out & rem & E & Ho & Hr & _ & Hm).
  destruct (replace_services_spec _ _ _ _ E) as (Hrem & _ & Hout). specialize (Hout Hc).
  assert (MergeServiceChains current next ≡ₚ out ++ (range_map rem).*2) as Hp.
  { rewrite Hm. change (foldr _ _ out) with (foldr (insert_by service_less) (foldr (insert_by service_less) [] (range_map rem).*2) out).
    rewrite <- foldr_app. apply sort_by_perm. }
  assert (StronglySorted (in_order service_less) (MergeServiceChains current next)) as Hs.
  { rewrite Hm. unfold sort_by. rewrite <- foldr_app. apply sort_by_sorted, _. }
  assert (forall k s, by_key (NormalizeServiceChain next) !! k = Some s <-> s ∈ NormalizeServiceChain next /\ SKey s = k) as Hby.
  { intros k s. unfold by_key. rewrite (foldl_insert_lookup SKey (fun s => s)) by done. rewrite lookup_empty. split.
    - intros [(x & Hx & Hk & ->)|[_ [=]]]. done.
    - intros [Hs' Hk]. left. by exists s. }
  split_and!; [|done|].
  - intros s. rewrite Hp, elem_of_app, Hout, elem_of_tail. split.
    + intros [(m & Hm' & [Hs'|[Hnone ->]])|[k Hk]].
      * left. by apply Hby in Hs' as [? _].
      * right. split; [done|]. intros (t & Ht & Hin)%list_elem_of_fmap.
        assert (by_key (NormalizeServiceChain next) !! SKey m = Some t) by (apply Hby; auto). congruence.
      * left. rewrite Hrem in Hk. case_bool_decide; [done|]. by apply Hby in Hk as [? _].
    + intros [Hs'|[Hs' Hk]].
      * destruct (decide (SKey s ∈ SKey <$> NormalizeServiceChain current)) as [Hin|Hin].
        -- apply list_elem_of_fmap in Hin as (m & Hm' & Hin). left. exists m. split; [done|]. left. by apply Hby.
        -- right. exists (SKey s). rewrite Hrem, bool_decide_false by done. by apply Hby.
      * left. exists s. split; [done|]. right. split; [|done].
        apply eq_None_not_Some. intros [t Et]. apply Hby in Et as [Ht Ets].
        apply Hk. rewrite <- Ets. by apply list_elem_of_fmap_2.
  - rewrite NormalizeServiceChain_of_normal; [by apply sort_by_id|].
    rewrite Hp. by apply Forall_app.
Qed.

(** Normalising a chain is idempotent, so a chain that is stored, reloaded and merged again keeps
    its hash. *)
Theorem NormalizeServiceChain_idem `{UnicodeLaws} {R : MapRange} {CD : ChainDigest} (chain : list ServiceIntent) :
  NormalizeServiceChain (NormalizeServiceChain chain) = NormalizeServiceChain chain /\
  ServiceChainHash (NormalizeServiceChain chain) = ServiceChainHash chain.
Proof.
  assert (NormalizeServiceChain (NormalizeServiceChain chain) = NormalizeServiceChain chain) as E.
  { rewrite NormalizeServiceChain_of_normal by apply NormalizeServiceChain_normal.
    apply (sort_by_id service_less), NormalizeServiceChain_sorted. }
  split; [done|]. unfold ServiceChainHash. by rewrite E.
Qed.

(** Two attribute names that differ only in surrounding white space collapse to the value that
    Go's unspecified map order happens to deliver last: normalisation then has two possible results. *)
Theorem attributes_depend_on_map_order :
  exists attrs : gmap string string,
    @normalizeServiceAttributes forward_range attrs <> @normalizeServiceAttributes backward_range attrs.
Proof.
  exists {["rate" := "1"; " rate" := "2"]}. intros E.
  apply (f_equal (fun m : gmap string string => m !! "rate")) in E. vm_compute in E. discriminate E.
Qed.

(** ** Witnesses *)

Definition example_service (key : string) (seq : Z) (deps : list string) : ServiceIntent :=
  mkServiceIntent key "" "" "" "" "" seq false deps None None None None None None None None None None None ∅.

Definition example_chain : list ServiceIntent :=
  [example_service " Voice" 20 ["Data "]; example_service "data" 10 []].

Lemma valid_chain_order_witness :
  exists t l1 l2 l3,
    NormalizeServiceChain example_chain = l1 ++ t :: l2 ++ normalize_service 0 (example_service " Voice" 20 ["Data "]) :: l3
    /\ SKey t = "data".
Proof.
  refine (proj2 (proj2 (valid_chain_order example_chain 0 _)) _ "data" _ _).
  - vm_compute. reflexivity.
  - apply list_elem_of_In. right. left. vm_compute. reflexivity.
  - decided.
Defined.

Definition rated (key value : string) (s : ServiceIntent) : ServiceIntent :=
  mkServiceIntent (SKey s) "" "" "" "" "" (SSequence s) false [] None None None None None None None None None None None {[key := value]}.

Lemma singleton_clear key value s : clear_service (rated key value s).
Proof. unfold clear_service, rated. cbn [SAttributes]. intros k1 v1 k2 v2 [_ ->]%lookup_singleton_Some [_ ->]%lookup_singleton_Some. done. Qed.

Lemma example_clear key seq deps : clear_service (example_service key seq deps).
Proof. intros k1 v1 k2 v2 H1. change (SAttributes _) with (∅ : gmap string string) in H1. by rewrite lookup_empty in H1. Qed.

Definition example_next : list ServiceIntent :=
  [rated "r" "1" (example_service "video" 5 []); rated "r" "2" (example_service "data" 30 []); rated "q" "3" (example_service "qos" 7 [])].

Lemma MergeServiceChains_deterministic_witness :
  SKey <$> @MergeServiceChains _ forward_range example_chain example_next = ["video"; "qos"; "voice"; "data"] /\
  @MergeServiceChains _ forward_range example_chain example_next = @MergeServiceChains _ backward_range example_chain example_next.
Proof.
  split; [vm_compute; reflexivity|]. apply (MergeServiceChains_deterministic forward_range backward_range).
  - unfold example_chain. rewrite !Forall_cons, Forall_nil. split_and!; [apply example_clear..|done].
  - unfold example_next. rewrite !Forall_cons, Forall_nil. split_and!; [apply singleton_clear..|done].
Defined.

Lemma MergeServiceChains_spec_witness :
  exists s, s ∈ MergeServiceChains example_chain example_next /\ SKey s = "data" /\ SSequence s = 30.
Proof.
  exists (normalize_service 1 (rated "r" "2" (example_service "data" 30 []))). split; [|vm_compute; auto].
  refine (proj2 (proj1 (MergeServiceChains_spec example_chain example_next _ _) _) _).
  - decided.
  - decided.
  - left. apply list_elem_of_In. right. right. left. vm_compute. reflexivity.
Defined.

Lemma NormalizeServiceChain_idem_witness :
  SKey <$> NormalizeServiceChain (NormalizeServiceChain example_chain) = ["data"; "voice"].
Proof.
  refine (eq_trans (f_equal (fmap SKey) (proj1 (NormalizeServiceChain_idem (CD := fun _ => "") example_chain))) _).
  vm_compute. reflexivity.
Defined.
