(* ===== verification/PolicyTypes.v ===== *)
(** * Policy data ([internal/policy/types.go])

    Requests, decisions, rules, policy sets and typed expressions, the JSON values they contain, and
    the merge of two decisions. Three parts of Go's library are interfaces here because only their
    results matter to this code: 64-bit floats ([Numbers]), the JSON decoder and encoder ([Json]), and
    SHA-256 over JSON ([PolicyDigest]). Times are UTC nanoseconds since 1970; [None] is Go's zero time. *)

From S2P Require Import Prelude GoStrings Bytes ServiceChain.
From Stdlib Require Import Ascii.

(** [float64] as the code uses it. *)
Class Numbers := {
  num : Type;
  num_eqb : num -> num -> bool;
  num_leb : num -> num -> bool;
  num_of_int : Z -> num;                    (** [float64(v)] *)
  parse_float : string -> option num;       (** [strconv.ParseFloat(s, 64)] *)
  format_num : num -> string;               (** [fmt.Sprint(f)] *)
}.

(** Integers as numbers: enough to evaluate the definitions on integral inputs. *)
Fixpoint digits_value (acc : Z) (s : string) : option Z :=
  match s with
  | EmptyString => Some acc
  | String c s' => if digit c then digits_value (10 * acc + (byte_of c - 48)) s' else None
  end.
#[export] Instance integer_numbers : Numbers | 100 := {|
  num := Z; num_eqb := Z.eqb; num_leb := Z.leb; num_of_int := fun v => v;
  parse_float := fun s => if (s =? "")%string then None else digits_value 0 s;
  format_num := Itoa;
|}.

Section with_numbers.
Context {N : Numbers}.

(** An [any]: what JSON decodes to, and the Go values of the request's fields. *)
Inductive value :=
| VNil
| VBool (b : bool)
| VNum (n : num)
| VString (s : string)
| VList (l : list value)
| VMap (m : list (string * value))          (** entries in increasing order of their keys *)
| VInt (i : Z)
| VStrings (l : list string).

Inductive TypedExpression := mkTypedExpression {
  All : list TypedExpression; Any : list TypedExpression; Not : option TypedExpression;
  Field : string; Op : string; Value : value; Values : list value }.

Record Request := mkRequest {
  ReqUsername : string; ReqRole : string; ReqGroups : list string; ReqRealm : string; ReqTenant : string;
  ReqDeviceGroup : string; ReqAuthMethod : string; ReqIdentitySource : string; ReqSSID : string;
  ReqNASIdentifier : string; ReqNASIPAddress : string; ReqNASPortID : string; ReqNASPortType : string;
  ReqCalledStationID : string; ReqCallingStationID : string; ReqSite : string; ReqSourceIP : string;
  ReqVendor : string; ReqVLAN : Z; ReqAuthenticated : bool; ReqTimeOfDay : string; ReqPosture : string;
  ReqRiskScore : Z; ReqAttributes : gmap string string; ReqEvaluatedAt : option Z }.

Record Decision_ := mkDecision {
  DAllow : bool; DQuarantine : bool; DRole : option string; DFilterID : option string; DPolicyTag : option string;
  DVLAN : option Z; DBandwidthProfile : option string; DSessionTimeout : option Z; DIdleTimeout : option Z;
  DPortalProfile : option string; DACLPolicyName : option string; DDeviceGroup : option string;
  DTenant : option string; DServiceChain : list ServiceIntent; DNotes : list string; DMatchedRule : string }.

(** Match conditions are the raw JSON text. *)
Record Rule := mkRule {
  RuleID : Z; RuleName : string; RuleDescription : string; RulePriority : Z; RuleEnabled : bool;
  RuleMatchConditions : string; RuleAction : string; RuleVLAN : option Z; RuleBandwidthProfile : option string;
  RuleSessionTimeout : option Z; RuleIdleTimeout : option Z; RulePortalProfile : option string;
  RuleACLPolicyName : option string; RuleQuarantine : bool; RuleServiceChain : list ServiceIntent }.

Inductive PolicySet := mkPolicySet {
  PSSchemaVersion : Z; PSKey : string; PSName : string; PSDescription : string; PSTenant : string;
  PSPriority : Z; PSEnabled : option bool; PSRules : list Rule; PSChildren : list PolicySet }.

Record TraceEntry := mkTraceEntry {
  TPath : string; TField : string; TOperator : string; TExpected : value; TActual : value;
  TMatched : bool; TMessage : string }.

Record MatchedRule := mkMatchedRule {
  MID : Z; MName : string; MPriority : Z; MAction : string; MNotes : list string }.

Inductive rule_status := StatusDisabled | StatusInvalid.

(** The message of an invalid rule is the compiler's error. *)
Record RuleDiagnostic := mkRuleDiagnostic {
  GID : Z; GName : string; GPriority : Z; GStatus : rule_status }.

Record EvaluationResult := mkEvaluationResult {
  EDecision : Decision_; EMatchedRules : list MatchedRule; ESkippedRules : list RuleDiagnostic;
  EConflicts : list string; ETrace : list TraceEntry;
  ELegacyRuleCount : Z; ETypedRuleCount : Z; EInvalidRuleCount : Z;
  EPolicySetHash : string; ERequestHash : string; EEvaluationID : string }.

(** [encoding/json] on the two shapes the code decodes, and decoding followed by encoding. [None] is
    an error. *)
Class Json := {
  unmarshal_object : string -> option (gmap string value);
  unmarshal_expression : string -> option TypedExpression;
  remarshal : string -> option string;
}.

Class PolicyDigest := {
  rules_digest : list Rule -> string;                   (** SHA-256 of the rules' JSON *)
  request_digest : Request -> string;                   (** of the request's JSON *)
  set_digest : PolicySet -> string;                     (** of a policy set's JSON *)
  rule_digest : Rule -> string;                         (** of a rule's JSON *)
  text_digest : string -> string;                       (** of a text *)
}.
End with_numbers.

(** Every text decodes to the empty object: enough to evaluate rules without conditions. *)
#[export] Instance empty_json {N : Numbers} : Json | 100 :=
  {| unmarshal_object := fun _ => Some ∅; unmarshal_expression := fun _ => None; remarshal := fun s => Some s |}.

Section merge.
Context {N : Numbers} {U : Unicode} {R : MapRange}.

(** The receiver is updated in place; the definition returns its new value. [nil] is [None]. *)
Definition Merge (d : Decision_) (other : option Decision_) : Decision_ :=
  match other with
  | None => d
  | Some o => {|
      DAllow := if DAllow o then true else DAllow d;
      DQuarantine := if DQuarantine o then true else DQuarantine d;
      DRole := match DRole o with Some v => Some v | None => DRole d end;
      DFilterID := match DFilterID o with Some v => Some v | None => DFilterID d end;
      DPolicyTag := match DPolicyTag o with Some v => Some v | None => DPolicyTag d end;
      DVLAN := match DVLAN o with Some v => Some v | None => DVLAN d end;
      DBandwidthProfile := match DBandwidthProfile o with Some v => Some v | None => DBandwidthProfile d end;
      DSessionTimeout := match DSessionTimeout o with Some v => Some v | None => DSessionTimeout d end;
      DIdleTimeout := match DIdleTimeout o with Some v => Some v | None => DIdleTimeout d end;
      DPortalProfile := match DPortalProfile o with Some v => Some v | None => DPortalProfile d end;
      DACLPolicyName := match DACLPolicyName o with Some v => Some v | None => DACLPolicyName d end;
      DDeviceGroup := match DDeviceGroup o with Some v => Some v | None => DDeviceGroup d end;
      DTenant := match DTenant o with Some v => Some v | None => DTenant d end;
      DServiceChain := if zlen (DServiceChain o) >? 0 then MergeServiceChains (DServiceChain d) (DServiceChain o)
                       else DServiceChain d;
      DMatchedRule := if negb (DMatchedRule o =? "")%string
                      then if (DMatchedRule d =? "")%string then DMatchedRule o
                           else (DMatchedRule d ++ "," ++ DMatchedRule o)%string
                      else DMatchedRule d;
      DNotes := DNotes d ++ DNotes o |}
  end.
End merge.
