(* ===== verification/PolicyTyped.v ===== *)
(** * Typed policy expressions ([internal/policy/typed.go])

    Compilation of match conditions (typed or legacy JSON) to expressions, validation with its depth,
    node and list limits, and evaluation with its trace. Regular expressions ([Regexp]) and IP address
    parsing ([IPAddr]) are interfaces: only their verdicts matter here. *)

From S2P Require Import Prelude GoStrings Bytes ServiceChain PolicyTypes.
From Stdlib Require Import Ascii.

(** [regexp.Compile] and [MatchString]. *)
Class Regexp := regexp_compile : string -> option (string -> bool).

(** [net.ParseIP], [IP.Equal] and [net.ParseCIDR] with [IPNet.Contains]. *)
Class IPAddr := {
  ip : Type;
  parse_ip : string -> option ip;
  ip_equal : ip -> ip -> bool;
  parse_cidr : string -> option (ip -> bool);
}.

(** No expression compiles, no address parses: enough to evaluate definitions that use neither. *)
#[export] Instance no_regexp : Regexp | 100 := fun _ => None.
#[export] Instance no_ipaddr : IPAddr | 100 :=
  {| ip := unit; parse_ip := fun _ => None; ip_equal := fun _ _ => true; parse_cidr := fun _ => None |}.

Definition defaultMaxExpressionDepth : Z := 8.
Definition defaultMaxExpressionNodes : Z := 128.
Definition defaultMaxListValues : Z := 128.

(** The fields and the types of their values *)
Definition knownFieldTypes : list (string * string) :=
  [("authenticated", "bool"); ("username", "string"); ("role", "string"); ("groups", "string_list"); ("realm", "string"); ("tenant", "string");
   ("device_group", "string"); ("auth_method", "string"); ("identity_source", "string"); ("ssid", "string"); ("nas_identifier", "string");
   ("nas_ip_address", "ip"); ("nas_port_id", "string"); ("nas_port_type", "string"); ("called_station_id", "string"); ("calling_station_id", "string");
   ("site", "string"); ("source_ip", "ip"); ("vendor", "string"); ("vlan", "number"); ("time_of_day", "string"); ("posture", "string");
   ("risk_score", "number"); ("hour", "number"); ("weekday", "string"); ("attribute", "string")].

Inductive expression_error :=
| DecodeError
| TooDeep (path : string)
| TooManyNodes
| TooManyChildren (path : string)
| NotOneBranch (path : string)
| OpRequired (path : string)
| FieldRequired (path : string)
| FieldUnsupported (path field : string)
| ValueRequired (path op : string)
| ValuesRequired (path op : string)
| TooManyValues (path : string)
| TwoBounds (path : string)
| OpUnsupported (path op : string)
| RegexTooLong (path : string)
| RegexInvalid (path : string).

(** ** The clock, in UTC *)

Definition minute_of_day (now : Z) : Z := (now / 60000000000) mod 1440.
Definition Hour (now : Z) : Z := minute_of_day now / 60.
Definition Minute (now : Z) : Z := minute_of_day now mod 60.
Definition Weekday (now : Z) : string :=
  nth (Z.to_nat ((now / 86400000000000 + 4) mod 7))
    ["sunday"; "monday"; "tuesday"; "wednesday"; "thursday"; "friday"; "saturday"] "".
Definition two_digits (v : Z) : string := if v <? 10 then ("0" ++ Itoa v)%string else Itoa v.
(** [now.Format("15:04")] *)
Definition clock_text (now : Z) : string := (two_digits (Hour now) ++ ":" ++ two_digits (Minute now))%string.

(** [time.Parse("15:04", s)]: the hour has one or two digits, the minute two. *)
Definition parse_minute (hour : Z) (s : string) : option (Z * Z) :=
  match s with
  | String ":" (String m1 (String m2 EmptyString)) =>
      if digit m1 && digit m2 && (hour <? 24) && ((byte_of m1 - 48) * 10 + (byte_of m2 - 48) <? 60)
      then Some (hour, (byte_of m1 - 48) * 10 + (byte_of m2 - 48)) else None
  | _ => None
  end.
Definition parse_clock (s : string) : option (Z * Z) :=
  match s with
  | String h1 s1 =>
      if negb (digit h1) then None else
      match s1 with
      | String h2 s2 => if digit h2 then parse_minute ((byte_of h1 - 48) * 10 + (byte_of h2 - 48)) s2
                        else parse_minute (byte_of h1 - 48) s1
      | EmptyString => None
      end
  | EmptyString => None
  end.

Definition parseClockMinute (text : string) : option Z :=
  match parse_clock (TrimSpace text) with Some (h, m) => Some (h * 60 + m) | None => None end.

(** [strings.Split] by "-" has two parts when there is exactly one "-". *)
Definition timeInWindow (now : Z) (window : string) : bool :=
  let '(first, rest, found) := CutChar (TrimSpace window) "-"%char in
  let '(_, _, again) := CutChar rest "-"%char in
  if negb found || again then false
  else match parseClockMinute first, parseClockMinute rest with
       | Some start, Some end_ =>
           let current := Hour now * 60 + Minute now in
           if start <=? end_ then (current >=? start) && (current <=? end_)
           else (current >=? start) || (current <=? end_)
       | _, _ => false
       end.

Section typed.
Context {N : Numbers} {U : Unicode} {R : MapRange} {J : Json} {RE : Regexp} {IA : IPAddr}.

(** ** Values *)

(** [fmt.Sprint] *)
Fixpoint sprint (v : value) : string :=
  match v with
  | VNil => "<nil>"
  | VBool b => if b then "true" else "false"
  | VNum n => format_num n
  | VString s => s
  | VList l => ("[" ++ Join (map sprint l) " " ++ "]")%string
  | VMap m => ("map[" ++ Join (map (fun e => (e.1 ++ ":" ++ sprint e.2)%string) m) " " ++ "]")%string
  | VInt i => Itoa i
  | VStrings l => ("[" ++ Join l " " ++ "]")%string
  end.

Definition stringify (v : value) : string :=
  match v with VNil => "" | VString s => TrimSpace s | _ => TrimSpace (sprint v) end.

Definition numericValue (v : value) : option num :=
  match v with
  | VInt i => Some (num_of_int i)
  | VNum n => Some n
  | VString s => parse_float (TrimSpace s)
  | _ => parse_float (sprint v)
  end.

(** [strconv.ParseBool] with its error dropped. *)
Definition parse_bool (s : string) : bool := bool_decide (s ∈ ["1"; "t"; "T"; "TRUE"; "true"; "True"]).

Definition boolValue (v : value) : bool :=
  match v with VBool b => b | VString s => parse_bool (TrimSpace s) | _ => (sprint v =? "true")%string end.

Definition valuesEqual (left right : value) : bool :=
  match numericValue left, numericValue right with
  | Some l, Some r => num_eqb l r
  | _, _ =>
      match left with
      | VBool _ => Bool.eqb (boolValue left) (boolValue right)
      | _ => EqualFold (stringify left) (stringify right)
      end
  end.

Definition anyEqual (actual : value) (values : list value) : bool :=
  match actual with
  | VStrings l => existsb (fun item => existsb (valuesEqual (VString item)) values) l
  | _ => existsb (valuesEqual actual) values
  end.

Definition containsValue (actual expected : value) : bool :=
  match actual with
  | VStrings l => existsb (fun item => valuesEqual (VString item) expected) l
  | _ => Contains (ToLower (stringify actual)) (ToLower (stringify expected))
  end.

Definition ipInCIDRs (ipText : string) (cidrValues : list value) : bool :=
  match parse_ip (TrimSpace ipText) with
  | None => false
  | Some addr =>
      existsb (fun v =>
        let text := TrimSpace (stringify v) in
        if (text =? "")%string then false
        else match parse_ip text with Some parsed => ip_equal parsed addr | None => false end
             || match parse_cidr text with Some contains => contains addr | None => false end) cidrValues
  end.

(** ** Fields *)

Definition normalizeOperator (op : string) : string := lower_trim op.
Definition normalizeField (field : string) : string := ReplaceAllChar (lower_trim field) "-"%char "_"%char.

Definition knownField (field : string) : bool :=
  let field := normalizeField field in
  if HasPrefix field "attribute." then (0 <? strlen (TrimPrefix field "attribute."))
  else bool_decide (field ∈ knownFieldTypes.*1).

Definition text_field (s : string) : value * bool := (VString s, negb (TrimSpace s =? "")%string).

(** The exact name first, then the first name in the range order that is equal in lower case. *)
Definition attribute_value (attributes : gmap string string) (key : string) : value * bool :=
  match attributes !! key with
  | Some v => text_field v
  | None =>
      match firstSome (fun e => if (ToLower e.1 =? ToLower key)%string then Some e.2 else None) (range_map attributes) with
      | Some v => text_field v
      | None => (VNil, false)
      end
  end.

Definition fieldValue (request : option Request) (field : string) (now : Z) : value * bool :=
  match request with
  | None => (VNil, false)
  | Some req =>
      if (field =? "authenticated")%string then (VBool (ReqAuthenticated req), true)
      else if (field =? "username")%string then text_field (ReqUsername req)
      else if (field =? "role")%string then text_field (ReqRole req)
      else if (field =? "groups")%string then (VStrings (ReqGroups req), negb (bool_decide (ReqGroups req = [])))
      else if (field =? "realm")%string then text_field (ReqRealm req)
      else if (field =? "tenant")%string then text_field (ReqTenant req)
      else if (field =? "device_group")%string then text_field (ReqDeviceGroup req)
      else if (field =? "auth_method")%string then text_field (ReqAuthMethod req)
      else if (field =? "identity_source")%string then text_field (ReqIdentitySource req)
      else if (field =? "ssid")%string then text_field (ReqSSID req)
      else if (field =? "nas_identifier")%string then text_field (ReqNASIdentifier req)
      else if (field =? "nas_ip_address")%string then text_field (ReqNASIPAddress req)
      else if (field =? "nas_port_id")%string then text_field (ReqNASPortID req)
      else if (field =? "nas_port_type")%string then text_field (ReqNASPortType req)
      else if (field =? "called_station_id")%string then text_field (ReqCalledStationID req)
      else if (field =? "calling_station_id")%string then text_field (ReqCallingStationID req)
      else if (field =? "site")%string then text_field (ReqSite req)
      else if (field =? "source_ip")%string then text_field (ReqSourceIP req)
      else if (field =? "vendor")%string then text_field (ReqVendor req)
      else if (field =? "vlan")%string then (VInt (ReqVLAN req), ReqVLAN req >? 0)
      else if (field =? "time_of_day")%string then
        (if negb (TrimSpace (ReqTimeOfDay req) =? "")%string then VString (ReqTimeOfDay req) else VString (clock_text now), true)
      else if (field =? "posture")%string then text_field (ReqPosture req)
      else if (field =? "risk_score")%string then (VInt (ReqRiskScore req), true)
      else if (field =? "hour")%string then (VInt (Hour now), true)
      else if (field =? "weekday")%string then (VString (Weekday now), true)
      else if HasPrefix field "attribute." then attribute_value (ReqAttributes req) (TrimPrefix field "attribute.")
      else (VNil, false)
  end.

(** ** Evaluation *)

Definition compare_numbers (actual expected : value) (cmp : num -> num -> bool) : bool :=
  match numericValue actual, numericValue expected with Some l, Some r => cmp l r | _, _ => false end.

(** Go's [>] on floats is [<] with the operands swapped. *)
Definition num_ltb (l r : num) : bool := num_leb l r && negb (num_eqb l r).

Definition compareValue (op : string) (actual : value) (expr : TypedExpression) (now : Z) : bool :=
  if (op =? "eq")%string then valuesEqual actual (Value expr)
  else if (op =? "neq")%string then negb (valuesEqual actual (Value expr))
  else if (op =? "in")%string then anyEqual actual (Values expr)
  else if (op =? "not_in")%string then negb (anyEqual actual (Values expr))
  else if (op =? "contains")%string then containsValue actual (Value expr)
  else if (op =? "contains_any")%string then existsb (containsValue actual) (Values expr)
  else if (op =? "prefix")%string then HasPrefix (ToLower (stringify actual)) (ToLower (stringify (Value expr)))
  else if (op =? "suffix")%string then HasSuffix (ToLower (stringify actual)) (ToLower (stringify (Value expr)))
  else if (op =? "regex")%string then
    match regexp_compile (stringify (Value expr)) with Some m => m (stringify actual) | None => false end
  else if (op =? "cidr")%string then ipInCIDRs (stringify actual) (Value expr :: Values expr)
  else if (op =? "gt")%string then compare_numbers actual (Value expr) (fun l r => num_ltb r l)
  else if (op =? "gte")%string then compare_numbers actual (Value expr) (fun l r => num_leb r l)
  else if (op =? "lt")%string then compare_numbers actual (Value expr) num_ltb
  else if (op =? "lte")%string then compare_numbers actual (Value expr) num_leb
  else if (op =? "between")%string then
    match Values expr with
    | [low; high] =>
        match numericValue actual, numericValue low, numericValue high with
        | Some a, Some l, Some h => num_leb l a && num_leb a h
        | _, _, _ => false
        end
    | _ => false
    end
  else if (op =? "time_between")%string then timeInWindow now (stringify (Value expr))
  else false.

Definition is_nil (v : value) : bool := match v with VNil => true | _ => false end.

Definition expectedForTrace (expr : TypedExpression) : value :=
  match Values expr with [] => Value expr | l => VList l end.

Definition evalLeaf (expr : TypedExpression) (request : option Request) (now : Z) (path : string) : bool * TraceEntry :=
  let op := normalizeOperator (Op expr) in
  if (op =? "true")%string then (true, mkTraceEntry path "" op VNil VNil true "constant true")
  else if (op =? "false")%string then (false, mkTraceEntry path "" op VNil VNil false "constant false")
  else
    let field := normalizeField (Field expr) in
    let '(actual, exists_) := fieldValue request field now in
    let entry := mkTraceEntry path field op (expectedForTrace expr) actual in
    if (op =? "exists")%string then
      let expected := if negb (is_nil (Value expr)) then boolValue (Value expr) else true in
      let matched := Bool.eqb exists_ expected in (matched, entry matched "")
    else if negb exists_ then (false, entry false "field is absent")
    else let matched := compareValue op actual expr now in (matched, entry matched "").

Definition branch_path (path branch : string) (i : nat) : string :=
  (path ++ "." ++ branch ++ "[" ++ Itoa (Z.of_nat i) ++ "]")%string.

(** The loops over children; [f] evaluates one child at its path. *)
Fixpoint eval_children (f : TypedExpression -> string -> bool * list TraceEntry) (path branch : string) (i : nat)
    (children : list TypedExpression) : list bool * list TraceEntry :=
  match children with
  | [] => ([], [])
  | child :: children' =>
      let '(matched, trace) := f child (branch_path path branch i) in
      let '(rest, traces) := eval_children f path branch (S i) children' in
      (matched :: rest, trace ++ traces)
  end.

Definition branch_entry (path : string) (matched : bool) (message : string) : TraceEntry :=
  mkTraceEntry path "" "" VNil VNil matched message.

Fixpoint evalExpression (expr : TypedExpression) (request : option Request) (now : Z) (path : string) {struct expr}
    : bool * list TraceEntry :=
  match expr with
  | mkTypedExpression all any not_ _ _ _ _ =>
      match all with
      | _ :: _ =>
          let '(results, trace) := eval_children (fun child p => evalExpression child request now p) path "all" 0 all in
          let matched := forallb (fun b => b) results in
          (matched, trace ++ [branch_entry path matched "all"])
      | [] =>
          match any with
          | _ :: _ =>
              let '(results, trace) := eval_children (fun child p => evalExpression child request now p) path "any" 0 any in
              let matched := existsb (fun b => b) results in
              (matched, trace ++ [branch_entry path matched "any"])
          | [] =>
              match not_ with
              | Some child =>
                  let '(childMatched, trace) := evalExpression child request now (path ++ ".not")%string in
                  let matched := negb childMatched in
                  (matched, trace ++ [branch_entry path matched "not"])
              | None => let '(matched, entry) := evalLeaf expr request now path in (matched, [entry])
              end
          end
      end
  end.

(** [wall] is the wall clock, read when the request carries no time. *)
Definition EvaluateTypedExpression (expr : TypedExpression) (request : option Request) (wall : Z) : bool * list TraceEntry :=
  let now := match request with Some req => default wall (ReqEvaluatedAt req) | None => wall end in
  evalExpression expr request now "$".

(** ** Validation *)

Definition value_operators : list string :=
  ["eq"; "neq"; "contains"; "prefix"; "suffix"; "regex"; "cidr"; "gt"; "gte"; "lt"; "lte"; "time_between"].
Definition values_operators : list string := ["in"; "not_in"; "contains_any"; "between"].

Definition validateLeaf (expr : TypedExpression) (path : string) : result expression_error unit :=
  let op := normalizeOperator (Op expr) in
  if (op =? "")%string then Err (OpRequired path)
  else if (op =? "true")%string || (op =? "false")%string then Ok tt
  else
    let field := normalizeField (Field expr) in
    if (field =? "")%string then Err (FieldRequired path)
    else if negb (knownField field) then Err (FieldUnsupported path (Field expr))
    else
      _ ← (if bool_decide (op ∈ value_operators) then
             if is_nil (Value expr) then Err (ValueRequired path op) else Ok tt
           else if bool_decide (op ∈ values_operators) then
             if bool_decide (Values expr = []) then Err (ValuesRequired path op)
             else if zlen (Values expr) >? defaultMaxListValues then Err (TooManyValues path)
             else if (op =? "between")%string && negb (zlen (Values expr) =? 2) then Err (TwoBounds path)
             else Ok tt
           else if (op =? "exists")%string then Ok tt
           else Err (OpUnsupported path (Op expr)));
      if (op =? "regex")%string then
        let pattern := stringify (Value expr) in
        if strlen pattern >? 256 then Err (RegexTooLong path)
        else match regexp_compile pattern with None => Err (RegexInvalid path) | Some _ => Ok tt end
      else Ok tt.

(** The loops over children: [f] checks one child and returns the new node count. *)
Fixpoint validate_children (f : TypedExpression -> string -> Z -> result expression_error Z) (path branch : string)
    (i : nat) (children : list TypedExpression) (nodes : Z) : result expression_error Z :=
  match children with
  | [] => Ok nodes
  | child :: children' =>
      nodes ← f child (branch_path path branch i) nodes;
      validate_children f path branch (S i) children' nodes
  end.

(** [nodes] is [state.nodes]; the other fields of the state are the constants. *)
Fixpoint validateExpression (expr : TypedExpression) (path : string) (depth nodes : Z) {struct expr}
    : result expression_error Z :=
  match expr with
  | mkTypedExpression all any not_ field op _ _ =>
      if depth >? defaultMaxExpressionDepth then Err (TooDeep path)
      else
        let nodes := nodes + 1 in
        if nodes >? defaultMaxExpressionNodes then Err TooManyNodes
        else
          nodes ← (if bool_decide (zlen all > 0) && (zlen all >? defaultMaxListValues) then Err (TooManyChildren path)
                   else validate_children (fun child p n => validateExpression child p (depth + 1) n) path "all" 0 all nodes);
          nodes ← (if bool_decide (zlen any > 0) && (zlen any >? defaultMaxListValues) then Err (TooManyChildren path)
                   else validate_children (fun child p n => validateExpression child p (depth + 1) n) path "any" 0 any nodes);
          nodes ← match not_ with
                  | None => Ok nodes
                  | Some child => validateExpression child (path ++ ".not")%string (depth + 1) nodes
                  end;
          let leaf := negb (TrimSpace op =? "")%string || negb (TrimSpace field =? "")%string in
          _ ← (if leaf then validateLeaf expr path else Ok tt);
          let branches := (if zlen all >? 0 then 1 else 0) + (if zlen any >? 0 then 1 else 0)
                          + (match not_ with Some _ => 1 | None => 0 end) + (if leaf then 1 else 0) in
          if negb (branches =? 1) then Err (NotOneBranch path) else Ok nodes
  end.

Definition ValidateExpression (expr : TypedExpression) : result expression_error unit :=
  _ ← validateExpression expr "$" 0 0; Ok tt.

(** ** The catalogues of the administration interface *)

Record FieldSpec := mkFieldSpec { FsName : string; FsType : string; FsDescription : string }.
Record OperatorSpec := mkOperatorSpec { OsName : string; OsTypes : list string; OsDescription : string }.

Definition FieldCatalog : list FieldSpec :=
  sort_by (fun x y => string_less (FsName x) (FsName y))
  [mkFieldSpec "authenticated" "bool" "Authentication result state from the AAA flow.";
   mkFieldSpec "username" "string" "Normalized user or device identity.";
   mkFieldSpec "role" "string" "Current role before policy actions are merged.";
   mkFieldSpec "groups" "string_list" "Identity-source groups, including LDAP or AD groups.";
   mkFieldSpec "realm" "string" "RADIUS realm or identity suffix.";
   mkFieldSpec "tenant" "string" "Tenant boundary used for delegated policy.";
   mkFieldSpec "device_group" "string" "Endpoint group from profiling, inventory, or vendor attributes.";
   mkFieldSpec "auth_method" "string" "Authentication method such as pap, eap-tls, peap, mab, or voucher.";
   mkFieldSpec "identity_source" "string" "Identity provider that authenticated the request.";
   mkFieldSpec "ssid" "string" "Wireless LAN SSID.";
   mkFieldSpec "nas_identifier" "string" "NAS-Identifier from the RADIUS request.";
   mkFieldSpec "nas_ip_address" "ip" "NAS IPv4 or IPv6 address.";
   mkFieldSpec "nas_port_id" "string" "NAS-Port-Id or physical/logical access port.";
   mkFieldSpec "nas_port_type" "string" "NAS-Port-Type, for example ethernet or wireless-802.11.";
   mkFieldSpec "called_station_id" "string" "Called-Station-Id from the access request.";
   mkFieldSpec "calling_station_id" "string" "Calling-Station-Id, normally the client MAC address.";
   mkFieldSpec "site" "string" "Local site, building, or controller location.";
   mkFieldSpec "source_ip" "ip" "Packet source address observed by the server.";
   mkFieldSpec "vendor" "string" "NAS vendor or compatibility pack.";
   mkFieldSpec "vlan" "number" "Input VLAN context when known.";
   mkFieldSpec "posture" "string" "Device posture or compliance state.";
   mkFieldSpec "risk_score" "number" "Profiling or posture risk score.";
   mkFieldSpec "hour" "number" "Evaluation hour in UTC unless the caller provides evaluated_at.";
   mkFieldSpec "weekday" "string" "Evaluation weekday in English, lower case.";
   mkFieldSpec "attribute.<name>" "string" "Bounded vendor or request attribute preserved in the request attribute bag."].

Definition OperatorCatalog : list OperatorSpec :=
  [mkOperatorSpec "eq" ["string"; "bool"; "number"] "Matches when the field equals the value.";
   mkOperatorSpec "neq" ["string"; "bool"; "number"] "Matches when the field does not equal the value.";
   mkOperatorSpec "in" ["string"; "number"] "Matches when the field equals one of values.";
   mkOperatorSpec "not_in" ["string"; "number"] "Matches when the field equals none of values.";
   mkOperatorSpec "contains" ["string_list"; "string"] "Matches when a list or string contains the value.";
   mkOperatorSpec "contains_any" ["string_list"] "Matches when a list contains at least one of values.";
   mkOperatorSpec "prefix" ["string"] "Matches when a string starts with value.";
   mkOperatorSpec "suffix" ["string"] "Matches when a string ends with value.";
   mkOperatorSpec "regex" ["string"] "Matches a bounded regular expression.";
   mkOperatorSpec "cidr" ["ip"] "Matches an IP field against one or more CIDR ranges.";
   mkOperatorSpec "gt" ["number"] "Greater-than numeric comparison.";
   mkOperatorSpec "gte" ["number"] "Greater-than-or-equal numeric comparison.";
   mkOperatorSpec "lt" ["number"] "Less-than numeric comparison.";
   mkOperatorSpec "lte" ["number"] "Less-than-or-equal numeric comparison.";
   mkOperatorSpec "between" ["number"] "Inclusive numeric range using two values.";
   mkOperatorSpec "exists" ["any"] "Matches whether the field exists.";
   mkOperatorSpec "time_between" ["string"] "Matches HH:MM-HH:MM windows against the evaluation time.";
   mkOperatorSpec "true" ["none"] "Always matches.";
   mkOperatorSpec "false" ["none"] "Never matches."].

(** ** Compilation *)

Definition legacyFieldName (key : string) : string :=
  let key := TrimSpace (ToLower key) in
  if (key =? "group")%string then "groups"
  else if (key =? "nas_ip")%string then "nas_ip_address"
  else if (key =? "mac")%string then "calling_station_id"
  else if bool_decide (key ∈ knownFieldTypes.*1) then key
  else if HasPrefix key "attribute." then key
  else ("attribute." ++ key)%string.

Definition legacy_leaf (entry : string * value) : TypedExpression :=
  let field := legacyFieldName entry.1 in
  match entry.2 with
  | VList l => mkTypedExpression [] [] None field (if (field =? "groups")%string then "contains_any" else "in") VNil l
  | v => mkTypedExpression [] [] None field (if (field =? "groups")%string then "contains" else "eq") v []
  end.

(** The keys are sorted. *)
Definition sorted_entries (doc : gmap string value) : list (string * value) :=
  sort_by (fun x y => string_less x.1 y.1) (range_map doc).

Definition legacyMapToExpression (doc : gmap string value) : TypedExpression :=
  match legacy_leaf <$> sorted_entries doc with
  | [single] => single
  | all => mkTypedExpression all [] None "" "" VNil []
  end.

Definition expressionLooksTyped (doc : gmap string value) : bool :=
  existsb (fun key => bool_decide (is_Some (doc !! key))) ["all"; "any"; "not"; "field"; "op"].

Definition always : TypedExpression := mkTypedExpression [] [] None "" "true" VNil [].

(** The expression and whether it came from legacy JSON. *)
Definition CompileMatchConditions (raw : string) : result expression_error (TypedExpression * bool) :=
  if (TrimSpace raw =? "")%string then Ok (always, false)
  else match unmarshal_object raw with
       | None => Err DecodeError
       | Some doc =>
           if bool_decide (doc = ∅) then Ok (always, false)
           else if expressionLooksTyped doc then
             match unmarshal_expression raw with
             | None => Err DecodeError
             | Some expr => _ ← ValidateExpression expr; Ok (expr, false)
             end
           else let expr := legacyMapToExpression doc in _ ← ValidateExpression expr; Ok (expr, true)
       end.

Definition canonicalJSON (raw : string) : string := default raw (remarshal raw).

Definition action_of (rule : Rule) : string :=
  let action := lower_trim (RuleAction rule) in if (action =? "")%string then "allow" else action.

Inductive rule_error :=
| ActionInvalid (action : string)
| ChainWithDeny (rule : string)
| ChainInvalid (e : chain_error)
| ConditionsInvalid (e : expression_error).

Definition ValidateRule (rule : Rule) : result rule_error unit :=
  let action := action_of rule in
  if negb (bool_decide (action ∈ ["allow"; "deny"; "quarantine"])) then Err (ActionInvalid (RuleAction rule))
  else
    _ ← (if zlen (RuleServiceChain rule) >? 0 then
           if (action =? "deny")%string then Err (ChainWithDeny (RuleName rule))
           else match ValidateServiceChain (RuleServiceChain rule) with Some e => Err (ChainInvalid e) | None => Ok tt end
         else Ok tt);
    match CompileMatchConditions (RuleMatchConditions rule) with
    | Err e => Err (ConditionsInvalid e)
    | Ok _ => Ok tt
    end.
End typed.

(** ** Meaning, size and shape of expressions *)

Section expressions.
Context {N : Numbers}.

Definition option_sum (f : TypedExpression -> Z) (o : option TypedExpression) : Z := match o with Some e => f e | None => 0 end.

(** The number of nodes, and the greatest distance of a node from the root. *)
Fixpoint expr_nodes (e : TypedExpression) : Z :=
  match e with
  | mkTypedExpression all any not_ _ _ _ _ =>
      1 + foldr Z.add 0 (map expr_nodes all) + foldr Z.add 0 (map expr_nodes any)
      + match not_ with Some c => expr_nodes c | None => 0 end
  end.

Fixpoint expr_depth (e : TypedExpression) : Z :=
  match e with
  | mkTypedExpression all any not_ _ _ _ _ =>
      Z.max (foldr Z.max 0 (map (fun c => 1 + expr_depth c) all))
        (Z.max (foldr Z.max 0 (map (fun c => 1 + expr_depth c) any))
          match not_ with Some c => 1 + expr_depth c | None => 0 end)
  end.

(** Exactly one of all, any, not and field/op at every node. *)
Inductive one_branch : TypedExpression -> Prop :=
| branch_all l f o v vs : l <> [] -> Forall one_branch l -> one_branch (mkTypedExpression l [] None f o v vs)
| branch_any l f o v vs : l <> [] -> Forall one_branch l -> one_branch (mkTypedExpression [] l None f o v vs)
| branch_not c f o v vs : one_branch c -> one_branch (mkTypedExpression [] [] (Some c) f o v vs)
| branch_leaf f o v vs : TrimSpace o <> "" -> one_branch (mkTypedExpression [] [] None f o v vs).

Lemma expression_ind (P : TypedExpression -> Prop) :
  (forall all any not_ f o v vs, Forall P all -> Forall P any -> (forall c, not_ = Some c -> P c) ->
     P (mkTypedExpression all any not_ f o v vs)) ->
  forall e, P e.
Proof.
  intros H. fix IH 1. intros [all any not_ f o v vs]. apply H.
  - clear any not_. induction all as [|c l IHl]; constructor; [apply IH | apply IHl].
  - clear all not_. induction any as [|c l IHl]; constructor; [apply IH | apply IHl].
  - intros c Hc. destruct not_ as [c'|]; [|discriminate Hc]. injection Hc as <-. apply IH.
Qed.

Lemma expr_nodes_pos e : 1 <= expr_nodes e.
Proof.
  induction e as [all any not_ f o v vs Ha Hy Hn] using expression_ind. cbn [expr_nodes].
  assert (forall l, Forall (fun e => 1 <= expr_nodes e) l -> 0 <= foldr Z.add 0 (map expr_nodes l)) as Hs.
  { induction 1; cbn; lia. }
  apply Hs in Ha, Hy. destruct not_ as [c|]; [specialize (Hn c eq_refl)|]; lia.
Qed.
End expressions.

Section semantics.
Context {N : Numbers} {U : Unicode} {R : MapRange} {J : Json} {RE : Regexp} {IA : IPAddr}.
Context (request : option Request) (now : Z).

(** The boolean meaning: a combination of the verdicts of the leaves. *)
Fixpoint denote (e : TypedExpression) : bool :=
  match e with
  | mkTypedExpression ((_ :: _) as all) _ _ _ _ _ _ => forallb denote all
  | mkTypedExpression [] ((_ :: _) as any) _ _ _ _ _ => existsb denote any
  | mkTypedExpression [] [] (Some c) _ _ _ _ => negb (denote c)
  | mkTypedExpression [] [] None _ _ _ _ => (evalLeaf e request now "").1
  end.

Lemma evalLeaf_path e p q : (evalLeaf e request now p).1 = (evalLeaf e request now q).1.
Proof. unfold evalLeaf. repeat (case_match; try done). Qed.

Lemma eval_children_spec path branch i l :
  Forall (fun e => forall p, (evalExpression e request now p).1 = denote e /\
                     zlen (evalExpression e request now p).2 = expr_nodes e) l ->
  (eval_children (fun c p => evalExpression c request now p) path branch i l).1 = map denote l /\
  zlen (eval_children (fun c p => evalExpression c request now p) path branch i l).2 = foldr Z.add 0 (map expr_nodes l).
Proof.
  intros HF. revert i. induction HF as [|c l Hc HF IH]; intros i; [done|]. cbn [eval_children map foldr].
  destruct (Hc (branch_path path branch i)) as [Hm Ht]. destruct (IH (S i)) as [Hms Hts].
  destruct (evalExpression c request now _) as [m t], (eval_children _ _ _ _ l) as [ms ts]. cbn [fst snd] in *.
  rewrite zlen_app. split; congruence.
Qed.

Lemma evalExpression_spec e path :
  one_branch e ->
  (evalExpression e request now path).1 = denote e /\ zlen (evalExpression e request now path).2 = expr_nodes e.
Proof.
  revert path. induction e as [all any not_ f o v vs Ha Hy Hn] using expression_ind. intros path Hw.
  assert (forall l, Forall (fun e => forall p, one_branch e -> (evalExpression e request now p).1 = denote e /\
            zlen (evalExpression e request now p).2 = expr_nodes e) l -> Forall one_branch l ->
          Forall (fun e => forall p, (evalExpression e request now p).1 = denote e /\
            zlen (evalExpression e request now p).2 = expr_nodes e) l) as Hl.
  { intros l H1 H2. rewrite Forall_forall in *. eauto. }
  inversion Hw; subst; cbn [evalExpression denote expr_nodes].
  - destruct all as [|c l]; [done|]. destruct (eval_children_spec path "all" 0 (c :: l)) as [H1' H2']; [by apply Hl|].
    destruct (eval_children _ _ _ _ _) as [ms ts]. cbn [fst snd] in *. subst ms.
    rewrite forallb_map_id, zlen_app. cbn [map foldr] in *. split; [done|]. unfold zlen in *. cbn. lia.
  - destruct any as [|c l]; [done|]. destruct (eval_children_spec path "any" 0 (c :: l)) as [H1' H2']; [by apply Hl|].
    destruct (eval_children _ _ _ _ _) as [ms ts]. cbn [fst snd] in *. subst ms.
    rewrite existsb_map_id, zlen_app. cbn [map foldr] in *. split; [done|]. unfold zlen in *. cbn. lia.
  - destruct (Hn c eq_refl (path ++ ".not")%string) as [H1' H2']; [done|].
    destruct (evalExpression c request now _) as [m t]. cbn [fst snd map foldr] in *. subst m.
    rewrite zlen_app. split; [done|]. unfold zlen in *. cbn. lia.
  - rewrite (evalLeaf_path _ "" path). destruct (evalLeaf _ _ _ path) as [m t]. done.
Qed.
End semantics.

Section limits.
Context {N : Numbers} {U : Unicode} {R : MapRange} {J : Json} {RE : Regexp} {IA : IPAddr}.

Definition within (e : TypedExpression) (depth nodes m : Z) : Prop :=
  m = nodes + expr_nodes e /\ m <= defaultMaxExpressionNodes /\ depth + expr_depth e <= defaultMaxExpressionDepth /\ one_branch e.

Lemma validate_children_spec path branch i l depth nodes m :
  Forall (fun e => forall p d n m, validateExpression e p d n = Ok m -> within e d n m) l ->
  nodes <= defaultMaxExpressionNodes -> depth <= defaultMaxExpressionDepth ->
  validate_children (fun c p n => validateExpression c p (depth + 1) n) path branch i l nodes = Ok m ->
  m = nodes + foldr Z.add 0 (map expr_nodes l) /\ m <= defaultMaxExpressionNodes /\
  depth + foldr Z.max 0 (map (fun c => 1 + expr_depth c) l) <= defaultMaxExpressionDepth /\ Forall one_branch l.
Proof.
  intros HF. revert i nodes. induction HF as [|c l Hc HF IH]; intros i nodes Hn Hd; cbn [validate_children map foldr].
  { intros [= ->]. split_and!; [lia..|constructor]. }
  intros (k & Hk & Hm)%bind_Ok. destruct (Hc _ _ _ _ Hk) as (-> & Hk2 & Hk3 & Hk4).
  destruct (IH _ _ Hk2 Hd Hm) as (-> & ? & ? & ?). split_and!; [lia..|by constructor].
Qed.

Lemma validateExpression_spec e path depth nodes m :
  validateExpression e path depth nodes = Ok m -> within e depth nodes m.
Proof.
  revert path depth nodes m. induction e as [all any not_ f o v vs Ha Hy Hn] using expression_ind.
  intros path depth nodes m. cbn [validateExpression]. destruct (depth >? _) eqn:Ed; [discriminate|]. cbv zeta.
  destruct (nodes + 1 >? _) eqn:En; [discriminate|]. bool_arith.
  intros (n1 & H1 & (n2 & H2 & (n3 & H3 & (u & H4 & H5)%bind_Ok)%bind_Ok)%bind_Ok)%bind_Ok.
  destruct (_ && _) in H1; [discriminate|]. destruct (_ && _) in H2; [discriminate|].
  destruct (validate_children_spec _ _ _ _ _ _ _ Ha En Ed H1) as (-> & L1 & D1 & B1).
  destruct (validate_children_spec _ _ _ _ _ _ _ Hy L1 Ed H2) as (-> & L2 & D2 & B2).
  set (leaf := _ || _) in H4, H5. destruct (negb _) eqn:Eb in H5; [discriminate|]. injection H5 as <-. bool_arith.
  unfold within. cbn [expr_nodes expr_depth].
  assert (n3 = nodes + 1 + foldr Z.add 0 (map expr_nodes all) + foldr Z.add 0 (map expr_nodes any)
            + match not_ with Some c => expr_nodes c | None => 0 end /\ n3 <= defaultMaxExpressionNodes /\
          depth + match not_ with Some c => 1 + expr_depth c | None => 0 end <= defaultMaxExpressionDepth /\
          (forall c, not_ = Some c -> one_branch c)) as (-> & L3 & D3 & B3).
  { destruct not_ as [c|].
    - destruct (Hn c eq_refl _ _ _ _ H3) as (-> & ? & ? & ?). split_and!; [lia..|]. by intros ? [= <-].
    - injection H3 as <-. split_and!; try done; lia. }
  split_and!; [lia|lia|lia|].
  assert (forall A (l : list A), (if zlen l >? 0 then 1 else 0) = match l with [] => 0 | _ => 1 end) as Hz.
  { intros A [|x l]; [done|]. rewrite zlen_cons. pose proof (zlen_nonneg l). split_if; [done|]. bool_arith. lia. }
  rewrite !Hz in Eb.
  destruct all as [|a al], any as [|b bl], not_ as [c|]; destruct leaf eqn:El; try lia.
  - apply branch_not. by apply B3.
  - apply branch_leaf. destruct u. unfold validateLeaf in H4. intros Ho. unfold normalizeOperator, lower_trim in H4. cbn [Op] in H4.
    rewrite Ho in H4. cbn in H4. discriminate H4.
  - by apply branch_any.
  - by apply branch_all.
Qed.

Lemma CompileMatchConditions_within raw e legacy :
  CompileMatchConditions raw = Ok (e, legacy) ->
  expr_nodes e <= defaultMaxExpressionNodes /\ expr_depth e <= defaultMaxExpressionDepth /\ one_branch e.
Proof.
  assert (forall x : TypedExpression, (_ ← ValidateExpression x; Ok (x, legacy) : result expression_error _) = Ok (e, legacy) ->
    expr_nodes e <= defaultMaxExpressionNodes /\ expr_depth e <= defaultMaxExpressionDepth /\ one_branch e) as Hv.
  { intros x ([] & (m & Hm & _)%bind_Ok & [= ->])%bind_Ok. apply validateExpression_spec in Hm as (-> & ? & ? & ?).
    split_and!; [lia..|done]. }
  unfold CompileMatchConditions. destruct (_ =? _)%string.
  { intros [= <- _]. split_and!; [done..|]. apply branch_leaf. done. }
  destruct (unmarshal_object raw) as [doc|]; [|discriminate]. case_bool_decide.
  { intros [= <- _]. split_and!; [done..|]. apply branch_leaf. done. }
  destruct (expressionLooksTyped doc).
  - destruct (unmarshal_expression raw) as [x|]; [|discriminate]. intros Hc. apply Hv with x.
    destruct (ValidateExpression x); [|discriminate]. by injection Hc as -> <-.
  - intros Hc. apply Hv with (legacyMapToExpression doc). destruct (ValidateExpression _); [|discriminate]. by injection Hc as <- <-.
Qed.
End limits.

(** C4: Whatever match conditions compile, their evaluation is the boolean combination of the verdicts
    of the leaves that the expression spells, with one trace entry per node and so at most 128 of
    them, from an expression at most 8 levels deep that mixes no two branches in a node. *)
Theorem compiled_evaluation {N : Numbers} {U : Unicode} {R : MapRange} {J : Json} {RE : Regexp} {IA : IPAddr}
    (raw : string) (e : TypedExpression) (legacy : bool) (request : option Request) (wall : Z) :
  CompileMatchConditions raw = Ok (e, legacy) ->
  let now := match request with Some req => default wall (ReqEvaluatedAt req) | None => wall end in
  (EvaluateTypedExpression e request wall).1 = denote request now e /\
  zlen (EvaluateTypedExpression e request wall).2 = expr_nodes e /\
  expr_nodes e <= 128 /\ expr_depth e <= 8 /\ one_branch e.
Proof.
  intros Hc. destruct (CompileMatchConditions_within _ _ _ Hc) as (Hn & Hd & Hb). cbv zeta.
  unfold EvaluateTypedExpression. destruct (evalExpression_spec request
    match request with Some req => default wall (ReqEvaluatedAt req) | None => wall end e "$" Hb) as [H1 H2]. done.
Qed.

Section legacy.
Context {N : Numbers} {U : Unicode} {R : MapRange} {J : Json} {RE : Regexp} {IA : IPAddr}.

Lemma elem_of_sorted_entries doc k v : (k, v) ∈ sorted_entries doc <-> doc !! k = Some v.
Proof. unfold sorted_entries. rewrite sort_by_perm. apply elem_of_range_map. Qed.

Lemma legacy_leaf_eval entry request now path :
  (evalExpression (legacy_leaf entry) request now path).1 = (evalLeaf (legacy_leaf entry) request now "").1.
Proof.
  unfold legacy_leaf. destruct entry as [k v]. cbn [fst snd]. destruct v; cbn [evalExpression];
    rewrite (evalLeaf_path _ _ _ "" path); by destruct (evalLeaf _ _ _ path).
Qed.

Lemma legacy_children_eval path branch i l request now :
  (eval_children (fun c p => evalExpression c request now p) path branch i (legacy_leaf <$> l)).1
  = map (fun entry => (evalLeaf (legacy_leaf entry) request now "").1) l.
Proof.
  revert i. induction l as [|x l IH]; intros i; [done|]. cbn [fmap list_fmap eval_children map].
  pose proof (legacy_leaf_eval x request now (branch_path path branch i)) as Hx. specialize (IH (S i)).
  destruct (evalExpression _ _ _ _) as [m t], (eval_children _ _ _ _ _) as [ms ts]. cbn [fst] in *. congruence.
Qed.
End legacy.

(** Legacy match conditions mean the conjunction of their entries: a legacy object matches exactly
    when every entry's own comparison does, whatever order Go ranges over the object in. *)
Theorem legacy_conjunction {N : Numbers} {U : Unicode} {R : MapRange} {J : Json} {RE : Regexp} {IA : IPAddr}
    (doc : gmap string value) (request : option Request) (now : Z) (path : string) :
  doc <> ∅ ->
  (evalExpression (legacyMapToExpression doc) request now path).1 = true <->
  forall k v, doc !! k = Some v -> (evalLeaf (legacy_leaf (k, v)) request now "").1 = true.
Proof.
  intros Hne. transitivity (forallb (fun entry => (evalLeaf (legacy_leaf entry) request now "").1) (sorted_entries doc) = true).
  - unfold legacyMapToExpression. destruct (sorted_entries doc) as [|x [|y l]] eqn:E; cbn [fmap list_fmap].
    + exfalso. apply Hne. apply map_empty. intros k. destruct (doc !! k) as [v|] eqn:Ek; [|done].
      apply elem_of_sorted_entries in Ek. rewrite E in Ek. by apply elem_of_nil in Ek.
    + rewrite legacy_leaf_eval. cbn [forallb]. by rewrite andb_true_r.
    + change (legacy_leaf x :: legacy_leaf y :: list_fmap _ _ legacy_leaf l) with (legacy_leaf <$> (x :: y :: l)).
      pose proof (legacy_children_eval path "all" 0 (x :: y :: l) request now) as Hc. cbn [fmap list_fmap] in *.
      cbn [evalExpression]. destruct (eval_children _ _ _ _ _) as [ms ts]. cbn [fst] in *. subst ms. by rewrite forallb_map_id.
  - rewrite forallb_forall. split.
    + intros H k v Hk. apply (H (k, v)). apply list_elem_of_In. by apply elem_of_sorted_entries.
    + intros H [k v] Hin. apply H. apply elem_of_sorted_entries. by apply list_elem_of_In.
Qed.

(** ** Hyphenated attribute names *)

Definition no_hyphen : ascii -> bool := fun c => negb (c =? "-")%char.

Lemma all_chars_map p f s : all_chars p (map_chars f s) = all_chars (fun c => p (f c)) s.
Proof. induction s as [|c s IH]; [done|]. cbn [map_chars all_chars]. by rewrite IH. Qed.

Lemma all_chars_true p s : (forall c, p c = true) -> all_chars p s = true.
Proof. intros Hp. induction s as [|c s IH]; [done|]. cbn. by rewrite Hp, IH. Qed.

Lemma all_chars_drop p n s : all_chars p s = true -> all_chars p (string_drop n s) = true.
Proof.
  revert s. induction n as [|n IH]; intros [|c s]; try done. cbn [all_chars string_drop]. intros [_ ?]%andb_true_iff. by apply IH.
Qed.

Lemma normalizeField_no_hyphen {U : Unicode} field : all_chars no_hyphen (normalizeField field) = true.
Proof.
  unfold normalizeField, ReplaceAllChar. rewrite all_chars_map. apply all_chars_true. intros c. unfold no_hyphen.
  destruct (c =? "-")%char eqn:E; [done|]. by rewrite E.
Qed.

Lemma ToLower_no_hyphen {U : Unicode} s : is_ascii s = true -> all_chars no_hyphen s = true -> all_chars no_hyphen (ToLower s) = true.
Proof.
  intros Ha Hs. unfold ToLower. rewrite Ha, all_chars_map.
  assert (forall c, no_hyphen (lower_char c) = no_hyphen c) as Hc.
  { intros c. apply Bool.eqb_prop. revert c. apply (all_ascii_dec (fun c => Bool.eqb (no_hyphen (lower_char c)) (no_hyphen c))). by vm_compute. }
  clear Ha. induction s as [|c s IH]; [done|]. cbn [all_chars] in *. apply andb_true_iff in Hs as [? Hs]. rewrite Hc. by rewrite H, IH.
Qed.

(** A condition on a request attribute cannot see attributes with a hyphen in their name, such as
    Filter-Id: the field name of the condition has its hyphens replaced by underscores, the names in
    the request have not, so the condition treats the attribute as absent. *)
Theorem hyphenated_attribute_unmatchable {N : Numbers} {U : Unicode} {R : MapRange} (attributes : gmap string string) (field : string) :
  let key := TrimPrefix (normalizeField field) "attribute." in
  is_ascii key = true ->
  (forall name v, attributes !! name = Some v -> all_chars no_hyphen (ToLower name) = false) ->
  attribute_value attributes key = (VNil, false).
Proof.
  intros key Ha Hn. assert (all_chars no_hyphen key = true) as Hk.
  { subst key. unfold TrimPrefix. case_match; [apply all_chars_drop|]; apply normalizeField_no_hyphen. }
  clearbody key. apply (ToLower_no_hyphen key Ha) in Hk. unfold attribute_value.
  destruct (attributes !! key) as [v|] eqn:E; [apply Hn in E; congruence|].
  destruct (firstSome _ _) as [v|] eqn:Ef; [|done]. apply firstSome_Some in Ef as (l1 & [name w] & l2 & Hr & Hm & _).
  cbn [fst snd] in Hm. destruct (_ =? _)%string eqn:Eq in Hm; [|discriminate]. apply String.eqb_eq in Eq.
  assert (attributes !! name = Some w) as Hin by (apply elem_of_range_map; rewrite Hr; set_solver).
  apply Hn in Hin. rewrite Eq in Hin. congruence.
Qed.

(** ** Types of compiled leaves *)

Section types.
Context {N : Numbers} {U : Unicode} {R : MapRange} {J : Json} {RE : Regexp} {IA : IPAddr}.

Definition assoc (key : string) (l : list (string * string)) : option string := firstSome (fun e => if (e.1 =? key)%string then Some e.2 else None) l.

(** The declared type of a field *)
Definition field_type (field : string) : option string := if HasPrefix field "attribute." then Some "string" else assoc field knownFieldTypes.

Definition has_type (type : string) (v : value) : Prop :=
  match v with
  | VBool _ => type = "bool"
  | VString _ => type = "string" \/ type = "ip"
  | VInt _ => type = "number"
  | VStrings _ => type = "string_list"
  | _ => False
  end.

Fixpoint leaves (e : TypedExpression) : list TypedExpression :=
  match e with
  | mkTypedExpression all any not_ _ _ _ _ =>
      match all, any, not_ with
      | [], [], None => [e]
      | _, _, _ => concat (map leaves all) ++ concat (map leaves any) ++ match not_ with Some c => leaves c | None => [] end
      end
  end.

(** A leaf that evaluation can decide: a constant, or a field of a declared type under an operator that has its operands. *)
Definition leaf_typed (l : TypedExpression) : Prop :=
  let op := normalizeOperator (Op l) in
  op = "true" \/ op = "false" \/
  (is_ascii (Field l) = true -> is_Some (field_type (normalizeField (Field l))))
  /\ op ∈ "exists" :: value_operators ++ values_operators
  /\ (op ∈ value_operators -> Value l <> VNil)
  /\ (op ∈ values_operators -> 1 <= zlen (Values l) <= defaultMaxListValues)
  /\ (op = "between" -> exists low high, Values l = [low; high])
  /\ (op = "regex" -> strlen (stringify (Value l)) <= 256 /\ is_Some (regexp_compile (stringify (Value l)))).

(** Trimming, lowering and replacing twice changes nothing. *)
Lemma normalizeField_idem field : is_ascii field = true -> normalizeField (normalizeField field) = normalizeField field.
Proof.
  set (dash := fun c => if (c =? "-")%char then "_"%char else c).
  assert (forall c, space1 (dash c) = space1 c) as H1.
  { intros c. apply Bool.eqb_prop. revert c. apply (all_ascii_dec (fun c => Bool.eqb (space1 (dash c)) (space1 c))). by vm_compute. }
  assert (forall c, is_ascii_char (dash c) = is_ascii_char c) as Ha.
  { intros c. apply Bool.eqb_prop. revert c. apply (all_ascii_dec (fun c => Bool.eqb (is_ascii_char (dash c)) (is_ascii_char c))). by vm_compute. }
  assert (forall c, dash (lower_char (dash (lower_char c))) = dash (lower_char c)) as Hd.
  { intros c. apply Ascii.eqb_eq. revert c. apply all_ascii_dec. by vm_compute. }
  assert (forall s, is_ascii (map_chars dash s) = is_ascii s) as Hs.
  { induction s as [|c s IH]; [done|]. unfold is_ascii in *. cbn [map_chars all_chars]. by rewrite Ha, IH. }
  intros Hf. assert (is_ascii (TrimSpace field) = true) as Ht by by apply is_ascii_TrimSpace.
  assert (normalizeField field = map_chars dash (map_chars lower_char (TrimSpace field))) as Hn by (unfold normalizeField, lower_trim, ToLower; by rewrite Ht).
  unfold normalizeField at 1. unfold lower_trim. rewrite Hn. rewrite TrimSpace_map by (done || by rewrite is_ascii_map_lower).
  rewrite TrimSpace_map, TrimSpace_idem by (apply space1_lower || apply is_ascii_lower_char || done). unfold ToLower. rewrite Hs, is_ascii_map_lower, Ht.
  unfold ReplaceAllChar. fold dash. generalize (TrimSpace field). clear -Hd. induction s as [|c s IH]; [done|]. cbn [map_chars]. by rewrite Hd, IH.
Qed.

Lemma assoc_is_Some key l : key ∈ l.*1 -> is_Some (assoc key l).
Proof.
  unfold assoc. induction l as [|[k v] l IH]; [by intros ?%not_elem_of_nil|]. cbn. destruct (String.eqb_spec k key) as [_|Hne]; [done|].
  intros [->|H]%elem_of_cons; [done|by apply IH].
Qed.

Lemma knownField_type field : is_ascii field = true -> knownField (normalizeField field) = true -> is_Some (field_type (normalizeField field)).
Proof.
  intros Hf. unfold knownField, field_type. rewrite normalizeField_idem by done. destruct (HasPrefix _ _); [done|].
  intros H%bool_decide_eq_true. by apply assoc_is_Some.
Qed.

(** A field that is there has a value of its declared type. *)
Lemma fieldValue_typed req field now type : field_type field = Some type -> (fieldValue (Some req) field now).2 = true -> has_type type (fieldValue (Some req) field now).1.
Proof.
  unfold field_type. destruct (HasPrefix field "attribute.") eqn:Hp.
  - intros [= <-]. unfold fieldValue. rewrite Hp.
    repeat match goal with |- context [(field =? ?k)%string] => destruct (String.eqb_spec field k) as [->|_]; [discriminate Hp|] end.
    unfold attribute_value. destruct (ReqAttributes req !! _); [by left|]. destruct (firstSome _ _); [by left|discriminate].
  - unfold assoc. intros (l1 & [k v] & l2 & Hl & Hk & _)%firstSome_Some. cbn [fst snd] in Hk. destruct (String.eqb_spec k field) as [->|]; [|discriminate].
    injection Hk as ->. assert ((field, type) ∈ knownFieldTypes) as Hin by (rewrite Hl; set_solver). clear -Hin.
    unfold knownFieldTypes in Hin. repeat (apply elem_of_cons in Hin as [[= -> ->]|Hin]; [cbn; first [discriminate|intros _]; first [done|by left|by right|by case_match; left]|]).
    by apply not_elem_of_nil in Hin.
Qed.

(** What the validation of a leaf lets through *)
Lemma validateLeaf_typed l path : validateLeaf l path = Ok tt -> leaf_typed l.
Proof.
  unfold validateLeaf, leaf_typed. cbv zeta. generalize (normalizeOperator (Op l)) as op. intros op. destruct (op =? "")%string; [discriminate|].
  destruct (String.eqb_spec op "true"); [by left|]. destruct (String.eqb_spec op "false"); [by right; left|]. cbn [orb].
  destruct (normalizeField (Field l) =? "")%string; [discriminate|]. destruct (knownField _) eqn:Hk; cbn [negb]; [|discriminate].
  intros (u & Hv & Hr)%bind_Ok. right. right. split; [intros Ha; by apply knownField_type|].
  assert (op = "regex" -> strlen (stringify (Value l)) <= 256 /\ is_Some (regexp_compile (stringify (Value l)))) as Hregex.
  { intros ->. cbn [String.eqb Ascii.eqb Bool.eqb] in Hr. destruct (strlen _ >? 256) eqn:E; [discriminate|]. split; [lia|]. by destruct (regexp_compile _). }
  destruct (bool_decide (op ∈ value_operators)) eqn:E1; [|destruct (bool_decide (op ∈ values_operators)) eqn:E2; [|destruct (String.eqb_spec op "exists") as [E3|]; [|discriminate]]].
  - apply bool_decide_eq_true in E1. assert (op ∉ values_operators /\ op <> "between") as [H1 H2] by (clear -E1; unfold value_operators, values_operators in *; split; [intros E2|]; set_solver).
    split_and!; [set_solver| |by intros|done|done]. intros _ Hn. by rewrite Hn in Hv.
  - apply bool_decide_eq_true in E2. apply bool_decide_eq_false in E1. destruct (bool_decide (Values l = [])) eqn:E4; [discriminate|]. apply bool_decide_eq_false in E4.
    destruct (zlen (Values l) >? _) eqn:E5; [discriminate|]. split_and!; [set_solver|done| | |done].
    + intros _. destruct (Values l) as [|v vs]; [done|]. rewrite zlen_cons in *. pose proof (zlen_nonneg vs). lia.
    + intros Hb. rewrite Hb in Hv. cbn [String.eqb Ascii.eqb Bool.eqb andb] in Hv. destruct (zlen (Values l) =? 2) eqn:E6; [|discriminate].
      destruct (Values l) as [|v [|w [|x vs]]]; try discriminate E6; [eauto|]. rewrite !zlen_cons in E6. pose proof (zlen_nonneg vs). lia.
  - apply bool_decide_eq_false in E1, E2. split_and!; [set_solver|done|done|congruence|done].
Qed.

Lemma validate_children_typed f path branch i l n m : Forall (fun e => forall p n m, f e p n = Ok m -> Forall leaf_typed (leaves e)) l ->
  validate_children f path branch i l n = Ok m -> Forall leaf_typed (concat (map leaves l)).
Proof.
  intros HF. revert i n. induction HF as [|c l Hc HF IH]; intros i n; cbn [validate_children map concat]; [constructor|].
  intros (k & Hk & Hm)%bind_Ok. apply Forall_app. split; [by eapply Hc|by eapply IH].
Qed.

Lemma validateExpression_typed e path depth nodes m : validateExpression e path depth nodes = Ok m -> Forall leaf_typed (leaves e).
Proof.
  revert path depth nodes m. induction e as [all any not_ f o v vs Ha Hy Hn] using expression_ind. intros path depth nodes m Hv.
  pose proof (validateExpression_spec _ _ _ _ _ Hv) as (_ & _ & _ & Hb). cbn [validateExpression] in Hv. destruct (depth >? _); [discriminate|].
  cbv zeta in Hv. destruct (_ >? _); [discriminate|]. apply bind_Ok in Hv as (n1 & H1 & (n2 & H2 & (n3 & H3 & (u & H4 & _)%bind_Ok)%bind_Ok)%bind_Ok).
  destruct (_ && _) in H1; [discriminate|]. destruct (_ && _) in H2; [discriminate|].
  assert (Forall leaf_typed (concat (map leaves all))) as La by (eapply validate_children_typed; [|exact H1]; eapply Forall_impl; [exact Ha|naive_solver]).
  assert (Forall leaf_typed (concat (map leaves any))) as Ly by (eapply validate_children_typed; [|exact H2]; eapply Forall_impl; [exact Hy|naive_solver]).
  inversion Hb as [? ? ? ? ? Hne| ? ? ? ? ? Hne|c ? ? ? ? Hc| ? ? ? ? Ho]; subst; cbn [leaves].
  - destruct all; [done|]. by rewrite !app_nil_r.
  - destruct any; [done|]. by rewrite app_nil_r.
  - by eapply Hn.
  - constructor; [|constructor]. apply String.eqb_neq in Ho. rewrite Ho in H4. cbn [negb orb] in H4. destruct u. by eapply validateLeaf_typed.
Qed.
End types.

(** C5: What compiles is well typed: every leaf is a constant, or compares a field of a declared type under an operator of the
    catalogue that has the operands it needs (a value, one to 128 values, two bounds, a pattern of at most 256 bytes that
    compiles), and whenever a request has the field, its value is of the declared type; the fields of the catalogue are declared
    with the types the catalogue shows. *)
Theorem compiled_leaves_typed {N : Numbers} {U : Unicode} {R : MapRange} {J : Json} {RE : Regexp} {IA : IPAddr}
    (raw : string) (e : TypedExpression) (legacy : bool) :
  CompileMatchConditions raw = Ok (e, legacy) ->
  Forall leaf_typed (leaves e)
  /\ (forall l, l ∈ leaves e -> normalizeOperator (Op l) ∈ OsName <$> OperatorCatalog)
  /\ (forall field type req now, field_type field = Some type -> (fieldValue (Some req) field now).2 = true -> has_type type (fieldValue (Some req) field now).1)
  /\ Forall (fun spec => field_type (FsName spec) = Some (FsType spec)) FieldCatalog.
Proof.
  intros Hc. assert (Forall leaf_typed (leaves e)) as Hl.
  { assert (leaf_typed always) as Halways by (left; vm_compute; reflexivity).
    unfold CompileMatchConditions in Hc. destruct (_ =? _)%string; [injection Hc as <- _; by repeat constructor|]. destruct (unmarshal_object raw) as [doc|]; [|discriminate].
    case_bool_decide; [injection Hc as <- _; by repeat constructor|]. destruct (expressionLooksTyped doc); [destruct (unmarshal_expression raw); [|discriminate]|];
      apply bind_Ok in Hc as ([] & (m & Hm & _)%bind_Ok & [= <- _]); by eapply validateExpression_typed. }
  split_and!; [done| |intros; by apply fieldValue_typed|by decided].
  intros l Hin. rewrite Forall_forall in Hl. destruct (Hl l Hin) as [->|[->|(_ & Hop & _)]]; [by decided..|].
  unfold OperatorCatalog, value_operators, values_operators in *. set_solver.
Qed.

(** ** Witnesses *)

Definition example_request : Request :=
  mkRequest "alice" "staff" ["eng"; "ops"] "" "" "" "eap-tls" "" "corp" "" "" "" "" "" "" "" "" "" 30 true "" "" 10
    {["Filter-Id" := "gold"]} (Some 0).

(** {"all":[{"field":"groups","op":"contains","value":"OPS"},{"not":{"field":"vlan","op":"gt","value":40}}]} *)
Definition example_expression : TypedExpression :=
  mkTypedExpression
    [mkTypedExpression [] [] None "groups" "contains" (VString "OPS") [];
     mkTypedExpression [] [] (Some (mkTypedExpression [] [] None "vlan" " GT " (VInt 40) [])) "" "" VNil []]
    [] None "" "" VNil [].

#[local] Instance example_json : Json := {|
  unmarshal_object := fun _ => Some {["all" := VNil]};
  unmarshal_expression := fun _ => Some example_expression;
  remarshal := fun s => Some s |}.

Lemma compiled_evaluation_witness :
  CompileMatchConditions "x" = Ok (example_expression, false) /\
  (EvaluateTypedExpression example_expression (Some example_request) 0).1 = true /\
  zlen (EvaluateTypedExpression example_expression (Some example_request) 0).2 = 4.
Proof.
  assert (CompileMatchConditions "x" = Ok (example_expression, false)) as Hc by reflexivity.
  split; [exact Hc|]. split; [vm_compute; reflexivity|].
  exact (proj1 (proj2 (compiled_evaluation "x" example_expression false (Some example_request) 0 Hc))).
Defined.

Definition example_doc : gmap string value := {["group" := VString "Eng"; "vlan" := VList [VInt 30; VInt 31]]}.

Lemma legacy_conjunction_witness :
  (evalExpression (legacyMapToExpression example_doc) (Some example_request) 0 "$").1 = true.
Proof.
  apply (legacy_conjunction example_doc (Some example_request) 0 "$"); [discriminate|].
  intros k v Hk. unfold example_doc in Hk.
  apply lookup_insert_Some in Hk as [[<- <-]|[_ [<- <-]%lookup_singleton_Some]]; vm_compute; reflexivity.
Defined.

Lemma hyphenated_attribute_unmatchable_witness :
  attribute_value (ReqAttributes example_request) (TrimPrefix (normalizeField "attribute.Filter-Id") "attribute.") = (VNil, false).
Proof.
  apply hyphenated_attribute_unmatchable; [vm_compute; reflexivity|].
  intros name v Hn. change (ReqAttributes example_request) with ({["Filter-Id" := "gold"]} : gmap string string) in Hn.
  apply lookup_singleton_Some in Hn as [<- _]. vm_compute. reflexivity.
Defined.

Lemma compiled_leaves_typed_witness : Forall leaf_typed (leaves example_expression) /\ zlen (leaves example_expression) = 2.
Proof.
  assert (CompileMatchConditions "x" = Ok (example_expression, false)) as Hc by reflexivity.
  split; [exact (proj1 (compiled_leaves_typed "x" example_expression false Hc))|reflexivity].
Defined.
