(* ===== verification/PolicySets.v ===== *)
(** * Policy sets ([internal/policy/policy_set.go])

    The tree of policy sets: its normal form, its validation, and the flattening that turns it into
    the ordered list of rules the engine evaluates; summaries and differences of two trees. *)

From S2P Require Import Prelude GoStrings Bytes ServiceChain PolicyTypes PolicyTyped.
From Stdlib Require Import Ascii.

Definition PolicySetSchemaVersion : Z := 1.
Definition defaultMaxPolicySetDepth : Z := 8.

(** [json.NewDecoder] with [DisallowUnknownFields]. *)
Class PolicySetDecoder := decode_policy_set : string -> option PolicySet.

Inductive set_error :=
| ContentRequired
| SetDecodeError
| SetTooDeep (path : string)
| SetKeyInvalid (path key : string)
| SetNameRequired (path : string)
| SetKeyDuplicated (path key : string)
| RuleNameInvalid (path : string) (i : nat) (name : string)
| RuleNameDuplicated (path : string) (i : nat) (name : string)
| RuleInvalid (path : string) (i : nat) (e : rule_error)
| ChildKeyDuplicated (path : string) (i : nat) (key : string).

Record PolicySetSummary := mkPolicySetSummary {
  SumKey : string; SumName : string; SumTenant : string; SumRuleCount : Z; SumChildSetCount : Z; SumMaxDepth : Z;
  SumContentHash : string; SumPolicyHash : string }.

Record PolicySetDiff := mkPolicySetDiff {
  DiffFromHash : string; DiffToHash : string; DiffAdded : list Rule; DiffRemoved : list Rule;
  DiffChanged : list (string * Rule * Rule) }.

Definition quote : string := String "034"%char "".
(** The text {"op":"true"} *)
Definition always_json : string :=
  ("{" ++ quote ++ "op" ++ quote ++ ":" ++ quote ++ "true" ++ quote ++ "}")%string.

Definition defaultRawJSON (raw fallback : string) : string := if (TrimSpace raw =? "")%string then fallback else raw.
Definition defaultString (text fallback : string) : string :=
  let text := TrimSpace text in if (text =? "")%string then fallback else text.
Definition boolPtrValue (value : option bool) : bool := match value with None => true | Some b => b end.

Definition validPolicyRuleName (value : string) : bool :=
  let value := TrimSpace value in
  if (value =? "")%string || (strlen value >? 128) || Contains value "/" then false
  else all_chars (fun c => lower_letter c || upper_letter c || digit c || one_of "-_. " c) value.

Definition with_rule_id (r : Rule) (id : Z) : Rule :=
  mkRule id (RuleName r) (RuleDescription r) (RulePriority r) (RuleEnabled r) (RuleMatchConditions r) (RuleAction r)
    (RuleVLAN r) (RuleBandwidthProfile r) (RuleSessionTimeout r) (RuleIdleTimeout r) (RulePortalProfile r)
    (RuleACLPolicyName r) (RuleQuarantine r) (RuleServiceChain r).
Definition placed_rule (r : Rule) (name : string) (priority : Z) (enabled : bool) : Rule :=
  mkRule (RuleID r) name (RuleDescription r) priority enabled (RuleMatchConditions r) (RuleAction r)
    (RuleVLAN r) (RuleBandwidthProfile r) (RuleSessionTimeout r) (RuleIdleTimeout r) (RulePortalProfile r)
    (RuleACLPolicyName r) (RuleQuarantine r) (RuleServiceChain r).

(** Higher priority first, then by name. *)
Definition rule_less (x y : Rule) : bool :=
  if RulePriority x =? RulePriority y then string_less (RuleName x) (RuleName y) else RulePriority x >? RulePriority y.
Definition set_less (x y : PolicySet) : bool :=
  if PSPriority x =? PSPriority y then string_less (PSKey x) (PSKey y) else PSPriority x >? PSPriority y.

Section policy_sets.
Context {N : Numbers} {U : Unicode} {R : MapRange} {J : Json} {RE : Regexp} {IA : IPAddr}.

Definition defaultPolicySetKey (value : string) : string :=
  let value := lower_trim value in if (value =? "")%string then "default" else value.

Definition NormalizeRule (r : Rule) : Rule :=
  mkRule (RuleID r) (TrimSpace (RuleName r)) (TrimSpace (RuleDescription r)) (RulePriority r) (RuleEnabled r)
    (canonicalJSON (defaultRawJSON (RuleMatchConditions r) always_json))
    (defaultString (lower_trim (RuleAction r)) "allow") (RuleVLAN r)
    (normalizeStringPtr (RuleBandwidthProfile r)) (RuleSessionTimeout r) (RuleIdleTimeout r)
    (normalizeStringPtr (RulePortalProfile r)) (normalizeStringPtr (RuleACLPolicyName r)) (RuleQuarantine r)
    (NormalizeServiceChain (RuleServiceChain r)).

Definition PolicySetFromRules (key name description : string) (rules : list Rule) : PolicySet :=
  mkPolicySet PolicySetSchemaVersion (defaultPolicySetKey key) (defaultString name "Default Policy Set")
    (TrimSpace description) "" 0 (Some true) (NormalizeRule <$> rules) [].

Fixpoint NormalizePolicySet (set : PolicySet) : PolicySet :=
  match set with
  | mkPolicySet _ key name description tenant priority enabled rules children =>
      let key := defaultPolicySetKey key in
      mkPolicySet PolicySetSchemaVersion key (defaultString name key) (TrimSpace description) (TrimSpace tenant) priority
        (match enabled with None => Some true | Some b => Some b end) (NormalizeRule <$> rules) (map NormalizePolicySet children)
  end.

(** The loop over the rules; [names] has the lower-cased names so far. *)
Fixpoint validate_rules (path : string) (i : nat) (names : gset string) (rules : list Rule) : result set_error unit :=
  match rules with
  | [] => Ok tt
  | rule :: rules' =>
      if negb (validPolicyRuleName (RuleName rule)) then Err (RuleNameInvalid path i (RuleName rule))
      else
        let key := ToLower (RuleName rule) in
        if bool_decide (key ∈ names) then Err (RuleNameDuplicated path i (RuleName rule))
        else match ValidateRule rule with
             | Err e => Err (RuleInvalid path i e)
             | Ok _ => validate_rules path (S i) ({[key]} ∪ names) rules'
             end
  end.

(** The loop over the children; [f] checks a child and returns the new [seen]. *)
Fixpoint validate_sets (f : PolicySet -> string -> gset string -> result set_error (gset string)) (path : string)
    (i : nat) (keys : gset string) (children : list PolicySet) (seen : gset string) : result set_error (gset string) :=
  match children with
  | [] => Ok seen
  | child :: children' =>
      let key := lower_trim (PSKey child) in
      if bool_decide (key ∈ keys) then Err (ChildKeyDuplicated path i (PSKey child))
      else
        seen ← f child (path ++ ".children[" ++ PSKey child ++ "]")%string seen;
        validate_sets f path (S i) ({[key]} ∪ keys) children' seen
  end.

Fixpoint validatePolicySet (set : PolicySet) (path : string) (depth maxDepth : Z) (seen : gset string) {struct set}
    : result set_error (gset string) :=
  match set with
  | mkPolicySet _ key name _ _ _ _ rules children =>
      if depth >? maxDepth then Err (SetTooDeep path)
      else if negb (validPolicyToken key) then Err (SetKeyInvalid path key)
      else if (TrimSpace name =? "")%string then Err (SetNameRequired path)
      else
        let mark := (path ++ "/" ++ key)%string in
        if bool_decide (mark ∈ seen) then Err (SetKeyDuplicated path key)
        else
          _ ← validate_rules path 0 ∅ rules;
          validate_sets (fun child p s => validatePolicySet child p (depth + 1) maxDepth s) path 0 ∅ children ({[mark]} ∪ seen)
  end.

Definition clamp_depth (maxDepth : Z) : Z :=
  let maxDepth := if maxDepth <=? 0 then defaultMaxPolicySetDepth else maxDepth in
  if maxDepth >? 32 then 32 else maxDepth.

Definition ValidatePolicySet (set : PolicySet) (maxDepth : Z) : result set_error unit :=
  _ ← validatePolicySet set "$" 1 (clamp_depth maxDepth) ∅; Ok tt.

Definition ParsePolicySet {PD : PolicySetDecoder} (raw : string) : result set_error PolicySet :=
  let raw := TrimSpace raw in
  if (raw =? "")%string then Err ContentRequired
  else match decode_policy_set raw with
       | None => Err SetDecodeError
       | Some set => let set := NormalizePolicySet set in _ ← ValidatePolicySet set 32; Ok set
       end.

(** The rules a set contributes; the children are visited in the order of [set_less]. *)
Fixpoint flattenPolicySet (set : PolicySet) (parentPath : string) (parentEnabled : bool) (inheritedPriority : Z) : list Rule :=
  match set with
  | mkPolicySet _ key _ _ _ priority enabled rules children =>
      let path := if (parentPath =? "")%string then key else (parentPath ++ "/" ++ key)%string in
      let setEnabled := parentEnabled && boolPtrValue enabled in
      let priorityBase := if (parentPath =? "")%string then inheritedPriority else inheritedPriority + priority in
      map (fun rule =>
        let flattened := NormalizeRule rule in
        placed_rule flattened (path ++ "/" ++ RuleName flattened)%string (priorityBase + RulePriority flattened)
          (setEnabled && RuleEnabled flattened)) rules
      ++ mjoin (sort_by (fun x y : PolicySet * list Rule => set_less x.1 y.1)
           (map (fun child => (child, flattenPolicySet child path setEnabled priorityBase)) children)).*2
  end.

Definition number_rules (rules : list Rule) : list Rule := imap (fun i r => with_rule_id r (Z.of_nat i + 1)) rules.

Definition FlattenPolicySet (set : PolicySet) (maxDepth : Z) : result set_error (list Rule) :=
  let set := NormalizePolicySet set in
  _ ← ValidatePolicySet set maxDepth;
  Ok (number_rules (sort_by rule_less (flattenPolicySet set "" (boolPtrValue (PSEnabled set)) (PSPriority set)))).

(** Rules, child sets and depth. *)
Fixpoint countPolicySet (set : PolicySet) (depth : Z) : Z * Z * Z :=
  match set with
  | mkPolicySet _ _ _ _ _ _ _ rules children =>
      foldl (fun '(r, c, d) '(r', c', d') => (r + r', c + c', if d' >? d then d' else d))
        (zlen rules, zlen children, depth) (map (fun child => countPolicySet child (depth + 1)) children)
  end.

Section digests.
Context {D : PolicyDigest}.

(** [PolicySetHash] of typed.go: the digest of the normalised rules in priority order. *)
Definition PolicySetHash (rules : list Rule) : string := rules_digest (sort_by rule_less (NormalizeRule <$> rules)).
Definition PolicySetContentHash (set : PolicySet) : string := set_digest (NormalizePolicySet set).
Definition ruleHash (rule : Rule) : string := rule_digest (NormalizeRule rule).

Definition SummarizePolicySet (set : PolicySet) (maxDepth : Z) : result set_error PolicySetSummary :=
  let set := NormalizePolicySet set in
  _ ← ValidatePolicySet set maxDepth;
  rules ← FlattenPolicySet set maxDepth;
  let '(ruleCount, childCount, depth) := countPolicySet set 1 in
  Ok (mkPolicySetSummary (PSKey set) (PSName set) (PSTenant set) ruleCount childCount depth
        (PolicySetContentHash set) (PolicySetHash rules)).

Definition rules_by_name (rules : list Rule) : gmap string Rule := foldl (fun m r => <[RuleName r := r]> m) ∅ rules.
Definition by_rule_name (rules : list Rule) : list Rule := sort_by (fun x y => string_less (RuleName x) (RuleName y)) rules.

Definition ComparePolicySets (from to : PolicySet) (maxDepth : Z) : result set_error PolicySetDiff :=
  fromRules ← FlattenPolicySet from maxDepth;
  toRules ← FlattenPolicySet to maxDepth;
  let fromByName := rules_by_name fromRules in
  let toByName := rules_by_name toRules in
  let added := omap (fun '(name, r) => match fromByName !! name with None => Some r | Some _ => None end) (range_map toByName) in
  let changed := omap (fun '(name, r) => match fromByName !! name with
                         | Some r0 => if negb (ruleHash r0 =? ruleHash r)%string then Some (name, r0, r) else None
                         | None => None end) (range_map toByName) in
  let removed := omap (fun '(name, r) => match toByName !! name with None => Some r | Some _ => None end) (range_map fromByName) in
  Ok (mkPolicySetDiff (PolicySetHash fromRules) (PolicySetHash toRules) (by_rule_name added) (by_rule_name removed)
        (sort_by (fun x y => string_less x.1.1 y.1.1) changed)).
End digests.
End policy_sets.

(** ** Slash-separated names *)

Definition no_slash : ascii -> bool := fun c => negb (c =? "/")%char.

Lemma app_slash_inj a b x y :
  all_chars no_slash a = true -> all_chars no_slash b = true ->
  (a ++ "/" ++ x = b ++ "/" ++ y)%string -> a = b /\ x = y.
Proof.
  revert b. induction a as [|c a IH]; intros [|d b] Ha Hb H.
  - split; [done|]. by injection H as H.
  - injection H as <- _. discriminate Hb.
  - injection H as -> _. discriminate Ha.
  - cbn [all_chars] in *. apply andb_true_iff in Ha as [_ Ha], Hb as [_ Hb].
    injection H as -> H. by destruct (IH b Ha Hb H) as [-> ->].
Qed.

Lemma no_slash_not_app a b x : all_chars no_slash a = true -> a <> (b ++ "/" ++ x)%string.
Proof.
  intros Ha ->. revert Ha. induction b as [|c b IH]; [discriminate|].
  change (no_slash c && all_chars no_slash (b ++ "/" ++ x)%string = true -> False). intros [_ ?]%andb_true_iff. by apply IH.
Qed.

Lemma append_inj a x y : (a ++ x = a ++ y)%string -> x = y.
Proof. induction a as [|c a IH]; [done|]. intros H. injection H as H. by apply IH. Qed.

Lemma token_no_slash k : validPolicyToken k = true -> TrimSpace k = k -> all_chars no_slash k = true /\ k <> "".
Proof.
  unfold validPolicyToken. intros H Ht. rewrite Ht in H. destruct (_ || _) eqn:E; [discriminate|]. bool_arith. split; [|done].
  destruct k as [|c k]; [done|]. cbn [first_then all_chars] in *. apply andb_true_iff in H as [Hk1 Hk2]. apply andb_true_iff. split.
  - assert (forall c, implb (lower_letter c || upper_letter c) (no_slash c) = true) as Hc by (apply all_ascii_dec; by vm_compute).
    specialize (Hc c). by rewrite Hk1 in Hc.
  - revert Hk2. apply all_chars_impl. intros d Hd.
    assert (forall c, implb (lower_letter c || upper_letter c || digit c || one_of "-_." c) (no_slash c) = true) as Hc
      by (apply all_ascii_dec; by vm_compute).
    specialize (Hc d). by rewrite Hd in Hc.
Qed.

Lemma rule_name_no_slash n : validPolicyRuleName n = true -> TrimSpace n = n -> all_chars no_slash n = true.
Proof.
  unfold validPolicyRuleName. intros H Ht. rewrite Ht in H. destruct (_ || _) eqn:E; [discriminate|].
  revert H. apply all_chars_impl. intros d Hd.
  assert (forall c, implb (lower_letter c || upper_letter c || digit c || one_of "-_. " c) (no_slash c) = true) as Hc
    by (apply all_ascii_dec; by vm_compute).
  specialize (Hc d). by rewrite Hd in Hc.
Qed.

(** ** What a flattened rule is made of *)

(** [placed_in set p r]: [r] is a rule of the last set of the path [p] that leads down from [set]. *)
Inductive placed_in : PolicySet -> list PolicySet -> Rule -> Prop :=
| placed_here s r : r ∈ PSRules s -> placed_in s [s] r
| placed_below s c p r : c ∈ PSChildren s -> placed_in c p r -> placed_in s (s :: p) r.

Definition path_name (p : list PolicySet) (name : string) : string :=
  foldr (fun s acc => (PSKey s ++ "/" ++ acc)%string) name p.
Definition path_priority (p : list PolicySet) : Z := foldr (fun s acc => PSPriority s + acc) 0 p.
Definition path_enabled (p : list PolicySet) : bool := forallb (fun s => boolPtrValue (PSEnabled s)) p.

Lemma policy_set_ind (P : PolicySet -> Prop) :
  (forall v k n d t p e rules children, Forall P children -> P (mkPolicySet v k n d t p e rules children)) ->
  forall s, P s.
Proof.
  intros H. fix IH 1. intros [v k n d t p e rules children]. apply H.
  induction children as [|c l IHl]; constructor; [apply IH | apply IHl].
Qed.

Section flatten.
Context {N : Numbers} `{UnicodeLaws} {R : MapRange} {J : Json} {RE : Regexp} {IA : IPAddr}.

Lemma elem_of_mjoin_sorted {A B} (less : A * list B -> A * list B -> bool) (f : A -> list B) (l : list A) b :
  b ∈ mjoin (sort_by less (map (fun x => (x, f x)) l)).*2 <-> exists x, x ∈ l /\ b ∈ f x.
Proof.
  rewrite sort_by_perm, list_elem_of_join. split.
  - intros (bs & Hb & Hin). apply list_elem_of_fmap in Hin as ([x bs'] & -> & Hin).
    apply list_elem_of_In, in_map_iff in Hin as (y & [= <- <-] & Hy). exists y. by split; [apply list_elem_of_In|].
  - intros (x & Hx & Hb). exists (f x). split; [done|]. apply list_elem_of_fmap. exists (x, f x). split; [done|].
    apply list_elem_of_In, in_map_iff. exists x. by split; [|apply list_elem_of_In].
Qed.

Definition flat_rule (prefix : string) (base : Z) (en : bool) (p : list PolicySet) (r : Rule) : Rule :=
  placed_rule (NormalizeRule r) (prefix ++ path_name p (RuleName (NormalizeRule r)))%string
    (base + path_priority p + RulePriority (NormalizeRule r)) (en && path_enabled p && RuleEnabled (NormalizeRule r)).

Lemma flatten_below s pp en inh r :
  pp <> "" ->
  r ∈ flattenPolicySet s pp en inh <-> exists p rule, placed_in s p rule /\ r = flat_rule (pp ++ "/") inh en p rule.
Proof.
  revert pp en inh r. induction s as [v k n d t prio e rules children IH] using policy_set_ind. intros pp en inh r Hpp.
  cbn [flattenPolicySet]. rewrite (proj2 (String.eqb_neq pp "")) by done.
  rewrite elem_of_app, elem_of_mjoin_sorted.
  assert (forall x : string, ((pp ++ "/") ++ k ++ "/" ++ x)%string = ((pp ++ "/" ++ k) ++ "/" ++ x)%string) as Hassoc.
  { intros x. by rewrite !app_assoc_str. }
  split.
  - intros [Hr|(c & Hc & Hr)].
    + apply list_elem_of_In, in_map_iff in Hr as (rule & <- & Hr). exists [mkPolicySet v k n d t prio e rules children], rule.
      split; [constructor; by apply list_elem_of_In|]. unfold flat_rule.
      cbn [path_name path_priority path_enabled foldr forallb PSKey PSPriority PSEnabled].
      rewrite Hassoc, Z.add_0_r, andb_true_r. done.
    + rewrite Forall_forall in IH. apply (IH c Hc) in Hr as (p & rule & Hp & ->); [|by destruct pp].
      eexists (_ :: p), rule. split; [by eapply placed_below|]. unfold flat_rule.
      cbn [path_name path_priority path_enabled foldr forallb PSKey PSPriority PSEnabled].
      rewrite Hassoc, !app_assoc_str, andb_assoc, !Z.add_assoc. done.
  - intros (p & rule & Hp & ->). inversion Hp as [s' r' Hr Hs Hp'|s' c p' r' Hc Hpc Hs Hp']; subst.
    + left. apply list_elem_of_In, in_map_iff. exists rule. split; [|by apply list_elem_of_In]. unfold flat_rule.
      cbn [path_name path_priority path_enabled foldr forallb PSKey PSPriority PSEnabled].
      rewrite Hassoc, Z.add_0_r, andb_true_r. done.
    + right. exists c. split; [done|]. rewrite Forall_forall in IH. apply IH; [done | by destruct pp |].
      exists p', rule. split; [done|]. unfold flat_rule.
      cbn [path_name path_priority path_enabled foldr forallb PSKey PSPriority PSEnabled].
      rewrite Hassoc, !app_assoc_str, andb_assoc, !Z.add_assoc. done.
Qed.

Lemma flatten_root s r :
  PSKey s <> "" ->
  r ∈ flattenPolicySet s "" (boolPtrValue (PSEnabled s)) (PSPriority s) <->
  exists p rule, placed_in s p rule /\ r = flat_rule "" 0 true p rule.
Proof.
  destruct s as [v k n d t prio e rules children]. cbn [PSKey PSEnabled PSPriority]. intros Hk. cbn [flattenPolicySet].
  change (("" =? "")%string) with true. cbv iota. rewrite elem_of_app, elem_of_mjoin_sorted, andb_diag. split.
  - intros [Hr|(c & Hc & Hr)].
    + apply list_elem_of_In, in_map_iff in Hr as (rule & <- & Hr). exists [mkPolicySet v k n d t prio e rules children], rule.
      split; [constructor; by apply list_elem_of_In|]. unfold flat_rule.
      cbn [path_name path_priority path_enabled foldr forallb PSKey PSPriority PSEnabled].
      rewrite Z.add_0_l, Z.add_0_r, andb_true_r. done.
    + apply (flatten_below c k) in Hr as (p & rule & Hp & ->); [|done].
      eexists (_ :: p), rule. split; [by eapply placed_below|]. unfold flat_rule.
      cbn [path_name path_priority path_enabled foldr forallb PSKey PSPriority PSEnabled].
      rewrite app_assoc_str, Z.add_0_l, andb_true_l. done.
  - intros (p & rule & Hp & ->). inversion Hp as [s' r' Hr Hs Hp'|s' c p' r' Hc Hpc Hs Hp']; subst.
    + left. apply list_elem_of_In, in_map_iff. exists rule. split; [|by apply list_elem_of_In]. unfold flat_rule.
      cbn [path_name path_priority path_enabled foldr forallb PSKey PSPriority PSEnabled].
      rewrite Z.add_0_l, Z.add_0_r, andb_true_r. done.
    + right. exists c. split; [done|]. apply (flatten_below c k); [done|].
      exists p', rule. split; [done|]. unfold flat_rule.
      cbn [path_name path_priority path_enabled foldr forallb PSKey PSPriority PSEnabled].
      rewrite app_assoc_str, Z.add_0_l, andb_true_l. done.
Qed.
End flatten.

(** ** Flattened names are unique *)

(** Keys and rule names without slashes, no name twice in a set, no key twice among siblings. *)
Inductive named_apart : PolicySet -> Prop :=
| named_apart_intro v k n d t p e rules children :
    k <> "" -> all_chars no_slash k = true ->
    Forall (fun r => all_chars no_slash (RuleName r) = true /\ TrimSpace (RuleName r) = RuleName r) rules ->
    NoDup (RuleName <$> rules) -> NoDup (PSKey <$> children) -> Forall named_apart children ->
    named_apart (mkPolicySet v k n d t p e rules children).

Lemma named_apart_key s : named_apart s -> all_chars no_slash (PSKey s) = true.
Proof. by destruct 1. Qed.

Section validated.
Context {N : Numbers} `{UnicodeLaws} {R : MapRange} {J : Json} {RE : Regexp} {IA : IPAddr}.

Lemma validate_rules_names path i names rules :
  validate_rules path i names rules = Ok tt ->
  Forall (fun r => validPolicyRuleName (RuleName r) = true /\ (ToLower (RuleName r) ∉ names)) rules /\ NoDup (RuleName <$> rules).
Proof.
  revert i names. induction rules as [|r rules IH]; intros i names; cbn [validate_rules]; [by repeat constructor|].
  destruct (validPolicyRuleName _) eqn:Ev; [|discriminate]. cbn [negb]. case_bool_decide as Hin; [discriminate|].
  destruct (ValidateRule r); [|discriminate]. intros [HF Hnd]%IH. split.
  - constructor; [done|]. eapply Forall_impl; [exact HF|]. cbn. intros r' [? Hn]. split; [done|].
    intros Hr. apply Hn. apply elem_of_union. by right.
  - rewrite fmap_cons. apply NoDup_cons. split; [|done]. intros (r' & Hr' & Hin')%list_elem_of_fmap.
    rewrite Forall_forall in HF. destruct (HF r' Hin') as [_ Hn]. apply Hn. rewrite <- Hr'.
    apply elem_of_union. left. by apply elem_of_singleton.
Qed.

Lemma validate_sets_keys f path i keys children seen seen' :
  validate_sets f path i keys children seen = Ok seen' ->
  Forall (fun c => (lower_trim (PSKey c) ∉ keys) /\ exists p s s', f c p s = Ok s') children /\ NoDup (PSKey <$> children).
Proof.
  revert i keys seen. induction children as [|c children IH]; intros i keys seen; cbn [validate_sets]; [by repeat constructor|].
  case_bool_decide as Hin; [discriminate|]. intros (s1 & Hs1 & [HF Hnd]%IH)%bind_Ok. split.
  - constructor; [eauto|]. eapply Forall_impl; [exact HF|]. cbn. intros c' [Hc He]. split; [|done].
    intros Hr. apply Hc. apply elem_of_union. by right.
  - rewrite fmap_cons. apply NoDup_cons. split; [|done]. intros (c' & Hc' & Hin')%list_elem_of_fmap.
    rewrite Forall_forall in HF. destruct (HF c' Hin') as [Hn _]. apply Hn. rewrite <- Hc'.
    apply elem_of_union. left. by apply elem_of_singleton.
Qed.

Lemma defaultPolicySetKey_trimmed k : TrimSpace (defaultPolicySetKey k) = defaultPolicySetKey k.
Proof. unfold defaultPolicySetKey. cbv zeta. split_if; [done | apply TrimSpace_lower_trim]. Qed.

Lemma validatePolicySet_named_apart set path depth maxDepth seen seen' :
  validatePolicySet (NormalizePolicySet set) path depth maxDepth seen = Ok seen' -> named_apart (NormalizePolicySet set).
Proof.
  revert path depth seen seen'. induction set as [v k n d t p e rules children IH] using policy_set_ind.
  intros path depth seen seen'. cbn [NormalizePolicySet validatePolicySet].
  destruct (depth >? maxDepth); [discriminate|]. destruct (validPolicyToken _) eqn:Ek; [|discriminate]. cbn [negb].
  destruct (_ =? _)%string; [discriminate|]. cbv zeta. case_bool_decide; [discriminate|].
  intros ([] & [Hr Hrn]%validate_rules_names & [Hc Hcn]%validate_sets_keys)%bind_Ok.
  destruct (token_no_slash _ Ek (defaultPolicySetKey_trimmed k)) as [Hk1 Hk2].
  constructor; try done.
  - apply Forall_forall. intros r Hin. rewrite Forall_forall in Hr. destruct (Hr r Hin) as [Hv _].
    apply list_elem_of_fmap in Hin as (r0 & -> & _). cbn [RuleName NormalizeRule] in *. rewrite TrimSpace_idem.
    split; [|done]. apply rule_name_no_slash; [done|apply TrimSpace_idem].
  - apply Forall_forall. intros c Hin. rewrite Forall_forall in Hc. destruct (Hc c Hin) as (_ & p' & s & s' & Hval).
    apply list_elem_of_In, in_map_iff in Hin as (c0 & <- & Hin). rewrite Forall_forall in IH.
    eapply IH; [by apply list_elem_of_In | exact Hval].
Qed.

Lemma flatten_names_prefixed s pp en inh r :
  pp <> "" -> r ∈ flattenPolicySet s pp en inh -> exists x, RuleName r = ((pp ++ "/" ++ PSKey s) ++ "/" ++ x)%string.
Proof.
  intros Hpp (p & rule & Hp & ->)%flatten_below; [|done]. destruct Hp as [s rule Hr|s c p rule Hc Hp]; unfold flat_rule;
    cbn [RuleName placed_rule path_name foldr]; eexists; by rewrite !app_assoc_str.
Qed.

Lemma flatten_NoDup s pp en inh : named_apart s -> NoDup (RuleName <$> flattenPolicySet s pp en inh).
Proof.
  revert pp en inh. induction s as [v k n d t prio e rules children IH] using policy_set_ind. intros pp en inh Hn.
  inversion Hn as [? ? ? ? ? ? ? ? ? Hk Hks Hrs Hrn Hcn Hcs]; subst. cbn [flattenPolicySet].
  set (path := if (pp =? "")%string then k else _). set (se := en && _). set (base := if (pp =? "")%string then inh else _).
  assert (path <> "") as Hpath by (subst path; split_if; [done|]; by destruct pp).
  clearbody path se base. rewrite fmap_app. apply NoDup_app. split_and!.
  - change (map ?f rules) with (f <$> rules). rewrite <- list_fmap_compose.
    clear -Hrs Hrn. induction rules as [|r rules IH]; [constructor|]. rewrite fmap_cons in *.
    apply NoDup_cons in Hrn as [Hr Hrn]. apply Forall_cons in Hrs as [[_ Ht] Hrs]. apply NoDup_cons. split; [|by apply IH].
    intros (r' & Heq & Hin)%list_elem_of_fmap. apply Hr. apply list_elem_of_fmap. exists r'. split; [|done].
    rewrite Forall_forall in Hrs. destruct (Hrs r' Hin) as [_ Ht']. cbn [compose RuleName placed_rule NormalizeRule] in Heq.
    rewrite Ht, Ht' in Heq. apply append_inj, append_inj in Heq. done.
  - intros x Hx1 Hx2. apply list_elem_of_fmap in Hx1 as (r1 & -> & Hr1), Hx2 as (r2 & Heq & Hr2).
    apply list_elem_of_In, in_map_iff in Hr1 as (r & <- & Hr). apply list_elem_of_In in Hr.
    apply elem_of_mjoin_sorted in Hr2 as (c & Hc & (y & Hy)%flatten_names_prefixed); [|done].
    rewrite Hy in Heq. cbn [RuleName placed_rule NormalizeRule] in Heq. rewrite !app_assoc_str in Heq.
    apply append_inj, append_inj in Heq. rewrite Forall_forall in Hrs. destruct (Hrs r Hr) as [Hs Ht]. rewrite Ht in Heq.
    by apply (no_slash_not_app _ (PSKey c) y Hs).
  - rewrite sort_by_perm. clear -IH Hcn Hcs Hpath H0. induction children as [|c children IHc]; [constructor|].
    cbn [map fmap list_fmap mjoin list_join snd]. rewrite fmap_app. rewrite fmap_cons in Hcn.
    apply NoDup_cons in Hcn as [Hc Hcn]. apply Forall_cons in IH as [IH1 IH], Hcs as [Hc1 Hcs].
    apply NoDup_app. split_and!; [by apply IH1 | | by apply IHc].
    intros x Hx1 Hx2. apply list_elem_of_fmap in Hx1 as (r1 & -> & Hr1), Hx2 as (r2 & Heq & Hr2).
    apply flatten_names_prefixed in Hr1 as (y1 & Hy1); [|done].
    apply list_elem_of_join in Hr2 as (bs & Hr2 & Hb). apply list_elem_of_fmap in Hb as ([c2 bs'] & -> & Hb).
    apply list_elem_of_In, in_map_iff in Hb as (c3 & [= <- <-] & Hc3). apply list_elem_of_In in Hc3.
    cbn [snd] in Hr2. apply flatten_names_prefixed in Hr2 as (y2 & Hy2); [|done].
    rewrite Hy1, Hy2, !app_assoc_str in Heq. apply append_inj, append_inj in Heq.
    rewrite Forall_forall in Hcs. apply app_slash_inj in Heq as [Hkk _]; [|by apply named_apart_key.. | apply named_apart_key; by apply Hcs].
    apply Hc. rewrite Hkk. by apply list_elem_of_fmap_2.
Qed.
End validated.

#[export] Instance rule_less_order : WeakOrder rule_less.
Proof.
  apply (lex_order (fun x y => RulePriority x =? RulePriority y) (fun x y => RulePriority x >? RulePriority y)).
  - exact (Zgtb_key RulePriority).
  - exact (string_less_key RuleName).
  - intros x y. rewrite Z.eqb_eq, !Z.gtb_ltb, !Z.ltb_ge. lia.
Qed.

Lemma rule_less_total x y : rule_less x y = false -> rule_less y x = false -> RuleName x = RuleName y.
Proof.
  unfold rule_less. destruct (Z.eqb_spec (RulePriority x) (RulePriority y)) as [E|E].
  - rewrite E, Z.eqb_refl. apply string_less_total.
  - rewrite (proj2 (Z.eqb_neq _ _)) by congruence. intros. bool_arith. lia.
Qed.

Section flatten_theorems.
Context {N : Numbers} `{UnicodeLaws} {R : MapRange} {J : Json} {RE : Regexp} {IA : IPAddr}.

Lemma FlattenPolicySet_inv set maxDepth rules :
  FlattenPolicySet set maxDepth = Ok rules ->
  named_apart (NormalizePolicySet set) /\ exists sorted,
    rules = number_rules sorted /\ StronglySorted (in_order rule_less) sorted /\ NoDup (RuleName <$> sorted) /\
    forall r, r ∈ sorted <-> exists p rule, placed_in (NormalizePolicySet set) p rule /\ r = flat_rule "" 0 true p rule.
Proof.
  unfold FlattenPolicySet, ValidatePolicySet. cbv zeta.
  intros (u & (s' & Hv & _)%bind_Ok & [= <-])%bind_Ok. apply validatePolicySet_named_apart in Hv.
  split; [done|]. eexists. split; [done|]. split; [apply sort_by_sorted, _|]. rewrite sort_by_perm.
  split; [by apply flatten_NoDup|]. intros r. rewrite sort_by_perm. apply flatten_root. by destruct Hv.
Qed.

Lemma number_rules_lookup rules i : number_rules rules !! i = (fun r => with_rule_id r (Z.of_nat i + 1)) <$> rules !! i.
Proof. apply list_lookup_imap. Qed.
End flatten_theorems.

(** Flattening a valid policy set gives rules with pairwise different names, strictly sorted by
    descending priority and then name, numbered 1, 2, 3, ...: the evaluation order and the ids do not
    depend on how the tree was written down. *)
Theorem FlattenPolicySet_order {N : Numbers} `{UnicodeLaws} {R : MapRange} {J : Json} {RE : Regexp} {IA : IPAddr}
    (set : PolicySet) (maxDepth : Z) (rules : list Rule) :
  FlattenPolicySet set maxDepth = Ok rules ->
  NoDup (RuleName <$> rules) /\
  (forall i j x y, (i < j)%nat -> rules !! i = Some x -> rules !! j = Some y -> rule_less x y = true) /\
  (forall i x, rules !! i = Some x -> RuleID x = Z.of_nat i + 1).
Proof.
  intros (_ & sorted & -> & Hs & Hnd & _)%FlattenPolicySet_inv.
  assert (RuleName <$> number_rules sorted = RuleName <$> sorted) as Hnames.
  { apply list_eq. intros i. rewrite !list_lookup_fmap, number_rules_lookup. by destruct (sorted !! i). }
  split_and!.
  - by rewrite Hnames.
  - intros i j x y Hij Hi Hj. rewrite number_rules_lookup in Hi, Hj.
    destruct (sorted !! i) as [x'|] eqn:Ei; [|discriminate]. destruct (sorted !! j) as [y'|] eqn:Ej; [|discriminate].
    cbn in Hi, Hj. injection Hi as <-. injection Hj as <-. change (rule_less x' y' = true).
    destruct (rule_less x' y') eqn:El; [done|]. exfalso.
    assert (in_order rule_less x' y') as Hxy.
    { clear -Hs Hij Ei Ej. revert i j Hij Ei Ej. induction Hs as [|a l Hs IH HF]; intros i j Hij Ei Ej; [done|].
      destruct j as [|j]; [lia|]. destruct i as [|i].
      - injection Ei as ->. cbn in Ej. apply (Forall_lookup_1 _ _ _ _ HF Ej).
      - cbn in Ei, Ej. apply (IH i j); [lia|done..]. }
    assert (RuleName x' = RuleName y') as Hn by by apply rule_less_total.
    assert (i = j); [|lia]. apply (NoDup_lookup (RuleName <$> sorted) i j (RuleName x') Hnd);
      rewrite list_lookup_fmap; [by rewrite Ei | rewrite Ej; cbn; congruence].
  - intros i x Hi. rewrite number_rules_lookup in Hi. destruct (sorted !! i); [|discriminate]. injection Hi as <-. done.
Qed.

(** A flattened rule is exactly a rule of some set of the tree: its name is the path of keys down to
    the set and the rule's name, its priority is the sum of the priorities along the path and its own,
    and it is enabled only if every set on the path and the rule itself are. *)
Theorem FlattenPolicySet_rules {N : Numbers} `{UnicodeLaws} {R : MapRange} {J : Json} {RE : Regexp} {IA : IPAddr}
    (set : PolicySet) (maxDepth : Z) (rules : list Rule) :
  FlattenPolicySet set maxDepth = Ok rules ->
  forall name priority enabled,
    (exists x, x ∈ rules /\ RuleName x = name /\ RulePriority x = priority /\ RuleEnabled x = enabled) <->
    (exists p rule, placed_in (NormalizePolicySet set) p rule /\
       name = path_name p (TrimSpace (RuleName rule)) /\ priority = path_priority p + RulePriority rule /\
       enabled = path_enabled p && RuleEnabled rule).
Proof.
  intros (_ & sorted & -> & _ & _ & Hin)%FlattenPolicySet_inv name priority enabled. split.
  - intros (x & (i & y & -> & Hy)%elem_of_lookup_imap & <- & <- & <-).
    apply list_elem_of_lookup_2 in Hy. apply Hin in Hy as (p & rule & Hp & ->). by exists p, rule.
  - intros (p & rule & Hp & -> & -> & ->).
    assert (flat_rule "" 0 true p rule ∈ sorted) as [i Hi]%list_elem_of_lookup by (apply Hin; by exists p, rule).
    exists (with_rule_id (flat_rule "" 0 true p rule) (Z.of_nat i + 1)). split; [|done].
    apply elem_of_lookup_imap. eauto.
Qed.

(** ** Witnesses *)

Definition example_rule (name : string) (priority : Z) (action : string) : Rule :=
  mkRule 0 name "" priority true "" action None None None None None None false [].

Definition example_guests : PolicySet :=
  mkPolicySet 0 "Guests" "Guests" "" "" 10 (Some false) [example_rule "open" 1 "Deny"] [].
Definition example_set : PolicySet :=
  mkPolicySet 0 "" "Root" "" "" 100 None [example_rule "staff " 5 "allow"] [example_guests].

Lemma FlattenPolicySet_order_witness :
  exists x y, FlattenPolicySet example_set 0 = Ok [x; y] /\ rule_less x y = true /\ RuleID y = 2.
Proof.
  do 2 eexists. assert (FlattenPolicySet example_set 0 = Ok [_; _]) as E by reflexivity.
  split; [exact E|]. destruct (FlattenPolicySet_order example_set 0 _ E) as (_ & Hs & Hid). split.
  - apply (Hs 0%nat 1%nat); [lia | reflexivity | reflexivity].
  - apply (Hid 1%nat). reflexivity.
Defined.

Lemma FlattenPolicySet_rules_witness :
  exists rules, FlattenPolicySet example_set 0 = Ok rules /\
    exists x, x ∈ rules /\ RuleName x = "default/guests/open" /\ RulePriority x = 111 /\ RuleEnabled x = false.
Proof.
  eexists. assert (FlattenPolicySet example_set 0 = Ok [_; _]) as E by reflexivity.
  split; [exact E|]. apply (proj2 (FlattenPolicySet_rules example_set 0 _ E "default/guests/open" 111 false)).
  exists ([NormalizePolicySet example_set; NormalizePolicySet example_guests]),
    (NormalizeRule (example_rule "open" 1 "Deny")).
  split; [|split_and!; vm_compute; reflexivity].
  apply (placed_below _ (NormalizePolicySet example_guests)).
  - apply list_elem_of_In. left. reflexivity.
  - apply placed_here. apply list_elem_of_In. left. reflexivity.
Defined.
