(* ===== verification/PolicyEngine.v ===== *)
(** * The policy engine ([internal/policy/engine.go])

    Evaluation of an ordered list of rules against a request: skipping, matching, merging, conflict
    notes and the explicit deny that stops the loop; and the choice of the rules, from the active policy
    set version of the tenant, the active default version, or the rule table. The wall clock, LDAP and
    the database are parameters. *)

From S2P Require Import Prelude GoStrings Bytes ServiceChain PolicyTypes PolicyTyped PolicySets.
From Stdlib Require Import Ascii.

Section engine.
Context {N : Numbers} {U : Unicode} {R : MapRange} {J : Json} {RE : Regexp} {IA : IPAddr}.
Context {CD : ChainDigest} {D : PolicyDigest}.

Definition normalizedAction (action : string) : string :=
  let action := lower_trim action in if (action =? "")%string then "allow" else action.

Definition ruleToDecision (rule : Rule) : Decision_ :=
  let action := normalizedAction (RuleAction rule) in
  {| DAllow := if (action =? "deny")%string then false else (action =? "allow")%string || (action =? "quarantine")%string;
     DQuarantine := RuleQuarantine rule || (action =? "quarantine")%string;
     DRole := None; DFilterID := None; DPolicyTag := None;
     DVLAN := RuleVLAN rule; DBandwidthProfile := RuleBandwidthProfile rule;
     DSessionTimeout := RuleSessionTimeout rule; DIdleTimeout := RuleIdleTimeout rule;
     DPortalProfile := RulePortalProfile rule; DACLPolicyName := RuleACLPolicyName rule;
     DDeviceGroup := None; DTenant := None;
     DServiceChain := NormalizeServiceChain (RuleServiceChain rule);
     DNotes := (if (action =? "deny")%string then ["explicit deny"] else [])
               ++ (if (action =? "quarantine")%string then ["quarantine action"] else []);
     DMatchedRule := RuleName rule |}.

Definition serviceChainConflicts (current next : list ServiceIntent) (ruleName : string) : list string :=
  if (zlen current =? 0) || (zlen next =? 0) then []
  else
    let byKey := foldl (fun m s => <[SKey s := ServiceChainHash [s]]> m) (∅ : gmap string string) (NormalizeServiceChain current) in
    omap (fun s => match byKey !! SKey s with
      | Some existing =>
          if negb (existing =? ServiceChainHash [s])%string
          then Some ("rule " ++ ruleName ++ " overrides service " ++ SKey s ++ " in subscriber service chain")%string else None
      | None => None end) (NormalizeServiceChain next).

(** One of the override checks: both decisions set the field, to different values. *)
Definition override_note {A} (same : A -> A -> bool) (text : A -> string) (what ruleName : string) (current next : option A) : list string :=
  match current, next with
  | Some c, Some n => if same c n then [] else [("rule " ++ ruleName ++ " overrides " ++ what ++ " " ++ text c ++ " with " ++ text n)%string]
  | _, _ => []
  end.

Definition decisionConflicts (current next : Decision_) (ruleName : string) : list string :=
  override_note Z.eqb Itoa "VLAN" ruleName (DVLAN current) (DVLAN next)
  ++ override_note EqualFold id "bandwidth profile" ruleName (DBandwidthProfile current) (DBandwidthProfile next)
  ++ override_note EqualFold id "ACL policy" ruleName (DACLPolicyName current) (DACLPolicyName next)
  ++ override_note EqualFold id "portal profile" ruleName (DPortalProfile current) (DPortalProfile next)
  ++ serviceChainConflicts (DServiceChain current) (DServiceChain next) ruleName.

Definition default_decision : Decision_ :=
  mkDecision false false None None None None None None None None None None None [] [] "".

Definition with_allow (d : Decision_) (allow : bool) : Decision_ :=
  mkDecision allow (DQuarantine d) (DRole d) (DFilterID d) (DPolicyTag d) (DVLAN d) (DBandwidthProfile d)
    (DSessionTimeout d) (DIdleTimeout d) (DPortalProfile d) (DACLPolicyName d) (DDeviceGroup d) (DTenant d)
    (DServiceChain d) (DNotes d) (DMatchedRule d).

Definition diagnostic (rule : Rule) (status : rule_status) : RuleDiagnostic :=
  mkRuleDiagnostic (RuleID rule) (RuleName rule) (RulePriority rule) status.

Definition rule_trace (rule : Rule) (trace : list TraceEntry) : list TraceEntry :=
  map (fun t => mkTraceEntry ("rule[" ++ RuleName rule ++ "]." ++ TrimPrefix (TPath t) "$")%string (TField t) (TOperator t)
                  (TExpected t) (TActual t) (TMatched t) (TMessage t)) trace.

(** The loop's variables: [final] and the lists and counters of [result]. *)
Record eval_state := mkEvalState {
  SFinal : Decision_; SMatched : list MatchedRule; SSkipped : list RuleDiagnostic; SConflicts : list string;
  STrace : list TraceEntry; SLegacy : Z; STyped : Z; SInvalid : Z }.

(** The loop of [EvaluateRules]; returning without a recursive call is [break]. *)
Fixpoint evaluate_rules (request : option Request) (wall : Z) (rules : list Rule) (st : eval_state) : eval_state :=
  match rules with
  | [] => st
  | rule :: rules' =>
      if negb (RuleEnabled rule) then
        evaluate_rules request wall rules'
          (mkEvalState (SFinal st) (SMatched st) (SSkipped st ++ [diagnostic rule StatusDisabled]) (SConflicts st) (STrace st)
             (SLegacy st) (STyped st) (SInvalid st))
      else match CompileMatchConditions (RuleMatchConditions rule) with
      | Err _ =>
          evaluate_rules request wall rules'
            (mkEvalState (SFinal st) (SMatched st) (SSkipped st ++ [diagnostic rule StatusInvalid]) (SConflicts st) (STrace st)
               (SLegacy st) (STyped st) (SInvalid st + 1))
      | Ok (expr, legacy) =>
          let '(matched, trace) := EvaluateTypedExpression expr request wall in
          let trace := STrace st ++ rule_trace rule trace in
          let legacyCount := if legacy then SLegacy st + 1 else SLegacy st in
          let typedCount := if legacy then STyped st else STyped st + 1 in
          if matched then
            let dec := ruleToDecision rule in
            let conflicts := SConflicts st ++ decisionConflicts (SFinal st) dec (RuleName rule) in
            let final := Merge (SFinal st) (Some dec) in
            let matchedRules := SMatched st ++ [mkMatchedRule (RuleID rule) (RuleName rule) (RulePriority rule)
                                                 (normalizedAction (RuleAction rule)) (DNotes dec)] in
            if (normalizedAction (RuleAction rule) =? "deny")%string
            then mkEvalState (with_allow final false) matchedRules (SSkipped st) conflicts trace legacyCount typedCount (SInvalid st)
            else evaluate_rules request wall rules'
                   (mkEvalState final matchedRules (SSkipped st) conflicts trace legacyCount typedCount (SInvalid st))
          else evaluate_rules request wall rules'
                 (mkEvalState (SFinal st) (SMatched st) (SSkipped st) (SConflicts st) trace legacyCount typedCount (SInvalid st))
      end
  end.

Definition initial_state : eval_state := mkEvalState default_decision [] [] [] [] 0 0 0.

(** [RequestHash] of typed.go hashes four fields of the request before the whole of it. *)
Definition hashOpaque (text : string) : string :=
  let text := TrimSpace (ToLower text) in if (text =? "")%string then "" else ("sha256:" ++ text_digest text)%string.

Definition safe_request (q : Request) : Request :=
  mkRequest (hashOpaque (ReqUsername q)) (ReqRole q) (ReqGroups q) (ReqRealm q) (ReqTenant q) (ReqDeviceGroup q)
    (ReqAuthMethod q) (ReqIdentitySource q) (ReqSSID q) (ReqNASIdentifier q) (ReqNASIPAddress q)
    (hashOpaque (ReqNASPortID q)) (ReqNASPortType q) (hashOpaque (ReqCalledStationID q))
    (hashOpaque (ReqCallingStationID q)) (ReqSite q) (ReqSourceIP q) (ReqVendor q) (ReqVLAN q) (ReqAuthenticated q)
    (ReqTimeOfDay q) (ReqPosture q) (ReqRiskScore q) (ReqAttributes q) (ReqEvaluatedAt q).

Definition RequestHash (request : option Request) : string :=
  match request with None => "" | Some q => request_digest (safe_request q) end.

(** [evaluation_id] is [NewEvaluationID] of both hashes and the time. *)
Definition EvaluateRules (evaluation_id : string -> string -> Z -> string) (request : option Request) (rules : list Rule)
    (wall : Z) : EvaluationResult :=
  let evaluatedAt := match request with Some req => default wall (ReqEvaluatedAt req) | None => wall end in
  let policySetHash := PolicySetHash rules in
  let requestHash := RequestHash request in
  let st := evaluate_rules request wall rules initial_state in
  mkEvaluationResult (SFinal st) (SMatched st) (SSkipped st) (SConflicts st) (STrace st)
    (SLegacy st) (STyped st) (SInvalid st) policySetHash requestHash (evaluation_id policySetHash requestHash evaluatedAt).

(** ** Choosing the rules *)

(** What the engine reads: the configuration, LDAP, the active versions' contents and the rule table. *)
Record Environment := mkEnvironment {
  LDAPGroups : option (string -> option (list string));     (** [None]: LDAP is not enabled *)
  MultiTenantEnabled : bool;
  MaxPolicySetDepth : Z;
  ActiveDefault : result string (option string);
  ActiveForTenant : string -> result string (option string);
  RuleTable : result string (list Rule);
  Decoder : PolicySetDecoder;
  EvaluationID : string -> string -> Z -> string }.

Inductive engine_error :=
| DatabaseError (message : string)
| VersionInvalid (e : set_error)
| FlattenFailed (e : set_error).

Definition lift_db {A} (r : result string A) : result engine_error A :=
  match r with Ok a => Ok a | Err m => Err (DatabaseError m) end.

(** Parse and flatten the content of an active version. *)
Definition rules_of_version (env : Environment) (content : string) : result engine_error (list Rule) :=
  match ParsePolicySet (PD := Decoder env) content with
  | Err e => Err (VersionInvalid e)
  | Ok set => match FlattenPolicySet set (MaxPolicySetDepth env) with Err e => Err (FlattenFailed e) | Ok rules => Ok rules end
  end.

Definition with_chain (rule : Rule) (chain : list ServiceIntent) : Rule :=
  mkRule (RuleID rule) (RuleName rule) (RuleDescription rule) (RulePriority rule) (RuleEnabled rule)
    (RuleMatchConditions rule) (RuleAction rule) (RuleVLAN rule) (RuleBandwidthProfile rule) (RuleSessionTimeout rule)
    (RuleIdleTimeout rule) (RulePortalProfile rule) (RuleACLPolicyName rule) (RuleQuarantine rule) chain.

(** The rows come in the order of [rule_less]; sorting them again by priority changes nothing. *)
Definition loadRulesForTenant (env : Environment) (tenant : string) : result engine_error (list Rule) :=
  if MultiTenantEnabled env && negb (TrimSpace tenant =? "")%string then
    active ← lift_db (ActiveForTenant env tenant);
    match active with None => Ok [] | Some content => rules_of_version env content end
  else
    active ← lift_db (ActiveDefault env);
    match active with
    | Some content => rules_of_version env content
    | None => rules ← lift_db (RuleTable env);
              Ok ((fun r => with_chain r (NormalizeServiceChain (RuleServiceChain r))) <$> sort_by rule_less rules)
    end.

Definition EnrichRequest (env : Environment) (q : Request) : Request :=
  match LDAPGroups env with
  | None => q
  | Some lookup =>
      if (zlen (ReqGroups q) >? 0) || (ReqUsername q =? "")%string then q
      else match lookup (ReqUsername q) with
           | None => q       (* a warning is logged and the evaluation goes on *)
           | Some groups =>
               mkRequest (ReqUsername q) (ReqRole q) groups (ReqRealm q) (ReqTenant q) (ReqDeviceGroup q)
                 (ReqAuthMethod q) (ReqIdentitySource q) (ReqSSID q) (ReqNASIdentifier q) (ReqNASIPAddress q)
                 (ReqNASPortID q) (ReqNASPortType q) (ReqCalledStationID q) (ReqCallingStationID q) (ReqSite q)
                 (ReqSourceIP q) (ReqVendor q) (ReqVLAN q) (ReqAuthenticated q) (ReqTimeOfDay q) (ReqPosture q)
                 (ReqRiskScore q) (ReqAttributes q) (ReqEvaluatedAt q)
           end
  end.

Definition EvaluateDetailed (env : Environment) (q : Request) (wall : Z) : result engine_error EvaluationResult :=
  let q := EnrichRequest env q in
  rules ← loadRulesForTenant env (ReqTenant q);
  Ok (EvaluateRules (EvaluationID env) (Some q) rules wall).

Definition Evaluate (env : Environment) (q : Request) (wall : Z) : result engine_error Decision_ :=
  EDecision <$> EvaluateDetailed env q wall.
End engine.

(** The induction hypothesis at the state of the goal. *)
Ltac use_state IH := match goal with |- SFinal (evaluate_rules _ _ _ ?s) = _ /\ _ => exact (IH s) end.

(** ** Specification

    The rules that count are the enabled, valid, matching ones up to the first explicit deny; the
    decision merges them in order, and is a refusal when a deny is among them. *)

Section specification.
Context {N : Numbers} {U : Unicode} {R : MapRange} {J : Json} {RE : Regexp} {IA : IPAddr}.
Context (request : option Request) (wall : Z).

Definition applies (rule : Rule) : bool :=
  RuleEnabled rule &&
  match CompileMatchConditions (RuleMatchConditions rule) with
  | Ok (expr, _) => (EvaluateTypedExpression expr request wall).1
  | Err _ => false
  end.
Definition denies (rule : Rule) : bool := (normalizedAction (RuleAction rule) =? "deny")%string.
Definition grants (rule : Rule) : bool :=
  (normalizedAction (RuleAction rule) =? "allow")%string || (normalizedAction (RuleAction rule) =? "quarantine")%string.

Fixpoint applied (rules : list Rule) : list Rule :=
  match rules with
  | [] => []
  | rule :: rules' => if applies rule then if denies rule then [rule] else rule :: applied rules' else applied rules'
  end.

Definition merge_all (d : Decision_) (rules : list Rule) : Decision_ :=
  foldl (fun d rule => Merge d (Some (ruleToDecision rule))) d rules.

Definition decide_rules (d : Decision_) (rules : list Rule) : Decision_ :=
  let d := merge_all d rules in if existsb denies rules then with_allow d false else d.

Lemma evaluate_rules_spec {CD : ChainDigest} rules st :
  let r := evaluate_rules request wall rules st in
  SFinal r = decide_rules (SFinal st) (applied rules) /\
  MName <$> SMatched r = (MName <$> SMatched st) ++ (RuleName <$> applied rules).
Proof.
  revert st. induction rules as [|rule rules IH]; intros st; cbv zeta in *.
  { cbn. by rewrite app_nil_r. }
  cbn [evaluate_rules applied]. unfold applies. destruct (RuleEnabled rule); cbn [negb andb]; [|use_state IH].
  destruct (CompileMatchConditions _) as [[expr legacy]|e]; [|use_state IH].
  destruct (EvaluateTypedExpression expr request wall) as [m t]. cbn [fst].
  destruct m; [|use_state IH]. destruct (denies rule) eqn:Ed; unfold denies in Ed; rewrite Ed.
  - cbn [SFinal SMatched]. unfold decide_rules, merge_all. cbn [existsb foldl]. unfold denies. rewrite Ed. cbn [orb].
    split; [done|]. rewrite fmap_app. done.
  - match goal with |- SFinal (evaluate_rules _ _ _ ?s) = _ /\ _ => destruct (IH s) as [-> ->] end. cbn [SFinal SMatched].
    unfold decide_rules, merge_all. cbn [existsb foldl]. unfold denies at 2. rewrite Ed. cbn [orb]. split; [done|].
    rewrite fmap_app, <- app_assoc. done.
Qed.

Lemma elem_of_applied rule rules : rule ∈ applied rules -> rule ∈ rules /\ applies rule = true.
Proof.
  induction rules as [|r rules IH]; cbn [applied]; [by intros ?%elem_of_nil|].
  destruct (applies r) eqn:Ea; [destruct (denies r)|].
  - intros ->%list_elem_of_singleton. split; [by left|done].
  - intros [->|Hr]%elem_of_cons; [split; [by left|done]|]. apply IH in Hr as [? ?]. split; [by right|done].
  - intros Hr. apply IH in Hr as [? ?]. split; [by right|done].
Qed.

Lemma applied_deny rules : existsb denies (applied rules) = existsb (fun r => applies r && denies r) rules.
Proof.
  induction rules as [|r rules IH]; [done|]. cbn [applied existsb].
  destruct (applies r); [destruct (denies r) eqn:Ed|]; cbn [existsb]; rewrite ?Ed; try done.
Qed.

(** Without a deny every rule that applies is kept. *)
Lemma applied_all rules : existsb denies (applied rules) = false -> applied rules = List.filter applies rules.
Proof.
  induction rules as [|r rules IH]; [done|]. cbn [applied List.filter].
  destruct (applies r); [destruct (denies r) eqn:Ed|]; cbn [existsb]; rewrite ?Ed; cbn [orb]; [done| |by apply IH].
  intros Hd. by rewrite IH.
Qed.

Lemma merge_all_allow d rules : DAllow (merge_all d rules) = DAllow d || existsb (fun r => negb (denies r) && grants r) rules.
Proof.
  unfold merge_all. revert d. induction rules as [|r rules IH]; intros d; cbn [foldl existsb]; [by rewrite orb_false_r|].
  rewrite IH, orb_assoc. f_equal. unfold ruleToDecision, Merge, denies, grants. cbn [DAllow].
  destruct (_ =? "deny")%string; cbn [negb andb]; [by rewrite orb_false_r|].
  destruct (_ || _); by rewrite ?orb_true_r, ?orb_false_r.
Qed.

(** The value of the last rule that sets a field, or what was there before. *)
Definition last_set {A} (f : Rule -> option A) (rules : list Rule) (before : option A) : option A :=
  foldl (fun acc r => match f r with Some v => Some v | None => acc end) before rules.

Lemma last_set_app {A} (f : Rule -> option A) l1 r l2 v before :
  f r = Some v -> Forall (fun r => f r = None) l2 -> last_set f (l1 ++ r :: l2) before = Some v.
Proof.
  intros Hr Hl2. unfold last_set. rewrite foldl_app. cbn [foldl]. rewrite Hr.
  induction Hl2 as [|r' l2 Hr' Hl2 IH]; [done|]. cbn [foldl]. by rewrite Hr'.
Qed.

Lemma merge_all_fields d rules :
  DVLAN (merge_all d rules) = last_set RuleVLAN rules (DVLAN d) /\
  DBandwidthProfile (merge_all d rules) = last_set RuleBandwidthProfile rules (DBandwidthProfile d) /\
  DSessionTimeout (merge_all d rules) = last_set RuleSessionTimeout rules (DSessionTimeout d) /\
  DIdleTimeout (merge_all d rules) = last_set RuleIdleTimeout rules (DIdleTimeout d) /\
  DPortalProfile (merge_all d rules) = last_set RulePortalProfile rules (DPortalProfile d) /\
  DACLPolicyName (merge_all d rules) = last_set RuleACLPolicyName rules (DACLPolicyName d).
Proof.
  unfold merge_all, last_set. revert d. induction rules as [|r rules IH]; intros d; [done|]. cbn [foldl].
  destruct (IH (Merge d (Some (ruleToDecision r)))) as (-> & -> & -> & -> & -> & ->). done.
Qed.

Lemma merge_all_quarantine d rules :
  DQuarantine (merge_all d rules) =
  DQuarantine d || existsb (fun r => RuleQuarantine r || (normalizedAction (RuleAction r) =? "quarantine")%string) rules.
Proof.
  unfold merge_all. revert d. induction rules as [|r rules IH]; intros d; cbn [foldl existsb]; [by rewrite orb_false_r|].
  rewrite IH, orb_assoc. f_equal. unfold ruleToDecision, Merge. cbn [DQuarantine].
  destruct (_ || _); by rewrite ?orb_true_r, ?orb_false_r.
Qed.
End specification.

(** C1: Access is allowed exactly when some enabled, valid, matching rule allows or quarantines and no
    enabled, valid, matching rule denies, wherever the deny stands in the list; with no matching rule
    the answer is deny. *)
Theorem EvaluateRules_allow {N : Numbers} {U : Unicode} {R : MapRange} {J : Json} {RE : Regexp} {IA : IPAddr}
    {CD : ChainDigest} {D : PolicyDigest} id request rules wall :
  DAllow (EDecision (EvaluateRules id request rules wall)) = true <->
  (exists r, r ∈ rules /\ applies request wall r = true /\ grants r = true) /\
  (forall r, r ∈ rules -> applies request wall r = true -> denies r = false).
Proof.
  unfold EvaluateRules. cbn [EDecision]. destruct (evaluate_rules_spec request wall rules initial_state) as [-> _].
  cbn [SFinal initial_state]. unfold decide_rules. cbv zeta.
  assert (existsb denies (applied request wall rules) = true <-> exists r, r ∈ rules /\ applies request wall r = true /\ denies r = true) as Hd.
  { rewrite applied_deny. apply existsb_and. }
  destruct (existsb denies _) eqn:E.
  - split; [discriminate|]. intros [_ Hno]. apply proj1 in Hd. destruct (Hd eq_refl) as (r & Hr & Ha & Hdr).
    rewrite (Hno r Hr Ha) in Hdr. done.
  - assert (forall r, r ∈ rules -> applies request wall r = true -> denies r = false) as Hno.
    { intros r Hr Ha. destruct (denies r) eqn:Er; [|done]. enough (false = true) by done. apply Hd. eauto. }
    rewrite merge_all_allow, (applied_all _ _ _ E). cbn [default_decision DAllow orb]. rewrite existsb_and. split.
    + intros (r & [Hr Ha]%list_elem_of_In%filter_In & _ & Hg). split; [exists r; by split; [apply list_elem_of_In|]|done].
    + intros [(r & Hr & Ha & Hg) _]. exists r. rewrite (Hno r Hr Ha). split; [|done].
      apply list_elem_of_In, filter_In. by split; [apply list_elem_of_In|].
Qed.

(** An explicit deny ends the evaluation: rules behind a matching deny rule change neither the
    decision nor the matched rules, and the decision is a refusal. *)
Theorem deny_is_final {N : Numbers} {U : Unicode} {R : MapRange} {J : Json} {RE : Regexp} {IA : IPAddr}
    {CD : ChainDigest} {D : PolicyDigest} id request before rule after wall :
  applies request wall rule = true -> denies rule = true ->
  let result rules := EvaluateRules id request rules wall in
  EDecision (result (before ++ rule :: after)) = EDecision (result (before ++ [rule])) /\
  MName <$> EMatchedRules (result (before ++ rule :: after)) = MName <$> EMatchedRules (result (before ++ [rule])) /\
  DAllow (EDecision (result (before ++ rule :: after))) = false.
Proof.
  intros Ha Hd. cbv zeta. unfold EvaluateRules. cbn [EDecision EMatchedRules].
  assert (applied request wall (before ++ rule :: after) = applied request wall (before ++ [rule])) as Heq.
  { induction before as [|r before IH]; cbn [app applied]; [by rewrite Ha, Hd|]. by rewrite IH. }
  destruct (evaluate_rules_spec request wall (before ++ rule :: after) initial_state) as [-> ->].
  destruct (evaluate_rules_spec request wall (before ++ [rule]) initial_state) as [-> ->]. rewrite Heq.
  split_and!; [done..|]. unfold decide_rules. cbv zeta. rewrite applied_deny, existsb_app. cbn [existsb].
  by rewrite Ha, Hd, orb_true_r.
Qed.



(** ** Witnesses *)

#[local] Instance no_digest : PolicyDigest :=
  {| rules_digest := fun _ => ""; request_digest := fun _ => ""; set_digest := fun _ => ""; rule_digest := fun _ => ""; text_digest := fun s => s |}.
#[local] Instance no_chain_digest : ChainDigest := fun _ => "".

Lemma deny_is_final_witness :
  DAllow (EDecision (EvaluateRules (fun _ _ _ => "") None [example_rule "a" 9 "allow"; example_rule "d" 5 " Deny"; example_rule "z" 1 "allow"] 0)) = false.
Proof.
  refine (proj2 (proj2 (deny_is_final (fun _ _ _ => "") None [example_rule "a" 9 "allow"] (example_rule "d" 5 " Deny") [example_rule "z" 1 "allow"] 0 _ _)));
    vm_compute; reflexivity.
Defined.

Definition example_environment : Environment :=
  mkEnvironment None true 0 (Ok None) (fun _ => Ok None) (Ok [example_rule "a" 9 "allow"]) (fun _ => None) (fun _ _ _ => "").
Definition tenant_request : Request :=
  mkRequest "bob" "" [] "" "acme" "" "" "" "" "" "" "" "" "" "" "" "" "" 0 false "" "" 0 ∅ None.

