(* ===== verification/PolicyVersions.v ===== *)
(** * Policy set versions ([internal/db/policy_set_versions.go], [internal/adminapi/policy_sets.go])

    The life cycle of policy set versions: creation, submission, approval under maker-checker,
    rejection, activation and rollback, over the tables of versions, approvals, events and rules. Every
    operation is one database transaction: it returns the new tables or an error and no change. *)

From S2P Require Import Prelude GoStrings Bytes ServiceChain PolicyTypes PolicyTyped PolicySets.
From Stdlib Require Import Ascii.

Inductive version_status := Draft | PendingApproval | Approved | Active | Superseded | Rejected.
#[export] Instance version_status_eq_dec : EqDecision version_status.
Proof. solve_decision. Defined.

(** A row of [policy_set_versions]; [NULL] texts are empty, instants are in seconds. *)
Record PolicySetVersion := mkPolicySetVersion {
  PVID : Z; PVSetKey : string; PVTenant : string; PVVersion : Z; PVStatus : version_status; PVDescription : string;
  PVParentVersionID : Z; PVRollbackOfVersionID : Z; PVContentJSON : string; PVContentSHA256 : string; PVPolicySHA256 : string;
  PVRuleCount : Z; PVChildSetCount : Z; PVMaxDepth : Z; PVApprovalRequired : bool; PVMinApprovals : Z;
  PVCreatedBy : string; PVCreatedAt : Z; PVSubmittedBy : string; PVSubmittedAt : option Z; PVActivatedBy : string;
  PVActivatedAt : option Z; PVSupersededAt : option Z; PVRejectedBy : string; PVRejectedAt : option Z;
  PVRejectionReason : string; PVActivationNote : string }.

Record PolicySetApproval := mkPolicySetApproval { PAComment : string; PAApprovedAt : Z }.

Record PolicySetActivationEvent := mkPolicySetActivationEvent {
  PEVersionID : Z; PEPreviousVersionID : Z; PEEventType : string; PEStatus : version_status; PEActor : string; PESummary : string }.

Record CreatePolicySetVersionRequest := mkCreateRequest {
  CRSetKey : string; CRTenant : string; CRDescription : string; CRParentVersionID : Z; CRRollbackOfVersionID : Z;
  CRContentJSON : string; CRContentSHA256 : string; CRPolicySHA256 : string; CRRuleCount : Z; CRChildSetCount : Z;
  CRMaxDepth : Z; CRApprovalRequired : bool; CRMinApprovals : Z; CRCreatedBy : string; CRStatus : string }.

(** The tables. [policy_set_approvals] is keyed by version and approver; [LastID] is the sequence of the
    auto-increment column. *)
Record Tables := mkTables {
  Versions : gmap Z PolicySetVersion; LastID : Z; Approvals : gmap (Z * string) PolicySetApproval;
  Events : list PolicySetActivationEvent; PolicyRules : list Rule }.

Inductive version_error :=
| NoSuchVersion (id : Z)
| WrongStatus (id : Z) (status : version_status)
| InitialStatusInvalid (status : string)
| ContentInvalid
| ContentHashInvalid
| PolicyHashInvalid
| ConstraintViolated
| ActorRequired
| CreatorCannotApprove
| OutsideTenantScope
| ApprovalsMissing (have need : Z)
| SetInvalid (e : set_error).

(** [cfg.Policy] *)
Record VersionPolicy := mkVersionPolicy {
  VersionApprovalRequired : bool; VersionMinApprovals : Z; VersionMakerChecker : bool; MaxSetDepth : Z }.

(** Field updates. *)
Definition with_status (v : PolicySetVersion) (status : version_status) : PolicySetVersion :=
  mkPolicySetVersion (PVID v) (PVSetKey v) (PVTenant v) (PVVersion v) status (PVDescription v) (PVParentVersionID v)
    (PVRollbackOfVersionID v) (PVContentJSON v) (PVContentSHA256 v) (PVPolicySHA256 v) (PVRuleCount v) (PVChildSetCount v)
    (PVMaxDepth v) (PVApprovalRequired v) (PVMinApprovals v) (PVCreatedBy v) (PVCreatedAt v) (PVSubmittedBy v) (PVSubmittedAt v)
    (PVActivatedBy v) (PVActivatedAt v) (PVSupersededAt v) (PVRejectedBy v) (PVRejectedAt v) (PVRejectionReason v) (PVActivationNote v).
Definition with_submission (v : PolicySetVersion) (actor : string) (at_ : Z) : PolicySetVersion :=
  mkPolicySetVersion (PVID v) (PVSetKey v) (PVTenant v) (PVVersion v) (PVStatus v) (PVDescription v) (PVParentVersionID v)
    (PVRollbackOfVersionID v) (PVContentJSON v) (PVContentSHA256 v) (PVPolicySHA256 v) (PVRuleCount v) (PVChildSetCount v)
    (PVMaxDepth v) (PVApprovalRequired v) (PVMinApprovals v) (PVCreatedBy v) (PVCreatedAt v) actor (Some at_)
    (PVActivatedBy v) (PVActivatedAt v) (PVSupersededAt v) (PVRejectedBy v) (PVRejectedAt v) (PVRejectionReason v) (PVActivationNote v).
Definition with_rejection (v : PolicySetVersion) (actor reason : string) (at_ : Z) : PolicySetVersion :=
  mkPolicySetVersion (PVID v) (PVSetKey v) (PVTenant v) (PVVersion v) (PVStatus v) (PVDescription v) (PVParentVersionID v)
    (PVRollbackOfVersionID v) (PVContentJSON v) (PVContentSHA256 v) (PVPolicySHA256 v) (PVRuleCount v) (PVChildSetCount v)
    (PVMaxDepth v) (PVApprovalRequired v) (PVMinApprovals v) (PVCreatedBy v) (PVCreatedAt v) (PVSubmittedBy v) (PVSubmittedAt v)
    (PVActivatedBy v) (PVActivatedAt v) (PVSupersededAt v) actor (Some at_) reason (PVActivationNote v).
Definition with_activation (v : PolicySetVersion) (actor note : string) (at_ : Z) : PolicySetVersion :=
  mkPolicySetVersion (PVID v) (PVSetKey v) (PVTenant v) (PVVersion v) (PVStatus v) (PVDescription v) (PVParentVersionID v)
    (PVRollbackOfVersionID v) (PVContentJSON v) (PVContentSHA256 v) (PVPolicySHA256 v) (PVRuleCount v) (PVChildSetCount v)
    (PVMaxDepth v) (PVApprovalRequired v) (PVMinApprovals v) (PVCreatedBy v) (PVCreatedAt v) (PVSubmittedBy v) (PVSubmittedAt v)
    actor (Some at_) None (PVRejectedBy v) (PVRejectedAt v) (PVRejectionReason v) note.
Definition with_superseded (v : PolicySetVersion) (at_ : Z) : PolicySetVersion :=
  mkPolicySetVersion (PVID v) (PVSetKey v) (PVTenant v) (PVVersion v) (PVStatus v) (PVDescription v) (PVParentVersionID v)
    (PVRollbackOfVersionID v) (PVContentJSON v) (PVContentSHA256 v) (PVPolicySHA256 v) (PVRuleCount v) (PVChildSetCount v)
    (PVMaxDepth v) (PVApprovalRequired v) (PVMinApprovals v) (PVCreatedBy v) (PVCreatedAt v) (PVSubmittedBy v) (PVSubmittedAt v)
    (PVActivatedBy v) (PVActivatedAt v) (Some at_) (PVRejectedBy v) (PVRejectedAt v) (PVRejectionReason v) (PVActivationNote v).

(** [UPDATE policy_set_versions ... WHERE id = v.ID], and the insertions. *)
Definition put_version (t : Tables) (v : PolicySetVersion) : Tables :=
  mkTables (<[PVID v := v]> (Versions t)) (LastID t) (Approvals t) (Events t) (PolicyRules t).
Definition put_approval (t : Tables) (id : Z) (actor : string) (a : PolicySetApproval) : Tables :=
  mkTables (Versions t) (LastID t) (<[(id, actor) := a]> (Approvals t)) (Events t) (PolicyRules t).
Definition put_event (t : Tables) (e : PolicySetActivationEvent) : Tables :=
  mkTables (Versions t) (LastID t) (Approvals t) (Events t ++ [e]) (PolicyRules t).

Definition approvers (t : Tables) (id : Z) : list string :=
  omap (fun '(k, _) => if fst k =? id then Some (snd k) else None) (map_to_list (Approvals t)).
Definition policySetApprovalCount (t : Tables) (id : Z) : Z := zlen (approvers t id).

Section versions.
Context {N : Numbers} {U : Unicode} {R : MapRange} {J : Json} {RE : Regexp} {IA : IPAddr}.
Context {CD : ChainDigest} {D : PolicyDigest} {PD : PolicySetDecoder}.

(** [json.Valid], and [json.Marshal] of a policy set. *)
Context (json_valid : string -> bool) (encode_policy_set : PolicySet -> string).

Definition normalizePolicySetKey (value : string) : string :=
  let value := lower_trim value in if (value =? "")%string then "default" else value.

Definition NormalizeTenantKey (value : string) : string :=
  let value := lower_trim value in if (value =? "*")%string then "" else value.

Definition defaultPolicySetSummary (value fallback : string) : string :=
  let value := TrimSpace value in if (value =? "")%string then fallback else value.

Definition validatePolicyVersionMaterial (contentJSON contentSHA policySHA : string) : result version_error unit :=
  if (TrimSpace contentJSON =? "")%string || negb (json_valid contentJSON) then Err ContentInvalid
  else if negb (strlen (TrimSpace contentSHA) =? 64) then Err ContentHashInvalid
  else if negb (strlen (TrimSpace policySHA) =? 64) then Err PolicyHashInvalid
  else Ok tt.

(** The rows of one set and tenant. *)
Definition of_set (key tenant : string) (v : PolicySetVersion) : bool :=
  (PVSetKey v =? key)%string && (PVTenant v =? tenant)%string.
Definition rows_of (t : Tables) (key tenant : string) : list PolicySetVersion :=
  List.filter (of_set key tenant) (map_to_list (Versions t)).*2.

Definition getPolicySetVersionTx (t : Tables) (id : Z) : result version_error PolicySetVersion :=
  match Versions t !! id with Some v => Ok v | None => Err (NoSuchVersion id) end.

(** [... AND v.status = ? ORDER BY v.version DESC LIMIT 1] *)
Definition getPolicySetVersionByStatusTenant (t : Tables) (setKey tenant : string) (status : version_status) : option PolicySetVersion :=
  head (sort_by (fun x y => PVVersion x >? PVVersion y)
          (List.filter (fun v => bool_decide (PVStatus v = status)) (rows_of t (normalizePolicySetKey setKey) (NormalizeTenantKey tenant)))).

Definition initial_status (status : string) : result version_error version_status :=
  let status := lower_trim status in
  if (status =? "")%string || (status =? "draft")%string then Ok Draft
  else if (status =? "pending_approval")%string then Ok PendingApproval
  else if (status =? "approved")%string then Ok Approved
  else Err (InitialStatusInvalid status).

(** The [CHECK] constraints that the code's own checks do not imply. *)
Definition row_constraints (req : CreatePolicySetVersionRequest) : bool :=
  (CRRuleCount req >=? 0) && (CRChildSetCount req >=? 0) && (CRMaxDepth req >=? 1)
  && (strlen (CRContentSHA256 req) =? 64) && (strlen (CRPolicySHA256 req) =? 64).

Definition positive_or_null (n : Z) : Z := if n <=? 0 then 0 else n.

(** [createPolicySetVersionTx]: the new row's id and the tables. *)
Definition CreatePolicySetVersion (req : CreatePolicySetVersionRequest) (now : Z) (t : Tables) : result version_error (Z * Tables) :=
  let key := normalizePolicySetKey (CRSetKey req) in
  let tenant := NormalizeTenantKey (CRTenant req) in
  status ← initial_status (CRStatus req);
  _ ← validatePolicyVersionMaterial (CRContentJSON req) (CRContentSHA256 req) (CRPolicySHA256 req);
  let minApprovals := if CRMinApprovals req <? 0 then 0 else CRMinApprovals req in
  let nextVersion := foldr Z.max 0 (PVVersion <$> rows_of t key tenant) + 1 in
  if negb (row_constraints req) then Err ConstraintViolated
  else
    let id := LastID t + 1 in
    let v := mkPolicySetVersion id key tenant nextVersion status (CRDescription req) (positive_or_null (CRParentVersionID req))
               (positive_or_null (CRRollbackOfVersionID req)) (CRContentJSON req) (CRContentSHA256 req) (CRPolicySHA256 req)
               (CRRuleCount req) (CRChildSetCount req) (CRMaxDepth req) (CRApprovalRequired req) minApprovals (CRCreatedBy req) now
               "" None "" None None "" None "" "" in
    let t := put_version (mkTables (Versions t) id (Approvals t) (Events t) (PolicyRules t)) v in
    Ok (id, put_event t (mkPolicySetActivationEvent id 0 "created" status (CRCreatedBy req) "Policy set version created.")).

Definition SubmitPolicySetVersion (id : Z) (actor : string) (now : Z) (t : Tables) : result version_error Tables :=
  version ← getPolicySetVersionTx t id;
  if negb (bool_decide (PVStatus version = Draft)) then Err (WrongStatus id (PVStatus version))
  else
    let t := put_version t (with_submission (with_status version PendingApproval) actor now) in
    Ok (put_event t (mkPolicySetActivationEvent id 0 "submitted" PendingApproval actor "Policy set version submitted for approval.")).

Definition ApprovePolicySetVersion (id : Z) (actor comment : string) (minApprovals : Z) (makerChecker : bool) (now : Z) (t : Tables)
    : result version_error Tables :=
  version ← getPolicySetVersionTx t id;
  if negb (bool_decide (PVStatus version = PendingApproval)) && negb (bool_decide (PVStatus version = Approved))
  then Err (WrongStatus id (PVStatus version))
  else
    let actor := TrimSpace actor in
    if (actor =? "")%string then Err ActorRequired
    else if makerChecker && EqualFold (TrimSpace (PVCreatedBy version)) actor then Err CreatorCannotApprove
    else
      let t := put_approval t id actor (mkPolicySetApproval comment now) in
      let count := policySetApprovalCount t id in
      let minApprovals := if minApprovals <? 0 then 0 else minApprovals in
      let status := if count >=? minApprovals then Approved else PendingApproval in
      let t := put_version t (with_status version status) in
      Ok (put_event t (mkPolicySetActivationEvent id 0 "approved" status actor
                         ("Policy set version has " ++ Itoa count ++ " approval(s).")%string)).

Definition RejectPolicySetVersion (id : Z) (actor reason : string) (now : Z) (t : Tables) : result version_error Tables :=
  version ← getPolicySetVersionTx t id;
  if bool_decide (PVStatus version = Active) || bool_decide (PVStatus version = Superseded)
  then Err (WrongStatus id (PVStatus version))
  else
    let t := put_version t (with_rejection (with_status version Rejected) actor reason now) in
    Ok (put_event t (mkPolicySetActivationEvent id 0 "rejected" Rejected actor (defaultPolicySetSummary reason "Policy set version rejected."))).

(** The previously active version and the tables. *)
Definition MarkPolicySetVersionActiveTx (versionID : Z) (actor note : string) (now : Z) (t : Tables) : result version_error (Z * Tables) :=
  version ← getPolicySetVersionTx t versionID;
  if negb (bool_decide (PVStatus version ∈ [Approved; Active; Superseded])) then Err (WrongStatus versionID (PVStatus version))
  else
    let '(previousID, t) :=
      match getPolicySetVersionByStatusTenant t (PVSetKey version) (PVTenant version) Active with
      | Some active =>
          if PVID active =? versionID then (0, t)
          else (PVID active, put_version t (with_superseded (with_status active Superseded) now))
      | None => (0, t)
      end in
    let t := put_version t (with_activation (with_status version Active) actor note now) in
    Ok (previousID, put_event t (mkPolicySetActivationEvent versionID previousID "activated" Active actor
                                   (defaultPolicySetSummary note "Policy set version activated."))).

(** ** The administration API *)

(** A rule as [replacePolicyRulesTx] stores it; the table's own ids are not modelled. *)
Definition stored_rule (r : Rule) : Rule :=
  mkRule (RuleID r) (RuleName r) (RuleDescription r) (RulePriority r) (RuleEnabled r) (RuleMatchConditions (NormalizeRule r))
    (RuleAction r) (RuleVLAN r) (normalizeStringPtr (RuleBandwidthProfile r)) (RuleSessionTimeout r) (RuleIdleTimeout r)
    (normalizeStringPtr (RulePortalProfile r)) (normalizeStringPtr (RuleACLPolicyName r)) (RuleQuarantine r)
    (NormalizeServiceChain (RuleServiceChain r)).

Definition replacePolicyRulesTx (t : Tables) (rules : list Rule) : Tables :=
  mkTables (Versions t) (LastID t) (Approvals t) (Events t) (stored_rule <$> rules).

(** [activatePolicySetVersion]; [allowed] is [tenantAllowed] of the request. *)
Definition activatePolicySetVersion (cfg : VersionPolicy) (allowed : string -> bool) (id : Z) (actor note : string) (rollback : bool)
    (now : Z) (t : Tables) : result version_error Tables :=
  version ← getPolicySetVersionTx t id;
  if negb (allowed (PVTenant version)) then Err OutsideTenantScope
  else
    let count := policySetApprovalCount t id in
    if VersionApprovalRequired cfg && (count <? VersionMinApprovals cfg) then Err (ApprovalsMissing count (VersionMinApprovals cfg))
    else
      match (set ← ParsePolicySet (PVContentJSON version); FlattenPolicySet set (MaxSetDepth cfg)) with
      | Err e => Err (SetInvalid e)
      | Ok rules =>
          let t := if (TrimSpace (PVTenant version) =? "")%string then replacePolicyRulesTx t rules else t in
          '(previousID, t) ← MarkPolicySetVersionActiveTx id actor note now t;
          Ok (if rollback then put_event t (mkPolicySetActivationEvent id previousID "rollback" Active actor note) else t)
      end.

(** What [HandleCreatePolicySetVersion] stores for a set. *)
Definition create_from_set (cfg : VersionPolicy) (set : PolicySet) (description : string) (parent rollbackOf : Z) (submit : bool)
    (actor : string) (now : Z) (t : Tables) : result version_error (Z * Tables) :=
  let set := NormalizePolicySet set in
  match SummarizePolicySet set (MaxSetDepth cfg) with
  | Err e => Err (SetInvalid e)
  | Ok summary =>
      CreatePolicySetVersion
        (mkCreateRequest (SumKey summary) (SumTenant summary) description parent rollbackOf (encode_policy_set set)
           (SumContentHash summary) (SumPolicyHash summary) (SumRuleCount summary) (SumChildSetCount summary) (SumMaxDepth summary)
           (VersionApprovalRequired cfg) (VersionMinApprovals cfg) actor (if submit then "pending_approval" else "draft")) now t
  end.

(** The requests of the API; the requester's name and tenant scope come with each. The set of a creation
    is the one [policySetFromCreateRequest] settled on. *)
Inductive command :=
| Create (set : PolicySet) (description : string) (parent rollbackOf : Z) (submit : bool)
| Submit (id : Z)
| Approve (id : Z) (comment : string)
| Reject (id : Z) (reason : string)
| Activate (id : Z) (note : string) (rollback : bool).

(** [policySetVersionIDAllowedForRequest] *)
Definition id_allowed (allowed : string -> bool) (id : Z) (t : Tables) : bool :=
  match Versions t !! id with Some v => allowed (PVTenant v) | None => true end.

Definition guarded (ok : bool) (r : result version_error Tables) : result version_error Tables :=
  if ok then r else Err OutsideTenantScope.

Definition execute (cfg : VersionPolicy) (allowed : string -> bool) (actor : string) (now : Z) (c : command) (t : Tables)
    : result version_error Tables :=
  match c with
  | Create set description parent rollbackOf submit => snd <$> create_from_set cfg set description parent rollbackOf submit actor now t
  | Submit id => guarded (id_allowed allowed id t) (SubmitPolicySetVersion id actor now t)
  | Approve id comment =>
      guarded (id_allowed allowed id t)
        (ApprovePolicySetVersion id actor comment (VersionMinApprovals cfg) (VersionMakerChecker cfg) now t)
  | Reject id reason => guarded (id_allowed allowed id t) (RejectPolicySetVersion id actor reason now t)
  | Activate id note rollback =>
      let note := if rollback then defaultString note ("Rollback to policy set version " ++ Itoa id)%string else note in
      guarded (id_allowed allowed id t) (activatePolicySetVersion cfg allowed id actor note rollback now t)
  end.

(** The tables after any sequence of requests; a refused request changes nothing. *)
Inductive reachable (cfg : VersionPolicy) : Tables -> Prop :=
| reachable_empty rules : reachable cfg (mkTables ∅ 0 ∅ [] rules)
| reachable_step t t' allowed actor now c :
    reachable cfg t -> execute cfg allowed actor now c t = Ok t' -> reachable cfg t'.
End versions.

(** ** Invariant *)

Section invariant.
Context `{UnicodeLaws}.

Lemma normalizePolicySetKey_idem s : normalizePolicySetKey (normalizePolicySetKey s) = normalizePolicySetKey s.
Proof.
  unfold normalizePolicySetKey. cbv zeta. destruct (lower_trim s =? "")%string eqn:E; [done|]. by rewrite lower_trim_idem, E.
Qed.

Lemma NormalizeTenantKey_idem s : NormalizeTenantKey (NormalizeTenantKey s) = NormalizeTenantKey s.
Proof.
  unfold NormalizeTenantKey. cbv zeta. destruct (lower_trim s =? "*")%string eqn:E; [done|]. by rewrite lower_trim_idem, E.
Qed.

(** The same set and tenant. *)
Definition same_set (v w : PolicySetVersion) : Prop := PVSetKey v = PVSetKey w /\ PVTenant v = PVTenant w.

Record consistent (t : Tables) : Prop := {
  sequence_nonneg : 0 <= LastID t;
  row_id id v : Versions t !! id = Some v -> PVID v = id /\ 1 <= id <= LastID t;
  row_key id v : Versions t !! id = Some v ->
    normalizePolicySetKey (PVSetKey v) = PVSetKey v /\ NormalizeTenantKey (PVTenant v) = PVTenant v /\ 1 <= PVVersion v;
  row_version i j v w : Versions t !! i = Some v -> Versions t !! j = Some w -> same_set v w -> PVVersion v = PVVersion w -> i = j;
  one_active i j v w : Versions t !! i = Some v -> Versions t !! j = Some w -> same_set v w ->
    PVStatus v = Active -> PVStatus w = Active -> i = j;
  approval_row id who : is_Some (Approvals t !! (id, who)) -> 1 <= id <= LastID t /\ TrimSpace who = who /\ who <> "";
}.

(** The parts of a row that no update changes. *)
Definition same_row (v w : PolicySetVersion) : Prop :=
  PVID v = PVID w /\ same_set v w /\ PVVersion v = PVVersion w /\ PVCreatedBy v = PVCreatedBy w.

Lemma consistent_update t v w :
  consistent t -> Versions t !! PVID w = Some v -> same_row v w ->
  (PVStatus w = Active -> forall j u, Versions t !! j = Some u -> same_set v u -> PVStatus u = Active -> j = PVID w) ->
  consistent (put_version t w).
Proof.
  intros C Hv (Hid & [Hk Ht] & Hn & Hc) Ha. destruct C. split; unfold put_version in *; cbn [Versions LastID Approvals] in *; [done|..].
  - intros id u [[<- <-]|[? Hu]]%lookup_insert_Some; [|by apply row_id0]. split; [done|]. exact (proj2 (row_id0 _ _ Hv)).
  - intros id u [[<- <-]|[? Hu]]%lookup_insert_Some; [|by apply (row_key0 id)]. rewrite <- Hk, <- Ht, <- Hn. exact (row_key0 _ _ Hv).
  - intros i j u u' [[<- <-]|[? Hu]]%lookup_insert_Some [[<- <-]|[? Hu']]%lookup_insert_Some; [done|..].
    + intros [? ?] ?. apply (row_version0 _ _ v u'); try done; [split|]; congruence.
    + intros [? ?] ?. apply (row_version0 _ _ u v); try done; [split|]; congruence.
    + by apply row_version0.
  - intros i j u u' [[<- <-]|[? Hu]]%lookup_insert_Some [[<- <-]|[? Hu']]%lookup_insert_Some; [done|..].
    + intros [? ?] Hw Hu. symmetry. apply (Ha Hw j u'); try done. split; congruence.
    + intros [? ?] Hu1 Hw. apply (Ha Hw i u); try done. split; congruence.
    + by apply one_active0.
  - exact approval_row0.
Qed.

Lemma consistent_event t e : consistent t -> consistent (put_event t e).
Proof. intros []. by split. Qed.
Lemma consistent_rules t rules : consistent t -> consistent (mkTables (Versions t) (LastID t) (Approvals t) (Events t) rules).
Proof. intros []. by split. Qed.

Lemma consistent_approval t id who a :
  consistent t -> is_Some (Versions t !! id) -> TrimSpace who = who -> who <> "" -> consistent (put_approval t id who a).
Proof.
  intros C [v Hv] Htr Hne. destruct C. split; unfold put_approval; cbn [Versions LastID Approvals]; try done.
  intros id' who' [a' Ha]. apply lookup_insert_Some in Ha as [[[= <- <-] _]|[_ Ha]]; [|by apply approval_row0; eexists].
  split; [by apply (row_id0 id v)|done].
Qed.

Lemma elem_rows t key tenant v :
  v ∈ rows_of t key tenant <-> (exists id, Versions t !! id = Some v) /\ PVSetKey v = key /\ PVTenant v = tenant.
Proof.
  unfold rows_of, of_set. rewrite list_elem_of_In, filter_In, <- list_elem_of_In, andb_true_iff, !String.eqb_eq.
  rewrite list_elem_of_fmap. split; intros [Hv ?]; (split; [|done]).
  - destruct Hv as ([id w] & -> & Hin). exists id. by apply elem_of_map_to_list.
  - destruct Hv as [id Hid]. exists (id, v). split; [done|]. by apply elem_of_map_to_list.
Qed.

Lemma max_version l v : v ∈ l -> PVVersion v <= foldr Z.max 0 (PVVersion <$> l).
Proof. induction 1; cbn; lia. Qed.
Lemma max_version_nonneg (l : list Z) : 0 <= foldr Z.max 0 l.
Proof. induction l; cbn; lia. Qed.

Lemma active_version_spec t key tenant :
  normalizePolicySetKey key = key -> NormalizeTenantKey tenant = tenant ->
  match getPolicySetVersionByStatusTenant t key tenant Active with
  | Some a => (exists id, Versions t !! id = Some a) /\ PVSetKey a = key /\ PVTenant a = tenant /\ PVStatus a = Active
  | None => forall id v, Versions t !! id = Some v -> PVSetKey v = key -> PVTenant v = tenant -> PVStatus v <> Active
  end.
Proof.
  intros Hk Ht. unfold getPolicySetVersionByStatusTenant. rewrite Hk, Ht.
  set (rows := List.filter _ _). assert (forall v, v ∈ rows <-> v ∈ rows_of t key tenant /\ PVStatus v = Active) as Hrows.
  { intros v. unfold rows. rewrite list_elem_of_In, filter_In, <- list_elem_of_In. by rewrite bool_decide_eq_true. }
  destruct (sort_by _ rows) as [|a l] eqn:E; cbn [head].
  - intros id v Hv Hvk Hvt Hs. assert (v ∈ rows) as Hin by (apply Hrows; split; [apply elem_rows; eauto|done]).
    rewrite <- (sort_by_perm (fun x y => PVVersion x >? PVVersion y)), E in Hin. set_solver.
  - assert (a ∈ rows) as Hin by (rewrite <- (sort_by_perm (fun x y => PVVersion x >? PVVersion y)), E; left).
    apply Hrows in Hin as [Hin ?]. apply elem_rows in Hin. tauto.
Qed.

Lemma consistent_create json_valid req now t id t' :
  consistent t -> CreatePolicySetVersion json_valid req now t = Ok (id, t') -> consistent t'.
Proof.
  intros C. unfold CreatePolicySetVersion. cbv zeta. intros (status & Hs & (u & _ & Hc)%bind_Ok)%bind_Ok.
  destruct (negb _); [done|]. apply (f_equal (fun r => match r with Ok p => Some (snd p) | Err _ => None end)) in Hc.
  injection Hc as <-. apply consistent_event.
  set (key := normalizePolicySetKey (CRSetKey req)). set (tenant := NormalizeTenantKey (CRTenant req)).
  assert (status <> Active) as Hna by (unfold initial_status in Hs; repeat (case_match; try done); by injection Hs as <-).
  assert (Versions t !! (LastID t + 1) = None) as Hnew.
  { destruct (Versions t !! (LastID t + 1)) as [v|] eqn:E; [|done]. apply (row_id _ C) in E. lia. }
  assert (forall i w, Versions t !! i = Some w -> PVSetKey w = key -> PVTenant w = tenant ->
            PVVersion w < foldr Z.max 0 (PVVersion <$> rows_of t key tenant) + 1) as Hmax.
  { intros i w Hw ? ?. apply Z.lt_succ_r, max_version, elem_rows. eauto. }
  pose proof (max_version_nonneg (PVVersion <$> rows_of t key tenant)) as Hpos.
  unfold put_version. split; cbn [Versions LastID Approvals PVID].
  - pose proof (sequence_nonneg _ C). lia.
  - intros i v [[<- <-]|[? Hv]]%lookup_insert_Some.
    + split; [done|]. pose proof (sequence_nonneg _ C). lia.
    + apply (row_id _ C) in Hv. lia.
  - intros i v [[<- <-]|[? Hv]]%lookup_insert_Some; [|by apply (row_key _ C i)]. cbn [PVSetKey PVTenant PVVersion].
    split_and!; [apply normalizePolicySetKey_idem|apply NormalizeTenantKey_idem|lia].
  - intros i j v w [[<- <-]|[? Hv]]%lookup_insert_Some [[<- <-]|[? Hw]]%lookup_insert_Some; [done|..]; cbn [PVVersion].
    + intros [Hk Ht] Hver. cbn in Hk, Ht. specialize (Hmax j w Hw (eq_sym Hk) (eq_sym Ht)). lia.
    + intros [Hk Ht] Hver. cbn in Hk, Ht. specialize (Hmax i v Hv Hk Ht). lia.
    + by apply (row_version _ C).
  - intros i j v w [[<- <-]|[? Hv]]%lookup_insert_Some [[<- <-]|[? Hw]]%lookup_insert_Some; cbn [PVStatus]; try done.
    by apply (one_active _ C).
  - intros i who Ha. apply (approval_row _ C) in Ha. lia || (destruct Ha; split; [lia|done]).
Qed.

Lemma consistent_submit id actor now t t' : consistent t -> SubmitPolicySetVersion id actor now t = Ok t' -> consistent t'.
Proof.
  intros C. unfold SubmitPolicySetVersion, getPolicySetVersionTx. intros (v & Hv & Hs)%bind_Ok.
  destruct (Versions t !! id) as [v'|] eqn:E; [|done]. injection Hv as ->. destruct (negb _); [done|]. injection Hs as <-.
  apply consistent_event. apply (consistent_update t v); cbn; [done| |done|done]. by rewrite (proj1 (row_id _ C _ _ E)).
Qed.

Lemma consistent_approve id actor comment minApprovals makerChecker now t t' :
  consistent t -> ApprovePolicySetVersion id actor comment minApprovals makerChecker now t = Ok t' -> consistent t'.
Proof.
  intros C. unfold ApprovePolicySetVersion, getPolicySetVersionTx. intros (v & Hv & Hs)%bind_Ok.
  destruct (Versions t !! id) as [v'|] eqn:E; [|done]. injection Hv as ->. destruct (_ && _); [done|]. cbv zeta in Hs.
  destruct (TrimSpace actor =? "")%string eqn:Ea; [done|]. destruct (_ && _); [done|]. injection Hs as <-.
  apply consistent_event. apply (consistent_update _ v); cbn; [|by rewrite (proj1 (row_id _ C _ _ E))|done|by case_match].
  apply consistent_approval; [done|by eexists|apply TrimSpace_idem|by apply String.eqb_neq].
Qed.

Lemma consistent_reject id actor reason now t t' : consistent t -> RejectPolicySetVersion id actor reason now t = Ok t' -> consistent t'.
Proof.
  intros C. unfold RejectPolicySetVersion, getPolicySetVersionTx. intros (v & Hv & Hs)%bind_Ok.
  destruct (Versions t !! id) as [v'|] eqn:E; [|done]. injection Hv as ->. destruct (_ || _); [done|]. injection Hs as <-.
  apply consistent_event. apply (consistent_update t v); cbn; [done| |done|done]. by rewrite (proj1 (row_id _ C _ _ E)).
Qed.

(** What activation does to the rows: the version becomes active, the one active before is superseded. *)
Lemma activate_rows id actor note now t previous t' :
  consistent t -> MarkPolicySetVersionActiveTx id actor note now t = Ok (previous, t') ->
  consistent t' /\ Approvals t' = Approvals t /\
  exists v, Versions t !! id = Some v /\ PVStatus v ∈ [Approved; Active; Superseded]
    /\ Versions t' !! id = Some (with_activation (with_status v Active) actor note now)
    /\ (forall i w, i <> id -> Versions t !! i = Some w ->
         Versions t' !! i = Some (if decide (same_set v w /\ PVStatus w = Active) then with_superseded (with_status w Superseded) now else w))
    /\ (forall i, Versions t !! i = None -> Versions t' !! i = None)
    /\ (previous = 0 \/ exists w, Versions t !! previous = Some w /\ same_set v w /\ PVStatus w = Active /\ previous <> id).
Proof.
  intros C. unfold MarkPolicySetVersionActiveTx, getPolicySetVersionTx. intros (v & Hv & Hs)%bind_Ok.
  destruct (Versions t !! id) as [v'|] eqn:E; [|done]. injection Hv as ->.
  destruct (bool_decide_reflect (PVStatus v ∈ [Approved; Active; Superseded])) as [Hst|]; [|done]. cbn [negb] in Hs.
  pose proof (row_id _ C _ _ E) as [Hid _]. pose proof (row_key _ C _ _ E) as (Hk & Ht & _).
  pose proof (active_version_spec t _ _ Hk Ht) as Ha.
  set (w' := with_activation (with_status v Active) actor note now) in *.
  (* the rows other than [id], once the previous one is superseded *)
  assert (forall t1, consistent t1 -> Versions t1 !! id = Some v -> Approvals t1 = Approvals t ->
    (forall j u, Versions t1 !! j = Some u -> same_set v u -> PVStatus u = Active -> j = id) ->
    (forall i w, i <> id -> Versions t !! i = Some w ->
      Versions t1 !! i = Some (if decide (same_set v w /\ PVStatus w = Active) then with_superseded (with_status w Superseded) now else w)) ->
    (forall i, Versions t !! i = None -> Versions t1 !! i = None) ->
    forall e, let t' := put_event (put_version t1 w') e in
      consistent t' /\ Approvals t' = Approvals t /\ Versions t' !! id = Some w' /\
      (forall i w, i <> id -> Versions t !! i = Some w ->
        Versions t' !! i = Some (if decide (same_set v w /\ PVStatus w = Active) then with_superseded (with_status w Superseded) now else w)) /\
      (forall i, Versions t !! i = None -> Versions t' !! i = None)) as Hfin.
  { intros t1 C1 Hv1 Happ Hone Hrest Hnone e. cbv zeta. assert (PVID w' = id) as Hw by done. split_and!.
    - apply consistent_event. apply (consistent_update t1 v); [done|by rewrite Hw|done|]. intros _ j u Hj Hsame Hact. rewrite Hw. by eapply Hone.
    - done.
    - cbn. rewrite Hid. apply lookup_insert_eq.
    - intros i w Hne Hi. cbn. rewrite Hid, lookup_insert_ne by done. by apply Hrest.
    - intros i Hi. cbn. rewrite Hid, lookup_insert_ne; [by apply Hnone|]. intros ->. congruence. }
  destruct (getPolicySetVersionByStatusTenant t (PVSetKey v) (PVTenant v) Active) as [a|].
  - destruct Ha as ((ia & Hia) & Hak & Hat & Hact). pose proof (row_id _ C _ _ Hia) as [Hida _].
    assert (forall i w, Versions t !! i = Some w -> same_set v w -> PVStatus w = Active -> i = ia) as Huniq.
    { intros i w Hi [? ?] ?. apply (one_active _ C i ia w a); try done. split; congruence. }
    rewrite Hida in Hs. destruct (decide (ia = id)) as [Heq|Hne].
    + rewrite (proj2 (Z.eqb_eq _ _) Heq) in Hs. subst ia. rewrite Heq in Huniq. injection Hs as <- <-. destruct (Hfin t C E eq_refl) with (e := mkPolicySetActivationEvent id 0 "activated" Active actor
         (defaultPolicySetSummary note "Policy set version activated.")) as (? & ? & ? & ? & ?); [by eauto| |done|].
      { intros i w Hi Hw. rewrite decide_False; [done|]. intros [? ?]. by eapply Hi, Huniq. }
      split_and!; [done..|]. exists v. split_and!; try done. by left.
    + rewrite (proj2 (Z.eqb_neq _ _) Hne) in Hs. injection Hs as Hprev Htab. subst previous t'. set (old := with_superseded (with_status a Superseded) now) in *.
      destruct (Hfin (put_version t old)) with (e := mkPolicySetActivationEvent id ia "activated" Active actor
         (defaultPolicySetSummary note "Policy set version activated.")) as (? & ? & ? & ? & ?).
      * apply (consistent_update t a); [done|by cbn; rewrite Hida|done|done].
      * cbn. by rewrite Hida, lookup_insert_ne.
      * done.
      * intros j u Hju. cbn in Hju. apply lookup_insert_Some in Hju as [[_ <-]|[Hj Hu]]; [done|]. intros Hsame Hu1.
        destruct Hj. rewrite Hida. symmetry. by apply (Huniq j u).
      * intros i w Hi Hw. cbn. rewrite Hida. destruct (decide (i = ia)) as [->|Hnei].
        -- rewrite lookup_insert_eq. assert (w = a) as -> by congruence. rewrite decide_True; [done|]. split; [split|]; congruence.
        -- rewrite lookup_insert_ne by done. rewrite decide_False; [done|]. intros [? ?]. by eapply Hnei, Huniq.
      * intros i Hi. cbn. rewrite Hida, lookup_insert_ne; [done|]. intros ->. congruence.
      * split_and!; [done..|]. exists v. split_and!; try done. right. exists a. by split_and!.
  - injection Hs as <- <-. destruct (Hfin t C E eq_refl) with (e := mkPolicySetActivationEvent id 0 "activated" Active actor
       (defaultPolicySetSummary note "Policy set version activated.")) as (? & ? & ? & ? & ?);
      [intros j u Hj [? ?] Hu; by destruct (Ha j u)| |done|].
    { intros i w Hi Hw. rewrite decide_False; [done|]. intros [[? ?] ?]. by eapply (Ha i w). }
    split_and!; [done..|]. exists v. split_and!; try done. by left.
Qed.

(** ** Approvals *)

Lemma elem_approvers t id who : who ∈ approvers t id <-> is_Some (Approvals t !! (id, who)).
Proof.
  unfold approvers. rewrite list_elem_of_omap. split.
  - intros ([[i w] a] & Hin & Hw). apply elem_of_map_to_list in Hin. cbn in Hw. destruct (Z.eqb_spec i id) as [->|]; [|done].
    injection Hw as ->. by eexists.
  - intros [a Ha]. exists (id, who, a). split; [by apply elem_of_map_to_list|]. cbn. by rewrite Z.eqb_refl.
Qed.

Lemma NoDup_approvers t id : NoDup (approvers t id).
Proof.
  unfold approvers. pose proof (NoDup_fst_map_to_list (Approvals t)) as Hd.
  induction (map_to_list (Approvals t)) as [|[[i w] a] l IH]; [constructor|]. cbn [fmap list_fmap fst] in Hd.
  apply NoDup_cons in Hd as [Hn Hd]. cbn [omap list_omap fst snd]. destruct (Z.eqb_spec i id) as [->|]; [|by apply IH].
  constructor; [|by apply IH]. intros ([[i' w'] a'] & Hin & Hw)%list_elem_of_omap. cbn in Hw.
  destruct (Z.eqb_spec i' id) as [->|]; [|done]. injection Hw as ->. apply Hn, list_elem_of_fmap. by exists (id, w, a').
Qed.

Lemma approval_count_mono t t' id :
  (forall who, is_Some (Approvals t !! (id, who)) -> is_Some (Approvals t' !! (id, who))) ->
  policySetApprovalCount t id <= policySetApprovalCount t' id.
Proof.
  intros Hsub. unfold policySetApprovalCount, zlen. apply inj_le, submseteq_length, NoDup_submseteq; [apply NoDup_approvers|].
  intros who. rewrite !elem_approvers. apply Hsub.
Qed.

Lemma is_Some_put_approval t id who a id' who' :
  is_Some (Approvals (put_approval t id who a) !! (id', who')) <-> is_Some (Approvals t !! (id', who')) \/ (id' = id /\ who' = who).
Proof.
  cbn. destruct (decide ((id, who) = (id', who'))) as [[= <- <-]|Hne].
  - rewrite lookup_insert_eq. naive_solver.
  - rewrite lookup_insert_ne by done. naive_solver.
Qed.

(** Enough approvals on every version that was approved, and none by its creator. *)
Record four_eyed (cfg : VersionPolicy) (t : Tables) : Prop := {
  eyes_consistent : consistent t;
  enough id v : Versions t !! id = Some v -> PVStatus v ∈ [Approved; Active; Superseded] ->
    VersionMinApprovals cfg <= policySetApprovalCount t id;
  makers_apart id v who : VersionMakerChecker cfg = true -> Versions t !! id = Some v -> is_Some (Approvals t !! (id, who)) ->
    EqualFold (TrimSpace (PVCreatedBy v)) who = false;
}.

(** Changes of one row that keep the approvals. *)
Lemma four_eyed_rows cfg t t' :
  four_eyed cfg t -> consistent t' -> Approvals t' = Approvals t ->
  (forall i w, Versions t' !! i = Some w ->
    (exists v, Versions t !! i = Some v /\ PVCreatedBy w = PVCreatedBy v
       /\ (PVStatus w ∈ [Approved; Active; Superseded] -> PVStatus v ∈ [Approved; Active; Superseded]))
    \/ (PVStatus w ∉ [Approved; Active; Superseded]) /\ forall who, Approvals t !! (i, who) = None) ->
  four_eyed cfg t'.
Proof.
  intros [C He Hm] C' Ha Hrows. split; [done|..].
  - intros i w Hw Hs. unfold policySetApprovalCount, approvers. rewrite Ha. destruct (Hrows i w Hw) as [(v & Hv & _ & Hst)|[Hn _]]; [|done].
    apply (He i v Hv). by apply Hst.
  - intros i w who Hmc Hw Hwho. rewrite Ha in Hwho. destruct (Hrows i w Hw) as [(v & Hv & -> & _)|[_ Hn]].
    + by apply (Hm i v who).
    + rewrite Hn in Hwho. by destruct Hwho.
Qed.

Lemma initial_status_new text status :
  initial_status text = Ok status -> lower_trim text <> "approved" -> status ∉ [Approved; Active; Superseded].
Proof.
  unfold initial_status. cbv zeta. destruct (_ || _); [intros [= <-] _; decided|].
  destruct (lower_trim text =? "pending_approval")%string; [intros [= <-] _; decided|].
  destruct (lower_trim text =? "approved")%string eqn:E; [|done]. intros _ Hn. by apply String.eqb_eq in E.
Qed.

Lemma four_eyed_create cfg json_valid req now t id t' :
  four_eyed cfg t -> lower_trim (CRStatus req) <> "approved" -> CreatePolicySetVersion json_valid req now t = Ok (id, t') -> four_eyed cfg t'.
Proof.
  intros F Hreq Hc. pose proof (eyes_consistent _ _ F) as C. pose proof (consistent_create _ _ _ _ _ _ C Hc) as C'.
  unfold CreatePolicySetVersion in Hc. cbv zeta in Hc. apply bind_Ok in Hc as (status & Hs & (u & _ & Hc)%bind_Ok).
  destruct (negb _); [done|]. apply (f_equal (fun r => match r with Ok p => Some (snd p) | Err _ => None end)) in Hc.
  injection Hc as <-. apply (four_eyed_rows _ t); [done..|]. intros i w Hw. cbn in Hw. apply lookup_insert_Some in Hw as [[<- <-]|[_ Hw]].
  - right. cbn. split.
    + by apply initial_status_new in Hs.
    + intros who. destruct (Approvals t !! (LastID t + 1, who)) eqn:E; [|done].
      destruct (approval_row _ C (LastID t + 1) who) as [? _]; [by eexists|lia].
  - left. by exists w.
Qed.

Lemma four_eyed_update cfg t v w e :
  four_eyed cfg t -> Versions t !! PVID w = Some v -> PVCreatedBy w = PVCreatedBy v -> consistent (put_event (put_version t w) e) ->
  (PVStatus w ∉ [Approved; Active; Superseded]) -> four_eyed cfg (put_event (put_version t w) e).
Proof.
  intros F Hv Hc C' Hs. apply (four_eyed_rows _ t); [done..|]. intros i u Hu. cbn in Hu.
  apply lookup_insert_Some in Hu as [[<- <-]|[_ Hu]]; [|left; by exists u]. left. by exists v.
Qed.

Lemma four_eyed_approve cfg id actor comment now t t' :
  four_eyed cfg t ->
  ApprovePolicySetVersion id actor comment (VersionMinApprovals cfg) (VersionMakerChecker cfg) now t = Ok t' -> four_eyed cfg t'.
Proof.
  intros F Ha. pose proof (eyes_consistent _ _ F) as C. pose proof (consistent_approve _ _ _ _ _ _ _ _ C Ha) as C'.
  unfold ApprovePolicySetVersion, getPolicySetVersionTx in Ha. apply bind_Ok in Ha as (v & Hv & Ha).
  destruct (Versions t !! id) as [v'|] eqn:E; [|done]. injection Hv as ->. pose proof (row_id _ C _ _ E) as [Hid _].
  destruct (_ && _); [done|]. cbv zeta in Ha. destruct (TrimSpace actor =? "")%string eqn:En; [done|].
  destruct (VersionMakerChecker cfg && _) eqn:Em; [done|]. injection Ha as <-.
  set (a := mkPolicySetApproval comment now) in *. set (t1 := put_approval t id (TrimSpace actor) a) in *.
  split; [done|..].
  - intros i w Hw Hs. cbn in Hw. rewrite Hid in Hw.
    change (VersionMinApprovals cfg <= policySetApprovalCount t1 i). apply lookup_insert_Some in Hw as [[<- <-]|[_ Hw]].
    + cbn [PVStatus with_status] in Hs. destruct (policySetApprovalCount t1 id >=? _) eqn:Eg; [|exfalso; clear -Hs; set_unfold; naive_solver].
      rewrite Z.geb_leb in Eg. apply Z.leb_le in Eg. destruct (VersionMinApprovals cfg <? 0) eqn:E0; bool_arith; lia.
    + etransitivity; [by apply (enough _ _ F i w)|]. apply approval_count_mono. intros who Hwho. apply is_Some_put_approval. by left.
  - intros i w who Hmc Hw Hwho. cbn in Hw. rewrite Hid in Hw. change (is_Some (Approvals t1 !! (i, who))) in Hwho.
    assert (exists v0, Versions t !! i = Some v0 /\ PVCreatedBy w = PVCreatedBy v0) as (v0 & Hv0 & ->)
      by (apply lookup_insert_Some in Hw as [[<- <-]|[_ Hw]]; [by exists v|by exists w]).
    apply is_Some_put_approval in Hwho as [Hwho|[-> ->]]; [by apply (makers_apart _ _ F i v0 who)|].
    rewrite Hmc in Em. cbn in Em. by assert (v0 = v) as -> by congruence.
Qed.

Lemma four_eyed_activate cfg id actor note now t previous t' :
  four_eyed cfg t -> MarkPolicySetVersionActiveTx id actor note now t = Ok (previous, t') -> four_eyed cfg t'.
Proof.
  intros F Ha. apply activate_rows in Ha as (C' & Happ & v & Hv & Hst & Hv' & Hrest & Hnone & _); [|apply F].
  apply (four_eyed_rows _ t); [done..|]. intros i w Hw. left. destruct (decide (i = id)) as [->|Hne].
  - exists v. rewrite Hv' in Hw. by injection Hw as <-.
  - destruct (Versions t !! i) as [u|] eqn:Eu; [|rewrite (Hnone _ Eu) in Hw; done]. exists u. rewrite (Hrest i u Hne Eu) in Hw.
    injection Hw as <-. split; [done|]. destruct (decide _) as [[_ Hact]|]; [|done]. split; [done|]. intros _. rewrite Hact. decided.
Qed.
End invariant.

Section requests.
Context {N : Numbers} {U : Unicode} {UL : UnicodeLaws} {R : MapRange} {J : Json} {RE : Regexp} {IA : IPAddr}.
Context {CD : ChainDigest} {D : PolicyDigest} {PD : PolicySetDecoder}.
Context (json_valid : string -> bool) (encode_policy_set : PolicySet -> string).

Lemma execute_four_eyed cfg allowed actor now c t t' :
  four_eyed cfg t -> execute json_valid encode_policy_set cfg allowed actor now c t = Ok t' -> four_eyed cfg t'.
Proof.
  intros F. pose proof (eyes_consistent _ _ F) as C.
  destruct c as [set description parent rollbackOf submit|id|id comment|id reason|id note rollback]; cbn [execute].
  - unfold create_from_set. destruct (SummarizePolicySet _ _) as [summary|]; [|done]. intros Hc.
    destruct (CreatePolicySetVersion _ _ now t) as [[id t1]|] eqn:E; [|done]. injection Hc as <-.
    apply (four_eyed_create _ _ _ _ _ _ _ F) in E; [done|]. by destruct submit.
  - destruct (id_allowed allowed id t); [|done]. cbn [guarded]. intros Hs. pose proof (consistent_submit _ _ _ _ _ C Hs) as C'.
    unfold SubmitPolicySetVersion, getPolicySetVersionTx in Hs. apply bind_Ok in Hs as (v & Hv & Hs).
    destruct (Versions t !! id) as [v'|] eqn:E; [|done]. injection Hv as ->. destruct (negb _); [done|]. injection Hs as <-.
    apply (four_eyed_update _ _ v); try done; [cbn; by rewrite (proj1 (row_id _ C _ _ E))|cbn; decided].
  - destruct (id_allowed allowed id t); [|done]. cbn [guarded]. by apply four_eyed_approve.
  - destruct (id_allowed allowed id t); [|done]. cbn [guarded]. intros Hs. pose proof (consistent_reject _ _ _ _ _ _ C Hs) as C'.
    unfold RejectPolicySetVersion, getPolicySetVersionTx in Hs. apply bind_Ok in Hs as (v & Hv & Hs).
    destruct (Versions t !! id) as [v'|] eqn:E; [|done]. injection Hv as ->. destruct (_ || _); [done|]. injection Hs as <-.
    apply (four_eyed_update _ _ v); try done; [cbn; by rewrite (proj1 (row_id _ C _ _ E))|cbn; decided].
  - destruct (id_allowed allowed id t); [|done]. cbn [guarded]. unfold activatePolicySetVersion. intros (v & _ & Ha)%bind_Ok.
    destruct (negb _); [done|]. cbv zeta in Ha. destruct (_ && _); [done|]. destruct (_ ≫= _) as [rules|]; [|done].
    apply bind_Ok in Ha as ([previous t1] & Hm & Ha).
    assert (four_eyed cfg t1) as F1.
    { eapply four_eyed_activate; [|exact Hm]. destruct (TrimSpace (PVTenant v) =? "")%string; [|done].
      apply (four_eyed_rows _ t); [done|by apply consistent_rules|done|]. intros i w Hw. left. by exists w. }
    destruct rollback; injection Ha as <-; [|done]. apply (four_eyed_rows _ t1); [done|by apply consistent_event, F1|done|].
    intros i w Hw. left. by exists w.
Qed.

Lemma reachable_four_eyed cfg t : reachable json_valid encode_policy_set cfg t -> four_eyed cfg t.
Proof.
  induction 1 as [rules|t t' allowed actor now c _ IH He]; [|by eapply execute_four_eyed].
  split; [split|..]; cbn; try done; intros *; rewrite ?lookup_empty; try done.
Qed.

(** C35: Whatever requests were made, every set of every tenant has at most one active version, and
    the version numbers of a set of a tenant are positive and distinct. *)
Theorem versions_consistent (cfg : VersionPolicy) (t : Tables) :
  reachable json_valid encode_policy_set cfg t ->
  forall i j v w, Versions t !! i = Some v -> Versions t !! j = Some w -> PVSetKey v = PVSetKey w -> PVTenant v = PVTenant w ->
    1 <= PVVersion v /\ (PVVersion v = PVVersion w -> i = j) /\ (PVStatus v = Active -> PVStatus w = Active -> i = j).
Proof.
  intros Hr%reachable_four_eyed%eyes_consistent i j v w Hv Hw Hk Ht. split; [by apply (row_key _ Hr i)|].
  split; intros; [by apply (row_version _ Hr i j v w)|by apply (one_active _ Hr i j v w)].
Qed.

(** C34: Four eyes: with maker-checker on, every version that was ever approved, so every active one, has
    the configured number of approvals by distinct persons, none of whom is its creator, however
    the name is written. *)
Theorem four_eyes (cfg : VersionPolicy) (t : Tables) (id : Z) (v : PolicySetVersion) :
  reachable json_valid encode_policy_set cfg t ->
  VersionMakerChecker cfg = true ->
  Versions t !! id = Some v -> PVStatus v ∈ [Approved; Active; Superseded] ->
  exists persons, NoDup persons /\ VersionMinApprovals cfg <= zlen persons
    /\ forall who, who ∈ persons -> is_Some (Approvals t !! (id, who)) /\ who <> "" /\ EqualFold (TrimSpace (PVCreatedBy v)) who = false.
Proof.
  intros F%reachable_four_eyed Hmc Hv Hs. exists (approvers t id). split; [apply NoDup_approvers|].
  split; [by apply (enough _ _ F id v)|]. intros who Hwho%elem_approvers. split; [done|].
  split; [by apply (approval_row _ (eyes_consistent _ _ F) id)|by apply (makers_apart _ _ F id v)].
Qed.

(** Activation, when it succeeds, makes the version the active one of its set and tenant and the
    one active before superseded, and leaves every other version as it is; the version had been approved,
    had the required approvals, and its content is valid. The rules in force are replaced, by the rules
    of the version, exactly when the version belongs to no tenant. *)
Theorem activatePolicySetVersion_spec (cfg : VersionPolicy) (allowed : string -> bool) (id : Z) (actor note : string)
    (rollback : bool) (now : Z) (t t' : Tables) :
  reachable json_valid encode_policy_set cfg t ->
  activatePolicySetVersion cfg allowed id actor note rollback now t = Ok t' ->
  exists v set rules,
    Versions t !! id = Some v /\ allowed (PVTenant v) = true /\ PVStatus v ∈ [Approved; Active; Superseded]
    /\ (VersionApprovalRequired cfg = true -> VersionMinApprovals cfg <= policySetApprovalCount t id)
    /\ ParsePolicySet (PVContentJSON v) = Ok set /\ FlattenPolicySet set (MaxSetDepth cfg) = Ok rules
    /\ PolicyRules t' = (if (PVTenant v =? "")%string then stored_rule <$> rules else PolicyRules t)
    /\ Approvals t' = Approvals t
    /\ forall i w, Versions t !! i = Some w ->
         Versions t' !! i = Some
           (if decide (i = id) then with_activation (with_status w Active) actor note now
            else if decide (same_set v w /\ PVStatus w = Active) then with_superseded (with_status w Superseded) now else w).
Proof.
  intros C%reachable_four_eyed%eyes_consistent. unfold activatePolicySetVersion. intros (v & Hv & Ha)%bind_Ok.
  unfold getPolicySetVersionTx in Hv. destruct (Versions t !! id) as [v'|] eqn:E; [|done]. injection Hv as ->.
  destruct (allowed (PVTenant v)) eqn:Eal; [|done]. cbn [negb] in Ha. cbv zeta in Ha.
  destruct (VersionApprovalRequired cfg && _) eqn:Er; [done|]. destruct (ParsePolicySet (PVContentJSON v)) as [set|] eqn:Ep; [|done].
  cbn [mbind result_bind] in Ha. destruct (FlattenPolicySet set (MaxSetDepth cfg)) as [rules|] eqn:Ef; [|done].
  apply bind_Ok in Ha as ([previous t1] & Hm & Ha).
  set (t0 := if (TrimSpace (PVTenant v) =? "")%string then _ else _) in Hm.
  assert (TrimSpace (PVTenant v) = PVTenant v) as Htrim.
  { destruct (row_key _ C _ _ E) as (_ & Ht & _). rewrite <- Ht. unfold NormalizeTenantKey. cbv zeta.
    destruct (_ =? "*")%string; [done|apply TrimSpace_lower_trim]. }
  assert (Versions t0 = Versions t /\ Approvals t0 = Approvals t /\
    PolicyRules t0 = (if (PVTenant v =? "")%string then stored_rule <$> rules else PolicyRules t)) as (Hv0 & Ha0 & Hr0).
  { unfold t0. rewrite Htrim. by destruct (PVTenant v =? "")%string. }
  assert (consistent t0) as C0 by (unfold t0; destruct (TrimSpace (PVTenant v) =? "")%string; [by apply consistent_rules|done]).
  assert (PolicyRules t1 = PolicyRules t0) as Hr1.
  { unfold MarkPolicySetVersionActiveTx in Hm. apply bind_Ok in Hm as (? & _ & Hm). destruct (negb _); [done|].
    repeat case_match; by simplify_eq. }
  apply activate_rows in Hm as (_ & Ha1 & w & Hw & Hst & Hwid & Hrest & _); [|done].
  rewrite Hv0 in Hw, Hrest. assert (w = v) as -> by congruence.
  assert (Versions t' = Versions t1 /\ Approvals t' = Approvals t1 /\ PolicyRules t' = PolicyRules t1) as (-> & -> & ->)
    by (destruct rollback; by injection Ha as <-).
  exists v, set, rules. split_and!; try done.
  - intros Hreq. rewrite Hreq in Er. cbn in Er. by bool_arith.
  - by rewrite Hr1.
  - by rewrite Ha1.
  - intros i u Hu. destruct (decide (i = id)) as [->|Hne]; [|by apply Hrest]. rewrite Hwid. do 3 f_equal. congruence.
Qed.

(** Requests of named actors, one a second. *)
Fixpoint run (cfg : VersionPolicy) (now : Z) (requests : list (string * command)) (t : Tables) : result version_error Tables :=
  match requests with
  | [] => Ok t
  | (actor, c) :: requests' =>
      t' ← execute json_valid encode_policy_set cfg (fun _ => true) actor now c t; run cfg (now + 1) requests' t'
  end.

Lemma run_reachable cfg now requests t t' :
  reachable json_valid encode_policy_set cfg t -> run cfg now requests t = Ok t' -> reachable json_valid encode_policy_set cfg t'.
Proof.
  revert now t. induction requests as [|[actor c] requests IH]; intros now t Hr; cbn [run]; [by intros [= <-]|].
  intros (t1 & He & Hrun)%bind_Ok. eapply IH; [|exact Hrun]. by eapply reachable_step.
Qed.
End requests.

(** ** Witnesses *)

Fixpoint repeated (n : nat) : string := match n with O => "" | S n' => String "0" (repeated n') end.
#[local] Instance zero_digest : PolicyDigest :=
  {| rules_digest := fun _ => repeated 64; request_digest := fun _ => ""; set_digest := fun _ => repeated 64;
     rule_digest := fun _ => ""; text_digest := fun s => s |}.
#[local] Instance no_chain_digest : ChainDigest := fun _ => "".
#[local] Instance guests_decoder : PolicySetDecoder := fun _ => Some example_guests.

Definition strict : VersionPolicy := mkVersionPolicy true 1 true 8.
Definition any_json (_ : string) : bool := true.
Definition encode_any (_ : PolicySet) : string := "{}".
Definition empty_tables : Tables := mkTables ∅ 0 ∅ [] [].
Definition first_version : list (string * command) :=
  [("alice", Create example_guests "" 0 0 true); (" bob", Approve 1 ""); ("alice", Activate 1 "" false)].
Definition second_version : list (string * command) :=
  [("bob", Create example_guests "" 0 0 false); ("bob", Submit 2); ("carol", Approve 2 ""); ("bob", Activate 2 "" false)].

Definition tables_after (requests : list (string * command)) : Tables :=
  match run any_json encode_any strict 0 requests empty_tables with Ok t => t | Err _ => empty_tables end.

Lemma reached requests :
  is_Ok (run any_json encode_any strict 0 requests empty_tables) = true ->
  reachable any_json encode_any strict (tables_after requests).
Proof.
  unfold tables_after. destruct (run _ _ strict 0 requests empty_tables) as [t|] eqn:E; [|done]. intros _.
  eapply run_reachable; [|exact E]. apply reachable_empty.
Qed.

Definition statuses (t : Tables) : list (Z * version_status) :=
  map (fun '(id, v) => (id, PVStatus v)) (map_to_list (Versions t)).

Example two_versions : statuses (tables_after (first_version ++ second_version)) = [(2, Active); (1, Superseded)].
Proof. reflexivity. Qed.

Example no_self_approval :
  match run any_json encode_any strict 0 [("Alice", Create example_guests "" 0 0 true); ("alice ", Approve 1 "")] empty_tables with
  | Err CreatorCannotApprove => true | _ => false end = true.
Proof. reflexivity. Qed.

(** What the witnesses look at in a row. *)
Definition row_view (t : Tables) (id : Z) : option (string * string * Z * version_status) :=
  (fun v => (PVSetKey v, PVTenant v, PVVersion v, PVStatus v)) <$> Versions t !! id.

Lemma versions_consistent_witness :
  exists v w, Versions (tables_after (first_version ++ second_version)) !! 1 = Some v
    /\ Versions (tables_after (first_version ++ second_version)) !! 2 = Some w /\ PVVersion v <> PVVersion w.
Proof.
  assert (Hr := reached (first_version ++ second_version) ltac:(vm_compute; reflexivity)).
  assert (row_view (tables_after (first_version ++ second_version)) 1 = Some ("guests", "", 1, Superseded)) as H1 by (vm_compute; reflexivity).
  assert (row_view (tables_after (first_version ++ second_version)) 2 = Some ("guests", "", 2, Active)) as H2 by (vm_compute; reflexivity).
  revert Hr H1 H2. generalize (tables_after (first_version ++ second_version)). intros t Hr H1 H2.
  apply fmap_Some in H1 as (v & Hv & [= K1 T1 V1 S1]). apply fmap_Some in H2 as (w & Hw & [= K2 T2 V2 S2]).
  exists v, w. split; [exact Hv|]. split; [exact Hw|]. intros Heq.
  assert (Hc := proj1 (proj2 (versions_consistent any_json encode_any strict t Hr 1 2 v w Hv Hw ltac:(congruence) ltac:(congruence))) Heq).
  discriminate Hc.
Defined.

Lemma four_eyes_witness :
  exists persons : list string, NoDup persons /\ 1 <= zlen persons.
Proof.
  assert (Hr := reached first_version ltac:(vm_compute; reflexivity)).
  assert (row_view (tables_after first_version) 1 = Some ("guests", "", 1, Active)) as H1 by (vm_compute; reflexivity).
  revert Hr H1. generalize (tables_after first_version). intros t Hr H1. apply fmap_Some in H1 as (v & Hv & [= _ _ _ S1]).
  destruct (four_eyes any_json encode_any strict t 1 v Hr eq_refl Hv ltac:(rewrite <- S1; right; left)) as (persons & Hd & Hl & _).
  exists persons. exact (conj Hd Hl).
Defined.

Lemma activatePolicySetVersion_spec_witness :
  exists t', activatePolicySetVersion strict (fun _ => true) 1 "alice" "again" true 9 (tables_after (first_version ++ second_version)) = Ok t'
    /\ exists set rules, FlattenPolicySet set 8 = Ok rules /\ PolicyRules t' = (stored_rule <$> rules).
Proof.
  assert (Hr := reached (first_version ++ second_version) ltac:(vm_compute; reflexivity)).
  assert (row_view (tables_after (first_version ++ second_version)) 1 = Some ("guests", "", 1, Superseded)) as H1 by (vm_compute; reflexivity).
  assert (is_Ok (activatePolicySetVersion strict (fun _ => true) 1 "alice" "again" true 9
                   (tables_after (first_version ++ second_version))) = true) as Hok by (vm_compute; reflexivity).
  revert Hr H1 Hok. generalize (tables_after (first_version ++ second_version)). intros t Hr H1 Hok.
  destruct (activatePolicySetVersion strict (fun _ => true) 1 "alice" "again" true 9 t) as [t'|e] eqn:E; [|discriminate Hok].
  exists t'. split; [reflexivity|].
  destruct (activatePolicySetVersion_spec any_json encode_any strict (fun _ => true) 1 "alice" "again" true 9 t t' Hr E)
    as (v & set & rules & Hv & _ & _ & _ & _ & Hf & Hrules & _).
  exists set, rules. split; [exact Hf|]. rewrite Hrules. apply fmap_Some in H1 as (w & Hw & [= _ T1 _ _]).
  assert (v = w) as -> by congruence. rewrite <- T1. reflexivity.
Defined.
