(* ===== verification/SimulationAnalysis.v ===== *)
(** * The analysis of a policy before its activation ([internal/policy/simulation_analysis.go])

    Retained requests are replayed under the active rules and under a candidate's. The analysis counts
    the decisions that differ, lists examples, counts for each candidate rule how often it matched and
    how often leaving it out alters the decision, and classifies the risk. The digest of a decision is a
    parameter. All evaluations of one analysis read the same wall clock. The two percentages of the
    classification are compared exactly, which agrees with the division in floating point for fewer than
    2^50 samples. *)

From S2P Require Import Prelude GoStrings Bytes ServiceChain PolicyTypes PolicyTyped PolicySets PolicyEngine.

(** What [decisionFingerprint] encodes: absent and empty fields look alike. *)
Record DecisionView := mkDecisionView {
  ViewAllow : bool; ViewQuarantine : bool; ViewRole : string; ViewFilterID : string; ViewPolicyTag : string; ViewVLAN : Z;
  ViewBandwidthProfile : string; ViewSessionTimeout : Z; ViewIdleTimeout : Z; ViewPortalProfile : string; ViewACLPolicyName : string;
  ViewDeviceGroup : string; ViewTenant : string; ViewServiceChainHash : string; ViewNotes : list string }.

(** SHA-256 of the view's JSON *)
Class DecisionDigest := decision_digest : DecisionView -> string.

Record SimulationAnalysisOptions := mkSimulationAnalysisOptions {
  MaxSamples : Z; MaxExamples : Z; IncludeTrace : bool; AnalyzeRuleImpact : bool }.

Record RuleImpact := mkRuleImpact {
  ImName : string; ImPriority : Z; ImEnabled : bool; ImMatchedCount : Z; ImImpactCount : Z; ImReason : string }.

(** The counters of changed decisions. *)
Record ChangeCounts := mkChangeCounts {
  AllowToDenyCount : Z; DenyToAllowCount : Z; QuarantineChangeCount : Z; VLANChangeCount : Z; BandwidthProfileChangeCount : Z;
  ACLPolicyChangeCount : Z; PortalProfileChangeCount : Z; SessionTimeoutChangeCount : Z; ServiceChainChangeCount : Z }.

Section analysis.
Context {N : Numbers} {U : Unicode} {R : MapRange} {J : Json} {RE : Regexp} {IA : IPAddr}.
Context {CD : ChainDigest} {D : PolicyDigest} {DD : DecisionDigest}.

(** [ReplaySample]; what was decided at the time is carried along and not read. *)
Record ReplaySample := mkReplaySample {
  SmSource : string; SmEvaluationID : string; SmRequest : Request; SmLabels : gmap string string }.

Record DecisionDelta := mkDecisionDelta {
  DtIndex : Z; DtSource : string; DtEvaluationID : string; DtRequestHash : string; DtChangedFields : list string;
  DtActiveDecision : Decision_; DtCandidateDecision : Decision_; DtActiveMatched : list MatchedRule; DtCandidateMatched : list MatchedRule;
  DtActiveConflicts : list string; DtCandidateConflicts : list string; DtLabels : gmap string string }.

Record PolicySimulationAnalysis := mkPolicySimulationAnalysis {
  SchemaVersion : Z; AnalysisID : string; GeneratedAt : Z; ActivePolicySetHash : string; CandidatePolicySetHash : string;
  SampleCount : Z; DecisionChangeCount : Z; Changes : ChangeCounts; ConflictCount : Z; InvalidRuleCount : Z;
  ShadowedRules : list RuleImpact; IneffectiveRules : list RuleImpact; Deltas : list DecisionDelta; RiskLevel : string; Recommendation : string }.

Definition PolicySimulationAnalysisSchemaVersion : Z := 1.

Definition normalizeSimulationAnalysisOptions (opts : SimulationAnalysisOptions) : SimulationAnalysisOptions :=
  let samples := if MaxSamples opts <? 0 then 0 else MaxSamples opts in
  let examples := if (MaxExamples opts <=? 0) || (MaxExamples opts >? 100) then 25 else MaxExamples opts in
  let samples := if samples >? 10000 then 10000 else samples in
  mkSimulationAnalysisOptions samples examples (IncludeTrace opts) (if negb (AnalyzeRuleImpact opts) then true else AnalyzeRuleImpact opts).

Definition stringPtrValue (value : option string) : string := match value with None => "" | Some v => TrimSpace v end.
Definition intPtrValue (value : option Z) : Z := match value with None => 0 | Some v => v end.

Definition field_if (changed : bool) (name : string) : list string := if changed then [name] else [].
Definition strings_differ (a b : option string) : bool := negb (stringPtrValue a =? stringPtrValue b)%string.
Definition ints_differ (a b : option Z) : bool := negb (intPtrValue a =? intPtrValue b).

Definition changedDecisionFields (active candidate : Decision_) : list string :=
  field_if (xorb (DAllow active) (DAllow candidate)) "allow"
  ++ field_if (xorb (DQuarantine active) (DQuarantine candidate)) "quarantine"
  ++ field_if (strings_differ (DRole active) (DRole candidate)) "role"
  ++ field_if (strings_differ (DFilterID active) (DFilterID candidate)) "filter_id"
  ++ field_if (strings_differ (DPolicyTag active) (DPolicyTag candidate)) "policy_tag"
  ++ field_if (ints_differ (DVLAN active) (DVLAN candidate)) "vlan"
  ++ field_if (strings_differ (DBandwidthProfile active) (DBandwidthProfile candidate)) "bandwidth_profile"
  ++ field_if (ints_differ (DSessionTimeout active) (DSessionTimeout candidate)) "session_timeout"
  ++ field_if (ints_differ (DIdleTimeout active) (DIdleTimeout candidate)) "idle_timeout"
  ++ field_if (strings_differ (DPortalProfile active) (DPortalProfile candidate)) "portal_profile"
  ++ field_if (strings_differ (DACLPolicyName active) (DACLPolicyName candidate)) "acl_policy_name"
  ++ field_if (strings_differ (DDeviceGroup active) (DDeviceGroup candidate)) "device_group"
  ++ field_if (strings_differ (DTenant active) (DTenant candidate)) "tenant"
  ++ field_if (negb (ServiceChainHash (DServiceChain active) =? ServiceChainHash (DServiceChain candidate))%string) "service_chain".

(** The switch over the field's name. *)
Definition count_field (counts : ChangeCounts) (field : string) : ChangeCounts :=
  let '(mkChangeCounts ad da q v b a p t s) := counts in
  if (field =? "quarantine")%string then mkChangeCounts ad da (q + 1) v b a p t s
  else if (field =? "vlan")%string then mkChangeCounts ad da q (v + 1) b a p t s
  else if (field =? "bandwidth_profile")%string then mkChangeCounts ad da q v (b + 1) a p t s
  else if (field =? "acl_policy_name")%string then mkChangeCounts ad da q v b (a + 1) p t s
  else if (field =? "portal_profile")%string then mkChangeCounts ad da q v b a (p + 1) t s
  else if (field =? "session_timeout")%string || (field =? "idle_timeout")%string then mkChangeCounts ad da q v b a p (t + 1) s
  else if (field =? "service_chain")%string then mkChangeCounts ad da q v b a p t (s + 1)
  else counts.

Definition incrementChangeCounters (counts : ChangeCounts) (active candidate : Decision_) (fields : list string) : ChangeCounts :=
  let '(mkChangeCounts ad da q v b a p t s) := counts in
  let ad := if DAllow active && negb (DAllow candidate) then ad + 1 else ad in
  let da := if negb (DAllow active) && DAllow candidate then da + 1 else da in
  foldl count_field (mkChangeCounts ad da q v b a p t s) fields.

Definition optionalConflicts (conflicts : list string) (include : bool) : list string :=
  if negb include || (zlen conflicts =? 0) then [] else conflicts.

Fixpoint removeRuleByName (rules : list Rule) (name : string) : list Rule :=
  match rules with
  | [] => []
  | rule :: rules' => if EqualFold (RuleName rule) name then rules' else rule :: removeRuleByName rules' name
  end.

Definition decision_view (d : Decision_) : DecisionView :=
  mkDecisionView (DAllow d) (DQuarantine d) (stringPtrValue (DRole d)) (stringPtrValue (DFilterID d)) (stringPtrValue (DPolicyTag d))
    (intPtrValue (DVLAN d)) (stringPtrValue (DBandwidthProfile d)) (intPtrValue (DSessionTimeout d)) (intPtrValue (DIdleTimeout d))
    (stringPtrValue (DPortalProfile d)) (stringPtrValue (DACLPolicyName d)) (stringPtrValue (DDeviceGroup d)) (stringPtrValue (DTenant d))
    (ServiceChainHash (DServiceChain d)) (DNotes d).

Definition decisionFingerprint (d : Decision_) : string := decision_digest (decision_view d).

Definition count_of (counts : gmap string Z) (name : string) : Z := default 0 (counts !! name).
Definition count_up (counts : gmap string Z) (name : string) : gmap string Z := <[name := count_of counts name + 1]> counts.

(** ** The report on the rules *)

Definition impact_less (x y : RuleImpact) : bool :=
  if ImMatchedCount x =? ImMatchedCount y then
    if ImPriority x =? ImPriority y then string_less (ImName x) (ImName y) else ImPriority x >? ImPriority y
  else ImMatchedCount x <? ImMatchedCount y.

Definition sortRuleImpacts (items : list RuleImpact) : list RuleImpact := sort_by impact_less items.

Definition impact_item (matched impact : gmap string Z) (name : string) (rule : Rule) (reason : string) : RuleImpact :=
  mkRuleImpact name (RulePriority rule) (RuleEnabled rule) (count_of matched name) (count_of impact name) reason.

(** The loop of [analyzeRuleImpact]: the shadowed rules and the ineffective ones, in the rules' order. *)
Fixpoint rule_impacts (seen : gset string) (rules : list Rule) (matched impact : gmap string Z) (includeImpact : bool)
    : list RuleImpact * list RuleImpact :=
  match rules with
  | [] => ([], [])
  | rule :: rules' =>
      let name := TrimSpace (RuleName rule) in
      if (name =? "")%string || bool_decide (name ∈ seen) then rule_impacts seen rules' matched impact includeImpact
      else
        let '(shadowed, ineffective) := rule_impacts ({[name]} ∪ seen) rules' matched impact includeImpact in
        let item := impact_item matched impact name rule in
        if negb (RuleEnabled rule) then (item "rule disabled" :: shadowed, ineffective)
        else if count_of matched name =? 0 then (item "no replay sample matched this rule" :: shadowed, ineffective)
        else if includeImpact && (count_of impact name =? 0)
        then (shadowed, item "matched during replay but removing it did not alter final decisions" :: ineffective)
        else (shadowed, ineffective)
  end.

Definition analyzeRuleImpact (rules : list Rule) (matched impact : gmap string Z) (includeImpact : bool) : list RuleImpact * list RuleImpact :=
  let '(shadowed, ineffective) := rule_impacts ∅ rules matched impact includeImpact in
  (sortRuleImpacts shadowed, sortRuleImpacts ineffective).

(** [changePct >= 0.25] is [4 * changes >= samples], [changePct >= 0.10] is [10 * changes >= samples]. *)
Definition classifySimulationRisk (samples changes : Z) (counts : ChangeCounts) (conflicts : Z) (shadowed ineffective : list RuleImpact) : string * string :=
  if samples =? 0 then
    ("unknown", "No replay samples were available; run analysis with manual samples or retained policy evaluations before activation.")
  else if (DenyToAllowCount counts >? 0) || (conflicts >? 0) || (4 * changes >=? samples) then
    ("critical", "Review required before activation; candidate policy expands access, introduces conflicts, or changes at least 25% of replayed requests.")
  else if (AllowToDenyCount counts >? 0) || (QuarantineChangeCount counts >? 0) || (10 * changes >=? samples) then
    ("high", "Approval should include business-owner review; candidate policy denies or quarantines previously accepted traffic or changes at least 10% of samples.")
  else if (changes >? 0) || (zlen shadowed >? 0) || (zlen ineffective >? 0) then
    ("medium", "Candidate policy changes a bounded set of replayed requests or contains rules that need cleanup.")
  else
    ("low", "No decision changes were observed in replay samples; proceed through normal approval and external certification checks.").

(** ** The replay *)

(** The evaluation ids and the layout of a time. *)
Context (evaluation_id : string -> string -> Z -> string) (rfc3339 : Z -> string).

Definition newSimulationAnalysisID (activeHash candidateHash : string) (generatedAt : Z) (samples : list ReplaySample) : string :=
  let written := foldl (fun h sample => h +:+ RequestHash (Some (SmRequest sample)) +:+ SmSource sample +:+ SmEvaluationID sample)
                   (activeHash +:+ candidateHash +:+ rfc3339 generatedAt) samples in
  "psa-" +:+ String.substring 0 24 (text_digest written).

Definition replay (rules : list Rule) (wall : Z) (sample : ReplaySample) : EvaluationResult :=
  EvaluateRules evaluation_id (Some (SmRequest sample)) rules wall.

(** The fields of the analysis that the loop changes, and its two maps. *)
Record Progress := mkProgress {
  PgConflicts : Z; PgInvalid : Z; PgChanged : Z; PgCounts : ChangeCounts; PgDeltas : list DecisionDelta;
  PgMatched : gmap string Z; PgImpact : gmap string Z }.

Definition no_progress : Progress := mkProgress 0 0 0 (mkChangeCounts 0 0 0 0 0 0 0 0 0) [] ∅ ∅.

(** The inner loop over the matched rules. *)
Definition count_impacts (rules : list Rule) (wall : Z) (sample : ReplaySample) (candidate : EvaluationResult) (impact : gmap string Z) : gmap string Z :=
  foldl (fun impact matched =>
    let without := removeRuleByName rules (MName matched) in
    if zlen without =? zlen rules then impact
    else
      let omitted := replay without wall sample in
      if negb (decisionFingerprint (EDecision omitted) =? decisionFingerprint (EDecision candidate))%string
      then count_up impact (MName matched) else impact) impact (EMatchedRules candidate).

Definition analyze_sample (activeRules candidateRules : list Rule) (opts : SimulationAnalysisOptions) (wall : Z) (i : Z) (sample : ReplaySample) (pg : Progress) : Progress :=
  let active := replay activeRules wall sample in
  let candidate := replay candidateRules wall sample in
  let changed := changedDecisionFields (EDecision active) (EDecision candidate) in
  let '(changes, counts, deltas) :=
    if zlen changed >? 0 then
      (PgChanged pg + 1, incrementChangeCounters (PgCounts pg) (EDecision active) (EDecision candidate) changed,
       if zlen (PgDeltas pg) <? MaxExamples opts then
         PgDeltas pg ++ [mkDecisionDelta i (SmSource sample) (SmEvaluationID sample) (ERequestHash candidate) changed (EDecision active) (EDecision candidate)
                           (EMatchedRules active) (EMatchedRules candidate) (optionalConflicts (EConflicts active) (IncludeTrace opts))
                           (optionalConflicts (EConflicts candidate) (IncludeTrace opts)) (SmLabels sample)]
       else PgDeltas pg)
    else (PgChanged pg, PgCounts pg, PgDeltas pg) in
  mkProgress (PgConflicts pg + zlen (EConflicts candidate)) (PgInvalid pg + EInvalidRuleCount candidate) changes counts deltas
    (foldl (fun m matched => count_up m (MName matched)) (PgMatched pg) (EMatchedRules candidate))
    (if AnalyzeRuleImpact opts then count_impacts candidateRules wall sample candidate (PgImpact pg) else PgImpact pg).

Fixpoint analyze_samples (activeRules candidateRules : list Rule) (opts : SimulationAnalysisOptions) (wall : Z) (i : Z) (samples : list ReplaySample) (pg : Progress) : Progress :=
  match samples with
  | [] => pg
  | sample :: samples' => analyze_samples activeRules candidateRules opts wall (i + 1) samples' (analyze_sample activeRules candidateRules opts wall i sample pg)
  end.

(** The samples replayed. *)
Definition considered (opts : SimulationAnalysisOptions) (samples : list ReplaySample) : list ReplaySample :=
  let opts := normalizeSimulationAnalysisOptions opts in
  if (MaxSamples opts >? 0) && (zlen samples >? MaxSamples opts) then take (Z.to_nat (MaxSamples opts)) samples else samples.

Definition AnalyzePolicySimulation (activeRules candidateRules : list Rule) (samples : list ReplaySample) (opts : SimulationAnalysisOptions) (wall : Z) : PolicySimulationAnalysis :=
  let samples := considered opts samples in
  let opts := normalizeSimulationAnalysisOptions opts in
  let activeHash := PolicySetHash activeRules in
  let candidateHash := PolicySetHash candidateRules in
  let pg := analyze_samples activeRules candidateRules opts wall 0 samples no_progress in
  let '(shadowed, ineffective) := analyzeRuleImpact candidateRules (PgMatched pg) (PgImpact pg) (AnalyzeRuleImpact opts) in
  let '(risk, recommendation) := classifySimulationRisk (zlen samples) (PgChanged pg) (PgCounts pg) (PgConflicts pg) shadowed ineffective in
  mkPolicySimulationAnalysis PolicySimulationAnalysisSchemaVersion (newSimulationAnalysisID activeHash candidateHash wall samples) wall activeHash candidateHash
    (zlen samples) (PgChanged pg) (PgCounts pg) (PgConflicts pg) (PgInvalid pg) shadowed ineffective (PgDeltas pg) risk recommendation.

(** ** Counting *)

Definition tally (p : ReplaySample -> bool) (samples : list ReplaySample) : Z := zlen (List.filter p samples).

Lemma tally_cons p s samples : tally p (s :: samples) = Z.b2z (p s) + tally p samples.
Proof. unfold tally. cbn [List.filter]. destruct (p s); cbn [Z.b2z]; rewrite ?zlen_cons; lia. Qed.

Lemma tally_nonneg p samples : 0 <= tally p samples.
Proof. apply zlen_nonneg. Qed.

Lemma tally_pos p samples : 0 < tally p samples <-> exists s, s ∈ samples /\ p s = true.
Proof.
  induction samples as [|s samples IH].
  - split; [by intros ?%Z.lt_irrefl|]. by intros (s & ?%not_elem_of_nil & _).
  - rewrite tally_cons. pose proof (tally_nonneg p samples). split.
    + intros Hpos. destruct (p s) eqn:E; [exists s; by split; [left|]|]. cbn in Hpos. destruct IH as [(t & ? & ?) _]; [lia|].
      exists t. by split; [right|].
    + intros (t & [->|Ht]%elem_of_cons & Hp); [rewrite Hp; cbn; lia|]. destruct (p s); cbn; [lia|]. apply IH. by exists t.
Qed.

Lemma tally_zero p samples : tally p samples = 0 <-> forall s, s ∈ samples -> p s = false.
Proof.
  pose proof (tally_nonneg p samples). split.
  - intros H0 s Hs. destruct (p s) eqn:E; [|done]. assert (0 < tally p samples) by (apply tally_pos; by exists s). lia.
  - intros Hno. destruct (decide (0 < tally p samples)) as [Hp|]; [|lia]. apply tally_pos in Hp as (s & Hs & Hp). by rewrite (Hno s Hs) in Hp.
Qed.

Lemma field_if_nil b name : field_if b name = [] <-> b = false.
Proof. by destruct b. Qed.

Lemma xorb_false a b : xorb a b = false <-> a = b.
Proof. by destruct a, b. Qed.

Definition without_notes (v : DecisionView) : DecisionView :=
  mkDecisionView (ViewAllow v) (ViewQuarantine v) (ViewRole v) (ViewFilterID v) (ViewPolicyTag v) (ViewVLAN v) (ViewBandwidthProfile v)
    (ViewSessionTimeout v) (ViewIdleTimeout v) (ViewPortalProfile v) (ViewACLPolicyName v) (ViewDeviceGroup v) (ViewTenant v)
    (ViewServiceChainHash v) [].

(** No field changed: the decisions look alike, but for their notes. *)
Lemma changedDecisionFields_nil a c : changedDecisionFields a c = [] <-> without_notes (decision_view a) = without_notes (decision_view c).
Proof.
  unfold changedDecisionFields. rewrite !app_nil, !field_if_nil. unfold strings_differ, ints_differ, without_notes, decision_view.
  cbn [ViewAllow ViewQuarantine ViewRole ViewFilterID ViewPolicyTag ViewVLAN ViewBandwidthProfile ViewSessionTimeout ViewIdleTimeout
    ViewPortalProfile ViewACLPolicyName ViewDeviceGroup ViewTenant ViewServiceChainHash].
  rewrite !negb_false_iff, !String.eqb_eq, !Z.eqb_eq, !xorb_false. split; [intros (? & ? & ? & ? & ? & ? & ? & ? & ? & ? & ? & ? & ? & ?); f_equal; assumption|]. intros [= ]. split_and!; assumption.
Qed.

(** The weight of a list of fields in a counter. *)
Definition weight (w : string -> bool) (fields : list string) : Z := foldr (fun name z => Z.b2z (w name) + z) 0 fields.

Lemma weight_app w l k : weight w (l ++ k) = weight w l + weight w k.
Proof. unfold weight. induction l as [|x l IH]; [done|]. cbn [app foldr]. rewrite IH. lia. Qed.

Lemma weight_field_if w b name : weight w (field_if b name) = Z.b2z (b && w name).
Proof. destruct b; cbn; [lia|done]. Qed.

Lemma fold_count_field (f : ChangeCounts -> Z) (w : string -> bool) k fields :
  (forall k name, f (count_field k name) = f k + Z.b2z (w name)) -> f (foldl count_field k fields) = f k + weight w fields.
Proof. intros Hf. revert k. induction fields as [|name fields IH]; intros k; [cbn; lia|].
  cbn [foldl]. rewrite IH, Hf. unfold weight. cbn [foldr]. lia. Qed.

(** [count_field] on a field for which the counter has this weight. *)
Ltac count_one := intros [] name; unfold count_field;
  repeat (case_match; [match goal with H : (_ || _) = true |- _ => apply orb_true_iff in H as [H|H] | _ => idtac end;
                       match goal with H : (name =? _)%string = true |- _ => apply String.eqb_eq in H; subst name end; cbn; lia|]);
  cbn; repeat match goal with H : (name =? _)%string = false |- _ => rewrite H; clear H end; cbn; lia.

(** The weights of the changed fields, one by one. *)
Ltac count_out f w := rewrite (fold_count_field f w) by count_one; rewrite !weight_app, !weight_field_if;
  cbn [AllowToDenyCount DenyToAllowCount QuarantineChangeCount VLANChangeCount BandwidthProfileChangeCount ACLPolicyChangeCount
    PortalProfileChangeCount SessionTimeoutChangeCount ServiceChainChangeCount String.eqb Ascii.eqb Bool.eqb orb andb];
  rewrite ?andb_false_r, ?andb_true_r; cbn [Z.b2z]; repeat case_match; cbn [Z.b2z]; lia.

(** What one changed decision adds to the counters. *)
Lemma incrementChangeCounters_spec (k : ChangeCounts) (a c : Decision_) : let k' := incrementChangeCounters k a c (changedDecisionFields a c) in
  AllowToDenyCount k' = AllowToDenyCount k + Z.b2z (DAllow a && negb (DAllow c))
  /\ DenyToAllowCount k' = DenyToAllowCount k + Z.b2z (negb (DAllow a) && DAllow c)
  /\ QuarantineChangeCount k' = QuarantineChangeCount k + Z.b2z (xorb (DQuarantine a) (DQuarantine c))
  /\ VLANChangeCount k' = VLANChangeCount k + Z.b2z (ints_differ (DVLAN a) (DVLAN c))
  /\ BandwidthProfileChangeCount k' = BandwidthProfileChangeCount k + Z.b2z (strings_differ (DBandwidthProfile a) (DBandwidthProfile c))
  /\ ACLPolicyChangeCount k' = ACLPolicyChangeCount k + Z.b2z (strings_differ (DACLPolicyName a) (DACLPolicyName c))
  /\ PortalProfileChangeCount k' = PortalProfileChangeCount k + Z.b2z (strings_differ (DPortalProfile a) (DPortalProfile c))
  /\ SessionTimeoutChangeCount k' = SessionTimeoutChangeCount k + Z.b2z (ints_differ (DSessionTimeout a) (DSessionTimeout c))
       + Z.b2z (ints_differ (DIdleTimeout a) (DIdleTimeout c))
  /\ ServiceChainChangeCount k' = ServiceChainChangeCount k + Z.b2z (negb (ServiceChainHash (DServiceChain a) =? ServiceChainHash (DServiceChain c))%string).
Proof.
  cbv zeta. unfold incrementChangeCounters, changedDecisionFields. destruct k as [ad da q v b p o t s].
  split_and!.
  - count_out AllowToDenyCount (fun _ : string => false).
  - count_out DenyToAllowCount (fun _ : string => false).
  - count_out QuarantineChangeCount (fun name => name =? "quarantine")%string.
  - count_out VLANChangeCount (fun name => name =? "vlan")%string.
  - count_out BandwidthProfileChangeCount (fun name => name =? "bandwidth_profile")%string.
  - count_out ACLPolicyChangeCount (fun name => name =? "acl_policy_name")%string.
  - count_out PortalProfileChangeCount (fun name => name =? "portal_profile")%string.
  - count_out SessionTimeoutChangeCount (fun name => (name =? "session_timeout") || (name =? "idle_timeout"))%string.
  - count_out ServiceChainChangeCount (fun name => name =? "service_chain")%string.
Qed.

Lemma incrementChangeCounters_nil k a c : changedDecisionFields a c = [] -> incrementChangeCounters k a c (changedDecisionFields a c) = k.
Proof.
  intros Hnil. rewrite Hnil. apply changedDecisionFields_nil, (f_equal ViewAllow) in Hnil. cbn in Hnil. destruct k. cbn. rewrite Hnil.
  by destruct (DAllow c).
Qed.

(** Sums over the samples. *)
Definition total (g : ReplaySample -> Z) (samples : list ReplaySample) : Z := foldr (fun s z => g s + z) 0 samples.

Lemma total_tally p samples : total (fun s => Z.b2z (p s)) samples = tally p samples.
Proof. induction samples as [|s samples IH]; [done|]. rewrite tally_cons, <- IH. done. Qed.

Lemma total_add g h samples : total (fun s => g s + h s) samples = total g samples + total h samples.
Proof. unfold total. induction samples as [|s samples IH]; [done|]. cbn [foldr]. rewrite IH. lia. Qed.

Lemma total_nonneg g samples : (forall s, 0 <= g s) -> 0 <= total g samples.
Proof. intros Hg. unfold total. induction samples as [|s samples IH]; cbn [foldr]; [lia|]. specialize (Hg s). lia. Qed.

Lemma total_zero g samples : (forall s, 0 <= g s) -> total g samples = 0 <-> forall s, s ∈ samples -> g s = 0.
Proof.
  intros Hg. unfold total. induction samples as [|s samples IH]; cbn [foldr].
  - split; [|done]. by intros _ s ?%not_elem_of_nil.
  - pose proof (total_nonneg g samples Hg) as Hpos. unfold total in Hpos.
    specialize (Hg s) as Hs. split.
    + intros Hsum. assert (g s = 0) by lia. intros t [->|Ht]%elem_of_cons; [done|]. apply IH; [lia|done].
    + intros Hall. rewrite (Hall s) by left. apply IH. intros t Ht. apply Hall. by right.
Qed.

Lemma total_plus_0 g samples : (forall s, 0 <= g s) -> 0 + total g samples = 0 <-> forall s, s ∈ samples -> g s = 0.
Proof. rewrite Z.add_0_l. apply total_zero. Qed.

(** A fold that counts the names of the chosen elements. *)
Lemma fold_count_up {A} (F : gmap string Z -> A -> gmap string Z) (p : A -> bool) (key : A -> string) l m name :
  (forall m x, F m x = if p x then count_up m (key x) else m) ->
  count_of (foldl F m l) name = count_of m name + zlen (List.filter (fun x => p x && (key x =? name)%string) l).
Proof.
  intros HF. revert m. induction l as [|x l IH]; intros m; cbn [foldl List.filter]; [change (zlen (@nil A)) with 0; lia|]. rewrite IH, HF.
  destruct (p x); cbn [andb]; [|done]. unfold count_up, count_of. destruct (String.eqb_spec (key x) name) as [->|Hne].
  - rewrite lookup_insert_eq, zlen_cons. cbn. lia.
  - by rewrite lookup_insert_ne.
Qed.

Section replayed.
Context (activeRules candidateRules : list Rule) (wall : Z).

Definition decided (rules : list Rule) (s : ReplaySample) : Decision_ := EDecision (replay rules wall s).
Definition changed (s : ReplaySample) : list string := changedDecisionFields (decided activeRules s) (decided candidateRules s).
Definition alters (s : ReplaySample) : bool := zlen (changed s) >? 0.

Lemma alters_spec s : alters s = true <-> changed s <> [].
Proof. unfold alters. destruct (changed s); [done|]. rewrite zlen_cons. pose proof (zlen_nonneg l). split; [done|lia]. Qed.

(** The changed samples with their indices and decisions. *)
Fixpoint altered (i : Z) (samples : list ReplaySample) : list (Z * list string * Decision_ * Decision_) :=
  match samples with
  | [] => []
  | s :: samples' => if alters s then (i, changed s, decided activeRules s, decided candidateRules s) :: altered (i + 1) samples' else altered (i + 1) samples'
  end.

Definition delta_view (d : DecisionDelta) : Z * list string * Decision_ * Decision_ := (DtIndex d, DtChangedFields d, DtActiveDecision d, DtCandidateDecision d).

Lemma analyze_samples_gain (f : Progress -> Z) (g : ReplaySample -> Z) opts i samples pg :
  (forall i s pg, f (analyze_sample activeRules candidateRules opts wall i s pg) = f pg + g s) ->
  f (analyze_samples activeRules candidateRules opts wall i samples pg) = f pg + total g samples.
Proof.
  intros Hf. revert i pg. induction samples as [|s samples IH]; intros i pg; cbn [analyze_samples]; [cbn; lia|].
  rewrite IH, Hf. unfold total. cbn [foldr]. lia.
Qed.

Lemma analyze_sample_fields opts i s pg : let r := analyze_sample activeRules candidateRules opts wall i s pg in
  PgChanged r = PgChanged pg + Z.b2z (alters s)
  /\ PgCounts r = incrementChangeCounters (PgCounts pg) (decided activeRules s) (decided candidateRules s) (changed s)
  /\ PgConflicts r = PgConflicts pg + zlen (EConflicts (replay candidateRules wall s))
  /\ PgInvalid r = PgInvalid pg + EInvalidRuleCount (replay candidateRules wall s).
Proof.
  unfold analyze_sample, alters, changed, decided. cbv zeta. destruct (_ >? 0) eqn:E; cbn [PgChanged PgCounts PgConflicts PgInvalid Z.b2z]; split_and!; try done; try lia.
  rewrite incrementChangeCounters_nil; [done|]. destruct (changedDecisionFields _ _) as [|f l]; [done|]. rewrite zlen_cons in E. pose proof (zlen_nonneg l). lia.
Qed.

Lemma analyze_samples_deltas opts i samples pg : zlen (PgDeltas pg) <= MaxExamples opts ->
  delta_view <$> PgDeltas (analyze_samples activeRules candidateRules opts wall i samples pg)
  = take (Z.to_nat (MaxExamples opts)) ((delta_view <$> PgDeltas pg) ++ altered i samples).
Proof.
  revert i pg. induction samples as [|s samples IH]; intros i pg Hlen; cbn [analyze_samples altered].
  { rewrite app_nil_r, take_ge; [done|]. rewrite length_fmap. unfold zlen in Hlen. lia. }
  assert (PgDeltas (analyze_sample activeRules candidateRules opts wall i s pg) =
    if alters s then if zlen (PgDeltas pg) <? MaxExamples opts then
      PgDeltas pg ++ [mkDecisionDelta i (SmSource s) (SmEvaluationID s) (ERequestHash (replay candidateRules wall s)) (changed s) (decided activeRules s) (decided candidateRules s)
                           (EMatchedRules (replay activeRules wall s)) (EMatchedRules (replay candidateRules wall s)) (optionalConflicts (EConflicts (replay activeRules wall s)) (IncludeTrace opts))
                           (optionalConflicts (EConflicts (replay candidateRules wall s)) (IncludeTrace opts)) (SmLabels s)]
    else PgDeltas pg else PgDeltas pg) as Hd.
  { unfold analyze_sample, alters, changed, decided. cbv zeta. by destruct (_ >? 0). }
  rewrite IH; rewrite Hd; clear Hd IH.
  - destruct (alters s); [|done]. destruct (zlen (PgDeltas pg) <? MaxExamples opts) eqn:E.
    + rewrite fmap_app, <- app_assoc. done.
    + assert (length (delta_view <$> PgDeltas pg) = Z.to_nat (MaxExamples opts)) as Hl by (rewrite length_fmap; unfold zlen in *; lia).
      by rewrite !take_app_le, !take_ge by lia.
  - destruct (alters s); [|done]. destruct (zlen (PgDeltas pg) <? MaxExamples opts) eqn:E; [|done]. rewrite zlen_app, zlen_cons. change (zlen (@nil DecisionDelta)) with 0. lia.
Qed.

(** One counter of the changed decisions. *)
Lemma counts_gain (f : ChangeCounts -> Z) (g : Decision_ -> Decision_ -> Z) opts i samples pg :
  (forall k a c, f (incrementChangeCounters k a c (changedDecisionFields a c)) = f k + g a c) ->
  f (PgCounts (analyze_samples activeRules candidateRules opts wall i samples pg))
  = f (PgCounts pg) + total (fun s => g (decided activeRules s) (decided candidateRules s)) samples.
Proof.
  intros Hf. apply (analyze_samples_gain (fun pg => f (PgCounts pg))). intros j s pg'.
  destruct (analyze_sample_fields opts j s pg') as (_ & -> & _). apply Hf.
Qed.

Lemma counts_tally (f : ChangeCounts -> Z) (p : Decision_ -> Decision_ -> bool) opts samples :
  (forall k a c, f (incrementChangeCounters k a c (changedDecisionFields a c)) = f k + Z.b2z (p a c)) -> f (PgCounts no_progress) = 0 ->
  f (PgCounts (analyze_samples activeRules candidateRules opts wall 0 samples no_progress))
  = tally (fun s => p (decided activeRules s) (decided candidateRules s)) samples.
Proof. intros Hf H0. rewrite (counts_gain f (fun a c => Z.b2z (p a c))), H0, Z.add_0_l by done. apply (total_tally (fun s => p _ _)). Qed.

(** How often a rule of this name matched, and how often leaving it out altered the decision. *)
Definition matches (name : string) (s : ReplaySample) : Z :=
  zlen (List.filter (fun m => (MName m =? name)%string) (EMatchedRules (replay candidateRules wall s))).

Definition matters (s : ReplaySample) (m : MatchedRule) : bool :=
  let without := removeRuleByName candidateRules (MName m) in
  negb (zlen without =? zlen candidateRules) && negb (decisionFingerprint (decided without s) =? decisionFingerprint (decided candidateRules s))%string.

Definition impacts (name : string) (s : ReplaySample) : Z :=
  zlen (List.filter (fun m => matters s m && (MName m =? name)%string) (EMatchedRules (replay candidateRules wall s))).

Lemma matched_gain name opts i samples pg :
  count_of (PgMatched (analyze_samples activeRules candidateRules opts wall i samples pg)) name = count_of (PgMatched pg) name + total (matches name) samples.
Proof.
  apply (analyze_samples_gain (fun pg => count_of (PgMatched pg) name)). intros j s pg'. unfold analyze_sample. cbv zeta.
  destruct (if _ >? 0 then _ else _) as [[? ?] ?]. cbn [PgMatched].
  by rewrite (fold_count_up _ (fun _ => true) MName).
Qed.

Lemma impact_gain name opts i samples pg : AnalyzeRuleImpact opts = true ->
  count_of (PgImpact (analyze_samples activeRules candidateRules opts wall i samples pg)) name = count_of (PgImpact pg) name + total (impacts name) samples.
Proof.
  intros Hopt. apply (analyze_samples_gain (fun pg => count_of (PgImpact pg) name)). intros j s pg'. unfold analyze_sample. cbv zeta.
  destruct (if _ >? 0 then _ else _) as [[? ?] ?]. cbn [PgImpact]. rewrite Hopt. unfold count_impacts.
  rewrite (fold_count_up _ (matters s) MName); [done|]. intros m x. unfold matters, decided. cbv zeta. destruct (zlen _ =? zlen _); [done|].
  cbn [negb andb]. by destruct (negb _).
Qed.
End replayed.

Lemma normalize_impact opts : AnalyzeRuleImpact (normalizeSimulationAnalysisOptions opts) = true.
Proof. unfold normalizeSimulationAnalysisOptions. cbn. by destruct (AnalyzeRuleImpact opts). Qed.

Lemma normalize_examples opts : 0 < MaxExamples (normalizeSimulationAnalysisOptions opts) <= 100.
Proof. unfold normalizeSimulationAnalysisOptions. cbn. destruct (_ || _) eqn:E; bool_arith; lia. Qed.

(** The analysis, with the loop's result named. *)
Definition final_progress (activeRules candidateRules : list Rule) (samples : list ReplaySample) (opts : SimulationAnalysisOptions) (wall : Z) : Progress :=
  analyze_samples activeRules candidateRules (normalizeSimulationAnalysisOptions opts) wall 0 (considered opts samples) no_progress.

Lemma AnalyzePolicySimulation_fields activeRules candidateRules samples opts wall :
  let a := AnalyzePolicySimulation activeRules candidateRules samples opts wall in
  let pg := final_progress activeRules candidateRules samples opts wall in
  SampleCount a = zlen (considered opts samples) /\ DecisionChangeCount a = PgChanged pg /\ Changes a = PgCounts pg
  /\ ConflictCount a = PgConflicts pg /\ InvalidRuleCount a = PgInvalid pg /\ Deltas a = PgDeltas pg
  /\ (ShadowedRules a, IneffectiveRules a) = analyzeRuleImpact candidateRules (PgMatched pg) (PgImpact pg) true
  /\ (RiskLevel a, Recommendation a)
     = classifySimulationRisk (SampleCount a) (DecisionChangeCount a) (Changes a) (ConflictCount a) (ShadowedRules a) (IneffectiveRules a).
Proof.
  cbv zeta. unfold AnalyzePolicySimulation. fold (final_progress activeRules candidateRules samples opts wall). rewrite normalize_impact.
  destruct (analyzeRuleImpact _ _ _ _) as [sh ie]. destruct (classifySimulationRisk _ _ _ _ _ _) as [risk rec] eqn:E. cbn. split_and!; done.
Qed.

(** The numbers the classification reads. *)
Lemma analysis_numbers (activeRules candidateRules : list Rule) (samples : list ReplaySample) (opts : SimulationAnalysisOptions) (wall : Z) :
  let a := AnalyzePolicySimulation activeRules candidateRules samples opts wall in
  let replayed := considered opts samples in
  let old := decided wall activeRules in
  let new := decided wall candidateRules in
  SampleCount a = zlen replayed
  /\ DecisionChangeCount a = tally (alters activeRules candidateRules wall) replayed
  /\ AllowToDenyCount (Changes a) = tally (fun s => DAllow (old s) && negb (DAllow (new s))) replayed
  /\ DenyToAllowCount (Changes a) = tally (fun s => negb (DAllow (old s)) && DAllow (new s)) replayed
  /\ QuarantineChangeCount (Changes a) = tally (fun s => xorb (DQuarantine (old s)) (DQuarantine (new s))) replayed
  /\ ConflictCount a = total (fun s => zlen (EConflicts (replay candidateRules wall s))) replayed.
Proof.
  cbv zeta. destruct (AnalyzePolicySimulation_fields activeRules candidateRules samples opts wall) as (-> & -> & -> & -> & _).
  unfold final_progress. set (ops := normalizeSimulationAnalysisOptions opts). set (ss := considered opts samples).
  pose proof (fun k a c => incrementChangeCounters_spec k a c) as Hk. cbv zeta in Hk. split_and!; [done|..].
  - rewrite (analyze_samples_gain _ _ _ PgChanged (fun s => Z.b2z (alters activeRules candidateRules wall s))); [by rewrite total_tally|apply analyze_sample_fields].
  - apply (counts_tally _ _ _ AllowToDenyCount (fun a c => DAllow a && negb (DAllow c))); [intros k a c; apply Hk|done].
  - apply (counts_tally _ _ _ DenyToAllowCount (fun a c => negb (DAllow a) && DAllow c)); [intros k a c; apply Hk|done].
  - apply (counts_tally _ _ _ QuarantineChangeCount (fun a c => xorb (DQuarantine a) (DQuarantine c))); [intros k a c; apply Hk|done].
  - rewrite (analyze_samples_gain _ _ _ PgConflicts (fun s => zlen (EConflicts (replay candidateRules wall s)))); [done|]. apply analyze_sample_fields.
Qed.

(** The bounds of the classification. *)
Lemma classify_low samples changes counts conflicts shadowed ineffective :
  0 <= samples -> 0 <= changes -> 0 <= AllowToDenyCount counts -> 0 <= DenyToAllowCount counts -> 0 <= QuarantineChangeCount counts -> 0 <= conflicts ->
  (classifySimulationRisk samples changes counts conflicts shadowed ineffective).1 = "low" <->
  samples <> 0 /\ changes = 0 /\ AllowToDenyCount counts = 0 /\ DenyToAllowCount counts = 0 /\ QuarantineChangeCount counts = 0 /\ conflicts = 0
  /\ shadowed = [] /\ ineffective = [].
Proof.
  intros. rewrite <- !zlen_0. pose proof (zlen_nonneg shadowed). pose proof (zlen_nonneg ineffective). unfold classifySimulationRisk.
  repeat case_match; cbn; bool_arith; split; done || lia.
Qed.

Lemma classify_critical samples changes counts conflicts shadowed ineffective : samples <> 0 -> 0 < DenyToAllowCount counts ->
  (classifySimulationRisk samples changes counts conflicts shadowed ineffective).1 = "critical".
Proof. intros. unfold classifySimulationRisk. repeat case_match; cbn; bool_arith; done || lia. Qed.

Lemma classify_high samples changes counts conflicts shadowed ineffective :
  samples <> 0 -> 0 < AllowToDenyCount counts \/ 0 < QuarantineChangeCount counts ->
  let risk := (classifySimulationRisk samples changes counts conflicts shadowed ineffective).1 in risk = "high" \/ risk = "critical".
Proof. intros. subst risk. unfold classifySimulationRisk. repeat case_match; cbn; bool_arith; auto; lia. Qed.

Lemma zlen_some {A} (x : A) (l : list A) : x ∈ l -> zlen l <> 0.
Proof. rewrite zlen_0. intros Hx ->. by apply not_elem_of_nil in Hx. Qed.

(** The analysis counts what it says: over the samples replayed, the decisions in which some field changes, the
    accesses lost and gained, and the changes of each counted field are exactly as many as there are samples whose two
    decisions differ that way, a session and an idle timeout counting separately; the conflicts are all those of the
    candidate; and the examples are the first changed samples, with their positions, changed fields and decisions. *)
Theorem analysis_counts (activeRules candidateRules : list Rule) (samples : list ReplaySample) (opts : SimulationAnalysisOptions) (wall : Z) :
  let a := AnalyzePolicySimulation activeRules candidateRules samples opts wall in
  let replayed := considered opts samples in
  let old := decided wall activeRules in
  let new := decided wall candidateRules in
  SampleCount a = zlen replayed
  /\ DecisionChangeCount a = tally (alters activeRules candidateRules wall) replayed
  /\ AllowToDenyCount (Changes a) = tally (fun s => DAllow (old s) && negb (DAllow (new s))) replayed
  /\ DenyToAllowCount (Changes a) = tally (fun s => negb (DAllow (old s)) && DAllow (new s)) replayed
  /\ QuarantineChangeCount (Changes a) = tally (fun s => xorb (DQuarantine (old s)) (DQuarantine (new s))) replayed
  /\ VLANChangeCount (Changes a) = tally (fun s => ints_differ (DVLAN (old s)) (DVLAN (new s))) replayed
  /\ BandwidthProfileChangeCount (Changes a) = tally (fun s => strings_differ (DBandwidthProfile (old s)) (DBandwidthProfile (new s))) replayed
  /\ ACLPolicyChangeCount (Changes a) = tally (fun s => strings_differ (DACLPolicyName (old s)) (DACLPolicyName (new s))) replayed
  /\ PortalProfileChangeCount (Changes a) = tally (fun s => strings_differ (DPortalProfile (old s)) (DPortalProfile (new s))) replayed
  /\ SessionTimeoutChangeCount (Changes a) = tally (fun s => ints_differ (DSessionTimeout (old s)) (DSessionTimeout (new s))) replayed
                                           + tally (fun s => ints_differ (DIdleTimeout (old s)) (DIdleTimeout (new s))) replayed
  /\ ServiceChainChangeCount (Changes a) = tally (fun s => negb (ServiceChainHash (DServiceChain (old s)) =? ServiceChainHash (DServiceChain (new s)))%string) replayed
  /\ ConflictCount a = total (fun s => zlen (EConflicts (replay candidateRules wall s))) replayed
  /\ delta_view <$> Deltas a = take (Z.to_nat (MaxExamples (normalizeSimulationAnalysisOptions opts))) (altered activeRules candidateRules wall 0 replayed).
Proof.
  cbv zeta. destruct (analysis_numbers activeRules candidateRules samples opts wall) as (-> & -> & -> & -> & -> & ->).
  destruct (AnalyzePolicySimulation_fields activeRules candidateRules samples opts wall) as (_ & _ & -> & _ & _ & -> & _).
  unfold final_progress. set (ops := normalizeSimulationAnalysisOptions opts). set (ss := considered opts samples).
  pose proof (fun k a c => incrementChangeCounters_spec k a c) as Hk. cbv zeta in Hk. split_and!; try reflexivity.
  - apply (counts_tally _ _ _ VLANChangeCount (fun a c => ints_differ (DVLAN a) (DVLAN c))); [intros k a c; apply Hk|done].
  - apply (counts_tally _ _ _ BandwidthProfileChangeCount (fun a c => strings_differ (DBandwidthProfile a) (DBandwidthProfile c))); [intros k a c; apply Hk|done].
  - apply (counts_tally _ _ _ ACLPolicyChangeCount (fun a c => strings_differ (DACLPolicyName a) (DACLPolicyName c))); [intros k a c; apply Hk|done].
  - apply (counts_tally _ _ _ PortalProfileChangeCount (fun a c => strings_differ (DPortalProfile a) (DPortalProfile c))); [intros k a c; apply Hk|done].
  - rewrite <- !total_tally, <- total_add.
    rewrite (counts_gain _ _ _ SessionTimeoutChangeCount (fun a c => Z.b2z (ints_differ (DSessionTimeout a) (DSessionTimeout c)) + Z.b2z (ints_differ (DIdleTimeout a) (DIdleTimeout c)))); [done|].
    intros k a c. rewrite Z.add_assoc. apply Hk.
  - apply (counts_tally _ _ _ ServiceChainChangeCount (fun a c => negb (ServiceChainHash (DServiceChain a) =? ServiceChainHash (DServiceChain c))%string)); [intros k a c; apply Hk|done].
  - rewrite analyze_samples_deltas; [done|]. change (0 <= MaxExamples ops). apply Z.lt_le_incl, normalize_examples.
Qed.

(** The risk the analysis reports is never too low: it is low exactly when something was replayed, every replayed
    request gets decisions that look alike (but for their notes), the candidate has no conflict, and no rule of it is
    reported; it is critical when any replayed request gains access, and high or critical when any loses access or
    changes its quarantine. *)
Theorem risk_level_spec (activeRules candidateRules : list Rule) (samples : list ReplaySample) (opts : SimulationAnalysisOptions) (wall : Z) :
  let a := AnalyzePolicySimulation activeRules candidateRules samples opts wall in
  let replayed := considered opts samples in
  let old := decided wall activeRules in
  let new := decided wall candidateRules in
  (RiskLevel a = "low" <->
     replayed <> [] /\ ShadowedRules a = [] /\ IneffectiveRules a = []
     /\ forall s, s ∈ replayed -> without_notes (decision_view (old s)) = without_notes (decision_view (new s)) /\ EConflicts (replay candidateRules wall s) = [])
  /\ ((exists s, s ∈ replayed /\ DAllow (old s) = false /\ DAllow (new s) = true) -> RiskLevel a = "critical")
  /\ ((exists s, s ∈ replayed /\ (DAllow (old s) = true /\ DAllow (new s) = false \/ DQuarantine (old s) <> DQuarantine (new s))) ->
      RiskLevel a = "high" \/ RiskLevel a = "critical").
Proof.
  cbv zeta. destruct (AnalyzePolicySimulation_fields activeRules candidateRules samples opts wall) as (_ & _ & _ & _ & _ & _ & _ & Hrisk).
  destruct (analysis_numbers activeRules candidateRules samples opts wall) as (Hn & Hch & Had & Hda & Hq & Hcf).
  apply (f_equal fst) in Hrisk. cbn [fst] in Hrisk. rewrite Hrisk. clear Hrisk.
  set (a := AnalyzePolicySimulation _ _ _ _ _) in *. set (ss := considered opts samples) in *.
  assert (ConflictCount a = 0 <-> forall s, s ∈ ss -> EConflicts (replay candidateRules wall s) = []) as Hcf0.
  { rewrite Hcf, total_zero by (intros; apply zlen_nonneg). by setoid_rewrite zlen_0. }
  assert (0 <= ConflictCount a) as Hcf1 by (rewrite Hcf; apply total_nonneg; intros; apply zlen_nonneg).
  split_and!.
  - rewrite classify_low; rewrite ?Hn, ?Hch, ?Had, ?Hda, ?Hq; try apply zlen_nonneg; [|done].
    rewrite Hcf0, !tally_zero, zlen_0. unfold alters. split.
    + intros (Hne & Hz & _ & _ & _ & Hz4 & Hs & Hi). split_and!; try done. intros s Hs'. split; [|by apply Hz4]. apply changedDecisionFields_nil.
      specialize (Hz s Hs'). unfold alters in Hz. apply zlen_0. pose proof (zlen_nonneg (changed activeRules candidateRules wall s)). unfold changed in *. lia.
    + intros (Hne & Hs & Hi & Hall). assert (forall s, s ∈ ss -> changed activeRules candidateRules wall s = []) as Hnil.
      { intros s Hs'. by apply changedDecisionFields_nil, Hall. }
      split_and!; try done; intros s Hs'; try apply Hall; try done.
      * by rewrite Hnil.
      * destruct (Hall s Hs') as [Hv _]. apply (f_equal ViewAllow) in Hv. cbn [ViewAllow ViewQuarantine without_notes decision_view] in Hv. rewrite Hv. apply andb_negb_r.
      * destruct (Hall s Hs') as [Hv _]. apply (f_equal ViewAllow) in Hv. cbn [ViewAllow ViewQuarantine without_notes decision_view] in Hv. rewrite Hv. apply andb_negb_l.
      * destruct (Hall s Hs') as [Hv _]. apply (f_equal ViewQuarantine) in Hv. cbn [ViewAllow ViewQuarantine without_notes decision_view] in Hv. rewrite Hv. apply xorb_nilpotent.
  - intros (s & Hs & Ho & Hw). assert (0 < DenyToAllowCount (Changes a)) as Hpos.
    { rewrite Hda. apply tally_pos. exists s. split; [done|]. by rewrite Ho, Hw. }
    apply classify_critical; [rewrite Hn; by apply zlen_some with s|done].
  - intros (s & Hs & Hd). apply classify_high; [rewrite Hn; by apply zlen_some with s|]. rewrite Had, Hq, !tally_pos. destruct Hd as [[Ho Hw]|Hd].
    + left. exists s. split; [done|]. by rewrite Ho, Hw.
    + right. exists s. split; [done|]. by destruct (DQuarantine _), (DQuarantine _).
Qed.

(** ** The rules reported *)

Lemma removeRuleByName_cases rules name :
  removeRuleByName rules name = rules
  \/ exists l1 r l2, rules = l1 ++ r :: l2 /\ EqualFold (RuleName r) name = true /\ removeRuleByName rules name = l1 ++ l2.
Proof.
  induction rules as [|r rules IH]; [by left|]. cbn [removeRuleByName]. destruct (EqualFold (RuleName r) name) eqn:E; [right; by exists [], r, rules|].
  destruct IH as [->|(l1 & r' & l2 & -> & He & ->)]; [by left|]. right. by exists (r :: l1), r', l2.
Qed.

(** A rule that is not applied may go. *)
Lemma applied_without request wall l1 r l2 : r ∉ applied request wall (l1 ++ r :: l2) -> applied request wall (l1 ++ l2) = applied request wall (l1 ++ r :: l2).
Proof.
  induction l1 as [|r1 l1 IH]; cbn [app applied].
  - destruct (applies request wall r); [|done]. destruct (denies r); intros Hno; destruct Hno; left.
  - destruct (applies request wall r1); [|done]. destruct (denies r1); [done|]. intros Hno. f_equal. apply IH. intros Hin. apply Hno. by right.
Qed.

Lemma replay_decided rules wall s : decided wall rules s = decide_rules default_decision (applied (Some (SmRequest s)) wall rules)
  /\ MName <$> EMatchedRules (replay rules wall s) = RuleName <$> applied (Some (SmRequest s)) wall rules.
Proof.
  unfold decided, replay, EvaluateRules. cbn [EDecision EMatchedRules]. destruct (evaluate_rules_spec (Some (SmRequest s)) wall rules initial_state) as [-> ->]. done.
Qed.

(** What was counted for a reported rule. *)
Lemma rule_impacts_reported seen rules matched impact sh ie item : rule_impacts seen rules matched impact true = (sh, ie) -> item ∈ sh ++ ie ->
  exists r, r ∈ rules /\ TrimSpace (RuleName r) = ImName item /\ ImName item <> ""
    /\ (RuleEnabled r = false \/ count_of matched (ImName item) = 0 \/ count_of impact (ImName item) = 0).
Proof.
  revert seen sh ie. induction rules as [|r rules IH]; intros seen sh ie; cbn [rule_impacts]; [by intros [= <- <-] ?%not_elem_of_nil|].
  assert (forall sh ie, (exists seen, rule_impacts seen rules matched impact true = (sh, ie)) -> item ∈ sh ++ ie ->
    exists r', r' ∈ r :: rules /\ TrimSpace (RuleName r') = ImName item /\ ImName item <> ""
    /\ (RuleEnabled r' = false \/ count_of matched (ImName item) = 0 \/ count_of impact (ImName item) = 0)) as Hrest.
  { intros sh' ie' [seen' He] Hin. destruct (IH _ _ _ He Hin) as (r' & Hr' & ?). exists r'. split; [by right|done]. }
  set (name := TrimSpace (RuleName r)). destruct (name =? "")%string eqn:Ene; [cbn [orb]; eauto|]. apply String.eqb_neq in Ene.
  case_bool_decide; cbn [orb]; [eauto|]. destruct (rule_impacts _ rules _ _ _) as [sh' ie'] eqn:E.
  assert (forall reason, (RuleEnabled r = false \/ count_of matched name = 0 \/ count_of impact name = 0) -> item = impact_item matched impact name r reason ->
    exists r', r' ∈ r :: rules /\ TrimSpace (RuleName r') = ImName item /\ ImName item <> ""
    /\ (RuleEnabled r' = false \/ count_of matched (ImName item) = 0 \/ count_of impact (ImName item) = 0)) as Hone.
  { intros reason Hc ->. exists r. split_and!; [left|done|done|done]. }
  destruct (negb (RuleEnabled r)) eqn:Een; [|destruct (count_of matched name =? 0) eqn:Em; [|cbn [andb]; destruct (count_of impact name =? 0) eqn:Ei]];
    bool_arith; intros [= <- <-] Hin; rewrite ?app_comm_cons in Hin.
  - apply elem_of_cons in Hin as [Hin|Hin]; [by eapply Hone; [left|]|eauto].
  - apply elem_of_cons in Hin as [Hin|Hin]; [by eapply Hone; [right; left|]|eauto].
  - apply elem_of_app in Hin as [Hin|[Hin|Hin]%elem_of_cons]; [|by eapply Hone; [right; right|]|]; apply (Hrest sh' ie'); eauto; apply elem_of_app; auto.
  - eauto.
Qed.

(** A rule the analysis reports, as shadowed or as without effect, can be deleted from the candidate: when the rules'
    names have no surrounding space and differ but for case, leaving the rule out changes the decision on none of the
    replayed requests, as far as the fingerprint of a decision shows. *)
Theorem reported_rules_removable (activeRules candidateRules : list Rule) (samples : list ReplaySample) (opts : SimulationAnalysisOptions) (wall : Z)
    (item : RuleImpact) (s : ReplaySample) :
  Forall (fun r => TrimSpace (RuleName r) = RuleName r) candidateRules ->
  (forall r1 r2, r1 ∈ candidateRules -> r2 ∈ candidateRules -> EqualFold (RuleName r1) (RuleName r2) = true -> r1 = r2) ->
  let a := AnalyzePolicySimulation activeRules candidateRules samples opts wall in
  item ∈ ShadowedRules a ++ IneffectiveRules a -> s ∈ considered opts samples ->
  decisionFingerprint (decided wall (removeRuleByName candidateRules (ImName item)) s) = decisionFingerprint (decided wall candidateRules s).
Proof.
  intros Htrim Huniq. cbv zeta. destruct (AnalyzePolicySimulation_fields activeRules candidateRules samples opts wall) as (_ & _ & _ & _ & _ & _ & Hrep & _).
  unfold analyzeRuleImpact in Hrep. destruct (rule_impacts _ _ _ _ _) as [sh ie] eqn:E. injection Hrep as -> ->. intros Hin Hs.
  assert (item ∈ sh ++ ie) as Hin'. { revert Hin. rewrite !elem_of_app. unfold sortRuleImpacts. by rewrite !sort_by_perm. }
  destruct (rule_impacts_reported _ _ _ _ _ _ _ E Hin') as (r & Hr & Hname & _ & Hwhy). clear E Hin Hin'.
  rewrite Forall_forall in Htrim. rewrite Htrim in Hname by done. rewrite <- Hname in *.
  destruct (removeRuleByName_cases candidateRules (RuleName r)) as [->|(l1 & r' & l2 & Hsplit & Hfold & Hrem)]; [done|].
  assert (r' = r) as -> by (apply Huniq; [rewrite Hsplit; apply elem_of_app; right; left|done|done]).
  destruct (replay_decided candidateRules wall s) as [Hdec Hnames].
  destruct (decide (RuleName r ∈ MName <$> EMatchedRules (replay candidateRules wall s))) as [Hin|Hno].
  - pose proof Hin as Hm. apply list_elem_of_fmap in Hm as (m & Hmn & Hm). destruct Hwhy as [Hen|[Hz|Hz]].
    + rewrite Hnames in Hin. apply list_elem_of_fmap in Hin as (r2 & Hr2 & [Hc Happ]%elem_of_applied).
      assert (r2 = r) as -> by (apply Huniq; [done..|by rewrite <- Hr2]). unfold applies in Happ. by rewrite Hen in Happ.
    + unfold final_progress in Hz. rewrite matched_gain, total_plus_0 in Hz by (intros; apply zlen_nonneg). specialize (Hz s Hs).
      apply (zlen_filter_0 _ _ m) in Hz; [|done]. by rewrite Hmn, String.eqb_refl in Hz.
    + unfold final_progress in Hz. rewrite impact_gain, total_plus_0 in Hz by (apply normalize_impact || intros; apply zlen_nonneg). specialize (Hz s Hs).
      apply (zlen_filter_0 _ _ m) in Hz; [|done]. rewrite Hmn, String.eqb_refl, andb_true_r in Hz. unfold matters in Hz. cbv zeta in Hz.
      rewrite <- Hmn in Hz. apply andb_false_iff in Hz as [Em|Em]; bool_arith; [|done].
      rewrite Hrem in Em. rewrite Hsplit, !zlen_app, zlen_cons in Em. lia.
  - rewrite Hrem. f_equal. destruct (replay_decided (l1 ++ l2) wall s) as [-> _]. rewrite Hdec. f_equal. rewrite Hsplit. apply applied_without.
    rewrite <- Hsplit. intros Happ. apply Hno. rewrite Hnames. by apply list_elem_of_fmap_2.
Qed.
End analysis.

(** ** Witnesses *)

#[local] Instance no_digest : PolicyDigest :=
  {| rules_digest := fun _ => ""; request_digest := fun _ => ""; set_digest := fun _ => ""; rule_digest := fun _ => ""; text_digest := fun s => s |}.
#[local] Instance no_chain_digest : ChainDigest := fun _ => "".
#[local] Instance allow_digest : DecisionDigest := fun v => if ViewAllow v then "allow" else "deny".

Definition example_sample : ReplaySample := mkReplaySample "manual" "" tenant_request ∅.
Definition example_candidate : list Rule := [example_rule "a" 9 "allow"; example_rule "b" 5 "allow"].
Definition example_options : SimulationAnalysisOptions := mkSimulationAnalysisOptions 0 0 false false.
Definition example_analysis : PolicySimulationAnalysis :=
  AnalyzePolicySimulation (fun _ _ _ => "") (fun _ => "") [example_rule "a" 9 "allow"] example_candidate [example_sample] example_options 0.

(** Either of two rules that allow the same may go, but not both. *)
Example two_ineffective_rules :
  map ImName (IneffectiveRules example_analysis) = ["a"; "b"] /\ RiskLevel example_analysis = "medium"
  /\ DAllow (decided (fun _ _ _ => "") 0 (removeRuleByName (removeRuleByName example_candidate "a") "b") example_sample) = false.
Proof. vm_compute. done. Qed.

Lemma reported_rules_removable_witness :
  exists item, item ∈ IneffectiveRules example_analysis
    /\ decisionFingerprint (decided (fun _ _ _ => "") 0 (removeRuleByName example_candidate (ImName item)) example_sample) = "allow".
Proof.
  exists (mkRuleImpact "a" 9 true 1 0 "matched during replay but removing it did not alter final decisions").
  assert (mkRuleImpact "a" 9 true 1 0 "matched during replay but removing it did not alter final decisions" ∈ IneffectiveRules example_analysis) as Hin
    by (vm_compute; left).
  split; [exact Hin|].
  rewrite (reported_rules_removable (fun _ _ _ => "") (fun _ => "") [example_rule "a" 9 "allow"] example_candidate [example_sample] example_options 0 _ example_sample).
  - vm_compute. reflexivity.
  - repeat constructor.
  - intros r1 r2 [->|[->|[]%not_elem_of_nil]%elem_of_cons]%elem_of_cons [->|[->|[]%not_elem_of_nil]%elem_of_cons]%elem_of_cons;
      vm_compute; first [reflexivity|discriminate].
  - apply elem_of_app. right. exact Hin.
  - vm_compute. left.
Defined.
