(* ===== verification/HaController.v ===== *)
(** * The high-availability controller ([internal/ha/controller.go])

    The controller of a pair of appliances decides on every tick whether its node serves the virtual
    IP, by a lease in a file the nodes share. A tick is a function of the controller's state, of what
    it observes ([tick_env]) and of the lease it loaded; it returns the new state, the lease write and
    the address commands. A cluster is the lease file and the nodes; its steps are whole ticks, and,
    because the code takes no lock, also ticks split between loading and writing the lease.

    Instants are nanoseconds ([None] is the zero time); the lease holds RFC 3339 times, so whole
    seconds. Status texts, history events, announcements and the shared heartbeat are not modelled;
    the verdict of the fencing rules and the outcome of standby activation are inputs. *)

From S2P Require Import Prelude GoStrings.

Record vipLease := mkVipLease {
  HolderNode : string; HolderRole : string; VirtualIP : string; Interface : string; Priority : Z;
  AcquiredAt : option Z; RenewedAt : option Z; ExpiresAt : option Z }.

Definition no_lease : vipLease := mkVipLease "" "" "" "" 0 None None None.

Record vipTarget := mkVipTarget { TargetInterface : string; TargetAddress : string }.

(** The part of the configuration the controller reads; [CfgActive] is [Enabled] and
    [highAvailabilityConfigured]. *)
Record HAConfig := mkHAConfig {
  CfgActive : bool; CfgRole : string; CfgVirtualIP : string; FailoverTimeoutSeconds : Z;
  Preempt : bool; PreemptHoldoffSeconds : Z }.

Record controller := mkController {
  cfg : HAConfig; nodeName : string; vipAssigned : bool;
  lastHealthyAt : option Z; failureSince : option Z; peerRecoveredAt : option Z; lastPeerReachable : option bool }.

Inductive lease_action := Idle | BlockedByFencing | Release | Renewed | Acquired | Preempted | Blocked.

(** What a tick observes. [None] in [EnvTarget] is an error of [resolveVIPTarget]. *)
Record tick_env := mkTickEnv {
  EnvNow : Z; EnvPeerReachable : bool; EnvTarget : option vipTarget; EnvAllowPromotion : bool;
  EnvActivation : result unit bool;          (** an error, or whether a restart was scheduled *)
  EnvLoad : bool; EnvSave : bool; EnvClear : bool; EnvAssign : bool }.

Inductive lease_write := SaveLease (lease : vipLease) | ClearLease.
Inductive vip_command := AddVIP (target : vipTarget) | DelVIP (target : vipTarget).

Record tick_outcome := mkOutcome {
  Next : controller; Write : option lease_write; Commands : list vip_command; Action : lease_action }.

Definition second : Z := 1000000000.
(** [t.Format(time.RFC3339)] keeps whole seconds. *)
Definition format_seconds (t : Z) : Z := t / second.

Section ha.
Context {U : Unicode}.

Definition role_is (c : HAConfig) (role : string) : bool := EqualFold (TrimSpace (CfgRole c)) role.

Definition failoverActive (c : controller) (now : Z) (peerReachable : bool) : bool :=
  if peerReachable then false
  else match failureSince c with
       | None => false
       | Some since =>
           let timeout := FailoverTimeoutSeconds (cfg c) * second in
           let timeout := if timeout <=? 0 then 20 * second else timeout in
           now - since >=? timeout
       end.

Definition shouldHoldVIP (c : controller) (peerReachable failover : bool) : bool :=
  let role := lower_trim (CfgRole (cfg c)) in
  if (role =? "active")%string then true
  else if (role =? "standby")%string then negb peerReachable && failover
  else false.

Definition preemptHoldoffRemaining (c : controller) (now : Z) (peerReachable : bool) : Z :=
  if negb (Preempt (cfg c)) || negb (role_is (cfg c) "active") || negb peerReachable then 0
  else
    let holdoff := PreemptHoldoffSeconds (cfg c) * second in
    if holdoff <=? 0 then 0
    else match peerRecoveredAt c with
         | None => holdoff
         | Some recovered => let remaining := holdoff - (now - recovered) in if remaining <? 0 then 0 else remaining
         end.

Definition desiredPriority (c : controller) : Z := if role_is (cfg c) "active" then 100 else 50.

Definition leaseExpired (lease : vipLease) (now : Z) : bool :=
  if (HolderNode lease =? "")%string then true
  else match ExpiresAt lease with
       | None => true                                   (* not a time *)
       | Some expiresAt => negb (now <? expiresAt * second)
       end.

Definition shouldPreempt (c : controller) (current : vipLease) (priority : Z) (peerReachable : bool) (now : Z) : bool :=
  if (HolderNode current =? "")%string then true
  else if priority <=? Priority current then false
  else if negb (Preempt (cfg c)) then false
  else
    let role := lower_trim (CfgRole (cfg c)) in
    if (role =? "standby")%string && peerReachable then false
    else if (role =? "active")%string && (preemptHoldoffRemaining c now peerReachable >? 0) then false
    else true.

Definition newLease (c : controller) (target : vipTarget) (now : Z) (priority : Z) : vipLease :=
  let ts := Some (format_seconds now) in
  mkVipLease (nodeName c) (TrimSpace (CfgRole (cfg c))) (TrimSpace (CfgVirtualIP (cfg c))) (TargetInterface target)
    priority ts ts (Some (format_seconds (now + FailoverTimeoutSeconds (cfg c) * second))).

(** The lease to save, if any; the error of [saveLease] is the caller's business. *)
Definition ensureLease (c : controller) (current : vipLease) (target : vipTarget) (now : Z) (peerReachable : bool)
  : bool * lease_action * vipLease :=
  let priority := desiredPriority c in
  if (HolderNode current =? nodeName c)%string then
    let renewed := Some (format_seconds now) in
    (true, Renewed,
     mkVipLease (HolderNode current) (TrimSpace (CfgRole (cfg c))) (TrimSpace (CfgVirtualIP (cfg c)))
       (TargetInterface target) priority
       (match AcquiredAt current with None => renewed | Some a => Some a end) renewed
       (Some (format_seconds (now + FailoverTimeoutSeconds (cfg c) * second))))
  else if (HolderNode current =? "")%string || leaseExpired current now then
    (true, Acquired, newLease c target now priority)
  else if shouldPreempt c current priority peerReachable now then
    (true, Preempted, newLease c target now priority)
  else (false, Blocked, current).

Definition releaseLeaseIfOwned (c : controller) (current : vipLease) : option lease_write :=
  if (HolderNode current =? "")%string || negb (HolderNode current =? nodeName c)%string then None else Some ClearLease.

(** The peer's health at the beginning of a tick. *)
Definition observePeer (c : controller) (now : Z) (peerReachable : bool) : controller :=
  let c' :=
    if peerReachable then
      mkController (cfg c) (nodeName c) (vipAssigned c) (Some now) None
        (match lastPeerReachable c with Some true => peerRecoveredAt c | _ => Some now end) (lastPeerReachable c)
    else match failureSince c with
         | None => mkController (cfg c) (nodeName c) (vipAssigned c) (lastHealthyAt c) (Some now) None (lastPeerReachable c)
         | Some _ => c
         end in
  (* recordPeerHealthChange *)
  mkController (cfg c') (nodeName c') (vipAssigned c') (lastHealthyAt c') (failureSince c') (peerRecoveredAt c')
    (Some peerReachable).

Definition with_vip (c : controller) (assigned : bool) : controller :=
  mkController (cfg c) (nodeName c) assigned (lastHealthyAt c) (failureSince c) (peerRecoveredAt c) (lastPeerReachable c).

(** A write takes effect only if the file operation succeeds. *)
Definition when (ok : bool) (w : lease_write) : option lease_write := if ok then Some w else None.

(** The branch of a tick that wants the virtual IP. *)
Definition holdVIP (c : controller) (lease : vipLease) (target : vipTarget) (env : tick_env) : tick_outcome :=
  match EnvActivation env with
  | Err _ => mkOutcome c None [] Idle
  | Ok true => mkOutcome c None [] Idle
  | Ok false =>
      let '(acquired, action, updated) := ensureLease c lease target (EnvNow env) (EnvPeerReachable env) in
      if acquired then
        if negb (EnvSave env) then mkOutcome c None [] action
        else if EnvAssign env then mkOutcome (with_vip c true) (Some (SaveLease updated)) [AddVIP target] action
             else mkOutcome c (Some (SaveLease updated)) [] action
      else mkOutcome (with_vip c false) None [DelVIP target] action
  end.

Definition dropVIP (c : controller) (lease : vipLease) (target : vipTarget) (env : tick_env) (action : lease_action) : tick_outcome :=
  mkOutcome (with_vip c false)
    (match releaseLeaseIfOwned c lease with Some w => when (EnvClear env) w | None => None end)
    [DelVIP target] action.

(** [lease] is what [loadLease] returned; [EnvLoad] tells whether it succeeded. *)
Definition tick (c : controller) (env : tick_env) (lease : vipLease) : tick_outcome :=
  if negb (CfgActive (cfg c)) then mkOutcome c None [] Idle
  else
    let now := EnvNow env in
    let peerReachable := EnvPeerReachable env in
    let c := observePeer c now peerReachable in
    match EnvTarget env with
    | None => mkOutcome c None [] Idle
    | Some target =>
        let failover := failoverActive c now peerReachable in
        if negb (EnvLoad env) then mkOutcome c None [] Idle
        else
          let shouldHold := shouldHoldVIP c peerReachable failover in
          if shouldHold && role_is (cfg c) "standby" && negb (EnvAllowPromotion env)
          then dropVIP c lease target env BlockedByFencing
          else if shouldHold then holdVIP c lease target env
          else dropVIP c lease target env Release
    end.

(** [releaseOnShutdown] *)
Definition releaseOnShutdown (c : controller) (env : tick_env) (lease : vipLease) : tick_outcome :=
  mkOutcome c
    (if EnvLoad env then match releaseLeaseIfOwned c lease with Some w => when (EnvClear env) w | None => None end else None)
    (match EnvTarget env with Some target => [DelVIP target] | None => [] end) Release.

(** ** Clusters *)

Definition apply_write (store : vipLease) (w : option lease_write) : vipLease :=
  match w with None => store | Some (SaveLease lease) => lease | Some ClearLease => no_lease end.

Record cluster := mkCluster { Store : vipLease; Nodes : gmap string controller }.

Definition apply_outcome (s : cluster) (n : string) (o : tick_outcome) : cluster :=
  mkCluster (apply_write (Store s) (Write o)) (<[n := Next o]> (Nodes s)).

(** A node ticks alone: nobody writes the lease between its load and its write. *)
Inductive step : cluster -> cluster -> Prop :=
| step_tick s n c env : Nodes s !! n = Some c -> nodeName c = n -> step s (apply_outcome s n (tick c env (Store s))).

(** Two ticks that overlap: both load before either writes. *)
Definition overlapping_ticks (s : cluster) (n1 n2 : string) (env1 env2 : tick_env) : option cluster :=
  match Nodes s !! n1, Nodes s !! n2 with
  | Some c1, Some c2 =>
      let o1 := tick c1 env1 (Store s) in
      let o2 := tick c2 env2 (Store s) in
      Some (apply_outcome (apply_outcome s n1 o1) n2 o2)
  | _, _ => None
  end.
End ha.

(** ** Lemmas *)

Section lemmas.
Context {U : Unicode}.

Lemma observePeer_fields c now r :
  cfg (observePeer c now r) = cfg c /\ nodeName (observePeer c now r) = nodeName c /\ vipAssigned (observePeer c now r) = vipAssigned c.
Proof. unfold observePeer. by destruct r, (failureSince c). Qed.

Lemma ensureLease_acquired c lease target now r action updated :
  ensureLease c lease target now r = (true, action, updated) -> HolderNode updated = nodeName c.
Proof.
  unfold ensureLease. repeat split_if; intros [=]; subst; try done. by apply String.eqb_eq.
Qed.

Lemma ensureLease_blocked c lease target now r action updated :
  ensureLease c lease target now r = (false, action, updated) -> updated = lease /\ HolderNode lease <> nodeName c.
Proof.
  unfold ensureLease. repeat split_if; intros [=]; subst; try done. split; [done|]. by apply String.eqb_neq.
Qed.

(** A lease of another node that has not expired is only taken by preemption. *)
Lemma ensureLease_live c lease target now r action updated :
  ensureLease c lease target now r = (true, action, updated) -> HolderNode lease <> nodeName c -> HolderNode lease <> "" ->
  leaseExpired lease now = false ->
  Preempt (cfg c) = true /\ Priority lease < desiredPriority c /\
  (lower_trim (CfgRole (cfg c)) = "standby" -> r = false) /\
  (lower_trim (CfgRole (cfg c)) = "active" -> preemptHoldoffRemaining c now r <= 0).
Proof.
  unfold ensureLease. intros H Hn He Hx. apply String.eqb_neq in Hn, He. rewrite Hn, He, Hx in H. cbn [orb] in H.
  destruct (shouldPreempt _ _ _ _ _) eqn:Ep; [|discriminate]. unfold shouldPreempt in Ep. rewrite He in Ep.
  repeat split_if; try discriminate; bool_arith; split_and!; try done.
  - intros E. rewrite E in *. apply andb_false_iff in Heqb1 as [?|?]; done.
  - intros E. rewrite E in *. apply andb_false_iff in Heqb2 as [?|Hz]; [done|]. bool_arith. lia.
Qed.

(** What a tick can do to the lease. *)
Lemma tick_cases c env lease :
  let c' := observePeer c (EnvNow env) (EnvPeerReachable env) in
  let o := tick c env lease in
  (Write o = None \/
   (Write o = Some ClearLease /\ HolderNode lease = nodeName c /\ vipAssigned (Next o) = false) \/
   (exists target action updated,
      ensureLease c' lease target (EnvNow env) (EnvPeerReachable env) = (true, action, updated) /\
      Write o = Some (SaveLease updated) /\
      shouldHoldVIP c' (EnvPeerReachable env) (failoverActive c' (EnvNow env) (EnvPeerReachable env)) = true /\
      (role_is (cfg c) "standby" = true -> EnvAllowPromotion env = true))).
Proof.
  cbv zeta. unfold tick. destruct (observePeer_fields c (EnvNow env) (EnvPeerReachable env)) as (Hcfg & Hname & _).
  destruct (negb (CfgActive _)); [by left|]. cbv zeta. destruct (EnvTarget env) as [target|]; [|by left].
  destruct (negb (EnvLoad env)); [by left|]. set (c' := observePeer _ _ _) in *. rewrite Hcfg.
  assert (forall a, Write (dropVIP c' lease target env a) = None \/ Write (dropVIP c' lease target env a) = Some ClearLease /\
     HolderNode lease = nodeName c /\ vipAssigned (Next (dropVIP c' lease target env a)) = false) as Hdrop.
  { intros a. unfold dropVIP, releaseLeaseIfOwned, when. rewrite Hname. cbn [Write Next vipAssigned with_vip]. repeat split_if; auto.
    bool_arith. auto. }
  destruct (shouldHoldVIP _ _ _) eqn:Eh; cbn [andb]; [|destruct (Hdrop Release); auto].
  destruct (role_is (cfg c) "standby" && negb (EnvAllowPromotion env)) eqn:Ef; [destruct (Hdrop BlockedByFencing); auto|].
  unfold holdVIP. destruct (EnvActivation env) as [[|]|[]]; try by left.
  destruct (ensureLease _ _ _ _ _) as [[acquired action] updated] eqn:Ee. destruct acquired; [|by left].
  destruct (negb (EnvSave env)); [by left|]. right. right. exists target, action, updated.
  split; [done|]. split; [by destruct (EnvAssign env)|]. split; [done|]. intros Hs. rewrite Hs in Ef. cbn [andb] in Ef. by bool_arith.
Qed.
End lemmas.

(** C22: When no operation fails, a tick leaves node and lease in agreement: the node believes it
    serves the virtual IP exactly when the shared lease names it, and it then ran the command that
    adds the address, otherwise the one that deletes it. *)
Theorem tick_agreement {U : Unicode} (c : controller) (env : tick_env) (lease : vipLease) (target : vipTarget) :
  CfgActive (cfg c) = true -> nodeName c <> "" -> EnvTarget env = Some target ->
  EnvActivation env = Ok false -> EnvLoad env && EnvSave env && EnvClear env && EnvAssign env = true ->
  let o := tick c env lease in
  (vipAssigned (Next o) = true <-> HolderNode (apply_write lease (Write o)) = nodeName c) /\
  Commands o = [if vipAssigned (Next o) then AddVIP target else DelVIP target].
Proof.
  intros Ha Hn Ht Hact Hok. apply andb_true_iff in Hok as [[[Hl Hs]%andb_true_iff Hc]%andb_true_iff Has].
  cbv zeta. unfold tick. destruct (observePeer_fields c (EnvNow env) (EnvPeerReachable env)) as (Hcfg & Hname & _).
  rewrite Ha, Ht, Hl. cbn [negb]. set (c' := observePeer _ _ _) in *.
  assert (forall a, let o := dropVIP c' lease target env a in
    (vipAssigned (Next o) = true <-> HolderNode (apply_write lease (Write o)) = nodeName c) /\
    Commands o = [if vipAssigned (Next o) then AddVIP target else DelVIP target]) as Hdrop.
  { intros a. cbv zeta. unfold dropVIP, releaseLeaseIfOwned, when. rewrite Hname, Hc. cbn [Next with_vip vipAssigned Write Commands].
    split; [|done]. split; [discriminate|]. destruct (_ || _) eqn:E; cbn [apply_write HolderNode no_lease]; [|congruence].
    intros Hh. rewrite Hh, String.eqb_refl in E. cbn [negb] in E. rewrite orb_false_r in E. by apply String.eqb_eq in E. }
  destruct (_ && _ && _); [apply Hdrop|]. destruct (shouldHoldVIP _ _ _); [|apply Hdrop].
  unfold holdVIP. rewrite Hact. destruct (ensureLease _ _ _ _ _) as [[[|] action] updated] eqn:Ee.
  - rewrite Hs, Has. cbn [negb Next with_vip vipAssigned Write Commands apply_write].
    apply ensureLease_acquired in Ee. rewrite Ee, Hname. done.
  - apply ensureLease_blocked in Ee as [-> Hne]. rewrite Hname in Hne. done.
Qed.

(** Takeover rule: whatever fails or succeeds, a tick makes its node the new holder of another
    node's lease only if that lease has expired, or if the node may preempt: preemption is enabled,
    its priority is higher, and an active node's holdoff since the peer's recovery is over. A standby
    node moreover needs its peer to have been unreachable for the whole timeout and the fencing
    verdict. *)
Theorem takeover_rule {U : Unicode} (c : controller) (env : tick_env) (lease : vipLease) :
  HolderNode lease <> "" -> HolderNode lease <> nodeName c ->
  HolderNode (apply_write lease (Write (tick c env lease))) = nodeName c ->
  let c' := observePeer c (EnvNow env) (EnvPeerReachable env) in
  (leaseExpired lease (EnvNow env) = true \/
   Preempt (cfg c) = true /\ Priority lease < desiredPriority c /\
   (lower_trim (CfgRole (cfg c)) = "active" -> preemptHoldoffRemaining c' (EnvNow env) (EnvPeerReachable env) <= 0)) /\
  (lower_trim (CfgRole (cfg c)) = "standby" ->
     EnvPeerReachable env = false /\ failoverActive c' (EnvNow env) false = true) /\
  (role_is (cfg c) "standby" = true -> EnvAllowPromotion env = true).
Proof.
  intros He Hn Hnew. cbv zeta. destruct (observePeer_fields c (EnvNow env) (EnvPeerReachable env)) as (Hcfg & Hname & _).
  destruct (tick_cases c env lease) as [Hw|[(_ & Hh & _)|(target & action & updated & Hens & Hw & Hhold & Hfence)]].
  - rewrite Hw in Hnew. done.
  - done.
  - set (c' := observePeer _ _ _) in *. split_and!; [| |done].
    + destruct (leaseExpired lease (EnvNow env)) eqn:Ex; [by left|]. right.
      destruct (ensureLease_live _ _ _ _ _ _ _ Hens) as (H1 & H2 & _ & H4); [by rewrite Hname|done..|].
      unfold desiredPriority in *. rewrite Hcfg in *. done.
    + intros Hs. unfold shouldHoldVIP in Hhold. rewrite Hcfg, Hs in Hhold. cbn in Hhold.
      apply andb_true_iff in Hhold as [Hr Hf]. apply negb_true_iff in Hr. rewrite Hr in *. done.
Qed.

Section exclusion.
Context {U : Unicode}.

(** A tick of a node other than [holder], before [deadline], by a node that may not preempt. *)
Inductive foreign_step (holder : string) (deadline : Z) : cluster -> cluster -> Prop :=
| foreign_tick s n c env :
    Nodes s !! n = Some c -> nodeName c = n -> n <> holder -> EnvNow env < deadline ->
    (Preempt (cfg c) = false \/ desiredPriority c <= Priority (Store s)) ->
    foreign_step holder deadline s (apply_outcome s n (tick c env (Store s))).
End exclusion.

(** Mutual exclusion for atomic ticks: until a lease expires, no sequence of ticks of other nodes
    that cannot preempt it, with whatever faults and observations, changes the lease. *)
Theorem live_lease_kept {U : Unicode} (holder : string) (expires : Z) (s s' : cluster) :
  HolderNode (Store s) = holder -> holder <> "" -> ExpiresAt (Store s) = Some expires ->
  rtc (foreign_step holder (expires * second)) s s' -> Store s' = Store s.
Proof.
  intros Hh He Hx Hsteps. induction Hsteps as [|s s1 s' Hstep _ IH]; [done|].
  assert (Store s1 = Store s) as Hs1; [|rewrite <- Hs1 in *; by rewrite IH].
  destruct Hstep as [s n c env Hn Hname Hne Hnow Hpre]. cbn [Store apply_outcome].
  assert (leaseExpired (Store s) (EnvNow env) = false) as Hlive.
  { unfold leaseExpired. rewrite Hh, Hx. rewrite (proj2 (String.eqb_neq holder "")) by done.
    by rewrite (proj2 (Z.ltb_lt _ _)). }
  destruct (observePeer_fields c (EnvNow env) (EnvPeerReachable env)) as (Hcfg & Hnm & _).
  destruct (tick_cases c env (Store s)) as [Hw|[(_ & Hh' & _)|(target & action & updated & Hens & Hw & _)]].
  - by rewrite Hw.
  - congruence.
  - exfalso. destruct (ensureLease_live _ _ _ _ _ _ _ Hens) as (H1 & H2 & _).
    + rewrite Hnm. congruence.
    + congruence.
    + done.
    + unfold desiredPriority in *. rewrite Hcfg in *. destruct Hpre as [Hp|Hp]; [congruence|lia].
Qed.

(** ** A pair of nodes *)

Definition pair_config (role : string) : HAConfig := mkHAConfig true role "10.0.0.9" 20 false 0.
Definition vip : vipTarget := mkVipTarget "eth0" "10.0.0.9/24".
Definition node_a : controller := mkController (pair_config "active") "a" false None None None None.
(** The standby has not seen its peer since instant 0. *)
Definition node_b : controller := mkController (pair_config "standby") "b" false None (Some 0) None (Some false).
Definition pair (a b : controller) (lease : vipLease) : cluster := mkCluster lease {["a" := a; "b" := b]}.
(** The nodes do not reach each other, everything else works. *)
Definition partitioned (now : Z) : tick_env := mkTickEnv (now * second) false (Some vip) true (Ok false) true true true true.
Definition unreadable (now : Z) : tick_env := mkTickEnv (now * second) false (Some vip) true (Ok false) false true true true.

Definition serves (s : cluster) (n : string) : bool := match Nodes s !! n with Some c => vipAssigned c | None => false end.

(** The lease is read and written without a lock: when the ticks of both nodes overlap while the
    nodes do not reach each other, both find no lease, both write one and both serve the virtual IP,
    although nothing failed and fencing let the standby pass. *)
Theorem overlapping_ticks_split :
  exists s', overlapping_ticks (pair node_a node_b no_lease) "a" "b" (partitioned 30) (partitioned 30) = Some s' /\
    serves s' "a" = true /\ serves s' "b" = true.
Proof. eexists. split; [reflexivity|]. split; vm_compute; reflexivity. Qed.

(** A node that cannot read the lease keeps the virtual IP for as long as that lasts: after its
    lease has expired the standby takes it over in whole, atomic ticks, and both serve the address. *)
Theorem unreadable_lease_split :
  exists s', rtc step (pair node_a node_b no_lease) s' /\ serves s' "a" = true /\ serves s' "b" = true.
Proof.
  set (s0 := pair node_a node_b no_lease).
  set (s1 := apply_outcome s0 "a" (tick node_a (partitioned 1) (Store s0))).
  set (a1 := Next (tick node_a (partitioned 1) (Store s0))).
  set (s2 := apply_outcome s1 "a" (tick a1 (unreadable 25) (Store s1))).
  exists (apply_outcome s2 "b" (tick node_b (partitioned 30) (Store s2))). split.
  - apply (rtc_l _ _ s1); [by apply step_tick|]. apply (rtc_l _ _ s2); [by apply step_tick|]. apply rtc_once. by apply step_tick.
  - split; vm_compute; reflexivity.
Qed.

(** ** Witnesses *)

Definition lease_of_b : vipLease := mkVipLease "b" "standby" "10.0.0.9" "eth0" 50 (Some 0) (Some 90) (Some 110).

Lemma tick_agreement_witness :
  vipAssigned (Next (tick node_b (partitioned 30) no_lease)) = true /\
  Commands (tick node_b (partitioned 30) no_lease) = [AddVIP vip].
Proof.
  assert (vipAssigned (Next (tick node_b (partitioned 30) no_lease)) = true) as Hv by reflexivity.
  split; [exact Hv|].
  refine (eq_trans (proj2 (tick_agreement node_b (partitioned 30) no_lease vip _ _ _ _ _)) _); try reflexivity. discriminate.
Defined.

(** The active node takes the standby's lease back when it has expired, not before. *)
Lemma takeover_rule_witness :
  Write (tick node_a (partitioned 100) lease_of_b) = None /\
  HolderNode (apply_write lease_of_b (Write (tick node_a (partitioned 120) lease_of_b))) = "a" /\
  leaseExpired lease_of_b (120 * second) = true.
Proof.
  split; [reflexivity|]. split; [reflexivity|].
  destruct (takeover_rule node_a (partitioned 120) lease_of_b) as ([H|[H _]] & _).
  - discriminate.
  - discriminate.
  - reflexivity.
  - exact H.
  - discriminate H.
Defined.

Lemma live_lease_kept_witness :
  Store (apply_outcome (pair node_a node_b lease_of_b) "a" (tick node_a (partitioned 100) lease_of_b)) = lease_of_b.
Proof.
  apply (live_lease_kept "b" 110 (pair node_a node_b lease_of_b)); [reflexivity | discriminate | reflexivity |].
  apply rtc_once. apply (foreign_tick "b" (110 * second) (pair node_a node_b lease_of_b) "a" node_a (partitioned 100)).
  - reflexivity.
  - reflexivity.
  - discriminate.
  - reflexivity.
  - left. reflexivity.
Defined.
