(* ===== verification/HaFencing.v ===== *)
(** * Fencing of a standby's promotion ([internal/ha/fencing.go])

    With split-brain protection each node publishes a heartbeat on the shared storage, and a standby that wants the
    virtual IP needs its peer's heartbeat to be stale and, if there are witnesses, a verdict of theirs: a quorum, with
    weights, tiers of confidence, required groups, sources and URLs, vetoes, and budgets for witnesses that do not
    answer. [evaluateFencing] gives the verdict; [fenced_tick] is the tick of [HaController] under it.

    Texts for people (summaries and the details map) are left out, statuses and error kinds are kept. The network, the
    files' failures and the random challenges are in [FencingEnv]; instants are nanoseconds, as in [HaController], and a
    heartbeat holds whole seconds. *)

From S2P Require Import Prelude GoStrings Bytes HaController.
From Stdlib Require Import Ascii.

(** ** What the standard library does here *)

(** [time.Parse(time.RFC3339, ...)], in nanoseconds; the error is its text *)
Class ParseRFC3339 := parse_rfc3339 : string -> result string Z.
(** [filepath.Join] of a directory and a file's name *)
Class JoinPath := join_path : string -> string -> string.
(** HMAC with SHA-256: the key and the message to the digest's bytes *)
Class Hmac := hmac_sha256 : string -> string -> string.

Definition hex_digit (c : ascii) : option Z :=
  if in_range "0"%char "9"%char c then Some (byte_of c - 48)
  else if in_range "a"%char "f"%char c then Some (byte_of c - 87)
  else if in_range "A"%char "F"%char c then Some (byte_of c - 55)
  else None.

(** [hex.DecodeString]; [None] is any of its errors. *)
Fixpoint hex_decode (s : string) : option string :=
  match s with
  | EmptyString => Some ""
  | String a (String b rest) =>
      match hex_digit a, hex_digit b, hex_decode rest with
      | Some high, Some low, Some bytes => Some (String (ascii_of_N (Z.to_N (16 * high + low))) bytes)
      | _, _, _ => None
      end
  | String _ EmptyString => None
  end.

(** ** Configuration *)

(** The fields of [config.HighAvailabilityConfig] that fencing reads; role, address and timeout are [HAConfig]'s. *)
Record FencingConfig := mkFencingConfig {
  SplitBrainProtectionEnabled : bool; HeartbeatIntervalSeconds : Z; SharedStateDir : string;
  WitnessAPIURL : string; WitnessURLs : list string; WitnessQuorum : Z; WitnessWeights : gmap string Z; WitnessWeightThreshold : Z;
  WitnessGroups : gmap string string; WitnessMinDistinctGroups : Z; WitnessRequiredGroups : list string;
  WitnessSources : gmap string string; WitnessRequiredSources : list string; WitnessRequiredURLs : list string;
  WitnessPolicyMode : string; WitnessPolicyModeByTier : gmap string string;
  WitnessFailureTolerance : Z; WitnessFailureWeightTolerance : Z; WitnessSourceConfidence : gmap string string;
  WitnessMinApprovalsByTier : gmap string Z; WitnessMinWeightByTier : gmap string Z;
  WitnessMinDistinctGroupsByTier : gmap string Z; WitnessMinDistinctSourcesByTier : gmap string Z;
  WitnessRequiredSourcesByTier : gmap string (list string); WitnessRequiredURLsByTier : gmap string (list string);
  WitnessRequiredGroupsByTier : gmap string (list string);
  WitnessMaxAgeByTier : gmap string Z; WitnessRequiredNodeByTier : gmap string string;
  WitnessSignatureRequiredTiers : list string; WitnessReplayRequiredTiers : list string;
  WitnessFailureToleranceByTier : gmap string Z; WitnessFailureWeightByTier : gmap string Z; WitnessBlockingTiers : list string;
  WitnessTokenEnv : string; WitnessSigningKeyEnv : string; WitnessMaxAgeSeconds : Z; WitnessRequiredNode : string;
  WitnessReplayProtectionEnabled : bool }.

(** ** Data *)

(** [sharedHeartbeat]; [None] is a time that does not parse. *)
Record sharedHeartbeat := mkHeartbeat {
  HbNodeName : string; HbConfiguredRole : string; HbEffectiveRole : string; HbVirtualIP : string; HbVIPAssigned : bool; PublishedAt : option Z }.
Definition no_heartbeat : sharedHeartbeat := mkHeartbeat "" "" "" "" false None.

(** A file of the heartbeats' directory: blank, not JSON, or a heartbeat *)
Inductive hb_file := BlankFile | BrokenFile (error : string) | HeartbeatFile (state : sharedHeartbeat).

Inductive witness_error :=
| errWitnessTokenMissing | errWitnessSigningKeyMissing | errWitnessSignatureMissing | errWitnessSignatureInvalid
| errWitnessChallengeMissing | errWitnessChallengeMismatch
| WitnessErr (text : string).

(** [witnessDecision] *)
Record witnessDecision := mkDecision {
  WdAllowPromotion : bool; WdObservedAt : string; WdWitnessNode : string; WdChallenge : string; WdRequestChallenge : string;
  WdReplayStatus : string; WdSignatureStatus : string; WdSignatureRequired : bool }.
Definition no_decision : witnessDecision := mkDecision false "" "" "" "" "" "" false.

(** [witnessEvaluation] *)
Record witnessEvaluation := mkEvaluation {
  EvStatus : string; EvAllowed : bool; EvDecision : witnessDecision; EvMaxAgeSeconds : Z; EvObservedAge : result string Z; EvErr : option witness_error }.

(** The answer to a probe, and the JSON of its body *)
Record WitnessResponse := mkResponse { StatusCode : Z; StatusText : string; SignatureHeader : string; Body : result string string }.
Record WitnessBody := mkBody { BdAllowPromotion : bool; BdObservedAt : string; BdWitnessNode : string; BdChallenge : string }.
Class BodyJson := decode_body : string -> result string WitnessBody.

(** What an evaluation meets: the environment variables, the failures of the files, the challenges drawn, and the
    answer of each URL to a token and a challenge. *)
Record FencingEnv := mkFencingEnv {
  Getenv : string -> string; FirstWrite : option string; SecondWrite : option string; ReadFailure : option string;
  Challenges : string -> result string string; Request : string -> option string;
  Http : string -> string -> string -> result string WitnessResponse }.

(** [fencingResult] without the summaries *)
Record fencingResult := mkFencingResult {
  FrEnabled : bool; FrStatus : string; FrAllowPromotion : bool; FrLocalWriteError : option string; FrPeerLoadError : option string;
  FrPeerPresent : bool; FrPeerAge : option Z; FrPeerStale : bool; FrPeerHeartbeat : sharedHeartbeat; FrLocalHeartbeat : sharedHeartbeat;
  FrWitnessStatus : string; FrWitnessAllowed : bool; FrWitnessError : option witness_error }.

Section fencing.
Context {U : Unicode} {MR : MapRange} {PT : ParseRFC3339} {HM : Hmac} {BJ : BodyJson}.
Implicit Types fc : FencingConfig.

(** ** The witnesses of a configuration *)

(** The loop of the functions below: trimmed, without blanks and repetitions, in the order given *)
Definition add_trimmed (l : list string) (value : string) : list string :=
  let trimmed := TrimSpace value in
  if (trimmed =? "")%string then l else if bool_decide (trimmed ∈ l) then l else l ++ [trimmed].
Definition distinct_trimmed (values : list string) : list string := foldl add_trimmed [] values.

Definition normalizeWitnessURLSet (primary : string) (urls : list string) : list string :=
  match urls with [] => distinct_trimmed [primary] | _ => distinct_trimmed urls end.
Definition effectiveWitnessURLs fc : list string := normalizeWitnessURLSet (WitnessAPIURL fc) (WitnessURLs fc).

Definition effectiveWitnessQuorum fc (witnessCount : Z) : Z :=
  if witnessCount <=? 0 then 0 else if WitnessQuorum fc >? 0 then WitnessQuorum fc else 1.

(** A map from the URLs *)
Definition for_urls {A} (f : string -> A) (urls : list string) : gmap string A := foldr (fun u m => <[u := f u]> m) ∅ urls.

Definition url_weight fc (url : string) : Z :=
  match WitnessWeights fc !! TrimSpace url with Some w => if w >? 0 then w else 1 | None => 1 end.
Definition effectiveWitnessWeights fc (urls : list string) : gmap string Z * Z :=
  (for_urls (url_weight fc) urls, foldr (fun u total => url_weight fc u + total) 0 urls).

Definition url_label (overrides : gmap string string) (url : string) : string :=
  match overrides !! TrimSpace url with Some o => if (TrimSpace o =? "")%string then TrimSpace url else TrimSpace o | None => TrimSpace url end.

Definition add_distinct (l : list string) (value : string) : list string := if bool_decide (value ∈ l) then l else l ++ [value].
Definition distinct_values (values : list string) : list string := foldl add_distinct [] values.

Definition effectiveWitnessGroups fc (urls : list string) : gmap string string * list string :=
  (for_urls (url_label (WitnessGroups fc)) urls, distinct_values (url_label (WitnessGroups fc) <$> urls)).
Definition effectiveWitnessSources fc (urls : list string) : gmap string string * list string :=
  (for_urls (url_label (WitnessSources fc)) urls, distinct_values (url_label (WitnessSources fc) <$> urls)).

Definition url_tier fc (sources : gmap string string) (url : string) : string :=
  let source := TrimSpace (default "" (sources !! url)) in
  let source := if (source =? "")%string then TrimSpace url else source in
  match WitnessSourceConfidence fc !! source with Some o => if (TrimSpace o =? "")%string then "standard" else TrimSpace o | None => "standard" end.
Definition effectiveWitnessConfidence fc (urls : list string) (sources : gmap string string) : gmap string string * list string :=
  (for_urls (url_tier fc sources) urls, distinct_values (url_tier fc sources <$> urls)).

Definition effectiveWitnessConfidenceForURL fc (url : string) : string :=
  let url := TrimSpace url in
  if (url =? "")%string then "standard"
  else
    let sources := (effectiveWitnessSources fc [url]).1 in
    let tier := TrimSpace (default "" ((effectiveWitnessConfidence fc [url] sources).1 !! url)) in
    if (tier =? "")%string then "standard" else tier.

Definition witnessBlockingTiers fc : list string := distinct_trimmed (WitnessBlockingTiers fc).
Definition witnessSignatureRequiredTiers fc : list string := distinct_trimmed (WitnessSignatureRequiredTiers fc).
Definition witnessReplayRequiredTiers fc : list string := distinct_trimmed (WitnessReplayRequiredTiers fc).
Definition requiredWitnessSources fc : list string := distinct_trimmed (WitnessRequiredSources fc).
Definition requiredWitnessGroups fc : list string := distinct_trimmed (WitnessRequiredGroups fc).
Definition requiredWitnessURLs fc : list string := distinct_trimmed (WitnessRequiredURLs fc).

(** The loop of the three functions that follow *)
Definition add_required (m : gmap string (list string)) (entry : string * list string) : gmap string (list string) :=
  let tier := TrimSpace entry.1 in
  let normalized := distinct_trimmed entry.2 in
  if (tier =? "")%string then m else match normalized with [] => m | _ => <[tier := normalized]> m end.
Definition required_by_tier (m : gmap string (list string)) : gmap string (list string) := foldl add_required ∅ (range_map m).
Definition requiredWitnessSourcesByTier fc : gmap string (list string) := required_by_tier (WitnessRequiredSourcesByTier fc).
Definition requiredWitnessURLsByTier fc : gmap string (list string) := required_by_tier (WitnessRequiredURLsByTier fc).
Definition requiredWitnessGroupsByTier fc : gmap string (list string) := required_by_tier (WitnessRequiredGroupsByTier fc).

Definition replayProtectionEnabled fc : bool := WitnessReplayProtectionEnabled fc.

Definition witnessTierRequiresSignature fc (tier : string) : bool :=
  if replayProtectionEnabled fc then true
  else match witnessSignatureRequiredTiers fc with
       | [] => negb (TrimSpace (WitnessSigningKeyEnv fc) =? "")%string
       | tiers => bool_decide (TrimSpace tier ∈ tiers)
       end.

Definition witnessChallengeEnabled fc : bool :=
  if replayProtectionEnabled fc then true else match witnessReplayRequiredTiers fc with [] => false | _ => true end.

Definition witnessTierRequiresReplay fc (tier : string) : bool :=
  if replayProtectionEnabled fc then true else bool_decide (TrimSpace tier ∈ witnessReplayRequiredTiers fc).

Definition normalizeWitnessPolicyModeValue (mode : string) : string :=
  let m := lower_trim mode in if bool_decide (m ∈ ["any"; "group_only"; "source_only"; "url_only"]) then m else "all".
Definition normalizeWitnessTierPolicyModeValue (mode : string) : string :=
  let m := lower_trim mode in if bool_decide (m ∈ ["any"; "group_only"; "source_only"; "url_only"]) then m else "all".
Definition witnessPolicyMode fc : string := normalizeWitnessPolicyModeValue (WitnessPolicyMode fc).

Definition witnessPolicyModeByTier fc : gmap string string :=
  foldl (fun m '(tier, mode) => if (TrimSpace tier =? "")%string then m else <[TrimSpace tier := normalizeWitnessTierPolicyModeValue mode]> m)
    ∅ (range_map (WitnessPolicyModeByTier fc)).

Definition effectiveWitnessPolicyModeForTier fc (tier : string) : string :=
  let tier := TrimSpace tier in
  if (tier =? "")%string then "all"
  else match WitnessPolicyModeByTier fc !! tier with Some mode => normalizeWitnessTierPolicyModeValue mode | None => "all" end.

Definition minInt (a b : Z) : Z := if a <? b then a else b.
Definition maxInt (a b : Z) : Z := if a >? b then a else b.

(** A budget within 0 and what there is *)
Definition effectiveWitnessFailureTolerance fc (witnessCount : Z) : Z :=
  if witnessCount <=? 0 then 0
  else let tolerance := WitnessFailureTolerance fc in if tolerance <? 0 then 0 else if tolerance >? witnessCount then witnessCount else tolerance.
Definition effectiveWitnessFailureWeightTolerance fc (totalWeight : Z) : Z :=
  if totalWeight <=? 0 then 0
  else let tolerance := WitnessFailureWeightTolerance fc in if tolerance <? 0 then 0 else if tolerance >? totalWeight then totalWeight else tolerance.

(** The tolerated part of the failures by tier: a tier with a budget uses it, the others share the default *)
Definition tolerated_step (budgets : gmap string Z) (acc : Z * Z) (entry : string * Z) : Z * Z :=
  let '(tolerated, unmatched) := acc in
  let '(tier, count) := entry in
  if count <=? 0 then (tolerated, unmatched)
  else match budgets !! tier with
       | Some budget => (tolerated + minInt count (maxInt budget 0), unmatched)
       | None => (tolerated, unmatched + count)
       end.
Definition tolerated_failures (budgets : gmap string Z) (failed : gmap string Z) (defaultTolerance : Z) : Z :=
  let '(tolerated, unmatched) := foldl (tolerated_step budgets) (0, 0) (range_map failed) in
  if (unmatched >? 0) && (defaultTolerance >? 0) then tolerated + minInt unmatched defaultTolerance else tolerated.
Definition effectiveWitnessTierFailureTolerance fc : gmap string Z -> Z -> Z := tolerated_failures (WitnessFailureToleranceByTier fc).
Definition effectiveWitnessTierFailureWeightTolerance fc : gmap string Z -> Z -> Z := tolerated_failures (WitnessFailureWeightByTier fc).

Definition effectiveWitnessMaxAgeSeconds fc (tier : string) : Z :=
  let tier := TrimSpace tier in
  let usual := if WitnessMaxAgeSeconds fc <? 0 then 0 else WitnessMaxAgeSeconds fc in
  if (tier =? "")%string then usual
  else match WitnessMaxAgeByTier fc !! tier with Some age => if age >=? 0 then age else usual | None => usual end.

Definition effectiveWitnessRequiredNode fc (tier : string) : string :=
  let tier := TrimSpace tier in
  let usual := TrimSpace (WitnessRequiredNode fc) in
  if (tier =? "")%string then usual
  else match WitnessRequiredNodeByTier fc !! tier with Some node => if (TrimSpace node =? "")%string then usual else TrimSpace node | None => usual end.

(** ** Asking a witness *)

Definition witnessBearerToken fc (env : FencingEnv) : string :=
  let name := TrimSpace (WitnessTokenEnv fc) in if (name =? "")%string then "" else TrimSpace (Getenv env name).
Definition witnessSigningKey fc (env : FencingEnv) : string :=
  let name := TrimSpace (WitnessSigningKeyEnv fc) in if (name =? "")%string then "" else TrimSpace (Getenv env name).

Definition normalizeWitnessSignature (raw : string) : string :=
  TrimSpace (TrimPrefix (TrimPrefix (TrimSpace raw) "sha256=") "SHA256=").

Definition verifyWitnessSignature fc (env : FencingEnv) (tier header body : string) : string * option witness_error :=
  if (TrimSpace (WitnessSigningKeyEnv fc) =? "")%string then ("disabled", None)
  else
    let key := witnessSigningKey fc env in
    if (key =? "")%string then ("missing", Some errWitnessSigningKeyMissing)
    else
      let signature := normalizeWitnessSignature header in
      if (signature =? "")%string then
        if witnessTierRequiresSignature fc tier then ("missing", Some errWitnessSignatureMissing) else ("unsigned", None)
      else match hex_decode signature with
           | None => ("invalid", Some errWitnessSignatureInvalid)
           | Some decoded => if (decoded =? hmac_sha256 key body)%string then ("verified", None) else ("invalid", Some errWitnessSignatureInvalid)
           end.

(** What the response's JSON and the challenge sent make of a decision *)
Definition decision_of fc (body : WitnessBody) (challenge signatureStatus : string) (required : bool) : result witness_error witnessDecision :=
  let decision replay := mkDecision (BdAllowPromotion body) (BdObservedAt body) (BdWitnessNode body) (BdChallenge body) challenge replay signatureStatus required in
  if (challenge =? "")%string then Ok (decision "")
  else if (TrimSpace (BdChallenge body) =? "")%string then
    if replayProtectionEnabled fc then Err errWitnessChallengeMissing else Ok (decision "missing")
  else if negb (TrimSpace (BdChallenge body) =? challenge)%string then
    if replayProtectionEnabled fc then Err errWitnessChallengeMismatch else Ok (decision "mismatch")
  else Ok (decision "verified").

(** The checks of a response, up to its decision *)
Definition read_response fc (env : FencingEnv) (tier challenge : string) (response : WitnessResponse) : result witness_error witnessDecision :=
  if (StatusCode response <? 200) || (StatusCode response >=? 300) then Err (WitnessErr ("witness returned " +:+ StatusText response))
  else match Body response with
  | Err e => Err (WitnessErr ("read witness response: " +:+ e))
  | Ok body =>
      match verifyWitnessSignature fc env tier (SignatureHeader response) body with
      | (_, Some e) => Err e
      | (status, None) =>
          match decode_body body with
          | Err e => Err (WitnessErr ("decode witness response: " +:+ e))
          | Ok decoded => decision_of fc decoded challenge status (witnessTierRequiresSignature fc tier)
          end
      end
  end.

Definition probeWitnessDecisionURL fc (env : FencingEnv) (url : string) : result witness_error witnessDecision :=
  let url := TrimSpace url in
  let tier := effectiveWitnessConfidenceForURL fc url in
  if (url =? "")%string then Err (WitnessErr "ha witness probe requires high_availability.witness_api_url")
  else if negb (TrimSpace (WitnessTokenEnv fc) =? "")%string && (TrimSpace (witnessBearerToken fc env) =? "")%string then Err errWitnessTokenMissing
  else if negb (TrimSpace (WitnessSigningKeyEnv fc) =? "")%string && (TrimSpace (witnessSigningKey fc env) =? "")%string then Err errWitnessSigningKeyMissing
  else
    match (if witnessChallengeEnabled fc then Challenges env url else Ok "") with
    | Err e => Err (WitnessErr e)
    | Ok challenge =>
        match Request env url with
        | Some e => Err (WitnessErr ("construct witness request: " +:+ e))
        | None =>
            match Http env url (witnessBearerToken fc env) challenge with
            | Err e => Err (WitnessErr ("probe witness: " +:+ e))
            | Ok response => read_response fc env tier challenge response
            end
        end
    end.

(** [time.Since], not below zero *)
Definition age_of (t now : Z) : Z := if now - t <? 0 then 0 else now - t.
Definition witnessObservedAge (observedAt : string) (now : Z) : result string Z :=
  match parse_rfc3339 (TrimSpace observedAt) with Err e => Err e | Ok t => Ok (age_of t now) end.

Definition evaluateWitnessDecisionPolicy fc (observedAt : Z) (tier : string) (decision : witnessDecision) : witnessEvaluation :=
  let maxAgeSeconds := effectiveWitnessMaxAgeSeconds fc tier in
  let age := if (TrimSpace (WdObservedAt decision) =? "")%string then Ok 0 else witnessObservedAge (TrimSpace (WdObservedAt decision)) observedAt in
  let requiredNode := effectiveWitnessRequiredNode fc tier in
  let replayRequired := witnessTierRequiresReplay fc tier in
  let signatureRequired := witnessTierRequiresSignature fc tier in
  let maxWitnessAge := maxAgeSeconds * second in
  let refuse status err := mkEvaluation status false decision maxAgeSeconds age err in
  if negb (WdAllowPromotion decision) then refuse "blocked" None
  else if signatureRequired && (WdSignatureStatus decision =? "missing")%string then refuse "signature_missing" (Some errWitnessSignatureMissing)
  else if signatureRequired && (WdSignatureStatus decision =? "invalid")%string then refuse "signature_invalid" (Some errWitnessSignatureInvalid)
  else if replayRequired && (WdReplayStatus decision =? "missing")%string then refuse "replay_missing" (Some errWitnessChallengeMissing)
  else if replayRequired && (WdReplayStatus decision =? "mismatch")%string then refuse "replay_mismatch" (Some errWitnessChallengeMismatch)
  else if negb (requiredNode =? "")%string && negb (EqualFold (TrimSpace (WdWitnessNode decision)) requiredNode) then refuse "unexpected_node" None
  else if (maxWitnessAge >? 0) && (TrimSpace (WdObservedAt decision) =? "")%string then refuse "stale" None
  else match age with
       | Err e => refuse "invalid" (Some (WitnessErr e))
       | Ok a => if (maxWitnessAge >? 0) && (a >? maxWitnessAge) then refuse "stale" None
                 else mkEvaluation "ok" true decision maxAgeSeconds age None
       end.

(** One witness of the loop of [evaluateFencing] *)
Definition evaluate_witness fc (env : FencingEnv) (now : Z) (tier url : string) : witnessEvaluation :=
  match probeWitnessDecisionURL fc env url with
  | Err e => mkEvaluation "failed" false no_decision (effectiveWitnessMaxAgeSeconds fc tier) (Ok 0) (Some e)
  | Ok decision => evaluateWitnessDecisionPolicy fc now tier decision
  end.

(** ** Heartbeats *)

Context {JP : JoinPath}.

Definition sharedStateRootDir fc : string := if (TrimSpace (SharedStateDir fc) =? "")%string then "/var/lib/aegisnas/ha" else TrimSpace (SharedStateDir fc).
Definition sharedHeartbeatRootDir fc : string :=
  let root := TrimSpace (sharedStateRootDir fc) in join_path (if (root =? "")%string then "/var/lib/aegisnas/ha" else root) "heartbeats".
Definition sharedHeartbeatPath fc (role : string) : string :=
  let role := lower_trim role in if (role =? "")%string then "" else join_path (sharedHeartbeatRootDir fc) (role +:+ ".json").

Definition peerConfiguredRole (ha : HAConfig) : string :=
  let role := lower_trim (CfgRole ha) in
  if (role =? "active")%string then "standby" else if (role =? "standby")%string then "active" else "".

(** The heartbeats' directory, and a write that fails or not *)
Notation heartbeats := (gmap string hb_file).

Definition saveSharedHeartbeat fc (failure : option string) (state : sharedHeartbeat) (files : heartbeats) : option string * heartbeats :=
  let path := sharedHeartbeatPath fc (HbConfiguredRole state) in
  if (TrimSpace path =? "")%string then (Some "shared heartbeat path is unavailable", files)
  else match failure with Some e => (Some e, files) | None => (None, <[path := HeartbeatFile state]> files) end.

Definition loadPeerSharedHeartbeat fc (ha : HAConfig) (failure : option string) (files : heartbeats) : result string (option sharedHeartbeat) :=
  let path := sharedHeartbeatPath fc (peerConfiguredRole ha) in
  if (TrimSpace path =? "")%string then Err "peer shared heartbeat path is unavailable"
  else match failure with
  | Some e => Err ("read peer shared heartbeat: " +:+ e)
  | None =>
      match files !! path with
      | None | Some BlankFile => Ok None
      | Some (BrokenFile e) => Err ("decode peer shared heartbeat: " +:+ e)
      | Some (HeartbeatFile state) => Ok (Some state)
      end
  end.

Definition sharedHeartbeatAge (state : sharedHeartbeat) (now : Z) : option Z := (fun published => age_of (published * second) now) <$> PublishedAt state.

Definition fencingHeartbeatStaleAfter fc (ha : HAConfig) : Z :=
  let base := FailoverTimeoutSeconds ha in
  let floor := HeartbeatIntervalSeconds fc * 3 in
  let base := if floor >? base then floor else base in
  (if base <=? 0 then 20 else base) * second.

Definition localHeartbeatState (c : controller) (observedAt : Z) : sharedHeartbeat :=
  let role := TrimSpace (CfgRole (cfg c)) in
  mkHeartbeat (TrimSpace (nodeName c)) role (if EqualFold role "standby" && vipAssigned c then "active" else role)
    (TrimSpace (CfgVirtualIP (cfg c))) (vipAssigned c) (Some (format_seconds observedAt)).

(** ** Counting the votes *)

(** A witness with its labels and its evaluation *)
Record Vote := mkVote { VtURL : string; VtTier : string; VtWeight : Z; VtGroup : string; VtSource : string; VtEvaluation : witnessEvaluation }.

(** The counters of the loop *)
Record Tally := mkTally {
  AllowCount : Z; AllowWeight : Z; FailureCount : Z; FailureWeight : Z;
  AllowCountByTier : gmap string Z; AllowWeightByTier : gmap string Z; FailedCountByTier : gmap string Z; FailedWeightByTier : gmap string Z;
  AllowGroups : gset string; AllowSources : gset string; AllowURLs : gset string;
  AllowGroupsByTier : gmap string (gset string); AllowSourcesByTier : gmap string (gset string); AllowURLsByTier : gmap string (gset string);
  FirstFailure : option witness_error; BlockingDenyTier : option string }.
Definition empty_tally : Tally := mkTally 0 0 0 0 ∅ ∅ ∅ ∅ ∅ ∅ ∅ ∅ ∅ ∅ None None.

Definition count_of (m : gmap string Z) (tier : string) : Z := default 0 (m !! tier).
Definition add_count (tier : string) (n : Z) (m : gmap string Z) : gmap string Z := <[tier := count_of m tier + n]> m.
Definition members_of (m : gmap string (gset string)) (tier : string) : gset string := default ∅ (m !! tier).
Definition add_member (tier value : string) (m : gmap string (gset string)) : gmap string (gset string) := <[tier := {[value]} ∪ members_of m tier]> m.

(** A label that is blank is not noted. *)
Definition note (value : string) (s : gset string) : gset string := if (TrimSpace value =? "")%string then s else {[TrimSpace value]} ∪ s.
Definition note_tier (tier value : string) (m : gmap string (gset string)) : gmap string (gset string) :=
  if (TrimSpace value =? "")%string then m else add_member tier (TrimSpace value) m.

Definition add_allowed (t : Tally) (v : Vote) : Tally :=
  mkTally (AllowCount t + 1) (AllowWeight t + VtWeight v) (FailureCount t) (FailureWeight t)
    (add_count (VtTier v) 1 (AllowCountByTier t)) (add_count (VtTier v) (VtWeight v) (AllowWeightByTier t)) (FailedCountByTier t) (FailedWeightByTier t)
    (note (VtGroup v) (AllowGroups t)) (note (VtSource v) (AllowSources t)) ({[VtURL v]} ∪ AllowURLs t)
    (note_tier (VtTier v) (VtGroup v) (AllowGroupsByTier t)) (note_tier (VtTier v) (VtSource v) (AllowSourcesByTier t))
    (add_member (VtTier v) (VtURL v) (AllowURLsByTier t)) (FirstFailure t) (BlockingDenyTier t).

Definition add_failed (t : Tally) (v : Vote) (e : witness_error) : Tally :=
  mkTally (AllowCount t) (AllowWeight t) (FailureCount t + 1) (FailureWeight t + VtWeight v) (AllowCountByTier t) (AllowWeightByTier t)
    (add_count (VtTier v) 1 (FailedCountByTier t)) (add_count (VtTier v) (VtWeight v) (FailedWeightByTier t))
    (AllowGroups t) (AllowSources t) (AllowURLs t) (AllowGroupsByTier t) (AllowSourcesByTier t) (AllowURLsByTier t)
    (match FirstFailure t with None => Some e | first => first end) (BlockingDenyTier t).

Definition with_blocking (t : Tally) (tier : string) : Tally :=
  mkTally (AllowCount t) (AllowWeight t) (FailureCount t) (FailureWeight t) (AllowCountByTier t) (AllowWeightByTier t) (FailedCountByTier t) (FailedWeightByTier t)
    (AllowGroups t) (AllowSources t) (AllowURLs t) (AllowGroupsByTier t) (AllowSourcesByTier t) (AllowURLsByTier t) (FirstFailure t) (Some tier).

Definition add_vote (blocking : list string) (t : Tally) (v : Vote) : Tally :=
  if EvAllowed (VtEvaluation v) then add_allowed t v
  else match EvErr (VtEvaluation v) with
  | Some e => add_failed t v e
  | None =>
      if bool_decide (VtTier v ∈ blocking) then match BlockingDenyTier t with None => with_blocking t (VtTier v) | Some _ => t end else t
  end.

Definition tally_votes fc (votes : list Vote) : Tally := foldl (add_vote (witnessBlockingTiers fc)) empty_tally votes.

(** ** The rules *)

Definition below_minimum (have : string -> Z) (entry : string * Z) : bool := (entry.2 >? 0) && (have entry.1 <? entry.2).
Definition minimums_met (required : gmap string Z) (have : string -> Z) : bool := negb (existsb (below_minimum have) (range_map required)).
(** What the maps of missing tiers say of one tier *)
Definition minimum_missing (required : gmap string Z) (have : string -> Z) (tier : string) : bool :=
  match required !! tier with Some n => below_minimum have (tier, n) | None => false end.

Definition all_present (required : list string) (have : gset string) : bool := forallb (fun x => bool_decide (x ∈ have)) required.
Definition lists_met (required : gmap string (list string)) (have : gmap string (gset string)) : bool :=
  forallb (fun '(tier, l) => all_present l (members_of have tier)) (range_map required).
Definition list_missing (required : gmap string (list string)) (have : gmap string (gset string)) (tier : string) : bool :=
  match required !! tier with Some l => negb (all_present l (members_of have tier)) | None => false end.

Definition size_of (m : gmap string (gset string)) (tier : string) : Z := Z.of_nat (size (members_of m tier)).

(** The quorum and the threshold of weights, lowered by the tolerated failures *)
Definition effective_quorum fc (total : Z) (t : Tally) : Z :=
  let quorum := effectiveWitnessQuorum fc total in
  let tolerated := effectiveWitnessTierFailureTolerance fc (FailedCountByTier t) (effectiveWitnessFailureTolerance fc total) in
  if tolerated >? 0 then (if quorum - tolerated <? 1 then 1 else quorum - tolerated) else quorum.
Definition effective_threshold fc (totalWeight : Z) (t : Tally) : Z :=
  let threshold := WitnessWeightThreshold fc in
  let tolerated := effectiveWitnessTierFailureWeightTolerance fc (FailedWeightByTier t) (effectiveWitnessFailureWeightTolerance fc totalWeight) in
  if tolerated >? 0 then (if threshold - tolerated <? 0 then 0 else threshold - tolerated) else threshold.

Definition enough_approvals fc (total : Z) (t : Tally) : bool := AllowCount t >=? effective_quorum fc total t.
Definition weight_satisfied fc (totalWeight : Z) (t : Tally) : bool :=
  let threshold := effective_threshold fc totalWeight t in (threshold <=? 0) || (AllowWeight t >=? threshold).

Definition tier_approvals_satisfied fc (t : Tally) : bool := minimums_met (WitnessMinApprovalsByTier fc) (count_of (AllowCountByTier t)).
Definition tier_weight_satisfied fc (t : Tally) : bool := minimums_met (WitnessMinWeightByTier fc) (count_of (AllowWeightByTier t)).
Definition tier_groups_satisfied fc (t : Tally) : bool := minimums_met (WitnessMinDistinctGroupsByTier fc) (size_of (AllowGroupsByTier t)).
Definition tier_sources_satisfied fc (t : Tally) : bool := minimums_met (WitnessMinDistinctSourcesByTier fc) (size_of (AllowSourcesByTier t)).
Definition tier_required_sources_satisfied fc (t : Tally) : bool := lists_met (requiredWitnessSourcesByTier fc) (AllowSourcesByTier t).
Definition tier_required_urls_satisfied fc (t : Tally) : bool := lists_met (requiredWitnessURLsByTier fc) (AllowURLsByTier t).
Definition tier_required_groups_satisfied fc (t : Tally) : bool := lists_met (requiredWitnessGroupsByTier fc) (AllowGroupsByTier t).

(** The policy mode of one tier *)
Definition tier_policy_satisfied fc (t : Tally) (tier : string) : bool :=
  let minimum (m : gmap string Z) := match m !! tier with Some n => n >? 0 | None => false end in
  let listed (m : gmap string (list string)) := match m !! tier with Some (_ :: _) => true | _ => false end in
  let urlMissing := list_missing (requiredWitnessURLsByTier fc) (AllowURLsByTier t) tier in
  let groupConfigured := minimum (WitnessMinDistinctGroupsByTier fc) || listed (requiredWitnessGroupsByTier fc) in
  let sourceConfigured := minimum (WitnessMinDistinctSourcesByTier fc) || listed (requiredWitnessSourcesByTier fc) || listed (requiredWitnessURLsByTier fc) in
  let groupSatisfied := negb groupConfigured
    || (negb (minimum_missing (WitnessMinDistinctGroupsByTier fc) (size_of (AllowGroupsByTier t)) tier)
        && negb (list_missing (requiredWitnessGroupsByTier fc) (AllowGroupsByTier t) tier)) in
  let sourceSatisfied := negb sourceConfigured
    || (negb (minimum_missing (WitnessMinDistinctSourcesByTier fc) (size_of (AllowSourcesByTier t)) tier)
        && negb (list_missing (requiredWitnessSourcesByTier fc) (AllowSourcesByTier t) tier) && negb urlMissing) in
  let mode := effectiveWitnessPolicyModeForTier fc tier in
  if (mode =? "any")%string then
    if groupConfigured && sourceConfigured then groupSatisfied || sourceSatisfied
    else if groupConfigured then groupSatisfied else if sourceConfigured then sourceSatisfied else true
  else if (mode =? "group_only")%string then groupSatisfied
  else if (mode =? "source_only")%string then sourceSatisfied
  else if (mode =? "url_only")%string then negb urlMissing
  else groupSatisfied && sourceSatisfied.

(** [tierPolicyCandidates] *)
Definition policy_tiers fc : gset string :=
  dom (WitnessMinDistinctGroupsByTier fc) ∪ dom (WitnessMinDistinctSourcesByTier fc) ∪ dom (requiredWitnessSourcesByTier fc)
  ∪ dom (requiredWitnessURLsByTier fc) ∪ dom (requiredWitnessGroupsByTier fc) ∪ dom (witnessPolicyModeByTier fc).

Definition tier_overrides_configured fc : bool := negb (bool_decide (witnessPolicyModeByTier fc = ∅)).
Definition tier_policies_satisfied fc (t : Tally) : bool := forallb (tier_policy_satisfied fc t) (elements (policy_tiers fc)).

(** The rules by tier, under the modes of the tiers if there are any *)
Definition tier_rules_satisfied fc (t : Tally) : bool :=
  if tier_overrides_configured fc then tier_policies_satisfied fc t
  else tier_groups_satisfied fc t && tier_sources_satisfied fc t && tier_required_sources_satisfied fc t && tier_required_urls_satisfied fc t
       && tier_required_groups_satisfied fc t.

Definition group_satisfied fc (t : Tally) : bool :=
  ((WitnessMinDistinctGroups fc <=? 0) || (Z.of_nat (size (AllowGroups t)) >=? WitnessMinDistinctGroups fc)) && all_present (requiredWitnessGroups fc) (AllowGroups t).
Definition source_satisfied fc (t : Tally) : bool := all_present (requiredWitnessSources fc) (AllowSources t).
Definition url_satisfied fc (t : Tally) : bool := all_present (requiredWitnessURLs fc) (AllowURLs t).
Definition given {A} (l : list A) : bool := match l with [] => false | _ => true end.
Definition group_configured fc : bool := (WitnessMinDistinctGroups fc >? 0) || given (requiredWitnessGroups fc).

(** The policy's mode: whether it is satisfied, and the status of its failure *)
Definition policy_satisfied fc (t : Tally) : bool :=
  let mode := witnessPolicyMode fc in
  let g := group_satisfied fc t in let s := source_satisfied fc t in let u := url_satisfied fc t in
  if (mode =? "any")%string then
    match group_configured fc, given (requiredWitnessSources fc), given (requiredWitnessURLs fc) with
    | true, true, true => g || s || u
    | true, true, false => g || s
    | true, false, true => g || u
    | false, true, true => s || u
    | true, false, false => g
    | false, true, false => s
    | false, false, true => u
    | false, false, false => true
    end
  else if (mode =? "group_only")%string then g
  else if (mode =? "source_only")%string then s
  else if (mode =? "url_only")%string then u
  else g && s && u.

Definition policy_failure fc (t : Tally) : string :=
  let mode := witnessPolicyMode fc in
  if policy_satisfied fc t then ""
  else if (mode =? "any")%string then
    match group_configured fc, given (requiredWitnessSources fc), given (requiredWitnessURLs fc) with
    | true, false, false => "diversity_unmet"
    | false, true, false => "source_unmet"
    | false, false, true => "url_unmet"
    | _, _, _ => "policy_any_unmet"
    end
  else if (mode =? "group_only")%string then "diversity_unmet"
  else if (mode =? "source_only")%string then "source_unmet"
  else if (mode =? "url_only")%string then "url_unmet"
  else if negb (group_satisfied fc t) then "diversity_unmet" else if negb (source_satisfied fc t) then "source_unmet" else "url_unmet".

Definition witnesses_permit fc (total totalWeight : Z) (t : Tally) : bool :=
  match BlockingDenyTier t with
  | Some _ => false
  | None =>
      enough_approvals fc total t && weight_satisfied fc totalWeight t && tier_approvals_satisfied fc t && tier_weight_satisfied fc t
      && tier_rules_satisfied fc t && policy_satisfied fc t
  end.

(** The status of several witnesses that do not permit: the first rule that fails *)
Definition refusal_status fc (total totalWeight : Z) (t : Tally) : string :=
  if negb (enough_approvals fc total t) then "quorum_unmet"
  else if negb (weight_satisfied fc totalWeight t) then "weight_unmet"
  else if negb (tier_approvals_satisfied fc t) then "tier_approval_unmet"
  else if negb (tier_weight_satisfied fc t) then "tier_weight_unmet"
  else if tier_overrides_configured fc && negb (tier_policies_satisfied fc t) then "tier_policy_unmet"
  else if negb (tier_groups_satisfied fc t) then "tier_diversity_unmet"
  else if negb (tier_sources_satisfied fc t) then "tier_source_diversity_unmet"
  else if negb (tier_required_sources_satisfied fc t) then "tier_source_unmet"
  else if negb (tier_required_urls_satisfied fc t) then "tier_url_unmet"
  else if negb (tier_required_groups_satisfied fc t) then "tier_group_unmet"
  else if negb (group_satisfied fc t) then "diversity_unmet"
  else if negb (policy_satisfied fc t) then policy_failure fc t
  else "quorum_unmet".

(** ** The verdict *)

Definition witness_vote fc (env : FencingEnv) (now : Z) (urls : list string) (url : string) : Vote :=
  let sources := (effectiveWitnessSources fc urls).1 in
  let tier := TrimSpace (default "" ((effectiveWitnessConfidence fc urls sources).1 !! url)) in
  mkVote url tier (default 0 ((effectiveWitnessWeights fc urls).1 !! url)) (default "" ((effectiveWitnessGroups fc urls).1 !! url))
    (default "" (sources !! url)) (evaluate_witness fc env now tier url).
Definition witness_votes fc (env : FencingEnv) (now : Z) : list Vote :=
  let urls := effectiveWitnessURLs fc in witness_vote fc env now urls <$> urls.

(** The heartbeats' part: the status, and whether the peer's heartbeat lets the standby pass *)
Definition heartbeat_status (local : option string) (peer : result string (option sharedHeartbeat)) (age : option Z) (stale : bool) : string :=
  match local, peer with
  | Some _, _ => "local_write_failed"
  | None, Err _ => "peer_read_failed"
  | None, Ok None => "peer_missing"
  | None, Ok (Some _) => match age with None => "peer_invalid" | Some _ => if stale then "peer_stale" else "peer_fresh" end
  end.

(** [standbyPromotionWindow] *)
Definition promotion_window (c : controller) (peerReachable failover : bool) : bool := role_is (cfg c) "standby" && negb peerReachable && failover.

(** The witnesses' part: the status, whether they allow the promotion, and the error *)
Definition witness_verdict fc (votes : list Vote) : string * bool * option witness_error :=
  let total := zlen votes in
  let totalWeight := foldr (fun v sum => VtWeight v + sum) 0 votes in
  let t := tally_votes fc votes in
  match BlockingDenyTier t with
  | Some _ => ("blocking_deny", false, None)
  | None =>
      if witnesses_permit fc total totalWeight t then (if total =? 1 then "ok" else "quorum_met", true, None)
      else ((match votes with [v] => EvStatus (VtEvaluation v) | _ => refusal_status fc total totalWeight t end), false, FirstFailure t)
  end.

Definition evaluateFencing fc (c : controller) (observedAt : Z) (peerReachable failover : bool) (env : FencingEnv) (files : gmap string hb_file)
    : fencingResult * gmap string hb_file :=
  if negb (SplitBrainProtectionEnabled fc)
  then (mkFencingResult false "disabled" true None None false None false no_heartbeat no_heartbeat "" false None, files)
  else
    let local := localHeartbeatState c observedAt in
    let '(writeError, files) := saveSharedHeartbeat fc (FirstWrite env) local files in
    let peer := loadPeerSharedHeartbeat fc (cfg c) (ReadFailure env) files in
    let heartbeat := match peer with Ok (Some state) => state | _ => no_heartbeat end in
    let present := match peer with Ok (Some _) => true | _ => false end in
    let age := match peer with Ok (Some state) => sharedHeartbeatAge state observedAt | _ => None end in
    let stale := match age with Some a => a >=? fencingHeartbeatStaleAfter fc (cfg c) | None => false end in
    let status := heartbeat_status writeError peer age stale in
    let window := promotion_window c peerReachable failover in
    let allowed := if window then (status =? "peer_stale")%string else true in
    let loadError := match peer with Err e => Some e | Ok _ => None end in
    let result status allowed witnessStatus witnessAllowed witnessError :=
      (mkFencingResult true status allowed writeError loadError present age stale heartbeat local witnessStatus witnessAllowed witnessError, files) in
    match effectiveWitnessURLs fc with
    | [] => result status allowed "disabled" false None
    | _ =>
        if negb window then result status allowed "idle" false None
        else
          let '(witnessStatus, witnessAllowed, witnessError) := witness_verdict fc (witness_votes fc env observedAt) in
          let allowed := allowed && witnessAllowed in
          let status := match witnessError with
                        | Some _ => "witness_failed"
                        | None => if negb witnessAllowed then "witness_blocked" else if allowed then "witness_allowed" else status
                        end in
          result status allowed witnessStatus witnessAllowed witnessError
    end.

(** ** The controller's tick under fencing *)

(** Whether a tick got to its end, where the heartbeat is published once more *)
Definition tick_completed (c : controller) (env : tick_env) (lease : vipLease) : bool :=
  let now := EnvNow env in
  let reachable := EnvPeerReachable env in
  let c := observePeer c now reachable in
  match EnvTarget env with
  | None => false
  | Some target =>
      CfgActive (cfg c) && EnvLoad env
      && (if negb (shouldHoldVIP c reachable (failoverActive c now reachable)) || (role_is (cfg c) "standby" && negb (EnvAllowPromotion env)) then true
          else match EnvActivation env with
               | Ok false => if (ensureLease c lease target now reachable).1.1 then EnvSave env && EnvAssign env else true
               | _ => false
               end)
  end.

Definition with_verdict (env : tick_env) (allowed : bool) : tick_env :=
  mkTickEnv (EnvNow env) (EnvPeerReachable env) (EnvTarget env) allowed (EnvActivation env) (EnvLoad env) (EnvSave env) (EnvClear env) (EnvAssign env).

(** [controller.tick]: the verdict of the fencing rules decides for [EnvAllowPromotion]. *)
Definition fenced_tick fc (c : controller) (env : tick_env) (fenv : FencingEnv) (lease : vipLease) (files : gmap string hb_file)
    : tick_outcome * option fencingResult * gmap string hb_file :=
  let observed := observePeer c (EnvNow env) (EnvPeerReachable env) in
  match CfgActive (cfg c), EnvTarget env with
  | true, Some _ =>
      let '(verdict, files) := evaluateFencing fc observed (EnvNow env) (EnvPeerReachable env)
                                 (failoverActive observed (EnvNow env) (EnvPeerReachable env)) fenv files in
      let env := with_verdict env (FrAllowPromotion verdict) in
      let outcome := tick c env lease in
      let files := if tick_completed c env lease && SplitBrainProtectionEnabled fc
                   then (saveSharedHeartbeat fc (SecondWrite fenv) (localHeartbeatState (Next outcome) (EnvNow env)) files).2 else files in
      (outcome, Some verdict, files)
  | _, _ => (tick c env lease, None, files)
  end.
End fencing.

(** ** Lemmas on lists of witnesses and on counters *)

Section lemmas.
Context {U : Unicode} {MR : MapRange}.

Lemma foldl_snoc {A B} (f : A -> B -> A) a l x : foldl f a (l ++ [x]) = f (foldl f a l) x.
Proof. by rewrite foldl_app. Qed.

Lemma add_trimmed_spec l value x : x ∈ add_trimmed l value <-> x ∈ l \/ (x = TrimSpace value /\ x <> "").
Proof.
  unfold add_trimmed. cbv zeta. destruct (String.eqb_spec (TrimSpace value) ""); [naive_solver|]. case_bool_decide; [naive_solver|].
  rewrite elem_of_app, list_elem_of_singleton. naive_solver.
Qed.

Lemma distinct_trimmed_spec values x : x ∈ distinct_trimmed values <-> x <> "" /\ exists v, v ∈ values /\ TrimSpace v = x.
Proof.
  unfold distinct_trimmed. induction values as [|v values IH] using rev_ind; cbn.
  - split; [by intros ?%elem_of_nil|]. intros (_ & v & Hv & _). by apply elem_of_nil in Hv.
  - rewrite foldl_snoc, add_trimmed_spec, IH. setoid_rewrite elem_of_app. setoid_rewrite list_elem_of_singleton. naive_solver.
Qed.

Lemma distinct_trimmed_NoDup values : NoDup (distinct_trimmed values).
Proof.
  unfold distinct_trimmed. induction values as [|v values IH] using rev_ind; cbn; [constructor|]. rewrite foldl_snoc. unfold add_trimmed.
  cbv zeta. split_if; [done|]. case_bool_decide; [done|]. apply NoDup_app. split_and!; [done| |apply NoDup_singleton].
  intros x Hx ->%list_elem_of_singleton. done.
Qed.

Lemma urls_spec fc url : url ∈ effectiveWitnessURLs fc -> url <> "" /\ TrimSpace url = url.
Proof.
  unfold effectiveWitnessURLs, normalizeWitnessURLSet. intros H.
  assert (forall l, url ∈ distinct_trimmed l -> url <> "" /\ TrimSpace url = url) as Hl.
  { intros l [He (v & _ & <-)]%distinct_trimmed_spec. split; [done|]. apply TrimSpace_idem. }
  destruct (WitnessURLs fc); by eapply Hl.
Qed.

Lemma urls_NoDup fc : NoDup (effectiveWitnessURLs fc).
Proof. unfold effectiveWitnessURLs, normalizeWitnessURLSet. destruct (WitnessURLs fc); apply distinct_trimmed_NoDup. Qed.

Lemma for_urls_lookup {A} (f : string -> A) urls u : u ∈ urls -> for_urls f urls !! u = Some (f u).
Proof.
  induction urls as [|v urls IH]; [by intros ?%elem_of_nil|]. intros [->|H]%elem_of_cons; cbn; [by rewrite lookup_insert_eq|].
  destruct (decide (u = v)) as [->|Hne]; [by rewrite lookup_insert_eq|]. rewrite lookup_insert_ne by done. by apply IH.
Qed.

Lemma url_weight_positive fc url : 1 <= url_weight fc url.
Proof. unfold url_weight. destruct (WitnessWeights fc !! _) as [w|]; [|lia]. rewrite Z.gtb_ltb. destruct (Z.ltb_spec 0 w); lia. Qed.

(** *** Counters by tier *)

Lemma count_of_add tier n m t : count_of (add_count tier n m) t = count_of m t + (if decide (t = tier) then n else 0).
Proof.
  unfold count_of, add_count. destruct (decide (t = tier)) as [->|Hne]; [by rewrite lookup_insert_eq|]. rewrite lookup_insert_ne by done. lia.
Qed.

Lemma members_of_add tier value m t x : x ∈ members_of (add_member tier value m) t <-> x ∈ members_of m t \/ (t = tier /\ x = value).
Proof.
  unfold members_of, add_member. destruct (decide (t = tier)) as [->|Hne]; [rewrite lookup_insert_eq|rewrite lookup_insert_ne by done]; cbn; set_solver.
Qed.

Lemma note_spec value s x : x ∈ note value s <-> x ∈ s \/ (x = TrimSpace value /\ x <> "").
Proof. unfold note. destruct (String.eqb_spec (TrimSpace value) ""); set_solver. Qed.

Lemma note_tier_spec tier value m t x : x ∈ members_of (note_tier tier value m) t <-> x ∈ members_of m t \/ (t = tier /\ x = TrimSpace value /\ x <> "").
Proof. unfold note_tier. destruct (String.eqb_spec (TrimSpace value) ""); [|rewrite members_of_add]; naive_solver. Qed.

(** *** What the loop counts *)

Definition allowed (v : Vote) : bool := EvAllowed (VtEvaluation v).
Definition failed (v : Vote) : bool := negb (allowed v) && bool_decide (is_Some (EvErr (VtEvaluation v))).
Definition denied (v : Vote) : bool := negb (allowed v) && bool_decide (EvErr (VtEvaluation v) = None).
Definition of_tier (tier : string) (v : Vote) : bool := bool_decide (VtTier v = tier).

(** The weights of the votes with a property *)
Fixpoint sum_of (f : Vote -> Z) (p : Vote -> bool) (votes : list Vote) : Z :=
  match votes with [] => 0 | v :: rest => (if p v then f v else 0) + sum_of f p rest end.
Definition one (_ : Vote) : Z := 1.

Lemma sum_of_app f p l k : sum_of f p (l ++ k) = sum_of f p l + sum_of f p k.
Proof. induction l as [|v l IH]; cbn; [done|]. rewrite IH. lia. Qed.

Lemma sum_of_nonneg f p l : (forall v, v ∈ l -> 0 <= f v) -> 0 <= sum_of f p l.
Proof.
  induction l as [|v l IH]; intros H; cbn; [lia|]. assert (0 <= f v) by (apply H; by left). assert (0 <= sum_of f p l) by (apply IH; intros x Hx; apply H; by right). destruct (p v); lia.
Qed.

#[export] Instance sum_of_perm f p : Proper ((≡ₚ) ==> eq) (sum_of f p).
Proof. intros l k H. induction H; cbn; lia. Qed.

(** The tally says of the votes: *)
Record counts_votes (blocking : list string) (votes : list Vote) (t : Tally) : Prop := {
  cv_count : AllowCount t = sum_of one allowed votes;
  cv_weight : AllowWeight t = sum_of VtWeight allowed votes;
  cv_count_tier tier : count_of (AllowCountByTier t) tier = sum_of one (fun v => allowed v && of_tier tier v) votes;
  cv_weight_tier tier : count_of (AllowWeightByTier t) tier = sum_of VtWeight (fun v => allowed v && of_tier tier v) votes;
  cv_failed_tier tier : count_of (FailedCountByTier t) tier = sum_of one (fun v => failed v && of_tier tier v) votes;
  cv_failed_weight_tier tier : count_of (FailedWeightByTier t) tier = sum_of VtWeight (fun v => failed v && of_tier tier v) votes;
  cv_groups x : x ∈ AllowGroups t <-> exists v, v ∈ votes /\ allowed v = true /\ x = TrimSpace (VtGroup v) /\ x <> "";
  cv_sources x : x ∈ AllowSources t <-> exists v, v ∈ votes /\ allowed v = true /\ x = TrimSpace (VtSource v) /\ x <> "";
  cv_urls x : x ∈ AllowURLs t <-> exists v, v ∈ votes /\ allowed v = true /\ x = VtURL v;
  cv_groups_tier tier x : x ∈ members_of (AllowGroupsByTier t) tier <-> exists v, v ∈ votes /\ allowed v = true /\ tier = VtTier v /\ x = TrimSpace (VtGroup v) /\ x <> "";
  cv_sources_tier tier x : x ∈ members_of (AllowSourcesByTier t) tier <-> exists v, v ∈ votes /\ allowed v = true /\ tier = VtTier v /\ x = TrimSpace (VtSource v) /\ x <> "";
  cv_urls_tier tier x : x ∈ members_of (AllowURLsByTier t) tier <-> exists v, v ∈ votes /\ allowed v = true /\ tier = VtTier v /\ x = VtURL v;
  cv_blocking : BlockingDenyTier t = None <-> forall v, v ∈ votes -> denied v = true -> VtTier v ∉ blocking;
}.

Lemma exists_snoc (P : Vote -> Prop) votes v : (exists w, w ∈ votes ++ [v] /\ P w) <-> (exists w, w ∈ votes /\ P w) \/ P v.
Proof. setoid_rewrite elem_of_app. setoid_rewrite list_elem_of_singleton. naive_solver. Qed.

Lemma sum_of_snoc f p votes v : sum_of f p (votes ++ [v]) = sum_of f p votes + (if p v then f v else 0).
Proof. rewrite sum_of_app. cbn. lia. Qed.

Ltac count_field H Hv Hf :=
  clear - H Hv Hf; intros; cbn; rewrite ?count_of_add, sum_of_snoc, <- H, ?Hv, ?Hf; unfold of_tier, one; cbn [andb];
  repeat first [case_decide|case_bool_decide]; subst; try done; lia.
Ltac set_field H Hv :=
  clear - H Hv; intros; cbn; rewrite exists_snoc, <- H, ?note_spec, ?note_tier_spec, ?members_of_add, ?elem_of_union, ?elem_of_singleton, ?Hv; clear; naive_solver.

Lemma veto_snoc (blocking : list string) votes v : (forall w, w ∈ votes ++ [v] -> denied w = true -> VtTier w ∉ blocking)
  <-> (forall w, w ∈ votes -> denied w = true -> VtTier w ∉ blocking) /\ (denied v = true -> VtTier v ∉ blocking).
Proof. setoid_rewrite elem_of_app. setoid_rewrite list_elem_of_singleton. naive_solver. Qed.

Lemma add_allowed_counts blocking votes t v : allowed v = true -> counts_votes blocking votes t -> counts_votes blocking (votes ++ [v]) (add_allowed t v).
Proof.
  intros Hv [H1 H2 H3 H4 H5 H6 H7 H8 H9 H10 H11 H12 H13]. assert (failed v = false) as Hf by (unfold failed; by rewrite Hv).
  split; [count_field H1 Hv Hf|count_field H2 Hv Hf|count_field H3 Hv Hf|count_field H4 Hv Hf|count_field H5 Hv Hf|count_field H6 Hv Hf
         |set_field H7 Hv|set_field H8 Hv|set_field H9 Hv|set_field H10 Hv|set_field H11 Hv|set_field H12 Hv|].
  cbn. rewrite veto_snoc, H13. unfold denied. rewrite Hv. cbn. clear. naive_solver.
Qed.

Lemma add_failed_counts blocking votes t v e : failed v = true -> counts_votes blocking votes t -> counts_votes blocking (votes ++ [v]) (add_failed t v e).
Proof.
  intros Hf [H1 H2 H3 H4 H5 H6 H7 H8 H9 H10 H11 H12 H13]. unfold failed in Hf. apply andb_true_iff in Hf as [Hv Hs]. apply negb_true_iff in Hv.
  assert (failed v = true) as Hf by (unfold failed; by rewrite Hv, Hs).
  split; [count_field H1 Hv Hf|count_field H2 Hv Hf|count_field H3 Hv Hf|count_field H4 Hv Hf|count_field H5 Hv Hf|count_field H6 Hv Hf
         |set_field H7 Hv|set_field H8 Hv|set_field H9 Hv|set_field H10 Hv|set_field H11 Hv|set_field H12 Hv|].
  cbn. rewrite veto_snoc, H13. assert (denied v = false) as ->; [|clear; naive_solver]. unfold denied. rewrite Hv. apply bool_decide_eq_true in Hs as [? Hs].
  rewrite Hs. by apply bool_decide_false.
Qed.

(** A denial changes the veto alone. *)
Lemma denied_counts blocking votes t v (b : option string) : denied v = true ->
  (b = None <-> BlockingDenyTier t = None /\ VtTier v ∉ blocking) -> counts_votes blocking votes t ->
  counts_votes blocking (votes ++ [v]) (match b with Some tier => with_blocking t tier | None => t end).
Proof.
  intros Hd Hb [H1 H2 H3 H4 H5 H6 H7 H8 H9 H10 H11 H12 H13]. unfold denied in Hd. apply andb_true_iff in Hd as [Hv Hs]. apply negb_true_iff in Hv.
  assert (denied v = true) as Hd by (unfold denied; by rewrite Hv, Hs). apply bool_decide_eq_true in Hs.
  assert (failed v = false) as Hf by (unfold failed; rewrite Hs, Hv; by apply bool_decide_false; intros [? [=]]).
  destruct b as [tier|];
  (split; [count_field H1 Hv Hf|count_field H2 Hv Hf|count_field H3 Hv Hf|count_field H4 Hv Hf|count_field H5 Hv Hf|count_field H6 Hv Hf
         |set_field H7 Hv|set_field H8 Hv|set_field H9 Hv|set_field H10 Hv|set_field H11 Hv|set_field H12 Hv|]);
  cbn; rewrite veto_snoc, <- H13; clear -Hb Hd; naive_solver.
Qed.

Lemma add_vote_counts blocking votes t v : counts_votes blocking votes t -> counts_votes blocking (votes ++ [v]) (add_vote blocking t v).
Proof.
  intros Hc. unfold add_vote. destruct (EvAllowed (VtEvaluation v)) eqn:Ea; [by apply add_allowed_counts|].
  destruct (EvErr (VtEvaluation v)) as [e|] eqn:Ee; [apply add_failed_counts; [|done]; unfold failed, allowed; rewrite Ea, Ee; by apply bool_decide_true; eexists|].
  assert (denied v = true) as Hd by (unfold denied, allowed; rewrite Ea, Ee; by apply bool_decide_true).
  case_bool_decide as Hb; [destruct (BlockingDenyTier t) as [b|] eqn:Eb|].
  - assert (with_blocking t b = t) as <- by (destruct t; cbn in Eb; by subst). apply (denied_counts _ _ _ _ (Some b)); [done| |done]. rewrite Eb. naive_solver.
  - apply (denied_counts _ _ _ _ (Some (VtTier v))); [done| |done]. naive_solver.
  - destruct (BlockingDenyTier t) as [b|] eqn:Eb.
    + assert (with_blocking t b = t) as Ht by (destruct t; cbn in Eb; by subst). rewrite <- Ht. apply (denied_counts _ _ _ _ (Some b)); [done| |done]. rewrite Eb. naive_solver.
    + apply (denied_counts _ _ _ _ None); [done| |done]. naive_solver.
Qed.

Lemma tally_counts fc votes : counts_votes (witnessBlockingTiers fc) votes (tally_votes fc votes).
Proof.
  unfold tally_votes. induction votes as [|v votes IH] using rev_ind; [|rewrite foldl_snoc; by apply add_vote_counts].
  split; try done; intros; cbn; try (unfold count_of; by rewrite lookup_empty); unfold members_of; rewrite ?lookup_empty; cbn; try set_solver.
Qed.

(** *** The tolerated failures as a function of the counts by tier *)

Fixpoint tier_sum (tiers : list string) (f : string -> Z) : Z := match tiers with [] => 0 | tier :: rest => f tier + tier_sum rest f end.

Lemma tier_sum_app l k f : tier_sum (l ++ k) f = tier_sum l f + tier_sum k f.
Proof. induction l as [|x l IH]; cbn; [done|]. rewrite IH. lia. Qed.

#[export] Instance tier_sum_perm : Proper ((≡ₚ) ==> pointwise_relation _ eq ==> eq) tier_sum.
Proof.
  intros l k H f g Hf. transitivity (tier_sum l g); [clear H|clear Hf].
  - induction l as [|x l IH] in |-*; cbn; [done|]. by rewrite Hf, IH.
  - induction H; cbn; [done|..]; lia.
Qed.

Lemma tier_sum_le tiers f g : (forall t, f t <= g t) -> tier_sum tiers f <= tier_sum tiers g.
Proof. intros H. induction tiers as [|t l IH]; cbn; [lia|]. specialize (H t). lia. Qed.

Lemma tier_sum_add tiers f g : tier_sum tiers (fun t => f t + g t) = tier_sum tiers f + tier_sum tiers g.
Proof. induction tiers as [|t l IH]; cbn; [done|]. lia. Qed.

Lemma tier_sum_0 tiers f : (forall t, t ∈ tiers -> f t = 0) -> tier_sum tiers f = 0.
Proof.
  intros H. induction tiers as [|t l IH]; cbn; [done|]. rewrite H by by left. rewrite IH; [done|]. intros x Hx. apply H. by right.
Qed.

(** The part of a tier's failures within its budget, and the part without one *)
Definition budgeted (budgets : gmap string Z) (tier : string) (count : Z) : Z :=
  if count <=? 0 then 0 else match budgets !! tier with Some budget => minInt count (maxInt budget 0) | None => 0 end.
Definition unbudgeted (budgets : gmap string Z) (tier : string) (count : Z) : Z :=
  if count <=? 0 then 0 else match budgets !! tier with Some _ => 0 | None => count end.

Lemma tolerated_steps budgets l acc : foldl (tolerated_step budgets) acc l
  = (acc.1 + foldr (fun e s => budgeted budgets e.1 e.2 + s) 0 l, acc.2 + foldr (fun e s => unbudgeted budgets e.1 e.2 + s) 0 l).
Proof.
  revert acc. induction l as [|[tier count] l IH]; intros [a b]; cbn; [f_equal; lia|]. rewrite IH. unfold budgeted, unbudgeted.
  destruct (count <=? 0); cbn; [done|]. destruct (budgets !! tier); cbn; f_equal; lia.
Qed.

Lemma entries_sum (f : string -> Z -> Z) (m : gmap string Z) tiers : (forall t n, n <= 0 -> f t n = 0) -> NoDup tiers -> (forall t, is_Some (m !! t) -> t ∈ tiers) ->
  foldr (fun e s => f e.1 e.2 + s) 0 (range_map m) = tier_sum tiers (fun t => f t (count_of m t)).
Proof.
  intros Hf Hnd Hdom. assert ((range_map m).*1 ⊆+ tiers) as (rest & Hp)%submseteq_Permutation.
  { apply NoDup_submseteq; [apply NoDup_range_map|]. intros t ([t' n] & -> & Hin)%list_elem_of_fmap. apply elem_of_range_map in Hin. apply Hdom. by eexists. }
  rewrite Hp, tier_sum_app. rewrite (tier_sum_0 rest).
  - rewrite Z.add_0_r. assert (forall e, e ∈ range_map m -> m !! e.1 = Some e.2) as Hm by (intros [t n] H; by apply elem_of_range_map in H).
    clear Hp. induction (range_map m) as [|[t n] l IH]; cbn; [done|]. rewrite IH by (intros e He; apply Hm; by right).
    assert (count_of m t = n) as ->; [|done]. unfold count_of. pose proof (Hm (t, n)) as Hn. cbn in Hn. by rewrite Hn by by left.
  - intros t Ht. apply Hf. unfold count_of. destruct (m !! t) as [n|] eqn:E; [|done]. exfalso. rewrite Hp in Hnd. apply NoDup_app in Hnd as (_ & Hd & _).
    apply (Hd t); [|done]. apply list_elem_of_fmap. exists (t, n). split; [done|]. by apply elem_of_range_map.
Qed.

Definition tolerance (budgets : gmap string Z) (default : Z) (tiers : list string) (count : string -> Z) : Z :=
  tier_sum tiers (fun t => budgeted budgets t (count t)) + Z.min (tier_sum tiers (fun t => unbudgeted budgets t (count t))) (Z.max default 0).

Lemma tolerated_spec budgets (failures : gmap string Z) default tiers : NoDup tiers -> (forall t, is_Some (failures !! t) -> t ∈ tiers) ->
  tolerated_failures budgets failures default = tolerance budgets default tiers (count_of failures).
Proof.
  intros Hnd Hdom. unfold tolerated_failures, tolerance. rewrite tolerated_steps. cbn.
  rewrite (entries_sum (budgeted budgets) failures tiers), (entries_sum (unbudgeted budgets) failures tiers); try done; try (by intros t n Hn; unfold budgeted, unbudgeted; apply Z.leb_le in Hn; rewrite Hn).
  assert (0 <= tier_sum tiers (fun t => unbudgeted budgets t (count_of failures t))) as Hu.
  { rewrite <- (tier_sum_0 tiers (fun _ => 0)) by done. apply tier_sum_le. intros t. unfold unbudgeted. destruct (Z.leb_spec (count_of failures t) 0); [done|]. destruct (budgets !! t); lia. }
  set (s1 := tier_sum tiers (fun t => budgeted _ _ _)). set (s2 := tier_sum tiers (fun t => unbudgeted _ _ _)) in *. clearbody s1 s2.
  unfold minInt. rewrite !Z.gtb_ltb, !Z.add_0_l. destruct (Z.ltb_spec 0 s2), (Z.ltb_spec 0 default), (Z.ltb_spec s2 default); cbn [andb]; lia.
Qed.

(** Fewer failures cost at most as much tolerance. *)
Lemma tolerance_lipschitz budgets default tiers f g : (forall t, 0 <= g t <= f t) ->
  tolerance budgets default tiers f - tolerance budgets default tiers g <= tier_sum tiers f - tier_sum tiers g.
Proof.
  intros H. assert (tier_sum tiers (fun t => budgeted budgets t (f t) + unbudgeted budgets t (f t) + g t) <= tier_sum tiers (fun t => budgeted budgets t (g t) + unbudgeted budgets t (g t) + f t)) as H1.
  { apply tier_sum_le. intros t. specialize (H t). unfold budgeted, unbudgeted, minInt, maxInt.
    destruct (budgets !! t); rewrite ?Z.gtb_ltb; repeat split_if; bool_arith; lia. }
  assert (tier_sum tiers (fun t => unbudgeted budgets t (g t)) <= tier_sum tiers (fun t => unbudgeted budgets t (f t))) as H2.
  { apply tier_sum_le. intros t. specialize (H t). unfold unbudgeted. destruct (budgets !! t); repeat split_if; bool_arith; lia. }
  rewrite !(tier_sum_add tiers (fun t => _ + _)), !tier_sum_add in H1. unfold tolerance. lia.
Qed.

Lemma tolerance_bounds budgets default tiers f : (forall t, 0 <= f t) -> 0 <= tolerance budgets default tiers f <= tier_sum tiers f.
Proof.
  intros H. pose proof (tolerance_lipschitz budgets default tiers f (fun _ => 0)) as Hl. rewrite (tier_sum_0 tiers (fun _ => 0)) in Hl by done.
  assert (tolerance budgets default tiers (fun _ => 0) = 0) as Hz. { unfold tolerance. rewrite !tier_sum_0 by done. lia. }
  split; [|rewrite Hz in Hl; enough (tolerance budgets default tiers f - 0 <= tier_sum tiers f - 0) by lia; apply Hl; intros t; specialize (H t); lia].
  unfold tolerance. assert (0 <= tier_sum tiers (fun t => budgeted budgets t (f t))).
  { rewrite <- (tier_sum_0 tiers (fun _ => 0)) by done. apply tier_sum_le. intros t. unfold budgeted, minInt, maxInt. destruct (budgets !! t); rewrite ?Z.gtb_ltb; repeat split_if; bool_arith; lia. }
  assert (0 <= tier_sum tiers (fun t => unbudgeted budgets t (f t))).
  { rewrite <- (tier_sum_0 tiers (fun _ => 0)) by done. apply tier_sum_le. intros t. unfold unbudgeted. destruct (budgets !! t); repeat split_if; bool_arith; lia. }
  lia.
Qed.

(** The counts by tier make up the whole. *)
Lemma sum_by_tier f p votes tiers : NoDup tiers -> (forall v, v ∈ votes -> VtTier v ∈ tiers) ->
  tier_sum tiers (fun tier => sum_of f (fun v => p v && of_tier tier v) votes) = sum_of f p votes.
Proof.
  intros Hnd. induction votes as [|v votes IH]; intros Hin; cbn [sum_of]; [by apply tier_sum_0|].
  rewrite (tier_sum_add tiers (fun tier => if p v && of_tier tier v then f v else 0)), IH by (intros w Hw; apply Hin; by right). f_equal.
  assert (VtTier v ∈ tiers) as (l & k & ->)%list_elem_of_split by (apply Hin; by left). apply NoDup_app in Hnd as (_ & Hd & [Hk _]%NoDup_cons).
  rewrite tier_sum_app. change (tier_sum (VtTier v :: k) ?g) with (g (VtTier v) + tier_sum k g). cbv beta. unfold of_tier. rewrite bool_decide_true by done. rewrite andb_true_r.
  rewrite (tier_sum_0 l), (tier_sum_0 k); [lia| |].
  - intros t Ht. cbv beta. rewrite bool_decide_false; [by rewrite andb_false_r|]. intros Heq. by rewrite <- Heq in Ht.
  - intros t Ht. cbv beta. rewrite bool_decide_false; [by rewrite andb_false_r|]. intros Heq. rewrite <- Heq in Ht. apply (Hd _ Ht). by left.
Qed.

Lemma failed_dom fc votes tier :
  is_Some (FailedCountByTier (tally_votes fc votes) !! tier) \/ is_Some (FailedWeightByTier (tally_votes fc votes) !! tier) -> exists v, v ∈ votes /\ VtTier v = tier.
Proof.
  unfold tally_votes. induction votes as [|v votes IH] using rev_ind; [cbn; rewrite !lookup_empty; by intros [[? ?]|[? ?]]|].
  rewrite foldl_snoc. setoid_rewrite elem_of_app. setoid_rewrite list_elem_of_singleton. intros H.
  destruct (decide (VtTier v = tier)) as [He|Hne]; [by exists v; auto|]. destruct IH as (w & Hw & Ht); [|by exists w; auto]. revert H. unfold add_vote.
  destruct (EvAllowed (VtEvaluation v)), (EvErr (VtEvaluation v)); try done; [cbn; unfold add_count; by rewrite !lookup_insert_ne by done|].
  case_bool_decide; [|done]. by destruct (BlockingDenyTier _).
Qed.

Section tolerated.
Context (fc : FencingConfig) (votes : list Vote) (tiers : list string) (Hnd : NoDup tiers) (Hin : forall v, v ∈ votes -> VtTier v ∈ tiers).

Lemma tolerated_votes default : effectiveWitnessTierFailureTolerance fc (FailedCountByTier (tally_votes fc votes)) default
  = tolerance (WitnessFailureToleranceByTier fc) default tiers (fun tier => sum_of one (fun v => failed v && of_tier tier v) votes).
Proof using Hnd Hin.
  unfold effectiveWitnessTierFailureTolerance. rewrite (tolerated_spec _ _ _ tiers Hnd).
  - unfold tolerance. f_equal; [|f_equal]; apply tier_sum_perm; try done; intros tier; by rewrite (cv_failed_tier _ _ _ (tally_counts fc votes)).
  - intros tier Hs. destruct (failed_dom fc votes tier) as (v & Hv & <-); auto.
Qed.

Lemma tolerated_weights default : effectiveWitnessTierFailureWeightTolerance fc (FailedWeightByTier (tally_votes fc votes)) default
  = tolerance (WitnessFailureWeightByTier fc) default tiers (fun tier => sum_of VtWeight (fun v => failed v && of_tier tier v) votes).
Proof using Hnd Hin.
  unfold effectiveWitnessTierFailureWeightTolerance. rewrite (tolerated_spec _ _ _ tiers Hnd).
  - unfold tolerance. f_equal; [|f_equal]; apply tier_sum_perm; try done; intros tier; by rewrite (cv_failed_weight_tier _ _ _ (tally_counts fc votes)).
  - intros tier Hs. destruct (failed_dom fc votes tier) as (v & Hv & <-); auto.
Qed.
End tolerated.

(** The tiers of some votes *)
Definition tiers_of (votes : list Vote) : list string := remove_dups (VtTier <$> votes).
Lemma tiers_of_NoDup votes : NoDup (tiers_of votes).
Proof. apply NoDup_remove_dups. Qed.
Lemma tiers_of_spec votes v : v ∈ votes -> VtTier v ∈ tiers_of votes.
Proof. intros Hv. apply elem_of_remove_dups, list_elem_of_fmap. by exists v. Qed.

(** The failures that the budgets tolerate, by number and by weight *)
Definition tolerated_count fc (votes : list Vote) : Z :=
  tolerance (WitnessFailureToleranceByTier fc) (effectiveWitnessFailureTolerance fc (zlen votes)) (tiers_of votes) (fun tier => sum_of one (fun v => failed v && of_tier tier v) votes).
Definition tolerated_weight fc (votes : list Vote) : Z :=
  tolerance (WitnessFailureWeightByTier fc) (effectiveWitnessFailureWeightTolerance fc (foldr (fun v sum => VtWeight v + sum) 0 votes)) (tiers_of votes)
    (fun tier => sum_of VtWeight (fun v => failed v && of_tier tier v) votes).

Lemma tolerated_count_any fc votes tiers : NoDup tiers -> (forall v, v ∈ votes -> VtTier v ∈ tiers) ->
  tolerated_count fc votes = tolerance (WitnessFailureToleranceByTier fc) (effectiveWitnessFailureTolerance fc (zlen votes)) tiers (fun tier => sum_of one (fun v => failed v && of_tier tier v) votes).
Proof. intros Hnd Hin. unfold tolerated_count. rewrite <- !tolerated_votes; auto using tiers_of_NoDup, tiers_of_spec. Qed.
Lemma tolerated_weight_any fc votes tiers : NoDup tiers -> (forall v, v ∈ votes -> VtTier v ∈ tiers) ->
  tolerated_weight fc votes = tolerance (WitnessFailureWeightByTier fc) (effectiveWitnessFailureWeightTolerance fc (foldr (fun v sum => VtWeight v + sum) 0 votes)) tiers
    (fun tier => sum_of VtWeight (fun v => failed v && of_tier tier v) votes).
Proof. intros Hnd Hin. unfold tolerated_weight. rewrite <- !tolerated_weights; auto using tiers_of_NoDup, tiers_of_spec. Qed.

Lemma one_nonneg p votes : 0 <= sum_of one p votes.
Proof. apply sum_of_nonneg. by intros. Qed.

Lemma tolerated_count_bounds fc votes : 0 <= tolerated_count fc votes <= sum_of one failed votes.
Proof.
  rewrite <- (sum_by_tier one failed votes (tiers_of votes)) by auto using tiers_of_NoDup, tiers_of_spec. apply tolerance_bounds. intros. apply one_nonneg.
Qed.
Lemma tolerated_weight_bounds fc votes : (forall v, v ∈ votes -> 0 <= VtWeight v) -> 0 <= tolerated_weight fc votes <= sum_of VtWeight failed votes.
Proof.
  intros Hw. rewrite <- (sum_by_tier VtWeight failed votes (tiers_of votes)) by auto using tiers_of_NoDup, tiers_of_spec. apply tolerance_bounds.
  intros. by apply sum_of_nonneg.
Qed.

(** *** The two thresholds *)

Lemma quorum_rule fc votes : votes <> [] -> enough_approvals fc (zlen votes) (tally_votes fc votes) = true
  <-> 1 <= sum_of one allowed votes /\ effectiveWitnessQuorum fc (zlen votes) <= sum_of one allowed votes + tolerated_count fc votes.
Proof.
  intros Hne. unfold enough_approvals, effective_quorum. cbv zeta. rewrite (cv_count _ _ _ (tally_counts fc votes)).
  rewrite (tolerated_votes fc votes (tiers_of votes)) by auto using tiers_of_NoDup, tiers_of_spec. fold (tolerated_count fc votes).
  pose proof (tolerated_count_bounds fc votes) as Hb. pose proof (one_nonneg allowed votes) as Ha.
  assert (1 <= effectiveWitnessQuorum fc (zlen votes)) as Hq.
  { unfold effectiveWitnessQuorum, zlen. destruct votes; [done|]. cbn [length]. repeat split_if; bool_arith; lia. }
  repeat split_if; bool_arith; rewrite Z.geb_leb, Z.leb_le; lia.
Qed.

Lemma weight_rule fc votes : (forall v, v ∈ votes -> 0 <= VtWeight v) ->
  weight_satisfied fc (foldr (fun v sum => VtWeight v + sum) 0 votes) (tally_votes fc votes) = true
  <-> WitnessWeightThreshold fc <= sum_of VtWeight allowed votes + tolerated_weight fc votes.
Proof.
  intros Hw. unfold weight_satisfied, effective_threshold. cbv zeta. rewrite (cv_weight _ _ _ (tally_counts fc votes)).
  rewrite (tolerated_weights fc votes (tiers_of votes)) by auto using tiers_of_NoDup, tiers_of_spec. fold (tolerated_weight fc votes).
  pose proof (tolerated_weight_bounds fc votes Hw) as Hb. pose proof (sum_of_nonneg VtWeight allowed votes Hw) as Ha.
  rewrite orb_true_iff, Z.geb_leb, !Z.leb_le. repeat split_if; bool_arith; lia.
Qed.

(** *** The rules are monotone in what approved *)

Record approves_more (t t' : Tally) : Prop := {
  am_counts tier : count_of (AllowCountByTier t) tier <= count_of (AllowCountByTier t') tier;
  am_weights tier : count_of (AllowWeightByTier t) tier <= count_of (AllowWeightByTier t') tier;
  am_groups : AllowGroups t ⊆ AllowGroups t';
  am_sources : AllowSources t ⊆ AllowSources t';
  am_urls : AllowURLs t ⊆ AllowURLs t';
  am_groups_tier tier : members_of (AllowGroupsByTier t) tier ⊆ members_of (AllowGroupsByTier t') tier;
  am_sources_tier tier : members_of (AllowSourcesByTier t) tier ⊆ members_of (AllowSourcesByTier t') tier;
  am_urls_tier tier : members_of (AllowURLsByTier t) tier ⊆ members_of (AllowURLsByTier t') tier;
}.

(** [a] holds only if [b] holds *)
Definition entails (a b : bool) : Prop := a = true -> b = true.

Lemma entails_refl a : entails a a.
Proof. by unfold entails. Qed.

Lemma below_minimum_mono (f g : string -> Z) e : (forall t, f t <= g t) -> entails (below_minimum g e) (below_minimum f e).
Proof. intros H. unfold entails, below_minimum. rewrite !andb_true_iff, !Z.ltb_lt. specialize (H e.1). intros [? ?]. split; [done|lia]. Qed.

Lemma entails_negb a b : entails a b -> entails (negb b) (negb a).
Proof. unfold entails. destruct a, b; cbn; intuition congruence. Qed.

Lemma minimums_met_mono required (f g : string -> Z) : (forall t, f t <= g t) -> entails (minimums_met required f) (minimums_met required g).
Proof.
  intros H. apply entails_negb. unfold entails. rewrite !existsb_exists. intros (e & He & Hb). exists e. split; [done|]. by eapply below_minimum_mono.
Qed.

Lemma minimum_missing_mono required (f g : string -> Z) tier : (forall t, f t <= g t) -> entails (minimum_missing required g tier) (minimum_missing required f tier).
Proof. intros H. unfold minimum_missing. destruct (required !! tier); [|apply entails_refl]. by apply below_minimum_mono. Qed.

Lemma all_present_mono required (s s' : gset string) : s ⊆ s' -> entails (all_present required s) (all_present required s').
Proof. intros H. unfold entails, all_present. rewrite !forallb_forall. intros Hs x Hx. specialize (Hs x Hx). cbv beta in *. apply bool_decide_eq_true in Hs. apply bool_decide_eq_true. by apply H. Qed.

Lemma lists_met_mono required (m m' : gmap string (gset string)) : (forall t, members_of m t ⊆ members_of m' t) -> entails (lists_met required m) (lists_met required m').
Proof.
  intros H. unfold entails, lists_met. rewrite !forallb_forall. intros Hs [tier l] Hx. specialize (Hs _ Hx). cbn beta iota in *. exact (all_present_mono l _ _ (H tier) Hs).
Qed.

Lemma list_missing_mono required (m m' : gmap string (gset string)) tier : (forall t, members_of m t ⊆ members_of m' t) -> entails (list_missing required m' tier) (list_missing required m tier).
Proof.
  intros H. unfold entails, list_missing. destruct (required !! tier) as [l|]; [|by unfold entails]. rewrite !negb_true_iff. intros Hf. apply not_true_is_false.
  intros Ht. apply (all_present_mono l _ _ (H tier)) in Ht. congruence.
Qed.

Lemma size_of_mono (m m' : gmap string (gset string)) : (forall t, members_of m t ⊆ members_of m' t) -> forall t, size_of m t <= size_of m' t.
Proof. intros H t. unfold size_of. apply inj_le, subseteq_size, H. Qed.

Lemma entails_and a b a' b' : entails a a' -> entails b b' -> entails (a && b) (a' && b').
Proof. unfold entails. rewrite !andb_true_iff. tauto. Qed.
Lemma entails_or a b a' b' : entails a a' -> entails b b' -> entails (a || b) (a' || b').
Proof. unfold entails. rewrite !orb_true_iff. tauto. Qed.
Section mono.
Context (fc : FencingConfig) (t t' : Tally) (H : approves_more t t').

Lemma tier_policy_mono tier : entails (tier_policy_satisfied fc t tier) (tier_policy_satisfied fc t' tier).
Proof using H.
  unfold tier_policy_satisfied. cbv zeta.
  pose proof (entails_negb _ _ (minimum_missing_mono (WitnessMinDistinctGroupsByTier fc) _ _ tier (size_of_mono _ _ (am_groups_tier _ _ H)))) as H1.
  pose proof (entails_negb _ _ (minimum_missing_mono (WitnessMinDistinctSourcesByTier fc) _ _ tier (size_of_mono _ _ (am_sources_tier _ _ H)))) as H2.
  pose proof (entails_negb _ _ (list_missing_mono (requiredWitnessGroupsByTier fc) _ _ tier (am_groups_tier _ _ H))) as H3.
  pose proof (entails_negb _ _ (list_missing_mono (requiredWitnessSourcesByTier fc) _ _ tier (am_sources_tier _ _ H))) as H4.
  pose proof (entails_negb _ _ (list_missing_mono (requiredWitnessURLsByTier fc) _ _ tier (am_urls_tier _ _ H))) as H5.
  set (g := (_ || match requiredWitnessGroupsByTier fc !! tier with Some _ => _ | None => _ end)).
  set (s := (_ || match requiredWitnessSourcesByTier fc !! tier with Some _ => _ | None => _ end || _)). clearbody g s.
  pose proof (entails_or (negb g) _ (negb g) _ (entails_refl _) (entails_and _ _ _ _ H1 H3)) as Hg.
  pose proof (entails_or (negb s) _ (negb s) _ (entails_refl _) (entails_and _ _ _ _ (entails_and _ _ _ _ H2 H4) H5)) as Hs.
  repeat split_if; auto using entails_or, entails_and, entails_refl.
Qed.

Lemma tier_rules_mono : entails (tier_rules_satisfied fc t) (tier_rules_satisfied fc t').
Proof using H.
  unfold tier_rules_satisfied. destruct (tier_overrides_configured fc).
  - unfold entails, tier_policies_satisfied. rewrite !forallb_forall. intros Hs x Hx. apply tier_policy_mono; auto.
  - repeat apply entails_and; first [apply minimums_met_mono, size_of_mono|apply lists_met_mono]; apply H.
Qed.

Lemma policy_mono : entails (policy_satisfied fc t) (policy_satisfied fc t').
Proof using H.
  assert (entails (group_satisfied fc t) (group_satisfied fc t')) as Hg.
  { apply entails_and; [|apply all_present_mono, H]. apply entails_or; [apply entails_refl|]. unfold entails. rewrite !Z.geb_leb, !Z.leb_le.
    pose proof (subseteq_size _ _ (am_groups _ _ H)). lia. }
  assert (entails (source_satisfied fc t) (source_satisfied fc t')) as Hs by apply all_present_mono, H.
  assert (entails (url_satisfied fc t) (url_satisfied fc t')) as Hu by apply all_present_mono, H.
  unfold policy_satisfied. cbv zeta. repeat split_if; auto using entails_and, entails_or, entails_refl.
Qed.

Lemma permit_mono n n' w w' : entails (enough_approvals fc n t) (enough_approvals fc n' t') -> entails (weight_satisfied fc w t) (weight_satisfied fc w' t') ->
  (BlockingDenyTier t = None -> BlockingDenyTier t' = None) -> entails (witnesses_permit fc n w t) (witnesses_permit fc n' w' t').
Proof using H.
  intros He Hw Hb. unfold witnesses_permit. destruct (BlockingDenyTier t); [by unfold entails|]. rewrite Hb by done.
  repeat apply entails_and; [exact He|exact Hw| | |apply tier_rules_mono|apply policy_mono]; apply minimums_met_mono, H.
Qed.
End mono.

(** *** Votes that differ in their answers *)

(** The same witness, with the same answer or one that approves *)
Definition at_least (v v' : Vote) : Prop :=
  VtURL v' = VtURL v /\ VtTier v' = VtTier v /\ VtWeight v' = VtWeight v /\ VtGroup v' = VtGroup v /\ VtSource v' = VtSource v
  /\ (VtEvaluation v' = VtEvaluation v \/ allowed v' = true).

Lemma at_least_allowed v v' : at_least v v' -> entails (allowed v) (allowed v').
Proof. unfold entails, allowed. intros (_ & _ & _ & _ & _ & [->|?]); done. Qed.
Lemma at_least_failed v v' : at_least v v' -> entails (failed v') (failed v).
Proof. unfold entails, failed, allowed. intros (_ & _ & _ & _ & _ & [->|He]); [done|]. unfold allowed in He. by rewrite He. Qed.
Lemma at_least_denied v v' : at_least v v' -> denied v' = true -> denied v = true.
Proof. unfold denied, allowed. intros (_ & _ & _ & _ & _ & [->|He]); [done|]. unfold allowed in He. by rewrite He. Qed.

Definition weights_nonneg (votes : list Vote) : Prop := forall v, v ∈ votes -> 0 <= VtWeight v.

Section better.
Context (f : Vote -> Z) (Hf : forall v v', at_least v v' -> f v' = f v).

Lemma sum_le p q votes votes' : Forall2 at_least votes votes' -> (forall v, v ∈ votes -> 0 <= f v) -> (forall v v', at_least v v' -> entails (p v) (q v')) ->
  sum_of f p votes <= sum_of f q votes'.
Proof using Hf.
  intros H Hw Hp. induction H as [|v v' l l' Hv _ IH]; cbn; [done|]. specialize (Hp v v' Hv). rewrite (Hf v v' Hv). unfold entails in Hp.
  assert (0 <= f v) by (apply Hw; by left). assert (sum_of f p l <= sum_of f q l') by (apply IH; intros w Hin; apply Hw; by right).
  destruct (p v), (q v'); first [lia|by specialize (Hp eq_refl)].
Qed.

Lemma sum_ge p q votes votes' : Forall2 at_least votes votes' -> (forall v, v ∈ votes -> 0 <= f v) -> (forall v v', at_least v v' -> entails (q v') (p v)) ->
  sum_of f q votes' <= sum_of f p votes.
Proof using Hf.
  intros H Hw Hp. induction H as [|v v' l l' Hv _ IH]; cbn; [done|]. specialize (Hp v v' Hv). rewrite (Hf v v' Hv). unfold entails in Hp.
  assert (0 <= f v) by (apply Hw; by left). assert (sum_of f q l' <= sum_of f p l) by (apply IH; intros w Hin; apply Hw; by right).
  destruct (p v), (q v'); first [lia|by specialize (Hp eq_refl)].
Qed.

(** What no longer fails approves. *)
Lemma sum_answers votes votes' : Forall2 at_least votes votes' -> (forall v, v ∈ votes -> 0 <= f v) ->
  sum_of f allowed votes + sum_of f failed votes <= sum_of f allowed votes' + sum_of f failed votes'.
Proof using Hf.
  intros H Hw. induction H as [|v v' l l' Hv _ IH]; cbn; [done|]. rewrite (Hf v v' Hv).
  assert (0 <= f v) by (apply Hw; by left). assert (sum_of f allowed l + sum_of f failed l <= sum_of f allowed l' + sum_of f failed l') by (apply IH; intros w Hin; apply Hw; by right).
  destruct Hv as (_ & _ & _ & _ & _ & [He|He]); [unfold failed, allowed in *; rewrite He; lia|].
  assert (failed v' = false) as -> by (unfold failed; by rewrite He). rewrite He. unfold failed at 1. destruct (allowed v); cbn; [lia|]. case_bool_decide; lia.
Qed.

(** The budgets lose at most what the approvals gain. *)
Lemma tolerance_answers budgets default tiers votes votes' : NoDup tiers -> (forall v, v ∈ votes -> VtTier v ∈ tiers) -> (forall v, v ∈ votes' -> VtTier v ∈ tiers) ->
  Forall2 at_least votes votes' -> (forall v, v ∈ votes -> 0 <= f v) -> (forall v, v ∈ votes' -> 0 <= f v) ->
  sum_of f allowed votes + tolerance budgets default tiers (fun tier => sum_of f (fun v => failed v && of_tier tier v) votes)
  <= sum_of f allowed votes' + tolerance budgets default tiers (fun tier => sum_of f (fun v => failed v && of_tier tier v) votes').
Proof using Hf.
  intros Hnd Hin Hin' H Hw Hw'. pose proof (sum_answers _ _ H Hw) as Hs.
  pose proof (tolerance_lipschitz budgets default tiers (fun tier => sum_of f (fun v => failed v && of_tier tier v) votes)
    (fun tier => sum_of f (fun v => failed v && of_tier tier v) votes')) as Hl.
  cbv beta in Hl. rewrite !(sum_by_tier f failed _ tiers Hnd) in Hl by done. cut (forall t, 0 <= sum_of f (fun v => failed v && of_tier t v) votes' <= sum_of f (fun v => failed v && of_tier t v) votes).
  { intros Ht. specialize (Hl Ht). lia. }
  intros tier. split; [by apply sum_of_nonneg|]. apply (sum_ge _ _ votes votes'); [done..|]. intros v v' Hv. apply entails_and; [by apply at_least_failed|].
  unfold of_tier. destruct Hv as (_ & -> & _). apply entails_refl.
Qed.
End better.

Lemma at_least_tiers votes votes' : Forall2 at_least votes votes' -> VtTier <$> votes' = VtTier <$> votes.
Proof. intros H. induction H as [|v v' l l' (_ & Ht & _) _ IH]; cbn; [done|]. by rewrite Ht, IH. Qed.
Lemma at_least_weights votes votes' : Forall2 at_least votes votes' -> VtWeight <$> votes' = VtWeight <$> votes.
Proof. intros H. induction H as [|v v' l l' (_ & _ & Ht & _) _ IH]; cbn; [done|]. by rewrite Ht, IH. Qed.
Lemma total_weight votes : foldr (fun v sum => VtWeight v + sum) 0 votes = foldr Z.add 0 (VtWeight <$> votes).
Proof. induction votes as [|v l IH]; cbn; congruence. Qed.

Lemma at_least_exists (P : Vote -> Prop) votes votes' : Forall2 at_least votes votes' -> (forall v v', at_least v v' -> P v -> P v') ->
  (exists v, v ∈ votes /\ allowed v = true /\ P v) -> exists v, v ∈ votes' /\ allowed v = true /\ P v.
Proof.
  intros H HP (v & [i Hi]%list_elem_of_lookup & Ha & Hv). destruct (Forall2_lookup_l _ _ _ _ _ H Hi) as (v' & Hi' & Hr).
  exists v'. split_and!; [by eapply list_elem_of_lookup_2|by eapply at_least_allowed|by eapply HP].
Qed.

Lemma at_least_more fc votes votes' : Forall2 at_least votes votes' -> weights_nonneg votes -> approves_more (tally_votes fc votes) (tally_votes fc votes').
Proof.
  intros H Hw. pose proof (tally_counts fc votes) as [_ _ H3 H4 _ _ H7 H8 H9 H10 H11 H12 _]. pose proof (tally_counts fc votes') as [_ _ K3 K4 _ _ K7 K8 K9 K10 K11 K12 _].
  assert (forall tier v v', at_least v v' -> entails (allowed v && of_tier tier v) (allowed v' && of_tier tier v')) as Ht.
  { intros tier v v' Hv. apply entails_and; [by apply at_least_allowed|]. unfold of_tier. destruct Hv as (_ & -> & _). apply entails_refl. }
  split; intros; [rewrite H3, K3|rewrite H4, K4|..].
  1: exact (sum_le one (fun _ _ _ => eq_refl) _ _ votes votes' H (fun _ _ => Z.le_0_1) (Ht tier)).
  1: exact (sum_le VtWeight (fun v v' Hv => proj1 (proj2 (proj2 Hv))) _ _ votes votes' H Hw (Ht tier)).
  all: intros x; rewrite ?H7, ?H8, ?H9, ?H10, ?H11, ?H12, ?K7, ?K8, ?K9, ?K10, ?K11, ?K12; apply (at_least_exists _ votes votes' H);
    intros v v' (Hu & Ht' & _ & Hg & Hs & _); rewrite ?Hu, ?Ht', ?Hg, ?Hs; done.
Qed.

Lemma permit_at_least fc votes votes' : Forall2 at_least votes votes' -> weights_nonneg votes ->
  entails (witnesses_permit fc (zlen votes) (foldr (fun v sum => VtWeight v + sum) 0 votes) (tally_votes fc votes))
          (witnesses_permit fc (zlen votes') (foldr (fun v sum => VtWeight v + sum) 0 votes') (tally_votes fc votes')).
Proof.
  intros H Hw. destruct votes as [|v0 votes0] eqn:Ev; [apply Forall2_nil_inv_l in H as ->; apply entails_refl|]. rewrite <- Ev in *.
  assert (weights_nonneg votes') as Hw'.
  { intros v' [i Hi]%list_elem_of_lookup. destruct (Forall2_lookup_r _ _ _ _ _ H Hi) as (v & Hi' & _ & _ & -> & _). apply Hw. by eapply list_elem_of_lookup_2. }
  assert (votes <> []) as Hne by congruence. assert (votes' <> []) as Hne' by (intros ->; apply Forall2_nil_inv_r in H; done).
  pose proof (at_least_tiers _ _ H) as Ht. pose proof (at_least_weights _ _ H) as Hws. pose proof (Forall2_length _ _ _ H) as Hlen.
  assert (tiers_of votes' = tiers_of votes) as Hto by (unfold tiers_of; by rewrite Ht).
  assert (zlen votes' = zlen votes) as Hz by (unfold zlen; by rewrite Hlen).
  assert (forall v, v ∈ votes' -> VtTier v ∈ tiers_of votes) as Hin' by (rewrite <- Hto; apply tiers_of_spec).
  apply permit_mono; [by apply at_least_more| | |].
  - unfold entails. rewrite !quorum_rule by done. rewrite Hz. unfold tolerated_count. rewrite Hto, Hz.
    pose proof (tolerance_answers one (fun _ _ _ => eq_refl) (WitnessFailureToleranceByTier fc) (effectiveWitnessFailureTolerance fc (zlen votes)) (tiers_of votes) votes votes'
      (tiers_of_NoDup _) (tiers_of_spec _) Hin' H (fun _ _ => Z.le_0_1) (fun _ _ => Z.le_0_1)).
    pose proof (sum_le one (fun _ _ _ => eq_refl) allowed allowed votes votes' H (fun _ _ => Z.le_0_1) at_least_allowed). lia.
  - unfold entails. rewrite !weight_rule by done. unfold tolerated_weight. rewrite Hto, !total_weight, Hws.
    pose proof (tolerance_answers VtWeight (fun v v' Hv => proj1 (proj2 (proj2 Hv))) (WitnessFailureWeightByTier fc)
      (effectiveWitnessFailureWeightTolerance fc (foldr Z.add 0 (VtWeight <$> votes))) (tiers_of votes) votes votes' (tiers_of_NoDup _) (tiers_of_spec _) Hin' H Hw Hw'). lia.
  - rewrite (cv_blocking _ _ _ (tally_counts fc votes)), (cv_blocking _ _ _ (tally_counts fc votes')).
    intros Hb v' [i Hi]%list_elem_of_lookup Hd. destruct (Forall2_lookup_r _ _ _ _ _ H Hi) as (v & Hi' & Hv).
    pose proof (at_least_denied _ _ Hv Hd) as Hdv. destruct Hv as (_ & -> & _). apply Hb; [by eapply list_elem_of_lookup_2|done].
Qed.

(** *** The order of the votes *)

Lemma permuted_more fc votes votes' : votes ≡ₚ votes' -> approves_more (tally_votes fc votes) (tally_votes fc votes').
Proof.
  intros H. pose proof (tally_counts fc votes) as [_ _ H3 H4 _ _ H7 H8 H9 H10 H11 H12 _]. pose proof (tally_counts fc votes') as [_ _ K3 K4 _ _ K7 K8 K9 K10 K11 K12 _].
  split; intros; [rewrite H3, K3, H; done|rewrite H4, K4, H; done|..].
  all: intros x; rewrite ?H7, ?H8, ?H9, ?H10, ?H11, ?H12, ?K7, ?K8, ?K9, ?K10, ?K11, ?K12; by setoid_rewrite H.
Qed.

Lemma sum_perm f p votes votes' : votes ≡ₚ votes' -> sum_of f p votes = sum_of f p votes'.
Proof. intros H. by rewrite H. Qed.
Lemma tolerance_ext budgets default tiers f g : (forall t, f t = g t) -> tolerance budgets default tiers f = tolerance budgets default tiers g.
Proof. intros H. unfold tolerance. f_equal; [|f_equal]; apply tier_sum_perm; try done; intros t; by rewrite H. Qed.

Lemma zlen_perm (votes votes' : list Vote) : votes ≡ₚ votes' -> zlen votes = zlen votes'.
Proof. intros H. unfold zlen. by rewrite H. Qed.

Lemma permuted_permit fc votes votes' : votes ≡ₚ votes' -> weights_nonneg votes ->
  entails (witnesses_permit fc (zlen votes) (foldr (fun v sum => VtWeight v + sum) 0 votes) (tally_votes fc votes))
          (witnesses_permit fc (zlen votes') (foldr (fun v sum => VtWeight v + sum) 0 votes') (tally_votes fc votes')).
Proof.
  intros H Hw. destruct votes as [|v0 votes0] eqn:Ev; [apply Permutation_nil in H as ->; apply entails_refl|]. rewrite <- Ev in *.
  assert (weights_nonneg votes') as Hw' by (intros v Hv; apply Hw; by rewrite H).
  assert (votes <> []) as Hne by congruence. assert (votes' <> []) as Hne' by (intros ->; apply Permutation_nil_r in H; done).
  assert (forall v, v ∈ votes' -> VtTier v ∈ tiers_of votes) as Hin' by (intros v Hv; apply tiers_of_spec; by rewrite H).
  assert (foldr Z.add 0 (VtWeight <$> votes) = foldr Z.add 0 (VtWeight <$> votes')) as Ht.
  { clear - H. induction H; cbn; lia. }
  apply permit_mono; [by apply permuted_more| | |].
  - unfold entails. rewrite !quorum_rule by done. rewrite !(tolerated_count_any fc _ (tiers_of votes)) by auto using tiers_of_NoDup, tiers_of_spec.
    rewrite (zlen_perm _ _ H), (sum_perm one allowed _ _ H), (tolerance_ext _ _ _ _ _ (fun t => sum_perm one _ _ _ H)). done.
  - unfold entails. rewrite !weight_rule by done. rewrite !(tolerated_weight_any fc _ (tiers_of votes)) by auto using tiers_of_NoDup, tiers_of_spec.
    rewrite !total_weight, Ht, (sum_perm VtWeight allowed _ _ H), (tolerance_ext _ _ _ _ _ (fun t => sum_perm VtWeight _ _ _ H)). done.
  - rewrite (cv_blocking _ _ _ (tally_counts fc votes)), (cv_blocking _ _ _ (tally_counts fc votes')). by setoid_rewrite H.
Qed.

Lemma entails_antisym a b : entails a b -> entails b a -> a = b.
Proof. unfold entails. destruct a, b; naive_solver. Qed.

Lemma verdict_allowed fc votes :
  (witness_verdict fc votes).1.2 = witnesses_permit fc (zlen votes) (foldr (fun v sum => VtWeight v + sum) 0 votes) (tally_votes fc votes).
Proof. unfold witness_verdict, witnesses_permit. cbv zeta. destruct (BlockingDenyTier _); [done|]. by destruct (_ && _ && _ && _ && _ && _). Qed.
End lemmas.

Section verdicts.
Context {U : Unicode} {MR : MapRange} {PT : ParseRFC3339} {HM : Hmac} {BJ : BodyJson} {JP : JoinPath}.

(** *** The witnesses of a configuration *)

Lemma votes_weights fc env now : weights_nonneg (witness_votes fc env now).
Proof.
  intros v (url & -> & Hu)%list_elem_of_fmap. cbn [VtWeight witness_vote]. unfold effectiveWitnessWeights. cbn [fst].
  rewrite for_urls_lookup by done. cbn. pose proof (url_weight_positive fc url). lia.
Qed.

Lemma url_label_trimmed overrides url : TrimSpace (url_label overrides url) = url_label overrides url.
Proof. unfold url_label. destruct (overrides !! _); [split_if|]; apply TrimSpace_idem. Qed.
Lemma url_tier_trimmed fc sources url : TrimSpace (url_tier fc sources url) = url_tier fc sources url.
Proof. unfold url_tier. cbv zeta. destruct (WitnessSourceConfidence fc !! _); [split_if; [done|apply TrimSpace_idem]|done]. Qed.
Lemma url_tier_given fc sources url : url_tier fc sources url <> "".
Proof. unfold url_tier. cbv zeta. destruct (WitnessSourceConfidence fc !! _); [split_if; [done|by apply String.eqb_neq]|done]. Qed.

(** The tier under which a witness is counted is the one its answer was checked for. *)
Lemma vote_tier fc env now urls url : url ∈ urls -> url <> "" -> TrimSpace url = url -> VtTier (witness_vote fc env now urls url) = effectiveWitnessConfidenceForURL fc url.
Proof.
  intros Hu Hne Ht. cbn [VtTier witness_vote]. unfold effectiveWitnessConfidenceForURL, effectiveWitnessConfidence, effectiveWitnessSources. cbv zeta. cbn [fst].
  rewrite Ht, (proj2 (String.eqb_neq _ _) Hne). rewrite !for_urls_lookup by (done || by left). cbn [default from_option id].
  assert (forall s s' : gmap string string, s !! url = s' !! url -> url_tier fc s url = url_tier fc s' url) as Heq by (intros s s' E; unfold url_tier; by rewrite E).
  unfold id. rewrite (Heq _ (for_urls (url_label (WitnessSources fc)) [url])) by (by rewrite !for_urls_lookup by (done || by left)).
  rewrite url_tier_trimmed. by rewrite (proj2 (String.eqb_neq _ _) (url_tier_given _ _ _)).
Qed.

(** *** The verdict inside the failover window *)

Notation evaluate := evaluateFencing.

(** The local heartbeat is written, and the peer's is read and stale. *)
Definition heartbeats_permit fc (c : controller) (now : Z) (env : FencingEnv) (files : gmap string hb_file) : bool :=
  match saveSharedHeartbeat fc (FirstWrite env) (localHeartbeatState c now) files with
  | (None, files') =>
      match loadPeerSharedHeartbeat fc (cfg c) (ReadFailure env) files' with
      | Ok (Some state) => match sharedHeartbeatAge state now with Some age => age >=? fencingHeartbeatStaleAfter fc (cfg c) | None => false end
      | _ => false
      end
  | _ => false
  end.

Definition witnesses_allow fc (votes : list Vote) : bool :=
  match votes with [] => true | _ => witnesses_permit fc (zlen votes) (foldr (fun v sum => VtWeight v + sum) 0 votes) (tally_votes fc votes) end.

Lemma votes_urls fc env now : effectiveWitnessURLs fc = [] <-> witness_votes fc env now = [].
Proof. unfold witness_votes. destruct (effectiveWitnessURLs fc); done. Qed.

Lemma evaluate_window fc c now reachable failover env files : SplitBrainProtectionEnabled fc = true -> promotion_window c reachable failover = true ->
  FrAllowPromotion (evaluate fc c now reachable failover env files).1 = heartbeats_permit fc c now env files && witnesses_allow fc (witness_votes fc env now).
Proof.
  intros He Hw. unfold evaluateFencing, heartbeats_permit. rewrite He, Hw. cbn [negb]. destruct (saveSharedHeartbeat _ _ _ _) as [writeError files'].
  set (peer := loadPeerSharedHeartbeat _ _ _ _). set (votes := witness_votes fc env now).
  assert ((heartbeat_status writeError peer (match peer with Ok (Some state) => sharedHeartbeatAge state now | _ => None end)
    (match (match peer with Ok (Some state) => sharedHeartbeatAge state now | _ => None end) with Some a => a >=? fencingHeartbeatStaleAfter fc (cfg c) | None => false end) =? "peer_stale")%string
    = match writeError with None => match peer with Ok (Some state) => match sharedHeartbeatAge state now with Some age => age >=? fencingHeartbeatStaleAfter fc (cfg c) | None => false end | _ => false end | _ => false end) as ->.
  { destruct writeError; [done|]. destruct peer as [[state|]|]; [|done..]. cbn. destruct (sharedHeartbeatAge state now); [|done]. cbn. by destruct (_ >=? _). }
  set (h := match writeError with None => _ | _ => _ end). clearbody h.
  destruct (effectiveWitnessURLs fc) as [|u us] eqn:Eu.
  - apply votes_urls with (env := env) (now := now) in Eu. subst votes. rewrite Eu. cbn. by rewrite andb_true_r.
  - assert (votes <> []) as Hne by (intros H; apply votes_urls in H; by rewrite H in Eu).
    pose proof (verdict_allowed fc votes) as Hv. unfold witnesses_allow. destruct votes as [|v0 vs]; [done|]. rewrite <- Hv.
    by destruct (witness_verdict fc (v0 :: vs)) as [[? ?] ?].
Qed.

(** What the witnesses must have said *)
Definition approved (votes : list Vote) (P : Vote -> Prop) : Prop := exists v, v ∈ votes /\ allowed v = true /\ P v.
Record promotion_conditions fc (votes : list Vote) : Prop := {
  pc_veto v : v ∈ votes -> denied v = true -> VtTier v ∉ witnessBlockingTiers fc;
  pc_approval : 1 <= sum_of one allowed votes;
  pc_quorum : effectiveWitnessQuorum fc (zlen votes) <= sum_of one allowed votes + tolerated_count fc votes;
  pc_weight : WitnessWeightThreshold fc <= sum_of VtWeight allowed votes + tolerated_weight fc votes;
  pc_tier_approvals tier n : WitnessMinApprovalsByTier fc !! tier = Some n -> n <= sum_of one (fun v => allowed v && of_tier tier v) votes;
  pc_tier_weight tier n : WitnessMinWeightByTier fc !! tier = Some n -> n <= sum_of VtWeight (fun v => allowed v && of_tier tier v) votes;
  pc_labels : witnessPolicyMode fc = "all" ->
    (forall g, g ∈ requiredWitnessGroups fc -> approved votes (fun v => TrimSpace (VtGroup v) = g))
    /\ (forall s, s ∈ requiredWitnessSources fc -> approved votes (fun v => TrimSpace (VtSource v) = s))
    /\ (forall u, u ∈ requiredWitnessURLs fc -> approved votes (fun v => VtURL v = u));
  pc_tier_labels tier l : witnessPolicyModeByTier fc = ∅ ->
    (requiredWitnessGroupsByTier fc !! tier = Some l -> forall g, g ∈ l -> approved votes (fun v => VtTier v = tier /\ TrimSpace (VtGroup v) = g))
    /\ (requiredWitnessSourcesByTier fc !! tier = Some l -> forall s, s ∈ l -> approved votes (fun v => VtTier v = tier /\ TrimSpace (VtSource v) = s))
    /\ (requiredWitnessURLsByTier fc !! tier = Some l -> forall u, u ∈ l -> approved votes (fun v => VtTier v = tier /\ VtURL v = u));
}.

Lemma minimums_met_lookup required have tier n : minimums_met required have = true -> required !! tier = Some n -> n <= 0 \/ n <= have tier.
Proof.
  unfold minimums_met. rewrite negb_true_iff. intros Hf Hl. destruct (below_minimum have (tier, n)) eqn:Eb.
  - assert (existsb (below_minimum have) (range_map required) = true); [|congruence]. apply existsb_exists. exists (tier, n). split; [|done].
    apply list_elem_of_In. by apply elem_of_range_map.
  - unfold below_minimum in Eb. cbn in Eb. bool_arith. lia.
Qed.

Lemma all_present_spec required have : all_present required have = true <-> forall x, x ∈ required -> x ∈ have.
Proof. unfold all_present. rewrite forallb_forall. setoid_rewrite bool_decide_eq_true. by setoid_rewrite <- list_elem_of_In. Qed.

Lemma lists_met_lookup required have tier l x : lists_met required have = true -> required !! tier = Some l -> x ∈ l -> x ∈ members_of have tier.
Proof.
  unfold lists_met. rewrite forallb_forall. intros H Hl. specialize (H (tier, l)). cbn in H. rewrite all_present_spec in H. apply H.
  apply list_elem_of_In. by apply elem_of_range_map.
Qed.

Lemma permit_conditions fc votes : votes <> [] -> weights_nonneg votes -> witnesses_allow fc votes = true -> promotion_conditions fc votes.
Proof.
  intros Hne Hw. unfold witnesses_allow. destruct votes as [|v0 votes0] eqn:Ev; [done|]. rewrite <- Ev in *. unfold witnesses_permit.
  pose proof (tally_counts fc votes) as [_ _ H3 H4 _ _ H7 H8 H9 H10 H11 H12 H13].
  destruct (BlockingDenyTier _) eqn:Eb; [done|]. rewrite !andb_true_iff, quorum_rule, weight_rule by done. intros [[[[[[Ha Hq] Hwt] Hta] Htw] Htr] Hp].
  split; [by apply H13|done|done|done|..].
  - intros tier n Hl. pose proof (minimums_met_lookup _ _ _ _ Hta Hl) as H. rewrite H3 in H. pose proof (one_nonneg (fun v => allowed v && of_tier tier v) votes). lia.
  - intros tier n Hl. pose proof (minimums_met_lookup _ _ _ _ Htw Hl) as H. rewrite H4 in H.
    pose proof (sum_of_nonneg VtWeight (fun v => allowed v && of_tier tier v) votes Hw). lia.
  - intros Hm. unfold policy_satisfied in Hp. rewrite Hm in Hp. cbn in Hp. apply andb_true_iff in Hp as [[Hg Hs]%andb_true_iff Hu].
    unfold group_satisfied in Hg. apply andb_true_iff in Hg as [_ Hg]. unfold source_satisfied in Hs. unfold url_satisfied in Hu. rewrite all_present_spec in *. unfold approved. split_and!.
    + intros g (v & ? & ? & ? & ?)%Hg%H7. by exists v.
    + intros g (v & ? & ? & ? & ?)%Hs%H8. by exists v.
    + intros g (v & ? & ? & ?)%Hu%H9. by exists v.
  - intros tier l Hm. unfold tier_rules_satisfied, tier_overrides_configured in Htr. rewrite bool_decide_true in Htr by done. cbn in Htr. rewrite !andb_true_iff in Htr.
    destruct Htr as [[[_ Hs] Hu] Hg]. unfold approved. split_and!; intros Hl x Hx.
    + destruct (proj1 (H10 _ _) (lists_met_lookup _ _ _ _ _ Hg Hl Hx)) as (v & ? & ? & -> & ? & ?). by exists v.
    + destruct (proj1 (H11 _ _) (lists_met_lookup _ _ _ _ _ Hs Hl Hx)) as (v & ? & ? & -> & ? & ?). by exists v.
    + destruct (proj1 (H12 _ _) (lists_met_lookup _ _ _ _ _ Hu Hl Hx)) as (v & ? & ? & -> & ?). by exists v.
Qed.

(** *** The heartbeats' part *)

Lemma stale_after_positive fc ha : 0 < fencingHeartbeatStaleAfter fc ha.
Proof. unfold fencingHeartbeatStaleAfter, second. cbv zeta. destruct (_ >? _); split_if; bool_arith; lia. Qed.

Lemma age_of_ge t now bound : 0 < bound -> age_of t now >=? bound = true <-> bound <= now - t.
Proof. intros H. unfold age_of. rewrite Z.geb_leb, Z.leb_le. split_if; bool_arith; lia. Qed.

Lemma save_heartbeat fc failure state files files' :
  saveSharedHeartbeat fc failure state files = (None, files')
  <-> failure = None /\ TrimSpace (sharedHeartbeatPath fc (HbConfiguredRole state)) <> ""
      /\ files' = <[sharedHeartbeatPath fc (HbConfiguredRole state) := HeartbeatFile state]> files.
Proof.
  unfold saveSharedHeartbeat. cbv zeta. destruct (String.eqb_spec (TrimSpace (sharedHeartbeatPath fc (HbConfiguredRole state))) ""); [naive_solver|].
  destruct failure; naive_solver.
Qed.

Lemma load_heartbeat fc ha failure files state :
  loadPeerSharedHeartbeat fc ha failure files = Ok (Some state)
  <-> failure = None /\ TrimSpace (sharedHeartbeatPath fc (peerConfiguredRole ha)) <> ""
      /\ files !! sharedHeartbeatPath fc (peerConfiguredRole ha) = Some (HeartbeatFile state).
Proof.
  unfold loadPeerSharedHeartbeat. cbv zeta. destruct (String.eqb_spec (TrimSpace (sharedHeartbeatPath fc (peerConfiguredRole ha))) ""); [naive_solver|].
  destruct failure; [naive_solver|]. destruct (files !! _) as [[| |]|]; naive_solver.
Qed.

Lemma heartbeats_permit_spec fc c now env files : heartbeats_permit fc c now env files = true
  <-> exists peer published files', saveSharedHeartbeat fc (FirstWrite env) (localHeartbeatState c now) files = (None, files')
      /\ loadPeerSharedHeartbeat fc (cfg c) (ReadFailure env) files' = Ok (Some peer)
      /\ PublishedAt peer = Some published /\ fencingHeartbeatStaleAfter fc (cfg c) <= now - published * second.
Proof.
  unfold heartbeats_permit. pose proof (stale_after_positive fc (cfg c)) as Hs. split.
  - destruct (saveSharedHeartbeat _ _ _ _) as [[|] files'] eqn:Es; [done|]. destruct (loadPeerSharedHeartbeat _ _ _ _) as [[peer|]|] eqn:El; [|done..].
    unfold sharedHeartbeatAge. destruct (PublishedAt peer) as [published|] eqn:Ep; [|done]. cbn. intros H%age_of_ge; [|done]. by exists peer, published, files'.
  - intros (peer & published & files' & -> & -> & Hp & Hl). unfold sharedHeartbeatAge. rewrite Hp. cbn. by apply age_of_ge.
Qed.

Lemma evaluate_files fc c now reachable failover env files : SplitBrainProtectionEnabled fc = true ->
  (evaluate fc c now reachable failover env files).2 = (saveSharedHeartbeat fc (FirstWrite env) (localHeartbeatState c now) files).2.
Proof.
  intros He. unfold evaluateFencing. rewrite He. cbn [negb]. destruct (saveSharedHeartbeat _ _ _ _) as [writeError files']. cbn [snd].
  destruct (effectiveWitnessURLs fc); [done|]. destruct (promotion_window _ _ _); [|done]. by destruct (witness_verdict _ _) as [[? ?] ?].
Qed.

(** *** What an allowed evaluation is made of *)

Lemma probe_answer fc env url decision : TrimSpace url = url -> probeWitnessDecisionURL fc env url = Ok decision ->
  exists challenge response, (if witnessChallengeEnabled fc then Challenges env url = Ok challenge else challenge = "")
  /\ Http env url (witnessBearerToken fc env) challenge = Ok response
  /\ read_response fc env (effectiveWitnessConfidenceForURL fc url) challenge response = Ok decision.
Proof.
  unfold probeWitnessDecisionURL. cbv zeta. intros ->. destruct (url =? "")%string; [done|]. destruct (_ && _); [done|]. destruct (_ && _); [done|].
  destruct (if witnessChallengeEnabled fc then _ else _) as [challenge|] eqn:Ec; [|done]. destruct (Request env url); [done|].
  destruct (Http env url (witnessBearerToken fc env) challenge) as [response|] eqn:Eh; [|done]. intros H. exists challenge, response.
  split_and!; [destruct (witnessChallengeEnabled fc); [done|naive_solver]|done|done].
Qed.

Lemma response_answer fc env tier challenge response decision : read_response fc env tier challenge response = Ok decision ->
  exists body decoded status, 200 <= StatusCode response < 300 /\ Body response = Ok body /\ decode_body body = Ok decoded
  /\ verifyWitnessSignature fc env tier (SignatureHeader response) body = (status, None)
  /\ decision_of fc decoded challenge status (witnessTierRequiresSignature fc tier) = Ok decision.
Proof.
  unfold read_response. destruct (_ || _) eqn:Es; [done|]. apply orb_false_iff in Es as [Hl Hh]. bool_arith.
  destruct (Body response) as [body|]; [|done]. destruct (verifyWitnessSignature _ _ _ _ _) as [status [e|]] eqn:Ev; [done|].
  destruct (decode_body body) as [decoded|] eqn:Ed; [|done]. intros H. exists body, decoded, status. split_and!; try done; lia.
Qed.

Lemma verified_signature fc env tier header body status : verifyWitnessSignature fc env tier header body = (status, None) ->
  TrimSpace (WitnessSigningKeyEnv fc) <> "" -> witnessTierRequiresSignature fc tier = true ->
  witnessSigningKey fc env <> "" /\ hex_decode (normalizeWitnessSignature header) = Some (hmac_sha256 (witnessSigningKey fc env) body).
Proof.
  unfold verifyWitnessSignature. cbv zeta. intros H Hk%String.eqb_neq Hr. rewrite Hk, Hr in H.
  destruct (String.eqb_spec (witnessSigningKey fc env) ""); [done|]. destruct (_ =? "")%string; [done|]. destruct (hex_decode _) as [decoded|]; [|done].
  destruct (String.eqb_spec decoded (hmac_sha256 (witnessSigningKey fc env) body)); [|done]. by subst.
Qed.

Lemma decision_fields fc decoded challenge status required decision : decision_of fc decoded challenge status required = Ok decision ->
  WdAllowPromotion decision = BdAllowPromotion decoded /\ WdObservedAt decision = BdObservedAt decoded /\ WdWitnessNode decision = BdWitnessNode decoded
  /\ (challenge <> "" -> WdReplayStatus decision <> "missing" -> WdReplayStatus decision <> "mismatch" -> TrimSpace (BdChallenge decoded) = challenge).
Proof.
  unfold decision_of. cbv zeta. destruct (String.eqb_spec challenge ""); [naive_solver|].
  destruct (TrimSpace (BdChallenge decoded) =? "")%string; [destruct (replayProtectionEnabled fc); naive_solver|].
  destruct (String.eqb_spec (TrimSpace (BdChallenge decoded)) challenge); cbn [negb]; [naive_solver|destruct (replayProtectionEnabled fc); naive_solver].
Qed.

Lemma policy_answer fc now tier decision : EvAllowed (evaluateWitnessDecisionPolicy fc now tier decision) = true ->
  WdAllowPromotion decision = true
  /\ (witnessTierRequiresReplay fc tier = true -> WdReplayStatus decision <> "missing" /\ WdReplayStatus decision <> "mismatch")
  /\ (effectiveWitnessRequiredNode fc tier <> "" -> EqualFold (TrimSpace (WdWitnessNode decision)) (effectiveWitnessRequiredNode fc tier) = true)
  /\ (0 < effectiveWitnessMaxAgeSeconds fc tier ->
      exists t, parse_rfc3339 (TrimSpace (WdObservedAt decision)) = Ok t /\ now - t <= effectiveWitnessMaxAgeSeconds fc tier * second).
Proof.
  unfold evaluateWitnessDecisionPolicy. cbv zeta. destruct (WdAllowPromotion decision); [|done]. cbn [negb].
  destruct (witnessTierRequiresSignature fc tier && (WdSignatureStatus decision =? "missing")%string); [done|].
  destruct (witnessTierRequiresSignature fc tier && (WdSignatureStatus decision =? "invalid")%string); [done|].
  destruct (witnessTierRequiresReplay fc tier && (WdReplayStatus decision =? "missing")%string) eqn:Em; [done|].
  destruct (witnessTierRequiresReplay fc tier && (WdReplayStatus decision =? "mismatch")%string) eqn:Emm; [done|].
  destruct (negb (effectiveWitnessRequiredNode fc tier =? "")%string && _) eqn:En; [done|]. destruct ((_ >? 0) && (_ =? "")%string) eqn:Est; [done|].
  intros H. split; [done|]. split_and!.
  - intros Hr. rewrite Hr in Em, Emm. cbn in Em, Emm. by apply String.eqb_neq in Em, Emm.
  - intros Hn%String.eqb_neq. rewrite Hn in En. cbn in En. by apply negb_false_iff in En.
  - intros Hm. assert (effectiveWitnessMaxAgeSeconds fc tier * second >? 0 = true) as Hp by (rewrite Z.gtb_ltb; apply Z.ltb_lt; unfold second; lia).
    rewrite Hp in Est, H. cbn [andb] in Est, H. rewrite Est in H. unfold witnessObservedAge in H. rewrite TrimSpace_idem in H.
    destruct (parse_rfc3339 _) as [t|]; [|done]. exists t. split; [done|]. unfold age_of in H. rewrite Z.gtb_ltb in H.
    destruct (Z.ltb_spec (now - t) 0); [unfold second; lia|]. destruct (Z.ltb_spec (effectiveWitnessMaxAgeSeconds fc tier * second) (now - t)); [done|lia].
Qed.

Lemma replay_challenge fc tier : witnessTierRequiresReplay fc tier = true -> witnessChallengeEnabled fc = true.
Proof.
  unfold witnessTierRequiresReplay, witnessChallengeEnabled. destruct (replayProtectionEnabled fc); [done|]. intros H%bool_decide_eq_true.
  destruct (witnessReplayRequiredTiers fc); [by apply elem_of_nil in H|done].
Qed.
End verdicts.

(** ** The verdict *)

(** C23: A standby whose peer is unreachable, in its failover window, may be promoted only if its own heartbeat was written,
    the peer's heartbeat is on the shared storage and at least [fencingHeartbeatStaleAfter] old, and the witnesses, if there
    are any, agree: no denial in a blocking tier, at least one approval, a quorum and a weight of approvals that lack at
    most the failures the budgets tolerate, the tiers' minima, and an approval for every required group, source and URL. *)
Theorem promotion_rule {U : Unicode} {MR : MapRange} {PT : ParseRFC3339} {HM : Hmac} {BJ : BodyJson} {JP : JoinPath} fc c now env files :
  SplitBrainProtectionEnabled fc = true -> role_is (cfg c) "standby" = true ->
  FrAllowPromotion (evaluateFencing fc c now false true env files).1 = true ->
  let files' := (evaluateFencing fc c now false true env files).2 in
  files' = <[sharedHeartbeatPath fc (HbConfiguredRole (localHeartbeatState c now)) := HeartbeatFile (localHeartbeatState c now)]> files
  /\ (exists peer published, files' !! sharedHeartbeatPath fc (peerConfiguredRole (cfg c)) = Some (HeartbeatFile peer)
      /\ PublishedAt peer = Some published /\ fencingHeartbeatStaleAfter fc (cfg c) <= now - published * second)
  /\ (effectiveWitnessURLs fc <> [] -> promotion_conditions fc (witness_votes fc env now)).
Proof.
  intros He Hr. rewrite evaluate_window by (done || unfold promotion_window; by rewrite Hr). intros [Hh Hw]%andb_true_iff. cbv zeta. rewrite evaluate_files by done.
  apply heartbeats_permit_spec in Hh as (peer & published & files' & Hs & (_ & _ & Hl)%load_heartbeat & Hp & Hage). rewrite Hs. cbn [snd].
  split; [by apply save_heartbeat in Hs as (_ & _ & ->)|]. split; [by exists peer, published|].
  rewrite (votes_urls fc env now). intros Hne. apply permit_conditions; [done|apply votes_weights|done].
Qed.

(** Approvals never hurt: if a promotion is permitted, it still is when any of the witnesses, whatever they said or
    failed to say, approve instead; the tolerance of failures can only shrink by what the approvals gain. *)
Theorem approval_monotone {U : Unicode} {MR : MapRange} {PT : ParseRFC3339} {HM : Hmac} {BJ : BodyJson} {JP : JoinPath} fc c now reachable failover env env' files :
  FirstWrite env' = FirstWrite env -> ReadFailure env' = ReadFailure env ->
  (forall url, url ∈ effectiveWitnessURLs fc -> let tier := effectiveWitnessConfidenceForURL fc url in
     evaluate_witness fc env' now tier url = evaluate_witness fc env now tier url \/ EvAllowed (evaluate_witness fc env' now tier url) = true) ->
  FrAllowPromotion (evaluateFencing fc c now reachable failover env files).1 = true ->
  FrAllowPromotion (evaluateFencing fc c now reachable failover env' files).1 = true.
Proof.
  intros Hfw Hrf Hev. destruct (SplitBrainProtectionEnabled fc) eqn:Es; [|unfold evaluateFencing; by rewrite Es].
  destruct (promotion_window c reachable failover) eqn:Ew.
  - rewrite !evaluate_window by done. unfold heartbeats_permit. rewrite Hfw, Hrf. intros [-> Hw]%andb_true_iff. cbn [andb]. revert Hw.
    assert (Forall2 at_least (witness_votes fc env now) (witness_votes fc env' now)) as Hl.
    { unfold witness_votes. apply Forall2_fmap, Forall_Forall2_diag, Forall_forall. intros url Hu.
      destruct (urls_spec fc url Hu) as [Hne Ht]. specialize (Hev url Hu). cbv zeta in Hev. rewrite <- (vote_tier fc env now _ url Hu Hne Ht) in Hev.
      repeat (split; [done|]). exact Hev. }
    pose proof (permit_at_least fc _ _ Hl (votes_weights fc env now)) as Hp. unfold witnesses_allow. destruct Hl; [done|]. exact Hp.
  - unfold evaluateFencing. rewrite Es, Ew. cbn [negb]. destruct (saveSharedHeartbeat _ _ _ _), (saveSharedHeartbeat _ _ _ _).
    by destruct (effectiveWitnessURLs fc).
Qed.

Definition with_urls fc (urls : list string) : FencingConfig :=
  mkFencingConfig (SplitBrainProtectionEnabled fc) (HeartbeatIntervalSeconds fc) (SharedStateDir fc)
    (WitnessAPIURL fc) urls (WitnessQuorum fc) (WitnessWeights fc) (WitnessWeightThreshold fc)
    (WitnessGroups fc) (WitnessMinDistinctGroups fc) (WitnessRequiredGroups fc) (WitnessSources fc) (WitnessRequiredSources fc) (WitnessRequiredURLs fc)
    (WitnessPolicyMode fc) (WitnessPolicyModeByTier fc) (WitnessFailureTolerance fc) (WitnessFailureWeightTolerance fc) (WitnessSourceConfidence fc)
    (WitnessMinApprovalsByTier fc) (WitnessMinWeightByTier fc) (WitnessMinDistinctGroupsByTier fc) (WitnessMinDistinctSourcesByTier fc)
    (WitnessRequiredSourcesByTier fc) (WitnessRequiredURLsByTier fc) (WitnessRequiredGroupsByTier fc) (WitnessMaxAgeByTier fc) (WitnessRequiredNodeByTier fc)
    (WitnessSignatureRequiredTiers fc) (WitnessReplayRequiredTiers fc) (WitnessFailureToleranceByTier fc) (WitnessFailureWeightByTier fc) (WitnessBlockingTiers fc)
    (WitnessTokenEnv fc) (WitnessSigningKeyEnv fc) (WitnessMaxAgeSeconds fc) (WitnessRequiredNode fc) (WitnessReplayProtectionEnabled fc).

Lemma with_urls_evaluate {U : Unicode} {PT : ParseRFC3339} {HM : Hmac} {BJ : BodyJson} fc a b : evaluate_witness (with_urls fc a) = evaluate_witness (with_urls fc b).
Proof. reflexivity. Qed.

Lemma urls_perm {U : Unicode} fc a b : a ≡ₚ b -> effectiveWitnessURLs (with_urls fc a) ≡ₚ effectiveWitnessURLs (with_urls fc b).
Proof.
  intros H. unfold effectiveWitnessURLs, normalizeWitnessURLSet. cbn [WitnessURLs WitnessAPIURL with_urls].
  assert (distinct_trimmed a ≡ₚ distinct_trimmed b) as Hd.
  { apply NoDup_Permutation; [apply distinct_trimmed_NoDup..|]. intros x. rewrite !distinct_trimmed_spec. by setoid_rewrite H. }
  destruct a as [|x a], b as [|y b]; [done|by apply Permutation_nil in H|by apply Permutation_nil_r in H|done].
Qed.

Lemma votes_perm {U : Unicode} {PT : ParseRFC3339} {HM : Hmac} {BJ : BodyJson} fc a b env now : a ≡ₚ b ->
  witness_votes (with_urls fc a) env now ≡ₚ witness_votes (with_urls fc b) env now.
Proof.
  intros H%(urls_perm fc). unfold witness_votes. set (us := effectiveWitnessURLs (with_urls fc a)) in *. set (us' := effectiveWitnessURLs (with_urls fc b)) in *.
  transitivity (witness_vote (with_urls fc b) env now us' <$> us); [|by apply fmap_Permutation].
  apply eq_subrelation; [typeclasses eauto|]. apply list_fmap_ext. intros i url Hu%list_elem_of_lookup_2. assert (url ∈ us') as Hu' by (by rewrite <- H).
  unfold witness_vote, effectiveWitnessConfidence, effectiveWitnessSources, effectiveWitnessWeights, effectiveWitnessGroups. cbv zeta. cbn [fst].
  rewrite !for_urls_lookup by done. unfold url_tier. rewrite !for_urls_lookup by done. reflexivity.
Qed.

(** The order in which the witnesses are configured, and so asked and counted, has no influence on whether a standby
    may be promoted. *)
Theorem order_of_witnesses {U : Unicode} {MR : MapRange} {PT : ParseRFC3339} {HM : Hmac} {BJ : BodyJson} {JP : JoinPath}
    fc urls urls' c now reachable failover env files : urls ≡ₚ urls' ->
  FrAllowPromotion (evaluateFencing (with_urls fc urls) c now reachable failover env files).1
  = FrAllowPromotion (evaluateFencing (with_urls fc urls') c now reachable failover env files).1.
Proof.
  intros H. destruct (SplitBrainProtectionEnabled fc) eqn:Es; [|unfold evaluateFencing; cbn [SplitBrainProtectionEnabled with_urls]; by rewrite Es].
  destruct (promotion_window c reachable failover) eqn:Ew.
  - rewrite !evaluate_window by done. f_equal. unfold witnesses_allow.
    pose proof (votes_perm fc urls urls' env now H) as Hv. pose proof (permuted_permit (with_urls fc urls) _ _ Hv (votes_weights _ env now)) as Hp.
    symmetry in Hv. pose proof (permuted_permit (with_urls fc urls) _ _ Hv (votes_weights _ env now)) as Hp'.
    destruct (witness_votes (with_urls fc urls) env now), (witness_votes (with_urls fc urls') env now);
      [done|by apply Permutation_nil_r in Hv|by apply Permutation_nil in Hv|]. by apply entails_antisym.
  - pose proof (urls_perm fc _ _ H) as Hu. unfold evaluateFencing. change (SplitBrainProtectionEnabled (with_urls fc ?u)) with (SplitBrainProtectionEnabled fc). rewrite Es, Ew. cbn [negb].
    destruct (saveSharedHeartbeat _ _ _ _).
    by destruct (effectiveWitnessURLs (with_urls fc urls)), (effectiveWitnessURLs (with_urls fc urls')).
Qed.

(** A counted approval is authentic: the witness answered the very request with a success status, and its JSON
    approves; where a signing key is configured and the witness's tier requires signatures, the body's HMAC under the key
    is in the header; where the tier requires it, the answer repeats the fresh challenge; a maximal age is kept by the
    time the witness states, and a required node is the one that answered. *)
Theorem counted_approval_authentic {U : Unicode} {MR : MapRange} {PT : ParseRFC3339} {HM : Hmac} {BJ : BodyJson} fc env now v :
  (forall url challenge, Challenges env url = Ok challenge -> challenge <> "") ->
  v ∈ witness_votes fc env now -> EvAllowed (VtEvaluation v) = true ->
  exists challenge response body decoded,
    Http env (VtURL v) (witnessBearerToken fc env) challenge = Ok response /\ 200 <= StatusCode response < 300 /\ Body response = Ok body
    /\ decode_body body = Ok decoded /\ BdAllowPromotion decoded = true
    /\ (TrimSpace (WitnessSigningKeyEnv fc) <> "" -> witnessTierRequiresSignature fc (VtTier v) = true ->
        witnessSigningKey fc env <> "" /\ hex_decode (normalizeWitnessSignature (SignatureHeader response)) = Some (hmac_sha256 (witnessSigningKey fc env) body))
    /\ (witnessTierRequiresReplay fc (VtTier v) = true -> Challenges env (VtURL v) = Ok challenge /\ TrimSpace (BdChallenge decoded) = challenge)
    /\ (0 < effectiveWitnessMaxAgeSeconds fc (VtTier v) ->
        exists t, parse_rfc3339 (TrimSpace (BdObservedAt decoded)) = Ok t /\ now - t <= effectiveWitnessMaxAgeSeconds fc (VtTier v) * second)
    /\ (effectiveWitnessRequiredNode fc (VtTier v) <> "" -> EqualFold (TrimSpace (BdWitnessNode decoded)) (effectiveWitnessRequiredNode fc (VtTier v)) = true).
Proof.
  intros Hch (url & -> & Hu)%list_elem_of_fmap. destruct (urls_spec fc url Hu) as [Hne Ht]. rewrite (vote_tier fc env now _ url Hu Hne Ht).
  cbn [VtURL VtEvaluation witness_vote].
  assert (TrimSpace (default "" ((effectiveWitnessConfidence fc (effectiveWitnessURLs fc) (effectiveWitnessSources fc (effectiveWitnessURLs fc)).1).1 !! url))
    = effectiveWitnessConfidenceForURL fc url) as -> by exact (vote_tier fc env now _ url Hu Hne Ht).
  unfold evaluate_witness. destruct (probeWitnessDecisionURL fc env url) as [decision|] eqn:Ep; [|done]. intros (Ha & Hr & Hn & Hm)%policy_answer.
  destruct (probe_answer fc env url decision Ht Ep) as (challenge & response & Hc & Hh & Hd).
  destruct (response_answer _ _ _ _ _ _ Hd) as (body & decoded & status & Hs & Hb & Hj & Hv & Hdo).
  destruct (decision_fields _ _ _ _ _ _ Hdo) as (Ka & Ko & Kn & Kr). rewrite Ka in Ha. rewrite Ko in Hm. rewrite Kn in Hn.
  exists challenge, response, body, decoded. split_and!; try done; [lia..| |].
  - intros Hk Hq. by eapply verified_signature.
  - intros Hq. rewrite (replay_challenge _ _ Hq) in Hc. destruct (Hr Hq) as [H1 H2]. split; [done|]. apply Kr; [by eapply Hch|done|done].
Qed.

(** ** An active node that publishes holds its standby back *)

Class JoinPathLaws {JP : JoinPath} : Prop := {
  join_nonblank dir role : TrimSpace (join_path dir (role +:+ ".json")) <> "";
  join_distinct dir : join_path dir "active.json" <> join_path dir "standby.json" }.

(** A pair: the instant, the heartbeats, the lease, the two nodes, and the instant of the active node's last publication *)
Record pair_state := mkPairState {
  PNow : Z; PFiles : gmap string hb_file; PLease : vipLease; PActive : controller; PStandby : controller; PPublished : Z }.

Section held_back.
Context {U : Unicode} {MR : MapRange} {PT : ParseRFC3339} {HM : Hmac} {BJ : BodyJson} {JP : JoinPath}.

(** Whether a tick published the node's heartbeat before its decision *)
Definition publishes fc (c : controller) (env : tick_env) (fenv : FencingEnv) : bool :=
  SplitBrainProtectionEnabled fc && CfgActive (cfg c) && bool_decide (is_Some (EnvTarget env)) && bool_decide (FirstWrite fenv = None).

(** Ticks of the two nodes, with any failures and any answers. The standby ticks while the last publication is at most a
    second short of [fencingHeartbeatStaleAfter] old. *)
Inductive pair_step fc : pair_state -> pair_state -> Prop :=
| active_tick s env fenv outcome verdict files :
    PNow s <= EnvNow env -> fenced_tick fc (PActive s) env fenv (PLease s) (PFiles s) = (outcome, verdict, files) ->
    pair_step fc s (mkPairState (EnvNow env) files (apply_write (PLease s) (Write outcome)) (Next outcome) (PStandby s)
      (if publishes fc (PActive s) env fenv then EnvNow env else PPublished s))
| standby_tick s env fenv outcome verdict files :
    PNow s <= EnvNow env -> EnvNow env - PPublished s <= fencingHeartbeatStaleAfter fc (cfg (PStandby s)) - second ->
    fenced_tick fc (PStandby s) env fenv (PLease s) (PFiles s) = (outcome, verdict, files) ->
    pair_step fc s (mkPairState (EnvNow env) files (apply_write (PLease s) (Write outcome)) (PActive s) (Next outcome) (PPublished s)).

(** The active node's heartbeat is on the storage, not older than its last publication. *)
Definition heartbeat_published fc (s : pair_state) : Prop :=
  exists state published, PFiles s !! sharedHeartbeatPath fc "active" = Some (HeartbeatFile state) /\ PublishedAt state = Some published
  /\ format_seconds (PPublished s) <= published.
Definition roles (s : pair_state) : Prop :=
  CfgRole (cfg (PActive s)) = "active" /\ CfgRole (cfg (PStandby s)) = "standby" /\ nodeName (PActive s) <> nodeName (PStandby s) /\ nodeName (PStandby s) <> "".
Definition held_back fc (s : pair_state) : Prop :=
  roles s /\ heartbeat_published fc s /\ PPublished s <= PNow s
  /\ vipAssigned (PStandby s) = false /\ HolderNode (PLease s) <> nodeName (PStandby s).

Lemma tick_keeps c env lease : cfg (Next (tick c env lease)) = cfg c /\ nodeName (Next (tick c env lease)) = nodeName c.
Proof.
  destruct (observePeer_fields c (EnvNow env) (EnvPeerReachable env)) as (Hc & Hn & _). unfold tick. destruct (negb _); [done|]. cbv zeta.
  destruct (EnvTarget env); [|done]. destruct (negb _); [done|]. destruct (_ && _ && _); [done|]. destruct (shouldHoldVIP _ _ _); [|done].
  unfold holdVIP. destruct (EnvActivation env) as [[|]|]; [done| |done]. destruct (ensureLease _ _ _ _ _) as [[[|] ?] ?]; [|done].
  destruct (negb _); [done|]. by destruct (EnvAssign env).
Qed.

(** A tick that may not promote its standby neither serves nor takes the lease. *)
Lemma tick_held_back c env lease : CfgRole (cfg c) = "standby" -> vipAssigned c = false -> HolderNode lease <> nodeName c -> nodeName c <> "" ->
  (promotion_window (observePeer c (EnvNow env) (EnvPeerReachable env)) (EnvPeerReachable env)
     (failoverActive (observePeer c (EnvNow env) (EnvPeerReachable env)) (EnvNow env) (EnvPeerReachable env)) = true -> EnvAllowPromotion env = false) ->
  vipAssigned (Next (tick c env lease)) = false /\ HolderNode (apply_write lease (Write (tick c env lease))) <> nodeName c.
Proof.
  intros Hr Hv Hl Hn Hp. destruct (observePeer_fields c (EnvNow env) (EnvPeerReachable env)) as (Hc & Hname & Hvo).
  set (o := observePeer _ _ _) in *.
  assert (role_is (cfg c) "standby" = true) as Hs by (unfold role_is; rewrite Hr; reflexivity).
  assert (forall r f, shouldHoldVIP o r f = promotion_window o r f) as Hw.
  { intros r f. unfold shouldHoldVIP, promotion_window. rewrite Hc, Hs, Hr. reflexivity. }
  assert (forall target a, vipAssigned (Next (dropVIP o lease target env a)) = false /\ HolderNode (apply_write lease (Write (dropVIP o lease target env a))) <> nodeName c) as Hd.
  { intros target a. split; [done|]. unfold dropVIP, releaseLeaseIfOwned, when. cbn [Write]. destruct (_ || _); [done|]. destruct (EnvClear env); [|done]. by cbn. }
  unfold tick. destruct (negb _); [done|]. cbv zeta. fold o. destruct (EnvTarget env) as [target|]; [|by rewrite <- Hvo in Hv].
  destruct (negb _); [by rewrite <- Hvo in Hv|]. rewrite Hw, Hc, Hs. destruct (promotion_window _ _ _); cbn [andb]; [|apply Hd]. rewrite Hp by done. apply Hd.
Qed.

(** The heartbeats after a tick: the node's own changes at most, and holds the instant of the tick. *)
Definition own_path fc (c : controller) : string := sharedHeartbeatPath fc (TrimSpace (CfgRole (cfg c))).

Lemma save_own fc failure c now files : files = (saveSharedHeartbeat fc failure (localHeartbeatState c now) files).2
  \/ (saveSharedHeartbeat fc failure (localHeartbeatState c now) files).2 = <[own_path fc c := HeartbeatFile (localHeartbeatState c now)]> files.
Proof. unfold saveSharedHeartbeat. cbv zeta. destruct (_ =? _)%string; [by left|]. destruct failure; [by left|by right]. Qed.

Lemma evaluate_own fc c now r f env files : files = (evaluateFencing fc c now r f env files).2
  \/ (evaluateFencing fc c now r f env files).2 = <[own_path fc c := HeartbeatFile (localHeartbeatState c now)]> files.
Proof.
  destruct (SplitBrainProtectionEnabled fc) eqn:Es; [rewrite evaluate_files by done; apply save_own|]. left. unfold evaluateFencing. by rewrite Es.
Qed.

Definition published_at (now : Z) (f : option hb_file) : Prop := exists state, f = Some (HeartbeatFile state) /\ PublishedAt state = Some (format_seconds now).

Lemma published_local c now : published_at now (Some (HeartbeatFile (localHeartbeatState c now))).
Proof. by eexists. Qed.

(** A step of the files: nothing, or the node's own heartbeat *)
Definition own_change (path : string) (now : Z) (files files' : gmap string hb_file) : Prop :=
  (forall p, p <> path -> files' !! p = files !! p) /\ (files' !! path = files !! path \/ published_at now (files' !! path)).

Lemma own_change_insert path c now files : own_change path now files (<[path := HeartbeatFile (localHeartbeatState c now)]> files).
Proof. split; [intros p Hp; by rewrite lookup_insert_ne|]. right. rewrite lookup_insert_eq. apply published_local. Qed.
Lemma own_change_refl path now files : own_change path now files files.
Proof. split; [done|by left]. Qed.
Lemma own_change_trans path now f g h : own_change path now f g -> own_change path now g h -> own_change path now f h.
Proof. intros [H1 H2] [H3 H4]. split; [intros p Hp; by rewrite H3, H1|]. destruct H4 as [->|]; auto. Qed.

Lemma fenced_tick_spec fc c env fenv lease files : let '(outcome, verdict, files') := fenced_tick fc c env fenv lease files in
  own_change (own_path fc c) (EnvNow env) files files'
  /\ (publishes fc c env fenv = true -> TrimSpace (own_path fc c) <> "" -> published_at (EnvNow env) (files' !! own_path fc c))
  /\ exists allowed, outcome = tick c (with_verdict env allowed) lease
     /\ (CfgActive (cfg c) = true -> is_Some (EnvTarget env) -> exists c', cfg c' = cfg c /\ c' = observePeer c (EnvNow env) (EnvPeerReachable env)
         /\ allowed = FrAllowPromotion (evaluateFencing fc c' (EnvNow env) (EnvPeerReachable env) (failoverActive c' (EnvNow env) (EnvPeerReachable env)) fenv files).1).
Proof.
  destruct (observePeer_fields c (EnvNow env) (EnvPeerReachable env)) as (Hc & _ & _).
  unfold fenced_tick, publishes. set (o := observePeer _ _ _) in *. assert (own_path fc o = own_path fc c) as Ho by (unfold own_path; by rewrite Hc).
  assert (with_verdict env (EnvAllowPromotion env) = env) as Hid by (by destruct env).
  destruct (CfgActive (cfg c)) eqn:Ea; cbn [andb].
  2: { rewrite andb_false_r. split; [apply own_change_refl|]. split; [done|]. exists (EnvAllowPromotion env). rewrite Hid. done. }
  destruct (EnvTarget env) as [target|] eqn:Et.
  2: { rewrite andb_false_r. split; [apply own_change_refl|]. split; [done|]. exists (EnvAllowPromotion env). rewrite Hid. split; [done|]. by intros _ [? ?]. }
  destruct (evaluateFencing fc o _ _ _ fenv files) as [verdict files1] eqn:Ee. pose proof (f_equal snd Ee) as Ef. cbn [snd] in Ef.
  set (env' := with_verdict env (FrAllowPromotion verdict)). set (outcome := tick c env' lease).
  assert (own_path fc (Next outcome) = own_path fc c) as Hno by (unfold own_path, outcome; by rewrite (proj1 (tick_keeps _ _ _))).
  assert (own_change (own_path fc c) (EnvNow env) files files1) as H1.
  { destruct (evaluate_own fc o (EnvNow env) (EnvPeerReachable env) (failoverActive o (EnvNow env) (EnvPeerReachable env)) fenv files) as [H|H]; rewrite Ef in H.
    - rewrite <- H. apply own_change_refl.
    - rewrite H, Ho. apply own_change_insert. }
  set (files2 := if tick_completed c env' lease && SplitBrainProtectionEnabled fc then _ else files1).
  assert (own_change (own_path fc c) (EnvNow env) files1 files2) as H2.
  { unfold files2. destruct (_ && _); [|apply own_change_refl]. cbn [EnvNow with_verdict env'].
    destruct (save_own fc (SecondWrite fenv) (Next outcome) (EnvNow env) files1) as [H|H]; [rewrite <- H; apply own_change_refl|].
    rewrite H, Hno. apply own_change_insert. }
  split; [by eapply own_change_trans|]. split.
  - intros Hpub Hnb. destruct H2 as [_ [Hs|Hs]]; [|done]. rewrite Hs. apply andb_true_iff in Hpub as [Hpub Hfw]. apply andb_true_iff in Hpub as [Hsp _].
    rewrite andb_true_r in Hsp. apply bool_decide_eq_true in Hfw. rewrite evaluate_files in Ef by done. rewrite <- Ef. unfold saveSharedHeartbeat. cbv zeta.
    change (sharedHeartbeatPath fc (HbConfiguredRole (localHeartbeatState o (EnvNow env)))) with (own_path fc o). rewrite Ho, (proj2 (String.eqb_neq _ _) Hnb), Hfw. cbn [snd].
    rewrite lookup_insert_eq. apply published_local.
  - exists (FrAllowPromotion verdict). split; [done|]. intros _ _. exists o. split_and!; [done|done|]. by rewrite Ee.
Qed.


Lemma path_active fc c : CfgRole (cfg c) = "active" -> own_path fc c = sharedHeartbeatPath fc "active".
Proof. intros H. unfold own_path. rewrite H. reflexivity. Qed.
Lemma path_standby fc c : CfgRole (cfg c) = "standby" -> own_path fc c = sharedHeartbeatPath fc "standby".
Proof. intros H. unfold own_path. rewrite H. reflexivity. Qed.
Lemma path_peer fc c : CfgRole (cfg c) = "standby" -> sharedHeartbeatPath fc (peerConfiguredRole (cfg c)) = sharedHeartbeatPath fc "active".
Proof. intros H. unfold peerConfiguredRole. rewrite H. reflexivity. Qed.
Lemma paths_distinct {JL : JoinPathLaws} fc : sharedHeartbeatPath fc "active" <> sharedHeartbeatPath fc "standby".
Proof. apply (join_distinct (sharedHeartbeatRootDir fc)). Qed.
Lemma path_nonblank {JL : JoinPathLaws} fc : TrimSpace (sharedHeartbeatPath fc "active") <> "".
Proof. apply (join_nonblank (sharedHeartbeatRootDir fc) "active"). Qed.

Lemma format_seconds_close t : t - second < format_seconds t * second <= t.
Proof. unfold format_seconds, second. pose proof (Z.mul_succ_div_gt t 1000000000). pose proof (Z.mul_div_le t 1000000000). lia. Qed.

(** A heartbeat that is not old enough does not let the standby pass. *)
Lemma fresh_heartbeat_refuses {JL : JoinPathLaws} fc c now published state f reachable failover fenv files :
  SplitBrainProtectionEnabled fc = true -> CfgRole (cfg c) = "standby" -> files !! sharedHeartbeatPath fc "active" = Some (HeartbeatFile state) ->
  PublishedAt state = Some f -> format_seconds published <= f -> now - published <= fencingHeartbeatStaleAfter fc (cfg c) - second ->
  promotion_window c reachable failover = true -> FrAllowPromotion (evaluateFencing fc c now reachable failover fenv files).1 = false.
Proof.
  intros He Hr Hf Hp Hle Hage Hw. rewrite evaluate_window by done. apply andb_false_iff. left. apply not_true_is_false.
  intros (peer & p & files' & Hs & Hl & Hpp & Ha)%heartbeats_permit_spec. apply save_heartbeat in Hs as (_ & _ & ->). apply load_heartbeat in Hl as (_ & _ & Hl).
  rewrite path_peer in Hl by done. change (sharedHeartbeatPath fc (HbConfiguredRole (localHeartbeatState c now))) with (own_path fc c) in Hl.
  rewrite path_standby, lookup_insert_ne in Hl by (done || symmetry; apply paths_distinct). rewrite Hf in Hl. injection Hl as <-. rewrite Hp in Hpp. injection Hpp as <-.
  pose proof (format_seconds_close published). assert (format_seconds published * second <= f * second) by (apply Z.mul_le_mono_nonneg_r; [done|lia]). lia.
Qed.

Lemma tick_other_holder c env lease name : nodeName c <> name -> name <> "" -> HolderNode lease <> name -> HolderNode (apply_write lease (Write (tick c env lease))) <> name.
Proof.
  intros Hn He Hl. destruct (observePeer_fields c (EnvNow env) (EnvPeerReachable env)) as (_ & Hname & _).
  destruct (tick_cases c env lease) as [->|[(-> & _)|(target & action & updated & Hens & -> & _)]]; cbn; [done|congruence|].
  apply ensureLease_acquired in Hens. rewrite Hname in Hens. congruence.
Qed.

Lemma tick_inactive c env lease : CfgActive (cfg c) = false \/ EnvTarget env = None ->
  vipAssigned (Next (tick c env lease)) = vipAssigned c /\ Write (tick c env lease) = None.
Proof.
  destruct (observePeer_fields c (EnvNow env) (EnvPeerReachable env)) as (_ & _ & Hv). unfold tick.
  destruct (CfgActive (cfg c)); cbn [negb]; [|done]. intros [?| ->]; [done|]. by cbv zeta.
Qed.

Lemma pair_step_held_back {JL : JoinPathLaws} fc s s' : SplitBrainProtectionEnabled fc = true -> pair_step fc s s' -> held_back fc s -> held_back fc s'.
Proof.
  intros He Hstep ((Hra & Hrs & Hne & Hb) & (state & f & Hf & Hp & Hle) & Hnow & Hv & Hl).
  destruct Hstep as [s env fenv outcome verdict files Ht Hft|s env fenv outcome verdict files Ht Hage Hft].
  - pose proof (fenced_tick_spec fc (PActive s) env fenv (PLease s) (PFiles s)) as H. rewrite Hft in H.
    destruct H as ([_ Hown] & Hpub & allowed & -> & _). destruct (tick_keeps (PActive s) (with_verdict env allowed) (PLease s)) as [Hc Hn].
    rewrite path_active in Hown, Hpub by done.
    assert (published_at (EnvNow env) (files !! sharedHeartbeatPath fc "active") -> exists state published, files !! sharedHeartbeatPath fc "active" = Some (HeartbeatFile state)
      /\ PublishedAt state = Some published /\ format_seconds (EnvNow env) <= published) as Hpa by (intros (st & ? & ?); by exists st, (format_seconds (EnvNow env))).
    assert (format_seconds (PPublished s) <= format_seconds (EnvNow env)) as Hmono by (unfold format_seconds; apply Z.div_le_mono; unfold second; lia).
    split; [by unfold roles; cbn; rewrite Hc, Hn|]. cbn. split.
    { unfold heartbeat_published. cbn. destruct (publishes fc (PActive s) env fenv); [by apply Hpa, Hpub, path_nonblank|].
      destruct Hown as [->|Hown]; [by exists state, f|]. destruct (Hpa Hown) as (st & pp & ? & ? & ?). exists st, pp. split_and!; [done..|lia]. }
    split; [destruct (publishes fc (PActive s) env fenv); lia|]. split; [done|]. by apply tick_other_holder.
  - pose proof (fenced_tick_spec fc (PStandby s) env fenv (PLease s) (PFiles s)) as H. rewrite Hft in H.
    destruct H as ([Hown _] & _ & allowed & -> & Hallowed). destruct (tick_keeps (PStandby s) (with_verdict env allowed) (PLease s)) as [Hc Hn].
    rewrite path_standby in Hown by done.
    split; [by unfold roles; cbn; rewrite Hc, Hn|]. cbn. split.
    { exists state, f. cbn. by rewrite Hown by apply paths_distinct. }
    split; [lia|]. rewrite Hn. destruct (CfgActive (cfg (PStandby s))) eqn:Ea; [destruct (EnvTarget env) eqn:Et|].
    + destruct Hallowed as (c' & Hcc & -> & ->); [done|by eexists|]. apply tick_held_back; [done..|]. cbn. intros Hw.
      eapply (fresh_heartbeat_refuses fc _ _ (PPublished s)); rewrite ?Hcc; done.
    + destruct (tick_inactive (PStandby s) (with_verdict env allowed) (PLease s)) as [-> ->]; [by right|done].
    + destruct (tick_inactive (PStandby s) (with_verdict env allowed) (PLease s)) as [-> ->]; [by left|done].
Qed.
End held_back.

(** No split brain while the active node publishes: from a state in which the standby does not serve, whatever the two
    nodes' ticks observe, whatever fails and whatever the witnesses answer, in any order of ticks, a standby that never ticks
    more than [fencingHeartbeatStaleAfter] less a second after the active's last publication does not serve the virtual IP
    and never holds the lease. *)
Theorem standby_held_back {U : Unicode} {MR : MapRange} {PT : ParseRFC3339} {HM : Hmac} {BJ : BodyJson} {JP : JoinPath} {JL : JoinPathLaws} fc s s' :
  SplitBrainProtectionEnabled fc = true -> held_back fc s -> rtc (pair_step fc) s s' ->
  vipAssigned (PStandby s') = false /\ HolderNode (PLease s') <> nodeName (PStandby s').
Proof.
  intros He H Hsteps. assert (held_back fc s') as (_ & _ & _ & Hv & Hl); [|done]. induction Hsteps as [|s s1 s' Hstep _ IH]; [done|].
  apply IH. by eapply pair_step_held_back.
Qed.

(** ** The takeover *)

Section takeover.
Context {U : Unicode} {MR : MapRange} {PT : ParseRFC3339} {HM : Hmac} {BJ : BodyJson} {JP : JoinPath}.

(** [failoverActive]'s timeout *)
Definition failover_timeout (ha : HAConfig) : Z := if FailoverTimeoutSeconds ha * second <=? 0 then 20 * second else FailoverTimeoutSeconds ha * second.

(** Nothing fails in a tick in which the peer is not reached. *)
Definition undisturbed (env : tick_env) (fenv : FencingEnv) : Prop :=
  EnvPeerReachable env = false /\ EnvActivation env = Ok false
  /\ EnvLoad env && EnvSave env && EnvAssign env = true /\ FirstWrite fenv = None /\ ReadFailure fenv = None.

(** What the active node's last completed tick, at instant [last], left *)
Definition left_by_active fc (ha : HAConfig) (last : Z) (lease : vipLease) (files : gmap string hb_file) : Prop :=
  published_at last (files !! sharedHeartbeatPath fc "active") /\ ExpiresAt lease = Some (format_seconds (last + FailoverTimeoutSeconds ha * second)).

Lemma stale_after_timeout fc ha : FailoverTimeoutSeconds ha * second <= fencingHeartbeatStaleAfter fc ha.
Proof.
  unfold fencingHeartbeatStaleAfter, second. cbv zeta. destruct (HeartbeatIntervalSeconds fc * 3 >? FailoverTimeoutSeconds ha) eqn:E; split_if; bool_arith; lia.
Qed.

Lemma standby_permitted {JL : JoinPathLaws} fc c now last lease files fenv : SplitBrainProtectionEnabled fc = true -> CfgRole (cfg c) = "standby" ->
  left_by_active fc (cfg c) last lease files -> FirstWrite fenv = None -> ReadFailure fenv = None -> last + fencingHeartbeatStaleAfter fc (cfg c) <= now ->
  witnesses_allow fc (witness_votes fc fenv now) = true -> FrAllowPromotion (evaluateFencing fc c now false true fenv files).1 = true.
Proof.
  intros He Hr ((state & Hf & Hp) & _) Hw Hrd Hage Hwit. rewrite evaluate_window by (done || unfold promotion_window, role_is; rewrite Hr; reflexivity).
  apply andb_true_iff. split; [|done]. apply heartbeats_permit_spec.
  exists state, (format_seconds last), (<[own_path fc c := HeartbeatFile (localHeartbeatState c now)]> files). split_and!.
  - apply save_heartbeat. split_and!; [done| |done]. change (TrimSpace (own_path fc c) <> ""). rewrite path_standby by done.
    apply (join_nonblank (sharedHeartbeatRootDir fc) "standby").
  - apply load_heartbeat. rewrite path_peer by done. split_and!; [done|apply path_nonblank|].
    rewrite path_standby, lookup_insert_ne by (done || symmetry; apply paths_distinct). done.
  - done.
  - pose proof (format_seconds_close last). lia.
Qed.
End takeover.

(** A standby takes over: when the active node has been silent for [fencingHeartbeatStaleAfter] since its last completed
    tick, and the standby has not reached it for the whole failover timeout, the first undisturbed tick of the standby whose
    witnesses allow it takes the lease (which has run out by then) and assigns the virtual IP. *)
Theorem standby_takes_over {U : Unicode} {MR : MapRange} {PT : ParseRFC3339} {HM : Hmac} {BJ : BodyJson} {JP : JoinPath} {JL : JoinPathLaws}
    fc c env fenv lease files last since target :
  SplitBrainProtectionEnabled fc = true -> CfgActive (cfg c) = true -> CfgRole (cfg c) = "standby" ->
  left_by_active fc (cfg c) last lease files -> last + fencingHeartbeatStaleAfter fc (cfg c) <= EnvNow env ->
  failureSince c = Some since -> since + failover_timeout (cfg c) <= EnvNow env ->
  undisturbed env fenv -> EnvTarget env = Some target -> witnesses_allow fc (witness_votes fc fenv (EnvNow env)) = true ->
  let outcome := (fenced_tick fc c env fenv lease files).1.1 in
  vipAssigned (Next outcome) = true /\ HolderNode (apply_write lease (Write outcome)) = nodeName c /\ Commands outcome = [AddVIP target].
Proof.
  intros He Hact Hr Hleft Hage Hsince Hto (Hreach & Hactv & Hok & Hfw & Hrd) Htgt Hwit. cbv zeta.
  apply andb_true_iff in Hok as [[Hload Hsave]%andb_true_iff Hassign].
  pose proof (fenced_tick_spec fc c env fenv lease files) as H. destruct (fenced_tick fc c env fenv lease files) as [[outcome verdict] files']. cbn [fst].
  destruct H as (_ & _ & allowed & -> & Hal). destruct Hal as (c' & Hc & -> & ->); [done|by eexists|].
  destruct (observePeer_fields c (EnvNow env) (EnvPeerReachable env)) as (_ & Hname & _). rewrite Hreach in *. set (o := observePeer c (EnvNow env) false) in *.
  assert (failoverActive o (EnvNow env) false = true) as Hfo.
  { unfold failoverActive. assert (failureSince o = Some since) as -> by (unfold o, observePeer; by rewrite Hsince). rewrite Hc. cbv zeta. rewrite Z.geb_leb, Z.leb_le.
    unfold failover_timeout in Hto. destruct (_ <=? 0); lia. }
  rewrite Hfo, (standby_permitted fc o (EnvNow env) last lease files fenv) by (done || by rewrite Hc).
  unfold tick. rewrite Hact. cbn [negb EnvNow EnvPeerReachable EnvTarget EnvLoad EnvAllowPromotion EnvActivation EnvSave EnvAssign with_verdict].
  rewrite Hreach, Htgt, Hload. fold o. cbv zeta. rewrite Hfo.
  assert (shouldHoldVIP o false true = true) as -> by (unfold shouldHoldVIP; rewrite Hc, Hr; reflexivity). cbn [negb andb]. rewrite andb_false_r.
  unfold holdVIP. cbn [EnvActivation EnvNow EnvPeerReachable EnvSave EnvAssign with_verdict]. rewrite Hactv, Hsave, Hassign, Hreach.
  assert (leaseExpired lease (EnvNow env) = true) as Hex.
  { unfold leaseExpired. split_if; [done|]. destruct Hleft as (_ & ->). apply negb_true_iff, Z.ltb_ge.
    pose proof (format_seconds_close (last + FailoverTimeoutSeconds (cfg c) * second)). pose proof (stale_after_timeout fc (cfg c)). lia. }
  destruct (ensureLease _ _ _ _ _) as [[acquired action] updated] eqn:Ee. assert (acquired = true) as ->.
  { unfold ensureLease in Ee. rewrite Hex, orb_true_r in Ee. destruct (_ =? _)%string in Ee; by injection Ee. }
  apply ensureLease_acquired in Ee. rewrite Hname in Ee. done.
Qed.

(** ** Witnesses *)

(** Three witnesses, one of the tier gold. Bodies repeat their challenge and approve, times are their decimal seconds, and a
    digest is its key. *)
Module Demo.
Definition parse (s : string) : result string Z := if (s =? "95")%string then Ok (95 * second) else Err "parsing time".
Definition body (s : string) : result string WitnessBody := Ok (mkBody true "95" "arbiter" s).
Definition digest (key _ : string) : string := key.
Definition join (dir name : string) : string := dir +:+ "/" +:+ name.
Definition path (role : string) : string := "/var/lib/aegisnas/ha/heartbeats/" +:+ role +:+ ".json".
#[export] Instance demo_parse : ParseRFC3339 := parse.
#[export] Instance demo_body : BodyJson := body.
#[export] Instance demo_digest : Hmac := digest.
#[export] Instance demo_join : JoinPath := join.

#[export] Instance demo_join_laws : JoinPathLaws.
Proof.
  split; unfold join_path, demo_join, join.
  - intros dir role. apply visible_not_blank. rewrite !visible_app. change (visible "/") with true. by rewrite orb_true_r.
  - intros dir. induction dir as [|c dir IH]; cbn; [discriminate|]. intros [=H]. by apply IH.
Qed.

Definition fencing : FencingConfig :=
  mkFencingConfig true 5 "" "" ["u1"; " u2 "; "u3"] 3 {["u1" := 2]} 4 {["u1" := "east"; "u2" := "west"]} 2 ["east"] ∅ ["u1"] []
    "" ∅ 1 1 {["u1" := "gold"]} {["gold" := 1]} {["gold" := 2]} ∅ ∅ {["gold" := ["u1"]]} ∅ ∅ {["gold" := 30]} {["gold" := "arbiter"]}
    ["gold"] ["gold"] ∅ ∅ ["gold"] "" "KEY" 0 "" false.

Definition answer (silent : list string) (url _ challenge : string) : result string WitnessResponse :=
  if bool_decide (url ∈ silent) then Err "timeout" else Ok (mkResponse 200 "200 OK" "sha256=6b" (Ok challenge)).
Definition env (silent : list string) : FencingEnv :=
  mkFencingEnv (fun name => if (name =? "KEY")%string then "k" else "") None None None (fun _ => Ok "c1") (fun _ => None) (answer silent).

Definition last_heartbeat : sharedHeartbeat := mkHeartbeat "a" "active" "active" "10.0.0.9" true (Some 60).
Definition files : gmap string hb_file := {[path "active" := HeartbeatFile last_heartbeat]}.
Definition lease_of_a : vipLease := mkVipLease "a" "active" "10.0.0.9" "eth0" 100 (Some 0) (Some 60) (Some 80).
Definition now : Z := 100 * second.

(** The verdict for the standby of [HaController]'s pair *)
Definition verdict (silent : list string) : fencingResult * gmap string hb_file := evaluateFencing fencing node_b now false true (env silent) files.

Example verdict_one_silent : FrStatus (verdict ["u3"]).1 = "witness_allowed" /\ FrWitnessStatus (verdict ["u3"]).1 = "quorum_met".
Proof. vm_compute. done. Qed.
Example verdict_two_silent : FrStatus (verdict ["u2"; "u3"]).1 = "witness_failed" /\ FrWitnessStatus (verdict ["u2"; "u3"]).1 = "quorum_unmet".
Proof. vm_compute. done. Qed.
Example verdict_gold_silent : FrStatus (verdict ["u1"]).1 = "witness_failed" /\ FrWitnessStatus (verdict ["u1"]).1 = "weight_unmet".
Proof. vm_compute. done. Qed.

(** The pair of nodes under fencing, both having seen each other last at instant 0 *)
Definition start : pair_state := mkPairState (60 * second) files lease_of_a (with_vip node_a true) node_b (60 * second).
Definition late_tick : tick_outcome * option fencingResult * gmap string hb_file := fenced_tick fencing node_b (partitioned 100) (env ["u3"]) lease_of_a files.
Definition early_tick : tick_outcome * option fencingResult * gmap string hb_file := fenced_tick fencing node_b (partitioned 79) (env []) lease_of_a files.
End Demo.
Import Demo.

Lemma promotion_rule_witness : FrAllowPromotion (verdict ["u3"]).1 = true /\ promotion_conditions fencing (witness_votes fencing (env ["u3"]) now)
  /\ exists peer published, (verdict ["u3"]).2 !! sharedHeartbeatPath fencing (peerConfiguredRole (cfg node_b)) = Some (HeartbeatFile peer) /\ PublishedAt peer = Some published
     /\ fencingHeartbeatStaleAfter fencing (cfg node_b) <= now - published * second.
Proof.
  assert (FrAllowPromotion (verdict ["u3"]).1 = true) as Ha by (vm_compute; reflexivity). split; [exact Ha|].
  destruct (promotion_rule fencing node_b now (env ["u3"]) files eq_refl eq_refl Ha) as (_ & Hp & Hw). split; [|exact Hp].
  apply Hw. vm_compute. discriminate.
Defined.

Lemma approval_monotone_witness : FrAllowPromotion (verdict ["u3"]).1 = true /\ FrAllowPromotion (verdict []).1 = true.
Proof.
  assert (FrAllowPromotion (verdict ["u3"]).1 = true) as Ha by (vm_compute; reflexivity). split; [exact Ha|].
  apply (approval_monotone fencing node_b now false true (env ["u3"]) (env []) files); [reflexivity|reflexivity| |exact Ha].
  apply Forall_forall. change (effectiveWitnessURLs fencing) with ["u1"; "u2"; "u3"].
  repeat apply Forall_cons_2; [left; reflexivity|left; reflexivity|right; vm_compute; reflexivity|apply Forall_nil_2].
Defined.

Lemma order_of_witnesses_witness :
  FrAllowPromotion (evaluateFencing (with_urls fencing ["u3"; "u1"; " u2 "]) node_b now false true (env ["u3"]) files).1 = true.
Proof.
  rewrite <- (order_of_witnesses fencing ["u1"; " u2 "; "u3"] ["u3"; "u1"; " u2 "] node_b now false true (env ["u3"]) files); [vm_compute; reflexivity|].
  apply (Permutation_app_comm ["u1"; " u2 "] ["u3"]).
Defined.

Lemma counted_approval_authentic_witness : exists response body, Http (env []) "u1" "" "c1" = Ok response /\ Body response = Ok body
  /\ hex_decode (normalizeWitnessSignature (SignatureHeader response)) = Some (hmac_sha256 "k" body).
Proof.
  destruct (counted_approval_authentic fencing (env []) now (witness_vote fencing (env []) now (effectiveWitnessURLs fencing) "u1"))
    as (challenge & response & bytes & decoded & Hh & _ & Hb & _ & _ & Hs & Hr & _).
  - intros url challenge H. injection H as <-. discriminate.
  - apply list_elem_of_fmap. exists "u1". split; [reflexivity|]. vm_compute. left.
  - vm_compute. reflexivity.
  - exists response, bytes. destruct (Hr eq_refl) as [Hc _]. injection Hc as <-. split; [exact Hh|]. split; [exact Hb|]. apply Hs; [discriminate|reflexivity].
Defined.

Lemma standby_held_back_witness : vipAssigned (Next early_tick.1.1) = false.
Proof.
  apply (standby_held_back fencing start
    (mkPairState (79 * second) early_tick.2 (apply_write lease_of_a (Write early_tick.1.1)) (with_vip node_a true) (Next early_tick.1.1) (60 * second))).
  - reflexivity.
  - split; [split; [reflexivity|split; [reflexivity|split; discriminate]]|]. split; [|split; [cbn; lia|split; [reflexivity|discriminate]]].
    exists last_heartbeat, 60. split; [vm_compute; reflexivity|]. split; [reflexivity|]. vm_compute. discriminate.
  - apply rtc_once. apply (standby_tick fencing start (partitioned 79) (env []) early_tick.1.1 early_tick.1.2 early_tick.2).
    + vm_compute. discriminate.
    + vm_compute. discriminate.
    + vm_compute. reflexivity.
Defined.

Lemma standby_takes_over_witness : vipAssigned (Next late_tick.1.1) = true /\ HolderNode (apply_write lease_of_a (Write late_tick.1.1)) = "b"
  /\ Commands late_tick.1.1 = [AddVIP vip].
Proof.
  apply (standby_takes_over fencing node_b (partitioned 100) (env ["u3"]) lease_of_a files (60 * second) 0 vip).
  - reflexivity.
  - reflexivity.
  - reflexivity.
  - split; [|reflexivity]. exists last_heartbeat. split; [vm_compute; reflexivity|reflexivity].
  - vm_compute. discriminate.
  - reflexivity.
  - vm_compute. discriminate.
  - repeat split.
  - reflexivity.
  - vm_compute. reflexivity.
Defined.
