(* ===== verification/DacQueue.v ===== *)
(** * The queue of outbound dynamic authorization requests
    ([internal/db/outbound_dac_queue.go], [internal/radius/outbound_dac_queue.go])

    Disconnect and change-of-authorization requests wait in a table until a node claims, sends and
    completes them, with retries, expiry, cancellation and a dead-letter state. Every operation is one
    statement or transaction on the table; the nodes interleave between them. Instants are nanoseconds;
    the queries compare them through the database's [datetime], a parameter. The columns that
    only describe the request (target, proxy, ownership, capability, vendor action) are not modelled, nor
    is the network: what came of a transmission is an input. *)

From S2P Require Import Prelude GoStrings Bytes.
From Stdlib Require Import Ascii.

Inductive queue_status := Queued | Retrying | ACK | NAK | Errored | Poison | Expired | Canceled.
#[export] Instance queue_status_eq_dec : EqDecision queue_status.
Proof. solve_decision. Defined.

(** [OutboundDACQueueRecord] *)
Record QueueRecord := mkQueueRecord {
  QID : Z; QQueueID : string; QIdempotencyKey : string; QStatus : queue_status; QPayloadJSON : string; QPayloadSHA256 : string;
  QAttemptCount : Z; QMaxAttempts : Z; QLastError : string; QNextAttemptAt : option Z; QExpiresAt : Z;
  QIdempotencyExpiresAt : Z; QOwnerNode : string; QLockedUntil : option Z; QSentAt : option Z; QCompletedAt : option Z;
  QCanceledAt : option Z; QCanceledBy : string; QCancelReason : string; QUpdatedAt : Z }.

(** [OutboundDACQueueCreate]; an absent instant is Go's zero time. *)
Record QueueCreate := mkQueueCreate {
  QCQueueID : string; QCIdempotencyKey : string; QCAction : string; QCTargetAddress : string; QCTargetPort : Z;
  QCPayloadJSON : string; QCPayloadSHA256 : string; QCRequestCode : Z; QCRequestFingerprint : string; QCMaxAttempts : Z;
  QCNextAttemptAt : option Z; QCExpiresAt : option Z; QCIdempotencyExpiresAt : option Z; QCOwnerNode : string }.

(** [OutboundDACQueueAttemptUpdate] *)
Record AttemptUpdate := mkAttemptUpdate { UStatus : queue_status; UErrorMessage : string; UAttemptedAt : Z; UNextAttemptAt : option Z }.

(** The table and its sequence. *)
Record Queue := mkQueue { Rows : gmap Z QueueRecord; Sequence : Z }.

Inductive queue_error :=
| FieldsMissing
| NoRows
| QueueFull (queued : Z)
| NotCancelable (queueID : string)
| NotRetryable (queueID : string)
| QueueIDRequired.

Record QueuePolicy := mkQueuePolicy {
  MaxQueueRecords : Z; InitialRetrySeconds : Z; MaxRetrySeconds : Z; BatchSize : Z; LockSeconds : Z;
  ACKRetentionSeconds : Z; DeadLetterRetentionSeconds : Z }.

Definition second : Z := 1000000000.

Definition pending (r : QueueRecord) : bool := bool_decide (QStatus r ∈ [Queued; Retrying]).

Definition put_row (q : Queue) (r : QueueRecord) : Queue := mkQueue (<[QID r := r]> (Rows q)) (Sequence q).

(** [SELECT ... WHERE column = ? LIMIT 1], the column being unique. *)
Definition find_row (p : QueueRecord -> bool) (q : Queue) : option QueueRecord :=
  firstSome (fun '(_, r) => if p r then Some r else None) (map_to_list (Rows q)).

Definition GetByIdempotencyKey (key : string) (q : Queue) : option QueueRecord :=
  let key := TrimSpace key in if (key =? "")%string then None else find_row (fun r => (QIdempotencyKey r =? key)%string) q.
Definition GetByQueueID (queueID : string) (q : Queue) : option QueueRecord :=
  let queueID := TrimSpace queueID in if (queueID =? "")%string then None else find_row (fun r => (QQueueID r =? queueID)%string) q.

Definition pending_count (q : Queue) : Z := zlen (List.filter pending (map_to_list (Rows q)).*2).

(** [EnqueueOutboundDACQueue]: the record, whether it is new, and the table. The action is normalised
    before the call. The insertion fails on a queue id that is taken, and then no row has the key. *)
Definition Enqueue (create : QueueCreate) (maxQueueRecords now : Z) (q : Queue) : result queue_error (QueueRecord * bool * Queue) :=
  let queueID := TrimSpace (QCQueueID create) in
  let key := TrimSpace (QCIdempotencyKey create) in
  let payload := TrimSpace (QCPayloadJSON create) in
  let digest := TrimSpace (QCPayloadSHA256 create) in
  if (queueID =? "")%string || (key =? "")%string || (QCAction create =? "")%string || (TrimSpace (QCTargetAddress create) =? "")%string
     || (QCTargetPort create <=? 0) || (payload =? "")%string || (digest =? "")%string || (QCRequestCode create =? 0)
     || (TrimSpace (QCRequestFingerprint create) =? "")%string
  then Err FieldsMissing
  else match GetByIdempotencyKey key q with
  | Some existing => Ok (existing, false, q)
  | None =>
      if (maxQueueRecords >? 0) && (pending_count q >=? maxQueueRecords) then Err (QueueFull (pending_count q))
      else match GetByQueueID queueID q with
      | Some _ => Err NoRows
      | None =>
          let id := Sequence q + 1 in
          let expires := default (now + 3600 * second) (QCExpiresAt create) in
          let r := mkQueueRecord id queueID key Queued payload digest 0 (if QCMaxAttempts create <=? 0 then 1 else QCMaxAttempts create) ""
                     (Some (default now (QCNextAttemptAt create))) expires (default expires (QCIdempotencyExpiresAt create))
                     (TrimSpace (QCOwnerNode create)) None None None None "" "" now in
          Ok (r, true, put_row (mkQueue (Rows q) id) r)
      end
  end.

(** ** Claiming *)

Section Queries.
(** [datetime(t)], the database's *)
Context (datetime : Z -> Z).

Definition claimable (now : Z) (r : QueueRecord) : bool :=
  pending r
  && match QNextAttemptAt r with Some at_ => datetime at_ <=? datetime now | None => false end
  && (datetime (QExpiresAt r) >? datetime now)
  && match QLockedUntil r with None => true | Some until => datetime until <=? datetime now end.

Definition next_at (r : QueueRecord) : Z := match QNextAttemptAt r with Some t => datetime t | None => 0 end.

(** [ORDER BY datetime(next_attempt_at), id], of rows that have a [next_attempt_at] *)
Definition due_before (x y : QueueRecord) : bool :=
  if next_at x =? next_at y then QID x <? QID y else next_at x <? next_at y.

Definition claimed_row (owner : string) (until now : Z) (r : QueueRecord) : QueueRecord :=
  mkQueueRecord (QID r) (QQueueID r) (QIdempotencyKey r) Retrying (QPayloadJSON r) (QPayloadSHA256 r) (QAttemptCount r)
    (QMaxAttempts r) (QLastError r) (QNextAttemptAt r) (QExpiresAt r) (QIdempotencyExpiresAt r) owner (Some until) (QSentAt r)
    (QCompletedAt r) (QCanceledAt r) (QCanceledBy r) (QCancelReason r) now.

(** The records in order, and the table. *)
Definition Claim (batchSize : Z) (owner : string) (now lockFor : Z) (q : Queue) : list QueueRecord * Queue :=
  let batchSize := if batchSize <=? 0 then 50 else batchSize in
  let lockFor := if lockFor <=? 0 then 60 * second else lockFor in
  let due := sort_by due_before (List.filter (claimable now) (map_to_list (Rows q)).*2) in
  let claimed := map (claimed_row (TrimSpace owner) (now + lockFor) now) (take (Z.to_nat batchSize) due) in
  (claimed, foldl put_row q claimed).

(** ** Completing *)

Definition completed (status : queue_status) : bool := bool_decide (status ∈ [ACK; NAK; Errored; Poison]).
Definition sent (status : queue_status) : bool := bool_decide (status ∈ [ACK; NAK]).

(** The columns set by [UPDATE ... WHERE id = ?]; [count] is the attempt count of the record the caller
    has, the others are those of the row. *)
Definition completed_row (count : Z) (u : AttemptUpdate) (r : QueueRecord) : QueueRecord :=
  mkQueueRecord (QID r) (QQueueID r) (QIdempotencyKey r) (UStatus u) (QPayloadJSON r) (QPayloadSHA256 r) (count + 1)
    (QMaxAttempts r) (TrimSpace (UErrorMessage u)) (UNextAttemptAt u) (QExpiresAt r) (QIdempotencyExpiresAt r) (QOwnerNode r) None
    (if sent (UStatus u) then Some (UAttemptedAt u) else QSentAt r)
    (if completed (UStatus u) then Some (UAttemptedAt u) else QCompletedAt r)
    (QCanceledAt r) (QCanceledBy r) (QCancelReason r) (UAttemptedAt u).

(** [CompleteOutboundDACQueueAttempt], of the record as the caller holds it. *)
Definition CompleteAttempt (record : QueueRecord) (u : AttemptUpdate) (q : Queue) : Queue :=
  match Rows q !! QID record with
  | None => q
  | Some r => put_row q (completed_row (QAttemptCount record) u r)
  end.

(** [outboundDACQueueBackoff]; the loop runs [attemptNumber - 1] times. *)
Fixpoint backoff_loop (n : nat) (delay maximum : Z) : Z :=
  match n with
  | O => delay
  | S n' => if delay >=? maximum / 2 then maximum else backoff_loop n' (delay * 2) maximum
  end.

(** A [time.Duration] of so many seconds: 64 bits. *)
Definition duration (secs : Z) : Z := (secs * second + 9223372036854775808) mod 18446744073709551616 - 9223372036854775808.

Definition Backoff (policy : QueuePolicy) (attemptNumber : Z) : Z :=
  let attemptNumber := if attemptNumber <? 1 then 1 else attemptNumber in
  let initial := duration (InitialRetrySeconds policy) in
  let initial := if initial <=? 0 then 5 * second else initial in
  let maximum := duration (MaxRetrySeconds policy) in
  let maximum := if maximum <=? 0 then 300 * second else maximum in
  let delay := backoff_loop (Z.to_nat (attemptNumber - 1)) initial maximum in
  if delay >? maximum then maximum else delay.

(** [nextOutboundDACQueueFailure]; [at_] is the time of the attempt, [now] that of the batch. *)
Definition next_failure (policy : QueuePolicy) (record : QueueRecord) (message : string) (now at_ : Z) : AttemptUpdate :=
  let number := QAttemptCount record + 1 in
  let message := if (TrimSpace message =? "")%string then "outbound DAC attempt failed" else TrimSpace message in
  if number >=? QMaxAttempts record then mkAttemptUpdate Poison message at_ None
  else mkAttemptUpdate Queued message at_ (Some (now + Backoff policy number)).

(** What came of an attempt: no transmission, an answer of the NAS, or a failed transmission. *)
Inductive outcome := NotSent (message : string) | Acknowledged | Refused (message : string) | Failed (message : string).

(** [replayOutboundDACQueueRecord]; [payload_digest] is the SHA-256 in hexadecimal and [payload_error] what
    the JSON decoder says. *)
Definition replay_update (payload_digest : string -> string) (payload_error : string -> option string) (policy : QueuePolicy)
    (record : QueueRecord) (came : outcome) (now at_ : Z) : AttemptUpdate :=
  if negb (payload_digest (QPayloadJSON record) =? TrimSpace (QPayloadSHA256 record))%string
  then mkAttemptUpdate Poison "payload checksum mismatch" at_ None
  else match payload_error (QPayloadJSON record) with Some message => mkAttemptUpdate Poison message at_ None | None =>
  match came with
  | Acknowledged => mkAttemptUpdate ACK "" at_ None
  | Refused message => mkAttemptUpdate NAK message at_ None
  | NotSent message => next_failure policy record message now at_
  | Failed message =>
      let next := next_failure policy record message now at_ in mkAttemptUpdate (UStatus next) message at_ (UNextAttemptAt next)
  end end.

(** ** Expiry and the operator *)

Definition expired_row (now : Z) (r : QueueRecord) : QueueRecord :=
  mkQueueRecord (QID r) (QQueueID r) (QIdempotencyKey r) Expired (QPayloadJSON r) (QPayloadSHA256 r) (QAttemptCount r)
    (QMaxAttempts r) (QLastError r) (QNextAttemptAt r) (QExpiresAt r) (QIdempotencyExpiresAt r) (QOwnerNode r) None (QSentAt r)
    (Some now) (QCanceledAt r) (QCanceledBy r) (QCancelReason r) now.

Definition ExpireDue (now : Z) (q : Queue) : Queue :=
  mkQueue ((fun r => if pending r && (datetime (QExpiresAt r) <=? datetime now) then expired_row now r else r) <$> Rows q) (Sequence q).

Definition canceled_row (by_ reason : string) (now : Z) (r : QueueRecord) : QueueRecord :=
  mkQueueRecord (QID r) (QQueueID r) (QIdempotencyKey r) Canceled (QPayloadJSON r) (QPayloadSHA256 r) (QAttemptCount r)
    (QMaxAttempts r) (QLastError r) (QNextAttemptAt r) (QExpiresAt r) (QIdempotencyExpiresAt r) (QOwnerNode r) None (QSentAt r)
    (Some now) (Some now) (TrimSpace by_) (TrimSpace reason) now.

(** The cancellation is recorded as an attempt, too. *)
Definition Cancel (queueID by_ reason : string) (now : Z) (q : Queue) : result queue_error Queue :=
  let queueID := TrimSpace queueID in
  if (queueID =? "")%string then Err QueueIDRequired
  else match GetByQueueID queueID q with
  | Some r =>
      if pending r then
        let r' := canceled_row by_ reason now r in
        Ok (CompleteAttempt r' (mkAttemptUpdate Canceled (TrimSpace reason) now None) (put_row q r'))
      else Err (NotCancelable queueID)
  | None => Err (NotCancelable queueID)
  end.

Definition requeued_row (next expires idempotencyExpires : Z) (owner : string) (r : QueueRecord) : QueueRecord :=
  mkQueueRecord (QID r) (QQueueID r) (QIdempotencyKey r) Queued (QPayloadJSON r) (QPayloadSHA256 r) 0
    (QMaxAttempts r) "" (Some next) expires idempotencyExpires (TrimSpace owner) None (QSentAt r) None None "" "" next.

Definition Requeue (queueID : string) (next expires idempotencyExpires : option Z) (owner : string) (now : Z) (q : Queue)
  : result queue_error Queue :=
  let queueID := TrimSpace queueID in
  let next := default now next in
  let expires := default (next + 3600 * second) expires in
  let idempotencyExpires := default expires idempotencyExpires in
  if (queueID =? "")%string then Err QueueIDRequired
  else match GetByQueueID queueID q with
  | Some r => if bool_decide (QStatus r ∈ [NAK; Errored; Poison; Expired; Canceled])
              then Ok (put_row q (requeued_row next expires idempotencyExpires owner r)) else Err (NotRetryable queueID)
  | None => Err (NotRetryable queueID)
  end.

(** [PruneOutboundDACQueue] *)
Definition prunable (ackRetention deadRetention now : Z) (r : QueueRecord) : bool :=
  let ackRetention := if ackRetention <=? 0 then 24 * 3600 * second else ackRetention in
  let deadRetention := if deadRetention <=? 0 then 30 * 24 * 3600 * second else deadRetention in
  bool_decide (QStatus r = ACK) && (datetime (default (QUpdatedAt r) (QCompletedAt r)) <? datetime (now - ackRetention))
  || bool_decide (QStatus r ∈ [NAK; Errored; Poison; Expired; Canceled]) && (datetime (QUpdatedAt r) <? datetime (now - deadRetention)).

Definition Prune (ackRetention deadRetention now : Z) (q : Queue) : Queue :=
  mkQueue (filter (fun kr => prunable ackRetention deadRetention now kr.2 = false) (Rows q)) (Sequence q).

(** [ReplayOutboundDACQueue] of a node that may replay, undisturbed by others: [came] and [at_] say what
    came of each attempt and when, [done_at] is the time of the pruning. *)
Definition Replay (payload_digest : string -> string) (payload_error : string -> option string) (policy : QueuePolicy) (owner : string)
    (batchSize now done_at : Z) (came : QueueRecord -> outcome) (at_ : QueueRecord -> Z) (q : Queue) : Queue :=
  let batchSize := if batchSize <=? 0 then BatchSize policy else batchSize in
  let '(claimed, q) := Claim batchSize owner now (duration (LockSeconds policy)) (ExpireDue now q) in
  let q := foldl (fun q r => CompleteAttempt r (replay_update payload_digest payload_error policy r (came r) now (at_ r)) q) q claimed in
  Prune (duration (ACKRetentionSeconds policy)) (duration (DeadLetterRetentionSeconds policy)) done_at q.

End Queries.

(** ** The retry schedule *)

Lemma duration_seconds n : 0 <= n <= 9223372036 -> duration n = n * second.
Proof. intros Hn. unfold duration, second. rewrite Z.mod_small; lia. Qed.

Lemma backoff_loop_min n delay half :
  0 < delay -> 0 < half -> Z.min (backoff_loop n delay (2 * half)) (2 * half) = Z.min (delay * 2 ^ Z.of_nat n) (2 * half).
Proof.
  intros Hd Hh. revert delay Hd. induction n as [|n IH]; intros delay Hd; [cbn; lia|].
  cbn [backoff_loop]. rewrite (Z.mul_comm 2 half), Z.div_mul, (Z.mul_comm half 2) by lia.
  rewrite Nat2Z.inj_succ, Z.pow_succ_r by lia. assert (0 < 2 ^ Z.of_nat n) by (apply Z.pow_pos_nonneg; lia).
  destruct (delay >=? half) eqn:E; bool_arith; [nia|]. rewrite IH by lia. f_equal. lia.
Qed.

(** The wait before a retry doubles with every attempt, from the configured first wait up to the
    configured maximum; a record whose attempts are used up is not retried but goes to the dead letters. *)
Theorem retry_schedule (policy : QueuePolicy) (record : QueueRecord) (message : string) (now at_ : Z) :
  0 < InitialRetrySeconds policy <= 9223372036 -> 0 < MaxRetrySeconds policy <= 9223372036 -> 0 <= QAttemptCount record ->
  let u := next_failure policy record message now at_ in
  if QAttemptCount record + 1 >=? QMaxAttempts record
  then UStatus u = Poison /\ UNextAttemptAt u = None
  else UStatus u = Queued
    /\ UNextAttemptAt u = Some (now + second * Z.min (InitialRetrySeconds policy * 2 ^ QAttemptCount record) (MaxRetrySeconds policy)).
Proof.
  intros Hi Hm Hc. cbv zeta. unfold next_failure. cbv zeta. destruct (_ >=? _); [done|]. split; [done|]. cbn [UNextAttemptAt].
  do 2 f_equal. unfold Backoff. cbv zeta. rewrite !duration_seconds by lia.
  assert ((QAttemptCount record + 1 <? 1) = false) as -> by (apply Z.ltb_ge; lia).
  assert ((InitialRetrySeconds policy * second <=? 0) = false) as -> by (apply Z.leb_gt; unfold second; lia).
  assert ((MaxRetrySeconds policy * second <=? 0) = false) as -> by (apply Z.leb_gt; unfold second; lia).
  set (maximum := MaxRetrySeconds policy * second). assert (maximum = 2 * (MaxRetrySeconds policy * 500000000)) as Hmax by (unfold maximum, second; lia).
  pose proof (backoff_loop_min (Z.to_nat (QAttemptCount record + 1 - 1)) (InitialRetrySeconds policy * second) (MaxRetrySeconds policy * 500000000)
                ltac:(unfold second; lia) ltac:(lia)) as Hmin.
  rewrite <- Hmax in Hmin. replace (Z.of_nat (Z.to_nat (QAttemptCount record + 1 - 1))) with (QAttemptCount record) in Hmin by lia.
  transitivity (Z.min (backoff_loop (Z.to_nat (QAttemptCount record + 1 - 1)) (InitialRetrySeconds policy * second) maximum) maximum).
  - destruct (_ >? _) eqn:E; bool_arith; lia.
  - rewrite Hmin. unfold maximum, second. lia.
Qed.

(** ** The table *)

(** Rows under their ids, below the sequence; queue ids and idempotency keys unique. *)
Record queue_ok (q : Queue) : Prop := {
  row_at id r : Rows q !! id = Some r -> QID r = id /\ id <= Sequence q;
  keys_unique i j r s : Rows q !! i = Some r -> Rows q !! j = Some s -> QIdempotencyKey r = QIdempotencyKey s -> i = j;
  queue_ids_unique i j r s : Rows q !! i = Some r -> Rows q !! j = Some s -> QQueueID r = QQueueID s -> i = j;
}.

Lemma find_row_Some p q r : find_row p q = Some r -> p r = true /\ exists id, Rows q !! id = Some r.
Proof.
  unfold find_row. intros (l1 & [id r'] & l2 & Hl & Hr & _)%firstSome_Some. destruct (p r') eqn:E; [|done]. injection Hr as ->.
  split; [done|]. exists id. apply elem_of_map_to_list. rewrite Hl. set_solver.
Qed.

Lemma find_row_None p q id r : find_row p q = None -> Rows q !! id = Some r -> p r = false.
Proof.
  unfold find_row. rewrite firstSome_None, Forall_forall. intros Hn Hr%elem_of_map_to_list. specialize (Hn _ Hr). cbn in Hn.
  by destruct (p r).
Qed.

Lemma find_row_unique p q id r :
  Rows q !! id = Some r -> p r = true -> (forall i s, Rows q !! i = Some s -> p s = true -> i = id) -> find_row p q = Some r.
Proof.
  intros Hr Hp Hu. destruct (find_row p q) as [s|] eqn:E; [|by rewrite (find_row_None _ _ _ _ E Hr) in Hp].
  apply find_row_Some in E as (Hs & i & Hi). rewrite (Hu i s Hi Hs) in Hi. congruence.
Qed.

Lemma queue_ok_put q r s : queue_ok q -> Rows q !! QID s = Some r -> QQueueID s = QQueueID r -> QIdempotencyKey s = QIdempotencyKey r ->
  queue_ok (put_row q s).
Proof.
  intros [Hat Hk Hq] Hr Hsq Hsk. split; cbn; intros *.
  - intros [[<- <-]|[_ H]]%lookup_insert_Some; [|by apply Hat]. split; [done|]. exact (proj2 (Hat _ _ Hr)).
  - intros [[<- <-]|[? H1]]%lookup_insert_Some [[<- <-]|[? H2]]%lookup_insert_Some; [done|..]; rewrite ?Hsk; eauto.
  - intros [[<- <-]|[? H1]]%lookup_insert_Some [[<- <-]|[? H2]]%lookup_insert_Some; [done|..]; rewrite ?Hsq; eauto.
Qed.

(** ** Claims *)

Section Claims.
Context (datetime : Z -> Z).
#[local] Abbreviation claimable := (claimable datetime).
#[local] Abbreviation next_at := (next_at datetime).
#[local] Abbreviation due_before := (due_before datetime).
#[local] Abbreviation Claim := (Claim datetime).

#[local] Instance due_before_order : WeakOrder due_before.
Proof.
  apply (lex_order (fun x y => next_at x =? next_at y)
    (fun x y => next_at x <? next_at y)
    (fun x y => QID x <? QID y)); [apply _..|].
  intros x y. rewrite Z.eqb_eq, !Z.ltb_ge. lia.
Qed.

Lemma foldl_put_lookup l q id :
  NoDup (QID <$> l) ->
  Rows (foldl put_row q l) !! id = match List.find (fun r => QID r =? id) l with Some r => Some r | None => Rows q !! id end.
Proof.
  revert q. induction l as [|r l IH]; intros q Hd; [done|]. cbn [fmap list_fmap] in Hd. apply NoDup_cons in Hd as [Hn Hd].
  cbn [foldl List.find]. rewrite IH by done. destruct (Z.eqb_spec (QID r) id) as [<-|Hne].
  - destruct (List.find _ l) as [s|] eqn:E; [|by cbn; rewrite lookup_insert_eq].
    exfalso. apply find_some in E as [Hs Hid%Z.eqb_eq]. apply Hn. rewrite <- Hid. apply list_elem_of_fmap_2, list_elem_of_In, Hs.
  - destruct (List.find _ l); [done|]. cbn. by rewrite lookup_insert_ne.
Qed.

(** What a claim does, in terms of the rows that are due. *)
Definition due_rows (now : Z) (q : Queue) : list QueueRecord :=
  sort_by due_before (List.filter (claimable now) (map_to_list (Rows q)).*2).

Lemma elem_due now q r : queue_ok q -> r ∈ due_rows now q <-> Rows q !! QID r = Some r /\ claimable now r = true.
Proof.
  intros Q. unfold due_rows. rewrite sort_by_perm, list_elem_of_In, filter_In, <- list_elem_of_In, list_elem_of_fmap. split.
  - intros [([id s] & -> & Hin%elem_of_map_to_list) Hc]. cbn in *. by rewrite (proj1 (row_at _ Q _ _ Hin)).
  - intros [Hr Hc]. split; [|done]. exists (QID r, r). split; [done|]. by apply elem_of_map_to_list.
Qed.

Lemma NoDup_due now q : queue_ok q -> NoDup (QID <$> due_rows now q).
Proof.
  intros Q. unfold due_rows. rewrite sort_by_perm. apply (sublist_NoDup _ (QID <$> (map_to_list (Rows q)).*2)).
  - assert (QID <$> (map_to_list (Rows q)).*2 = (map_to_list (Rows q)).*1) as ->; [|apply NoDup_fst_map_to_list].
    rewrite <- list_fmap_compose. apply list_fmap_ext. intros i [id r] Hi. cbn.
    apply list_elem_of_lookup_2, elem_of_map_to_list in Hi. by apply (row_at _ Q).
  - apply fmap_sublist. clear Q. induction (map_to_list (Rows q)).*2 as [|r l IH]; [done|]. cbn. destruct (claimable now r); by constructor.
Qed.

Definition batch (batchSize : Z) : Z := if batchSize <=? 0 then 50 else batchSize.
Definition lock_time (lockFor : Z) : Z := if lockFor <=? 0 then 60 * second else lockFor.

Lemma Claim_unfold batchSize owner now lockFor q :
  Claim batchSize owner now lockFor q
  = (let claimed := map (claimed_row (TrimSpace owner) (now + lock_time lockFor) now) (take (Z.to_nat (batch batchSize)) (due_rows now q)) in
     (claimed, foldl put_row q claimed)).
Proof. done. Qed.

Lemma claimed_ids owner until now l : QID <$> map (claimed_row owner until now) l = QID <$> l.
Proof. change (map ?f l) with (f <$> l). rewrite <- list_fmap_compose. by apply list_fmap_ext. Qed.

Lemma elem_take_due n now q r : queue_ok q -> r ∈ take n (due_rows now q) -> Rows q !! QID r = Some r /\ claimable now r = true.
Proof. intros Q Hr. apply elem_due; [done|]. eapply subseteq_take, Hr. Qed.

Lemma NoDup_take_due n now q : queue_ok q -> NoDup (QID <$> take n (due_rows now q)).
Proof.
  intros Q. rewrite fmap_take. by eapply sublist_NoDup; [apply (NoDup_due now q Q)|apply sublist_take].
Qed.

Lemma claimed_rows batchSize owner now lockFor q :
  queue_ok q ->
  let '(claimed, q') := Claim batchSize owner now lockFor q in
  NoDup (QID <$> claimed)
  /\ (forall c, c ∈ claimed -> exists r, Rows q !! QID c = Some r /\ claimable now r = true /\
       c = claimed_row (TrimSpace owner) (now + lock_time lockFor) now r /\ Rows q' !! QID c = Some c)
  /\ (forall id, id ∉ QID <$> claimed -> Rows q' !! id = Rows q !! id).
Proof.
  intros Q. rewrite Claim_unfold. cbv zeta. set (f := claimed_row _ _ _). set (l := take _ _).
  assert (NoDup (QID <$> map f l)) as Hd by (unfold f; rewrite claimed_ids; by apply NoDup_take_due).
  split; [done|]. split.
  - intros c Hc. rewrite list_elem_of_In in Hc. pose proof Hc as Hc'. apply in_map_iff in Hc as (r & <- & Hr%list_elem_of_In).
    change (QID (f r)) with (QID r). exists r. destruct (elem_take_due _ _ _ _ Q Hr) as [Hrow Hcl]. split_and!; [done..|].
    rewrite foldl_put_lookup by done. destruct (List.find _ _) as [s|] eqn:E.
    + apply find_some in E as [(r2 & <- & Hr2%list_elem_of_In)%in_map_iff Hid%Z.eqb_eq]. change (QID (f r2)) with (QID r2) in Hid.
      destruct (elem_take_due _ _ _ _ Q Hr2) as [Hrow2 _]. rewrite Hid in Hrow2. congruence.
    + exfalso. by apply (find_none _ _ E), Z.eqb_neq in Hc'.
  - intros id Hid. rewrite foldl_put_lookup by done. destruct (List.find _ _) as [s|] eqn:E; [|done].
    exfalso. apply find_some in E as [Hs%list_elem_of_In Hs'%Z.eqb_eq]. apply Hid. rewrite <- Hs'. by apply list_elem_of_fmap_2.
Qed.

Lemma foldl_put_sequence l q : Sequence (foldl put_row q l) = Sequence q.
Proof. revert q. induction l as [|r l IH]; intros q; [done|]. cbn. by rewrite IH. Qed.

Lemma queue_ok_foldl l q :
  queue_ok q -> (forall s, s ∈ l -> exists r, Rows q !! QID s = Some r /\ QQueueID s = QQueueID r /\ QIdempotencyKey s = QIdempotencyKey r) ->
  NoDup (QID <$> l) -> queue_ok (foldl put_row q l).
Proof.
  revert q. induction l as [|s l IH]; intros q Q Hl Hd; [done|]. cbn [foldl]. apply NoDup_cons in Hd as [Hn Hd].
  destruct (Hl s) as (r & Hr & Hs1 & Hs2); [left|]. apply IH; [by eapply queue_ok_put| |done].
  intros s' Hs'. destruct (Hl s') as (r' & Hr' & ?); [by right|]. exists r'. split; [|done]. cbn. rewrite lookup_insert_ne; [done|].
  intros Heq. apply Hn. rewrite Heq. by apply list_elem_of_fmap_2.
Qed.

Lemma StronglySorted_app_elem {A} (R : A -> A -> Prop) l k x y : StronglySorted R (l ++ k) -> x ∈ l -> y ∈ k -> R x y.
Proof.
  induction l as [|z l IH]; intros Hs Hx Hy; [by apply not_elem_of_nil in Hx|]. cbn in Hs. inversion Hs as [|?? Hs' HF]; subst.
  apply elem_of_cons in Hx as [->|Hx]; [|by apply IH]. rewrite Forall_forall in HF. apply HF. set_solver.
Qed.

(** A batch takes the earliest of the rows that are due, and leaves some only when it is full. *)
Lemma claimed_first batchSize owner now lockFor q r :
  queue_ok q -> Rows q !! QID r = Some r -> claimable now r = true ->
  let '(claimed, _) := Claim batchSize owner now lockFor q in
  QID r ∉ QID <$> claimed -> zlen claimed = batch batchSize /\ forall c, c ∈ claimed -> due_before r c = false.
Proof.
  intros Q Hr Hc. rewrite Claim_unfold. cbv beta iota zeta. rewrite claimed_ids. set (n := Z.to_nat (batch batchSize)). intros Hn.
  assert (r ∈ due_rows now q) as Hd by (by apply elem_due).
  rewrite <- (take_drop n (due_rows now q)) in Hd. apply elem_of_app in Hd as [Hd|Hd]; [by contradict Hn; apply list_elem_of_fmap_2|].
  split.
  - assert ((n <= length (due_rows now q))%nat).
    { destruct (Nat.le_gt_cases (length (due_rows now q)) n); [|lia]. rewrite drop_ge in Hd by done. by apply not_elem_of_nil in Hd. }
    unfold zlen. rewrite length_map, length_take, Nat.min_l by done. unfold n, batch. case_match; lia.
  - intros c Hcl. apply list_elem_of_In, in_map_iff in Hcl as (r' & <- & Hr'%list_elem_of_In). 
    change (in_order due_before r' r). eapply StronglySorted_app_elem; [|exact Hr'|exact Hd]. rewrite take_drop.
    apply sort_by_sorted, due_before_order.
Qed.

Lemma queue_ok_claim batchSize owner now lockFor q : queue_ok q -> queue_ok (Claim batchSize owner now lockFor q).2.
Proof.
  intros Q. rewrite Claim_unfold. cbv zeta. cbn [snd]. apply queue_ok_foldl; [done| |rewrite claimed_ids; by apply NoDup_take_due].
  intros c Hc. apply list_elem_of_In, in_map_iff in Hc as (r & <- & Hr%list_elem_of_In). exists r. split; [|done].
  by destruct (elem_take_due _ _ _ _ Q Hr).
Qed.

(** C24: A claim takes at most a batch of records that are due, not locked and not expired, earliest first, leaving a
    due record only when the batch is full and all it took are at least as early; it marks them retrying and
    locked to the node, and touches no others. Until its locks end nobody claims them again. *)
Theorem claim_spec (batchSize : Z) (owner : string) (now lockFor : Z) (q : Queue) :
  queue_ok q ->
  let '(claimed, q') := Claim batchSize owner now lockFor q in
  queue_ok q' /\ NoDup (QID <$> claimed) /\ zlen claimed <= batch batchSize
  /\ (forall c, c ∈ claimed -> exists r, Rows q !! QID c = Some r /\ claimable now r = true /\
       c = claimed_row (TrimSpace owner) (now + lock_time lockFor) now r /\ Rows q' !! QID c = Some c)
  /\ (forall id, id ∉ QID <$> claimed -> Rows q' !! id = Rows q !! id)
  /\ (forall r, Rows q !! QID r = Some r -> claimable now r = true -> (QID r ∉ QID <$> claimed) ->
       zlen claimed = batch batchSize /\ forall c, c ∈ claimed -> due_before r c = false)
  /\ (forall batchSize2 owner2 now2 lockFor2, datetime now2 < datetime (now + lock_time lockFor) ->
       forall c c2, c ∈ claimed -> c2 ∈ (Claim batchSize2 owner2 now2 lockFor2 q').1 -> QID c <> QID c2).
Proof.
  intros Q. pose proof (claimed_rows batchSize owner now lockFor q Q) as Hrows. pose proof (queue_ok_claim batchSize owner now lockFor q Q) as Q'.
  pose proof (claimed_first batchSize owner now lockFor q) as Hfirst.
  assert (zlen (Claim batchSize owner now lockFor q).1 <= batch batchSize) as Hlen.
  { rewrite Claim_unfold. cbv zeta. cbn [fst]. unfold zlen. rewrite length_map, length_take. unfold batch. assert (0 <= if batchSize <=? 0 then 50 else batchSize) by (destruct (batchSize <=? 0) eqn:?; bool_arith; lia). lia. }
  destruct (Claim batchSize owner now lockFor q) as [claimed q']. cbn [fst snd] in *. destruct Hrows as (Hd & Hc & Hrest).
  split_and!; [done..| |].
  - intros r Hr Hcl. by apply Hfirst.
  - intros batchSize2 owner2 now2 lockFor2 Hlock c c2 Hin Hin2 Heq. pose proof (claimed_rows batchSize2 owner2 now2 lockFor2 q' Q') as H2.
    destruct (Claim _ _ _ _ q') as [claimed2 q2]. cbn [fst] in Hin2. destruct H2 as (_ & H2 & _). destruct (H2 _ Hin2) as (r2 & Hr2 & Hcl2 & _).
    destruct (Hc _ Hin) as (r & _ & _ & -> & Hr'). rewrite Heq in Hr'. rewrite Hr2 in Hr'. injection Hr' as ->.
    unfold claimable in Hcl2. cbn in Hcl2. apply andb_true_iff in Hcl2 as [_ Hle%Z.leb_le].
    lia.
Qed.
End Claims.

(** ** Enqueueing *)

Lemma filter_perm {A} (p : A -> bool) (l k : list A) : l ≡ₚ k -> List.filter p l ≡ₚ List.filter p k.
Proof. induction 1; cbn; repeat case_match; try constructor; try done. by etrans. Qed.

Lemma pending_count_put q id r :
  Rows q !! id = None -> pending r = true ->
  zlen (List.filter pending (map_to_list (<[id := r]> (Rows q))).*2) = pending_count q + 1.
Proof.
  intros Hn Hp. unfold pending_count.
  assert ((map_to_list (<[id:=r]> (Rows q))).*2 ≡ₚ r :: (map_to_list (Rows q)).*2) as Hperm by (by rewrite map_to_list_insert).
  unfold zlen. rewrite (filter_perm pending _ _ Hperm). cbn. rewrite Hp. cbn [length]. lia.
Qed.

Lemma queue_ok_new q r :
  queue_ok q -> QID r = Sequence q + 1 -> (forall id s, Rows q !! id = Some s -> QIdempotencyKey s <> QIdempotencyKey r) ->
  (forall id s, Rows q !! id = Some s -> QQueueID s <> QQueueID r) -> queue_ok (put_row (mkQueue (Rows q) (Sequence q + 1)) r).
Proof.
  intros [Hat Hk Hq] Hid Hk' Hq'. split; cbn; intros *.
  - intros [[<- <-]|[_ H]]%lookup_insert_Some; [lia|]. destruct (Hat _ _ H). lia.
  - intros [[<- <-]|[? H1]]%lookup_insert_Some [[<- <-]|[? H2]]%lookup_insert_Some ?; [done| | |by eauto]; exfalso; first [by eapply Hk'; [|symmetry]; eauto|by eapply Hk'; eauto].
  - intros [[<- <-]|[? H1]]%lookup_insert_Some [[<- <-]|[? H2]]%lookup_insert_Some ?; [done| | |by eauto]; exfalso; first [by eapply Hq'; [|symmetry]; eauto|by eapply Hq'; eauto].
Qed.

Lemma GetByIdempotencyKey_Some key q r :
  GetByIdempotencyKey key q = Some r -> QIdempotencyKey r = TrimSpace key /\ exists id, Rows q !! id = Some r.
Proof. unfold GetByIdempotencyKey. cbv zeta. case_match; [done|]. by intros [?%String.eqb_eq ?]%find_row_Some. Qed.

Lemma GetByIdempotencyKey_None key q id r : TrimSpace key <> "" ->
  GetByIdempotencyKey key q = None -> Rows q !! id = Some r -> QIdempotencyKey r <> TrimSpace key.
Proof.
  unfold GetByIdempotencyKey. cbv zeta. intros ->%String.eqb_neq Hn Hr. by apply String.eqb_neq, (find_row_None _ _ _ _ Hn Hr).
Qed.

Lemma GetByIdempotencyKey_unique key q id r : TrimSpace key <> "" -> queue_ok q ->
  Rows q !! id = Some r -> QIdempotencyKey r = TrimSpace key -> GetByIdempotencyKey key q = Some r.
Proof.
  unfold GetByIdempotencyKey. cbv zeta. intros ->%String.eqb_neq Q Hr Hk. apply (find_row_unique _ _ id); [done|by apply String.eqb_eq|].
  intros i s Hs Hks%String.eqb_eq. apply (keys_unique _ Q i id s r); congruence.
Qed.

Lemma GetByQueueID_Some queueID q r :
  GetByQueueID queueID q = Some r -> QQueueID r = TrimSpace queueID /\ exists id, Rows q !! id = Some r.
Proof. unfold GetByQueueID. cbv zeta. case_match; [done|]. by intros [?%String.eqb_eq ?]%find_row_Some. Qed.

Lemma GetByQueueID_None queueID q id r : TrimSpace queueID <> "" ->
  GetByQueueID queueID q = None -> Rows q !! id = Some r -> QQueueID r <> TrimSpace queueID.
Proof.
  unfold GetByQueueID. cbv zeta. intros ->%String.eqb_neq Hn Hr. by apply String.eqb_neq, (find_row_None _ _ _ _ Hn Hr).
Qed.

Lemma GetByQueueID_unique queueID q id r : TrimSpace queueID <> "" -> queue_ok q ->
  Rows q !! id = Some r -> QQueueID r = TrimSpace queueID -> GetByQueueID queueID q = Some r.
Proof.
  unfold GetByQueueID. cbv zeta. intros ->%String.eqb_neq Q Hr Hk. apply (find_row_unique _ _ id); [done|by apply String.eqb_eq|].
  intros i s Hs Hks%String.eqb_eq. apply (queue_ids_unique _ Q i id s r); congruence.
Qed.

Lemma queue_fresh q : queue_ok q -> Rows q !! (Sequence q + 1) = None.
Proof. intros Q. apply eq_None_not_Some. intros [r Hr]. destruct (row_at _ Q _ _ Hr). lia. Qed.

(** What is enqueued: the row, and that neither its key nor its id was taken. *)
Lemma enqueue_row create maxQueueRecords now q r q' :
  queue_ok q -> Enqueue create maxQueueRecords now q = Ok (r, true, q') ->
  queue_ok q' /\ Rows q' = <[Sequence q + 1 := r]> (Rows q) /\ Sequence q' = Sequence q + 1 /\ (0 < maxQueueRecords -> pending_count q < maxQueueRecords)
  /\ QStatus r = Queued /\ QAttemptCount r = 0 /\ 1 <= QMaxAttempts r /\ QIdempotencyKey r = TrimSpace (QCIdempotencyKey create)
  /\ (forall id s, Rows q !! id = Some s -> QIdempotencyKey s <> QIdempotencyKey r /\ QQueueID s <> QQueueID r).
Proof.
  intros Q. unfold Enqueue. cbv zeta. destruct (_ || _) eqn:Hfields; [done|].
  assert (TrimSpace (QCIdempotencyKey create) <> "" /\ TrimSpace (QCQueueID create) <> "") as [Hkey Hqid].
  { rewrite !orb_false_iff, !String.eqb_neq in Hfields. tauto. }
  destruct (GetByIdempotencyKey _ q) as [existing|] eqn:Hk; [done|]. destruct (_ && _) eqn:Hfull; [done|].
  destruct (GetByQueueID _ q) as [existing|] eqn:Hq; [done|]. intros Heq. injection Heq as <- <-.
  set (r := mkQueueRecord _ _ _ _ _ _ _ _ _ _ _ _ _ _ _ _ _ _ _ _).
  assert (forall id s, Rows q !! id = Some s -> QIdempotencyKey s <> QIdempotencyKey r /\ QQueueID s <> QQueueID r) as Hfresh.
  { intros id s Hs. pose proof (GetByIdempotencyKey_None (TrimSpace (QCIdempotencyKey create)) q id s ltac:(by rewrite TrimSpace_idem) Hk Hs) as H1.
    pose proof (GetByQueueID_None (TrimSpace (QCQueueID create)) q id s ltac:(by rewrite TrimSpace_idem) Hq Hs) as H2. by rewrite TrimSpace_idem in H1, H2. }
  split_and!; [|done|done| |done|done| |done|done].
  - apply queue_ok_new; [done..|intros id s Hs; by apply (Hfresh id s)|intros id s Hs; by apply (Hfresh id s)].
  - intros. bool_arith; lia.
  - cbn. case_match; bool_arith; lia.
Qed.

Lemma enqueue_old create maxQueueRecords now q r q' : Enqueue create maxQueueRecords now q = Ok (r, false, q') -> q' = q.
Proof. unfold Enqueue. cbv zeta. repeat case_match; congruence. Qed.

(** Once its key is in the table, a complete request is answered from it. *)
Lemma enqueue_again create maxQueueRecords now maxQueueRecords2 now2 q r q' :
  queue_ok q -> Enqueue create maxQueueRecords now q = Ok (r, true, q') -> Enqueue create maxQueueRecords2 now2 q' = Ok (r, false, q').
Proof.
  intros Q He. destruct (enqueue_row _ _ _ _ _ _ Q He) as (Q' & Hrows & _ & _ & _ & _ & _ & Hkey & _). revert He. unfold Enqueue. cbv zeta.
  destruct (_ || _) eqn:Hfields; [done|]. intros _.
  rewrite (GetByIdempotencyKey_unique _ q' (Sequence q + 1) r); rewrite ?TrimSpace_idem; [done| |done| |done].
  - rewrite !orb_false_iff, !String.eqb_neq in Hfields. tauto.
  - by rewrite Hrows, lookup_insert_eq.
Qed.

(** A request whose idempotency key is in the table is answered with that record whatever its state, its own
    fields or its idempotency window, and the table does not change. A new one is added as a queued record without
    attempts, exactly if the queue has room and its id is free, and repeating it finds it again. *)
Theorem enqueue_spec (create : QueueCreate) (maxQueueRecords now : Z) (q : Queue) :
  queue_ok q ->
  match Enqueue create maxQueueRecords now q with
  | Ok (r, false, q') => q' = q /\ QIdempotencyKey r = TrimSpace (QCIdempotencyKey create) /\ exists id, Rows q !! id = Some r
  | Ok (r, true, q') =>
      queue_ok q' /\ Rows q' = <[Sequence q + 1 := r]> (Rows q) /\ pending_count q' = pending_count q + 1
      /\ (0 < maxQueueRecords -> pending_count q' <= maxQueueRecords)
      /\ QStatus r = Queued /\ QAttemptCount r = 0 /\ 1 <= QMaxAttempts r /\ QIdempotencyKey r = TrimSpace (QCIdempotencyKey create)
      /\ (forall id s, Rows q !! id = Some s -> QIdempotencyKey s <> QIdempotencyKey r /\ QQueueID s <> QQueueID r)
      /\ (forall maxQueueRecords2 now2, Enqueue create maxQueueRecords2 now2 q' = Ok (r, false, q'))
  | Err (QueueFull n) => n = pending_count q /\ 0 < maxQueueRecords <= n
  | Err NoRows => exists id r, Rows q !! id = Some r /\ QQueueID r = TrimSpace (QCQueueID create)
  | Err e => e = FieldsMissing
  end.
Proof.
  intros Q. destruct (Enqueue create maxQueueRecords now q) as [[[r []] q']|e] eqn:He.
  - destruct (enqueue_row _ _ _ _ _ _ Q He) as (Q' & Hrows & Hseq & Hroom & Hst & Ha & Hmax & Hkey & Hfresh).
    assert (pending_count q' = pending_count q + 1) as Hcount.
    { unfold pending_count. rewrite Hrows. apply (pending_count_put q (Sequence q + 1)); [by apply queue_fresh|].
      unfold pending. by rewrite Hst. }
    split_and!; [done..| |done|done|done|done|done|].
    + intros Hpos. specialize (Hroom Hpos). lia.
    + intros. eapply enqueue_again; [exact Q|exact He].
  - revert He. unfold Enqueue. cbv zeta. repeat case_match; try done. intros Heq. injection Heq as <- <-.
    match goal with H : GetByIdempotencyKey _ _ = Some _ |- _ => apply GetByIdempotencyKey_Some in H; by rewrite TrimSpace_idem in H end.
  - revert He. unfold Enqueue. cbv zeta. destruct (_ || _); [by injection 1 as <-|]. destruct (GetByIdempotencyKey _ q); [done|].
    destruct ((_ >? 0) && _) eqn:Hfull; [injection 1 as <-; bool_arith; lia|].
    destruct (GetByQueueID _ q) as [row|] eqn:Hq; [injection 1 as <-|done].
    apply GetByQueueID_Some in Hq as [Hid [id Hrow]]. rewrite TrimSpace_idem in Hid. eauto.
Qed.

(** ** Nodes interleaved *)

(** The table and the attempts under way: the records as they were claimed. *)
Record World := mkWorld { WQueue : Queue; InFlight : list QueueRecord }.

Section Steps.
Context (datetime : Z -> Z) (payload_digest : string -> string) (payload_error : string -> option string) (policy : QueuePolicy).

(** A step of some node, of the operator or of the maintenance; an attempt may also be lost with its node. *)
Inductive step : World -> World -> Prop :=
| StepEnqueue create maxQueueRecords now q fs r new q' :
    Enqueue create maxQueueRecords now q = Ok (r, new, q') -> step (mkWorld q fs) (mkWorld q' fs)
| StepClaim batchSize owner now lockFor q fs :
    step (mkWorld q fs) (mkWorld (Claim datetime batchSize owner now lockFor q).2 (fs ++ (Claim datetime batchSize owner now lockFor q).1))
| StepComplete q fs r fs' came now at_ :
    step (mkWorld q (fs ++ r :: fs'))
      (mkWorld (CompleteAttempt r (replay_update payload_digest payload_error policy r came now at_) q) (fs ++ fs'))
| StepLost q fs r fs' : step (mkWorld q (fs ++ r :: fs')) (mkWorld q (fs ++ fs'))
| StepExpire now q fs : step (mkWorld q fs) (mkWorld (ExpireDue datetime now q) fs)
| StepCancel queueID by_ reason now q fs q' :
    Cancel queueID by_ reason now q = Ok q' -> step (mkWorld q fs) (mkWorld q' fs)
| StepRequeue queueID next expires idempotencyExpires owner now q fs q' :
    Requeue queueID next expires idempotencyExpires owner now q = Ok q' -> step (mkWorld q fs) (mkWorld q' fs)
| StepPrune ackRetention deadRetention now q fs : step (mkWorld q fs) (mkWorld (Prune datetime ackRetention deadRetention now q) fs).

Definition reachable (w : World) : Prop := rtc step (mkWorld (mkQueue ∅ 0) []) w.

Definition attempts_ok (r : QueueRecord) : Prop :=
  0 <= QAttemptCount r <= QMaxAttempts r /\ 1 <= QMaxAttempts r /\ (pending r = true -> QAttemptCount r < QMaxAttempts r).

(** The record of an attempt under way, as far as the row agrees with it. *)
Definition in_flight_ok (q : Queue) (c : QueueRecord) : Prop :=
  0 <= QAttemptCount c < QMaxAttempts c /\ QID c <= Sequence q /\ forall r, Rows q !! QID c = Some r -> QMaxAttempts r = QMaxAttempts c.

Record world_ok (w : World) : Prop := {
  wo_queue : queue_ok (WQueue w);
  wo_attempts id r : Rows (WQueue w) !! id = Some r -> attempts_ok r;
  wo_in_flight c : c ∈ InFlight w -> in_flight_ok (WQueue w) c;
}.

(** A row that is replaced keeps what identifies it. *)
Lemma world_ok_put q fs r s :
  world_ok (mkWorld q fs) -> Rows q !! QID s = Some r -> QQueueID s = QQueueID r -> QIdempotencyKey s = QIdempotencyKey r ->
  QMaxAttempts s = QMaxAttempts r -> attempts_ok s -> world_ok (mkWorld (put_row q s) fs).
Proof.
  intros [Q A F] Hr Hq Hk Hm Hs. cbn in *. split; cbn.
  - by eapply queue_ok_put.
  - intros id s' [[<- <-]|[_ H]]%lookup_insert_Some; eauto.
  - intros c Hc. destruct (F c Hc) as (? & ? & Hc'). do 2 (split; [done|]). cbn.
    intros s' [[Heq <-]|[_ Hl]]%lookup_insert_Some; [|by apply Hc']. rewrite Hm. apply Hc'. by rewrite <- Heq.
Qed.

Lemma in_flight_drop q fs r fs' : world_ok (mkWorld q (fs ++ r :: fs')) -> world_ok (mkWorld q (fs ++ fs')) /\ in_flight_ok q r.
Proof.
  intros [Q A F]. cbn in *. split; [|apply F, elem_of_app; right; left]. split; [exact Q|exact A|]. cbn. intros c Hc.
  apply F. apply elem_of_app. apply elem_of_app in Hc as [Hc|Hc]; [by left|right; by right].
Qed.

Lemma replay_update_status record came now at_ :
  let u := replay_update payload_digest payload_error policy record came now at_ in
  completed (UStatus u) = true \/ UStatus u = Queued /\ QAttemptCount record + 1 < QMaxAttempts record.
Proof.
  unfold replay_update, next_failure. cbv zeta. destruct (_ >=? _) eqn:E; repeat case_match; bool_arith; cbn; auto; right; split; (done || lia).
Qed.

Lemma replay_attempts_ok c came now at_ r :
  let u := replay_update payload_digest payload_error policy c came now at_ in
  0 <= QAttemptCount c < QMaxAttempts c -> QMaxAttempts r = QMaxAttempts c -> attempts_ok (completed_row (QAttemptCount c) u r).
Proof.
  cbv zeta. intros Hc Hm. pose proof (replay_update_status c came now at_) as Hs. cbv zeta in Hs. destruct (replay_update _ _ _ _ _ _ _) as [st ? ? ?].
  unfold attempts_ok, pending, completed_row. cbn in *. split; [lia|]. split; [lia|]. destruct Hs as [Hs|[-> Hs]]; [|lia]. by destruct st.
Qed.

Lemma world_ok_init : world_ok (mkWorld (mkQueue ∅ 0) []).
Proof. split; cbn; [split; cbn|..]; intros *; rewrite ?lookup_empty; try done. by intros ?%not_elem_of_nil. Qed.

Lemma world_ok_claim batchSize owner now lockFor q fs :
  world_ok (mkWorld q fs) -> world_ok (mkWorld (Claim datetime batchSize owner now lockFor q).2 (fs ++ (Claim datetime batchSize owner now lockFor q).1)).
Proof.
  intros [Q A F]. cbn in Q, A, F. pose proof (claimed_rows datetime batchSize owner now lockFor q Q) as Hrows.
  pose proof (queue_ok_claim datetime batchSize owner now lockFor q Q) as Q'.
  assert (Sequence (Claim datetime batchSize owner now lockFor q).2 = Sequence q) as Hseq by (rewrite Claim_unfold; cbn; apply foldl_put_sequence).
  destruct (Claim _ _ _ _ _ q) as [claimed q']. cbn [fst snd] in *. destruct Hrows as (_ & Hc & Hrest).
  assert (forall id s, Rows q' !! id = Some s -> exists r, Rows q !! id = Some r /\ QAttemptCount s = QAttemptCount r /\ QMaxAttempts s = QMaxAttempts r
            /\ (pending s = true -> pending r = true)) as Hrow.
  { intros id s Hs. destruct (decide (id ∈ QID <$> claimed)) as [(c & -> & Hin)%list_elem_of_fmap|Hn]; [|rewrite Hrest in Hs by done; eauto].
    destruct (Hc _ Hin) as (r & Hr & Hcl & -> & Hs'). rewrite Hs' in Hs. injection Hs as <-. exists r. split_and!; [done..|].
    intros _. unfold claimable in Hcl. by destruct (pending r). }
  split; cbn [WQueue InFlight]; [exact Q'| |].
  - intros id s Hs. destruct (Hrow _ _ Hs) as (r & Hr & Hcount & Hmax & Hp). pose proof (A _ _ Hr) as (? & ? & Hlt).
    unfold attempts_ok. rewrite Hcount, Hmax. auto.
  - intros c [Hin|Hin]%elem_of_app; unfold in_flight_ok; rewrite Hseq.
    + destruct (F c Hin) as (? & ? & Hc'). do 2 (split; [done|]). intros s Hs. destruct (Hrow _ _ Hs) as (r & Hr & _ & -> & _). by apply Hc'.
    + destruct (Hc _ Hin) as (r & Hr & Hcl & Heq & Hs). pose proof (A _ _ Hr) as (? & ? & Hlt). destruct (row_at _ Q _ _ Hr).
      assert (pending r = true) as Hp by (unfold claimable in Hcl; by destruct (pending r)). specialize (Hlt Hp).
      assert (QAttemptCount c = QAttemptCount r /\ QMaxAttempts c = QMaxAttempts r) as [-> ->] by (by rewrite Heq). do 2 (split; [lia|]). intros s Hs2. rewrite Hs in Hs2. injection Hs2 as <-. by rewrite Heq.
Qed.

Lemma QueueID_put_same q r s : QID s = QID r -> put_row (put_row q r) s = put_row q s.
Proof. intros Hid. unfold put_row. cbn. by rewrite Hid, insert_insert_eq. Qed.

Lemma Cancel_ok queueID by_ reason now q q' :
  queue_ok q -> Cancel queueID by_ reason now q = Ok q' ->
  exists r, Rows q !! QID r = Some r /\ QQueueID r = TrimSpace queueID /\ pending r = true
    /\ q' = put_row q (completed_row (QAttemptCount r) (mkAttemptUpdate Canceled (TrimSpace reason) now None) (canceled_row by_ reason now r)).
Proof.
  intros Q. unfold Cancel. cbv zeta. destruct (_ =? _)%string; [done|]. destruct (GetByQueueID _ q) as [r|] eqn:Hr; [|done].
  apply GetByQueueID_Some in Hr as (Hid & id & Hr). rewrite TrimSpace_idem in Hid. destruct (row_at _ Q _ _ Hr) as [<- _].
  destruct (pending r) eqn:Hp; [|done]. intros Heq. injection Heq as <-. exists r. split_and!; [done..|].
  unfold CompleteAttempt. cbn [put_row Rows QID canceled_row]. rewrite lookup_insert_eq. by apply QueueID_put_same.
Qed.

Lemma Requeue_ok queueID next expires idempotencyExpires owner now q q' :
  queue_ok q -> Requeue queueID next expires idempotencyExpires owner now q = Ok q' ->
  exists r n e i, Rows q !! QID r = Some r /\ pending r = false /\ q' = put_row q (requeued_row n e i owner r).
Proof.
  intros Q. unfold Requeue. cbv zeta. destruct (_ =? _)%string; [done|]. destruct (GetByQueueID _ q) as [r|] eqn:Hr; [|done].
  apply GetByQueueID_Some in Hr as (Hid & id & Hr). destruct (row_at _ Q _ _ Hr) as [<- _].
  case_bool_decide as Hst; [|done]. intros Heq. injection Heq as <-. eexists r, _, _, _. split_and!; [done| |done].
  unfold pending. apply bool_decide_eq_false. intros Hp. rewrite !elem_of_cons, !elem_of_nil in *. destruct (QStatus r); intuition discriminate.
Qed.

(** Rows that are only removed, or changed without becoming pending. *)
Lemma world_ok_restrict q q' fs :
  world_ok (mkWorld q fs) -> Sequence q' = Sequence q ->
  (forall id s, Rows q' !! id = Some s -> exists r, Rows q !! id = Some r /\ QID s = QID r /\ QQueueID s = QQueueID r
     /\ QIdempotencyKey s = QIdempotencyKey r /\ QMaxAttempts s = QMaxAttempts r /\ QAttemptCount s = QAttemptCount r
     /\ (pending s = true -> pending r = true)) ->
  world_ok (mkWorld q' fs).
Proof.
  intros [[Hat Hk Hq] A F] Hseq Hrow. cbn in *. split; cbn; [split|..].
  - intros id s Hs. destruct (Hrow _ _ Hs) as (r & Hr & -> & _). rewrite Hseq. by apply Hat.
  - intros i j s t Hs Ht. destruct (Hrow _ _ Hs) as (r & Hr & _ & _ & -> & _), (Hrow _ _ Ht) as (r2 & Hr2 & _ & _ & -> & _). eauto.
  - intros i j s t Hs Ht. destruct (Hrow _ _ Hs) as (r & Hr & _ & -> & _), (Hrow _ _ Ht) as (r2 & Hr2 & _ & -> & _). eauto.
  - intros id s Hs. destruct (Hrow _ _ Hs) as (r & Hr & _ & _ & _ & Hm & Hc & Hp). destruct (A _ _ Hr) as (? & ? & ?). unfold attempts_ok.
    rewrite Hm, Hc. auto.
  - intros c Hc. destruct (F c Hc) as (? & ? & Hc'). unfold in_flight_ok. rewrite Hseq. do 2 (split; [done|]).
    intros s Hs. destruct (Hrow _ _ Hs) as (r & Hr & _ & _ & _ & -> & _). by apply Hc'.
Qed.

Lemma world_ok_step w w' : step w w' -> world_ok w -> world_ok w'.
Proof.
  intros Hstep W. pose proof (wo_queue _ W) as Q. cbn in Q. destruct Hstep as
    [create max now q fs r new q' He|batchSize owner now lockFor q fs|q fs r fs' came now at_|q fs r fs'|now q fs
    |queueID by_ reason now q fs q' Hc|queueID next expires idempotencyExpires owner now q fs q' Hr|ackRetention deadRetention now q fs]; cbn in Q.
  - destruct new; [|by rewrite (enqueue_old _ _ _ _ _ _ He)].
    destruct (enqueue_row _ _ _ _ _ _ Q He) as (Q' & Hrows & Hseq & _ & _ & Ha & Hmax & _). destruct W as [_ A F]. cbn in A, F. split; cbn; [done|..].
    + intros id s. rewrite Hrows. intros [[_ <-]|[_ Hs]]%lookup_insert_Some; [|by eapply A]. unfold attempts_ok. lia.
    + intros c Hc. destruct (F c Hc) as (? & ? & Hc'). unfold in_flight_ok. rewrite Hseq. split; [done|]. split; [lia|].
      intros s. rewrite Hrows. intros [[? _]|[_ Hs]]%lookup_insert_Some; [lia|by apply Hc'].
  - by apply world_ok_claim.
  - apply in_flight_drop in W as [W Hr]. unfold CompleteAttempt. destruct (Rows q !! QID r) as [row|] eqn:Hrow; [|done].
    destruct Hr as (Hr & _ & Hm). specialize (Hm _ Hrow). destruct (row_at _ Q _ _ Hrow) as [Hid _].
    eapply world_ok_put; [done|by cbn; rewrite Hid|done..|]. by apply replay_attempts_ok.
  - by apply in_flight_drop in W as [W _].
  - eapply world_ok_restrict; [done|done|]. intros id s Hs. cbn in Hs. rewrite lookup_fmap in Hs. destruct (Rows q !! id) as [r|]; [|done].
    exists r. split; [done|]. injection Hs as <-. destruct (pending r && _); split_and!; done.
  - apply Cancel_ok in Hc as (r & Hr & Hid & Hp & ->); [|done]. eapply world_ok_put; [done..|].
    destruct (wo_attempts _ W _ _ Hr) as (? & ? & Hlt). specialize (Hlt Hp). unfold attempts_ok. cbn. split_and!; [lia..|done].
  - apply Requeue_ok in Hr as (r & n & e & i & Hr & Hp & ->); [|done]. eapply world_ok_put; [done..|].
    destruct (wo_attempts _ W _ _ Hr) as (? & ? & Hlt). unfold attempts_ok. cbn. split_and!; lia.
  - eapply world_ok_restrict; [done|done|]. intros id s Hs. cbn in Hs. apply map_lookup_filter_Some in Hs as [Hs _]. by exists s.
Qed.

Lemma world_ok_reachable w : reachable w -> world_ok w.
Proof.
  unfold reachable. intros Hr. remember (mkWorld (mkQueue ∅ 0) []) as w0. revert Heqw0.
  assert (world_ok w0 -> world_ok w) as Hw; [|intros ->; apply Hw, world_ok_init].
  clear -Hr. induction Hr as [|? ? ? Hs _ IH]; [done|]. intros. apply IH. by eapply world_ok_step.
Qed.

(** However the nodes, the operator and the maintenance interleave, with attempts lost or completed long after
    their locks ended: no record counts more attempts than it allows, one that is still pending has attempts left,
    and no two records share an idempotency key or a queue id. *)
Theorem attempts_bounded (w : World) :
  reachable w ->
  (forall id r, Rows (WQueue w) !! id = Some r ->
     0 <= QAttemptCount r <= QMaxAttempts r /\ (pending r = true -> QAttemptCount r < QMaxAttempts r))
  /\ (forall i j r s, Rows (WQueue w) !! i = Some r -> Rows (WQueue w) !! j = Some s ->
       QIdempotencyKey r = QIdempotencyKey s \/ QQueueID r = QQueueID s -> i = j /\ r = s).
Proof.
  intros [[Hat Hk Hq] A F]%world_ok_reachable. split.
  - intros id r Hr. destruct (A _ _ Hr) as (? & _ & ?). done.
  - intros i j r s Hr Hs Heq. assert (i = j) as <- by (destruct Heq; eauto). split; congruence.
Qed.

(** A canceled record does not stay canceled: when the node that had claimed it completes its failed attempt,
    which checks neither the state of the row nor the claim, the record is queued for another attempt, while the
    row keeps the cancellation's time and reason. *)
Theorem cancel_undone (q : Queue) (r : QueueRecord) (by_ reason message : string) (now at_ canceled : Z) :
  queue_ok q -> Rows q !! QID r = Some r -> pending r = true -> TrimSpace (QQueueID r) = QQueueID r -> QQueueID r <> "" ->
  QAttemptCount r + 1 < QMaxAttempts r ->
  exists q', Cancel (QQueueID r) by_ reason canceled q = Ok q'
    /\ (exists r', Rows q' !! QID r = Some r' /\ QStatus r' = Canceled)
    /\ (exists r'', Rows (CompleteAttempt r (next_failure policy r message now at_) q') !! QID r = Some r''
         /\ QStatus r'' = Queued /\ QNextAttemptAt r'' = Some (now + Backoff policy (QAttemptCount r + 1)) /\ QLockedUntil r'' = None
         /\ QCanceledAt r'' = Some canceled /\ QExpiresAt r'' = QExpiresAt r).
Proof.
  intros Q Hr Hp Htrim Hne Hmax. unfold Cancel. cbv zeta. rewrite Htrim. apply String.eqb_neq in Hne as Hneb. rewrite Hneb.
  rewrite (GetByQueueID_unique _ q (QID r) r); [|by rewrite Htrim|done..]. rewrite Hp.
  eexists. split; [done|]. unfold CompleteAttempt at 1 3. cbn [put_row Rows canceled_row QID]. rewrite lookup_insert_eq.
  split.
  - eexists. split; [apply lookup_insert_eq|done].
  - unfold CompleteAttempt. cbn [put_row Rows completed_row QID]. rewrite lookup_insert_eq. eexists. split; [apply lookup_insert_eq|].
    unfold next_failure. cbv zeta. assert ((QAttemptCount r + 1 >=? QMaxAttempts r) = false) as -> by (rewrite Z.geb_leb; apply Z.leb_gt; lia).
    done.
Qed.

(** A pass of a node's replayer (expire, claim a batch, attempt each record in order, prune) is a run of these
    steps that leaves no attempt under way, so that what holds of all runs holds of the replayer among others. *)
Theorem replay_refines (owner : string) (batchSize now done_at : Z) (came : QueueRecord -> outcome) (at_ : QueueRecord -> Z) (q : Queue) (fs : list QueueRecord) :
  rtc step (mkWorld q fs) (mkWorld (Replay datetime payload_digest payload_error policy owner batchSize now done_at came at_ q) fs).
Proof.
  unfold Replay. cbv zeta. set (size := if batchSize <=? 0 then _ else _). apply (rtc_l _ _ (mkWorld (ExpireDue datetime now q) fs)); [constructor|].
  eapply rtc_l; [apply (StepClaim size owner now (duration (LockSeconds policy)))|]. destruct (Claim _ _ _ _ _ _) as [claimed q']. cbn [fst snd].
  revert q'. induction claimed as [|r claimed IH]; intros q'; cbn [foldl].
  - rewrite app_nil_r. apply rtc_once. constructor.
  - eapply rtc_l; [apply (StepComplete q' fs r claimed (came r) now (at_ r))|]. apply IH.
Qed.
End Steps.

(** ** A concrete queue *)

Definition sample_policy : QueuePolicy := mkQueuePolicy 10000 5 300 50 60 86400 2592000.
Definition sample_create : QueueCreate :=
  mkQueueCreate "dacq-1" "sha256:key" "disconnect" "192.0.2.1" 3799 "{}" "digest" 40 "print" 6 None None None "node-a".
Definition sample_row : QueueRecord :=
  mkQueueRecord 1 "dacq-1" "sha256:key" Queued "{}" "digest" 0 6 "" (Some (100 * second)) (3700 * second) (3700 * second) "node-a"
    None None None None "" "" (100 * second).
Definition sample_queue : Queue := put_row (mkQueue ∅ 1) sample_row.
Definition whole_seconds (t : Z) : Z := t / second.

Lemma sample_enqueue : Enqueue sample_create 10000 (100 * second) (mkQueue ∅ 0) = Ok (sample_row, true, sample_queue).
Proof. reflexivity. Qed.

Lemma sample_queue_ok : queue_ok sample_queue.
Proof. apply (enqueue_row _ _ _ _ _ _ (wo_queue _ world_ok_init) sample_enqueue). Qed.

Lemma sample_claimed : QID <$> (Claim whole_seconds 10 "node-a" (101 * second) 0 sample_queue).1 = [1].
Proof. vm_compute. reflexivity. Qed.

Lemma retry_schedule_witness :
  UNextAttemptAt (next_failure sample_policy (claimed_row "node-a" (160 * second) (100 * second) sample_row) "timeout" (100 * second) (101 * second))
  = Some (100 * second + second * Z.min (5 * 2 ^ 0) 300).
Proof.
  apply (retry_schedule sample_policy (claimed_row "node-a" (160 * second) (100 * second) sample_row) "timeout" (100 * second) (101 * second)); cbn; lia.
Defined.

Lemma claim_spec_witness :
  1 ∉ QID <$> (Claim whole_seconds 10 "node-b" (160 * second) 0 (Claim whole_seconds 10 "node-a" (101 * second) 0 sample_queue).2).1.
Proof.
  intros (c2 & Hid2 & Hc2)%list_elem_of_fmap. pose proof (claim_spec whole_seconds 10 "node-a" (101 * second) 0 sample_queue sample_queue_ok) as H.
  pose proof sample_claimed as Hc. revert H Hc Hc2. destruct (Claim whole_seconds 10 "node-a" (101 * second) 0 sample_queue) as [claimed q'].
  cbn [fst snd]. intros H Hc Hc2. assert (1 ∈ QID <$> claimed) as (c & Hid & Hin)%list_elem_of_fmap by (rewrite Hc; left).
  destruct H as (_ & _ & _ & _ & _ & _ & H).
  apply (H 10 "node-b" (160 * second) 0 ltac:(vm_compute; reflexivity) c c2 Hin Hc2). by rewrite <- Hid, <- Hid2.
Defined.

Lemma enqueue_spec_witness :
  queue_ok sample_queue /\ Enqueue sample_create 1 (9999 * second) sample_queue = Ok (sample_row, false, sample_queue).
Proof.
  pose proof (enqueue_spec sample_create 10000 (100 * second) (mkQueue ∅ 0) (wo_queue _ world_ok_init)) as H. rewrite sample_enqueue in H.
  destruct H as (H1 & _ & _ & _ & _ & _ & _ & _ & _ & H2). split; [exact H1|apply H2].
Defined.

Lemma attempts_bounded_witness : 0 <= QAttemptCount sample_row <= QMaxAttempts sample_row.
Proof.
  apply (attempts_bounded whole_seconds (fun _ => "digest") (fun _ => None) sample_policy (mkWorld sample_queue []))
    with (id := 1); [|reflexivity].
  apply (rtc_l _ _ (mkWorld sample_queue [])); [|apply rtc_refl]. apply (StepEnqueue _ _ _ _ _ _ _ _ _ _ _ _ sample_enqueue).
Defined.

Lemma cancel_undone_witness :
  exists q', Cancel "dacq-1" "operator" "mistake" (102 * second) sample_queue = Ok q'
    /\ option_map QStatus (Rows q' !! 1) = Some Canceled
    /\ option_map QStatus (Rows (CompleteAttempt sample_row (next_failure sample_policy sample_row "timeout" (101 * second) (103 * second)) q') !! 1)
       = Some Queued.
Proof.
  destruct (cancel_undone sample_policy sample_queue sample_row "operator" "mistake" "timeout" (101 * second) (103 * second) (102 * second))
    as (q' & H & (r' & H1 & H2) & (r'' & H3 & H4 & _)); [exact sample_queue_ok|reflexivity|reflexivity|reflexivity|discriminate|reflexivity|].
  exists q'. split; [exact H|]. change (QID sample_row) with 1 in H1, H3. rewrite H1, H3. cbn. by rewrite H2, H4.
Defined.
