(* ===== verification/PacketHardening.v ===== *)
(** * Admission of RADIUS packets ([internal/radius/packet_hardening.go])

    Before a RADIUS packet is handled, a [PacketHardener] decides whether to take it: the source must be known and within
    its rate, the packet well formed and within the limits, its code allowed, its Message-Authenticator present where it is
    required and correct where it is checked, and it must not be the repetition of a packet of the last seconds.
    [ValidateRawPacket] works on the bytes, [ValidatePacket] on a packet that the RADIUS library has parsed. The hardener
    keeps a cache of the packets seen and a bucket of tokens for each source. [RecordPacketHardeningDecision] keeps the
    decisions in a table of bounded size ([internal/db/radius_packet_hardening.go]).

    Instants are nanoseconds. The tokens of a bucket are [float64]: rationals, with [round64] after each operation. Texts
    for people and the warnings are left out. *)

From S2P Require Import Prelude GoStrings Bytes Md5.
From Stdlib Require Import Ascii QArith Lqa.
#[local] Open Scope Z_scope.

(** ** What the standard library and the RADIUS library do here *)

(** Rounding of a result to [float64] *)
Class Rounding := round64 : Q -> Q.

(** [net.ParseIP], [IP.Equal], [net.ParseCIDR] with [IPNet.Contains], and the host of [net.SplitHostPort] *)
Class SourceAddress := {
  IP : Type;
  ParseIP : string -> option IP;
  SameIP : IP -> IP -> bool;
  ParseCIDR : string -> option (IP -> bool);
  SplitHostPort : string -> option string;
}.

(** [layeh.com/radius.Packet]; an attribute may be a nil pointer. *)
Record Packet := mkPacket {
  PkCode : Z; PkIdentifier : Z; PkAuthenticator : list Z; PkSecret : list Z; PkAttributes : list (option (Z * list Z)) }.
(** [layeh.com/radius.Parse] of some bytes with a secret *)
Class RadiusParse := radius_parse : list Z -> list Z -> result string Packet.

(** [hmac.New(md5.New, key)], written with a message and summed *)
Definition hmac_key (key : list Z) : list Z :=
  let key := if zlen key >? 64 then md5 key else key in key ++ repeat 0 (64 - length key).
Definition hmac_md5 (key message : list Z) : list Z :=
  md5 ((Z.lxor 92 <$> hmac_key key) ++ md5 ((Z.lxor 54 <$> hmac_key key) ++ message)).

(** ** Configuration *)

Definition second : Z := 1000000000.
Definition radiusHeaderBytes : Z := 20.
Definition radiusMaxPacketBytes : Z := 4096.
Definition radiusTypeProxyState : Z := 33.
Definition radiusTypeEAPMessage : Z := 79.
Definition radiusTypeMessageAuthenticator : Z := 80.
Definition radiusMessageAuthenticatorBytes : Z := 16.

(** [layeh.com/radius.Code] *)
Definition CodeAccessRequest : Z := 1.
Definition CodeAccountingRequest : Z := 4.
Definition CodeStatusServer : Z := 12.
Definition CodeStatusClient : Z := 13.
Definition CodeDisconnectRequest : Z := 40.
Definition CodeCoARequest : Z := 43.

(** [config.RadiusPacketHardeningConfig] *)
Record HardeningConfig := mkHardeningConfig {
  CfEnabled : bool; CfFailClosed : bool; CfRequireKnownSource : bool; CfAllowTrailingPadding : bool; CfAllowStatusServer : bool;
  CfAllowStatusClient : bool; CfRequireMessageAuthenticator : string; CfMaxPacketBytes : Z; CfMaxAttributesPerPacket : Z;
  CfMaxProxyStateAttributes : Z; CfMaxProxyStateBytes : Z; CfReplayCacheEnabled : bool; CfReplayWindowSeconds : Z;
  CfReplayCacheMaxEntries : Z; CfRateLimitEnabled : bool; CfPerClientRateLimitPerSecond : Z; CfPerClientBurst : Z;
  CfTrustedProxyCIDRs : list string; CfEventRetentionLimit : Z }.
Definition empty_config : HardeningConfig := mkHardeningConfig false false false false false false "" 0 0 0 0 false 0 0 false 0 0 [] 0.

(** The parts of [config.Config] that count here, and the clients of the database if it could be read *)
Record RadiusConfig := mkRadiusConfig {
  RcHardening : HardeningConfig; RcClients : list string; RcUpstreamEnabled : bool; RcUpstream : list (string * string); RcSecret : string;
  DbClients : option (list string) }.

Record PacketHardeningPolicy := mkPolicy {
  PoEnabled : bool; PoFailClosed : bool; PoRequireKnownSource : bool; PoAllowTrailingPadding : bool; PoAllowStatusServer : bool;
  PoAllowStatusClient : bool; PoRequireMessageAuthenticator : string; PoTrustedProxyCIDRs : list string }.

Record PacketHardeningLimits := mkLimits {
  MaxPacketBytes : Z; MaxAttributesPerPacket : Z; MaxProxyStateAttributes : Z; MaxProxyStateBytes : Z; ReplayCacheEnabled : bool;
  ReplayWindowSeconds : Z; ReplayCacheMaxEntries : Z; RateLimitEnabled : bool; PerClientRateLimitPerSecond : Z; PerClientBurst : Z;
  EventRetentionLimit : Z }.

(** ** Data *)

Record packetTokenBucket := mkBucket { Tokens : Q; SeenAt : Z }.

Record PacketHardener `{SourceAddress} := mkHardener {
  HrPolicy : PacketHardeningPolicy; HrLimits : PacketHardeningLimits; HrTrusted : list (IP -> bool);
  Replays : gmap string Z; Buckets : gmap string packetTokenBucket }.
Arguments mkHardener {_}.

(** [ctx.Now] is [None] for the zero time. *)
Record PacketValidationContext := mkContext { RemoteAddr : option string; CtDirection : string; Now : option Z; SharedSecret : list Z }.

Record PacketValidationResult := mkResult {
  Accepted : bool; Decision : string; Reason : string; SourceIP : string; Direction : string; PacketCode : string; ResCode : Z; ResIdentifier : Z;
  PacketLength : Z; AttributeCount : Z; ProxyStateCount : Z; ProxyStateBytes : Z; MessageAuthenticatorPresent : bool; ReplayDetected : bool;
  RateLimited : bool; ResPacket : option Packet }.

Record parsedRadiusPacket := mkParsed {
  PaCode : Z; PaIdentifier : Z; PaAuthenticator : list Z; PaDeclaredLength : Z; PaAttributes : list (Z * list Z);
  PaMessageAuthenticatorPresent : bool; PaMessageAuthenticatorOffset : Z; PaEapMessagePresent : bool; PaProxyStateCount : Z; PaProxyStateBytes : Z }.

(** What a check tells the registry of network access servers *)
Inductive nas_event := NasDiscovery (source : option string) (direction reason : string) | NasHeartbeat (source : option string) (direction : string).

Section hardening.
Context {U : Unicode} {SA : SourceAddress} {RO : Rounding} {RP : RadiusParse} {MR : MapRange}.

(** ** The effective configuration *)

Definition packetHardeningConfigUnset (raw : HardeningConfig) : bool :=
  negb (CfEnabled raw) && negb (CfFailClosed raw) && negb (CfRequireKnownSource raw) && negb (CfAllowTrailingPadding raw)
  && negb (CfAllowStatusServer raw) && negb (CfAllowStatusClient raw) && (TrimSpace (CfRequireMessageAuthenticator raw) =? "")%string
  && (CfMaxPacketBytes raw =? 0) && (CfMaxAttributesPerPacket raw =? 0) && (CfMaxProxyStateAttributes raw =? 0)
  && (CfMaxProxyStateBytes raw =? 0) && negb (CfReplayCacheEnabled raw) && (CfReplayWindowSeconds raw =? 0)
  && (CfReplayCacheMaxEntries raw =? 0) && negb (CfRateLimitEnabled raw) && (CfPerClientRateLimitPerSecond raw =? 0)
  && (CfPerClientBurst raw =? 0) && match CfTrustedProxyCIDRs raw with [] => true | _ => false end && (CfEventRetentionLimit raw =? 0).

Definition defaultInt (value fallback : Z) : Z := if value <=? 0 then fallback else value.

Definition effectivePacketHardening (cfg : option RadiusConfig) : PacketHardeningPolicy * PacketHardeningLimits :=
  let raw := match cfg with Some c => RcHardening c | None => empty_config end in
  let unset := match cfg with Some c => packetHardeningConfigUnset (RcHardening c) | None => true end in
  let mode := lower_trim (CfRequireMessageAuthenticator raw) in
  let maxBytes := defaultInt (CfMaxPacketBytes raw) radiusMaxPacketBytes in
  (mkPolicy (if unset then true else CfEnabled raw) (CfFailClosed raw || unset) (CfRequireKnownSource raw || unset) (CfAllowTrailingPadding raw)
     (CfAllowStatusServer raw || unset) (CfAllowStatusClient raw) (if (mode =? "")%string then "auto" else mode) (CfTrustedProxyCIDRs raw),
   mkLimits (if maxBytes >? radiusMaxPacketBytes then radiusMaxPacketBytes else maxBytes) (defaultInt (CfMaxAttributesPerPacket raw) 128)
     (if unset then 8 else CfMaxProxyStateAttributes raw) (defaultInt (CfMaxProxyStateBytes raw) 1024) (CfReplayCacheEnabled raw || unset)
     (defaultInt (CfReplayWindowSeconds raw) 30) (defaultInt (CfReplayCacheMaxEntries raw) 16384) (CfRateLimitEnabled raw || unset)
     (defaultInt (CfPerClientRateLimitPerSecond raw) 250) (defaultInt (CfPerClientBurst raw) 500) (defaultInt (CfEventRetentionLimit raw) 6000)).

(** [validateRadiusPacketHardening] of the configuration, whether it passes *)
Definition between (low high value : Z) : bool := (low <=? value) && (value <=? high).
Definition validateRadiusPacketHardening (c : HardeningConfig) : bool :=
  bool_decide (lower_trim (CfRequireMessageAuthenticator c) ∈ [""; "auto"; "always"; "never"])
  && between 0 4096 (CfMaxPacketBytes c) && negb (between 1 19 (CfMaxPacketBytes c)) && between 0 256 (CfMaxAttributesPerPacket c)
  && between 0 32 (CfMaxProxyStateAttributes c) && between 0 4096 (CfMaxProxyStateBytes c) && between 0 3600 (CfReplayWindowSeconds c)
  && between 0 1000000 (CfReplayCacheMaxEntries c) && between 0 100000 (CfPerClientRateLimitPerSecond c) && between 0 1000000 (CfPerClientBurst c)
  && between 0 1000000 (CfEventRetentionLimit c)
  && forallb (fun cidr => let trimmed := TrimSpace cidr in
                negb (trimmed =? "")%string && (bool_decide (is_Some (ParseIP trimmed)) || bool_decide (is_Some (ParseCIDR trimmed)))) (CfTrustedProxyCIDRs c).

Definition configuredRadiusClients (cfg : option RadiusConfig) : list string :=
  match cfg with
  | None => []
  | Some c => match DbClients c with Some clients => clients | None => RcClients c end
  end.
Definition configuredRadiusUpstreams (cfg : option RadiusConfig) : list (string * string) :=
  match cfg with Some c => if RcUpstreamEnabled c then RcUpstream c else [] | None => [] end.

Definition parseTrustedSource (value : string) : option (IP -> bool) :=
  let value := TrimSpace value in
  if (value =? "")%string then None
  else match ParseIP value with Some ip => Some (SameIP ip) | None => ParseCIDR value end.
Definition trustedSourceNetworks (cfg : option RadiusConfig) (policy : PacketHardeningPolicy) : list (IP -> bool) :=
  omap parseTrustedSource (["127.0.0.1"; "::1"] ++ configuredRadiusClients cfg ++ (configuredRadiusUpstreams cfg).*1 ++ PoTrustedProxyCIDRs policy).

Definition NewPacketHardener (cfg : option RadiusConfig) : PacketHardener :=
  let '(policy, limits) := effectivePacketHardening cfg in mkHardener policy limits (trustedSourceNetworks cfg policy) ∅ ∅.

(** ** The source *)

Definition remoteHost (addr : option string) : string :=
  match addr with
  | None => ""
  | Some text => match SplitHostPort text with Some host => TrimSpace host | None => TrimSpace text end
  end.
Definition remoteIP (addr : option string) : option IP := let host := remoteHost addr in if (host =? "")%string then None else ParseIP host.

Definition sourceAllowed (h : PacketHardener) (addr : option string) : bool :=
  if negb (PoRequireKnownSource (HrPolicy h)) then true
  else match remoteIP addr with None => false | Some ip => existsb (fun network => network ip) (HrTrusted h) end.

Definition SourceAllowedByPacketHardening (cfg : option RadiusConfig) (addr : option string) : bool :=
  let policy := (effectivePacketHardening cfg).1 in
  if negb (PoEnabled policy) || negb (PoRequireKnownSource policy) then true else sourceAllowed (NewPacketHardener cfg) addr.

(** ** The rate *)

(** [float64(v)], [Duration.Seconds] *)
Definition float (z : Z) : Q := round64 (inject_Z z).
Definition Seconds (d : Z) : Q := round64 (float (Z.quot d second) + round64 (float (Z.rem d second) / inject_Z second)).
Definition Qltb (x y : Q) : bool := negb (Qle_bool y x).

(** The refill of a bucket, and taking a token out of it *)
Definition refilled (rate burst now : Z) (b : packetTokenBucket) : Q :=
  let elapsed := Seconds (now - SeenAt b) in
  let elapsed := if Qltb elapsed 0 then 0%Q else elapsed in
  let tokens := round64 (Tokens b + round64 (elapsed * float rate)) in
  if Qltb (float burst) tokens then float burst else tokens.
Definition take_token (rate burst now : Z) (bucket : option packetTokenBucket) : bool * packetTokenBucket :=
  match bucket with
  | None => (true, mkBucket (round64 (float burst - 1)) now)
  | Some b =>
      let tokens := refilled rate burst now b in
      if Qltb tokens 1 then (false, mkBucket tokens now) else (true, mkBucket (round64 (tokens - 1)) now)
  end.

Definition with_buckets (h : PacketHardener) (buckets : gmap string packetTokenBucket) : PacketHardener :=
  mkHardener (HrPolicy h) (HrLimits h) (HrTrusted h) (Replays h) buckets.
Definition with_replays (h : PacketHardener) (replays : gmap string Z) : PacketHardener :=
  mkHardener (HrPolicy h) (HrLimits h) (HrTrusted h) replays (Buckets h).

(** [clock] is the instant of [time.Now] where the context has none. *)
Definition now_of (clock : Z) (ctx : PacketValidationContext) : Z := default clock (Now ctx).

Definition allowRate (h : PacketHardener) (clock : Z) (ctx : PacketValidationContext) : bool * PacketHardener :=
  let source := remoteHost (RemoteAddr ctx) in
  let source := if (source =? "")%string then "unknown" else source in
  let rate := PerClientRateLimitPerSecond (HrLimits h) in
  let burst := PerClientBurst (HrLimits h) in
  if (rate <=? 0) || (burst <=? 0) then (true, h)
  else let '(allowed, bucket) := take_token rate burst (now_of clock ctx) (Buckets h !! source) in
       (allowed, with_buckets h (<[source := bucket]> (Buckets h))).

(** ** Repetitions *)

Definition replay_key (ctx : PacketValidationContext) (parsed : parsedRadiusPacket) : string :=
  remoteHost (RemoteAddr ctx) +:+ "|" +:+ Itoa (PaCode parsed) +:+ "|" +:+ Itoa (PaIdentifier parsed) +:+ "|" +:+ hex_encode (PaAuthenticator parsed).

(** The loop that drops what has expired, and anything while there are too many *)
Definition evict (now maxEntries : Z) (replays : gmap string Z) (entry : string * Z) : gmap string Z :=
  if negb (now <? entry.2) || (Z.of_nat (size replays) >? maxEntries) then delete entry.1 replays else replays.

Definition note_replay (limits : PacketHardeningLimits) (now : Z) (key : string) (replays : gmap string Z) : bool * gmap string Z :=
  let replays := foldl (evict now (ReplayCacheMaxEntries limits)) replays (range_map replays) in
  if match replays !! key with Some expiresAt => now <? expiresAt | None => false end then (true, replays)
  else (false, <[key := now + ReplayWindowSeconds limits * second]> replays).
Definition replaySeen (h : PacketHardener) (clock : Z) (ctx : PacketValidationContext) (parsed : parsedRadiusPacket) : bool * PacketHardener :=
  let '(seen, replays) := note_replay (HrLimits h) (now_of clock ctx) (replay_key ctx parsed) (Replays h) in (seen, with_replays h replays).

(** ** Results *)

Definition normalizePacketValidationContext (clock : Z) (ctx : PacketValidationContext) : PacketValidationContext :=
  let direction := TrimSpace (CtDirection ctx) in
  mkContext (RemoteAddr ctx) (if (direction =? "")%string then "radius" else direction) (Some (now_of clock ctx)) (SharedSecret ctx).

Definition baseValidationResult (ctx : PacketValidationContext) : PacketValidationResult :=
  mkResult false "rejected" "not_evaluated" (remoteHost (RemoteAddr ctx)) (CtDirection ctx) "" 0 0 0 0 0 0 false false false None.

Definition decided (r : PacketValidationResult) (accepted : bool) (decision reason : string) : PacketValidationResult :=
  mkResult accepted decision reason (SourceIP r) (Direction r) (PacketCode r) (ResCode r) (ResIdentifier r) (PacketLength r) (AttributeCount r)
    (ProxyStateCount r) (ProxyStateBytes r) (MessageAuthenticatorPresent r) (ReplayDetected r) (RateLimited r) (ResPacket r).
Definition acceptResult (r : PacketValidationResult) (reason : string) : PacketValidationResult := decided r true "accepted" reason.
Definition rejectResult (r : PacketValidationResult) (reason : string) : PacketValidationResult := decided r false "rejected" reason.

Definition with_length (r : PacketValidationResult) (n : Z) : PacketValidationResult :=
  mkResult (Accepted r) (Decision r) (Reason r) (SourceIP r) (Direction r) (PacketCode r) (ResCode r) (ResIdentifier r) n (AttributeCount r)
    (ProxyStateCount r) (ProxyStateBytes r) (MessageAuthenticatorPresent r) (ReplayDetected r) (RateLimited r) (ResPacket r).
Definition with_header (r : PacketValidationResult) (packet : option Packet) (name : string) (code identifier attributes : Z) : PacketValidationResult :=
  mkResult (Accepted r) (Decision r) (Reason r) (SourceIP r) (Direction r) name code identifier (PacketLength r) attributes
    (ProxyStateCount r) (ProxyStateBytes r) (MessageAuthenticatorPresent r) (ReplayDetected r) (RateLimited r) packet.
Definition with_counts (r : PacketValidationResult) (p : parsedRadiusPacket) : PacketValidationResult :=
  mkResult (Accepted r) (Decision r) (Reason r) (SourceIP r) (Direction r) (PacketCode r) (ResCode r) (ResIdentifier r) (PacketLength r) (AttributeCount r)
    (PaProxyStateCount p) (PaProxyStateBytes p) (PaMessageAuthenticatorPresent p) (ReplayDetected r) (RateLimited r) (ResPacket r).
Definition with_flags (r : PacketValidationResult) (replay limited : bool) : PacketValidationResult :=
  mkResult (Accepted r) (Decision r) (Reason r) (SourceIP r) (Direction r) (PacketCode r) (ResCode r) (ResIdentifier r) (PacketLength r) (AttributeCount r)
    (ProxyStateCount r) (ProxyStateBytes r) (MessageAuthenticatorPresent r) replay limited (ResPacket r).
Definition with_packet (r : PacketValidationResult) (packet : Packet) : PacketValidationResult :=
  with_header r (Some packet) (PacketCode r) (ResCode r) (ResIdentifier r) (AttributeCount r).

Definition packetCodeName (code : Z) : string :=
  if code =? CodeAccessRequest then "Access-Request" else if code =? CodeAccountingRequest then "Accounting-Request"
  else if code =? CodeStatusServer then "Status-Server" else if code =? CodeStatusClient then "Status-Client"
  else if code =? CodeDisconnectRequest then "Disconnect-Request" else if code =? CodeCoARequest then "CoA-Request" else "Code-" +:+ Itoa code.

(** ** The checks *)

Definition packetCodeAllowed (code : Z) (policy : PacketHardeningPolicy) : bool :=
  if bool_decide (code ∈ [CodeAccessRequest; CodeAccountingRequest; CodeDisconnectRequest; CodeCoARequest]) then true
  else if code =? CodeStatusServer then PoAllowStatusServer policy
  else if code =? CodeStatusClient then PoAllowStatusClient policy
  else false.

Definition messageAuthenticatorRequired (policy : PacketHardeningPolicy) (code : Z) (hasEAP : bool) : bool :=
  if (PoRequireMessageAuthenticator policy =? "always")%string then true
  else if (PoRequireMessageAuthenticator policy =? "never")%string then false
  else if code =? CodeAccessRequest then hasEAP
  else bool_decide (code ∈ [CodeStatusServer; CodeCoARequest; CodeDisconnectRequest]).

Definition verifyMessageAuthenticator (wire : list Z) (valueOffset : Z) (secret : list Z) : bool :=
  if (valueOffset <=? 0) || (valueOffset + radiusMessageAuthenticatorBytes >? zlen wire) || match secret with [] => true | _ => false end then false
  else
    let offset := Z.to_nat valueOffset in
    let expectedWire := take offset wire ++ repeat 0 16 ++ drop (offset + 16) wire in
    let received := take 16 (drop offset wire) in
    bool_decide (received = hmac_md5 secret expectedWire).

Definition checkSourceAndRate (h : PacketHardener) (clock : Z) (ctx : PacketValidationContext) (r : PacketValidationResult)
    : option PacketValidationResult * list nas_event * PacketHardener :=
  if PoRequireKnownSource (HrPolicy h) && negb (sourceAllowed h (RemoteAddr ctx))
  then (Some (rejectResult r "unknown_source"), [NasDiscovery (RemoteAddr ctx) (CtDirection ctx) "unknown_source"], h)
  else
    let events := if PoRequireKnownSource (HrPolicy h) then [NasHeartbeat (RemoteAddr ctx) (CtDirection ctx)] else [] in
    if RateLimitEnabled (HrLimits h) then
      let '(allowed, h') := allowRate h clock ctx in
      if allowed then (None, events, h') else (Some (with_flags (rejectResult r "rate_limited") (ReplayDetected r) true), events, h')
    else (None, events, h).

(** One attribute of the loop of [parseRaw]; the error is the reason of the rejection. *)
Definition add_attribute (limits : PacketHardeningLimits) (offset typ : Z) (value : list Z) (p : parsedRadiusPacket) : result string parsedRadiusPacket :=
  if zlen (PaAttributes p) + 1 >? MaxAttributesPerPacket limits then Err "too_many_attributes"
  else
    let attributes := PaAttributes p ++ [(typ, value)] in
    if typ =? radiusTypeMessageAuthenticator then
      if negb (zlen value =? radiusMessageAuthenticatorBytes) then Err "malformed_message_authenticator"
      else Ok (mkParsed (PaCode p) (PaIdentifier p) (PaAuthenticator p) (PaDeclaredLength p) attributes true (offset + 2) (PaEapMessagePresent p)
                 (PaProxyStateCount p) (PaProxyStateBytes p))
    else if typ =? radiusTypeEAPMessage then
      Ok (mkParsed (PaCode p) (PaIdentifier p) (PaAuthenticator p) (PaDeclaredLength p) attributes (PaMessageAuthenticatorPresent p)
            (PaMessageAuthenticatorOffset p) true (PaProxyStateCount p) (PaProxyStateBytes p))
    else if typ =? radiusTypeProxyState then
      Ok (mkParsed (PaCode p) (PaIdentifier p) (PaAuthenticator p) (PaDeclaredLength p) attributes (PaMessageAuthenticatorPresent p)
            (PaMessageAuthenticatorOffset p) (PaEapMessagePresent p) (PaProxyStateCount p + 1) (PaProxyStateBytes p + zlen value))
    else Ok (mkParsed (PaCode p) (PaIdentifier p) (PaAuthenticator p) (PaDeclaredLength p) attributes (PaMessageAuthenticatorPresent p)
               (PaMessageAuthenticatorOffset p) (PaEapMessagePresent p) (PaProxyStateCount p) (PaProxyStateBytes p)).

(** The loop: [rest] are the bytes from [offset] to the declared length. *)
Fixpoint parse_attributes (fuel : nat) (limits : PacketHardeningLimits) (offset : Z) (rest : list Z) (p : parsedRadiusPacket) : result string parsedRadiusPacket :=
  match rest, fuel with
  | [], _ => Ok p
  | typ :: attrLen :: body, S fuel =>
      if (attrLen <? 2) || (zlen rest <? attrLen) then Err "malformed_attribute"
      else let n := Z.to_nat (attrLen - 2) in
           p ← add_attribute limits offset typ (take n body) p;
           parse_attributes fuel limits (offset + attrLen) (drop n body) p
  | _, _ => Err "malformed_attribute"
  end.

Definition parseRaw (h : PacketHardener) (raw : list Z) : result string parsedRadiusPacket :=
  match raw with
  | code :: identifier :: l0 :: l1 :: body =>
      if zlen raw <? radiusHeaderBytes then Err "short_packet"
      else if zlen raw >? MaxPacketBytes (HrLimits h) then Err "oversized_packet"
      else
        let declared := Uint16 l0 l1 in
        if (declared <? radiusHeaderBytes) || (declared >? radiusMaxPacketBytes) || (declared >? zlen raw) then Err "invalid_packet_length"
        else if negb (declared =? zlen raw) && negb (PoAllowTrailingPadding (HrPolicy h)) then Err "invalid_packet_length"
        else
          let rest := take (Z.to_nat (declared - radiusHeaderBytes)) (drop 16 body) in
          parse_attributes (length rest) (HrLimits h) radiusHeaderBytes rest
            (mkParsed code identifier (take 16 body) declared [] false 0 false 0 0)
  | _ => Err "short_packet"
  end.

(** [wire] is given where the Message-Authenticator can be verified. *)
Definition validatePacketShape (h : PacketHardener) (clock : Z) (ctx : PacketValidationContext) (parsed : parsedRadiusPacket) (r : PacketValidationResult)
    (wire : option (list Z)) : option PacketValidationResult * PacketHardener :=
  if negb (packetCodeAllowed (PaCode parsed) (HrPolicy h)) then (Some (rejectResult r "unsupported_code"), h)
  else if PaProxyStateCount parsed >? MaxProxyStateAttributes (HrLimits h) then (Some (rejectResult r "proxy_state_count_exceeded"), h)
  else if PaProxyStateBytes parsed >? MaxProxyStateBytes (HrLimits h) then (Some (rejectResult r "proxy_state_bytes_exceeded"), h)
  else if messageAuthenticatorRequired (HrPolicy h) (PaCode parsed) (PaEapMessagePresent parsed) && negb (PaMessageAuthenticatorPresent parsed)
  then (Some (rejectResult r "missing_message_authenticator"), h)
  else if match wire with
          | Some wire => PaMessageAuthenticatorPresent parsed && (zlen (SharedSecret ctx) >? 0)
                         && negb (verifyMessageAuthenticator wire (PaMessageAuthenticatorOffset parsed) (SharedSecret ctx))
          | None => false
          end
  then (Some (rejectResult r "invalid_message_authenticator"), h)
  else if ReplayCacheEnabled (HrLimits h) then
    let '(seen, h') := replaySeen h clock ctx parsed in
    if seen then (Some (with_flags (rejectResult r "replay_detected") true (RateLimited r)), h') else (None, h')
  else (None, h).

(** ** The two entries *)

Definition ValidateRawPacket (h : PacketHardener) (clock : Z) (ctx : PacketValidationContext) (raw : list Z)
    : PacketValidationResult * list nas_event * PacketHardener :=
  let ctx := normalizePacketValidationContext clock ctx in
  let r := with_length (baseValidationResult ctx) (zlen raw) in
  if negb (PoEnabled (HrPolicy h)) then (acceptResult r "disabled", [], h)
  else
    match checkSourceAndRate h clock ctx r with
    | (Some denied, events, h) => (denied, events, h)
    | (None, events, h) =>
        match parseRaw h raw with
        | Err reason => (rejectResult r reason, events, h)
        | Ok parsed =>
            let r := with_counts (with_header r None (packetCodeName (PaCode parsed)) (PaCode parsed) (PaIdentifier parsed) (zlen (PaAttributes parsed))) parsed in
            let wire := take (Z.to_nat (PaDeclaredLength parsed)) raw in
            match validatePacketShape h clock ctx parsed r (Some wire) with
            | (Some denied, h) => (denied, events, h)
            | (None, h) =>
                match radius_parse wire (SharedSecret ctx) with
                | Err _ => (rejectResult r "malformed_packet", events, h)
                | Ok packet => (acceptResult (with_packet r packet) "accepted", events, h)
                end
            end
        end
    end.

(** One attribute of the loop of [ValidatePacket] *)
Definition count_attribute (p : parsedRadiusPacket) (attribute : Z * list Z) : result string parsedRadiusPacket :=
  let '(typ, value) := attribute in
  let length := PaDeclaredLength p + (2 + zlen value) in
  let counted present eap count bytes := mkParsed (PaCode p) (PaIdentifier p) (PaAuthenticator p) length (PaAttributes p) present (PaMessageAuthenticatorOffset p) eap count bytes in
  if typ =? radiusTypeMessageAuthenticator then
    if negb (zlen value =? radiusMessageAuthenticatorBytes) then Err "malformed_message_authenticator"
    else Ok (counted true (PaEapMessagePresent p) (PaProxyStateCount p) (PaProxyStateBytes p))
  else if typ =? radiusTypeEAPMessage then Ok (counted (PaMessageAuthenticatorPresent p) true (PaProxyStateCount p) (PaProxyStateBytes p))
  else if typ =? radiusTypeProxyState then
    Ok (counted (PaMessageAuthenticatorPresent p) (PaEapMessagePresent p) (PaProxyStateCount p + 1) (PaProxyStateBytes p + zlen value))
  else Ok (counted (PaMessageAuthenticatorPresent p) (PaEapMessagePresent p) (PaProxyStateCount p) (PaProxyStateBytes p)).
Fixpoint count_attributes (l : list (option (Z * list Z))) (p : parsedRadiusPacket) : result string parsedRadiusPacket :=
  match l with
  | [] => Ok p
  | None :: _ => Err "malformed_attribute"
  | Some attribute :: l => p ← count_attribute p attribute; count_attributes l p
  end.

Definition ValidatePacket (h : PacketHardener) (clock : Z) (ctx : PacketValidationContext) (packet : option Packet)
    : PacketValidationResult * list nas_event * PacketHardener :=
  let ctx := normalizePacketValidationContext clock ctx in
  let r := baseValidationResult ctx in
  match packet with
  | None => (rejectResult r "nil_packet", [], h)
  | Some packet =>
      let r := with_header r (Some packet) (packetCodeName (PkCode packet)) (PkCode packet) (PkIdentifier packet) (zlen (PkAttributes packet)) in
      if negb (PoEnabled (HrPolicy h)) then (acceptResult r "disabled", [], h)
      else if AttributeCount r >? MaxAttributesPerPacket (HrLimits h) then (rejectResult r "too_many_attributes", [], h)
      else
        match checkSourceAndRate h clock ctx r with
        | (Some denied, events, h) => (denied, events, h)
        | (None, events, h) =>
            match count_attributes (PkAttributes packet)
                    (mkParsed (to_byte (PkCode packet)) (PkIdentifier packet) (PkAuthenticator packet) radiusHeaderBytes [] false 0 false 0 0) with
            | Err reason => (rejectResult r reason, events, h)
            | Ok parsed =>
                let r := with_length r (PaDeclaredLength parsed) in
                if PacketLength r >? MaxPacketBytes (HrLimits h) then (rejectResult r "oversized_packet", events, h)
                else
                  let r := with_counts r parsed in
                  match validatePacketShape h clock ctx parsed r None with
                  | (Some denied, h) => (denied, events, h)
                  | (None, h) => (acceptResult r "accepted", events, h)
                  end
            end
        end
  end.
End hardening.

(** ** The cache of packets seen *)

Section replays.
Context {U : Unicode} {SA : SourceAddress} {RO : Rounding} {RP : RadiusParse} {MR : MapRange}.
Implicit Types (m : gmap string Z) (l : list (string * Z)) (h : PacketHardener).

(** An entry survives the loop, whatever it drops, only if it was there and is live. *)
Lemma evict_sub now max m e : evict now max m e ⊆ m.
Proof. unfold evict. split_if; [apply delete_subseteq | done]. Qed.
Lemma evicted_sub now max l m : foldl (evict now max) m l ⊆ m.
Proof. revert m. induction l as [|e l IH]; intros m; simpl; [done|]. etrans; [apply IH | apply evict_sub]. Qed.

Lemma evict_other now max m e k : k <> e.1 -> evict now max m e !! k = m !! k.
Proof. intros Hk. unfold evict. split_if; [by rewrite lookup_delete_ne | done]. Qed.
Lemma evicted_other now max l m k : k ∉ l.*1 -> foldl (evict now max) m l !! k = m !! k.
Proof.
  revert m. induction l as [|e l IH]; intros m Hk; cbn [foldl]; rewrite ?fmap_cons in *; [done|]. apply not_elem_of_cons in Hk as [Hne Hk].
  rewrite IH by done. by apply evict_other.
Qed.

(** With room in the cache the loop drops exactly what has expired. *)
Lemma evicted_live now max l m k v :
  Z.of_nat (size m) <= max -> NoDup l.*1 -> (forall e, e ∈ l -> m !! e.1 = Some e.2) ->
  foldl (evict now max) m l !! k = Some v <-> m !! k = Some v /\ (k ∈ l.*1 -> now < v).
Proof.
  revert m. induction l as [|e l IH]; intros m Hsize Hnodup Hin; cbn [foldl]; rewrite ?fmap_cons in *.
  { split; [intros H; split; [done | by intros ?%not_elem_of_nil] | by intros [? _]]. }
  apply NoDup_cons in Hnodup as [He Hnodup].
  assert (Z.of_nat (size (evict now max m e)) <= max) as Hsize'.
  { pose proof (subseteq_size _ _ (subseteq_dom _ _ (evict_sub now max m e))) as Hle. rewrite !size_dom in Hle. lia. }
  rewrite IH; [|done..|].
  - destruct (decide (k = e.1)) as [->|Hk].
    + assert (m !! e.1 = Some e.2) as Hme by (apply Hin; left). rewrite Hme. unfold evict.
      destruct (Z.gtb_spec (Z.of_nat (size m)) max); [lia|]. rewrite orb_false_r.
      destruct (Z.ltb_spec now e.2); simpl.
      * rewrite Hme. split; [intros [[= <-] _]; done | intros [[= <-] _]; split; done].
      * rewrite lookup_delete_eq. split; [by intros [? _] | intros [[= <-] Hlive]].
        assert (now < e.2) by (apply Hlive; left). lia.
    + rewrite evict_other by done. rewrite elem_of_cons. naive_solver.
  - intros e' He'. assert (e'.1 ∈ l.*1) as Hin' by (apply list_elem_of_fmap; eauto).
    rewrite evict_other by congruence. apply Hin. by right.
Qed.

Lemma purge_live now max m k v :
  Z.of_nat (size m) <= max -> foldl (evict now max) m (range_map m) !! k = Some v <-> m !! k = Some v /\ now < v.
Proof.
  intros Hsize. rewrite evicted_live; [| done | apply NoDup_range_map | intros [? ?]; apply elem_of_range_map].
  split; intros [Hk Hv]; split; try done. apply Hv. apply list_elem_of_fmap. exists (k, v). split; [done|]. by apply elem_of_range_map.
Qed.

(** However many entries there were, the loop leaves at most the limit. *)
Lemma evicted_size now max l m :
  0 <= max -> (forall k, is_Some (m !! k) -> k ∈ l.*1) -> Z.of_nat (size (foldl (evict now max) m l)) <= max.
Proof.
  intros Hmax. revert m. induction l as [|e l IH]; intros m Hin; cbn [foldl]; rewrite ?fmap_cons in *.
  - assert (m = ∅) as ->; [|rewrite map_size_empty; lia]. apply map_empty. intros k. apply eq_None_not_Some. intros Hk.
    by apply Hin, not_elem_of_nil in Hk.
  - unfold evict at 2. destruct (negb (now <? e.2) || (Z.of_nat (size m) >? max)) eqn:E.
    + apply IH. intros k Hk. destruct (decide (k = e.1)) as [->|Hne]; [rewrite lookup_delete_eq in Hk; by destruct Hk|].
      rewrite lookup_delete_ne in Hk by done. apply Hin in Hk. apply elem_of_cons in Hk. naive_solver.
    + apply orb_false_iff in E as [_ E]. pose proof (subseteq_size _ _ (subseteq_dom _ _ (evicted_sub now max l m))) as Hle.
      rewrite !size_dom in Hle. rewrite Z.gtb_ltb, Z.ltb_ge in E. lia.
Qed.
Lemma purge_size now max m : 0 <= max -> Z.of_nat (size (foldl (evict now max) m (range_map m))) <= max.
Proof.
  intros Hmax. apply evicted_size; [done|]. intros k [v Hv]. apply list_elem_of_fmap. exists (k, v). split; [done|].
  by apply elem_of_range_map.
Qed.

(** Above the limit, with every entry live, exactly the excess is dropped. *)
Lemma evicted_excess now max l m :
  0 <= max <= Z.of_nat (size m) -> NoDup l.*1 -> (forall e, e ∈ l -> m !! e.1 = Some e.2 /\ now < e.2) -> Z.of_nat (size m) - max <= zlen l ->
  Z.of_nat (size (foldl (evict now max) m l)) = max.
Proof.
  revert m. induction l as [|e l IH]; intros m Hmax Hnodup Hin Hlen; cbn [foldl]; rewrite ?fmap_cons in *; [change (zlen (@nil (string * Z))) with 0 in Hlen; lia|].
  rewrite zlen_cons in Hlen. apply NoDup_cons in Hnodup as [He Hnodup]. destruct (Hin e) as [Hme Hlive]; [left|].
  unfold evict at 2. destruct (Z.ltb_spec now e.2); [|lia]. simpl.
  destruct (Z.gtb_spec (Z.of_nat (size m)) max).
  - assert (Z.of_nat (size (delete e.1 m)) = Z.of_nat (size m) - 1) as Hd.
    { rewrite map_size_delete, Hme. lia. }
    apply IH; [lia | done | | lia].
    intros e' He'. assert (e'.1 ∈ l.*1) as Hin' by (apply list_elem_of_fmap; eauto). rewrite lookup_delete_ne by congruence.
    apply Hin. by right.
  - pose proof (zlen_nonneg l). apply IH; [lia | done | | lia]. intros e' He'. apply Hin. by right.
Qed.

Lemma note_replay_live limits now key m k e :
  Z.of_nat (size m) <= ReplayCacheMaxEntries limits -> m !! k = Some e -> now < e -> (note_replay limits now key m).2 !! k = Some e.
Proof.
  intros Hsize Hk He. assert (foldl (evict now (ReplayCacheMaxEntries limits)) m (range_map m) !! k = Some e) as Hp by (by apply purge_live).
  unfold note_replay. split_if; [done|]. destruct (decide (key = k)) as [->|Hne]; simpl.
  - rewrite Hp in Heqb. destruct (Z.ltb_spec now e); [done | lia].
  - by rewrite lookup_insert_ne.
Qed.
Lemma note_replay_seen limits now m k e :
  Z.of_nat (size m) <= ReplayCacheMaxEntries limits -> m !! k = Some e -> now < e -> (note_replay limits now k m).1 = true.
Proof.
  intros Hsize Hk He. unfold note_replay. assert (foldl (evict now (ReplayCacheMaxEntries limits)) m (range_map m) !! k = Some e) as -> by (by apply purge_live).
  destruct (Z.ltb_spec now e); [done | lia].
Qed.
Lemma note_replay_new limits now key m :
  (note_replay limits now key m).1 = false -> (note_replay limits now key m).2 !! key = Some (now + ReplayWindowSeconds limits * second).
Proof. unfold note_replay. split_if; [done|]. intros _. apply lookup_insert_eq. Qed.

Lemma size_insert_le m k (e : Z) : (size (<[k := e]> m) <= S (size m))%nat.
Proof. rewrite map_size_insert. destruct (m !! k); simpl; lia. Qed.
Lemma note_replay_grows limits now key m : Z.of_nat (size (note_replay limits now key m).2) <= Z.of_nat (size m) + 1.
Proof.
  pose proof (subseteq_size _ _ (subseteq_dom _ _ (evicted_sub now (ReplayCacheMaxEntries limits) (range_map m) m))) as Hle. rewrite !size_dom in Hle.
  unfold note_replay. split_if; simpl; [lia|]. pose proof (size_insert_le (foldl (evict now (ReplayCacheMaxEntries limits)) m (range_map m)) key (now + ReplayWindowSeconds limits * second)). lia.
Qed.
Lemma note_replay_bounded limits now key m :
  0 <= ReplayCacheMaxEntries limits -> Z.of_nat (size (note_replay limits now key m).2) <= ReplayCacheMaxEntries limits + 1.
Proof.
  intros Hmax. pose proof (purge_size now _ m Hmax). unfold note_replay. split_if; simpl; [lia|].
  pose proof (size_insert_le (foldl (evict now (ReplayCacheMaxEntries limits)) m (range_map m)) key (now + ReplayWindowSeconds limits * second)). lia.
Qed.

(** A full cache of live entries loses one of them to a new packet. *)
Lemma note_replay_full limits now key m :
  0 <= ReplayCacheMaxEntries limits -> Z.of_nat (size m) = ReplayCacheMaxEntries limits + 1 -> (forall k e, m !! k = Some e -> now < e) ->
  (note_replay limits now key m).1 = false ->
  exists k e, m !! k = Some e /\ (k = key \/ (note_replay limits now key m).2 !! k = None).
Proof.
  intros Hmax Hsize Hlive Hnew. set (m' := foldl (evict now (ReplayCacheMaxEntries limits)) m (range_map m)).
  assert (Z.of_nat (size m') = ReplayCacheMaxEntries limits) as Hsize'.
  { apply evicted_excess; [lia | apply NoDup_range_map | | ].
    - intros [k e] He. apply elem_of_range_map in He. split; [done|]. by eapply Hlive.
    - assert (length (range_map m) = size m) as Hlen by (rewrite range_map_perm; apply length_map_to_list). unfold zlen. lia. }
  destruct (decide (dom m ⊆ dom m')) as [Hsub|Hsub].
  { apply subseteq_size in Hsub. rewrite !size_dom in Hsub. lia. }
  assert (exists k, k ∈ dom m /\ k ∉ dom m') as (k & Hk & Hk').
  { destruct (set_choose_or_empty (dom m ∖ dom m')) as [[k Hk]|Hempty]; [exists k; set_solver|]. contradict Hsub. set_solver. }
  apply elem_of_dom in Hk as [e He]. apply not_elem_of_dom in Hk'. exists k, e. split; [done|].
  destruct (decide (k = key)) as [?|Hne]; [by left | right]. revert Hnew. unfold note_replay. fold m'. split_if; [done|]. intros _. simpl.
  by rewrite lookup_insert_ne.
Qed.
End replays.

(** ** The encoding of a packet, written from RFC 2865 *)

Abbreviation attribute := (Z * list Z)%type.
Definition encode_attributes (l : list attribute) : list Z := flat_map (fun a => a.1 :: 2 + zlen a.2 :: a.2) l.
Definition encode_packet (code identifier : Z) (authenticator : list Z) (attributes : list attribute) : list Z :=
  code :: identifier :: PutUint16 (radiusHeaderBytes + zlen (encode_attributes attributes)) ++ authenticator ++ encode_attributes attributes.

(** What the length byte can express, and the length of a Message-Authenticator *)
Definition good_attribute (a : attribute) : Prop := zlen a.2 <= 253 /\ (a.1 = radiusTypeMessageAuthenticator -> zlen a.2 = radiusMessageAuthenticatorBytes).

Definition of_type (typ : Z) (l : list attribute) : list attribute := List.filter (fun a => a.1 =? typ) l.
Definition has_type (typ : Z) (l : list attribute) : bool := existsb (fun a => a.1 =? typ) l.

(** Where the value of the last Message-Authenticator begins *)
Fixpoint last_authenticator (offset : Z) (l : list attribute) (found : Z) : Z :=
  match l with
  | [] => found
  | a :: l => last_authenticator (offset + (2 + zlen a.2)) l (if a.1 =? radiusTypeMessageAuthenticator then offset + 2 else found)
  end.
Fixpoint total_length (l : list attribute) : Z := match l with [] => 0 | a :: l => zlen a.2 + total_length l end.

(** What is known of a packet that begins with [p] after more attributes *)
Definition extended (p : parsedRadiusPacket) (offset : Z) (l : list attribute) : parsedRadiusPacket :=
  mkParsed (PaCode p) (PaIdentifier p) (PaAuthenticator p) (PaDeclaredLength p) (PaAttributes p ++ l)
    (PaMessageAuthenticatorPresent p || has_type radiusTypeMessageAuthenticator l) (last_authenticator offset l (PaMessageAuthenticatorOffset p))
    (PaEapMessagePresent p || has_type radiusTypeEAPMessage l) (PaProxyStateCount p + zlen (of_type radiusTypeProxyState l))
    (PaProxyStateBytes p + total_length (of_type radiusTypeProxyState l)).
Definition summary (code identifier : Z) (authenticator : list Z) (l : list attribute) : parsedRadiusPacket :=
  extended (mkParsed code identifier authenticator (radiusHeaderBytes + zlen (encode_attributes l)) [] false 0 false 0 0) radiusHeaderBytes l.

Section parser.
Context {SA : SourceAddress}.
Implicit Types (l : list attribute) (a : attribute) (p : parsedRadiusPacket).

Lemma encode_attributes_cons a l : encode_attributes (a :: l) = a.1 :: 2 + zlen a.2 :: a.2 ++ encode_attributes l.
Proof. reflexivity. Qed.
Lemma encode_attributes_app l k : encode_attributes (l ++ k) = encode_attributes l ++ encode_attributes k.
Proof. apply flat_map_app. Qed.

Lemma extended_nil p offset : extended p offset [] = p.
Proof. destruct p. unfold extended. simpl. by rewrite app_nil_r, !orb_false_r, !Z.add_0_r. Qed.

(** One attribute *)
Lemma add_attribute_ok limits offset a p p' :
  add_attribute limits offset a.1 a.2 p = Ok p' <->
  zlen (PaAttributes p) + 1 <= MaxAttributesPerPacket limits /\ (a.1 = radiusTypeMessageAuthenticator -> zlen a.2 = radiusMessageAuthenticatorBytes)
  /\ p' = extended p offset [a].
Proof.
  destruct a as [typ value]. unfold add_attribute, extended, has_type, of_type. simpl.
  destruct (Z.gtb_spec (zlen (PaAttributes p) + 1) (MaxAttributesPerPacket limits)); [split; [done | lia]|].
  destruct (Z.eqb_spec typ radiusTypeMessageAuthenticator) as [->|H80]; simpl.
  - destruct (Z.eqb_spec (zlen value) radiusMessageAuthenticatorBytes); simpl; [|split; [done | naive_solver]].
    rewrite !orb_true_r, !orb_false_r, !Z.add_0_r. split; [by intros [= <-] | by intros (_ & _ & ->)].
  - destruct (Z.eqb_spec typ radiusTypeEAPMessage) as [->|H79]; simpl.
    { rewrite ?orb_true_r, ?orb_false_r, !Z.add_0_r. split; [by intros [= <-] | by intros (_ & _ & ->)]. }
    destruct (Z.eqb_spec typ radiusTypeProxyState) as [->|H33]; simpl; rewrite ?orb_false_r, ?Z.add_0_r.
    + split; [by intros [= <-] | by intros (_ & _ & ->)].
    + split; [by intros [= <-] | by intros (_ & _ & ->)].
Qed.

Lemma extended_cons p offset a l : extended p offset (a :: l) = extended (extended p offset [a]) (offset + (2 + zlen a.2)) l.
Proof.
  unfold extended, has_type, of_type. simpl. rewrite <- !app_assoc, !orb_false_r, !orb_assoc. simpl. f_equal.
  all: destruct (a.1 =? radiusTypeProxyState); simpl; rewrite ?zlen_cons, ?zlen_nil; lia.
Qed.

Definition fits (limits : PacketHardeningLimits) p l : Prop := l = [] \/ zlen (PaAttributes p) + zlen l <= MaxAttributesPerPacket limits.

(** The loop accepts exactly encoded attributes that fit. *)
Lemma parse_attributes_encoded limits l : forall fuel offset p,
  (length (encode_attributes l) <= fuel)%nat -> Forall good_attribute l -> fits limits p l ->
  parse_attributes fuel limits offset (encode_attributes l) p = Ok (extended p offset l).
Proof.
  induction l as [|a l IH]; intros fuel offset p Hfuel Hgood Hfits; [destruct fuel; simpl; by rewrite extended_nil|].
  inversion_clear Hgood as [|?? [Hlen Hma] Hl]. rewrite encode_attributes_cons in *. destruct Hfits as [|Hfits]; [done|]. rewrite zlen_cons in Hfits.
  destruct fuel as [|fuel]; [simpl in Hfuel; lia|]. cbn [parse_attributes].
  pose proof (zlen_nonneg a.2). pose proof (zlen_nonneg l). pose proof (zlen_nonneg (encode_attributes l)).
  rewrite !zlen_cons, zlen_app. destruct (Z.ltb_spec (2 + zlen a.2) 2); [lia|].
  destruct (Z.ltb_spec (1 + (1 + (zlen a.2 + zlen (encode_attributes l)))) (2 + zlen a.2)); [lia|]. simpl orb. cbv iota zeta.
  replace (Z.to_nat (2 + zlen a.2 - 2)) with (length a.2) by (unfold zlen; lia). rewrite take_app_length, drop_app_length.
  assert (add_attribute limits offset a.1 a.2 p = Ok (extended p offset [a])) as -> by (apply add_attribute_ok; repeat split; auto; lia).
  simpl mbind. rewrite (extended_cons p offset a l), IH; [done | simpl in Hfuel; rewrite length_app in Hfuel; lia | done |].
  right. simpl. rewrite zlen_app, zlen_cons, zlen_nil. lia.
Qed.

Lemma parse_attributes_ok limits : forall fuel rest offset p p',
  wf_bytes rest -> parse_attributes fuel limits offset rest p = Ok p' ->
  exists l, rest = encode_attributes l /\ Forall good_attribute l /\ fits limits p l /\ p' = extended p offset l.
Proof.
  induction fuel as [|fuel IH]; intros rest offset p p' Hwf Hp.
  { destruct rest as [|typ [|len body]]; [|done..]. simpl in Hp. injection Hp as <-. exists []. rewrite extended_nil. repeat split; [constructor | by left]. }
  destruct rest as [|typ [|len body]]; [| done |].
  { simpl in Hp. injection Hp as <-. exists []. rewrite extended_nil. repeat split; [constructor | by left]. }
  cbn [parse_attributes] in Hp. rewrite !zlen_cons in Hp.
  destruct (Z.ltb_spec len 2); [done|]. destruct (Z.ltb_spec (1 + (1 + zlen body)) len); [done|]. simpl orb in Hp. cbv iota zeta in Hp.
  apply bind_Ok in Hp as (p1 & Hadd & Hp). set (value := take (Z.to_nat (len - 2)) body) in *.
  assert (zlen value = len - 2) as Hvalue by (unfold zlen in *; subst value; rewrite length_take; lia).
  apply (add_attribute_ok limits offset (typ, value)) in Hadd as (Hmax & Hma & ->).
  inversion_clear Hwf as [|?? _ Hwf']. inversion_clear Hwf' as [|?? [_ Hbyte] Hbody].
  apply IH in Hp as (l & Hrest & Hgood & Hfits & ->); [|by apply Forall_drop].
  exists ((typ, value) :: l). rewrite encode_attributes_cons. simpl. rewrite <- Hrest, Hvalue. repeat split.
  - f_equal. f_equal; [lia|]. symmetry. apply take_drop.
  - constructor; [split; simpl; [lia | done] | done].
  - right. rewrite zlen_cons. destruct Hfits as [->|Hfits]; [rewrite zlen_nil; simpl in Hmax; lia|]. simpl in Hfits. rewrite zlen_app, zlen_cons, zlen_nil in Hfits. lia.
  - etrans; [|symmetry; apply (extended_cons p offset (typ, value) l)]. simpl. rewrite Hvalue. f_equal. lia.
Qed.

(** What [parseRaw] asks of the bytes *)
Definition packet_of (h : PacketHardener) (raw : list Z) (code identifier : Z) (authenticator : list Z) l (padding : list Z) : Prop :=
  raw = encode_packet code identifier authenticator l ++ padding /\ length authenticator = 16%nat
  /\ zlen raw <= MaxPacketBytes (HrLimits h) /\ zlen (encode_packet code identifier authenticator l) <= radiusMaxPacketBytes
  /\ (padding = [] \/ PoAllowTrailingPadding (HrPolicy h) = true) /\ Forall good_attribute l
  /\ (l = [] \/ zlen l <= MaxAttributesPerPacket (HrLimits h)).

Lemma zlen_encode_packet code identifier authenticator l :
  length authenticator = 16%nat -> zlen (encode_packet code identifier authenticator l) = radiusHeaderBytes + zlen (encode_attributes l).
Proof. intros Ha. unfold encode_packet, zlen, radiusHeaderBytes. simpl length. rewrite length_app. lia. Qed.

Lemma Uint16_encoded v : 0 <= v <= radiusMaxPacketBytes -> Uint16 (to_byte (Z.shiftr v 8)) (to_byte v) = v.
Proof. intros Hv. apply Uint16_Put. unfold is_uint16, radiusMaxPacketBytes in *. lia. Qed.

Lemma parseRaw_encoded h raw code identifier authenticator l padding :
  packet_of h raw code identifier authenticator l padding -> parseRaw h raw = Ok (summary code identifier authenticator l).
Proof.
  intros (-> & Ha & Hmax & H4096 & Hpad & Hgood & Hfits). pose proof (zlen_encode_packet code identifier authenticator l Ha) as Hlen.
  pose proof (zlen_nonneg (encode_attributes l)). pose proof (zlen_nonneg padding). rewrite zlen_app in Hmax.
  unfold parseRaw. cbn [encode_packet PutUint16 app].
  change (_ :: _ :: _ :: _ :: _) with (encode_packet code identifier authenticator l ++ padding) at 1 2 3 4.
  rewrite zlen_app, Uint16_encoded, Hlen by (unfold radiusHeaderBytes in *; lia). unfold radiusHeaderBytes in *.
  destruct (Z.ltb_spec (20 + zlen (encode_attributes l) + zlen padding) 20); [lia|].
  destruct (Z.gtb_spec (20 + zlen (encode_attributes l) + zlen padding) (MaxPacketBytes (HrLimits h))); [lia|].
  destruct (Z.ltb_spec (20 + zlen (encode_attributes l)) 20); [lia|].
  destruct (Z.gtb_spec (20 + zlen (encode_attributes l)) radiusMaxPacketBytes); [lia|].
  destruct (Z.gtb_spec (20 + zlen (encode_attributes l)) (20 + zlen (encode_attributes l) + zlen padding)); [lia|]. simpl orb. cbv iota.
  assert (negb (20 + zlen (encode_attributes l) =? 20 + zlen (encode_attributes l) + zlen padding) && negb (PoAllowTrailingPadding (HrPolicy h)) = false) as ->.
  { destruct Hpad as [->| ->]; [|by rewrite andb_false_r]. rewrite zlen_nil, Z.add_0_r, Z.eqb_refl. done. }
  replace (Z.to_nat (20 + zlen (encode_attributes l) - 20)) with (length (encode_attributes l)) by (unfold zlen; lia).
  rewrite <- app_assoc, <- Ha, drop_app_length, take_app_length, take_app_length.
  rewrite parse_attributes_encoded; [done | lia | done |]. destruct Hfits as [->|Hfits]; [by left | right]. simpl. by rewrite zlen_nil.
Qed.

Lemma parseRaw_ok h raw p :
  wf_bytes raw -> parseRaw h raw = Ok p ->
  exists code identifier authenticator l padding, packet_of h raw code identifier authenticator l padding /\ p = summary code identifier authenticator l.
Proof.
  intros Hwf Hp. unfold parseRaw in Hp. destruct raw as [|code [|identifier [|l0 [|l1 body]]]]; try done. rewrite !zlen_cons in Hp.
  destruct (Z.ltb_spec (1 + (1 + (1 + (1 + zlen body)))) radiusHeaderBytes) as [|Hshort]; [done|].
  destruct (Z.gtb_spec (1 + (1 + (1 + (1 + zlen body)))) (MaxPacketBytes (HrLimits h))) as [|Hover]; [done|].
  destruct (_ || _ || _) eqn:Hbounds in Hp; [done|]. apply orb_false_iff in Hbounds as [[H20 H4096]%orb_false_iff Hraw].
  rewrite Z.gtb_ltb, Z.ltb_ge in *. unfold radiusHeaderBytes in *.
  destruct (negb _ && _) eqn:Hpad in Hp; [done|]. set (declared := Uint16 l0 l1) in *.
  rewrite !Forall_cons in Hwf. destruct Hwf as (? & ? & Hl0 & Hl1 & Hbody).
  apply parse_attributes_ok in Hp as (l & Hrest & Hgood & Hfits & ->); [|by apply Forall_take, Forall_drop].
  assert (length (take 16 body) = 16%nat) as Ha by (rewrite length_take; unfold zlen in *; lia).
  assert (20 + zlen (encode_attributes l) = declared) as Hdeclared.
  { rewrite <- Hrest. unfold zlen in *. rewrite length_take, length_drop. lia. }
  exists code, identifier, (take 16 body), l, (drop (Z.to_nat (declared - 20)) (drop 16 body)).
  assert (code :: identifier :: l0 :: l1 :: body = encode_packet code identifier (take 16 body) l ++ drop (Z.to_nat (declared - 20)) (drop 16 body)) as Hraw'.
  { unfold encode_packet, radiusHeaderBytes. rewrite Hdeclared. unfold declared. rewrite PutUint16_Uint16 by done. simpl. rewrite <- app_assoc, <- Hrest.
    by rewrite take_drop, take_drop. }
  split; [|unfold summary, radiusHeaderBytes; by rewrite Hdeclared].
  split; [done|]. split; [done|]. split; [by rewrite !zlen_cons|]. split; [rewrite zlen_encode_packet by done; unfold radiusHeaderBytes; lia|].
  split.
  - apply andb_false_iff in Hpad as [Hpad|Hpad]; [left | right; by apply negb_false_iff].
    apply negb_false_iff, Z.eqb_eq in Hpad. apply nil_length_inv. unfold zlen in *. rewrite !length_drop. lia.
  - split; [done|]. destruct Hfits as [->|Hfits]; [by left | right]. simpl in Hfits. rewrite zlen_nil in Hfits. lia.
Qed.

(** C26: [parseRaw] is the inverse of the encoding: it accepts exactly the encodings of packets within the limits, with nothing after them unless padding is allowed, and
    returns their parts, in order, and what it counted. *)
Theorem parseRaw_spec h raw p :
  wf_bytes raw ->
  parseRaw h raw = Ok p <->
  exists code identifier authenticator l padding, packet_of h raw code identifier authenticator l padding /\ p = summary code identifier authenticator l.
Proof.
  intros Hwf. split; [by apply parseRaw_ok|]. intros (code & identifier & authenticator & l & padding & Hof & ->). by eapply parseRaw_encoded.
Qed.
End parser.

(** ** What a check decides and changes *)

Section checks.
Context {U : Unicode} {SA : SourceAddress} {RO : Rounding} {RP : RadiusParse} {MR : MapRange}.
Implicit Types (h : PacketHardener) (ctx : PacketValidationContext) (p : parsedRadiusPacket) (l : list attribute).

Definition known_source h (addr : option string) : Prop :=
  PoRequireKnownSource (HrPolicy h) = true -> exists ip network, remoteIP addr = Some ip /\ network ∈ HrTrusted h /\ network ip = true.
Definition within_rate h (clock : Z) ctx : Prop := RateLimitEnabled (HrLimits h) = true -> (allowRate h clock ctx).1 = true.
Definition fresh h (clock : Z) ctx p : Prop :=
  ReplayCacheEnabled (HrLimits h) = true -> (note_replay (HrLimits h) (now_of clock ctx) (replay_key ctx p) (Replays h)).1 = false.

(** The configuration of a hardener does not change. *)
Definition same_settings h h' : Prop := HrPolicy h' = HrPolicy h /\ HrLimits h' = HrLimits h /\ HrTrusted h' = HrTrusted h.
#[local] Instance same_settings_refl : Reflexive same_settings.
Proof. intros h. done. Qed.
#[local] Instance same_settings_trans : Transitive same_settings.
Proof. intros h1 h2 h3 (? & ? & ?) (? & ? & ?). repeat split; congruence. Qed.

Lemma sourceAllowed_known h addr : sourceAllowed h addr = true <-> known_source h addr.
Proof.
  unfold sourceAllowed, known_source. destruct (PoRequireKnownSource (HrPolicy h)); simpl; [|split; [done | done]].
  destruct (remoteIP addr) as [ip|]; [|split; [done | intros H; destruct H as (? & ? & ? & _); done]].
  rewrite existsb_exists. setoid_rewrite <- list_elem_of_In. split; [intros (n & ? & ?) _; eauto | intros H; destruct H as (? & n & [= <-] & ?); eauto].
Qed.

Lemma allowRate_settings h clock ctx : same_settings h (allowRate h clock ctx).2 /\ Replays (allowRate h clock ctx).2 = Replays h.
Proof. unfold allowRate. cbv zeta. split_if; [done|]. by destruct (take_token _ _ _ _). Qed.

Lemma checkSourceAndRate_cases h clock ctx r : exists denied events h',
  checkSourceAndRate h clock ctx r = (denied, events, h') /\ same_settings h h' /\ Replays h' = Replays h
  /\ (denied = None <-> known_source h (RemoteAddr ctx) /\ within_rate h clock ctx) /\ (forall d, denied = Some d -> Accepted d = false).
Proof.
  unfold checkSourceAndRate, within_rate. pose proof (sourceAllowed_known h (RemoteAddr ctx)) as Hsource. pose proof (allowRate_settings h clock ctx) as Hrate.
  destruct (PoRequireKnownSource (HrPolicy h) && negb (sourceAllowed h (RemoteAddr ctx))) eqn:E.
  { apply andb_prop in E as [_ E]. apply negb_true_iff in E. eexists _, _, _. split; [done|]. split; [done|]. split; [done|]. split; [|by intros d [= <-]].
    split; [done|]. intros [Hknown _]. apply Hsource in Hknown. congruence. }
  assert (known_source h (RemoteAddr ctx)) as Hknown.
  { apply Hsource. apply andb_false_iff in E as [E|E]; [unfold sourceAllowed; by rewrite E | by apply negb_false_iff]. }
  destruct (RateLimitEnabled (HrLimits h)); [destruct (allowRate h clock ctx) as [[] h']|]; simpl in *; destruct_and?; eexists _, _, _;
    (split; [reflexivity|]); (split; [done|]); (split; [done|]); (split; [naive_solver | intros d Hd; first [discriminate Hd | by injection Hd as <-]]).
Qed.

(** What [validatePacketShape] asks for before it looks for a repetition *)
Definition shape_ok h ctx p (wire : option (list Z)) : Prop :=
  packetCodeAllowed (PaCode p) (HrPolicy h) = true
  /\ PaProxyStateCount p <= MaxProxyStateAttributes (HrLimits h) /\ PaProxyStateBytes p <= MaxProxyStateBytes (HrLimits h)
  /\ (messageAuthenticatorRequired (HrPolicy h) (PaCode p) (PaEapMessagePresent p) = true -> PaMessageAuthenticatorPresent p = true)
  /\ (forall w, wire = Some w -> PaMessageAuthenticatorPresent p = true -> SharedSecret ctx <> [] ->
        verifyMessageAuthenticator w (PaMessageAuthenticatorOffset p) (SharedSecret ctx) = true).

Lemma validatePacketShape_cases h clock ctx p r wire : exists denied h',
  validatePacketShape h clock ctx p r wire = (denied, h') /\ same_settings h h'
  /\ (Replays h' = Replays h /\ (denied = None -> ReplayCacheEnabled (HrLimits h) = false)
      \/ Replays h' = (note_replay (HrLimits h) (now_of clock ctx) (replay_key ctx p) (Replays h)).2
         /\ (denied = None -> (note_replay (HrLimits h) (now_of clock ctx) (replay_key ctx p) (Replays h)).1 = false))
  /\ (denied = None <-> shape_ok h ctx p wire /\ fresh h clock ctx p)
  /\ (forall d, denied = Some d -> Accepted d = false).
Proof.
  unfold validatePacketShape, shape_ok, fresh, replaySeen.
  destruct (packetCodeAllowed _ _) eqn:Hcode; simpl; [|eexists _, _; naive_solver].
  destruct (Z.gtb_spec (PaProxyStateCount p) (MaxProxyStateAttributes (HrLimits h))).
  { eexists _, _. split; [done|]. split; [done|]. split; [by left|]. split; [|naive_solver]. split; [done | intros [(_ & ? & _) _]; lia]. }
  destruct (Z.gtb_spec (PaProxyStateBytes p) (MaxProxyStateBytes (HrLimits h))).
  { eexists _, _. split; [done|]. split; [done|]. split; [by left|]. split; [|naive_solver]. split; [done | intros [(_ & _ & ? & _) _]; lia]. }
  destruct (messageAuthenticatorRequired _ _ _ && _) eqn:Hreq.
  { apply andb_prop in Hreq as [Hreq ?%negb_true_iff]. eexists _, _. split; [done|]. split; [done|]. split; [by left|].
    split; [|naive_solver]. split; [done | intros [(_ & _ & _ & Hp & _) _]; specialize (Hp Hreq); congruence]. }
  assert (messageAuthenticatorRequired (HrPolicy h) (PaCode p) (PaEapMessagePresent p) = true -> PaMessageAuthenticatorPresent p = true) as Hpresent.
  { intros Ha. rewrite Ha in Hreq. by apply negb_false_iff. }
  destruct (match wire with Some w => _ | None => false end) eqn:Hverify.
  { destruct wire as [w|]; [|done]. apply andb_prop in Hverify as [[Hp Hs]%andb_prop Hv%negb_true_iff]. eexists _, _. split; [done|]. split; [done|]. split; [by left|].
    split; [|naive_solver]. split; [done|]. intros [(_ & _ & _ & _ & Hw) _]. rewrite Hw in Hv; [done | done | done |].
    intros Hnil. rewrite Hnil in Hs. done. }
  assert (forall w, wire = Some w -> PaMessageAuthenticatorPresent p = true -> SharedSecret ctx <> [] ->
            verifyMessageAuthenticator w (PaMessageAuthenticatorOffset p) (SharedSecret ctx) = true) as Hverified.
  { intros w -> Hp Hs. rewrite Hp in Hverify. destruct (SharedSecret ctx) eqn:Es; [done|]. rewrite zlen_cons in Hverify. pose proof (zlen_nonneg l).
    destruct (Z.gtb_spec (1 + zlen l) 0); [|lia]. simpl in Hverify. by apply negb_false_iff in Hverify. }
  destruct (ReplayCacheEnabled (HrLimits h)) eqn:Hcache.
  - destruct (note_replay _ _ _ _) as [[] m] eqn:Hnote; eexists _, _; (split; [reflexivity|]); (split; [done|]); simpl; (split; [by right|]);
      (split; naive_solver).
  - eexists _, _. split; [done|]. split; [done|]. split; [by left|]. split; [naive_solver | done].
Qed.

(** ** Calls *)

Inductive call := RawCall (clock : Z) (ctx : PacketValidationContext) (raw : list Z) | PacketCall (clock : Z) (ctx : PacketValidationContext) (packet : option Packet).
Definition serve h (c : call) : PacketValidationResult * list nas_event * PacketHardener :=
  match c with RawCall clock ctx raw => ValidateRawPacket h clock ctx raw | PacketCall clock ctx packet => ValidatePacket h clock ctx packet end.
Definition accepts h (c : call) : bool := Accepted (serve h c).1.1.
Definition run h (calls : list call) : PacketHardener := foldl (fun h c => (serve h c).2) h calls.

Definition instant (c : call) : Z := match c with RawCall clock ctx _ | PacketCall clock ctx _ => now_of clock ctx end.
Definition source_of (c : call) : string := match c with RawCall _ ctx _ | PacketCall _ ctx _ => remoteHost (RemoteAddr ctx) end.
(** Code, identifier and authenticator *)
Definition identity (c : call) : list Z * list Z :=
  match c with
  | RawCall _ _ raw => (take 2 raw, take 16 (drop 4 raw))
  | PacketCall _ _ (Some packet) => ([to_byte (PkCode packet); PkIdentifier packet], PkAuthenticator packet)
  | PacketCall _ _ None => ([], [])
  end.
Definition call_key (c : call) : string :=
  let '(header, authenticator) := identity c in
  source_of c +:+ "|" +:+ Itoa (nth 0 header 0) +:+ "|" +:+ Itoa (nth 1 header 0) +:+ "|" +:+ hex_encode authenticator.

Lemma parse_attributes_header limits : forall fuel offset rest p p', parse_attributes fuel limits offset rest p = Ok p' ->
  PaCode p' = PaCode p /\ PaIdentifier p' = PaIdentifier p /\ PaAuthenticator p' = PaAuthenticator p.
Proof.
  induction fuel as [|fuel IH]; intros offset rest p p' Hp; (destruct rest as [|typ [|len body]]; simpl in Hp; [injection Hp as <-; done | done|]); [done|].
  split_if; [done|]. apply bind_Ok in Hp as (p1 & Hadd & Hp). apply (add_attribute_ok limits offset (typ, _)) in Hadd as (_ & _ & ->).
  apply IH in Hp. done.
Qed.
Lemma parseRaw_header h raw p : parseRaw h raw = Ok p ->
  take 2 raw = [PaCode p; PaIdentifier p] /\ take 16 (drop 4 raw) = PaAuthenticator p.
Proof.
  intros Hp. unfold parseRaw in Hp. destruct raw as [|code [|identifier [|l0 [|l1 body]]]]; [done..|]. cbv zeta in Hp.
  repeat split_if; try done; apply parse_attributes_header in Hp as (-> & -> & ->); done.
Qed.
Lemma count_attributes_header attributes : forall p p', count_attributes attributes p = Ok p' ->
  PaCode p' = PaCode p /\ PaIdentifier p' = PaIdentifier p /\ PaAuthenticator p' = PaAuthenticator p.
Proof.
  induction attributes as [|[[typ value]|] attributes IH]; intros p p' Hp; simpl in Hp; [by injection Hp as <- | | done].
  apply bind_Ok in Hp as (p1 & Hadd & Hp). apply IH in Hp as (-> & -> & ->). unfold count_attribute in Hadd. cbv zeta in Hadd.
  repeat split_if; try done; by injection Hadd as <-.
Qed.

Lemma normalized_key clock ctx p : replay_key (normalizePacketValidationContext clock ctx) p = replay_key ctx p.
Proof. done. Qed.

(** What a call does to the settings and to the cache *)
Definition cached h (c : call) (r : PacketValidationResult) h' : Prop :=
  Replays h' = (note_replay (HrLimits h) (instant c) (call_key c) (Replays h)).2
  /\ (Accepted r = true -> (note_replay (HrLimits h) (instant c) (call_key c) (Replays h)).1 = false).
Definition untouched h (r : PacketValidationResult) h' : Prop :=
  Replays h' = Replays h /\ (Accepted r = true -> PoEnabled (HrPolicy h) = false \/ ReplayCacheEnabled (HrLimits h) = false).


Lemma serve_raw_cases h clock ctx raw (c := RawCall clock ctx raw) (out := serve h c) :
  same_settings h out.2 /\ (untouched h out.1.1 out.2 \/ cached h c out.1.1 out.2).
Proof.
  subst out. simpl serve. unfold ValidateRawPacket. cbv zeta. set (ctx' := normalizePacketValidationContext clock ctx).
  destruct (negb (PoEnabled (HrPolicy h))) eqn:Hen; [split; [done | left; split; [done | intros _; left; by apply negb_true_iff]]|].
  destruct (checkSourceAndRate_cases h clock ctx' (with_length (baseValidationResult ctx') (zlen raw))) as (denied & events & h1 & -> & Hsame & Hm & _ & Hd).
  destruct denied as [d|]; [split; [done | left; split; [done | intros Ha; simpl in Ha; by rewrite Hd in Ha]]|].
  destruct (parseRaw h1 raw) as [p|e] eqn:Hp; [|split; [done | by left; split]]. apply parseRaw_header in Hp as [Hhead Hauth].
  match goal with |- context [validatePacketShape h1 clock ctx' p ?r ?w] =>
    destruct (validatePacketShape_cases h1 clock ctx' p r w) as (denied & h2 & -> & Hsame2 & Hshape & _ & Hd2) end.
  assert (replay_key ctx' p = call_key c) as Hkey by (unfold call_key, identity; cbn [c]; by rewrite Hhead, Hauth).
  rewrite Hm, Hkey in Hshape. destruct Hsame as (? & Hl & ?). rewrite Hl in Hshape. change (now_of clock ctx') with (instant c) in Hshape.
  destruct denied as [d|]; [|destruct (radius_parse _ _)]; (split; [destruct Hsame2 as (? & ? & ?); repeat split; simpl; congruence|]); simpl;
    (destruct Hshape as [[Hm2 Hc]|[Hm2 Hc]]; [left | right]); (split; [done|]); simpl; intros Ha; try (by rewrite Hd2 in Ha); try done; auto.
Qed.

Lemma serve_packet_cases h clock ctx packet (c := PacketCall clock ctx packet) (out := serve h c) :
  same_settings h out.2 /\ (untouched h out.1.1 out.2 \/ cached h c out.1.1 out.2).
Proof.
  subst out. simpl serve. unfold ValidatePacket. cbv zeta. set (ctx' := normalizePacketValidationContext clock ctx).
  destruct packet as [packet|]; [|split; [done | by left; split]].
  destruct (negb (PoEnabled (HrPolicy h))) eqn:Hen; [split; [done | left; split; [done | intros _; left; by apply negb_true_iff]]|].
  destruct (_ >? MaxAttributesPerPacket (HrLimits h)); [split; [done | by left; split]|].
  match goal with |- context [checkSourceAndRate h clock ctx' ?r] =>
    destruct (checkSourceAndRate_cases h clock ctx' r) as (denied & events & h1 & -> & Hsame & Hm & _ & Hd) end.
  destruct denied as [d|]; [split; [done | left; split; [done | intros Ha; simpl in Ha; by rewrite Hd in Ha]]|].
  destruct (count_attributes _ _) as [p|e] eqn:Hp; [|split; [done | by left; split]]. apply count_attributes_header in Hp as (Hcode & Hid & Hauth).
  destruct (_ >? _); [split; [done | by left; split]|].
  match goal with |- context [validatePacketShape h1 clock ctx' p ?r ?w] =>
    destruct (validatePacketShape_cases h1 clock ctx' p r w) as (denied & h2 & -> & Hsame2 & Hshape & _ & Hd2) end.
  assert (replay_key ctx' p = call_key c) as Hkey by (unfold call_key, identity, replay_key; cbn [c]; by rewrite Hcode, Hid, Hauth).
  rewrite Hm, Hkey in Hshape. destruct Hsame as (? & Hl & ?). rewrite Hl in Hshape. change (now_of clock ctx') with (instant c) in Hshape.
  destruct denied as [d|]; (split; [destruct Hsame2 as (? & ? & ?); repeat split; simpl; congruence|]); simpl;
    (destruct Hshape as [[Hm2 Hc]|[Hm2 Hc]]; [left | right]); (split; [done|]); simpl; intros Ha; try (by rewrite Hd2 in Ha); try done; auto.
Qed.

Lemma serve_cases h c : same_settings h (serve h c).2 /\ (untouched h (serve h c).1.1 (serve h c).2 \/ cached h c (serve h c).1.1 (serve h c).2).
Proof. destruct c; [apply serve_raw_cases | apply serve_packet_cases]. Qed.

Lemma serve_settings h c : same_settings h (serve h c).2.
Proof. apply serve_cases. Qed.
Lemma run_settings calls : forall h, same_settings h (run h calls).
Proof. induction calls as [|c calls IH]; intros h; [done|]. simpl. etrans; [apply serve_settings | apply IH]. Qed.

Lemma serve_live h c k e :
  Z.of_nat (size (Replays h)) <= ReplayCacheMaxEntries (HrLimits h) -> Replays h !! k = Some e -> instant c < e -> Replays (serve h c).2 !! k = Some e.
Proof. intros Hsize Hk He. destruct (serve_cases h c) as [_ [[-> _]|[-> _]]]; [done | by apply note_replay_live]. Qed.
Lemma serve_grows h c : Z.of_nat (size (Replays (serve h c).2)) <= Z.of_nat (size (Replays h)) + 1.
Proof. destruct (serve_cases h c) as [_ [[-> _]|[-> _]]]; [lia | apply note_replay_grows]. Qed.

Lemma run_live calls k e : forall h,
  Z.of_nat (size (Replays h)) + zlen calls <= ReplayCacheMaxEntries (HrLimits h) + 1 -> Replays h !! k = Some e -> Forall (fun c => instant c < e) calls ->
  Replays (run h calls) !! k = Some e /\ Z.of_nat (size (Replays (run h calls))) <= Z.of_nat (size (Replays h)) + zlen calls.
Proof.
  induction calls as [|c calls IH]; intros h Hroom Hk Hlive; simpl; [change (zlen (@nil call)) with 0; split; [done | lia]|].
  rewrite zlen_cons in *. apply Forall_cons in Hlive as [Hc Hlive]. pose proof (serve_grows h c). pose proof (zlen_nonneg calls).
  destruct (serve_settings h c) as (_ & Hl & _).
  destruct (IH (serve h c).2) as [Hk' Hsize]; [rewrite Hl; lia | apply serve_live; [lia | done | done] | done |]. split; [done | lia].
Qed.

Lemma accepted_cached h c :
  PoEnabled (HrPolicy h) = true -> ReplayCacheEnabled (HrLimits h) = true -> accepts h c = true ->
  Replays (serve h c).2 = (note_replay (HrLimits h) (instant c) (call_key c) (Replays h)).2
  /\ (note_replay (HrLimits h) (instant c) (call_key c) (Replays h)).1 = false.
Proof.
  intros Hen Hcache Ha. destruct (serve_cases h c) as [_ [[_ Hu]|[Hm Hc]]]; [|by split; [|apply Hc]].
  destruct (Hu Ha) as [?|?]; congruence.
Qed.

(** A packet that was accepted is not accepted a second time within the window, as bytes or parsed, while the
    cache has room for the packets in between: whatever calls came in between, a call from the same
    host with the same code, identifier and authenticator is refused until the window has passed. *)
Theorem repeated_packet_refused h c calls c' :
  PoEnabled (HrPolicy h) = true -> ReplayCacheEnabled (HrLimits h) = true -> accepts h c = true ->
  Z.of_nat (size (Replays (serve h c).2)) + zlen calls <= ReplayCacheMaxEntries (HrLimits h) ->
  Forall (fun d => instant d < instant c + ReplayWindowSeconds (HrLimits h) * second) (calls ++ [c']) ->
  source_of c' = source_of c -> identity c' = identity c ->
  accepts (run (serve h c).2 calls) c' = false.
Proof.
  intros Hen Hcache Ha Hroom Hlive Hsource Hid. apply Forall_app in Hlive as [Hcalls Hc']. apply Forall_cons in Hc' as [Hc' _].
  destruct (accepted_cached h c Hen Hcache Ha) as [Hm Hnew]. pose proof (note_replay_new _ _ _ _ Hnew) as Hk. rewrite <- Hm in Hk.
  destruct (serve_settings h c) as (Hp & Hl & _). destruct (run_settings calls (serve h c).2) as (Hp' & Hl' & _).
  destruct (run_live calls _ _ _ ltac:(rewrite Hl; lia) Hk Hcalls) as [Hk' Hsize].
  destruct (accepts (run (serve h c).2 calls) c') eqn:Ha'; [|done].
  apply accepted_cached in Ha' as [_ Hnew']; [|congruence..].
  assert (call_key c' = call_key c) as Hkey by (unfold call_key; by rewrite Hid, Hsource).
  rewrite (note_replay_seen _ _ _ _ (instant c + ReplayWindowSeconds (HrLimits h) * second)) in Hnew'; [done | rewrite Hl', Hl; lia | by rewrite Hkey | done].
Qed.

Lemma NewPacketHardener_limits cfg :
  HrLimits (NewPacketHardener cfg) = (effectivePacketHardening cfg).2 /\ HrPolicy (NewPacketHardener cfg) = (effectivePacketHardening cfg).1 /\ Replays (NewPacketHardener cfg) = ∅.
Proof. done. Qed.
Lemma defaultInt_pos value fallback : 0 < fallback -> 0 < defaultInt value fallback.
Proof. unfold defaultInt. intros. destruct (Z.leb_spec value 0); lia. Qed.

(** From any configuration and after any calls, the cache holds at most one entry more than the limit. *)
Theorem replay_cache_bounded cfg calls :
  let h := run (NewPacketHardener cfg) calls in
  Z.of_nat (size (Replays h)) <= ReplayCacheMaxEntries (HrLimits h) + 1 /\ 0 < ReplayCacheMaxEntries (HrLimits h).
Proof.
  assert (0 < ReplayCacheMaxEntries (HrLimits (NewPacketHardener cfg))) as Hpos by (simpl; by apply defaultInt_pos).
  assert (forall h, 0 < ReplayCacheMaxEntries (HrLimits h) -> Z.of_nat (size (Replays h)) <= ReplayCacheMaxEntries (HrLimits h) + 1 ->
            Z.of_nat (size (Replays (run h calls))) <= ReplayCacheMaxEntries (HrLimits (run h calls)) + 1 /\ 0 < ReplayCacheMaxEntries (HrLimits (run h calls))) as Hrun.
  { induction calls as [|c calls IH]; intros h Hmax Hsize; [done|]. simpl. destruct (serve_settings h c) as (_ & Hl & _).
    apply IH; [by rewrite Hl|]. rewrite Hl. destruct (serve_cases h c) as [_ [[-> _]|[-> _]]]; [done|]. apply note_replay_bounded. lia. }
  apply Hrun; [done|]. rewrite (proj2 (proj2 (NewPacketHardener_limits cfg))), map_size_empty. lia.
Qed.

(** When the cache is at that bound and every entry is live, a packet that is accepted is itself the repetition of one seen within
    the window, or it pushes out an entry, and the packet of this entry is no longer known. *)
Theorem full_cache_forgets h c :
  PoEnabled (HrPolicy h) = true -> ReplayCacheEnabled (HrLimits h) = true -> 0 <= ReplayCacheMaxEntries (HrLimits h) ->
  Z.of_nat (size (Replays h)) = ReplayCacheMaxEntries (HrLimits h) + 1 -> (forall k e, Replays h !! k = Some e -> instant c < e) ->
  accepts h c = true ->
  exists k e, Replays h !! k = Some e /\ instant c < e
    /\ (k = call_key c \/ forall now, (note_replay (HrLimits h) now k (Replays (serve h c).2)).1 = false).
Proof.
  intros Hen Hcache Hmax Hsize Hlive Ha. destruct (accepted_cached h c Hen Hcache Ha) as [Hm Hnew]. rewrite Hm.
  destruct (note_replay_full _ _ _ _ Hmax Hsize Hlive Hnew) as (k & e & Hk & Hgone). exists k, e. split; [done|]. split; [by eapply Hlive|].
  destruct Hgone as [?|Hgone]; [by left | right]. intros now. set (m := (note_replay _ _ _ _).2) in *. unfold note_replay.
  assert (foldl (evict now (ReplayCacheMaxEntries (HrLimits h))) m (range_map m) !! k = None) as ->; [|done].
  eapply lookup_weaken_None; [exact Hgone | apply evicted_sub].
Qed.
End checks.

(** ** The Message-Authenticator *)

Section message_authenticator.
Context {SA : SourceAddress}.
Implicit Types (l pre post : list attribute).

Definition no_authenticator l : Prop := has_type radiusTypeMessageAuthenticator l = false.
Definition zeros : list Z := repeat 0 16.

(** The value RFC 2869 asks for, computed over the packet with zeros in its place; RFC 5176 computes it for its requests with a request
    authenticator of zeros as well. *)
Definition authenticator_value (secret : list Z) (code identifier : Z) (authenticator : list Z) pre post : list Z :=
  hmac_md5 secret (encode_packet code identifier authenticator (pre ++ (radiusTypeMessageAuthenticator, zeros) :: post)).

Lemma last_authenticator_none l : forall offset found, no_authenticator l -> last_authenticator offset l found = found.
Proof.
  induction l as [|a l IH]; intros offset found Hno; [done|]. unfold no_authenticator in *. simpl in *. apply orb_false_iff in Hno as [Ha Hno].
  rewrite Ha. by apply IH.
Qed.
Lemma last_authenticator_at pre mac post : forall offset found, no_authenticator post ->
  last_authenticator offset (pre ++ (radiusTypeMessageAuthenticator, mac) :: post) found = offset + zlen (encode_attributes pre) + 2.
Proof.
  induction pre as [|a pre IH]; intros offset found Hpost; simpl app; cbn [last_authenticator].
  - simpl. rewrite last_authenticator_none, zlen_nil by done. lia.
  - rewrite IH by done. rewrite encode_attributes_cons, !zlen_cons, zlen_app. lia.
Qed.

Lemma encode_packet_split code identifier authenticator pre (mac : list Z) post :
  length authenticator = 16%nat -> length mac = 16%nat ->
  exists head tail : list Z, zlen head = radiusHeaderBytes + zlen (encode_attributes pre) + 2
    /\ forall value : list Z, length value = 16%nat -> encode_packet code identifier authenticator (pre ++ (radiusTypeMessageAuthenticator, value) :: post) = head ++ value ++ tail.
Proof.
  intros Ha Hm. exists (code :: identifier :: PutUint16 (radiusHeaderBytes + (zlen (encode_attributes pre) + (18 + zlen (encode_attributes post)))) ++ authenticator ++ encode_attributes pre ++ [radiusTypeMessageAuthenticator; 18]), (encode_attributes post).
  split.
  - rewrite !zlen_cons, !zlen_app, !zlen_cons, zlen_nil. assert (zlen authenticator = 16) as -> by (unfold zlen; lia). change (zlen (PutUint16 _)) with 2. unfold radiusHeaderBytes. lia.
  - intros value Hv. unfold encode_packet. rewrite encode_attributes_app, encode_attributes_cons. simpl fst. simpl snd.
    assert (zlen value = 16) as Hv' by (unfold zlen; lia). rewrite Hv'. change (2 + 16) with 18.
    rewrite zlen_app, !zlen_cons, zlen_app, Hv'. replace (1 + (1 + (16 + zlen (encode_attributes post)))) with (18 + zlen (encode_attributes post)) by lia.
    cbn [app]. do 2 f_equal. rewrite <- !app_assoc. simpl. rewrite <- ?app_assoc. done.
Qed.

(** [verifyMessageAuthenticator] compares the value with that of the packet as received. *)
Lemma verify_encoded code identifier authenticator pre mac post secret :
  length authenticator = 16%nat -> length mac = 16%nat -> no_authenticator post -> secret <> [] ->
  verifyMessageAuthenticator (encode_packet code identifier authenticator (pre ++ (radiusTypeMessageAuthenticator, mac) :: post))
    (last_authenticator radiusHeaderBytes (pre ++ (radiusTypeMessageAuthenticator, mac) :: post) 0) secret = true
  <-> mac = authenticator_value secret code identifier authenticator pre post.
Proof.
  intros Ha Hm Hpost Hs. rewrite last_authenticator_at by done. unfold authenticator_value.
  destruct (encode_packet_split code identifier authenticator pre mac post Ha Hm) as (head & tail & Hhead & Henc).
  rewrite (Henc mac Hm), (Henc zeros eq_refl). unfold verifyMessageAuthenticator. rewrite <- Hhead.
  pose proof (zlen_nonneg (encode_attributes pre)). unfold radiusHeaderBytes, radiusMessageAuthenticatorBytes in *.
  destruct (Z.leb_spec (zlen head) 0); [lia|]. destruct secret as [|s secret]; [done|]. simpl orb. cbv zeta.
  destruct (Z.gtb_spec (zlen head + 16) (zlen (head ++ mac ++ tail))).
  { exfalso. rewrite !zlen_app in *. assert (zlen mac = 16) by (unfold zlen; lia). pose proof (zlen_nonneg tail). lia. }
  simpl orb. cbv iota. replace (Z.to_nat (zlen head)) with (length head) by (unfold zlen; lia).
  rewrite take_app_length, drop_app_length, take_app_le by lia. rewrite (take_ge mac) by lia.
  rewrite <- drop_drop, drop_app_length, (drop_app_length' _ _ _ (eq_sym Hm)). apply bool_decide_eq_true.
Qed.
End message_authenticator.

(** ** Acceptance of bytes *)

Section acceptance.
Context {U : Unicode} {SA : SourceAddress} {RO : Rounding} {RP : RadiusParse} {MR : MapRange}.
Implicit Types (h : PacketHardener) (ctx : PacketValidationContext) (l pre post : list attribute).

(** What the policy asks of the contents of a packet *)
Definition sound_packet h (secret : list Z) (code identifier : Z) (authenticator : list Z) l : Prop :=
  packetCodeAllowed code (HrPolicy h) = true
  /\ zlen (of_type radiusTypeProxyState l) <= MaxProxyStateAttributes (HrLimits h) /\ total_length (of_type radiusTypeProxyState l) <= MaxProxyStateBytes (HrLimits h)
  /\ (messageAuthenticatorRequired (HrPolicy h) code (has_type radiusTypeEAPMessage l) = true -> has_type radiusTypeMessageAuthenticator l = true)
  /\ (forall pre mac post, l = pre ++ (radiusTypeMessageAuthenticator, mac) :: post -> no_authenticator post -> secret <> [] ->
        mac = authenticator_value secret code identifier authenticator pre post).

Lemma last_split l : has_type radiusTypeMessageAuthenticator l = true ->
  exists pre mac post, l = pre ++ (radiusTypeMessageAuthenticator, mac) :: post /\ no_authenticator post.
Proof.
  induction l as [|[typ value] l IH]; [done|]. unfold has_type. simpl. fold (has_type radiusTypeMessageAuthenticator l).
  destruct (has_type radiusTypeMessageAuthenticator l) eqn:E.
  - intros _. destruct (IH eq_refl) as (pre & mac & post & -> & Hpost). by exists ((typ, value) :: pre), mac, post.
  - rewrite orb_false_r, Z.eqb_eq. intros ->. by exists [], value, l.
Qed.

Lemma has_type_split pre mac post : has_type radiusTypeMessageAuthenticator (pre ++ (radiusTypeMessageAuthenticator, mac) :: post) = true.
Proof. unfold has_type. rewrite existsb_app. simpl. by rewrite orb_true_r. Qed.

Lemma good_split pre mac post : Forall good_attribute (pre ++ (radiusTypeMessageAuthenticator, mac) :: post) -> length mac = 16%nat.
Proof. intros [_ [[_ Hm] _]%Forall_cons]%Forall_app. specialize (Hm eq_refl). simpl in Hm. unfold zlen, radiusMessageAuthenticatorBytes in Hm. lia. Qed.

Lemma shape_ok_summary h ctx code identifier authenticator l :
  length authenticator = 16%nat -> Forall good_attribute l ->
  shape_ok h ctx (summary code identifier authenticator l) (Some (encode_packet code identifier authenticator l))
  <-> sound_packet h (SharedSecret ctx) code identifier authenticator l.
Proof.
  intros Ha Hgood. unfold shape_ok, sound_packet, summary. simpl. rewrite !Z.add_0_l.
  split; intros (Hcode & Hcount & Hbytes & Hreq & Hma); repeat (split; [done|]).
  - intros pre mac post -> Hpost Hs. apply (verify_encoded code identifier authenticator pre mac post (SharedSecret ctx)); [done | by eapply good_split | done | done |].
    apply Hma; [done | apply has_type_split | done].
  - intros w [= <-] Hp Hs. destruct (last_split l Hp) as (pre & mac & post & -> & Hpost).
    apply verify_encoded; [done | by eapply good_split | done | done |]. by apply Hma.
Qed.

Lemma wire_of code identifier authenticator l padding :
  length authenticator = 16%nat ->
  take (Z.to_nat (PaDeclaredLength (summary code identifier authenticator l))) (encode_packet code identifier authenticator l ++ padding) = encode_packet code identifier authenticator l.
Proof.
  intros Ha. change (PaDeclaredLength _) with (radiusHeaderBytes + zlen (encode_attributes l)). rewrite <- (zlen_encode_packet code identifier authenticator l Ha). unfold zlen. rewrite Nat2Z.id. apply take_app_length.
Qed.

(** C25: Bytes are accepted exactly if the source is known and within its rate, and the bytes are the encoding of a packet, within
    the limits and padded only where that is allowed, whose code is allowed, whose Proxy-State attributes are within their
    limits, which has a Message-Authenticator where one is required, whose last Message-Authenticator is the keyed digest of the packet when the
    secret is known, which is not a repetition, and which the RADIUS library can parse. *)
Theorem ValidateRawPacket_accepts h clock ctx raw :
  wf_bytes raw -> PoEnabled (HrPolicy h) = true ->
  Accepted (ValidateRawPacket h clock ctx raw).1.1 = true <->
  known_source h (RemoteAddr ctx) /\ within_rate h clock ctx
  /\ exists code identifier authenticator l padding,
       packet_of h raw code identifier authenticator l padding
       /\ sound_packet h (SharedSecret ctx) code identifier authenticator l
       /\ fresh h clock ctx (summary code identifier authenticator l)
       /\ is_Ok (radius_parse (encode_packet code identifier authenticator l) (SharedSecret ctx)) = true.
Proof.
  intros Hwf Hen. unfold ValidateRawPacket. cbv zeta. rewrite Hen. simpl negb. cbv iota. set (ctx' := normalizePacketValidationContext clock ctx).
  destruct (checkSourceAndRate_cases h clock ctx' (with_length (baseValidationResult ctx') (zlen raw))) as (denied & events & h1 & -> & Hsame & Hm & Hnone & Hd).
  change (known_source h (RemoteAddr ctx') /\ within_rate h clock ctx') with (known_source h (RemoteAddr ctx) /\ within_rate h clock ctx) in Hnone.
  destruct denied as [d|]; simpl; [rewrite Hd by done; split; [done | intros (Hk & Hr & _); by specialize (proj2 Hnone (conj Hk Hr))]|].
  destruct (proj1 Hnone eq_refl) as [Hknown Hrate]. destruct Hsame as (Hp & Hl & Ht).
  assert (forall r c i a l p, packet_of h1 r c i a l p <-> packet_of h r c i a l p) as Hpacket by (intros; unfold packet_of; by rewrite Hp, Hl).
  assert (forall s c i a l, sound_packet h1 s c i a l <-> sound_packet h s c i a l) as Hsound by (intros; unfold sound_packet; by rewrite Hp, Hl).
  assert (forall p, fresh h1 clock ctx' p <-> fresh h clock ctx p) as Hfresh by (intros; unfold fresh; by rewrite Hl, Hm).
  destruct (parseRaw h1 raw) as [p|e] eqn:Hparse.
  - apply parseRaw_ok in Hparse as (code & identifier & authenticator & l & padding & Hof & ->); [|done].
    assert (forall c i a l' p, packet_of h raw c i a l' p -> summary c i a l' = summary code identifier authenticator l /\ length a = 16%nat) as Hunique.
    { intros c i a l' pad Hof'. pose proof (parseRaw_encoded h1 raw _ _ _ _ _ Hof) as H1. apply Hpacket in Hof'. pose proof (parseRaw_encoded h1 raw _ _ _ _ _ Hof') as H2.
      destruct Hof' as (_ & Ha & _). split; [congruence | done]. }
    pose proof Hof as (Hraw & Ha & _ & _ & _ & Hgood & _). 
    assert (take (Z.to_nat (PaDeclaredLength (summary code identifier authenticator l))) raw = encode_packet code identifier authenticator l) as -> by (rewrite Hraw; by apply wire_of).
    match goal with |- context [validatePacketShape h1 clock ctx' ?p ?r ?w] =>
      destruct (validatePacketShape_cases h1 clock ctx' p r w) as (denied & h2 & -> & _ & _ & Hshape & Hd2) end.
    rewrite shape_ok_summary, Hsound, Hfresh in Hshape by done. change (SharedSecret ctx') with (SharedSecret ctx) in *.
    assert ((exists c i a l' pad, packet_of h raw c i a l' pad /\ sound_packet h (SharedSecret ctx) c i a l' /\ fresh h clock ctx (summary c i a l')
              /\ is_Ok (radius_parse (encode_packet c i a l') (SharedSecret ctx)) = true)
            <-> (sound_packet h (SharedSecret ctx) code identifier authenticator l /\ fresh h clock ctx (summary code identifier authenticator l))
                /\ is_Ok (radius_parse (encode_packet code identifier authenticator l) (SharedSecret ctx)) = true) as ->.
    { split.
      - intros (c & i & a & l' & pad & Hof' & Hs & Hf & Hr). destruct (Hunique _ _ _ _ _ Hof') as [Heq _].
        assert (c = code /\ i = identifier /\ a = authenticator /\ l' = l) as (-> & -> & -> & ->) by (unfold summary, extended in Heq; simpl in Heq; by injection Heq). done.
      - intros [[Hs Hf] Hr]. exists code, identifier, authenticator, l, padding. by rewrite <- Hpacket. }
    destruct denied as [d|]; simpl.
    + rewrite Hd2 by done. split; [done|]. intros (_ & _ & [Hs _]). by apply Hshape in Hs.
    + pose proof (proj1 Hshape eq_refl). destruct (radius_parse _ _); simpl; (split; [naive_solver | naive_solver]).
  - split; [done|]. intros (_ & _ & code & identifier & authenticator & l & padding & Hof & _). apply Hpacket, parseRaw_encoded in Hof. congruence.
Qed.

(** ** Acceptance of a parsed packet *)

Definition counted (p : parsedRadiusPacket) l : parsedRadiusPacket :=
  mkParsed (PaCode p) (PaIdentifier p) (PaAuthenticator p) (PaDeclaredLength p + zlen (encode_attributes l)) (PaAttributes p)
    (PaMessageAuthenticatorPresent p || has_type radiusTypeMessageAuthenticator l) (PaMessageAuthenticatorOffset p)
    (PaEapMessagePresent p || has_type radiusTypeEAPMessage l) (PaProxyStateCount p + zlen (of_type radiusTypeProxyState l))
    (PaProxyStateBytes p + total_length (of_type radiusTypeProxyState l)).
Definition sized_attribute (a : attribute) : Prop := a.1 = radiusTypeMessageAuthenticator -> zlen a.2 = radiusMessageAuthenticatorBytes.

Lemma count_attribute_ok p (a : attribute) p' : count_attribute p a = Ok p' <-> sized_attribute a /\ p' = counted p [a].
Proof.
  destruct a as [typ value]. unfold count_attribute, counted, has_type, of_type, sized_attribute. simpl.
  destruct (Z.eqb_spec typ radiusTypeMessageAuthenticator) as [->|H80]; simpl;
    [|destruct (Z.eqb_spec typ radiusTypeEAPMessage) as [->|H79]; simpl; [|destruct (Z.eqb_spec typ radiusTypeProxyState) as [->|H33]; simpl]].
  1: destruct (Z.eqb_spec (zlen value) radiusMessageAuthenticatorBytes); simpl; [|split; [done | naive_solver]].
  all: rewrite ?orb_true_r, ?orb_false_r, ?Z.add_0_r, ?zlen_cons, ?app_nil_r, ?zlen_nil;
    (split; [intros [= <-]; split; [done | f_equal; lia] | intros [_ ->]; do 2 f_equal; lia]).
Qed.

Lemma counted_cons p (a : attribute) l : counted p (a :: l) = counted (counted p [a]) l.
Proof.
  unfold counted, has_type, of_type. simpl. rewrite !orb_false_r, !orb_assoc, app_nil_r, !zlen_cons, zlen_app. f_equal; try lia.
  all: destruct (a.1 =? radiusTypeProxyState); simpl; rewrite ?zlen_cons, ?zlen_nil; lia.
Qed.

Lemma count_attributes_ok attributes : forall p p',
  count_attributes attributes p = Ok p' <-> exists l, attributes = Some <$> l /\ Forall sized_attribute l /\ p' = counted p l.
Proof.
  induction attributes as [|[a|] attributes IH]; intros p p'; simpl.
  - split; [intros [= <-]; exists []; split; [done | split; [done|]] | intros (l & Hl & _ & ->); symmetry in Hl; apply fmap_nil_inv in Hl as ->].
    + destruct p. unfold counted. simpl. by rewrite !orb_false_r, !zlen_nil, !Z.add_0_r.
    + destruct p. unfold counted. simpl. by rewrite !orb_false_r, !zlen_nil, !Z.add_0_r.
  - rewrite bind_Ok. setoid_rewrite count_attribute_ok. setoid_rewrite IH. split.
    + intros (p1 & [Ha ->] & l & -> & Hl & ->). exists (a :: l). split; [done|]. split; [by constructor | symmetry; apply (counted_cons p a l)].
    + intros ([|b l] & Hl & Hs & ->); [done|]. rewrite fmap_cons in Hl. injection Hl as <- ->. apply Forall_cons in Hs as [Ha Hs].
      exists (counted p [a]). split; [done|]. exists l. split; [done|]. split; [done | apply (counted_cons p a l)].
  - split; [done|]. intros ([|b l] & Hl & _); [done|]. by rewrite fmap_cons in Hl.
Qed.

(** What the policy asks for without the keyed digest *)
Definition plain_packet h (code : Z) l : Prop :=
  packetCodeAllowed code (HrPolicy h) = true
  /\ zlen (of_type radiusTypeProxyState l) <= MaxProxyStateAttributes (HrLimits h) /\ total_length (of_type radiusTypeProxyState l) <= MaxProxyStateBytes (HrLimits h)
  /\ (messageAuthenticatorRequired (HrPolicy h) code (has_type radiusTypeEAPMessage l) = true -> has_type radiusTypeMessageAuthenticator l = true).

Lemma ValidatePacket_accepts h clock ctx packet :
  PoEnabled (HrPolicy h) = true ->
  Accepted (ValidatePacket h clock ctx (Some packet)).1.1 = true <->
  known_source h (RemoteAddr ctx) /\ within_rate h clock ctx /\ zlen (PkAttributes packet) <= MaxAttributesPerPacket (HrLimits h)
  /\ exists l, PkAttributes packet = Some <$> l /\ Forall sized_attribute l /\ radiusHeaderBytes + zlen (encode_attributes l) <= MaxPacketBytes (HrLimits h)
       /\ plain_packet h (to_byte (PkCode packet)) l /\ fresh h clock ctx (summary (to_byte (PkCode packet)) (PkIdentifier packet) (PkAuthenticator packet) l).
Proof.
  intros Hen. unfold ValidatePacket. cbv zeta. rewrite Hen. simpl negb. cbv iota. set (ctx' := normalizePacketValidationContext clock ctx).
  cbn [AttributeCount with_header baseValidationResult]. destruct (Z.gtb_spec (zlen (PkAttributes packet)) (MaxAttributesPerPacket (HrLimits h))) as [|Hmax].
  { split; [done | intros (_ & _ & ? & _); lia]. }
  match goal with |- context [checkSourceAndRate h clock ctx' ?r] =>
    destruct (checkSourceAndRate_cases h clock ctx' r) as (denied & events & h1 & -> & Hsame & Hm & Hnone & Hd) end.
  change (known_source h (RemoteAddr ctx') /\ within_rate h clock ctx') with (known_source h (RemoteAddr ctx) /\ within_rate h clock ctx) in Hnone.
  destruct denied as [d|]; simpl; [rewrite Hd by done; split; [done | intros (Hk & Hr & _); by specialize (proj2 Hnone (conj Hk Hr))]|].
  destruct (proj1 Hnone eq_refl) as [Hknown Hrate]. destruct Hsame as (Hp & Hl & Ht). rewrite Hl.
  match goal with |- context [count_attributes ?l ?p] => pose proof (count_attributes_ok l p) as Hcount; destruct (count_attributes l p) as [p'|e] end.
  - destruct (proj1 (Hcount p') eq_refl) as (l & Hattr & Hsized & ->). cbn [PaDeclaredLength counted PacketLength with_length].
    destruct (Z.gtb_spec (radiusHeaderBytes + zlen (encode_attributes l)) (MaxPacketBytes (HrLimits h))) as [|Hbytes].
    { split; [done|]. intros (_ & _ & _ & k & Hk & _ & ? & _). rewrite Hattr in Hk. apply (inj (fmap Some)) in Hk as <-. lia. }
    match goal with |- context [validatePacketShape h1 clock ctx' ?p ?r ?w] =>
      destruct (validatePacketShape_cases h1 clock ctx' p r w) as (denied & h2 & -> & _ & _ & Hshape & Hd2) end.
    assert (denied = None <-> plain_packet h (to_byte (PkCode packet)) l
              /\ fresh h clock ctx (summary (to_byte (PkCode packet)) (PkIdentifier packet) (PkAuthenticator packet) l)) as Hshape'.
    { rewrite Hshape. unfold shape_ok, plain_packet, fresh. rewrite Hp, Hl, Hm. simpl. rewrite !Z.add_0_l. naive_solver. }
    destruct denied as [d|]; simpl.
    + rewrite Hd2 by done. split; [done|]. intros (_ & _ & _ & k & Hk & _ & _ & Hs). rewrite Hattr in Hk. apply (inj (fmap Some)) in Hk as <-.
      by specialize (proj2 Hshape' Hs).
    + split; [intros _ | done]. destruct (proj1 Hshape' eq_refl). split; [done|]. split; [done|]. split; [lia|]. exists l. split; [done|]. split; [done|]. split; [lia | done].
  - split; [done|]. intros (_ & _ & _ & l & Hattr & Hsized & _). specialize (proj2 (Hcount _) (ex_intro _ l (conj Hattr (conj Hsized eq_refl)))) as H. done.
Qed.

(** The two entries agree, but for the keyed digest: the encoding of a packet is accepted as bytes exactly if the packet is accepted once it
    is parsed, its last Message-Authenticator is the keyed digest, and the RADIUS library can parse it. [ValidatePacket] does not look at the digest. *)
Theorem raw_and_packet_agree h clock ctx code identifier authenticator l (raw := encode_packet code identifier authenticator l) :
  wf_bytes raw -> length authenticator = 16%nat -> Forall good_attribute l ->
  PoEnabled (HrPolicy h) = true -> MaxPacketBytes (HrLimits h) <= radiusMaxPacketBytes -> 0 < MaxAttributesPerPacket (HrLimits h) ->
  Accepted (ValidateRawPacket h clock ctx raw).1.1 = true <->
  Accepted (ValidatePacket h clock ctx (Some (mkPacket code identifier authenticator (SharedSecret ctx) (Some <$> l)))).1.1 = true
  /\ (forall pre mac post, l = pre ++ (radiusTypeMessageAuthenticator, mac) :: post -> no_authenticator post -> SharedSecret ctx <> [] ->
        mac = authenticator_value (SharedSecret ctx) code identifier authenticator pre post)
  /\ is_Ok (radius_parse raw (SharedSecret ctx)) = true.
Proof.
  intros Hwf Ha Hgood Hen H4096 Hattrs. rewrite ValidateRawPacket_accepts by done. rewrite ValidatePacket_accepts by done. cbn [PkCode PkIdentifier PkAuthenticator PkAttributes].
  assert (to_byte code = code) as -> by (apply to_byte_small; by inversion Hwf).
  pose proof (zlen_encode_packet code identifier authenticator l Ha) as Hlen. fold raw in Hlen.
  assert (zlen (Some <$> l) = zlen l) as -> by (unfold zlen; by rewrite length_fmap).
  split.
  - intros (Hknown & Hrate & c & i & a & k & padding & Hof & Hsound & Hfresh & Hparse).
    assert (summary c i a k = summary code identifier authenticator l) as Heq.
    { pose proof (parseRaw_encoded h raw _ _ _ _ _ Hof) as H1. destruct Hof as (Hraw & Ha' & Hmax & H4 & Hpad & Hgood' & Hk).
      assert (packet_of (mkHardener (HrPolicy h) (mkLimits (MaxPacketBytes (HrLimits h)) (zlen l + MaxAttributesPerPacket (HrLimits h)) 0 0 false 0 0 false 0 0 0) [] ∅ ∅) raw code identifier authenticator l []) as Hof2.
      { repeat split; simpl; [by rewrite app_nil_r | done | done | unfold raw in *; lia | by left | done | right; lia]. }
      assert (packet_of (mkHardener (HrPolicy h) (mkLimits (MaxPacketBytes (HrLimits h)) (zlen l + MaxAttributesPerPacket (HrLimits h)) 0 0 false 0 0 false 0 0 0) [] ∅ ∅) raw c i a k padding) as Hof1.
      { repeat split; simpl; [done | done | done | done | done | done |]. pose proof (zlen_nonneg l). destruct Hk as [?|?]; [by left | right; lia]. }
      apply parseRaw_encoded in Hof1, Hof2. congruence. }
    assert (c = code /\ i = identifier /\ a = authenticator /\ k = l) as (-> & -> & -> & ->) by (unfold summary, extended in Heq; simpl in Heq; by injection Heq).
    destruct Hof as (_ & _ & Hmax & _ & _ & _ & Hk). destruct Hsound as (? & ? & ? & ? & Hma).
    repeat split; [done | done | destruct Hk as [->|?]; [rewrite zlen_nil; lia | done] | | done | done].
    exists l. split; [done|]. split; [|split; [lia | done]]. eapply Forall_impl; [exact Hgood|]. by intros ? [_ ?].
  - intros ((Hknown & Hrate & Hmax & k & Hk & _ & Hbytes & (? & ? & ? & ?) & Hfresh) & Hma & Hparse). apply (inj (fmap Some)) in Hk as <-.
    split; [done|]. split; [done|]. exists code, identifier, authenticator, l, []. split; [|done].
    repeat split; [by rewrite app_nil_r | done | lia | unfold raw in *; lia | by left | done | by right].
Qed.
End acceptance.

(** ** The table of decisions ([internal/db/radius_packet_hardening.go]) *)

(** A row of [radius_packet_hardening_events]; [observed_at] in seconds *)
Record HardeningEvent := mkEvent {
  EvID : Z; EvObservedAt : Z; EvSourceIP : string; EvDirection : string; EvPacketCode : string; EvPacketIdentifier : Z; EvDecision : string; EvReason : string;
  EvPacketLength : Z; EvAttributeCount : Z; EvProxyStateCount : Z; EvProxyStateBytes : Z; EvMessageAuthenticator : bool; EvReplay : bool; EvRateLimited : bool }.
(** The rows by id, and the last id that was given out *)
Record EventTable := mkEventTable { EventRows : list HardeningEvent; EventSequence : Z }.

Section decisions.
Context {U : Unicode}.

Definition event_newer (a b : HardeningEvent) : bool := (EvObservedAt b <? EvObservedAt a) || (EvObservedAt a =? EvObservedAt b) && (EvID b <? EvID a).
Definition newest_events (n : Z) (rows : list HardeningEvent) : list HardeningEvent := take (Z.to_nat n) (sort_by event_newer rows).

Definition trimRadiusPacketHardeningEvents (maxRows : Z) (t : EventTable) : EventTable :=
  if maxRows <=? 0 then t
  else mkEventTable (List.filter (fun e => bool_decide (EvID e ∈ EvID <$> newest_events maxRows (EventRows t))) (EventRows t)) (EventSequence t).

Definition RecordRadiusPacketHardeningEvent (event : HardeningEvent) (retentionLimit : Z) (t : EventTable) : EventTable :=
  let retentionLimit := if retentionLimit <=? 0 then 6000 else retentionLimit in
  let id := EventSequence t + 1 in
  let row := mkEvent id (EvObservedAt event) (TrimSpace (EvSourceIP event)) (TrimSpace (EvDirection event)) (TrimSpace (EvPacketCode event)) (EvPacketIdentifier event)
               (TrimSpace (EvDecision event)) (TrimSpace (EvReason event)) (EvPacketLength event) (EvAttributeCount event) (EvProxyStateCount event)
               (EvProxyStateBytes event) (EvMessageAuthenticator event) (EvReplay event) (EvRateLimited event) in
  trimRadiusPacketHardeningEvents retentionLimit (mkEventTable (EventRows t ++ [row]) id).

Definition ListRadiusPacketHardeningEvents (limit : Z) (t : EventTable) : list HardeningEvent :=
  newest_events (if limit <=? 0 then 100 else limit) (EventRows t).

(** Also the status it reports: whether the last packet was accepted *)
Definition RecordPacketHardeningDecision (cfg : option RadiusConfig) (now : Z) (r : PacketValidationResult) (t : EventTable) : EventTable * string :=
  let decision := if (TrimSpace (Decision r) =? "")%string then (if Accepted r then "accepted" else "rejected") else Decision r in
  let retention := match cfg with Some _ => EventRetentionLimit (effectivePacketHardening cfg).2 | None => 0 end in
  (RecordRadiusPacketHardeningEvent
     (mkEvent 0 now (SourceIP r) (Direction r) (PacketCode r) (ResIdentifier r) decision (Reason r) (PacketLength r) (AttributeCount r) (ProxyStateCount r)
        (ProxyStateBytes r) (MessageAuthenticatorPresent r) (ReplayDetected r) (RateLimited r)) retention t,
   if Accepted r then "ok" else "degraded").

(** Ids are given out once, in order. *)
Definition events_ok (t : EventTable) : Prop := NoDup (EvID <$> EventRows t) /\ Forall (fun e => EvID e <= EventSequence t) (EventRows t).

Lemma NoDup_filtered {A} (f : HardeningEvent -> A) keep rows : NoDup (f <$> rows) -> NoDup (f <$> List.filter keep rows).
Proof.
  intros Hnodup. eapply sublist_NoDup; [exact Hnodup|]. apply fmap_sublist. induction rows as [|e rows IH]; simpl; [done|].
  rewrite fmap_cons in Hnodup. apply NoDup_cons in Hnodup as [_ Hnodup]. split_if; constructor; auto.
Qed.
Lemma trim_ok maxRows t : events_ok t -> events_ok (trimRadiusPacketHardeningEvents maxRows t).
Proof.
  intros [Hnodup Hseq]. unfold trimRadiusPacketHardeningEvents. split_if; [done|]. split; simpl; [by apply NoDup_filtered|].
  rewrite Forall_forall in *. intros e He. apply list_elem_of_In, filter_In in He as [He _]. apply Hseq. by apply list_elem_of_In.
Qed.

Lemma trim_bounded maxRows t : 0 < maxRows -> events_ok t -> zlen (EventRows (trimRadiusPacketHardeningEvents maxRows t)) <= maxRows.
Proof.
  intros Hmax [Hnodup _]. unfold trimRadiusPacketHardeningEvents. destruct (Z.leb_spec maxRows 0); [lia|]. simpl.
  set (kept := EvID <$> newest_events maxRows (EventRows t)).
  assert (length (EvID <$> List.filter (fun e => bool_decide (EvID e ∈ kept)) (EventRows t)) <= length kept)%nat as Hle.
  { apply NoDup_incl_length.
    - apply NoDup_ListNoDup. by apply NoDup_filtered.
    - intros id Hid. apply list_elem_of_In. apply list_elem_of_In, list_elem_of_fmap in Hid as (e & -> & He). apply list_elem_of_In, filter_In in He as [_ He].
      by apply bool_decide_eq_true in He. }
  assert (length kept <= Z.to_nat maxRows)%nat by (unfold kept, newest_events; rewrite length_fmap, length_take; lia).
  rewrite length_fmap in Hle. unfold zlen. lia.
Qed.

(** The table never holds more than the retention limit. *)
Lemma decisions_bounded cfg now r t (limit := match cfg with Some _ => EventRetentionLimit (effectivePacketHardening cfg).2 | None => 6000 end) :
  events_ok t -> events_ok (RecordPacketHardeningDecision cfg now r t).1 /\ zlen (EventRows (RecordPacketHardeningDecision cfg now r t).1) <= limit.
Proof.
  intros [Hnodup Hseq]. unfold RecordPacketHardeningDecision, RecordRadiusPacketHardeningEvent. simpl fst. cbv zeta.
  match goal with |- context [trimRadiusPacketHardeningEvents ?m ?x] => set (t' := x); assert (0 < m) as Hpos; [|assert (m = limit) as Hm] end.
  - by apply defaultInt_pos.
  - subst limit. destruct cfg as [c|]; [|done]. simpl. pose proof (defaultInt_pos (CfEventRetentionLimit (RcHardening c)) 6000 ltac:(lia)).
    destruct (Z.leb_spec (defaultInt (CfEventRetentionLimit (RcHardening c)) 6000) 0); lia.
  - rewrite Hm in *. assert (events_ok t') as Hok; [|split; [by apply trim_ok | by apply trim_bounded]].
    subst t'. split; simpl.
    + rewrite fmap_app. apply NoDup_app. split; [done|]. split; [|by apply NoDup_singleton]. intros id Hid Hnew. apply list_elem_of_singleton in Hnew as ->. simpl in Hid.
      apply list_elem_of_fmap in Hid as (e & He & Hin). rewrite Forall_forall in Hseq. specialize (Hseq e Hin). lia.
    + apply Forall_app. split; [|by constructor; simpl; [lia|]]. eapply Forall_impl; [exact Hseq|]. simpl. lia.
Qed.
End decisions.

(** ** Concrete runs *)

Module example.

(** Addresses that are their text, rounding that does not round, and a RADIUS library that reads what [parse_attributes] reads. *)
#[local] Instance addresses : SourceAddress := {| IP := string; ParseIP text := Some text; SameIP := String.eqb; ParseCIDR _ := None; SplitHostPort text := Some text |}.
#[local] Instance exact : Rounding := Qred.
#[local] Instance library : RadiusParse := fun wire secret =>
  match parseRaw (mkHardener (mkPolicy true true true true true true "" []) (mkLimits 4096 4096 0 0 false 0 0 false 0 0 0) [] ∅ ∅) wire with
  | Ok p => Ok (mkPacket (PaCode p) (PaIdentifier p) (PaAuthenticator p) secret (Some <$> PaAttributes p))
  | Err e => Err e
  end.

Definition hardening (maxEntries : Z) : option RadiusConfig :=
  Some (mkRadiusConfig (mkHardeningConfig true true true false true false "" 0 0 0 0 true 30 maxEntries true 0 0 [] 0) ["192.0.2.10"] false [] "s" None).
Definition client : PacketValidationContext := mkContext (Some "192.0.2.10") "authentication" None [115; 101; 99].
Definition authenticator : list Z := repeat 9 16.
(** An Access-Request without attributes, and a Status-Server request with its Message-Authenticator *)
Definition request (identifier : Z) : list Z := encode_packet CodeAccessRequest identifier authenticator [].
Definition status_value : list Z := Eval vm_compute in authenticator_value [115; 101; 99] CodeStatusServer 5 authenticator [(1, [97])] [].
Definition status_attributes : list attribute := [(1, [97]); (radiusTypeMessageAuthenticator, status_value)].
Definition status_request : list Z := Eval vm_compute in encode_packet CodeStatusServer 5 authenticator status_attributes.

Lemma status_pieces pre mac post : status_attributes = pre ++ (radiusTypeMessageAuthenticator, mac) :: post -> no_authenticator post ->
  mac = authenticator_value [115; 101; 99] CodeStatusServer 5 authenticator pre post.
Proof.
  destruct pre as [|a [|b [|c pre]]]; simpl; intros [=]; subst.
  - vm_compute. reflexivity.
Qed.

Definition start : PacketHardener := NewPacketHardener (hardening 16).
Definition call_at (at_ identifier : Z) : call := RawCall at_ client (request identifier).

Lemma repeated_packet_refused_witness : accepts (run (serve start (call_at 0 1)).2 [call_at 1 2]) (call_at second 1) = false.
Proof.
  apply (repeated_packet_refused start (call_at 0 1) [call_at 1 2] (call_at second 1)); [vm_compute; reflexivity.. | vm_compute; discriminate | | reflexivity | reflexivity].
  repeat (constructor; [vm_compute; reflexivity|]). constructor.
Defined.

(** Three packets and a cache for one *)
Definition full : PacketHardener := run (NewPacketHardener (hardening 1)) [call_at 0 1; call_at 1 2].
Lemma full_cache_forgets_witness : exists k e, Replays full !! k = Some e /\ instant (call_at 2 3) < e
  /\ (k = call_key (call_at 2 3) \/ forall now, (note_replay (HrLimits full) now k (Replays (serve full (call_at 2 3)).2)).1 = false).
Proof.
  apply (full_cache_forgets full (call_at 2 3)); [vm_compute; reflexivity | vm_compute; reflexivity | vm_compute; discriminate | vm_compute; reflexivity | | vm_compute; reflexivity].
  apply (bool_decide_unpack (map_Forall (fun _ e => 2 < e) (Replays full))). vm_compute. exact I.
Defined.

Lemma ValidateRawPacket_accepts_witness :
  Accepted (ValidateRawPacket start 0 client (request 1)).1.1 = true <->
  known_source start (RemoteAddr client) /\ within_rate start 0 client
  /\ exists code identifier authenticator l padding,
       packet_of start (request 1) code identifier authenticator l padding
       /\ sound_packet start (SharedSecret client) code identifier authenticator l
       /\ fresh start 0 client (summary code identifier authenticator l)
       /\ is_Ok (radius_parse (encode_packet code identifier authenticator l) (SharedSecret client)) = true.
Proof. apply (ValidateRawPacket_accepts start 0 client (request 1)); [apply (bool_decide_unpack _); vm_compute; exact I | vm_compute; reflexivity]. Defined.

Lemma raw_and_packet_agree_witness :
  Accepted (ValidateRawPacket start 0 client status_request).1.1 = true <->
  Accepted (ValidatePacket start 0 client (Some (mkPacket CodeStatusServer 5 authenticator (SharedSecret client) (Some <$> status_attributes)))).1.1 = true
  /\ (forall pre mac post, status_attributes = pre ++ (radiusTypeMessageAuthenticator, mac) :: post -> no_authenticator post -> SharedSecret client <> [] ->
        mac = authenticator_value (SharedSecret client) CodeStatusServer 5 authenticator pre post)
  /\ is_Ok (radius_parse status_request (SharedSecret client)) = true.
Proof.
  apply (raw_and_packet_agree start 0 client CodeStatusServer 5 authenticator status_attributes); [| vm_compute; reflexivity | | vm_compute; reflexivity | vm_compute; discriminate | vm_compute; reflexivity].
  - apply (bool_decide_unpack _). vm_compute. exact I.
  - repeat constructor; vm_compute; first [discriminate | reflexivity | intros; reflexivity].
Defined.

Lemma parseRaw_spec_witness :
  parseRaw start status_request = Ok (summary CodeStatusServer 5 authenticator status_attributes) <->
  exists code identifier a l padding, packet_of start status_request code identifier a l padding
    /\ summary CodeStatusServer 5 authenticator status_attributes = summary code identifier a l.
Proof. apply (parseRaw_spec start status_request). apply (bool_decide_unpack _). vm_compute. exact I. Defined.

(** What the two entries answer *)
Example status_accepted : Accepted (ValidateRawPacket start 0 client status_request).1.1 = true.
Proof. vm_compute. reflexivity. Qed.
Example digest_not_verified :
  let packet := mkPacket CodeStatusServer 5 authenticator [115; 101; 99] [Some (1, [97]); Some (radiusTypeMessageAuthenticator, repeat 0 16)] in
  Accepted (ValidatePacket start 0 client (Some packet)).1.1 = true
  /\ Reason (ValidateRawPacket start 0 client (encode_packet CodeStatusServer 5 authenticator [(1, [97]); (radiusTypeMessageAuthenticator, repeat 0 16)])).1.1
     = "invalid_message_authenticator".
Proof. vm_compute. split; reflexivity. Qed.
End example.
