(* ===== verification/PacketRate.v ===== *)
(** * The rate limit of RADIUS packets

    The token buckets of [PacketHardening.allowRate] compute in [float64]. With the error of one rounding as the law of [round64], the number
    of packets that a source gets through is bounded by the burst and the rate, up to an error that the theorem states. *)

From S2P Require Import Prelude GoStrings Bytes PacketHardening.
From Stdlib Require Import QArith Lqa.
#[local] Open Scope Z_scope.

(** ** The rate *)

(** [float64] rounds to nearest: a relative error of half a unit in the last place, or half the smallest subnormal, where nothing overflows;
    it keeps the sign, and the integers up to 2^53. *)
Definition unit_error : Q := 1 # 9007199254740992.
Definition smallest : Q := 1 # (2 ^ 1075).
Class RoundingLaws `{Rounding} : Prop := {
  round_error (q : Q) : (0 <= q <= inject_Z (2 ^ 1000))%Q -> (round64 q <= q + unit_error * q + smallest)%Q;
  round_sign (q : Q) : (0 <= q)%Q -> (0 <= round64 q)%Q;
  round_int (z : Z) : 0 <= z <= 9007199254740992 -> (round64 (inject_Z z) == inject_Z z)%Q }.

Section rate.
Context {RO : Rounding} {RL : RoundingLaws}.
#[local] Open Scope Q_scope.

Definition large : Q := 1000000000000000000000000000000 # 1.
Lemma smallest_small : 0 <= smallest <= 1 # 1000000000000000000000000000000.
Proof. split; vm_compute; discriminate. Qed.
#[local] Opaque smallest.
Lemma large_fits : large <= inject_Z (2 ^ 1000).
Proof. vm_compute. discriminate. Qed.
Lemma round_upper q m : 0 <= q -> q <= m -> m <= large -> round64 q <= m + unit_error * m + smallest.
Proof.
  intros Hq Hm Hbig. pose proof (round_error q (conj Hq (Qle_trans _ _ _ Hm (Qle_trans _ _ _ Hbig large_fits)))) as He.
  unfold unit_error in *. lra.
Qed.

(** Tokens that [d] nanoseconds bring, with the errors of three roundings *)
Definition gain (rate d : Z) : Q := inject_Z rate * (inject_Z d / inject_Z second) * ((1 + unit_error) * (1 + unit_error) * (1 + unit_error)).

Lemma Seconds_bounds d : (0 <= d < 2 ^ 63)%Z ->
  0 <= Seconds d /\ Seconds d <= (inject_Z d / inject_Z second) * ((1 + unit_error) * (1 + unit_error)) + 3 * smallest.
Proof using RL.
  intros Hd. change (2 ^ 63)%Z with 9223372036854775808%Z in Hd. unfold Seconds. pose proof (Z.quot_rem d second ltac:(done)) as Hqr. pose proof (Z.rem_bound_pos d second ltac:(lia) ltac:(unfold second; lia)) as Hr.
  assert (0 <= Z.quot d second <= 9223372036)%Z as Hquot 
    by (rewrite Z.quot_div_nonneg by (unfold second; lia); split; [apply Z.div_pos; unfold second; lia | apply Z.lt_succ_r, Z.div_lt_upper_bound; unfold second; lia]).
  unfold float. assert (round64 (inject_Z (Z.quot d second)) == inject_Z (Z.quot d second)) as Ha by (apply round_int; lia).
  assert (round64 (inject_Z (Z.rem d second)) == inject_Z (Z.rem d second)) as Hb by (apply round_int; unfold second in *; lia).
  assert (inject_Z d == inject_Z second * inject_Z (Z.quot d second) + inject_Z (Z.rem d second)) as Hdq by (rewrite <- inject_Z_mult, <- inject_Z_plus, <- Hqr; reflexivity).
  assert (0 <= inject_Z (Z.quot d second) <= 9223372036 # 1) as Hq by (split; [change 0 with (inject_Z 0) | change (9223372036 # 1) with (inject_Z 9223372036)]; rewrite <- Zle_Qle; lia).
  assert (0 <= inject_Z (Z.rem d second) <= 1000000000 # 1) as Hrem by (split; [change 0 with (inject_Z 0) | change (1000000000 # 1) with (inject_Z 1000000000)]; rewrite <- Zle_Qle; unfold second in *; lia).
  set (a := round64 (inject_Z (Z.quot d second))) in *. set (b := round64 (inject_Z (Z.rem d second))) in *.
  set (qa := inject_Z (Z.quot d second)) in *. set (qb := inject_Z (Z.rem d second)) in *. clearbody a b qa qb.
  unfold Qdiv in *. change (/ inject_Z second) with (1 # 1000000000) in *. change (inject_Z second) with (1000000000 # 1) in *. pose proof smallest_small.
  assert (0 <= round64 (b * (1 # 1000000000))) as Hc0 by (apply round_sign; lra).
  assert (round64 (b * (1 # 1000000000)) <= qb * (1 # 1000000000) + unit_error * (qb * (1 # 1000000000)) + smallest) as Hc by (apply round_upper; unfold large; lra).
  set (c := round64 (b * (1 # 1000000000))) in *. clearbody c.
  unfold unit_error in *. split; [apply round_sign; lra|].
  assert (round64 (a + c) <= (a + c) + (1 # 9007199254740992) * (a + c) + smallest) by (apply (round_upper (a + c) (a + c)); unfold large; lra).
  lra.
Qed.

(** The error of one call *)
Definition slack (burst : Z) : Q := 4 * unit_error * inject_Z burst.

Lemma product_le el x bound r : 0 <= el -> el <= bound -> x == r -> 0 <= r -> el * x <= bound * r.
Proof. intros He Hb Hx Hr. rewrite Hx. by apply Qmult_le_compat_r. Qed.

Lemma Qltb_lt x y : Qltb x y = true <-> x < y.
Proof. unfold Qltb. rewrite negb_true_iff. rewrite <- not_true_iff_false, Qle_bool_iff. split; [apply Qnot_le_lt | apply Qlt_not_le]. Qed.
Lemma Qltb_ge x y : Qltb x y = false <-> y <= x.
Proof. unfold Qltb. by rewrite negb_false_iff, Qle_bool_iff. Qed.

Context (rate burst : Z).
Context (Hrate : (1 <= rate <= 100000)%Z) (Hburst : (1 <= burst <= 1000000)%Z).

Lemma rate_Q : 1 <= inject_Z rate <= 100000 # 1.
Proof using Hrate. split; [change 1 with (inject_Z 1) | change (100000 # 1) with (inject_Z 100000)]; rewrite <- Zle_Qle; lia. Qed.
Lemma burst_Q : 1 <= inject_Z burst <= 1000000 # 1.
Proof using Hburst. split; [change 1 with (inject_Z 1) | change (1000000 # 1) with (inject_Z 1000000)]; rewrite <- Zle_Qle; lia. Qed.

Lemma brought d : (0 <= d < 2 ^ 63)%Z ->
  0 <= round64 (Seconds d * float rate) /\ round64 (Seconds d * float rate) <= gain rate d + 400000 * smallest.
Proof using RL Hrate.
  intros Hd. destruct (Seconds_bounds d Hd) as [H0 Hs]. pose proof rate_Q as Hr. pose proof smallest_small.
  assert (float rate == inject_Z rate) as Hfr by (apply round_int; lia).
  assert (0 <= inject_Z d / inject_Z second <= 10000000000 # 1) as HD.
  { assert (0 <= inject_Z d <= inject_Z 9223372036854775808) as [? ?] by (split; [change 0 with (inject_Z 0)|]; rewrite <- Zle_Qle; lia).
    unfold Qdiv. change (/ inject_Z second) with (1 # 1000000000). change (inject_Z 9223372036854775808) with (9223372036854775808 # 1) in *. lra. }
  unfold gain. set (D := inject_Z d / inject_Z second) in *. set (R := inject_Z rate) in *. set (el := Seconds d) in *. set (fr := float rate) in *. clearbody D R el fr.
  assert (0 <= el * fr) as Hpos by (rewrite Hfr; apply Qmult_le_0_compat; lra).
  pose proof (product_le el fr _ R H0 Hs Hfr ltac:(lra)) as Hprod.
  assert (smallest * R <= smallest * (100000 # 1)) as HsR by (rewrite !(Qmult_comm smallest); apply Qmult_le_compat_r; lra).
  assert (R * D <= (100000 # 1) * (10000000000 # 1)) as HRD.
  { apply Qle_trans with ((100000 # 1) * D); [apply Qmult_le_compat_r; lra | lra]. }
  assert (el * fr <= R * D * ((1 + unit_error) * (1 + unit_error)) + 300000 * smallest) as Hm by (unfold unit_error in *; lra).
  split; [by apply round_sign|].
  pose proof (round_upper (el * fr) _ Hpos Hm) as Hx. unfold unit_error, large in *. 
  assert (R * D * ((1 + (1 # 9007199254740992)) * (1 + (1 # 9007199254740992))) + 300000 * smallest <= 1000000000000000000000000000000 # 1) as Hl by lra.
  specialize (Hx Hl). lra.
Qed.

(** The tokens of a bucket after a refill, and after a token was taken *)
Lemma refilled_bounds now b :
  0 <= Tokens b -> Tokens b <= inject_Z burst -> (0 <= now - SeenAt b < 2 ^ 63)%Z ->
  0 <= refilled rate burst now b /\ refilled rate burst now b <= inject_Z burst
  /\ refilled rate burst now b <= Tokens b + gain rate (now - SeenAt b) + unit_error * inject_Z burst + 500000 * smallest.
Proof using All.
  intros Ht0 HtB Hd. destruct (brought _ Hd) as [Hx0 Hx]. destruct (Seconds_bounds _ Hd) as [Hs0 _]. pose proof burst_Q as HB. pose proof smallest_small.
  assert (float burst == inject_Z burst) as HfB by (apply round_int; lia).
  unfold refilled. apply Qltb_ge in Hs0. rewrite Hs0. cbv zeta. set (x := round64 (Seconds (now - SeenAt b) * float rate)) in *.
  set (G := gain rate (now - SeenAt b)) in *. set (B := inject_Z burst) in *. set (tok := Tokens b) in *. set (fB := float burst) in *. clearbody x G B tok fB.
  pose proof (round_sign (tok + x) ltac:(lra)) as Hround.
  destruct (Qlt_le_dec B (tok + x)) as [Hover|Hfits].
  - destruct (Qltb fB (round64 (tok + x))) eqn:E; [unfold unit_error; lra|]. apply Qltb_ge in E. unfold unit_error. lra.
  - assert (round64 (tok + x) <= (tok + x) + unit_error * (tok + x) + smallest) as Hu by (apply round_upper; unfold large; lra).
    destruct (Qltb fB (round64 (tok + x))) eqn:E; [apply Qltb_lt in E | apply Qltb_ge in E]; unfold unit_error in *; lra.
Qed.

Definition allowed_Q (allowed : bool) : Q := if allowed then 1 else 0.

Lemma take_token_bounds now b :
  0 <= Tokens b -> Tokens b <= inject_Z burst -> (0 <= now - SeenAt b < 2 ^ 63)%Z ->
  let '(allowed, b') := take_token rate burst now (Some b) in
  0 <= Tokens b' /\ Tokens b' <= inject_Z burst /\ SeenAt b' = now
  /\ Tokens b' + allowed_Q allowed <= Tokens b + gain rate (now - SeenAt b) + slack burst.
Proof using All.
  intros Ht0 HtB Hd. destruct (refilled_bounds now b Ht0 HtB Hd) as (Hr0 & HrB & Hr). pose proof burst_Q as HB. pose proof smallest_small.
  unfold take_token, slack. set (t := refilled rate burst now b) in *. set (B := inject_Z burst) in *. set (G := gain rate (now - SeenAt b)) in *. clearbody t B G.
  destruct (Qltb t 1) eqn:E; simpl.
  - unfold unit_error in *. repeat split; lra.
  - apply Qltb_ge in E. assert (0 <= round64 (t - 1)) by (apply round_sign; lra).
    assert (round64 (t - 1) <= (t - 1) + unit_error * (t - 1) + smallest) as Hu by (apply round_upper; unfold large; lra).
    unfold unit_error in *. repeat split; lra.
Qed.

Lemma take_token_first now :
  let '(allowed, b') := take_token rate burst now None in
  0 <= Tokens b' /\ Tokens b' <= inject_Z burst /\ SeenAt b' = now /\ Tokens b' + allowed_Q allowed <= inject_Z burst + slack burst.
Proof using All.
  simpl. pose proof burst_Q as HB. pose proof smallest_small. assert (float burst == inject_Z burst) as HfB by (apply round_int; lia).
  unfold slack. set (B := inject_Z burst) in *. set (fB := float burst) in *. clearbody B fB.
  assert (0 <= round64 (fB - 1)) by (apply round_sign; lra).
  assert (round64 (fB - 1) <= (fB - 1) + unit_error * (fB - 1) + smallest) as Hu by (apply round_upper; unfold large; lra).
  unfold unit_error in *. repeat split; lra.
Qed.
End rate.

(** ** A source's packets over time *)

(** The instants of the calls do not go back, and lie between two given ones. *)
Fixpoint in_time (from until : Z) (calls : list call) : Prop :=
  match calls with [] => from <= until | c :: calls => from <= instant c /\ in_time (instant c) until calls end.

Section over_time.
Context {U : Unicode} {SA : SourceAddress} {RO : Rounding} {RP : RadiusParse} {MR : MapRange} {RL : RoundingLaws}.
Implicit Types (h : PacketHardener).

(** The bucket of a call, and the packets that get through from it *)
Definition bucket_of (c : call) : string := if (source_of c =? "")%string then "unknown" else source_of c.
Fixpoint accepted_from (source : string) h (calls : list call) : Z :=
  match calls with
  | [] => 0
  | c :: calls => (if accepts h c && bool_decide (bucket_of c = source) then 1 else 0) + accepted_from source (serve h c).2 calls
  end.

Lemma validatePacketShape_buckets h clock ctx p r wire : Buckets (validatePacketShape h clock ctx p r wire).2 = Buckets h.
Proof. unfold validatePacketShape, replaySeen. repeat split_if; try done; by destruct (note_replay _ _ _ _) as [[] ?]. Qed.

(** What [allowRate] does to the buckets *)
Definition taken h (c : call) h' (accepted : bool) : Prop :=
  let '(allowed, b) := take_token (PerClientRateLimitPerSecond (HrLimits h)) (PerClientBurst (HrLimits h)) (instant c) (Buckets h !! bucket_of c) in
  Buckets h' = <[bucket_of c := b]> (Buckets h) /\ (accepted = true -> allowed = true).

Lemma allowRate_taken h clock ctx (c : call) :
  0 < PerClientRateLimitPerSecond (HrLimits h) -> 0 < PerClientBurst (HrLimits h) -> now_of clock ctx = instant c -> remoteHost (RemoteAddr ctx) = source_of c ->
  taken h c (allowRate h clock ctx).2 (allowRate h clock ctx).1.
Proof.
  intros Hr Hb Hnow Hsource. unfold taken, allowRate, bucket_of. rewrite Hnow, Hsource. cbv zeta.
  destruct (Z.leb_spec (PerClientRateLimitPerSecond (HrLimits h)) 0); [lia|]. destruct (Z.leb_spec (PerClientBurst (HrLimits h)) 0); [lia|]. simpl orb. cbv iota.
  by destruct (take_token _ _ _ _) as [allowed b].
Qed.

Lemma checkSourceAndRate_taken h clock ctx r (c : call) (out := checkSourceAndRate h clock ctx r) :
  RateLimitEnabled (HrLimits h) = true -> 0 < PerClientRateLimitPerSecond (HrLimits h) -> 0 < PerClientBurst (HrLimits h) ->
  now_of clock ctx = instant c -> remoteHost (RemoteAddr ctx) = source_of c ->
  (exists d, out.1.1 = Some d /\ Accepted d = false /\ Buckets out.2 = Buckets h) \/ taken h c out.2 (match out.1.1 with None => true | Some d => Accepted d end).
Proof.
  intros He Hr Hb Hnow Hsource. subst out. unfold checkSourceAndRate. split_if; [left; by eexists|]. rewrite He.
  pose proof (allowRate_taken h clock ctx c Hr Hb Hnow Hsource) as Ht. destruct (allowRate h clock ctx) as [[] h']; right; [done|].
  unfold taken in *. destruct (take_token _ _ _ _). simpl in *. by destruct Ht as [? _].
Qed.

Lemma taken_same h c h' h2 accepted accepted' : taken h c h' accepted -> Buckets h2 = Buckets h' -> (accepted' = true -> accepted = true) -> taken h c h2 accepted'.
Proof. unfold taken. destruct (take_token _ _ _ _). intros [-> Ha] -> Hi. split; [done | auto]. Qed.

Lemma serve_taken h c :
  PoEnabled (HrPolicy h) = true -> RateLimitEnabled (HrLimits h) = true -> 0 < PerClientRateLimitPerSecond (HrLimits h) -> 0 < PerClientBurst (HrLimits h) ->
  accepts h c = false /\ Buckets (serve h c).2 = Buckets h \/ taken h c (serve h c).2 (accepts h c).
Proof.
  intros Hen Hrate Hr Hb. unfold accepts. destruct c as [clock ctx raw | clock ctx packet]; simpl serve.
  - unfold ValidateRawPacket. cbv zeta. rewrite Hen. simpl negb. cbv iota. set (ctx' := normalizePacketValidationContext clock ctx).
    match goal with |- context [checkSourceAndRate h clock ctx' ?r] =>
      pose proof (checkSourceAndRate_taken h clock ctx' r (RawCall clock ctx raw) Hrate Hr Hb eq_refl eq_refl) as Ht;
      destruct (checkSourceAndRate h clock ctx' r) as [[denied events] h1] end.
    simpl in Ht. destruct Ht as [(d & -> & Hd & Hm)|Ht]; [by left|]. right.
    destruct denied as [d|]; [by eapply taken_same; [exact Ht | done | done]|].
    destruct (parseRaw h1 raw) as [p|e]; [|by eapply taken_same].
    match goal with |- context [validatePacketShape h1 clock ctx' ?p ?r ?w] =>
      pose proof (validatePacketShape_buckets h1 clock ctx' p r w) as Hm; destruct (validatePacketShape h1 clock ctx' p r w) as [[d|] h2] end.
    + eapply taken_same; [exact Ht | exact Hm | done].
    + destruct (radius_parse _ _); (eapply taken_same; [exact Ht | exact Hm | done]).
  - unfold ValidatePacket. cbv zeta. set (ctx' := normalizePacketValidationContext clock ctx). destruct packet as [packet|]; [|by left]. rewrite Hen. simpl negb. cbv iota.
    destruct (_ >? MaxAttributesPerPacket _); [by left|].
    match goal with |- context [checkSourceAndRate h clock ctx' ?r] =>
      pose proof (checkSourceAndRate_taken h clock ctx' r (PacketCall clock ctx (Some packet)) Hrate Hr Hb eq_refl eq_refl) as Ht;
      destruct (checkSourceAndRate h clock ctx' r) as [[denied events] h1] end.
    simpl in Ht. destruct Ht as [(d & -> & Hd & Hm)|Ht]; [by left|]. right.
    destruct denied as [d|]; [by eapply taken_same; [exact Ht | done | done]|].
    destruct (count_attributes _ _) as [p|e]; [|by eapply taken_same]. destruct (_ >? _); [by eapply taken_same|].
    match goal with |- context [validatePacketShape h1 clock ctx' ?p ?r ?w] =>
      pose proof (validatePacketShape_buckets h1 clock ctx' p r w) as Hm; destruct (validatePacketShape h1 clock ctx' p r w) as [[d|] h2] end.
    all: eapply taken_same; [exact Ht | exact Hm | done].
Qed.

Lemma in_time_weaken from from' until calls : from' <= from -> in_time from until calls -> in_time from' until calls.
Proof. destruct calls as [|c calls]; simpl; [lia | intros Hle [? ?]; split; [lia | done]]. Qed.
Lemma in_time_until calls : forall from until, in_time from until calls -> from <= until.
Proof. induction calls as [|c calls IH]; intros from until; simpl; [done|]. intros [Hf Hc]. apply IH in Hc. lia. Qed.

Lemma gain_add rate d e : (gain rate (d + e) == gain rate d + gain rate e)%Q.
Proof. unfold gain. rewrite inject_Z_plus. unfold Qdiv. ring. Qed.
Lemma gain_mono rate d e : 0 <= rate -> d <= e -> (gain rate d <= gain rate e)%Q.
Proof.
  intros Hr Hd. unfold gain, Qdiv. change (/ inject_Z second)%Q with (1 # 1000000000)%Q.
  apply Qmult_le_compat_r; [|vm_compute; discriminate]. rewrite !(Qmult_comm (inject_Z rate)). apply Qmult_le_compat_r.
  - apply Qmult_le_compat_r; [by rewrite <- Zle_Qle | vm_compute; discriminate].
  - change 0%Q with (inject_Z 0). by rewrite <- Zle_Qle.
Qed.

Section bounded.
Context (h0 : PacketHardener) (rate burst : Z).
Context (Hen : PoEnabled (HrPolicy h0) = true) (Hlimited : RateLimitEnabled (HrLimits h0) = true).
Context (Hr : PerClientRateLimitPerSecond (HrLimits h0) = rate) (Hb : PerClientBurst (HrLimits h0) = burst).
Context (Hrate : 1 <= rate <= 100000) (Hburst : 1 <= burst <= 1000000).

(** What the tokens of the source's bucket, filled as far as [until], can pay for *)
Definition budget (source : string) h (from until : Z) : Q :=
  match Buckets h !! source with
  | None => inject_Z burst + gain rate (until - from)
  | Some b => Tokens b + gain rate (until - SeenAt b)
  end%Q.
Definition bucket_ok (source : string) h (from until : Z) : Prop :=
  match Buckets h !! source with
  | None => until - from < 2 ^ 63
  | Some b => (0 <= Tokens b)%Q /\ (Tokens b <= inject_Z burst)%Q /\ SeenAt b <= from /\ until - SeenAt b < 2 ^ 63
  end.

Lemma slack_nonneg : (0 <= slack burst)%Q.
Proof using Hburst. unfold slack, unit_error. pose proof (burst_Q burst Hburst). lra. Qed.
Lemma gain_nonneg d : 0 <= d -> (0 <= gain rate d)%Q.
Proof using Hrate. intros Hd. pose proof (gain_mono rate 0 d ltac:(lia) Hd) as Hg. assert (gain rate 0 == 0)%Q as H0 by (unfold gain, Qdiv; change (inject_Z 0) with 0%Q; ring). lra. Qed.

(** One call pays for the packet that it lets through. *)
Lemma serve_budget source h c from until :
  same_settings h0 h -> bucket_ok source h from until -> from <= instant c -> instant c <= until ->
  bucket_ok source (serve h c).2 (instant c) until
  /\ (budget source (serve h c).2 (instant c) until + allowed_Q (accepts h c && bool_decide (bucket_of c = source)) <= budget source h from until + slack burst)%Q.
Proof using All.
  intros (Hp & Hl & _) Hok Hfrom Huntil. pose proof slack_nonneg as Hslack.
  destruct (serve_taken h c) as [[Ha Hm]|Ht]; [congruence | congruence | rewrite Hl; lia | rewrite Hl; lia | |].
  { unfold bucket_ok, budget in *. rewrite Hm, Ha. simpl. destruct (Buckets h !! source) as [b|].
    - split; [naive_solver lia|]. lra.
    - split; [lia|]. pose proof (gain_mono rate (until - instant c) (until - from) ltac:(lia) ltac:(lia)). lra. }
  unfold taken in Ht. rewrite Hl, Hr, Hb in Ht. destruct (decide (bucket_of c = source)) as [Hs|Hs].
  - rewrite bool_decide_true, andb_true_r by done. rewrite Hs in Ht. unfold bucket_ok, budget in *.
    destruct (Buckets h !! source) as [b|] eqn:E.
    + destruct Hok as (Ht0 & HtB & Hseen & Hd). pose proof (take_token_bounds rate burst Hrate Hburst (instant c) b Ht0 HtB ltac:(lia)) as Hbounds.
      destruct (take_token rate burst (instant c) (Some b)) as [allowed b']. destruct Ht as [-> Hall]. rewrite lookup_insert_eq.
      destruct Hbounds as (H0 & HB & Hat & Hpay). rewrite Hat. split; [repeat split; [done | done | lia | lia]|].
      pose proof (gain_add rate (instant c - SeenAt b) (until - instant c)) as Hg. replace (instant c - SeenAt b + (until - instant c)) with (until - SeenAt b) in Hg by lia.
      assert (allowed_Q (accepts h c) <= allowed_Q allowed)%Q as Hle by (unfold allowed_Q; destruct (accepts h c); [rewrite Hall by done; lra | destruct allowed; lra]).
      lra.
    + pose proof (take_token_first rate burst Hrate Hburst (instant c)) as Hbounds.
      destruct (take_token rate burst (instant c) None) as [allowed b']. destruct Ht as [-> Hall]. rewrite lookup_insert_eq.
      destruct Hbounds as (H0 & HB & Hat & Hpay). rewrite Hat. split; [repeat split; [done | done | lia | lia]|].
      pose proof (gain_mono rate (until - instant c) (until - from) ltac:(lia) ltac:(lia)).
      assert (allowed_Q (accepts h c) <= allowed_Q allowed)%Q as Hle by (unfold allowed_Q; destruct (accepts h c); [rewrite Hall by done; lra | destruct allowed; lra]).
      lra.
  - rewrite bool_decide_false, andb_false_r by done. destruct (take_token _ _ _ _) as [allowed b']. destruct Ht as [Hm _]. unfold bucket_ok, budget in *.
    rewrite Hm, lookup_insert_ne by done. simpl. destruct (Buckets h !! source) as [b|].
    + split; [naive_solver lia|]. lra.
    + split; [lia|]. pose proof (gain_mono rate (until - instant c) (until - from) ltac:(lia) ltac:(lia)). lra.
Qed.

Lemma accepted_within_budget source calls : forall h from until,
  same_settings h0 h -> bucket_ok source h from until -> in_time from until calls ->
  (inject_Z (accepted_from source h calls) <= budget source h from until + inject_Z (zlen calls) * slack burst)%Q.
Proof using All.
  induction calls as [|c calls IH]; intros h from until Hsame Hok Htime; simpl in Htime.
  - simpl. change (zlen (@nil call)) with 0. unfold bucket_ok, budget in *. pose proof (burst_Q burst Hburst).
    destruct (Buckets h !! source) as [b|].
    + pose proof (gain_nonneg (until - SeenAt b) ltac:(lia)). change (inject_Z 0) with 0%Q. lra.
    + pose proof (gain_nonneg (until - from) ltac:(lia)). change (inject_Z 0) with 0%Q. lra.
  - destruct Htime as [Hfrom Htime]. pose proof (in_time_until _ _ _ Htime).
    destruct (serve_budget source h c from until Hsame Hok Hfrom ltac:(done)) as [Hok' Hpay].
    specialize (IH (serve h c).2 (instant c) until). cbn [accepted_from]. rewrite zlen_cons, !inject_Z_plus.
    assert (inject_Z (if accepts h c && bool_decide (bucket_of c = source) then 1 else 0) == allowed_Q (accepts h c && bool_decide (bucket_of c = source)))%Q as -> by (by destruct (_ && _)).
    assert (same_settings h0 (serve h c).2) as Hsame' by (destruct Hsame as (? & ? & ?); destruct (serve_settings h c) as (? & ? & ?); repeat split; congruence).
    specialize (IH Hsame' Hok' Htime). change (inject_Z 1) with 1%Q. lra.
Qed.
End bounded.
End over_time.

(** ** The bound *)

Section validated.
Context {U : Unicode} {SA : SourceAddress} {RO : Rounding} {RP : RadiusParse} {MR : MapRange} {RL : RoundingLaws}.

(** A configuration that the validation lets through; without one the defaults hold. *)
Definition valid (cfg : option RadiusConfig) : Prop := match cfg with Some c => validateRadiusPacketHardening (RcHardening c) = true | None => True end.

Lemma between_spec low high value : between low high value = true -> low <= value <= high.
Proof. unfold between. intros [?%Z.leb_le ?%Z.leb_le]%andb_prop. lia. Qed.
Lemma defaultInt_range value fallback high : value <= high -> 1 <= fallback <= high -> 1 <= defaultInt value fallback <= high.
Proof. unfold defaultInt. intros. destruct (Z.leb_spec value 0); lia. Qed.

Lemma valid_limits cfg (limits := HrLimits (NewPacketHardener cfg)) :
  valid cfg -> 1 <= PerClientRateLimitPerSecond limits <= 100000 /\ 1 <= PerClientBurst limits <= 1000000.
Proof.
  intros Hvalid. subst limits. destruct cfg as [c|]; simpl; [|split; unfold defaultInt; simpl; lia].
  unfold valid, validateRadiusPacketHardening in Hvalid. repeat apply andb_prop in Hvalid as [Hvalid ?].
  repeat match goal with H : between _ _ _ = true |- _ => apply between_spec in H end. split; apply defaultInt_range; lia.
Qed.

(** C27: With a valid configuration, from the start and in any order of packets from any sources, a source gets through no more packets than the burst and what the rate
    brings in the time, up to the rounding: the gain has three relative errors of 2^-53, and each packet can add an error of 2^-51 of the burst. *)
Theorem rate_bounded cfg source calls from until (h := NewPacketHardener cfg) :
  valid cfg -> PoEnabled (HrPolicy h) = true -> RateLimitEnabled (HrLimits h) = true -> in_time from until calls -> until - from < 2 ^ 63 ->
  (inject_Z (accepted_from source h calls)
   <= inject_Z (PerClientBurst (HrLimits h)) + gain (PerClientRateLimitPerSecond (HrLimits h)) (until - from)
      + inject_Z (zlen calls) * slack (PerClientBurst (HrLimits h)))%Q.
Proof.
  intros Hvalid Hen Hlimited Htime Hspan. destruct (valid_limits cfg Hvalid) as [Hrate Hburst]. fold h in Hrate, Hburst.
  apply (accepted_within_budget h _ _ Hen Hlimited eq_refl eq_refl Hrate Hburst source calls h from until); [done | | done].
  unfold bucket_ok. simpl Buckets. by rewrite lookup_empty.
Qed.
End validated.

Module example.
#[local] Existing Instances PacketHardening.example.addresses PacketHardening.example.exact PacketHardening.example.library.

(** Rounding that does not round satisfies the laws. *)
#[local] Instance exact_laws : RoundingLaws.
Proof.
  split; unfold round64, PacketHardening.example.exact.
  - intros q [Hq _]. rewrite Qred_correct. assert (0 <= smallest)%Q by (vm_compute; discriminate). unfold unit_error. lra.
  - intros q Hq. by rewrite Qred_correct.
  - intros z _. apply Qred_correct.
Qed.

Definition calls : list call := [PacketHardening.example.call_at 0 1; PacketHardening.example.call_at 1000 2; PacketHardening.example.call_at second 3].
Lemma rate_bounded_witness (h := PacketHardening.example.start) :
  (inject_Z (accepted_from "192.0.2.10" h calls)
   <= inject_Z (PerClientBurst (HrLimits h)) + gain (PerClientRateLimitPerSecond (HrLimits h)) (second - 0)
      + inject_Z (zlen calls) * slack (PerClientBurst (HrLimits h)))%Q.
Proof.
  apply (rate_bounded (PacketHardening.example.hardening 16) "192.0.2.10" calls 0 second); [vm_compute; reflexivity.. | | vm_compute; reflexivity].
  simpl. repeat (split; [vm_compute; discriminate|]). vm_compute. discriminate.
Defined.
Example three_accepted : accepted_from "192.0.2.10" PacketHardening.example.start calls = 3.
Proof. vm_compute. reflexivity. Qed.
End example.
