(* ===== verification/RequestSigning.v ===== *)
(** * The Message-Authenticator of outgoing requests ([internal/radius/health.go])

    [setMessageAuthenticator] signs the status probes of [health.go] and the requests of [outbound_dac.go] and [outbound_dac_queue.go] before the RADIUS
    library encodes and sends them. Here it meets the receiver of [PacketHardening], which
    checks the value over the bytes that arrive. *)

From S2P Require Import Prelude GoStrings Bytes Md5 PacketHardening.

(** [layeh.com/radius]: [Packet.MarshalBinary], [Packet.Encode], and [rfc2869.MessageAuthenticator_Set] *)
Class RadiusMarshal := {
  MarshalBinary : Packet -> result string (list Z);
  Encode : Packet -> result string (list Z);
  MessageAuthenticator_Set : Packet -> list Z -> result string Packet }.

Definition with_attributes (p : Packet) (l : list attribute) : Packet := mkPacket (PkCode p) (PkIdentifier p) (PkAuthenticator p) (PkSecret p) (Some <$> l).

(** The authenticator of accounting, disconnect and change-of-authorization requests: a digest over the packet with zeros in its place (RFC 2866, RFC 5176) *)
Definition request_authenticator (secret : list Z) (code identifier : Z) (l : list attribute) : list Z := md5 (encode_packet code identifier zeros l ++ secret).

(** What the library documents: [MarshalBinary] writes the packet as it is, within the limits of the protocol; [Encode] also computes the authenticator of
    the requests that have a computed one; the setter leaves one Message-Authenticator, and setting it again replaces its value. *)
Class RadiusMarshalLaws `{RadiusMarshal} : Prop := {
  marshal_encodes p wire : MarshalBinary p = Ok wire -> exists l, PkAttributes p = Some <$> l /\ Forall (fun a => zlen a.2 <= 253) l /\ length (PkAuthenticator p) = 16%nat
    /\ wire = encode_packet (to_byte (PkCode p)) (PkIdentifier p) (PkAuthenticator p) l /\ zlen wire <= radiusMaxPacketBytes;
  encode_plain p wire : Encode p = Ok wire -> PkCode p = CodeAccessRequest \/ PkCode p = CodeStatusServer -> MarshalBinary p = Ok wire;
  encode_signed p wire : Encode p = Ok wire -> PkCode p = CodeDisconnectRequest \/ PkCode p = CodeCoARequest ->
    exists l, MarshalBinary p = Ok (encode_packet (PkCode p) (PkIdentifier p) (PkAuthenticator p) l) /\ PkAttributes p = Some <$> l
      /\ wire = encode_packet (PkCode p) (PkIdentifier p) (request_authenticator (PkSecret p) (PkCode p) (PkIdentifier p) l) l;
  set_twice p value p1 value' p2 : MessageAuthenticator_Set p value = Ok p1 -> MessageAuthenticator_Set p1 value' = Ok p2 ->
    length value = 16%nat -> length value' = 16%nat ->
    forall l, PkAttributes p1 = Some <$> l -> exists pre post, no_authenticator pre /\ no_authenticator post
      /\ p1 = with_attributes p (pre ++ (radiusTypeMessageAuthenticator, value) :: post)
      /\ p2 = with_attributes p (pre ++ (radiusTypeMessageAuthenticator, value') :: post) }.

Section signing.
Context {SA : SourceAddress} {RM : RadiusMarshal}.

(** [messageAuthenticatorOffset]: the loop over the bytes from an offset *)
Fixpoint offset_loop (fuel : nat) (offset : Z) (rest : list Z) : result string Z :=
  match rest, fuel with
  | [], _ => Err "message authenticator not found"
  | attrType :: attrLen :: body, S fuel =>
      if (attrLen <? 2) || (zlen rest <? attrLen) then Err "invalid radius attribute length"
      else if attrType =? radiusTypeMessageAuthenticator then
        if negb (attrLen =? 18) then Err "unexpected message authenticator length" else Ok (offset + 2)
      else offset_loop fuel (offset + attrLen) (drop (Z.to_nat (attrLen - 2)) body)
  | _, _ => Err "invalid radius attribute"
  end.
Definition messageAuthenticatorOffset (wire : list Z) : result string Z := let rest := drop 20 wire in offset_loop (length rest) radiusHeaderBytes rest.

(** The packet after the call; the copy of the sum into the bytes is not used by the code. *)
Definition setMessageAuthenticator (packet : option Packet) : result string Packet :=
  match packet with
  | None => Err "packet is required"
  | Some packet =>
      if match PkSecret packet with [] => true | _ => false end then Err "packet secret is required"
      else
        packet ← MessageAuthenticator_Set packet (repeat 0 16);
        wire ← MarshalBinary packet;
        _ ← messageAuthenticatorOffset wire;
        MessageAuthenticator_Set packet (hmac_md5 (PkSecret packet) wire)
  end.
End signing.

(** ** What a receiver finds *)

Section received.
Context {U : Unicode} {SA : SourceAddress} {RM : RadiusMarshal} {RML : RadiusMarshalLaws}.
Implicit Types (p : Packet) (pre post l : list attribute).

Lemma length_hmac key message : length (hmac_md5 key message) = 16%nat.
Proof. apply length_md5. Qed.

(** A signed packet carries the digest over its own authenticator, the one it has before it is encoded. *)
Lemma signed_packet p p' : setMessageAuthenticator (Some p) = Ok p' ->
  exists pre post, no_authenticator pre /\ no_authenticator post /\ PkSecret p <> [] /\ length (PkAuthenticator p) = 16%nat
    /\ p' = with_attributes p (pre ++ (radiusTypeMessageAuthenticator, authenticator_value (PkSecret p) (to_byte (PkCode p)) (PkIdentifier p) (PkAuthenticator p) pre post) :: post).
Proof.
  unfold setMessageAuthenticator. intros Hp. destruct (PkSecret p) as [|s secret] eqn:Hs; [done|]. rewrite <- Hs in *.
  apply bind_Ok in Hp as (p1 & Hset1 & Hp). apply bind_Ok in Hp as (wire & Hwire & Hp). apply bind_Ok in Hp as (offset & _ & Hset2).
  destruct (marshal_encodes _ _ Hwire) as (l & Hl & _ & Ha & -> & _).
  destruct (set_twice _ _ _ _ _ Hset1 Hset2 eq_refl (length_hmac _ _) l Hl) as (pre & post & Hpre & Hpost & -> & ->).
  unfold with_attributes in Hl. simpl in Hl. apply (inj (fmap Some)) in Hl as <-.
  exists pre, post. split; [done|]. split; [done|]. split; [by rewrite Hs|]. split; [exact Ha|]. done.
Qed.

(** The receiver's limits leave room for a packet *)
Definition room_for (h : PacketHardener) (wire : list Z) (p : Packet) : Prop :=
  zlen wire <= MaxPacketBytes (HrLimits h) /\ zlen (PkAttributes p) <= MaxAttributesPerPacket (HrLimits h).

Lemma no_authenticator_none l : no_authenticator l -> Forall (fun a => a.1 <> radiusTypeMessageAuthenticator) l.
Proof.
  unfold no_authenticator. induction l as [|a l IH]; intros Hl; [constructor|]. simpl in Hl. apply orb_false_iff in Hl as [Ha Hl].
  constructor; [by apply Z.eqb_neq | auto].
Qed.
Lemma no_authenticator_good l : no_authenticator l -> Forall (fun a : attribute => zlen a.2 <= 253) l -> Forall good_attribute l.
Proof.
  intros Hno%no_authenticator_none Hlen. apply Forall_forall. intros a Ha. rewrite Forall_forall in Hno, Hlen. split; [by apply Hlen|].
  intros ?. by destruct (Hno a Ha).
Qed.

Lemma parse_sent h code identifier authenticator pre mac post wire :
  wire = encode_packet code identifier authenticator (pre ++ (radiusTypeMessageAuthenticator, mac) :: post) ->
  no_authenticator pre -> no_authenticator post -> length mac = 16%nat -> length authenticator = 16%nat ->
  Forall (fun a : attribute => zlen a.2 <= 253) (pre ++ (radiusTypeMessageAuthenticator, mac) :: post) -> zlen wire <= radiusMaxPacketBytes ->
  zlen wire <= MaxPacketBytes (HrLimits h) -> zlen (pre ++ (radiusTypeMessageAuthenticator, mac) :: post) <= MaxAttributesPerPacket (HrLimits h) ->
  parseRaw h wire = Ok (summary code identifier authenticator (pre ++ (radiusTypeMessageAuthenticator, mac) :: post)).
Proof.
  intros Hwire Hpre Hpost Hm Ha [Hlen1 [_ Hlen2]%Forall_cons]%Forall_app H4096 Hmax Hattrs. apply parseRaw_encoded with (padding := []).
  split; [by rewrite app_nil_r|]. split; [done|]. split; [done|]. split; [by rewrite <- Hwire|]. split; [by left|]. split; [|by right].
  apply Forall_app. split; [by apply no_authenticator_good|]. constructor; [|by apply no_authenticator_good].
  unfold good_attribute, zlen, radiusMessageAuthenticatorBytes. simpl. lia.
Qed.

(** A status probe, or an access request, that was signed and encoded passes the receiver's check of its
    Message-Authenticator, with the same secret. *)
Theorem signed_request_verifies h p p' wire :
  setMessageAuthenticator (Some p) = Ok p' -> Encode p' = Ok wire -> PkCode p = CodeAccessRequest \/ PkCode p = CodeStatusServer -> room_for h wire p' ->
  exists parsed, parseRaw h wire = Ok parsed /\ PaMessageAuthenticatorPresent parsed = true
    /\ verifyMessageAuthenticator wire (PaMessageAuthenticatorOffset parsed) (PkSecret p) = true.
Proof.
  intros Hsigned Hencode Hcode [Hmax Hattrs]. destruct (signed_packet _ _ Hsigned) as (pre & post & Hpre & Hpost & Hs & Ha & ->).
  apply encode_plain in Hencode; [|done]. destruct (marshal_encodes _ _ Hencode) as (l & Hl & Hlen & _ & Hwire & H4096).
  unfold with_attributes in Hl, Hwire, Hattrs. simpl in Hl, Hwire, Hattrs. apply (inj (fmap Some)) in Hl as <-. unfold zlen in Hattrs. rewrite length_fmap in Hattrs.
  eexists. split; [apply (parse_sent h _ _ _ _ _ _ _ Hwire); try done; apply length_hmac|]. split; [apply has_type_split|].
  rewrite Hwire. by apply (verify_encoded _ _ _ pre _ post); [| apply length_hmac | ..].
Qed.

(** A disconnect or change-of-authorization request is signed over the random authenticator that it has before it is encoded, and is sent with another one:
    a receiver finds the value right only if the two digests happen to coincide, whether it takes the
    authenticator as received, like [verifyMessageAuthenticator], or as zeros, like RFC 5176. *)
Theorem dac_request_mis_signed h p p' wire :
  setMessageAuthenticator (Some p) = Ok p' -> Encode p' = Ok wire -> PkCode p = CodeDisconnectRequest \/ PkCode p = CodeCoARequest -> room_for h wire p' ->
  zlen wire <= radiusMaxPacketBytes ->
  exists pre mac post parsed,
    let value authenticator := authenticator_value (PkSecret p) (PkCode p) (PkIdentifier p) authenticator pre post in
    parseRaw h wire = Ok parsed /\ PaAttributes parsed = pre ++ (radiusTypeMessageAuthenticator, mac) :: post
    /\ (verifyMessageAuthenticator wire (PaMessageAuthenticatorOffset parsed) (PkSecret p) = true <-> value (PkAuthenticator p) = value (PaAuthenticator parsed))
    /\ (mac = value zeros <-> value (PkAuthenticator p) = value zeros)
    /\ PaAuthenticator parsed = request_authenticator (PkSecret p) (PkCode p) (PkIdentifier p) (PaAttributes parsed).
Proof.
  intros Hsigned Hencode Hcode [Hmax Hattrs] H4096. destruct (signed_packet _ _ Hsigned) as (pre & post & Hpre & Hpost & Hs & Ha & ->).
  assert (to_byte (PkCode p) = PkCode p) as Hbyte by (by destruct Hcode as [-> | ->]). rewrite Hbyte in *.
  destruct (encode_signed _ _ Hencode Hcode) as (l & Hmarshal & Hl & Hwire). destruct (marshal_encodes _ _ Hmarshal) as (k & Hk & Hlen & _).
  rewrite Hl in Hk. apply (inj (fmap Some)) in Hk as <-.
  unfold with_attributes in Hl, Hwire, Hattrs. simpl in Hl, Hwire, Hattrs. apply (inj (fmap Some)) in Hl as <-. unfold zlen in Hattrs. rewrite length_fmap in Hattrs.
  exists pre, (authenticator_value (PkSecret p) (PkCode p) (PkIdentifier p) (PkAuthenticator p) pre post), post. eexists. cbv zeta.
  split; [apply (parse_sent h _ _ _ _ _ _ _ Hwire); try done; apply length_md5|]. split; [done|]. split; [|done].
  rewrite Hwire. apply (verify_encoded _ _ _ pre _ post); [apply length_md5 | apply length_hmac | done | done].
Qed.
End received.

(** ** Concrete runs *)

Module example.
#[local] Existing Instances PacketHardening.example.addresses PacketHardening.example.exact PacketHardening.example.library.

Definition marshal (p : Packet) : result string (list Z) :=
  match mapM id (PkAttributes p) with
  | Some l =>
      let wire := encode_packet (to_byte (PkCode p)) (PkIdentifier p) (PkAuthenticator p) l in
      if forallb (fun a => zlen a.2 <=? 253) l && (zlen (PkAuthenticator p) =? 16) && (zlen wire <=? radiusMaxPacketBytes) then Ok wire else Err "too long"
  | None => Err "nil attribute"
  end.
Definition is_authenticator (a : option attribute) : bool := match a with Some a => a.1 =? radiusTypeMessageAuthenticator | None => false end.
#[local] Instance library : RadiusMarshal := {|
  MarshalBinary := marshal;
  Encode p := wire ← marshal p;
    if (PkCode p =? CodeDisconnectRequest) || (PkCode p =? CodeCoARequest) then
      match mapM id (PkAttributes p) with
      | Some l => Ok (encode_packet (PkCode p) (PkIdentifier p) (request_authenticator (PkSecret p) (PkCode p) (PkIdentifier p) l) l)
      | None => Err "nil attribute"
      end
    else Ok wire;
  MessageAuthenticator_Set p value := Ok (mkPacket (PkCode p) (PkIdentifier p) (PkAuthenticator p) (PkSecret p)
    (List.filter (fun a => negb (is_authenticator a)) (PkAttributes p) ++ [Some (radiusTypeMessageAuthenticator, value)])) |}.

Lemma mapM_id {A} (l : list (option A)) k : mapM id l = Some k <-> l = Some <$> k.
Proof.
  rewrite mapM_Some. split.
  - induction 1 as [|x y l k Hx _ IH]; [done|]. rewrite fmap_cons. unfold id in Hx. by rewrite Hx, IH.
  - intros ->. induction k; constructor; auto.
Qed.
Lemma marshal_ok p wire : marshal p = Ok wire -> exists l, PkAttributes p = Some <$> l /\ Forall (fun a => zlen a.2 <= 253) l /\ length (PkAuthenticator p) = 16%nat
    /\ wire = encode_packet (to_byte (PkCode p)) (PkIdentifier p) (PkAuthenticator p) l /\ zlen wire <= radiusMaxPacketBytes.
Proof.
  unfold marshal. destruct (mapM id (PkAttributes p)) as [l|] eqn:Hl; [|done]. apply mapM_id in Hl. cbv zeta. split_if; [|done]. intros [= <-].
  apply andb_prop in Heqb as [[Hlen Ha%Z.eqb_eq]%andb_prop H4096%Z.leb_le]. exists l. split; [done|]. split; [|split; [unfold zlen in Ha; lia | done]].
  apply Forall_forall. intros a Hin. rewrite forallb_forall in Hlen. apply Z.leb_le, Hlen. by apply list_elem_of_In.
Qed.
Lemma kept_none l : Forall (fun a => is_authenticator a = false) (List.filter (fun a => negb (is_authenticator a)) l).
Proof. apply Forall_forall. intros a Ha. apply list_elem_of_In, filter_In in Ha as [_ Ha]. by apply negb_true_iff. Qed.
Lemma kept_all l : Forall (fun a => is_authenticator a = false) l -> List.filter (fun a => negb (is_authenticator a)) l = l.
Proof. induction 1 as [|a l Ha _ IH]; [done|]. simpl. rewrite Ha. simpl. by rewrite IH. Qed.

#[local] Instance library_laws : RadiusMarshalLaws.
Proof.
  split.
  - apply marshal_ok.
  - intros p wire Hp Hcode. simpl in Hp |- *. destruct (marshal p) as [w|]; [|done]. simpl in Hp. destruct Hcode as [Hc|Hc]; rewrite Hc in Hp; exact Hp.
  - intros p wire Hp Hcode. simpl in Hp |- *. destruct (marshal p) as [w|] eqn:Hm; [|done]. simpl in Hp.
    assert ((PkCode p =? CodeDisconnectRequest) || (PkCode p =? CodeCoARequest) = true) as Hc by (destruct Hcode as [-> | ->]; done). rewrite Hc in Hp.
    destruct (mapM id (PkAttributes p)) as [l|] eqn:Hl; [|done]. injection Hp as <-. apply mapM_id in Hl. exists l. split; [|done].
    destruct (marshal_ok _ _ Hm) as (k & Hk & _ & _ & -> & _). rewrite Hl in Hk. apply (inj (fmap Some)) in Hk as <-. do 2 f_equal. by destruct Hcode as [-> | ->].
  - intros p value p1 value' p2 Hset1 Hset2 _ _ l Hl. simpl in *. injection Hset1 as <-. injection Hset2 as <-. simpl in *.
    set (kept := List.filter (fun a => negb (is_authenticator a)) (PkAttributes p)) in *.
    symmetry in Hl. apply fmap_app_inv in Hl as (pre & post & Hpre & Hpost & ->). symmetry in Hpost. apply fmap_cons_inv in Hpost as (a & post' & [= <-] & Hnil & ->).
    symmetry in Hnil. apply fmap_nil_inv in Hnil as ->.
    exists pre, []. pose proof (kept_none (PkAttributes p)) as Hnone. fold kept in Hnone. split; [|split; [done|]].
    + unfold no_authenticator. apply not_true_iff_false. intros (a & Ha & H80)%existsb_exists. rewrite Hpre in Hnone.
      rewrite Forall_fmap, Forall_forall in Hnone. specialize (Hnone a (proj2 (list_elem_of_In _ _) Ha)). simpl in Hnone. congruence.
    + unfold with_attributes. rewrite Hpre in *. rewrite !fmap_app. split; [done|]. f_equal. rewrite List.filter_app. simpl. rewrite app_nil_r. by rewrite kept_all.
Qed.

Definition secret : list Z := [115; 101; 99].
Definition probe : Packet := mkPacket CodeStatusServer 5 PacketHardening.example.authenticator secret [Some (1, [97])].
Definition disconnect : Packet := mkPacket CodeDisconnectRequest 6 PacketHardening.example.authenticator secret [Some (1, [97])].
Definition signed (p : Packet) : Packet := match setMessageAuthenticator (Some p) with Ok p => p | Err _ => p end.
Definition signed_probe : Packet := Eval vm_compute in signed probe.
Definition signed_disconnect : Packet := Eval vm_compute in signed disconnect.
Definition sent (p : Packet) : list Z := match Encode p with Ok wire => wire | Err _ => [] end.
Definition sent_probe : list Z := Eval vm_compute in sent signed_probe.
Definition sent_disconnect : list Z := Eval vm_compute in sent signed_disconnect.

Lemma signed_request_verifies_witness : exists parsed, parseRaw PacketHardening.example.start sent_probe = Ok parsed /\ PaMessageAuthenticatorPresent parsed = true
    /\ verifyMessageAuthenticator sent_probe (PaMessageAuthenticatorOffset parsed) (PkSecret probe) = true.
Proof.
  apply (signed_request_verifies PacketHardening.example.start probe signed_probe sent_probe);
    [vm_compute; reflexivity | vm_compute; reflexivity | right; reflexivity | split; vm_compute; discriminate].
Defined.

Lemma dac_request_mis_signed_witness : exists pre mac post parsed,
    let value authenticator := authenticator_value (PkSecret disconnect) (PkCode disconnect) (PkIdentifier disconnect) authenticator pre post in
    parseRaw PacketHardening.example.start sent_disconnect = Ok parsed /\ PaAttributes parsed = pre ++ (radiusTypeMessageAuthenticator, mac) :: post
    /\ (verifyMessageAuthenticator sent_disconnect (PaMessageAuthenticatorOffset parsed) (PkSecret disconnect) = true
        <-> value (PkAuthenticator disconnect) = value (PaAuthenticator parsed))
    /\ (mac = value zeros <-> value (PkAuthenticator disconnect) = value zeros)
    /\ PaAuthenticator parsed = request_authenticator (PkSecret disconnect) (PkCode disconnect) (PkIdentifier disconnect) (PaAttributes parsed).
Proof.
  apply (dac_request_mis_signed PacketHardening.example.start disconnect signed_disconnect sent_disconnect);
    [vm_compute; reflexivity | vm_compute; reflexivity | left; reflexivity | split; vm_compute; discriminate | vm_compute; discriminate].
Defined.

(** The receiver refuses the disconnect request. *)
Example disconnect_refused : Reason (ValidateRawPacket PacketHardening.example.start 0 PacketHardening.example.client sent_disconnect).1.1 = "invalid_message_authenticator".
Proof. vm_compute. reflexivity. Qed.
End example.
