(* ===== verification/SessionPolicy.v ===== *)
(** * The local policy of a session ([internal/radius/mapping.go])

    [ResolveSessionPolicy] turns the attributes of an answer of an upstream server, or of a change-of-authorization request, into the role, VLAN, bandwidth profile, ACL
    and time-outs of a session: from the attributes themselves, from the mappings of the RADIUS identity sources in the database, and from the role.
    [Auth] has the fields of [BrokerAuthResult] that count here; reading them out of a packet ([client.go], [vendor.go]) is not modelled. *)

From S2P Require Import Prelude GoStrings.

(** ** Data *)

Record Auth := mkAuth {
  AuFilterID : string; AuClass : string; AuVLAN : Z; AuHasVLAN : bool; AuSessionTimeout : Z; AuHasSessionTimeout : bool; AuIdleTimeout : Z; AuHasIdleTimeout : bool;
  AuWISPrDown : Z; AuWISPrUp : Z; AuVendorRole : string; AuVendorBandwidthProfile : string; AuVendorPolicyTag : string; AuVendorInboundACL : string; AuVendorOutboundACL : string;
  AuVendorVLAN : Z; AuHasVendorVLAN : bool; AuVendorSessionTimeout : Z; AuHasVendorSessionTimeout : bool; AuVendorIdleTimeout : Z; AuHasVendorIdleTimeout : bool;
  AuVendorQuarantine : bool; AuHasVendorQuarantine : bool }.
(** A packet without any of these attributes *)
Definition no_attributes : Auth := mkAuth "" "" 0 false 0 false 0 false 0 0 "" "" "" "" "" 0 false 0 false 0 false false false.

Record SessionPolicy := mkSessionPolicy {
  PlRole : string; PlIdentitySource : string; PlBandwidthProfile : string; PlFilterID : string; PlACLPolicyName : string; PlRadiusClass : string;
  PlVLAN : Z; PlSessionTimeout : Z; PlIdleTimeout : Z }.

Record radiusIdentityConfig := mkIdentityConfig {
  DefaultRole : string; DefaultBandwidthProfile : string; FilterIDRoles : gmap string string; FilterIDBandwidthProfiles : gmap string string;
  VLANRoles : gmap string string; ClassRoles : gmap string string }.

(** Columns of the tables [roles], [acl_policies] and [bandwidth_profiles] *)
Record RoleRow := mkRoleRow { RoVLAN : option Z; RoBandwidthProfile : option string; RoSessionTimeout : option Z; RoIdleTimeout : option Z; RoACLPolicyName : option string }.
Record AclRow := mkAclRow { AcName : string; AcEnabled : bool; AcInbound : option string; AcOutbound : option string }.
Record ProfileRow := mkProfileRow { PrName : string; PrDownload : Z; PrUpload : Z }.

(** What the queries find: the configurations of the enabled RADIUS identity sources by priority and name, unless one cannot be read, and the tables *)
Record PolicyDB := mkPolicyDB { DbConfigs : result string (list radiusIdentityConfig); DbRoles : gmap string RoleRow; DbAcls : list AclRow; DbProfiles : list ProfileRow }.

(** ** Reading the tables *)

(** [sql.NullInt32] takes what fits into 32 bits; a larger value is an error of [Scan]. *)
Definition scan_int32 (column : option Z) : result string (option Z) :=
  match column with
  | None => Ok None
  | Some v => if (-2147483648 <=? v) && (v <=? 2147483647) then Ok (Some v) else Err "value out of range"
  end.

Record rolePolicy := mkRolePolicy { RpVLAN : Z; RpBandwidthProfile : string; RpACLPolicyName : string; RpSessionTimeout : Z; RpIdleTimeout : Z }.
Definition no_role : rolePolicy := mkRolePolicy 0 "" "" 0 0.

(** The result of [ErrNoRows] is [no_role], as its caller takes it. *)
Definition lookupRolePolicy (db : option PolicyDB) (role : string) : result string rolePolicy :=
  match db with
  | None => Ok no_role
  | Some db =>
      if (TrimSpace role =? "")%string then Ok no_role
      else match DbRoles db !! role with
           | None => Ok no_role
           | Some row =>
               vlan ← scan_int32 (RoVLAN row);
               session ← scan_int32 (RoSessionTimeout row);
               idle ← scan_int32 (RoIdleTimeout row);
               Ok (mkRolePolicy (default 0 vlan) (default "" (RoBandwidthProfile row)) (TrimSpace (default "" (RoACLPolicyName row))) (default 0 session) (default 0 idle))
           end
  end.

Fixpoint firstReplyValue (values : list string) : string :=
  match values with [] => "" | value :: values => if negb (TrimSpace value =? "")%string then TrimSpace value else firstReplyValue values end.

(** [ORDER BY CASE WHEN name IN (?, ?) THEN 0 ELSE 1 END, name] *)
Definition acl_less (names : list string) (a b : AclRow) : bool :=
  let rank (r : AclRow) := if bool_decide (AcName r ∈ names) then 0 else 1 in
  (rank a <? rank b) || (rank a =? rank b) && string_less (AcName a) (AcName b).
Definition resolveInboundACLPolicyName (db : option PolicyDB) (inboundACL outboundACL : string) : string :=
  let inboundACL := TrimSpace inboundACL in
  let outboundACL := TrimSpace outboundACL in
  let names := [inboundACL; outboundACL] in
  let among (column : option string) := match column with Some v => bool_decide (v ∈ names) | None => false end in
  let found := match db with
    | None => None
    | Some db =>
        if negb (inboundACL =? "")%string || negb (outboundACL =? "")%string then
          head (sort_by (acl_less names)
            (List.filter (fun r => AcEnabled r && (bool_decide (AcName r ∈ names) || among (AcInbound r) || among (AcOutbound r))) (DbAcls db)))
        else None
    end in
  match found with Some row => TrimSpace (AcName row) | None => firstReplyValue names end.

Definition loadRadiusIdentityConfigs (db : option PolicyDB) : result string (list radiusIdentityConfig) := match db with None => Ok [] | Some db => DbConfigs db end.
Definition roleExists (db : option PolicyDB) (name : string) : bool :=
  match db with None => false | Some db => negb (TrimSpace name =? "")%string && bool_decide (is_Some (DbRoles db !! name)) end.
Definition bandwidthProfileExists (db : option PolicyDB) (name : string) : bool :=
  match db with None => false | Some db => negb (TrimSpace name =? "")%string && existsb (fun r => PrName r =? name)%string (DbProfiles db) end.
Definition lookupBandwidthProfileByRates (db : option PolicyDB) (downloadKbps uploadKbps : Z) : string :=
  match db with
  | None => ""
  | Some db =>
      if (downloadKbps <=? 0) || (uploadKbps <=? 0) then ""
      else match List.find (fun r => (PrDownload r =? downloadKbps) && (PrUpload r =? uploadKbps)) (DbProfiles db) with Some r => TrimSpace (PrName r) | None => "" end
  end.

(** ** Resolution *)

(** The variables of the loop over the configurations *)
Record Mapped := mkMapped { MpRole : string; MpBandwidth : string; MpDefaultRole : string; MpDefaultBandwidth : string }.
Definition lookup_text (m : gmap string string) (key : string) : string := TrimSpace (default "" (m !! key)).
Definition unless_set (value mapped : string) : string := if (value =? "")%string then mapped else value.

Definition map_config (auth : Auth) (filterID class : string) (st : Mapped) (cfg : radiusIdentityConfig) : Mapped :=
  let defaultRole := unless_set (MpDefaultRole st) (TrimSpace (DefaultRole cfg)) in
  let defaultBandwidth := unless_set (MpDefaultBandwidth st) (TrimSpace (DefaultBandwidthProfile cfg)) in
  let role := MpRole st in
  let role := if (role =? "")%string && negb (filterID =? "")%string then lookup_text (FilterIDRoles cfg) filterID else role in
  let role := if (role =? "")%string && negb (class =? "")%string then lookup_text (ClassRoles cfg) class else role in
  let bandwidth := if (MpBandwidth st =? "")%string && negb (filterID =? "")%string then lookup_text (FilterIDBandwidthProfiles cfg) filterID else MpBandwidth st in
  let role := if (role =? "")%string && AuHasVLAN auth then lookup_text (VLANRoles cfg) (Itoa (AuVLAN auth)) else role in
  mkMapped role bandwidth defaultRole defaultBandwidth.

Definition resolved_filter (auth : Auth) : string :=
  let filterID := TrimSpace (AuFilterID auth) in
  let filterID := unless_set filterID (TrimSpace (AuVendorPolicyTag auth)) in
  if AuHasVendorQuarantine auth && AuVendorQuarantine auth && (filterID =? "")%string then "quarantine" else filterID.

Definition ResolveSessionPolicy (db : option PolicyDB) (defaultRole : string) (auth : option Auth) : result string SessionPolicy :=
  match auth with
  | None => Err "auth result is required"
  | Some auth =>
      configs ← loadRadiusIdentityConfigs db;
      let filterID := resolved_filter auth in
      let class := TrimSpace (AuClass auth) in
      let acl := resolveInboundACLPolicyName db (AuVendorInboundACL auth) (AuVendorOutboundACL auth) in
      let mapped := foldl (map_config auth filterID class) (mkMapped (TrimSpace (AuVendorRole auth)) (TrimSpace (AuVendorBandwidthProfile auth)) "" "") configs in
      let role := unless_set (MpRole mapped) (MpDefaultRole mapped) in
      let bandwidth := unless_set (MpBandwidth mapped) (MpDefaultBandwidth mapped) in
      let role := if (role =? "")%string && negb (filterID =? "")%string && roleExists db filterID then filterID else role in
      let bandwidth := if (bandwidth =? "")%string && negb (filterID =? "")%string && bandwidthProfileExists db filterID then filterID else bandwidth in
      let role := unless_set role (TrimSpace defaultRole) in
      rolePolicy ← lookupRolePolicy db role;
      let bandwidth := if negb (RpBandwidthProfile rolePolicy =? "")%string && (bandwidth =? "")%string then RpBandwidthProfile rolePolicy else bandwidth in
      let acl := unless_set acl (RpACLPolicyName rolePolicy) in
      let vlan := if AuHasVLAN auth then AuVLAN auth else RpVLAN rolePolicy in
      let vlan := if AuHasVendorVLAN auth then AuVendorVLAN auth else vlan in
      let session := if AuHasSessionTimeout auth then AuSessionTimeout auth else RpSessionTimeout rolePolicy in
      let session := if AuHasVendorSessionTimeout auth then AuVendorSessionTimeout auth else session in
      let idle := if AuHasIdleTimeout auth then AuIdleTimeout auth else RpIdleTimeout rolePolicy in
      let idle := if AuHasVendorIdleTimeout auth then AuVendorIdleTimeout auth else idle in
      let bandwidth :=
        if (bandwidth =? "")%string && (AuWISPrDown auth >? 0) && (AuWISPrUp auth >? 0) then
          let matched := lookupBandwidthProfileByRates db (AuWISPrDown auth) (AuWISPrUp auth) in if negb (matched =? "")%string then matched else bandwidth
        else bandwidth in
      Ok (mkSessionPolicy role "radius" bandwidth filterID acl class vlan session idle)
  end.

(** ** The role, by precedence *)

(** The first of some texts that is not empty *)
Fixpoint first_text (l : list string) : string := match l with [] => "" | x :: l => unless_set x (first_text l) end.

(** The roles that a configuration maps the attributes to, the strongest first *)
Definition mapped_roles (auth : Auth) (cfg : radiusIdentityConfig) : list string :=
  (if (resolved_filter auth =? "")%string then [] else [lookup_text (FilterIDRoles cfg) (resolved_filter auth)])
  ++ (if (TrimSpace (AuClass auth) =? "")%string then [] else [lookup_text (ClassRoles cfg) (TrimSpace (AuClass auth))])
  ++ (if AuHasVLAN auth then [lookup_text (VLANRoles cfg) (Itoa (AuVLAN auth))] else []).
Definition role_candidates (db : option PolicyDB) (defaultRole : string) (auth : Auth) (configs : list radiusIdentityConfig) : list string :=
  TrimSpace (AuVendorRole auth) :: flat_map (mapped_roles auth) configs ++ ((fun cfg => TrimSpace (DefaultRole cfg)) <$> configs)
  ++ (if roleExists db (resolved_filter auth) then [resolved_filter auth] else []) ++ [TrimSpace defaultRole].

Lemma unless_set_empty x : unless_set x "" = x.
Proof. unfold unless_set. by destruct (String.eqb_spec x "") as [->|]. Qed.
Lemma unless_set_assoc x y z : unless_set (unless_set x y) z = unless_set x (unless_set y z).
Proof. unfold unless_set. destruct (String.eqb_spec x "") as [->|Hx]; [done|]. by destruct (String.eqb_spec x ""). Qed.
Lemma first_text_app l k : first_text (l ++ k) = unless_set (first_text l) (first_text k).
Proof. induction l as [|x l IH]; [done|]. simpl. by rewrite IH, unless_set_assoc. Qed.

Lemma map_config_role auth st cfg :
  MpRole (map_config auth (resolved_filter auth) (TrimSpace (AuClass auth)) st cfg) = unless_set (MpRole st) (first_text (mapped_roles auth cfg)).
Proof.
  unfold map_config, mapped_roles. simpl. rewrite !first_text_app. unfold unless_set.
  destruct (String.eqb_spec (MpRole st) "") as [->|Hst]; simpl;
    [|destruct (String.eqb_spec (MpRole st) ""); [done|]; simpl; by destruct (String.eqb_spec (MpRole st) "")].
  destruct (resolved_filter auth =? "")%string; simpl; destruct (TrimSpace (AuClass auth) =? "")%string; simpl; destruct (AuHasVLAN auth); simpl;
    rewrite ?andb_true_r, ?andb_false_r, ?unless_set_empty; unfold unless_set; repeat (split_if; try done); by repeat match goal with H : (_ =? _)%string = true |- _ => apply String.eqb_eq in H; rewrite H in * end.
Qed.

Lemma mapped_role auth configs : forall st,
  MpRole (foldl (map_config auth (resolved_filter auth) (TrimSpace (AuClass auth))) st configs) = unless_set (MpRole st) (first_text (flat_map (mapped_roles auth) configs)).
Proof.
  induction configs as [|cfg configs IH]; intros st; simpl; [by rewrite unless_set_empty|].
  by rewrite IH, map_config_role, first_text_app, unless_set_assoc.
Qed.
Lemma mapped_default auth filterID class configs : forall st,
  MpDefaultRole (foldl (map_config auth filterID class) st configs) = unless_set (MpDefaultRole st) (first_text ((fun cfg => TrimSpace (DefaultRole cfg)) <$> configs)).
Proof.
  induction configs as [|cfg configs IH]; intros st; simpl; [by rewrite unless_set_empty|]. rewrite IH.
  change (MpDefaultRole (map_config auth filterID class st cfg)) with (unless_set (MpDefaultRole st) (TrimSpace (DefaultRole cfg))). by rewrite unless_set_assoc.
Qed.

Lemma resolved_role_lemma db defaultRole auth policy :
  ResolveSessionPolicy db defaultRole (Some auth) = Ok policy ->
  exists configs, loadRadiusIdentityConfigs db = Ok configs /\ PlRole policy = first_text (role_candidates db defaultRole auth configs).
Proof.
  intros Hp. simpl in Hp. apply bind_Ok in Hp as (configs & Hconfigs & Hp). exists configs. split; [done|]. cbv zeta in Hp.
  apply bind_Ok in Hp as (rp & _ & [= <-]). simpl PlRole. unfold role_candidates. cbn [first_text]. rewrite !first_text_app, mapped_role, mapped_default. simpl MpRole. simpl MpDefaultRole.
  set (V := TrimSpace (AuVendorRole auth)). set (M := first_text (flat_map (mapped_roles auth) configs)).
  set (D := first_text ((fun cfg => TrimSpace (DefaultRole cfg)) <$> configs)). change (unless_set "" D) with D.
  rewrite <- !unless_set_assoc. set (r := unless_set (unless_set V M) D).
  assert (roleExists db (resolved_filter auth) = true -> (resolved_filter auth =? "")%string = false) as Hne.
  { unfold roleExists. destruct db; [|done]. intros [Ht _]%andb_prop. apply String.eqb_neq. intros Heq. by rewrite Heq in Ht. }
  assert (first_text [TrimSpace defaultRole] = TrimSpace defaultRole) as -> by apply unless_set_empty. f_equal. unfold unless_set at 1.
  destruct (roleExists db (resolved_filter auth)); [rewrite Hne by done|]; simpl; rewrite ?andb_true_r, ?andb_false_r, ?unless_set_empty; by destruct (String.eqb_spec r "").
Qed.

(** The role is the first that is not empty of: the vendor's role attribute, what the identity sources map the filter, the class and the VLAN to, in their order, their
    default roles, the filter itself if there is a role of that name, and the configured default. *)
Theorem resolved_role db defaultRole auth policy :
  ResolveSessionPolicy db defaultRole (Some auth) = Ok policy ->
  exists configs, loadRadiusIdentityConfigs db = Ok configs /\ PlRole policy = first_text (role_candidates db defaultRole auth configs).
Proof. apply resolved_role_lemma. Qed.

Module example.
Definition source : radiusIdentityConfig := mkIdentityConfig "visitor" "" {["vip" := "staff"]} ∅ ∅ ∅.
Definition db : option PolicyDB := Some (mkPolicyDB (Ok [source]) ∅ [] []).
Definition vip : Auth := mkAuth " vip " "" 0 false 0 false 0 false 0 0 "" "" "" "" "" 0 false 0 false 0 false false false.
Lemma resolved_role_witness :
  exists configs, loadRadiusIdentityConfigs db = Ok configs
    /\ PlRole (mkSessionPolicy "staff" "radius" "" "vip" "" "" 0 0 0) = first_text (role_candidates db "guest" vip configs).
Proof. apply (resolved_role db "guest" vip (mkSessionPolicy "staff" "radius" "" "vip" "" "" 0 0 0)). vm_compute. reflexivity. Defined.
Example default_of_the_source : PlRole <$> ResolveSessionPolicy db "guest" (Some no_attributes) = Ok "visitor".
Proof. vm_compute. reflexivity. Qed.
End example.
