(* ===== verification/Sessions.v ===== *)
(** * Sessions and dynamic authorization ([internal/sessions])

    The [Manager] of [manager.go] keeps the table of sessions: it ends those that are over their time-outs, ends or reclassifies a session that an
    operator or a RADIUS server names, and reports what ended to the accounting. The [DynamicAuthServer] of [dynamic_auth.go] takes disconnect and
    change-of-authorization requests: the hardener of [PacketHardening] checks the packet, [SessionPolicy] resolves what it asks for, and the manager carries it out.

    Instants are nanoseconds; a column of an instant holds the text that is stored. The table is a list of rows in the order in which an unordered query
    finds them. What follows a change (the synchronisation of the enforcement, the Stop record that a goroutine sends)
    is listed as effects. Errors of the database other than those of reading a row, the HTTP lists and logging are left out. *)

From S2P Require Import Prelude GoStrings Bytes PacketHardening SessionPolicy.

(** [time.Parse] with the layouts of [parseDBTime] in turn, the text of a stored [time.Time], the text of [datetime('now', ...)], and [int(Duration.Seconds())] *)
Class SessionTime := { parse_layouts : string -> option Z; time_text : Z -> string; datetime_text : Z -> string; whole_seconds : Z -> Z }.

(** The attributes of a packet ([rfc2866], [rfc2865]), empty if they are absent, and [ParseBrokerPacketWithConfig] *)
Class DacAttributes := { AcctSessionID : Packet -> string; UserName : Packet -> string; CallingStationID : Packet -> string; broker_result : Packet -> Auth }.

(** ** Data *)

(** A row of [sessions], the columns that count here *)
Record Session := mkSession {
  SsID : string; SsUsername : string; SsMAC : option string; SsIP : option string; SsCalledStationID : option string; SsVLAN : option Z; SsRole : option string;
  SsBandwidthProfile : option string; SsFilterID : option string; SsACLPolicyName : option string; SsRadiusClass : option string; SsRadiusSessionID : option string;
  SsStartTime : string; SsLastActivity : option string; SsEndTime : option string; SsStopReason : option string;
  SsSessionTimeout : option Z; SsIdleTimeout : option Z; SsBytesIn : Z; SsBytesOut : Z }.

Record ActiveSession := mkActive {
  AsID : string; AsUsername : string; AsMAC : string; AsIP : string; AsFilterID : string; AsACLPolicyName : string; AsRadiusClass : string; AsCalledStationID : string;
  AsVLAN : Z; AsRole : string; AsBandwidthProfile : string; AsStartTime : option Z; AsLastActivity : option Z; AsBytesIn : Z; AsBytesOut : Z;
  AsSessionTimeout : Z; AsIdleTimeout : Z }.

Record PolicyUpdate := mkUpdate {
  UpRole : string; UpVLAN : Z; UpBandwidthProfile : string; UpFilterID : string; UpACLPolicyName : string; UpRadiusClass : string; UpSessionTimeout : Z; UpIdleTimeout : Z }.

(** The fields of [radius.AccountingRecord] that are set here *)
Record AccountingRecord := mkAccounting {
  RcSessionID : string; RcUsername : string; RcCallingStationID : string; RcCalledStationID : string; RcFramedIPAddress : string; RcStatusType : string;
  RcSessionTime : Z; RcStopReason : string; RcRole : string; RcBandwidthProfile : string; RcFilterID : string; RcRadiusClass : string; RcVLAN : Z;
  RcSessionTimeout : Z; RcIdleTimeout : Z; RcInputOctets : Z; RcOutputOctets : Z }.

Inductive effect := SyncEnforcement | StopAccounting (sessionID reason : string).

(** [sql.ErrNoRows], or a row that cannot be read *)
Inductive find_error := NoRows | ScanError.
#[export] Instance find_error_eq_dec : EqDecision find_error.
Proof. solve_decision. Defined.

Section sessions.
Context {U : Unicode} {MR : MapRange} {ST : SessionTime}.

(** ** Instants *)

Fixpoint before (sub s : string) : string :=
  if String.prefix sub s then "" else match s with "" => "" | String c s => String c (before sub s) end.
(** [None] is the zero time. *)
Definition parseDBTime (value : string) : option Z := if (value =? "")%string then None else parse_layouts (before " m=" (TrimSpace value)).
(** [int(time.Since(start).Seconds())] *)
Definition elapsed_seconds (now : Z) (start : option Z) : Z :=
  whole_seconds (match start with None => 9223372036854775807 | Some t => Z.max (-9223372036854775808) (Z.min 9223372036854775807 (now - t)) end).

(** ** Time-outs *)

Definition active (s : Session) : bool := match SsEndTime s with None => true | Some _ => false end.
Definition text (column : option string) : string := default "" column.

Definition timeoutValue (sessionValue roleValue : option Z) (fallback : Z) : Z :=
  match sessionValue with
  | Some v => if v >? 0 then v else match roleValue with Some r => if r >? 0 then r else fallback | None => fallback end
  | None => match roleValue with Some r => if r >? 0 then r else fallback | None => fallback end
  end.

(** Of an active row of the join with the roles: nothing if the row cannot be read *)
Definition expired_reason (now : Z) (roles : gmap string RoleRow) (s : Session) : option string :=
  let role := match SsRole s with Some name => roles !! name | None => None end in
  match (sessionTO ← scan_int32 (SsSessionTimeout s); idleTO ← scan_int32 (SsIdleTimeout s);
         roleSessionTO ← scan_int32 (role ≫= RoSessionTimeout); roleIdleTO ← scan_int32 (role ≫= RoIdleTimeout); Ok (sessionTO, idleTO, roleSessionTO, roleIdleTO)) with
  | Err _ => None
  | Ok (sessionTO, idleTO, roleSessionTO, roleIdleTO) =>
      let startTime := parseDBTime (SsStartTime s) in
      let absTimeout := timeoutValue sessionTO roleSessionTO 28800 in
      if (absTimeout >? 0) && match startTime with None => true | Some t => now >? t + absTimeout * second end then Some "Session timeout reached"
      else
        let idleTimeout := timeoutValue idleTO roleIdleTO 3600 in
        let lastActivity := text (SsLastActivity s) in
        if (idleTimeout >? 0) && negb (lastActivity =? "")%string
           && match parseDBTime lastActivity with None => true | Some t => now >? t + idleTimeout * second end
        then Some "Idle timeout reached" else None
  end.

(** ** Ending a session *)

Definition with_end (s : Session) (endTime reason : string) : Session :=
  mkSession (SsID s) (SsUsername s) (SsMAC s) (SsIP s) (SsCalledStationID s) (SsVLAN s) (SsRole s) (SsBandwidthProfile s) (SsFilterID s) (SsACLPolicyName s)
    (SsRadiusClass s) (SsRadiusSessionID s) (SsStartTime s) (SsLastActivity s) (Some endTime) (Some reason) (SsSessionTimeout s) (SsIdleTimeout s) (SsBytesIn s) (SsBytesOut s).
Definition end_row (now : Z) (sessionID reason : string) (s : Session) : Session :=
  if (SsID s =? sessionID)%string && active s then with_end s (time_text now) reason else s.
Definition terminateSession (now : Z) (sessionID reason : string) (rows : list Session) : list Session * list effect :=
  (end_row now sessionID reason <$> rows, [SyncEnforcement; StopAccounting sessionID reason]).

(** The Stop record that the goroutine builds from the row: [Scan] stops at the first column that it cannot convert. *)
Definition stop_record (now : Z) (sessionID reason : string) (rows : list Session) : AccountingRecord :=
  let record username mac ip called role bandwidth filter class vlan session idle start :=
    mkAccounting sessionID username mac called ip "Stop" (elapsed_seconds now start) reason role bandwidth filter class vlan session idle 0 0 in
  match List.find (fun s => SsID s =? sessionID)%string rows with
  | None => record "" "" "" "" "" "" "" "" 0 0 0 None
  | Some s =>
      match SsMAC s with
      | None => record (SsUsername s) "" "" "" "" "" "" "" 0 0 0 None
      | Some mac =>
          match SsIP s with
          | None => record (SsUsername s) mac "" "" "" "" "" "" 0 0 0 None
          | Some ip =>
              let full := record (SsUsername s) mac ip (text (SsCalledStationID s)) (text (SsRole s)) (text (SsBandwidthProfile s)) (text (SsFilterID s))
                            (text (SsRadiusClass s)) (default 0 (SsVLAN s)) in
              match scan_int32 (SsSessionTimeout s) with
              | Err _ => full 0 0 None
              | Ok session =>
                  match scan_int32 (SsIdleTimeout s) with
                  | Err _ => full (default 0 session) 0 None
                  | Ok idle => full (default 0 session) (default 0 idle) (parseDBTime (SsStartTime s))
                  end
              end
          end
      end
  end.

Definition HandleTerminateSession (now : Z) (sessionID : string) (rows : list Session) : list Session * list effect :=
  terminateSession now sessionID "Admin termination" rows.

(** [enforceTimeouts]: [now] when the rows are read, [later] when they are ended, in the order in which Go ranges over the map *)
Definition note_expired (now : Z) (roles : gmap string RoleRow) (expired : gmap string string) (s : Session) : gmap string string :=
  match expired_reason now roles s with Some reason => <[SsID s := reason]> expired | None => expired end.
Definition expired_sessions (now : Z) (roles : gmap string RoleRow) (rows : list Session) : gmap string string := foldl (note_expired now roles) ∅ (List.filter active rows).
Definition terminate_all (later : Z) (l : list (string * string)) (rows : list Session) : list Session * list effect :=
  foldl (fun '(rows, effects) '(id, reason) => let '(rows, more) := terminateSession later id reason rows in (rows, effects ++ more)) (rows, []) l.
Definition enforceTimeouts (now later : Z) (roles : gmap string RoleRow) (rows : list Session) : list Session * list effect :=
  let '(rows, effects) := terminate_all later (range_map (expired_sessions now roles rows)) rows in (rows, effects ++ [SyncEnforcement]).

(** Sessions that ended more than seven days ago are deleted; the texts are compared. *)
Definition cleanupExpiredSessions (now : Z) (rows : list Session) : list Session :=
  List.filter (fun s => match SsEndTime s with Some e => negb (string_less e (datetime_text (now - 7 * 24 * 3600 * second))) | None => true end) rows.

Definition EnforceConcurrentLimit (username : string) (rows : list Session) : bool :=
  zlen (List.filter (fun s => (SsUsername s =? username)%string && active s) rows) >=? 2.

Definition with_activity (s : Session) (lastActivity : string) : Session :=
  mkSession (SsID s) (SsUsername s) (SsMAC s) (SsIP s) (SsCalledStationID s) (SsVLAN s) (SsRole s) (SsBandwidthProfile s) (SsFilterID s) (SsACLPolicyName s)
    (SsRadiusClass s) (SsRadiusSessionID s) (SsStartTime s) (Some lastActivity) (SsEndTime s) (SsStopReason s) (SsSessionTimeout s) (SsIdleTimeout s) (SsBytesIn s) (SsBytesOut s).
Definition UpdateLastActivity (now : Z) (sessionID : string) (rows : list Session) : list Session :=
  (fun s => if (SsID s =? sessionID)%string then with_activity s (time_text now) else s) <$> rows.

(** ** Finding a session *)

Definition read_active (s : Session) : result find_error ActiveSession :=
  match scan_int32 (SsSessionTimeout s), scan_int32 (SsIdleTimeout s) with
  | Ok session, Ok idle =>
      Ok (mkActive (SsID s) (SsUsername s) (text (SsMAC s)) (text (SsIP s)) (text (SsFilterID s)) (text (SsACLPolicyName s)) (text (SsRadiusClass s)) (text (SsCalledStationID s))
            (default 0 (SsVLAN s)) (text (SsRole s)) (text (SsBandwidthProfile s)) (parseDBTime (SsStartTime s)) (parseDBTime (text (SsLastActivity s)))
            (SsBytesIn s) (SsBytesOut s) (default 0 session) (default 0 idle))
  | _, _ => Err ScanError
  end.

(** [ORDER BY start_time DESC LIMIT 1] *)
Definition started_later (a b : Session) : bool := string_less (SsStartTime b) (SsStartTime a).
Definition first_active (p : Session -> bool) (rows : list Session) : option Session := head (List.filter (fun s => p s && active s) rows).
Definition latest_active (p : Session -> bool) (rows : list Session) : option Session := head (sort_by started_later (List.filter (fun s => p s && active s) rows)).

Definition candidates (sessionID username mac : string) (rows : list Session) : list (string * option Session) :=
  [(sessionID, first_active (fun s => SsID s =? sessionID)%string rows);
   (sessionID, first_active (fun s => match SsRadiusSessionID s with Some id => id =? sessionID | None => false end)%string rows);
   (username, latest_active (fun s => SsUsername s =? username)%string rows);
   (mac, latest_active (fun s => match SsMAC s with Some m => m =? mac | None => false end)%string rows)].
Fixpoint first_candidate (l : list (string * option Session)) : result find_error ActiveSession :=
  match l with
  | [] => Err NoRows
  | (value, found) :: l => if (value =? "")%string then first_candidate l else match found with Some s => read_active s | None => first_candidate l end
  end.
Definition findActiveSession (sessionID username mac : string) (rows : list Session) : result find_error ActiveSession := first_candidate (candidates sessionID username mac rows).

(** [GetActiveSession]: time-outs that are not set come from the role, if its row can be read. *)
Definition GetActiveSession (roles : gmap string RoleRow) (sessionID : string) (rows : list Session) : result find_error ActiveSession :=
  match first_active (fun s => SsID s =? sessionID)%string rows with
  | None => Err NoRows
  | Some s =>
      a ← read_active s;
      let from_role := match roles !! AsRole a with
        | Some row => match scan_int32 (RoSessionTimeout row), scan_int32 (RoIdleTimeout row) with Ok session, Ok idle => (default 0 session, default 0 idle) | _, _ => (0, 0) end
        | None => (0, 0)
        end in
      Ok (mkActive (AsID a) (AsUsername a) (AsMAC a) (AsIP a) (AsFilterID a) (AsACLPolicyName a) (AsRadiusClass a) (AsCalledStationID a) (AsVLAN a) (AsRole a)
            (AsBandwidthProfile a) (AsStartTime a) (AsLastActivity a) (AsBytesIn a) (AsBytesOut a)
            (if AsSessionTimeout a =? 0 then from_role.1 else AsSessionTimeout a) (if AsIdleTimeout a =? 0 then from_role.2 else AsIdleTimeout a))
  end.

(** ** Ending and reclassifying by criteria *)

(** Whether a session was found, the rows and the effects *)
Definition outcome : Type := result find_error bool * list Session * list effect.

Definition TerminateByCriteria (now : Z) (sessionID username mac reason : string) (rows : list Session) : outcome :=
  match findActiveSession sessionID username mac rows with
  | Err NoRows => (Ok false, rows, [])
  | Err ScanError => (Err ScanError, rows, [])
  | Ok s => let '(rows, effects) := terminateSession now (AsID s) reason rows in (Ok true, rows, effects)
  end.

Definition immediatePolicyReason (now : Z) (startTime lastActivity : option Z) (sessionTimeout idleTimeout : Z) : string :=
  if (sessionTimeout >? 0) && match startTime with Some t => t + sessionTimeout * second <=? now | None => false end then "Session timeout reached"
  else
    let lastActivity := match lastActivity with None => startTime | Some t => Some t end in
    if (idleTimeout >? 0) && match lastActivity with Some t => t + idleTimeout * second <=? now | None => false end then "Idle timeout reached" else "".

Definition nullIfEmptyString (value : string) : option string := if (value =? "")%string then None else Some value.
Definition nullIfZeroInt (value : Z) : option Z := if value =? 0 then None else Some value.

(** What the update leaves open stays as it is in the session. *)
Definition completed (update : PolicyUpdate) (s : ActiveSession) : PolicyUpdate :=
  let text value current := if (value =? "")%string then current else value in
  let number (value current : Z) := if value =? 0 then current else value in
  mkUpdate (text (UpRole update) (AsRole s)) (number (UpVLAN update) (AsVLAN s)) (text (UpBandwidthProfile update) (AsBandwidthProfile s))
    (text (UpFilterID update) (AsFilterID s)) (text (UpACLPolicyName update) (AsACLPolicyName s)) (text (UpRadiusClass update) (AsRadiusClass s))
    (number (UpSessionTimeout update) (AsSessionTimeout s)) (number (UpIdleTimeout update) (AsIdleTimeout s)).
Definition with_policy (u : PolicyUpdate) (lastActivity : string) (s : Session) : Session :=
  mkSession (SsID s) (SsUsername s) (SsMAC s) (SsIP s) (SsCalledStationID s) (nullIfZeroInt (UpVLAN u)) (nullIfEmptyString (UpRole u)) (nullIfEmptyString (UpBandwidthProfile u))
    (nullIfEmptyString (UpFilterID u)) (nullIfEmptyString (UpACLPolicyName u)) (nullIfEmptyString (UpRadiusClass u)) (SsRadiusSessionID s) (SsStartTime s) (Some lastActivity)
    (SsEndTime s) (SsStopReason s) (nullIfZeroInt (UpSessionTimeout u)) (nullIfZeroInt (UpIdleTimeout u)) (SsBytesIn s) (SsBytesOut s).
Definition update_row (u : PolicyUpdate) (now : Z) (sessionID : string) (s : Session) : Session :=
  if (SsID s =? sessionID)%string && active s then with_policy u (time_text now) s else s.

Definition ReclassifyByCriteria (now : Z) (sessionID username mac : string) (update : PolicyUpdate) (rows : list Session) : outcome :=
  match findActiveSession sessionID username mac rows with
  | Err NoRows => (Ok false, rows, [])
  | Err ScanError => (Err ScanError, rows, [])
  | Ok s =>
      let update := completed update s in
      let rows := update_row update now (AsID s) <$> rows in
      if negb (UpVLAN update =? 0) && negb (UpVLAN update =? AsVLAN s) then
        let '(rows, effects) := terminateSession now (AsID s) "VLAN reassignment requested" rows in (Ok true, rows, SyncEnforcement :: effects)
      else
        let reason := immediatePolicyReason now (AsStartTime s) (AsLastActivity s) (UpSessionTimeout update) (UpIdleTimeout update) in
        if negb (reason =? "")%string then let '(rows, effects) := terminateSession now (AsID s) reason rows in (Ok true, rows, SyncEnforcement :: effects)
        else (Ok true, rows, [SyncEnforcement])
  end.

(** The Interim-Update records of the active sessions; a row that cannot be read is passed over. *)
Definition interim_record (now : Z) (s : Session) : option AccountingRecord :=
  match scan_int32 (SsSessionTimeout s), scan_int32 (SsIdleTimeout s) with
  | Ok session, Ok idle =>
      Some (mkAccounting (SsID s) (SsUsername s) (text (SsMAC s)) (text (SsCalledStationID s)) (text (SsIP s)) "Interim-Update" (elapsed_seconds now (parseDBTime (SsStartTime s))) ""
              (text (SsRole s)) (text (SsBandwidthProfile s)) (text (SsFilterID s)) (text (SsRadiusClass s)) (default 0 (SsVLAN s)) (default 0 session) (default 0 idle)
              (SsBytesIn s) (SsBytesOut s))
  | _, _ => None
  end.
Definition sendInterimAccounting (now : Z) (rows : list Session) : list AccountingRecord := omap (interim_record now) (List.filter active rows).
End sessions.

(** ** Dynamic authorization *)

Definition CodeDisconnectACK : Z := 41.
Definition CodeDisconnectNAK : Z := 42.
Definition CodeCoAACK : Z := 44.
Definition CodeCoANAK : Z := 45.

(** The text of a reply: one of the server, or that of the hardener for the reason of a rejection *)
Inductive reply_text := Said (message : string) | HardenerMessage (reason : string).
Record Reply := mkReply { ReCode : Z; ReMessage : reply_text }.
(** [RecordVendorDynamicAuth] *)
Record VendorRecord := mkVendorRecord { VrAction : string; VrOk : bool; VrMessage : string }.

(** The server, with the manager's rows and the hardener's table of decisions *)
Record DynamicAuthServer `{SourceAddress} := mkServer { DaHardener : PacketHardener; DaRows : list Session; DaEvents : EventTable }.
Arguments mkServer {_}.
(** What handling a packet does besides: replies, records of vendor actions, effects of the manager, and what the registry of servers is told *)
Record Handled := mkHandled { HaReplies : list Reply; HaVendor : list VendorRecord; HaEffects : list effect; HaNas : list nas_event }.

Section dynamic_auth.
Context {U : Unicode} {SA : SourceAddress} {RO : Rounding} {RP : RadiusParse} {MR : MapRange} {ST : SessionTime} {DA : DacAttributes}.

Definition NewDynamicAuthServer (cfg : option RadiusConfig) (rows : list Session) (events : EventTable) : DynamicAuthServer :=
  mkServer (NewPacketHardener cfg) rows events.

(** [remoteHost] of this package, which does not trim *)
Definition dac_remoteHost (addr : option string) : string :=
  match addr with None => "" | Some t => match SplitHostPort t with Some host => host | None => t end end.

(** [RADIUSSecret]: the secret a packet from an address is checked with; the library drops the packet where there is none. *)
Definition RADIUSSecret (cfg : option RadiusConfig) (addr : option string) : option string :=
  match cfg with
  | None => None
  | Some c =>
      if negb (SourceAllowedByPacketHardening cfg addr) then None
      else match List.find (fun server => EqualFold (TrimSpace server.1) (dac_remoteHost addr)) (RcUpstream c) with
           | Some server => Some server.2
           | None => if RcUpstreamEnabled c then None else Some (RcSecret c)
           end
  end.

Definition nakCodeForRequest (code : Z) : Z := if code =? CodeDisconnectRequest then CodeDisconnectNAK else CodeCoANAK.

Definition policyUpdateFromPacket (db : option PolicyDB) (defaultRole : string) (packet : Packet) : result string PolicyUpdate :=
  p ← ResolveSessionPolicy db defaultRole (Some (broker_result packet));
  Ok (mkUpdate (PlRole p) (PlVLAN p) (PlBandwidthProfile p) (PlFilterID p) (PlACLPolicyName p) (PlRadiusClass p) (PlSessionTimeout p) (PlIdleTimeout p)).

(** [handle], of a packet from an address at an instant *)
Definition handle (cfg : option RadiusConfig) (db : option PolicyDB) (defaultRole : string) (now : Z) (addr : option string) (packet : Packet) (s : DynamicAuthServer)
    : DynamicAuthServer * Handled :=
  let '(checked, nas, hardener) := ValidatePacket (DaHardener s) now (mkContext addr "dynamic_authorization" None (PkSecret packet)) (Some packet) in
  let events := (RecordPacketHardeningDecision cfg (now / second) checked (DaEvents s)).1 in
  let answer code message action ok rows effects :=
    (mkServer hardener rows events, mkHandled [mkReply code (Said message)] [mkVendorRecord action ok message] effects nas) in
  if negb (Accepted checked) then
    (mkServer hardener (DaRows s) events, mkHandled [mkReply (nakCodeForRequest (PkCode packet)) (HardenerMessage (Reason checked))] [] [] nas)
  else
    let sessionID := AcctSessionID packet in
    let username := UserName packet in
    let mac := CallingStationID packet in
    if PkCode packet =? CodeDisconnectRequest then
      match TerminateByCriteria now sessionID username mac "disconnect-request" (DaRows s) with
      | (Err _, rows, effects) => answer CodeDisconnectNAK "disconnect failed" "disconnect" false rows effects
      | (Ok false, rows, effects) => answer CodeDisconnectNAK "session not found" "disconnect" false rows effects
      | (Ok true, rows, effects) => answer CodeDisconnectACK "session terminated" "disconnect" true rows effects
      end
    else if PkCode packet =? CodeCoARequest then
      match policyUpdateFromPacket db defaultRole packet with
      | Err _ => answer CodeCoANAK "invalid policy update" "coa" false (DaRows s) []
      | Ok update =>
          match ReclassifyByCriteria now sessionID username mac update (DaRows s) with
          | (Err _, rows, effects) => answer CodeCoANAK "reclassify failed" "coa" false rows effects
          | (Ok false, rows, effects) => answer CodeCoANAK "session not found" "coa" false rows effects
          | (Ok true, rows, effects) => answer CodeCoAACK "session updated" "coa" true rows effects
          end
      end
    else (mkServer hardener (DaRows s) events,
          mkHandled [mkReply CodeCoANAK (Said "unsupported code")] [mkVendorRecord "coa" false "unsupported dynamic authorization code"] [] nas).
End dynamic_auth.

(** ** The sweep of the time-outs *)

Section sweep.
Context {U : Unicode} {MR : MapRange} {ST : SessionTime}.
Implicit Types (s : Session) (rows : list Session).

Definition unique_ids rows : Prop := NoDup (SsID <$> rows).
Lemma end_row_id now id reason s : SsID (end_row now id reason s) = SsID s.
Proof. unfold end_row. by split_if. Qed.

(** The reason for which a row is ended, by its id *)
Definition end_by later (l : list (string * string)) s : Session :=
  if active s then match List.find (fun e => e.1 =? SsID s)%string l with Some e => with_end s (time_text later) e.2 | None => s end else s.

Lemma end_by_cons later id reason l s : end_by later l (end_row later id reason s) = end_by later ((id, reason) :: l) s.
Proof.
  unfold end_row, end_by. simpl. rewrite (String.eqb_sym id (SsID s)). destruct (String.eqb_spec (SsID s) id) as [Heq|Hne]; simpl; [|by destruct (active s)].
  destruct (active s) eqn:Ha; simpl; [done | by rewrite Ha].
Qed.

Lemma terminate_all_rows later l : forall rows effects,
  (foldl (fun '(rows, effects) '(id, reason) => let '(rows, more) := terminateSession later id reason rows in (rows, effects ++ more)) (rows, effects) l)
  = (end_by later l <$> rows, effects ++ flat_map (fun e => [SyncEnforcement; StopAccounting e.1 e.2]) l).
Proof.
  induction l as [|[id reason] l IH]; intros rows effects; cbn [foldl].
  - rewrite app_nil_r. f_equal. rewrite <- (list_fmap_id rows) at 1. apply list_fmap_ext. intros _ s _. unfold end_by. simpl. by destruct (active s).
  - simpl. rewrite IH, <- app_assoc. simpl. f_equal. rewrite <- list_fmap_compose. apply list_fmap_ext. intros _ s _. apply end_by_cons.
Qed.

Lemma find_range (m : gmap string string) id :
  List.find (fun e => e.1 =? id)%string (range_map m) = (fun reason => (id, reason)) <$> m !! id.
Proof.
  destruct (List.find _ _) as [[k reason]|] eqn:E.
  - apply find_some in E as [Hin Heq]. apply String.eqb_eq in Heq. simpl in Heq. subst id. apply list_elem_of_In, elem_of_range_map in Hin. by rewrite Hin.
  - destruct (m !! id) as [reason|] eqn:Hm; [|done]. apply elem_of_range_map, list_elem_of_In in Hm. apply (find_none _ _ E) in Hm. simpl in Hm. by rewrite String.eqb_refl in Hm.
Qed.

Lemma note_expired_other now roles rows k : forall m, k ∉ SsID <$> rows -> foldl (note_expired now roles) m rows !! k = m !! k.
Proof.
  induction rows as [|t rows IH]; intros m Hk; [done|]. rewrite fmap_cons in Hk. apply not_elem_of_cons in Hk as [Hne Hk]. cbn [foldl].
  rewrite IH by done. unfold note_expired. destruct (expired_reason now roles t); [by rewrite lookup_insert_ne | done].
Qed.
Lemma expired_lookup now roles rows : forall m s, unique_ids rows -> s ∈ rows -> (forall t, t ∈ rows -> m !! SsID t = None) ->
  foldl (note_expired now roles) m rows !! SsID s = expired_reason now roles s.
Proof.
  unfold unique_ids. induction rows as [|t rows IH]; intros m s Hnodup Hs Hm; [by apply not_elem_of_nil in Hs|]. rewrite fmap_cons in Hnodup. apply NoDup_cons in Hnodup as [Ht Hnodup].
  cbn [foldl]. apply elem_of_cons in Hs as [->|Hs].
  - rewrite note_expired_other by done. unfold note_expired. destruct (expired_reason now roles t); [apply lookup_insert_eq | apply Hm; by left].
  - apply IH; [done | done|]. intros u Hu. assert (SsID u <> SsID t) as Hne by (intros Heq; apply Ht; rewrite <- Heq; apply list_elem_of_fmap; eauto).
    unfold note_expired. destruct (expired_reason now roles t); [rewrite lookup_insert_ne by done|]; apply Hm; by right.
Qed.

(** What the sweep does to one row *)
Definition swept now later roles s : Session :=
  if active s then match expired_reason now roles s with Some reason => with_end s (time_text later) reason | None => s end else s.

Lemma unique_filter p rows : unique_ids rows -> unique_ids (List.filter p rows).
Proof.
  unfold unique_ids. intros Hnodup. eapply sublist_NoDup; [exact Hnodup|]. apply fmap_sublist. clear Hnodup. induction rows as [|s rows IH]; simpl; [done|].
  split_if; by constructor.
Qed.

Lemma enforceTimeouts_rows now later roles rows : unique_ids rows -> (enforceTimeouts now later roles rows).1 = swept now later roles <$> rows.
Proof.
  intros Hnodup. unfold enforceTimeouts, terminate_all. rewrite terminate_all_rows. simpl. apply list_fmap_ext. intros i s Hs. apply list_elem_of_lookup_2 in Hs.
  unfold end_by, swept. destruct (active s) eqn:Ha; [|done]. rewrite find_range. unfold expired_sessions.
  rewrite expired_lookup; [by destruct (expired_reason now roles s) | by apply unique_filter | apply list_elem_of_In, filter_In; split; [by apply list_elem_of_In | done] |].
  intros t _. apply lookup_empty.
Qed.
End sweep.

(** ** Time-outs, as a specification *)

Section timeouts.
Context {U : Unicode} {MR : MapRange} {ST : SessionTime}.
Implicit Types (s : Session) (rows : list Session) (roles : gmap string RoleRow).

Definition role_of roles s : option RoleRow := match SsRole s with Some name => roles !! name | None => None end.
Definition fits_int32 (column : option Z) : Prop := match column with Some v => -2147483648 <= v <= 2147483647 | None => True end.
(** The four columns of time-outs fit into the 32 bits they are read into. *)
Definition readable roles s : Prop :=
  fits_int32 (SsSessionTimeout s) /\ fits_int32 (SsIdleTimeout s) /\ fits_int32 (role_of roles s ≫= RoSessionTimeout) /\ fits_int32 (role_of roles s ≫= RoIdleTimeout).

#[local] Instance fits_int32_dec column : base.Decision (fits_int32 column).
Proof. unfold fits_int32. destruct column; apply _. Defined.
#[local] Instance readable_dec roles s : base.Decision (readable roles s).
Proof. unfold readable. apply _. Defined.

(** A session's own limits, or those of its role, or 8 hours and 1 hour *)
Definition session_limit roles s : Z := timeoutValue (SsSessionTimeout s) (role_of roles s ≫= RoSessionTimeout) 28800.
Definition idle_limit roles s : Z := timeoutValue (SsIdleTimeout s) (role_of roles s ≫= RoIdleTimeout) 3600.
Definition too_old (now limit : Z) (at_ : option Z) : Prop := forall t, at_ = Some t -> t + limit * second < now.
Definition too_long now roles s : Prop := too_old now (session_limit roles s) (parseDBTime (SsStartTime s)).
Definition too_idle now roles s : Prop := text (SsLastActivity s) <> "" /\ too_old now (idle_limit roles s) (parseDBTime (text (SsLastActivity s))).

Lemma scan_int32_ok column v : scan_int32 column = Ok v <-> fits_int32 column /\ v = column.
Proof.
  unfold scan_int32, fits_int32. destruct column as [x|]; [|split; [intros [= <-]; done | intros [_ ->]; done]].
  destruct (Z.leb_spec (-2147483648) x), (Z.leb_spec x 2147483647); simpl; (split; [intros [= <-]; split; [lia | done] || done | intros [? ->]; first [done | lia]]).
Qed.
Lemma scan_int32_err column e : scan_int32 column = Err e -> ~ fits_int32 column.
Proof. intros He Hfits. pose proof (proj2 (scan_int32_ok column column) (conj Hfits eq_refl)). congruence. Qed.

Lemma timeoutValue_pos sessionValue roleValue fallback : 0 < fallback -> 0 < timeoutValue sessionValue roleValue fallback.
Proof.
  intros Hf. unfold timeoutValue. destruct sessionValue as [v|], roleValue as [r|];
    repeat match goal with |- context [?x >? 0] => destruct (Z.gtb_spec x 0) end; lia.
Qed.

Lemma too_old_spec now limit at_ : match at_ with None => true | Some t => now >? t + limit * second end = true <-> too_old now limit at_.
Proof.
  unfold too_old. destruct at_ as [t|]; [|split; [intros _ t [=] | done]]. rewrite Z.gtb_ltb, Z.ltb_lt. split; [intros H t' [= <-]; done | intros H; by apply H].
Qed.

Lemma expired_reason_spec now roles s reason :
  expired_reason now roles s = Some reason <->
  readable roles s /\ (reason = "Session timeout reached" /\ too_long now roles s \/ reason = "Idle timeout reached" /\ ~ too_long now roles s /\ too_idle now roles s).
Proof.
  unfold expired_reason. fold (role_of roles s). unfold readable.
  destruct (scan_int32 (SsSessionTimeout s)) as [st|] eqn:E1; [apply scan_int32_ok in E1 as [H1 ->]; simpl | apply scan_int32_err in E1; naive_solver].
  destruct (scan_int32 (SsIdleTimeout s)) as [it|] eqn:E2; [apply scan_int32_ok in E2 as [H2 ->]; simpl | apply scan_int32_err in E2; naive_solver].
  destruct (scan_int32 (role_of roles s ≫= RoSessionTimeout)) as [rs|] eqn:E3; [apply scan_int32_ok in E3 as [H3 ->]; simpl | apply scan_int32_err in E3; naive_solver].
  destruct (scan_int32 (role_of roles s ≫= RoIdleTimeout)) as [ri|] eqn:E4; [apply scan_int32_ok in E4 as [H4 ->]; simpl | apply scan_int32_err in E4; naive_solver].
  fold (session_limit roles s). fold (idle_limit roles s).
  pose proof (timeoutValue_pos (SsSessionTimeout s) (role_of roles s ≫= RoSessionTimeout) 28800 ltac:(lia)) as Hs. fold (session_limit roles s) in Hs.
  pose proof (timeoutValue_pos (SsIdleTimeout s) (role_of roles s ≫= RoIdleTimeout) 3600 ltac:(lia)) as Hi. fold (idle_limit roles s) in Hi.
  destruct (Z.gtb_spec (session_limit roles s) 0); [|lia]. destruct (Z.gtb_spec (idle_limit roles s) 0); [|lia]. simpl andb.
  pose proof (too_old_spec now (session_limit roles s) (parseDBTime (SsStartTime s))) as Hlong. fold (too_long now roles s) in Hlong.
  destruct (match parseDBTime (SsStartTime s) with None => true | Some t => now >? t + session_limit roles s * second end) eqn:El.
  { split; [intros [= <-]; naive_solver | intros (_ & [[-> _]|(_ & Hn & _)]); [done|]; exfalso; by apply Hn, Hlong]. }
  assert (~ too_long now roles s) as Hnot by (intros Ht; by apply Hlong in Ht).
  pose proof (too_old_spec now (idle_limit roles s) (parseDBTime (text (SsLastActivity s)))) as Hidle. unfold too_idle.
  destruct (String.eqb_spec (text (SsLastActivity s)) "") as [Ht|Ht]; simpl.
  { split; [done|]. intros (_ & [[_ ?]|(_ & _ & ? & _)]); done. }
  destruct (match parseDBTime (text (SsLastActivity s)) with None => true | Some t => now >? t + idle_limit roles s * second end).
  - split; [intros [= <-]; naive_solver | intros (_ & [[_ ?]|(-> & _ & _)]); done].
  - split; [done|]. intros (_ & [[_ ?]|(_ & _ & _ & Hq)]); [done|]. by apply Hidle in Hq.
Qed.

(** C28: The sweep ends exactly the active sessions that are over a limit: one that ran longer than its limit, that of its role or 8 hours, or whose last activity, if there is
    one, is longer ago than the idle limit, or whose time cannot be read. It changes no other row, whatever the order in which Go visits the expired ones;
    but a session whose limits do not fit into 32 bits is never ended. *)
Theorem timeouts_enforced now later roles rows i s :
  unique_ids rows -> rows !! i = Some s ->
  exists s', (enforceTimeouts now later roles rows).1 !! i = Some s' /\
    (active s = true /\ readable roles s /\ too_long now roles s /\ s' = with_end s (time_text later) "Session timeout reached"
     \/ active s = true /\ readable roles s /\ ~ too_long now roles s /\ too_idle now roles s /\ s' = with_end s (time_text later) "Idle timeout reached"
     \/ s' = s /\ (active s = false \/ ~ readable roles s \/ ~ too_long now roles s /\ ~ too_idle now roles s)).
Proof.
  intros Hnodup Hs. rewrite enforceTimeouts_rows by done. rewrite list_lookup_fmap, Hs. eexists. split; [reflexivity|]. unfold swept.
  destruct (active s) eqn:Ha; [|by right; right; split; [|left]].
  destruct (expired_reason now roles s) as [reason|] eqn:E.
  - apply expired_reason_spec in E as (Hr & [[-> Ht]|(-> & Hn & Ht)]); [by left | by right; left].
  - right; right. split; [done|]. right. destruct (decide (readable roles s)) as [Hr|Hr]; [right | by left].
    split; intros Ht.
    + assert (expired_reason now roles s = Some "Session timeout reached") by (apply expired_reason_spec; split; [exact Hr | by left]). congruence.
    + destruct (match parseDBTime (SsStartTime s) with None => true | Some t => now >? t + session_limit roles s * second end) eqn:El.
      * assert (expired_reason now roles s = Some "Session timeout reached") by (apply expired_reason_spec; split; [exact Hr | left; split; [done | by apply too_old_spec]]). congruence.
      * assert (expired_reason now roles s = Some "Idle timeout reached"); [|congruence]. apply expired_reason_spec. split; [exact Hr|]. right. split; [done|]. split; [|done].
        intros Hl. apply too_old_spec in Hl. congruence.
Qed.
End timeouts.

(** ** What a request can change *)

Section requests.
Context {U : Unicode} {SA : SourceAddress} {RO : Rounding} {RP : RadiusParse} {MR : MapRange} {ST : SessionTime} {DA : DacAttributes}.
Implicit Types (s : Session) (rows : list Session).

(** A row that one of the given keys names *)
Definition named (sessionID username mac : string) s : Prop :=
  sessionID <> "" /\ (SsID s = sessionID \/ SsRadiusSessionID s = Some sessionID) \/ username <> "" /\ SsUsername s = username \/ mac <> "" /\ SsMAC s = Some mac.

Lemma first_active_some p rows s : first_active p rows = Some s -> s ∈ rows /\ active s = true /\ p s = true.
Proof.
  unfold first_active. intros Hs. apply head_Some_elem_of in Hs. apply list_elem_of_In, filter_In in Hs as [Hin [Hp Ha]%andb_prop]. split; [by apply list_elem_of_In | done].
Qed.
Lemma latest_active_some p rows s : latest_active p rows = Some s -> s ∈ rows /\ active s = true /\ p s = true.
Proof.
  unfold latest_active. intros Hs. apply head_Some_elem_of in Hs. rewrite sort_by_perm in Hs. apply list_elem_of_In, filter_In in Hs as [Hin [Hp Ha]%andb_prop].
  split; [by apply list_elem_of_In | done].
Qed.

Lemma read_active_id s a : read_active s = Ok a -> AsID a = SsID s.
Proof. unfold read_active. destruct (scan_int32 (SsSessionTimeout s)); [|done]. destruct (scan_int32 (SsIdleTimeout s)); [|done]. by intros [= <-]. Qed.

(** What is found is an active row that a key names. *)
Lemma find_named sessionID username mac rows a :
  findActiveSession sessionID username mac rows = Ok a -> exists s, s ∈ rows /\ active s = true /\ named sessionID username mac s /\ read_active s = Ok a.
Proof.
  unfold findActiveSession, candidates, named. simpl.
  destruct (String.eqb_spec sessionID "") as [Hid|Hid].
  - destruct (String.eqb_spec username "") as [Hu|Hu].
    + destruct (String.eqb_spec mac "") as [Hm|Hm]; [done|]. destruct (latest_active _ rows) as [s|] eqn:E; [|done]. apply latest_active_some in E as (Hin & Ha & Hp).
      exists s. destruct (SsMAC s) as [m|]; [|done]. apply String.eqb_eq in Hp as ->. naive_solver.
    + destruct (latest_active _ rows) as [s|] eqn:E; [apply latest_active_some in E as (Hin & Ha & Hp%String.eqb_eq); naive_solver|].
      destruct (String.eqb_spec mac "") as [Hm|Hm]; [done|]. destruct (latest_active (fun s => match SsMAC s with Some _ => _ | None => _ end) rows) as [s|] eqn:E'; [|done].
      apply latest_active_some in E' as (Hin & Ha & Hp). exists s. destruct (SsMAC s) as [m|]; [|done]. apply String.eqb_eq in Hp as ->. naive_solver.
  - destruct (first_active (fun s => SsID s =? sessionID)%string rows) as [s|] eqn:E; [apply first_active_some in E as (Hin & Ha & Hp%String.eqb_eq); naive_solver|].
    destruct (first_active (fun s => match SsRadiusSessionID s with Some _ => _ | None => _ end) rows) as [s|] eqn:E2.
    { apply first_active_some in E2 as (Hin & Ha & Hp). destruct (SsRadiusSessionID s) as [r|] eqn:Er; [|done]. apply String.eqb_eq in Hp as ->. naive_solver. }
    destruct (String.eqb_spec username "") as [Hu|Hu].
    + destruct (String.eqb_spec mac "") as [Hm|Hm]; [done|]. destruct (latest_active _ rows) as [s|] eqn:E3; [|done]. apply latest_active_some in E3 as (Hin & Ha & Hp).
      exists s. destruct (SsMAC s) as [m|]; [|done]. apply String.eqb_eq in Hp as ->. naive_solver.
    + destruct (latest_active (fun s => SsUsername s =? username)%string rows) as [s|] eqn:E3; [apply latest_active_some in E3 as (Hin & Ha & Hp%String.eqb_eq); naive_solver|].
      destruct (String.eqb_spec mac "") as [Hm|Hm]; [done|]. destruct (latest_active (fun s => match SsMAC s with Some _ => _ | None => _ end) rows) as [s|] eqn:E4; [|done].
      apply latest_active_some in E4 as (Hin & Ha & Hp). exists s. destruct (SsMAC s) as [m|]; [|done]. apply String.eqb_eq in Hp as ->. naive_solver.
Qed.

(** Only the row of one session changes. *)
Definition only_row_changes (id : string) rows rows' : Prop :=
  length rows' = length rows /\ forall i s, rows !! i = Some s -> exists s', rows' !! i = Some s' /\ SsID s' = SsID s /\ (SsID s <> id -> s' = s).
Lemma only_row_fmap id f rows : (forall s, SsID (f s) = SsID s) -> (forall s, SsID s <> id -> f s = s) -> only_row_changes id rows (f <$> rows).
Proof.
  intros Hid Hf. split; [by rewrite length_fmap|]. intros i s Hs. exists (f s). rewrite list_lookup_fmap, Hs. split; [done|]. split; [apply Hid | apply Hf].
Qed.
Lemma end_row_other now id reason s : SsID s <> id -> end_row now id reason s = s.
Proof. intros Hne. unfold end_row. by destruct (String.eqb_spec (SsID s) id). Qed.
Lemma update_row_other u now id s : SsID s <> id -> update_row u now id s = s.
Proof. intros Hne. unfold update_row. by destruct (String.eqb_spec (SsID s) id). Qed.
Lemma update_row_id u now id s : SsID (update_row u now id s) = SsID s.
Proof. unfold update_row. by split_if. Qed.

(** Both operations by criteria: nothing happens, or the row of a named session changes. *)
Definition criteria_outcome (sessionID username mac : string) rows (out : outcome) : Prop :=
  out.1.1 <> Ok true /\ out.1.2 = rows /\ out.2 = []
  \/ out.1.1 = Ok true /\ exists s, s ∈ rows /\ active s = true /\ named sessionID username mac s /\ only_row_changes (SsID s) rows out.1.2.

Lemma TerminateByCriteria_outcome now sessionID username mac reason rows : criteria_outcome sessionID username mac rows (TerminateByCriteria now sessionID username mac reason rows).
Proof.
  unfold TerminateByCriteria, criteria_outcome. destruct (findActiveSession sessionID username mac rows) as [a|[]] eqn:E; [|by left..]. right.
  apply find_named in E as (s & Hin & Ha & Hnamed & Hread). simpl. split; [done|]. exists s. split; [done|]. split; [done|]. split; [done|]. rewrite (read_active_id _ _ Hread).
  apply only_row_fmap; [intros; apply end_row_id | intros; by apply end_row_other].
Qed.
Lemma ReclassifyByCriteria_outcome now sessionID username mac update rows :
  criteria_outcome sessionID username mac rows (ReclassifyByCriteria now sessionID username mac update rows).
Proof.
  unfold ReclassifyByCriteria, criteria_outcome. destruct (findActiveSession sessionID username mac rows) as [a|[]] eqn:E; [|by left..]. right.
  apply find_named in E as (s & Hin & Ha & Hnamed & Hread). rewrite (read_active_id _ _ Hread). cbv zeta.
  split; [repeat split_if; done|]. exists s. split; [done|]. split; [done|]. split; [done|].
  repeat split_if; simpl; rewrite <- ?list_fmap_compose; apply only_row_fmap; intros; unfold compose; rewrite ?end_row_id, ?update_row_id; try done;
    rewrite ?update_row_other by done; by rewrite ?end_row_other.
Qed.

(** The codes that tell the requester that its request was carried out *)
Definition acknowledges (r : Reply) : Prop := ReCode r = CodeDisconnectACK \/ ReCode r = CodeCoAACK.

(** C29: Each packet gets one reply. Unless it is an acknowledgement, no session changes and nothing else happens to the sessions. An acknowledgement is given only to a
    disconnect or change-of-authorization request from a known source within its rate, and then one session changes, which was active and which the request names
    by its session, user name or station. *)
Theorem request_changes_named_session cfg db defaultRole now addr packet srv :
  PoEnabled (HrPolicy (DaHardener srv)) = true ->
  exists reply, HaReplies (handle cfg db defaultRole now addr packet srv).2 = [reply] /\
    (~ acknowledges reply /\ DaRows (handle cfg db defaultRole now addr packet srv).1 = DaRows srv /\ HaEffects (handle cfg db defaultRole now addr packet srv).2 = []
     \/ acknowledges reply /\ (PkCode packet = CodeDisconnectRequest \/ PkCode packet = CodeCoARequest)
        /\ known_source (DaHardener srv) addr /\ (RateLimitEnabled (HrLimits (DaHardener srv)) = true -> (allowRate (DaHardener srv) now (mkContext addr "dynamic_authorization" None (PkSecret packet))).1 = true)
        /\ exists s, s ∈ DaRows srv /\ active s = true /\ named (AcctSessionID packet) (UserName packet) (CallingStationID packet) s
             /\ only_row_changes (SsID s) (DaRows srv) (DaRows (handle cfg db defaultRole now addr packet srv).1)).
Proof.
  intros Hen. pose proof (ValidatePacket_accepts (DaHardener srv) now (mkContext addr "dynamic_authorization" None (PkSecret packet)) packet Hen) as Hchecked.
  unfold handle, acknowledges. destruct (ValidatePacket _ _ _ _) as [[checked nas] h]. simpl in Hchecked. cbv zeta.
  destruct (Accepted checked) eqn:Ha; simpl negb; cbv iota.
  2: { eexists. split; [done|]. left. split; [|done]. simpl. unfold nakCodeForRequest. split_if; intros [?|?]; done. }
  destruct (proj1 Hchecked eq_refl) as (Hknown & Hrate & _).
  destruct (Z.eqb_spec (PkCode packet) CodeDisconnectRequest) as [Hc|Hc].
  - pose proof (TerminateByCriteria_outcome now (AcctSessionID packet) (UserName packet) (CallingStationID packet) "disconnect-request" (DaRows srv)) as Hout.
    destruct (TerminateByCriteria _ _ _ _ _ _) as [[[[]|e] rows] effects]; unfold criteria_outcome in Hout; simpl in Hout |- *; eexists; (split; [reflexivity|]).
    + right. destruct Hout as [(? & _)|(_ & Hs)]; [done|]. split; [by left|]. split; [by left|]. done.
    + left. destruct Hout as [(_ & -> & ->)|(? & _)]; [|done]. split; [intros [?|?]; done | done].
    + left. destruct Hout as [(_ & -> & ->)|(? & _)]; [|done]. split; [intros [?|?]; done | done].
  - destruct (Z.eqb_spec (PkCode packet) CodeCoARequest) as [Hc'|Hc'].
    + destruct (policyUpdateFromPacket db defaultRole packet) as [update|e]; [|eexists; split; [reflexivity|]; left; split; [intros [?|?]; done | done]].
      pose proof (ReclassifyByCriteria_outcome now (AcctSessionID packet) (UserName packet) (CallingStationID packet) update (DaRows srv)) as Hout.
      destruct (ReclassifyByCriteria _ _ _ _ _ _) as [[[[]|e] rows] effects]; unfold criteria_outcome in Hout; simpl in Hout |- *; eexists; (split; [reflexivity|]).
      * right. destruct Hout as [(? & _)|(_ & Hs)]; [done|]. split; [by right|]. split; [by right|]. done.
      * left. destruct Hout as [(_ & -> & ->)|(? & _)]; [|done]. split; [intros [?|?]; done | done].
      * left. destruct Hout as [(_ & -> & ->)|(? & _)]; [|done]. split; [intros [?|?]; done | done].
    + eexists. split; [reflexivity|]. left. split; [intros [?|?]; done | done].
Qed.
End requests.

(** ** Where the code falls short *)

Section shortcomings.
Context {U : Unicode} {SA : SourceAddress} {RO : Rounding} {RP : RadiusParse} {MR : MapRange} {ST : SessionTime} {DA : DacAttributes}.
Implicit Types (s : Session) (rows : list Session).

(** No active session has the id, as its own or as that of the RADIUS server. *)
Definition unknown_id (sessionID : string) rows : Prop :=
  forall s, s ∈ rows -> active s = true -> SsID s <> sessionID /\ SsRadiusSessionID s <> Some sessionID.

Lemma first_active_none p rows : (forall s, s ∈ rows -> active s = true -> p s = false) -> first_active p rows = None.
Proof.
  intros Hno. destruct (first_active p rows) as [s|] eqn:E; [|done]. apply first_active_some in E as (Hin & Ha & Hp). rewrite (Hno s Hin Ha) in Hp. done.
Qed.

(** A disconnect request for a session that does not exist ends another session of the same user: when the session id of the request is unknown, the latest active session of
    its user name is ended in its place, and the request is acknowledged. *)
Theorem unknown_session_ends_another cfg db defaultRole now addr packet srv s :
  PkCode packet = CodeDisconnectRequest ->
  Accepted (ValidatePacket (DaHardener srv) now (mkContext addr "dynamic_authorization" None (PkSecret packet)) (Some packet)).1.1 = true ->
  unknown_id (AcctSessionID packet) (DaRows srv) -> UserName packet <> "" ->
  latest_active (fun s => SsUsername s =? UserName packet)%string (DaRows srv) = Some s -> fits_int32 (SsSessionTimeout s) -> fits_int32 (SsIdleTimeout s) ->
  SsID s <> AcctSessionID packet
  /\ (handle cfg db defaultRole now addr packet srv).2.(HaReplies) = [mkReply CodeDisconnectACK (Said "session terminated")]
  /\ DaRows (handle cfg db defaultRole now addr packet srv).1 = end_row now (SsID s) "disconnect-request" <$> DaRows srv
  /\ active (end_row now (SsID s) "disconnect-request" s) = false.
Proof.
  intros Hcode Ha Hunknown Hu Hlatest Hst Hit. destruct (latest_active_some _ _ _ Hlatest) as (Hin & Hactive & _).
  assert (exists a, read_active s = Ok a /\ AsID a = SsID s) as (a & Hread & Hid).
  { unfold read_active. rewrite (proj2 (scan_int32_ok _ _) (conj Hst eq_refl)), (proj2 (scan_int32_ok _ _) (conj Hit eq_refl)). by eexists. }
  assert (findActiveSession (AcctSessionID packet) (UserName packet) (CallingStationID packet) (DaRows srv) = Ok a) as Hfind.
  { unfold findActiveSession, candidates. cbn [first_candidate]. rewrite Hlatest, Hread.
    rewrite (first_active_none (fun s => SsID s =? AcctSessionID packet)%string) by (intros t Ht Hta; apply String.eqb_neq; by apply Hunknown).
    rewrite first_active_none by (intros t Ht Hta; destruct (Hunknown t Ht Hta) as [_ Hr]; destruct (SsRadiusSessionID t) as [r|]; [|done]; apply String.eqb_neq; congruence).
    destruct (String.eqb_spec (UserName packet) ""); [done|]. by destruct (AcctSessionID packet =? "")%string. }
  split; [by apply Hunknown|]. unfold handle. destruct (ValidatePacket _ _ _ _) as [[checked nas] h]. simpl in Ha. cbv zeta. rewrite Ha, Hcode. simpl negb. cbv iota.
  rewrite Z.eqb_refl. unfold TerminateByCriteria. rewrite Hfind, Hid. simpl. split; [done|]. split; [done|].
  unfold end_row. by rewrite String.eqb_refl, Hactive.
Qed.

(** The attributes of a request that say nothing about a role *)
Definition without_role (auth : Auth) : Prop :=
  TrimSpace (AuVendorRole auth) = "" /\ TrimSpace (AuFilterID auth) = "" /\ TrimSpace (AuClass auth) = "" /\ TrimSpace (AuVendorPolicyTag auth) = ""
  /\ AuHasVLAN auth = false /\ AuHasVendorQuarantine auth && AuVendorQuarantine auth = false.

Lemma role_without_attributes db defaultRole auth policy :
  without_role auth -> ResolveSessionPolicy db defaultRole (Some auth) = Ok policy ->
  exists configs, loadRadiusIdentityConfigs db = Ok configs /\ PlRole policy = first_text (((fun cfg => TrimSpace (DefaultRole cfg)) <$> configs) ++ [TrimSpace defaultRole]).
Proof.
  intros (Hr & Hf & Hc & Ht & Hv & Hq) Hp. apply resolved_role_lemma in Hp as (configs & Hconfigs & ->). exists configs. split; [done|]. unfold role_candidates.
  assert (resolved_filter auth = "") as Hfilter by (unfold resolved_filter; rewrite Hf, Ht, Hq; done). rewrite Hr. cbn [first_text]. rewrite first_text_app.
  assert (first_text (flat_map (mapped_roles auth) configs) = "") as ->.
  { clear Hconfigs. induction configs as [|cfg configs IH]; [done|]. simpl. rewrite first_text_app, IH. unfold mapped_roles. by rewrite Hfilter, Hc, Hv. }
  change (unless_set "" ?x) with x. rewrite !first_text_app. assert (roleExists db (resolved_filter auth) = false) as ->; [|done].
  rewrite Hfilter. by destruct db.
Qed.

Lemma row_after now sessionID username mac update rows a i s :
  findActiveSession sessionID username mac rows = Ok a -> rows !! i = Some s -> SsID s = AsID a -> active s = true ->
  exists s', (ReclassifyByCriteria now sessionID username mac update rows).1.2 !! i = Some s' /\ SsRole s' = nullIfEmptyString (UpRole (completed update a))
    /\ SsSessionTimeout s' = nullIfZeroInt (UpSessionTimeout (completed update a)).
Proof.
  intros Hfind Hs Hid Ha. unfold ReclassifyByCriteria. rewrite Hfind. cbv zeta.
  set (u := completed update a). clearbody u. assert (update_row u now (AsID a) s = with_policy u (time_text now) s) as Hrow by (unfold update_row; by rewrite Hid, String.eqb_refl, Ha).
  repeat split_if; simpl; eexists; rewrite ?list_lookup_fmap, Hs; simpl; (split; [reflexivity|]); unfold end_row; rewrite ?Hrow; by repeat split_if.
Qed.

(** A change-of-authorization request that says nothing about a role does not leave the role of the session as it is: the session gets the default role of the identity sources or
    of the configuration, whatever role it had. *)
Theorem coa_without_role_resets_role db defaultRole now packet update rows a i s :
  without_role (broker_result packet) -> TrimSpace defaultRole <> "" -> policyUpdateFromPacket db defaultRole packet = Ok update ->
  findActiveSession (AcctSessionID packet) (UserName packet) (CallingStationID packet) rows = Ok a -> rows !! i = Some s -> SsID s = AsID a -> active s = true ->
  exists configs s', loadRadiusIdentityConfigs db = Ok configs
    /\ (ReclassifyByCriteria now (AcctSessionID packet) (UserName packet) (CallingStationID packet) update rows).1.2 !! i = Some s'
    /\ SsRole s' = Some (first_text (((fun cfg => TrimSpace (DefaultRole cfg)) <$> configs) ++ [TrimSpace defaultRole])).
Proof.
  intros Hwithout Hdefault Hupdate Hfind Hs Hid Ha. unfold policyUpdateFromPacket in Hupdate. apply bind_Ok in Hupdate as (policy & Hpolicy & [= <-]).
  apply role_without_attributes in Hpolicy as (configs & Hconfigs & Hrole); [|done].
  set (r := first_text _) in *. assert (r <> "") as Hr.
  { subst r. rewrite first_text_app. simpl. rewrite unless_set_empty. unfold unless_set. destruct (String.eqb_spec (first_text ((fun cfg => TrimSpace (DefaultRole cfg)) <$> configs)) ""); done. }
  match goal with |- context [ReclassifyByCriteria _ _ _ _ ?u _] => destruct (row_after now _ _ _ u rows a i s Hfind Hs Hid Ha) as (s' & Hs' & Hrole' & _) end.
  exists configs, s'. split; [done|]. split; [done|]. rewrite Hrole'. unfold completed, nullIfEmptyString. simpl. rewrite Hrole.
  destruct (String.eqb_spec r ""); [done|]. by destruct (String.eqb_spec r "").
Qed.

(** C30: A session time-out of 2^31 seconds or more, which a request can set, makes the session unreachable: once it is in the row, no sweep ever ends the session, whatever its idle time, and
    no request that names it by its id can end or change it. *)
Theorem large_timeout_escapes now sessionID update rows a i s :
  unique_ids rows -> sessionID <> "" -> rows !! i = Some s -> SsID s = sessionID -> active s = true -> read_active s = Ok a ->
  2147483647 < UpSessionTimeout update -> UpVLAN update = 0 ->
  immediatePolicyReason now (AsStartTime a) (AsLastActivity a) (UpSessionTimeout (completed update a)) (UpIdleTimeout (completed update a)) = "" ->
  let rows' := (ReclassifyByCriteria now sessionID "" "" update rows).1.2 in
  exists s', rows' !! i = Some s' /\ SsID s' = sessionID /\ active s' = true
    /\ (forall later at_ roles, (enforceTimeouts later at_ roles rows').1 !! i = Some s')
    /\ (forall later reason username mac, TerminateByCriteria later sessionID username mac reason rows' = (Err ScanError, rows', []))
    /\ (forall later update' username mac, ReclassifyByCriteria later sessionID username mac update' rows' = (Err ScanError, rows', [])).
Proof.
  intros Hunique Hne Hs Hid Ha Hread Hbig Hvlan Hreason rows'.
  assert (forall rows s, unique_ids rows -> s ∈ rows -> SsID s = sessionID -> active s = true -> first_active (fun s => SsID s =? sessionID)%string rows = Some s) as Hfirst.
  { clear. intros rows s Hunique Hin Hid Ha. unfold unique_ids, first_active in *. induction rows as [|t rows IH]; [by apply not_elem_of_nil in Hin|].
    rewrite fmap_cons in Hunique. apply NoDup_cons in Hunique as [Hnew Hunique]. apply elem_of_cons in Hin as [<-|Hin]; simpl.
    - by rewrite Hid, String.eqb_refl, Ha.
    - destruct (String.eqb_spec (SsID t) sessionID) as [Heq|]; simpl; [|by apply IH]. exfalso. apply Hnew. rewrite Heq, <- Hid. apply list_elem_of_fmap. eauto. }
  assert (s ∈ rows) as Hin by (by eapply list_elem_of_lookup_2).
  assert (findActiveSession sessionID "" "" rows = Ok a) as Hfind.
  { unfold findActiveSession, candidates. simpl. destruct (String.eqb_spec sessionID ""); [done|]. by rewrite (Hfirst rows s Hunique Hin Hid Ha). }
  assert (rows' = update_row (completed update a) now sessionID <$> rows) as Hrows.
  { subst rows'. unfold ReclassifyByCriteria. rewrite Hfind. cbv zeta. rewrite (read_active_id _ _ Hread), Hid.
    assert (UpVLAN (completed update a) = AsVLAN a) as -> by (unfold completed; simpl; by rewrite Hvlan). rewrite Z.eqb_refl, andb_false_r, Hreason. done. }
  set (s' := with_policy (completed update a) (time_text now) s).
  assert (rows' !! i = Some s') as Hs'.
  { rewrite Hrows, list_lookup_fmap, Hs. simpl. unfold update_row. by rewrite Hid, String.eqb_refl, Ha. }
  assert (unique_ids rows') as Hunique'.
  { unfold unique_ids. rewrite Hrows, <- list_fmap_compose. unfold compose. erewrite list_fmap_ext; [exact Hunique|]. intros _ t _. simpl. apply update_row_id. }
  assert (~ fits_int32 (SsSessionTimeout s')) as Hlarge.
  { unfold s', with_policy, completed, nullIfZeroInt. simpl. destruct (Z.eqb_spec (UpSessionTimeout update) 0); [lia|]. destruct (Z.eqb_spec (UpSessionTimeout update) 0); [lia|].
    simpl. lia. }
  exists s'. split; [done|]. split; [done|]. split; [done|].
  assert (forall username mac, findActiveSession sessionID username mac rows' = Err ScanError) as Herr.
  { intros username mac. unfold findActiveSession, candidates. cbn [first_candidate]. destruct (String.eqb_spec sessionID ""); [done|].
    rewrite (Hfirst rows' s' Hunique' (list_elem_of_lookup_2 _ _ _ Hs') Hid Ha). unfold read_active.
    destruct (scan_int32 (SsSessionTimeout s')) as [v|] eqn:E; [by apply scan_int32_ok in E as [E _]|]. done. }
  split; [|split; [intros later reason username mac; unfold TerminateByCriteria; by rewrite Herr | intros later update' username mac; unfold ReclassifyByCriteria; by rewrite Herr]].
  intros later at_ roles. rewrite enforceTimeouts_rows by done. rewrite list_lookup_fmap, Hs'. simpl. unfold swept. destruct (active s'); [|done].
  destruct (expired_reason later roles s') as [r|] eqn:E; [|done]. apply expired_reason_spec in E as [(Hf & _) _]. done.
Qed.
End shortcomings.

(** ** Concrete runs *)

Module example.
#[local] Existing Instances PacketHardening.example.addresses PacketHardening.example.exact PacketHardening.example.library.

(** Instants are stored as decimal numbers, and attributes are read from the packet by their types. *)
#[local] Instance decimal_times : SessionTime := {| parse_layouts := Atoi; time_text := Itoa; datetime_text := Itoa; whole_seconds d := Z.quot d second |}.
Definition first_value (typ : Z) (packet : Packet) : option (list Z) :=
  match List.find (fun a => match a with Some a => a.1 =? typ | None => false end) (PkAttributes packet) with Some (Some a) => Some a.2 | _ => None end.
Definition text_value (typ : Z) (packet : Packet) : string := match first_value typ packet with Some l => string_of_bytes l | None => "" end.
#[local] Instance attributes : DacAttributes := {|
  AcctSessionID := text_value 44; UserName := text_value 1; CallingStationID := text_value 31;
  broker_result packet := match first_value 27 packet with
    | Some l => mkAuth "" "" 0 false (foldl (fun acc b => acc * 256 + b) 0 l) true 0 false 0 0 "" "" "" "" "" 0 false 0 false 0 false false false
    | None => no_attributes
    end |}.

Definition session (id username role : string) (start : Z) : Session :=
  mkSession id username (Some "02:00:00:00:00:01") (Some "10.0.0.5") None (Some 20) (Some role) None None None None (Some ("r-" +:+ id)) (Itoa start) (Some (Itoa start)) None None None None 0 0.
Definition rows : list Session := [session "s1" "bob" "staff" 100; session "s2" "bob" "staff" 200; session "s3" "eve" "staff" 300].
Definition roles : gmap string RoleRow := {["staff" := mkRoleRow (Some 20) None (Some 600) (Some 300) None]}.
Definition policies : option PolicyDB := Some (mkPolicyDB (Ok []) roles [] []).
Definition server : DynamicAuthServer := mkServer PacketHardening.example.start rows (mkEventTable [] 0).
Definition signed : option (Z * list Z) := Some (radiusTypeMessageAuthenticator, zeros).
Definition bytes (s : string) : list Z := bytes_of_string s.
(** Ends a session that does not exist, of the user bob *)
Definition disconnect : Packet := mkPacket CodeDisconnectRequest 1 PacketHardening.example.authenticator [115] [Some (44, bytes "gone"); Some (1, bytes "bob"); signed].
(** Sets only the session time-out *)
Definition retime : Packet := mkPacket CodeCoARequest 2 PacketHardening.example.authenticator [115] [Some (44, bytes "s1"); Some (27, [255; 255; 255; 255]); signed].

Lemma request_changes_named_session_witness :
  exists reply, HaReplies (handle None policies "guest" 1000 (Some "192.0.2.10") disconnect server).2 = [reply] /\
    (~ acknowledges reply /\ DaRows (handle None policies "guest" 1000 (Some "192.0.2.10") disconnect server).1 = DaRows server
       /\ HaEffects (handle None policies "guest" 1000 (Some "192.0.2.10") disconnect server).2 = []
     \/ acknowledges reply /\ (PkCode disconnect = CodeDisconnectRequest \/ PkCode disconnect = CodeCoARequest)
        /\ known_source (DaHardener server) (Some "192.0.2.10") /\ (RateLimitEnabled (HrLimits (DaHardener server)) = true
            -> (allowRate (DaHardener server) 1000 (mkContext (Some "192.0.2.10") "dynamic_authorization" None (PkSecret disconnect))).1 = true)
        /\ exists s, s ∈ DaRows server /\ active s = true /\ named (AcctSessionID disconnect) (UserName disconnect) (CallingStationID disconnect) s
             /\ only_row_changes (SsID s) (DaRows server) (DaRows (handle None policies "guest" 1000 (Some "192.0.2.10") disconnect server).1)).
Proof. apply (request_changes_named_session None policies "guest" 1000 (Some "192.0.2.10") disconnect server). vm_compute. reflexivity. Defined.

Definition s2 : Session := session "s2" "bob" "staff" 200.
Lemma unknown_session_ends_another_witness :
  SsID s2 <> AcctSessionID disconnect
  /\ (handle None policies "guest" 1000 (Some "192.0.2.10") disconnect server).2.(HaReplies) = [mkReply CodeDisconnectACK (Said "session terminated")]
  /\ DaRows (handle None policies "guest" 1000 (Some "192.0.2.10") disconnect server).1 = end_row 1000 (SsID s2) "disconnect-request" <$> DaRows server
  /\ active (end_row 1000 (SsID s2) "disconnect-request" s2) = false.
Proof.
  apply (unknown_session_ends_another None policies "guest" 1000 (Some "192.0.2.10") disconnect server s2);
    [reflexivity | vm_compute; reflexivity | | vm_compute; discriminate | vm_compute; reflexivity | exact I | exact I].
  intros s Hs _. repeat (apply elem_of_cons in Hs as [->|Hs]; [split; vm_compute; discriminate|]). by apply not_elem_of_nil in Hs.
Defined.

Lemma timeouts_enforced_witness :
  exists s', (enforceTimeouts (700 * second) (701 * second) roles rows).1 !! 0%nat = Some s' /\
    (active (session "s1" "bob" "staff" 100) = true /\ readable roles (session "s1" "bob" "staff" 100) /\ too_long (700 * second) roles (session "s1" "bob" "staff" 100)
       /\ s' = with_end (session "s1" "bob" "staff" 100) (time_text (701 * second)) "Session timeout reached"
     \/ active (session "s1" "bob" "staff" 100) = true /\ readable roles (session "s1" "bob" "staff" 100) /\ ~ too_long (700 * second) roles (session "s1" "bob" "staff" 100)
        /\ too_idle (700 * second) roles (session "s1" "bob" "staff" 100) /\ s' = with_end (session "s1" "bob" "staff" 100) (time_text (701 * second)) "Idle timeout reached"
     \/ s' = session "s1" "bob" "staff" 100 /\ (active (session "s1" "bob" "staff" 100) = false \/ ~ readable roles (session "s1" "bob" "staff" 100)
          \/ ~ too_long (700 * second) roles (session "s1" "bob" "staff" 100) /\ ~ too_idle (700 * second) roles (session "s1" "bob" "staff" 100))).
Proof.
  apply (timeouts_enforced (700 * second) (701 * second) roles rows 0 (session "s1" "bob" "staff" 100)); [|reflexivity].
  apply (bool_decide_unpack (NoDup (SsID <$> rows))). vm_compute. exact I.
Defined.

Definition found (id : string) : ActiveSession :=
  match findActiveSession id "" "" rows with Ok a => a | Err _ => mkActive "" "" "" "" "" "" "" "" 0 "" "" None None 0 0 0 0 end.
Definition update : PolicyUpdate :=
  match policyUpdateFromPacket policies "guest" retime with Ok u => u | Err _ => mkUpdate "" 0 "" "" "" "" 0 0 end.
Lemma coa_without_role_resets_role_witness :
  exists configs s', loadRadiusIdentityConfigs policies = Ok configs
    /\ (ReclassifyByCriteria 1000 (AcctSessionID retime) (UserName retime) (CallingStationID retime) update rows).1.2 !! 0%nat = Some s'
    /\ SsRole s' = Some (first_text (((fun cfg => TrimSpace (DefaultRole cfg)) <$> configs) ++ [TrimSpace "guest"])).
Proof.
  apply (coa_without_role_resets_role policies "guest" 1000 retime update rows (found "s1") 0 (session "s1" "bob" "staff" 100));
    [repeat split; vm_compute; reflexivity | vm_compute; discriminate | vm_compute; reflexivity | vm_compute; reflexivity | reflexivity | vm_compute; reflexivity | reflexivity].
Defined.

Lemma large_timeout_escapes_witness :
  let rows' := (ReclassifyByCriteria 1000 "s1" "" "" update rows).1.2 in
  exists s', rows' !! 0%nat = Some s' /\ SsID s' = "s1" /\ active s' = true
    /\ (forall later at_ roles, (enforceTimeouts later at_ roles rows').1 !! 0%nat = Some s')
    /\ (forall later reason username mac, TerminateByCriteria later "s1" username mac reason rows' = (Err ScanError, rows', []))
    /\ (forall later update' username mac, ReclassifyByCriteria later "s1" username mac update' rows' = (Err ScanError, rows', [])).
Proof.
  apply (large_timeout_escapes 1000 "s1" update rows (found "s1") 0 (session "s1" "bob" "staff" 100));
    [apply (bool_decide_unpack (NoDup (SsID <$> rows))); vm_compute; exact I | discriminate | reflexivity | reflexivity | reflexivity | vm_compute; reflexivity
    | vm_compute; reflexivity | vm_compute; reflexivity | vm_compute; reflexivity].
Defined.

(** The role staff becomes guest by a request that sets a time-out, and a Stop record for a row without a station lacks everything but the user name. *)
Example staff_becomes_guest : SsRole <$> (ReclassifyByCriteria 1000 "s1" "" "" update rows).1.2 !! 0%nat = Some (Some "guest").
Proof. vm_compute. reflexivity. Qed.
Example stop_record_cut_off :
  let s := session "s1" "bob" "staff" 100 in
  let without_mac := mkSession "s1" "bob" None (SsIP s) None (SsVLAN s) (SsRole s) None None None None None (SsStartTime s) None None None None None 0 0 in
  stop_record (700 * second) "s1" "Admin termination" [without_mac] = mkAccounting "s1" "bob" "" "" "" "Stop" 9223372036 "Admin termination" "" "" "" "" 0 0 0 0 0.
Proof. vm_compute. reflexivity. Qed.
End example.
