(* ===== verification/IdentityFailover.v ===== *)
(** * Failover of the identity sources ([internal/identity/failover.go], [internal/db/identity_source_failover.go])

    The sources that a portal login asks, in their order: the local users, LDAP, Active Directory. Each outcome is an event; a source whose last events are
    failures has an open circuit and is passed over for a while, and the credentials that a directory accepted can be kept for the time when it does not
    answer. The logins themselves are in [PortalAuth].

    The database is open. The tables' texts of times that the program itself writes and reads are the instants, in whole seconds; columns of JSON are kept as
    the values they encode; latencies, details and identifiers for display are left out, as is the report. *)

From S2P Require Import Prelude GoStrings Bytes EventLog.
From Stdlib Require Import Ascii.

(** [bcrypt.GenerateFromPassword] with the salt that it draws, and [bcrypt.CompareHashAndPassword] *)
Class PasswordHash := { hash_password : string -> string -> result string string; password_matches : string -> string -> bool }.

(** ** Configuration *)

(** [config.IdentityFailoverConfig] *)
Record FailoverConfig := mkFailoverConfig {
  FcEnabled : bool; FcMode : string; FcFailClosed : bool; FcSourceOrder : list string; FcMaxFailures : Z; FcCircuitOpenSeconds : Z; FcStaleCacheSeconds : Z;
  FcCacheCredentials : bool; FcSplitResultPolicy : string; FcHealthCheckIntervalSeconds : Z; FcAuditEnabled : bool; FcRetentionLimit : Z }.
Definition empty_failover_config : FailoverConfig := mkFailoverConfig false "" false [] 0 0 0 false "" 0 false 0.

(** The fields of [config.ActiveDirectoryConfig] that decide whether the source can be asked *)
Record ActiveDirectoryConfig := mkADConfig {
  AdEnabled : bool; AdDomain : string; AdRealm : string; AdAuthMethod : string; AdLDAPURL : string; AdBaseDN : string; AdKerberosEnabled : bool;
  AdWinbindEnabled : bool; AdAuthHelperPath : string }.
Record IdentityConfig := mkIdentityConfig { IcFailover : FailoverConfig; IcLDAPEnabled : bool; IcActiveDirectory : ActiveDirectoryConfig }.

Record FailoverPolicy := mkFailoverPolicy {
  PoEnabled : bool; PoMode : string; PoFailClosed : bool; PoSourceOrder : list string; PoMaxFailures : Z; PoCircuitOpenSeconds : Z; PoStaleCacheSeconds : Z;
  PoCacheCredentials : bool; PoSplitResultPolicy : string; PoHealthCheckIntervalSeconds : Z; PoAuditEnabled : bool; PoRetentionLimit : Z }.

Section config.
Context {U : Unicode}.

Definition text_or (value fallback : string) : string := if (TrimSpace value =? "")%string then fallback else value.
Definition number_or (value fallback : Z) : Z := if value =? 0 then fallback else value.

Definition EffectiveIdentityFailoverConfig (raw : FailoverConfig) : FailoverConfig :=
  mkFailoverConfig (FcEnabled raw) (text_or (FcMode raw) "monitor") (FcFailClosed raw)
    (match FcSourceOrder raw with [] => ["local"; "ldap-primary"] | order => order end)
    (number_or (FcMaxFailures raw) 3) (number_or (FcCircuitOpenSeconds raw) 300) (number_or (FcStaleCacheSeconds raw) 3600) (FcCacheCredentials raw)
    (text_or (FcSplitResultPolicy raw) "deny") (number_or (FcHealthCheckIntervalSeconds raw) 60) (FcAuditEnabled raw) (number_or (FcRetentionLimit raw) 6000).

Definition normalizeMode (value : string) : string := if (lower_trim value =? "enforce")%string then "enforce" else "monitor".
Definition normalizeSplitResultPolicy (value : string) : string :=
  if (lower_trim value =? "prefer_first")%string || (lower_trim value =? "prefer_success")%string then lower_trim value else "deny".
Definition normalizeSourceName (value : string) : string := lower_trim value.
Definition normalizedSourceOrder (values : list string) : list string :=
  match distinct_normalized values with [] => ["local"; "ldap-primary"] | out => out end.

Definition normalizeSourceType (sourceType name : string) : string :=
  let sourceType := lower_trim sourceType in
  if (sourceType =? "local")%string || (sourceType =? "ldap")%string || (sourceType =? "active_directory")%string then sourceType
  else
    let name := normalizeSourceName name in
    if (name =? "local")%string || HasPrefix name "local-" then "local"
    else if (name =? "ldap")%string || HasPrefix name "ldap" then "ldap"
    else if (name =? "ad")%string || (name =? "active-directory")%string || (name =? "active_directory")%string || HasPrefix name "ad-" || HasPrefix name "active-directory"
            || HasPrefix name "active_directory" || Contains name "kerberos" || Contains name "winbind" then "active_directory"
    else sourceType.

Definition FailoverPolicyFromConfig (cfg : option IdentityConfig) : FailoverPolicy :=
  let raw := match cfg with Some c => EffectiveIdentityFailoverConfig (IcFailover c) | None => empty_failover_config end in
  mkFailoverPolicy (FcEnabled raw) (normalizeMode (FcMode raw)) (FcFailClosed raw) (normalizedSourceOrder (FcSourceOrder raw)) (FcMaxFailures raw)
    (FcCircuitOpenSeconds raw) (FcStaleCacheSeconds raw) (FcCacheCredentials raw) (normalizeSplitResultPolicy (FcSplitResultPolicy raw))
    (FcHealthCheckIntervalSeconds raw) (FcAuditEnabled raw) (FcRetentionLimit raw).

(** [activedirectory.SourceExecutable] *)
Definition normalizeAuthMethod (value : string) : string :=
  if (lower_trim value =? "kerberos")%string then "kerberos" else if (lower_trim value =? "winbind_helper")%string then "winbind_helper" else "ldap_bind".
Definition blank (value : string) : bool := (TrimSpace value =? "")%string.
Definition SourceExecutable (cfg : option IdentityConfig) : bool * string :=
  match cfg with
  | None => (false, "configuration not loaded")
  | Some c =>
      let raw := IcActiveDirectory c in
      let method := normalizeAuthMethod (text_or (AdAuthMethod raw) "ldap_bind") in
      if negb (AdEnabled raw) then (false, "active_directory disabled in config")
      else if blank (AdDomain raw) || blank (AdRealm raw) then (false, "domain and realm are required")
      else if (method =? "ldap_bind")%string then
        if blank (AdLDAPURL raw) || blank (AdBaseDN raw) then (false, "ldap_url and base_dn are required for ldap_bind") else (true, "")
      else if (method =? "kerberos")%string then
        if negb (AdKerberosEnabled raw) then (false, "kerberos verifier is disabled") else (true, "")
      else if negb (AdWinbindEnabled raw) || blank (AdAuthHelperPath raw) then (false, "winbind helper verifier is not configured") else (true, "")
  end.
End config.

(** ** The tables *)

Record IdentitySourceRecord := mkSourceRecord { SrName : string; SrType : string; SrEnabled : bool; SrPriority : Z }.
Record IdentitySourceEvent := mkSourceEvent {
  IeSourceName : string; IeSourceType : string; IeUsernameHash : string; IeDecision : string; IeReason : string; IeCircuitState : string; IeCacheUsed : bool }.
Record CacheRow := mkCacheRow {
  CrPasswordHash : string; CrRole : string; CrGroups : list string; CrIdentitySource : string; CrLastSuccessAt : Z; CrExpiresAt : Z }.
Record IdentitySourceCircuitState := mkCircuit {
  CiSourceName : string; CiState : string; CiFailureCount : Z; CiLastObservedAt : option Z; CiLastReason : string; CiOpenedAt : option Z; CiReopensAt : option Z }.

(** [identity_sources], as the reading of the table gives it or the error, the events, and the cache by source and hash of the user name *)
Record IdentityDB := mkIdentityDB { DbSources : result string (list IdentitySourceRecord); DbEvents : EventLog IdentitySourceEvent; DbCache : gmap (string * string) CacheRow }.
Definition with_events (db : IdentityDB) (events : EventLog IdentitySourceEvent) : IdentityDB := mkIdentityDB (DbSources db) events (DbCache db).
Definition with_cache (db : IdentityDB) (cache : gmap (string * string) CacheRow) : IdentityDB := mkIdentityDB (DbSources db) (DbEvents db) cache.

Section identity.
Context {U : Unicode} {MR : MapRange} {HD : HexDigest} {PH : PasswordHash}.

(** [ORDER BY priority ASC, name ASC] *)
Definition source_before (a b : IdentitySourceRecord) : bool := (SrPriority a <? SrPriority b) || (SrPriority a =? SrPriority b) && string_less (SrName a) (SrName b).
Definition ListIdentitySourceRecords (db : IdentityDB) : result string (list IdentitySourceRecord) := sort_by source_before <$> DbSources db.

Definition HashIdentityUsername (username : string) : string :=
  let normalized := lower_trim username in if (normalized =? "")%string then "" else hex_digest normalized.

Definition RecordIdentitySourceEvent (now : Z) (record : IdentitySourceEvent) (retentionLimit : Z) (db : IdentityDB) : IdentityDB :=
  with_events db (record_event (if retentionLimit <=? 0 then 6000 else retentionLimit) now
    (mkSourceEvent (TrimSpace (IeSourceName record)) (TrimSpace (IeSourceType record)) (TrimSpace (IeUsernameHash record)) (TrimSpace (IeDecision record))
       (TrimSpace (IeReason record)) (TrimSpace (IeCircuitState record)) (IeCacheUsed record)) (DbEvents db)).

(** The newest events of a source, up to the first that is no failure: their number, and the time of the oldest *)
Fixpoint count_failures (events : list (LogRow IdentitySourceEvent)) (count : Z) (oldest : option Z) : Z * option Z :=
  match events with
  | [] => (count, oldest)
  | e :: events => if negb (IeDecision (LrData e) =? "failed")%string then (count, oldest) else count_failures events (count + 1) (Some (LrAt e))
  end.

Definition of_source (sourceName : string) (e : LogRow IdentitySourceEvent) : bool := (IeSourceName (LrData e) =? sourceName)%string.
Definition GetIdentitySourceCircuitState (sourceName : string) (maxFailures circuitOpenSeconds now : Z) (db : IdentityDB) : IdentitySourceCircuitState :=
  let sourceName := TrimSpace sourceName in
  if (sourceName =? "")%string then mkCircuit sourceName "closed" 0 None "" None None
  else
    let maxFailures := if maxFailures <=? 0 then 3 else maxFailures in
    let circuitOpenSeconds := if circuitOpenSeconds <=? 0 then 300 else circuitOpenSeconds in
    let events := newest maxFailures (List.filter (of_source sourceName) (LogRows (DbEvents db))) in
    let '(failures, oldest) := count_failures events 0 None in
    let state name opened reopens :=
      mkCircuit sourceName name failures (LrAt <$> head events) (match events with e :: _ => IeReason (LrData e) | [] => "" end) opened reopens in
    match oldest with
    | None => state "closed" None None
    | Some oldest =>
        if failures <? maxFailures then state "closed" None None
        else if now <? oldest + circuitOpenSeconds then state "open" (Some oldest) (Some (oldest + circuitOpenSeconds)) else state "closed" None None
    end.

(** ** The cache of credentials *)

Definition UpsertIdentitySourceCache (salt sourceName username password role identitySource : string) (groups : list string) (ttlSeconds now : Z) (db : IdentityDB)
    : result string IdentityDB :=
  let sourceName := TrimSpace sourceName in
  let usernameHash := HashIdentityUsername username in
  if (sourceName =? "")%string || (usernameHash =? "")%string then Err "source name and username are required"
  else if ttlSeconds <=? 0 then Err "ttlSeconds must be positive"
  else
    passwordHash ← hash_password salt password;
    Ok (with_cache db (<[(sourceName, usernameHash) := mkCacheRow passwordHash (TrimSpace role) groups (TrimSpace identitySource) now (now + ttlSeconds)]> (DbCache db))).

Definition VerifyIdentitySourceCache (sourceName username password : string) (now : Z) (db : IdentityDB) : option CacheRow :=
  let sourceName := TrimSpace sourceName in
  let usernameHash := HashIdentityUsername username in
  if (sourceName =? "")%string || (usernameHash =? "")%string then None
  else
    match DbCache db !! (sourceName, usernameHash) with
    | Some row => if (CrExpiresAt row >? now) && password_matches (CrPasswordHash row) password then Some row else None
    | None => None
    end.

(** ** The plan of a login *)

Record SourcePlan := mkSourcePlan {
  PnName : string; PnType : string; PnEnabled : bool; PnExecutable : bool; PnPriority : Z; PnReason : string; PnCircuitState : IdentitySourceCircuitState }.

Definition ldap_enabled (cfg : option IdentityConfig) : bool := match cfg with Some c => IcLDAPEnabled c | None => false end.
Definition ad_enabled (cfg : option IdentityConfig) : bool := match cfg with Some c => AdEnabled (IcActiveDirectory c) | None => false end.

Definition loadIdentitySourceRecords (cfg : option IdentityConfig) (db : IdentityDB) : list IdentitySourceRecord :=
  let default := [mkSourceRecord "local" "local" true 0; mkSourceRecord "active-directory" "active_directory" (ad_enabled cfg) 5;
                  mkSourceRecord "ldap-primary" "ldap" (ldap_enabled cfg) 10] in
  match ListIdentitySourceRecords db with Ok [] => default | Ok records => records | Err _ => default end.

Definition sourceExecutable (cfg : option IdentityConfig) (enabled : bool) (sourceType : string) : bool * string :=
  if negb enabled then (false, "source disabled")
  else if (sourceType =? "local")%string then (true, "")
  else if (sourceType =? "ldap")%string then if ldap_enabled cfg then (true, "") else (false, "ldap disabled in config")
  else if (sourceType =? "active_directory")%string then SourceExecutable cfg
  else (false, "source type is not executable by portal auth").

Definition circuitStateForSource (name : string) (policy : FailoverPolicy) (now : Z) (db : IdentityDB) : IdentitySourceCircuitState :=
  if negb (PoEnabled policy) then mkCircuit name "closed" 0 None "" None None
  else GetIdentitySourceCircuitState name (PoMaxFailures policy) (PoCircuitOpenSeconds policy) now db.

(** A source with its circuit: an open one takes it out of use when the policy is enforced. *)
Definition with_circuit (policy : FailoverPolicy) (now : Z) (db : IdentityDB) (name sourceType : string) (enabled : bool) (priority : Z) (executable : bool * string) : SourcePlan :=
  let circuit := circuitStateForSource name policy now db in
  if (CiState circuit =? "open")%string && (PoMode policy =? "enforce")%string
  then mkSourcePlan name sourceType enabled false priority (if (executable.2 =? "")%string then "circuit open" else executable.2) circuit
  else mkSourcePlan name sourceType enabled executable.1 priority executable.2 circuit.

Definition plan_of_record (cfg : option IdentityConfig) (policy : FailoverPolicy) (now : Z) (db : IdentityDB) (name : string) (record : IdentitySourceRecord) : SourcePlan :=
  let sourceType := normalizeSourceType (SrType record) name in
  let enabled := SrEnabled record || (sourceType =? "local")%string || (sourceType =? "ldap")%string && ldap_enabled cfg
                 || (sourceType =? "active_directory")%string && ad_enabled cfg in
  with_circuit policy now db name sourceType enabled (SrPriority record) (sourceExecutable cfg enabled sourceType).
Definition sourceFromName (cfg : option IdentityConfig) (policy : FailoverPolicy) (now : Z) (db : IdentityDB) (name : string) : SourcePlan :=
  let sourceType := normalizeSourceType "" name in
  let enabled := (sourceType =? "local")%string || (sourceType =? "ldap")%string && ldap_enabled cfg || (sourceType =? "active_directory")%string && ad_enabled cfg in
  with_circuit policy now db name sourceType enabled 1000 (sourceExecutable cfg enabled sourceType).

Definition add_by_name (cfg : option IdentityConfig) (policy : FailoverPolicy) (now : Z) (db : IdentityDB) (byName : gmap string SourcePlan) (record : IdentitySourceRecord) : gmap string SourcePlan :=
  let name := normalizeSourceName (SrName record) in
  if (name =? "")%string then byName else <[name := plan_of_record cfg policy now db name record]> byName.

Definition plan_before (a b : SourcePlan) : bool := if PnPriority a =? PnPriority b then string_less (PnName a) (PnName b) else PnPriority a <? PnPriority b.

Definition source_names (policy : FailoverPolicy) : list string := List.filter (fun name => negb (name =? "")%string) (normalizeSourceName <$> PoSourceOrder policy).
Definition BuildSourcePlan (cfg : option IdentityConfig) (now : Z) (db : IdentityDB) : list SourcePlan :=
  let policy := FailoverPolicyFromConfig cfg in
  let byName := foldl (add_by_name cfg policy now db) ∅ (loadIdentitySourceRecords cfg db) in
  let names := source_names policy in
  let ordered := (fun name => match byName !! name with Some source => source | None => sourceFromName cfg policy now db name end) <$> names in
  let remaining := snd <$> List.filter (fun entry => negb (existsb (String.eqb entry.1) names)) (range_map byName) in
  ordered ++ sort_by plan_before remaining.

(** ** Events *)

Definition RecordEvent (policy : FailoverPolicy) (now : Z) (event : IdentitySourceEvent) (username : string) (db : IdentityDB) : IdentityDB :=
  if negb (PoAuditEnabled policy) then db
  else
    let sourceName := normalizeSourceName (IeSourceName event) in
    let sourceName := if (sourceName =? "")%string then "unknown" else sourceName in
    let circuitState := lower_trim (IeCircuitState event) in
    RecordIdentitySourceEvent now
      (mkSourceEvent sourceName (normalizeSourceType (IeSourceType event) sourceName) (HashIdentityUsername username) (lower_trim (IeDecision event)) (TrimSpace (IeReason event))
         (if (circuitState =? "")%string then "closed" else circuitState) (IeCacheUsed event)) (PoRetentionLimit policy) db.
End identity.

(** ** The circuit *)

Section circuit.
Context {U : Unicode} {HD : HexDigest}.
Implicit Types (db : IdentityDB) (l : list (LogRow IdentitySourceEvent)).

Definition failure (e : LogRow IdentitySourceEvent) : Prop := IeDecision (LrData e) = "failed".
#[export] Instance failure_dec e : Decision (failure e).
Proof. unfold failure. apply _. Defined.

Lemma count_failures_all l count oldest : Forall failure l ->
  count_failures l count oldest = (count + zlen l, match last l with Some e => Some (LrAt e) | None => oldest end).
Proof.
  intros H. revert count oldest. induction H as [|e l He Hl IH]; intros count oldest; simpl; [f_equal; rewrite ?zlen_nil; lia|].
  unfold failure in He. rewrite He. simpl. rewrite IH, zlen_cons, last_cons. f_equal; [lia|]. by destruct (last l).
Qed.
Lemma count_failures_few l count oldest : ~ Forall failure l -> (count_failures l count oldest).1 < count + zlen l.
Proof.
  revert count oldest. induction l as [|e l IH]; intros count oldest Hl; simpl; [by destruct Hl|]. rewrite zlen_cons. pose proof (zlen_nonneg l).
  destruct (String.eqb_spec (IeDecision (LrData e)) "failed") as [He|He]; simpl; [|lia].
  assert (~ Forall failure l) as H' by (intros H'; apply Hl; by constructor). specialize (IH (count + 1) (Some (LrAt e)) H'). lia.
Qed.
Lemma count_failures_none l count : 0 <= count -> (count_failures l count None).2 = None -> (count_failures l count None).1 = count.
Proof.
  assert (forall l c t, (count_failures l c (Some t)).2 <> None) as H.
  { clear. induction l as [|e l IH]; intros c t; simpl; [done|]. split_if; [done|]. apply IH. }
  destruct l as [|e l]; simpl; [done|]. split_if; [done|]. intros _ E. by destruct (H l (count + 1) (LrAt e)).
Qed.
Lemma length_newest n l : zlen (newest n l) <= Z.max 0 n.
Proof. unfold newest, zlen. rewrite length_take. lia. Qed.

(** The circuit of a source is open exactly when its last [maxFailures] events are all failures and the oldest of them is less than [circuitOpenSeconds] ago. *)
Theorem circuit_open_iff sourceName maxFailures circuitOpenSeconds now db
    (recent := newest maxFailures (List.filter (of_source (TrimSpace sourceName)) (LogRows (DbEvents db)))) :
  0 < maxFailures -> 0 < circuitOpenSeconds -> TrimSpace sourceName <> "" ->
  CiState (GetIdentitySourceCircuitState sourceName maxFailures circuitOpenSeconds now db) = "open" <->
  zlen recent = maxFailures /\ Forall failure recent /\ exists oldest, last recent = Some oldest /\ now < LrAt oldest + circuitOpenSeconds.
Proof.
  intros Hmax Hopen Hname. unfold GetIdentitySourceCircuitState. apply String.eqb_neq in Hname. rewrite Hname.
  destruct (Z.leb_spec maxFailures 0) as [|_]; [lia|]. destruct (Z.leb_spec circuitOpenSeconds 0) as [|_]; [lia|]. fold recent.
  pose proof (length_newest maxFailures (List.filter (of_source (TrimSpace sourceName)) (LogRows (DbEvents db)))) as Hlen. fold recent in Hlen.
  destruct (decide (Forall failure recent)) as [Hall|Hfew].
  - rewrite (count_failures_all _ _ _ Hall). destruct (last recent) as [e|] eqn:Hlast.
    + destruct (Z.ltb_spec (0 + zlen recent) maxFailures); simpl; [split; [done|intros (? & _); lia]|].
      destruct (Z.ltb_spec now (LrAt e + circuitOpenSeconds)); simpl; split; try done; [intros _; split; [lia|]; eauto | intros (_ & _ & ? & [= <-] & ?); lia].
    + simpl. split; [done|]. by intros (_ & _ & ? & ? & _).
  - pose proof (count_failures_few recent 0 None Hfew) as Hless. destruct (count_failures recent 0 None) as [failures [t|]]; simpl in *; [|by split; [|intros (_ & ? & _)]].
    destruct (Z.ltb_spec failures maxFailures); simpl; [|lia]. split; [done|]. by intros (_ & ? & _).
Qed.
End circuit.

Section recorded.
Context {U : Unicode} {UL : UnicodeLaws} {HD : HexDigest}.
Implicit Types (db : IdentityDB).

(** An event that is no failure closes the circuit of its source. *)
Lemma other_event_closes policy now event username name db maxFailures seconds at_ :
  PoAuditEnabled policy = true -> log_ok (DbEvents db) -> until now (DbEvents db) -> lower_trim (IeDecision event) <> "failed" ->
  normalizeSourceName (IeSourceName event) = name -> name <> "" -> 0 < maxFailures ->
  CiState (GetIdentitySourceCircuitState name maxFailures seconds at_ (RecordEvent policy now event username db)) = "closed".
Proof.
  intros Haudit Hok Huntil Hdecision Hname Hblank Hmax. unfold RecordEvent. rewrite Haudit. simpl. rewrite Hname. pose proof Hblank as Hblank'. apply String.eqb_neq in Hblank. rewrite Hblank.
  assert (TrimSpace name = name) as Htrim by (rewrite <- Hname; apply TrimSpace_lower_trim).
  unfold GetIdentitySourceCircuitState, RecordIdentitySourceEvent. rewrite Htrim, Hblank. destruct (Z.leb_spec maxFailures 0) as [|_]; [lia|]. simpl.
  set (limit := if PoRetentionLimit policy <=? 0 then 6000 else PoRetentionLimit policy).
  assert (0 < limit) by (unfold limit; destruct (Z.leb_spec (PoRetentionLimit policy) 0); lia). rewrite Htrim.
  match goal with |- context [record_event limit now ?d _] => set (data := d) end.
  destruct (newest_record (of_source name) maxFailures limit now data (DbEvents db) Hok Huntil ltac:(done)) as [older E]; [apply String.eqb_refl|].
  rewrite E. destruct (Z.to_nat maxFailures) eqn:En; [lia|]. simpl. rewrite TrimSpace_lower_trim. apply String.eqb_neq in Hdecision. by rewrite Hdecision.
Qed.

Lemma RecordEvent_ok policy now event username db : log_ok (DbEvents db) -> log_ok (DbEvents (RecordEvent policy now event username db)).
Proof. intros H. unfold RecordEvent. split_if; [done|]. by apply record_event_ok. Qed.
Lemma RecordEvent_until policy now event username db : until now (DbEvents db) -> until now (DbEvents (RecordEvent policy now event username db)).
Proof. intros H. unfold RecordEvent. split_if; [done|]. by apply until_record. Qed.
Lemma RecordEvent_cache policy now event username db : DbCache (RecordEvent policy now event username db) = DbCache db.
Proof. unfold RecordEvent. by split_if. Qed.
End recorded.

(** ** The order of the sources *)

#[export] Instance plan_before_weak : WeakOrder plan_before.
Proof.
  split.
  - intros x y. unfold plan_before. destruct (Z.eqb_spec (PnPriority x) (PnPriority y)) as [E|E].
    + rewrite E, Z.eqb_refl. apply string_less_asym.
    + destruct (Z.eqb_spec (PnPriority y) (PnPriority x)); [lia|]. intros H%Z.ltb_lt. apply Z.ltb_ge. lia.
  - intros x y z. unfold in_order, plan_before.
    destruct (Z.eqb_spec (PnPriority y) (PnPriority x)) as [E1|E1], (Z.eqb_spec (PnPriority z) (PnPriority y)) as [E2|E2], (Z.eqb_spec (PnPriority z) (PnPriority x)) as [E3|E3];
      rewrite ?Z.ltb_ge; intros H1 H2; try lia.
    exact (in_order_trans (less := fun a b => string_less (PnName a) (PnName b)) x y z H1 H2).
Qed.

Section plan.
Context {U : Unicode} {UL : UnicodeLaws} {HD : HexDigest}.
Implicit Types (db : IdentityDB) (cfg : option IdentityConfig).

Lemma PnName_with_circuit policy now db name sourceType enabled priority executable :
  PnName (with_circuit policy now db name sourceType enabled priority executable) = name.
Proof. unfold with_circuit. by split_if. Qed.
Lemma PnName_sourceFromName cfg policy now db name : PnName (sourceFromName cfg policy now db name) = name.
Proof. apply PnName_with_circuit. Qed.

Lemma by_name_spec cfg policy now db records m name :
  is_Some (foldl (add_by_name cfg policy now db) m records !! name) <-> is_Some (m !! name) \/ name <> "" /\ exists r, r ∈ records /\ normalizeSourceName (SrName r) = name.
Proof.
  revert m. induction records as [|r records IH]; intros m; simpl; [set_solver|]. rewrite IH. unfold add_by_name.
  destruct (String.eqb_spec (normalizeSourceName (SrName r)) "") as [E|E].
  - setoid_rewrite elem_of_cons. split; [naive_solver|]. intros [?|(Hn & r' & [->|Hr] & <-)]; naive_solver.
  - rewrite lookup_insert_is_Some'. setoid_rewrite elem_of_cons. naive_solver.
Qed.
Lemma by_name_names cfg policy now db records m :
  map_Forall (fun name source => PnName source = name) m -> map_Forall (fun name source => PnName source = name) (foldl (add_by_name cfg policy now db) m records).
Proof.
  revert m. induction records as [|r records IH]; intros m Hm; simpl; [done|]. apply IH. unfold add_by_name. split_if; [done|].
  apply map_Forall_insert_2; [apply PnName_with_circuit | done].
Qed.

Lemma normalized_order_elem values name : name ∈ normalizedSourceOrder values -> name <> "" /\ lower_trim name = name.
Proof.
  unfold normalizedSourceOrder. destruct (distinct_normalized values) as [|x l] eqn:E.
  - intros [->|[->|[]%not_elem_of_nil]%elem_of_cons]%elem_of_cons; done.
  - rewrite <- E. intros (Hn & v & _ & ->)%elem_of_distinct_normalized. split; [done | apply lower_trim_idem].
Qed.
Lemma NoDup_normalized_order values : NoDup (normalizedSourceOrder values).
Proof.
  unfold normalizedSourceOrder. destruct (distinct_normalized values) as [|x l] eqn:E; [decided|]. rewrite <- E. apply NoDup_distinct_from.
Qed.
Lemma source_names_policy cfg : source_names (FailoverPolicyFromConfig cfg) = PoSourceOrder (FailoverPolicyFromConfig cfg).
Proof.
  simpl. set (values := FcSourceOrder _). unfold source_names. assert (forall l, (forall name, name ∈ l -> name <> "" /\ lower_trim name = name) ->
    List.filter (fun name => negb (name =? "")%string) (normalizeSourceName <$> l) = l) as H.
  { induction l as [|x l IH]; intros Hl; simpl; [done|]. destruct (Hl x ltac:(by left)) as [Hx Hnorm]. unfold normalizeSourceName at 1 2. rewrite Hnorm.
    apply String.eqb_neq in Hx. rewrite Hx. simpl. f_equal. apply IH. intros y Hy. apply Hl. by right. }
  apply H. intros name. apply normalized_order_elem.
Qed.

Section ranged.
Context {MR : MapRange}.

Definition remaining_sources cfg now db : list SourcePlan :=
  snd <$> List.filter (fun entry => negb (existsb (String.eqb entry.1) (PoSourceOrder (FailoverPolicyFromConfig cfg))))
    (range_map (foldl (add_by_name cfg (FailoverPolicyFromConfig cfg) now db) ∅ (loadIdentitySourceRecords cfg db))).

Lemma BuildSourcePlan_eq cfg now db : BuildSourcePlan cfg now db =
  ((fun name => match foldl (add_by_name cfg (FailoverPolicyFromConfig cfg) now db) ∅ (loadIdentitySourceRecords cfg db) !! name with
     | Some source => source | None => sourceFromName cfg (FailoverPolicyFromConfig cfg) now db name end) <$> PoSourceOrder (FailoverPolicyFromConfig cfg))
  ++ sort_by plan_before (remaining_sources cfg now db).
Proof. unfold BuildSourcePlan. cbv zeta. by rewrite source_names_policy. Qed.

Lemma elem_of_remaining cfg now db source (byName := foldl (add_by_name cfg (FailoverPolicyFromConfig cfg) now db) ∅ (loadIdentitySourceRecords cfg db)) :
  source ∈ remaining_sources cfg now db <-> byName !! PnName source = Some source /\ PnName source ∉ PoSourceOrder (FailoverPolicyFromConfig cfg).
Proof.
  assert (map_Forall (fun name source => PnName source = name) byName) as Hnames by (apply by_name_names, map_Forall_empty).
  unfold remaining_sources. fold byName. rewrite list_elem_of_fmap. split.
  - intros ([k s] & -> & [Hin%list_elem_of_In Hkeep]%list_elem_of_In%filter_In). apply elem_of_range_map in Hin. simpl in *. rewrite (Hnames k s Hin). split; [done|].
    rewrite <- existsb_elem. by destruct (existsb _ _).
  - intros [Hl Hout]. exists (PnName source, source). split; [done|]. apply list_elem_of_In, filter_In. split; [by apply list_elem_of_In, elem_of_range_map|].
    simpl. apply negb_true_iff, not_true_iff_false. by rewrite existsb_elem.
Qed.
Lemma remaining_names cfg now db : NoDup (PnName <$> remaining_sources cfg now db).
Proof.
  unfold remaining_sources. set (byName := foldl _ _ _). assert (map_Forall (fun name source => PnName source = name) byName) as Hnames by (apply by_name_names, map_Forall_empty).
  set (keep := fun entry : string * SourcePlan => _). rewrite <- list_fmap_compose.
  assert (forall l, (forall e, e ∈ l -> PnName e.2 = e.1) -> NoDup l.*1 -> NoDup ((PnName ∘ snd) <$> List.filter keep l)) as H.
  { induction l as [|e l IH]; intros Hl Hnodup; simpl; [constructor|]. rewrite fmap_cons in Hnodup. apply NoDup_cons in Hnodup as [He Hnodup].
    specialize (IH (fun e' He' => Hl e' ltac:(by right)) Hnodup). split_if; [|done]. rewrite fmap_cons. apply NoDup_cons. split; [|done].
    intros (e' & Heq & [Hin%list_elem_of_In _]%list_elem_of_In%filter_In)%list_elem_of_fmap. simpl in Heq. rewrite (Hl e ltac:(by left)), (Hl e' ltac:(by right)) in Heq.
    apply He. rewrite Heq. by apply list_elem_of_fmap_2. }
  apply H; [|apply NoDup_range_map]. intros [k s] Hin%elem_of_range_map. by apply Hnames.
Qed.

Lemma map_lookup_names (f : string -> SourcePlan) (l : list string) : (forall name, PnName (f name) = name) -> PnName <$> (f <$> l) = l.
Proof. intros H. induction l as [|x l IH]; simpl; [done|]. f_equal; [apply H | exact IH]. Qed.

Lemma source_plan_names cfg now db : PnName <$> BuildSourcePlan cfg now db = PoSourceOrder (FailoverPolicyFromConfig cfg) ++ (PnName <$> sort_by plan_before (remaining_sources cfg now db)).
Proof.
  rewrite BuildSourcePlan_eq, fmap_app. f_equal. apply map_lookup_names. intros name. set (byName := foldl _ _ _).
  assert (map_Forall (fun name source => PnName source = name) byName) as Hnames by (apply by_name_names, map_Forall_empty).
  destruct (byName !! name) eqn:E; [by apply Hnames | apply PnName_sourceFromName].
Qed.

(** A login asks each source at most once: first those of the configured order, then every other source of the table, by priority and name. *)
Theorem plan_order cfg now db :
  exists rest, PnName <$> BuildSourcePlan cfg now db = PoSourceOrder (FailoverPolicyFromConfig cfg) ++ (PnName <$> rest)
    /\ NoDup (PnName <$> BuildSourcePlan cfg now db) /\ StronglySorted (in_order plan_before) rest
    /\ forall name, name ∈ PnName <$> rest <->
         name <> "" /\ name ∉ PoSourceOrder (FailoverPolicyFromConfig cfg) /\ exists r, r ∈ loadIdentitySourceRecords cfg db /\ normalizeSourceName (SrName r) = name.
Proof.
  exists (sort_by plan_before (remaining_sources cfg now db)). split; [apply source_plan_names|]. split; [|split; [apply (sort_by_sorted plan_before)|]].
  - rewrite source_plan_names, NoDup_app. split; [apply NoDup_normalized_order|]. split; [|rewrite sort_by_perm; apply remaining_names].
    intros name Hin Hrest. rewrite sort_by_perm in Hrest. apply list_elem_of_fmap in Hrest as (s & -> & [_ Hout]%elem_of_remaining). done.
  - intros name. rewrite sort_by_perm. rewrite list_elem_of_fmap. set (byName := foldl (add_by_name cfg (FailoverPolicyFromConfig cfg) now db) ∅ (loadIdentitySourceRecords cfg db)).
    pose proof (by_name_spec cfg (FailoverPolicyFromConfig cfg) now db (loadIdentitySourceRecords cfg db) ∅ name) as Hspec. fold byName in Hspec.
    rewrite lookup_empty in Hspec. split.
    + intros (s & -> & [Hl Hout]%elem_of_remaining). fold byName in Hl. destruct (proj1 Hspec) as [[? [=]]|[Hn Hr]]; [by eexists|]. done.
    + intros (Hn & Hout & Hr). destruct (proj2 Hspec) as [s Hs]; [by right|]. exists s.
      assert (PnName s = name) as Hname by (eapply (by_name_names cfg (FailoverPolicyFromConfig cfg) now db _ ∅); [apply map_Forall_empty | exact Hs]).
      split; [done|]. apply elem_of_remaining. fold byName. by rewrite Hname.
Qed.
End ranged.

(** The order in which Go ranges over its map of sources has no influence on the plan. *)
Theorem plan_deterministic (R1 R2 : MapRange) cfg now db : BuildSourcePlan (MR := R1) cfg now db = BuildSourcePlan (MR := R2) cfg now db.
Proof.
  rewrite !BuildSourcePlan_eq. f_equal. apply (sort_by_perm_eq plan_before).
  - intros x y Hx Hy Hxy Hyx. apply elem_of_remaining in Hx as [Hx _], Hy as [Hy _]. unfold in_order, plan_before in Hxy, Hyx.
    destruct (Z.eqb_spec (PnPriority y) (PnPriority x)) as [E|E], (Z.eqb_spec (PnPriority x) (PnPriority y)); bool_arith; try lia.
    assert (PnName x = PnName y) as Hname by (by apply string_less_total). rewrite Hname in Hx. rewrite Hx in Hy. by injection Hy.
  - apply NoDup_Permutation.
    + eapply NoDup_fmap_1. apply remaining_names.
    + eapply NoDup_fmap_1. apply remaining_names.
    + intros s. by rewrite !elem_of_remaining.
Qed.
End plan.

(** ** Examples *)

(** Passwords with their salt in front *)
#[export] Instance salted_passwords : PasswordHash | 100 := {|
  hash_password salt password := if 72 <? Z.of_nat (String.length password) then Err "bcrypt: password length exceeds 72 bytes" else Ok (salt +:+ ":" +:+ password);
  password_matches hash password := match CutChar hash ":"%char with (_, rest, _) => (rest =? password)%string end |}.

Module example.
#[local] Instance plain_digest : HexDigest := fun text => "sha256:" +:+ text.
Definition failover : FailoverConfig := mkFailoverConfig true "enforce" true [" Local "; "ldap-primary"] 2 300 3600 true "deny" 60 true 6000.
Definition config : option IdentityConfig := Some (mkIdentityConfig failover true (mkADConfig false "" "" "" "" "" false false "")).
Definition sources : list IdentitySourceRecord :=
  [mkSourceRecord "ldap-backup" "ldap" true 20; mkSourceRecord "LDAP-Primary" "ldap" true 10; mkSourceRecord "hotspot" "oauth" true 20].
Definition failed (source : string) : IdentitySourceEvent := mkSourceEvent source "ldap" "" "failed" "connection refused" "closed" false.
Definition start : IdentityDB := mkIdentityDB (Ok sources) empty_log ∅.
Definition outage : IdentityDB :=
  RecordEvent (FailoverPolicyFromConfig config) 130 (failed "ldap-primary") "bob" (RecordEvent (FailoverPolicyFromConfig config) 100 (failed "ldap-primary") "bob" start).
Definition shown (plan : list SourcePlan) : list (string * bool * string) := (fun s => (PnName s, PnExecutable s, PnReason s)) <$> plan.

Example plan_in_outage : shown (BuildSourcePlan config 140 outage) =
  [("local", true, ""); ("ldap-primary", false, "circuit open"); ("hotspot", false, "source type is not executable by portal auth"); ("ldap-backup", true, "")].
Proof. vm_compute. reflexivity. Qed.
Example plan_after_outage : shown (BuildSourcePlan config 400 outage) =
  [("local", true, ""); ("ldap-primary", true, ""); ("hotspot", false, "source type is not executable by portal auth"); ("ldap-backup", true, "")].
Proof. vm_compute. reflexivity. Qed.

Lemma circuit_open_iff_witness : CiState (GetIdentitySourceCircuitState "ldap-primary" 2 300 140 outage) = "open".
Proof.
  apply (circuit_open_iff "ldap-primary" 2 300 140 outage); [lia | lia | discriminate|]. split; [vm_compute; reflexivity|]. split; [decided|].
  eexists. split; [vm_compute; reflexivity|]. simpl. lia.
Defined.
Lemma plan_order_witness : exists rest, PnName <$> BuildSourcePlan config 140 outage = ["local"; "ldap-primary"] ++ (PnName <$> rest).
Proof. destruct (plan_order config 140 outage) as (rest & H & _). exists rest. exact H. Defined.
Lemma plan_deterministic_witness : BuildSourcePlan (MR := forward_range) config 140 outage = BuildSourcePlan (MR := backward_range) config 140 outage.
Proof. apply (plan_deterministic forward_range backward_range config 140 outage). Defined.
End example.
