(* ===== verification/Sha.v ===== *)
(** * SHA-1, SHA-256, SHA-512 and HMAC (Go's [crypto/sha1], [crypto/sha256], [crypto/sha512], [crypto/hmac])

    The digests that one-time passwords use (FIPS 180-4, RFC 2104), executable, on words as [Z] with the wrap-around written out, and checked against published
    test vectors. The development relies on the lengths of the digests only. *)

From S2P Require Import Prelude Bytes.

(** ** Words and padding *)

(** Words of [w] bits *)
Definition wrap (w v : Z) : Z := v mod 2 ^ w.
Definition rotl (w v n : Z) : Z := Z.lor (wrap w (Z.shiftl v n)) (Z.shiftr v (w - n)).
Definition rotr (w v n : Z) : Z := rotl w v (w - n).
Definition lnot (w v : Z) : Z := Z.lxor v (2 ^ w - 1).

Definition be_bytes (n : nat) (v : Z) : list Z := (fun i => to_byte (Z.shiftr v (8 * (Z.of_nat n - 1 - Z.of_nat i)))) <$> seq 0 n.
Definition be_word (l : list Z) : Z := foldl (fun acc b => 256 * acc + b) 0 l.
Fixpoint be_words (count size : nat) (l : list Z) : list Z :=
  match count with O => [] | S count => be_word (take size l) :: be_words count size (drop size l) end.

(** The message, a one bit, zeros, and the length in bits, up to a multiple of the block *)
Definition sha_pad (block lengthBytes : nat) (m : list Z) : list Z :=
  m ++ 128 :: repeat 0 (Z.to_nat ((Z.of_nat (block - lengthBytes) - 1 - zlen m) mod Z.of_nat block)) ++ be_bytes lengthBytes (8 * zlen m).
Fixpoint blocks {A} (step : A -> list Z -> A) (size n : nat) (st : A) (l : list Z) : A :=
  match n with O => st | S n => blocks step size n (step st (take size l)) (drop size l) end.

(** ** SHA-1 *)

Fixpoint sha1_schedule (n : nat) (recent : list Z) : list Z :=   (* the last sixteen words, the newest first *)
  match n with
  | O => []
  | S n => let v := rotl 32 (Z.lxor (Z.lxor (default 0 (recent !! 2%nat)) (default 0 (recent !! 7%nat))) (Z.lxor (default 0 (recent !! 13%nat)) (default 0 (recent !! 15%nat)))) 1 in
           v :: sha1_schedule n (v :: take 15 recent)
  end.
Definition sha1_state : Type := Z * Z * Z * Z * Z.
Definition sha1_step (st : sha1_state) (iv : nat * Z) : sha1_state :=
  let '(a, b, c, d, e) := st in
  let '(i, v) := iv in
  let '(f, k) :=
    if Nat.ltb i 20 then (Z.lor (Z.land b c) (Z.land (lnot 32 b) d), 1518500249)
    else if Nat.ltb i 40 then (Z.lxor (Z.lxor b c) d, 1859775393)
    else if Nat.ltb i 60 then (Z.lor (Z.lor (Z.land b c) (Z.land b d)) (Z.land c d), 2400959708)
    else (Z.lxor (Z.lxor b c) d, 3395469782) in
  (wrap 32 (rotl 32 a 5 + f + e + k + v), a, rotl 32 b 30, c, d).
Definition sha1_block (st : sha1_state) (block : list Z) : sha1_state :=
  let w := be_words 16 4 block in
  let '(a, b, c, d, e) := st in
  let '(a', b', c', d', e') := foldl sha1_step st (zip (seq 0 80) (w ++ sha1_schedule 64 (reverse w))) in
  (wrap 32 (a + a'), wrap 32 (b + b'), wrap 32 (c + c'), wrap 32 (d + d'), wrap 32 (e + e')).
Definition sha1 (m : list Z) : list Z :=
  let p := sha_pad 64 8 m in
  let '(a, b, c, d, e) := blocks sha1_block 64 (length p / 64) (1732584193, 4023233417, 2562383102, 271733878, 3285377520) p in
  be_bytes 4 a ++ be_bytes 4 b ++ be_bytes 4 c ++ be_bytes 4 d ++ be_bytes 4 e.

(** ** SHA-256 and SHA-512: one function of the width of the words, with its rotations and constants *)

Record sha2_params := mkSha2 {
  ShBits : Z; ShWord : nat; ShSmall0 : Z * Z * Z; ShSmall1 : Z * Z * Z; ShBig0 : Z * Z * Z; ShBig1 : Z * Z * Z; ShConstants : list Z }.
Definition sha2_state : Type := Z * Z * Z * Z * Z * Z * Z * Z.

Section sha2.
Context (p : sha2_params).
(** Two rotations and a shift, and three rotations *)
Definition small_sigma (n : Z * Z * Z) (v : Z) : Z := let '(x, y, z) := n in Z.lxor (Z.lxor (rotr (ShBits p) v x) (rotr (ShBits p) v y)) (Z.shiftr v z).
Definition big_sigma (n : Z * Z * Z) (v : Z) : Z := let '(x, y, z) := n in Z.lxor (Z.lxor (rotr (ShBits p) v x) (rotr (ShBits p) v y)) (rotr (ShBits p) v z).
Fixpoint sha2_schedule (n : nat) (recent : list Z) : list Z :=
  match n with
  | O => []
  | S n => let v := wrap (ShBits p) (small_sigma (ShSmall1 p) (default 0 (recent !! 1%nat)) + default 0 (recent !! 6%nat)
                      + small_sigma (ShSmall0 p) (default 0 (recent !! 14%nat)) + default 0 (recent !! 15%nat)) in
           v :: sha2_schedule n (v :: take 15 recent)
  end.
Definition sha2_step (st : sha2_state) (kv : Z * Z) : sha2_state :=
  let '(a, b, c, d, e, f, g, h) := st in
  let '(k, v) := kv in
  let t1 := h + big_sigma (ShBig1 p) e + Z.lxor (Z.land e f) (Z.land (lnot (ShBits p) e) g) + k + v in
  let t2 := big_sigma (ShBig0 p) a + Z.lxor (Z.lxor (Z.land a b) (Z.land a c)) (Z.land b c) in
  (wrap (ShBits p) (t1 + t2), a, b, c, wrap (ShBits p) (d + t1), e, f, g).
Definition sha2_block (st : sha2_state) (block : list Z) : sha2_state :=
  let w := be_words 16 (ShWord p) block in
  let '(a, b, c, d, e, f, g, h) := st in
  let '(a', b', c', d', e', f', g', h') := foldl sha2_step st (zip (ShConstants p) (w ++ sha2_schedule (length (ShConstants p) - 16) (reverse w))) in
  (wrap (ShBits p) (a + a'), wrap (ShBits p) (b + b'), wrap (ShBits p) (c + c'), wrap (ShBits p) (d + d'),
   wrap (ShBits p) (e + e'), wrap (ShBits p) (f + f'), wrap (ShBits p) (g + g'), wrap (ShBits p) (h + h')).
Definition sha2 (init : sha2_state) (m : list Z) : list Z :=
  let q := sha_pad (16 * ShWord p) (2 * ShWord p) m in
  let '(a, b, c, d, e, f, g, h) := blocks sha2_block (16 * ShWord p) (length q / (16 * ShWord p)) init q in
  be_bytes (ShWord p) a ++ be_bytes (ShWord p) b ++ be_bytes (ShWord p) c ++ be_bytes (ShWord p) d
  ++ be_bytes (ShWord p) e ++ be_bytes (ShWord p) f ++ be_bytes (ShWord p) g ++ be_bytes (ShWord p) h.
End sha2.

Definition sha256_constants : list Z :=
  [1116352408; 1899447441; 3049323471; 3921009573; 961987163; 1508970993; 2453635748; 2870763221;
   3624381080; 310598401; 607225278; 1426881987; 1925078388; 2162078206; 2614888103; 3248222580;
   3835390401; 4022224774; 264347078; 604807628; 770255983; 1249150122; 1555081692; 1996064986;
   2554220882; 2821834349; 2952996808; 3210313671; 3336571891; 3584528711; 113926993; 338241895;
   666307205; 773529912; 1294757372; 1396182291; 1695183700; 1986661051; 2177026350; 2456956037;
   2730485921; 2820302411; 3259730800; 3345764771; 3516065817; 3600352804; 4094571909; 275423344;
   430227734; 506948616; 659060556; 883997877; 958139571; 1322822218; 1537002063; 1747873779;
   1955562222; 2024104815; 2227730452; 2361852424; 2428436474; 2756734187; 3204031479; 3329325298].
Definition sha512_constants : list Z :=
  [4794697086780616226; 8158064640168781261; 13096744586834688815; 16840607885511220156; 4131703408338449720;
   6480981068601479193; 10538285296894168987; 12329834152419229976; 15566598209576043074; 1334009975649890238;
   2608012711638119052; 6128411473006802146; 8268148722764581231; 9286055187155687089; 11230858885718282805;
   13951009754708518548; 16472876342353939154; 17275323862435702243; 1135362057144423861; 2597628984639134821;
   3308224258029322869; 5365058923640841347; 6679025012923562964; 8573033837759648693; 10970295158949994411;
   12119686244451234320; 12683024718118986047; 13788192230050041572; 14330467153632333762; 15395433587784984357;
   489312712824947311; 1452737877330783856; 2861767655752347644; 3322285676063803686; 5560940570517711597;
   5996557281743188959; 7280758554555802590; 8532644243296465576; 9350256976987008742; 10552545826968843579;
   11727347734174303076; 12113106623233404929; 14000437183269869457; 14369950271660146224; 15101387698204529176;
   15463397548674623760; 17586052441742319658; 1182934255886127544; 1847814050463011016; 2177327727835720531;
   2830643537854262169; 3796741975233480872; 4115178125766777443; 5681478168544905931; 6601373596472566643;
   7507060721942968483; 8399075790359081724; 8693463985226723168; 9568029438360202098; 10144078919501101548;
   10430055236837252648; 11840083180663258601; 13761210420658862357; 14299343276471374635; 14566680578165727644;
   15097957966210449927; 16922976911328602910; 17689382322260857208; 500013540394364858; 748580250866718886;
   1242879168328830382; 1977374033974150939; 2944078676154940804; 3659926193048069267; 4368137639120453308;
   4836135668995329356; 5532061633213252278; 6448918945643986474; 6902733635092675308; 7801388544844847127].

Definition sha256 : list Z -> list Z :=
  sha2 (mkSha2 32 4 (7, 18, 3) (17, 19, 10) (2, 13, 22) (6, 11, 25) sha256_constants)
    (1779033703, 3144134277, 1013904242, 2773480762, 1359893119, 2600822924, 528734635, 1541459225).
Definition sha512 : list Z -> list Z :=
  sha2 (mkSha2 64 8 (1, 8, 7) (19, 61, 6) (28, 34, 39) (14, 18, 41) sha512_constants)
    (7640891576956012808, 13503953896175478587, 4354685564936845355, 11912009170470909681,
     5840696475078001361, 11170449401992604703, 2270897969802886507, 6620516959819538809).

(** ** HMAC *)

Definition hmac (block : nat) (digest : list Z -> list Z) (key message : list Z) : list Z :=
  let key := if Nat.ltb block (length key) then digest key else key in
  let key := key ++ repeat 0 (block - length key) in
  digest ((Z.lxor 92 <$> key) ++ digest ((Z.lxor 54 <$> key) ++ message)).

(** ** Lengths *)

Lemma length_be_bytes n v : length (be_bytes n v) = n.
Proof. unfold be_bytes. by rewrite length_fmap, length_seq. Qed.
Lemma be_bytes_wf n v : wf_bytes (be_bytes n v).
Proof. unfold be_bytes. apply Forall_fmap, Forall_true. intros i. apply to_byte_is_byte. Qed.

Lemma length_sha1 m : length (sha1 m) = 20%nat.
Proof. unfold sha1. destruct (blocks _ _ _ _ _) as [[[[a b] c] d] e]. by rewrite !length_app, !length_be_bytes. Qed.
Lemma sha1_wf m : wf_bytes (sha1 m).
Proof. unfold sha1. destruct (blocks _ _ _ _ _) as [[[[a b] c] d] e]. repeat apply Forall_app_2; apply be_bytes_wf. Qed.
Lemma length_sha2 p init m : length (sha2 p init m) = (8 * ShWord p)%nat.
Proof. unfold sha2. destruct (blocks _ _ _ _ _) as [[[[[[[a b] c] d] e] f] g] h]. rewrite !length_app, !length_be_bytes. lia. Qed.
Lemma sha2_wf p init m : wf_bytes (sha2 p init m).
Proof. unfold sha2. destruct (blocks _ _ _ _ _) as [[[[[[[a b] c] d] e] f] g] h]. repeat apply Forall_app_2; apply be_bytes_wf. Qed.

(** The digests of "abc" in FIPS 180-4, and the second test case of RFC 2202. *)
Definition abc : list Z := [97; 98; 99].
Example sha1_abc : be_word (sha1 abc) = 968236873715988614170569073515315707566766479517.
Proof. vm_compute. reflexivity. Qed.
Example sha256_abc : be_word (sha256 abc) = 84342368487090800366523834928142263660104883695016514377462985829716817089965.
Proof. vm_compute. reflexivity. Qed.
Example sha512_abc : be_word (sha512 abc) =
  11610554759577678887058616627522426787358414133166247019097754655123425531747192578669846860198531688061507751898313498051436198428987376028989280584770719.
Proof. vm_compute. reflexivity. Qed.
(** 119 bytes: the padding takes a second block of SHA-1, and fits into one of SHA-512. *)
Example sha1_two_blocks : be_word (sha1 (repeat 97 119)) = 1362108644372945909094612305220738489442063219798.
Proof. vm_compute. reflexivity. Qed.
Example hmac_sha1_jefe : be_word (hmac 64 sha1 [74; 101; 102; 101] [119; 104; 97; 116; 32; 100; 111; 32; 121; 97; 32; 119; 97; 110; 116; 32; 102; 111; 114; 32; 110; 111; 116; 104; 105; 110; 103; 63]) = 1370088044432235406447715025668911442119599225977.
Proof. vm_compute. reflexivity. Qed.
