(* ===== verification/FallbackPolicy.v ===== *)
(** * The policy for logins during an outage of the upstream servers ([internal/radius/fallback_policy.go])

    When the RADIUS broker does not answer, the portal may check a login itself ([PortalAuth]); this policy says for which identities, and for how long after the
    start of the outage. The start is read off the runtime status that the broker client keeps ([client.go], [db/runtime_status.go]). Instants are whole seconds. *)

From S2P Require Import Prelude GoStrings EventLog IdentityFailover.
From Stdlib Require Import Ascii.

(** [config.RadiusFallbackPolicyConfig] *)
Record FallbackConfig := mkFallbackConfig {
  FkEnabled : bool; FkMode : string; FkFailClosed : bool; FkAllowPortalLocal : bool; FkAllowLDAP : bool; FkRequireIdentityAllowlist : bool; FkMaxOutageSeconds : Z;
  FkStalePolicySeconds : Z; FkRecoverySuccesses : Z; FkAllowedUsers : list string; FkAllowedRealms : list string; FkAllowedRoles : list string; FkAuditEnabled : bool; FkRetentionLimit : Z }.
(** What the policy reads of the configuration *)
Record OutageConfig := mkOutageConfig { OcFallback : FallbackConfig; OcUpstreamEnabled : bool; OcLocalFallback : bool }.

Record FallbackPolicy := mkFallbackPolicy {
  FpEnabled : bool; FpMode : string; FpFailClosed : bool; FpAllowPortalLocal : bool; FpAllowLDAP : bool; FpRequireIdentityAllowlist : bool; FpMaxOutageSeconds : Z;
  FpStalePolicySeconds : Z; FpRecoverySuccesses : Z; FpAllowedUsers : list string; FpAllowedRealms : list string; FpAllowedRoles : list string; FpAuditEnabled : bool; FpRetentionLimit : Z }.

Record RuntimeStatus := mkRuntimeStatus { RsStatus : string; RsMessage : string; RsUpdatedAt : Z }.
Record FallbackOutageSnapshot := mkSnapshot { SnActive : bool; SnStatus : string; SnMessage : string; SnStartedAt : option Z; SnExpiresAt : option Z }.
Record FallbackEvaluationRequest := mkEvaluation {
  EvUsername : string; EvRole : string; EvIdentitySource : string; EvSource : string; EvUpstreamStatus : string; EvUpstreamMessage : string; EvOutageStartedAt : option Z }.
Record FallbackDecision := mkDecision {
  DcAllowed : bool; DcDecision : string; DcReason : string; DcMode : string; DcFailClosed : bool; DcSource : string; DcIdentitySource : string; DcRole : string; DcRealm : string;
  DcUsernameHash : string; DcUpstreamStatus : string; DcOutageStartedAt : option Z; DcExpiresAt : option Z; DcMonitorOnly : bool; DcUpstreamMessage : string }.
(** A row of [radius_fallback_events] *)
Record RadiusFallbackEvent := mkFallbackEvent {
  FeSource : string; FeUsernameHash : string; FeRealm : string; FeIdentitySource : string; FeRole : string; FeDecision : string; FeReason : string; FeUpstreamStatus : string;
  FePolicyMode : string; FeFailClosed : bool; FeOutageStartedAt : option Z; FeExpiresAt : option Z }.

Section fallback.
Context {U : Unicode} {HD : HexDigest}.

Definition EffectiveRadiusFallbackPolicyConfig (raw : FallbackConfig) : FallbackConfig :=
  mkFallbackConfig (FkEnabled raw) (text_or (FkMode raw) "monitor") (FkFailClosed raw) (FkAllowPortalLocal raw) (FkAllowLDAP raw) (FkRequireIdentityAllowlist raw)
    (number_or (FkMaxOutageSeconds raw) 900) (number_or (FkStalePolicySeconds raw) 3600) (number_or (FkRecoverySuccesses raw) 2) (FkAllowedUsers raw) (FkAllowedRealms raw)
    (FkAllowedRoles raw) (FkAuditEnabled raw) (number_or (FkRetentionLimit raw) 6000).

Definition defaultString (value fallback : string) : string := if blank value then TrimSpace fallback else TrimSpace value.
Definition normalizedPolicyStrings (values : list string) : list string := sort_by string_less (distinct_normalized values).

Definition FallbackPolicyFromConfig (cfg : option OutageConfig) : FallbackPolicy :=
  match cfg with
  | None => mkFallbackPolicy false "monitor" false false false false 0 0 0 [] [] [] false 0
  | Some cfg =>
      let raw := EffectiveRadiusFallbackPolicyConfig (OcFallback cfg) in
      mkFallbackPolicy (FkEnabled raw) (ToLower (defaultString (FkMode raw) "monitor")) (FkFailClosed raw) (FkAllowPortalLocal raw) (FkAllowLDAP raw) (FkRequireIdentityAllowlist raw)
        (FkMaxOutageSeconds raw) (FkStalePolicySeconds raw) (FkRecoverySuccesses raw) (normalizedPolicyStrings (FkAllowedUsers raw)) (normalizedPolicyStrings (FkAllowedRealms raw))
        (normalizedPolicyStrings (FkAllowedRoles raw)) (FkAuditEnabled raw) (FkRetentionLimit raw)
  end.

(** [status]: the row [radius_broker_auth] of [runtime_status] *)
Definition CurrentFallbackOutageSnapshot (policy : FallbackPolicy) (status : option RuntimeStatus) : FallbackOutageSnapshot :=
  match status with
  | None => mkSnapshot false "unknown" "broker status has not been recorded" None None
  | Some status =>
      let text := TrimSpace (RsStatus status) in
      if EqualFold text "ok" then mkSnapshot false text (TrimSpace (RsMessage status)) None None
      else mkSnapshot true text (TrimSpace (RsMessage status)) (Some (RsUpdatedAt status)) (Some (RsUpdatedAt status + FpMaxOutageSeconds policy))
  end.

Definition identityRealm (username : string) : string :=
  match after_last "@"%char (TrimSpace username) with Some realm => if (realm =? "")%string then "" else lower_trim realm | None => "" end.
Definition HashFallbackIdentity (username : string) : string := hex_digest (lower_trim username).

Definition containsPolicyValue (values : list string) (needle : string) : bool := existsb (fun value => lower_trim value =? lower_trim needle)%string values.
Definition fallbackIdentityAllowed (policy : FallbackPolicy) (username realm role : string) : bool :=
  if Nat.eqb (length (FpAllowedUsers policy) + length (FpAllowedRealms policy) + length (FpAllowedRoles policy)) 0 then false
  else
    let username := lower_trim username in
    let realm := lower_trim realm in
    let role := lower_trim role in
    containsPolicyValue (FpAllowedUsers policy) username || negb (realm =? "")%string && containsPolicyValue (FpAllowedRealms policy) realm
    || containsPolicyValue (FpAllowedRealms policy) "*" || negb (role =? "")%string && containsPolicyValue (FpAllowedRoles policy) role.

Definition fallbackPolicyViolations (policy : FallbackPolicy) (cfg : option OutageConfig) (req : FallbackEvaluationRequest) (realm : string) (expiresAt : option Z) (now : Z) : list string :=
  match cfg with
  | None => ["configuration is not loaded"]
  | Some cfg =>
      if OcUpstreamEnabled cfg && negb (FpEnabled policy) then ["fallback policy is disabled while upstream AAA is enabled"]
      else
        let identitySource := lower_trim (EvIdentitySource req) in
        (if OcLocalFallback cfg then [] else ["portal.local_fallback is disabled"])
        ++ (if (identitySource =? "local")%string then if FpAllowPortalLocal policy then [] else ["local portal fallback is not allowed"]
            else if (identitySource =? "ldap")%string then if FpAllowLDAP policy then [] else ["LDAP fallback is not allowed"]
            else ["identity source is not eligible for fallback"])
        ++ (if FpRequireIdentityAllowlist policy && negb (fallbackIdentityAllowed policy (EvUsername req) realm (EvRole req)) then ["identity is not in the fallback allowlist"] else [])
        ++ match expiresAt with Some t => if now >? t then ["fallback outage window expired"] else [] | None => [] end
  end.

Definition EvaluateFallbackPolicy (cfg : option OutageConfig) (req : FallbackEvaluationRequest) (now : Z) (status : option RuntimeStatus) : FallbackDecision :=
  let policy := FallbackPolicyFromConfig cfg in
  let upstream := match cfg with Some c => OcUpstreamEnabled c | None => false end in
  let realm := identityRealm (EvUsername req) in
  let outage := CurrentFallbackOutageSnapshot policy status in
  let '(outageStartedAt, upstreamStatus, upstreamMessage) :=
    match EvOutageStartedAt req with
    | Some t => (Some t, EvUpstreamStatus req, EvUpstreamMessage req)
    | None =>
        (match SnStartedAt outage with Some t => Some t | None => if upstream then Some now else None end,
         text_or (EvUpstreamStatus req) (SnStatus outage), text_or (EvUpstreamMessage req) (SnMessage outage))
    end in
  let expiresAt := match outageStartedAt with Some t => if FpMaxOutageSeconds policy >? 0 then Some (t + FpMaxOutageSeconds policy) else None | None => None end in
  let enforced := (FpMode policy =? "enforce")%string && FpFailClosed policy in
  let violations := fallbackPolicyViolations policy cfg req realm expiresAt now in
  let violated := match violations with [] => false | _ => true end in
  let denied := (violated && enforced) || (negb (FpEnabled policy) && upstream && enforced) in
  mkDecision (negb denied) (if denied then "denied" else "allowed")
    (if negb (FpEnabled policy) then "fallback policy disabled; legacy portal.local_fallback behavior applies"
     else if violated then Join violations "; " else "fallback policy permits this identity")
    (FpMode policy) (FpFailClosed policy) (ToLower (defaultString (EvSource req) "portal")) (lower_trim (EvIdentitySource req)) (TrimSpace (EvRole req)) realm
    (HashFallbackIdentity (EvUsername req)) (TrimSpace upstreamStatus) outageStartedAt expiresAt (violated && negb enforced) (TrimSpace upstreamMessage).

Definition RecordRadiusFallbackEvent (now : Z) (record : RadiusFallbackEvent) (retentionLimit : Z) (events : EventLog RadiusFallbackEvent) : EventLog RadiusFallbackEvent :=
  record_event (if retentionLimit <=? 0 then 6000 else retentionLimit) now
    (mkFallbackEvent (TrimSpace (FeSource record)) (TrimSpace (FeUsernameHash record)) (TrimSpace (FeRealm record)) (TrimSpace (FeIdentitySource record)) (TrimSpace (FeRole record))
       (TrimSpace (FeDecision record)) (TrimSpace (FeReason record)) (TrimSpace (FeUpstreamStatus record)) (TrimSpace (FePolicyMode record)) (FeFailClosed record) (FeOutageStartedAt record)
       (FeExpiresAt record)) events.
Definition RecordFallbackDecision (cfg : option OutageConfig) (now : Z) (d : FallbackDecision) (events : EventLog RadiusFallbackEvent) : EventLog RadiusFallbackEvent :=
  let policy := FallbackPolicyFromConfig cfg in
  if negb (FpAuditEnabled policy) then events
  else RecordRadiusFallbackEvent now
    (mkFallbackEvent (DcSource d) (DcUsernameHash d) (DcRealm d) (DcIdentitySource d) (DcRole d) (DcDecision d) (DcReason d) (DcUpstreamStatus d) (DcMode d) (DcFailClosed d)
       (DcOutageStartedAt d) (DcExpiresAt d)) (FpRetentionLimit policy) events.

(** [db.UpsertRuntimeStatus] for one component; the details are left out. *)
Definition UpsertRuntimeStatus (status message : string) (now : Z) (old : option RuntimeStatus) : option RuntimeStatus :=
  if blank status then old else Some (mkRuntimeStatus (TrimSpace status) message now).
End fallback.
