(* ===== verification/Mfa.v ===== *)
(** * One-time passwords as a second factor ([internal/mfa/mfa.go], [internal/db/mfa.go])

    Users enrol for time-based one-time passwords (RFC 6238) and get recovery codes. A login that needs a second factor brings a code, or starts a challenge that a
    later request answers; a challenge takes a bounded number of answers.

    The database is open and takes the statements. Texts of times are the instants in whole seconds; random bytes and salts are arguments, the sealing key
    is the resolved value of its reference ([Secrets]). The report, the URL for the enrolment and the summaries for display are left out. *)

From S2P Require Import Prelude GoStrings Bytes EventLog Sha IdentityFailover.
From Stdlib Require Import Ascii.

(** [encoding/base32] without and with padding *)
Class Base32 := { base32_encode : list Z -> string; base32_decode : string -> option (list Z); base32_decode_padded : string -> option (list Z) }.
(** Decoding gives back what was encoded; the alphabet is the upper-case letters and digits, and no bytes encode to no text. *)
Definition code_char (c : ascii) : bool := in_range "0"%char "9"%char c || in_range "A"%char "Z"%char c.
Class Base32Laws `{Base32} : Prop := {
  base32_decode_encode l : wf_bytes l -> base32_decode (base32_encode l) = Some l;
  base32_alphabet l : all_chars code_char (base32_encode l) = true;
  base32_empty l : base32_encode l = "" -> l = [] }.

(** AES-GCM under the SHA-256 of the key, with the texts of ciphertext and nonce in base64 *)
Class Sealing := {
  seal_secret : string -> string -> string -> string -> string * string;          (** key, nonce, additional data, plaintext *)
  open_secret : string -> string -> string * string -> result string string }.    (** key, additional data, sealed text *)
Class SealingLaws `{Sealing} : Prop := {
  open_seal key nonce aad plaintext : open_secret key aad (seal_secret key nonce aad plaintext) = Ok plaintext;
  sealed_trimmed key nonce aad plaintext (sealed := seal_secret key nonce aad plaintext) : (TrimSpace sealed.1, TrimSpace sealed.2) = sealed }.

(** ** Configuration *)

Record MFAConfig := mkMFAConfig {
  McEnabled : bool; McMode : string; McFailClosed : bool; McOTPEnabled : bool; McIssuer : string; McAlgorithm : string; McDigits : Z; McPeriodSeconds : Z; McWindowSteps : Z;
  McMaxAttempts : Z; McStepUpRoles : list string; McStepUpRealms : list string; McRequiredForAdmins : bool; McTTLSeconds : Z; McMaxPending : Z; McPrompt : string;
  McRecoveryEnabled : bool; McCodeCount : Z; McCodeBytes : Z; McCodeTTLSeconds : Z; McAuditEnabled : bool; McRetentionLimit : Z }.
Definition empty_mfa_config : MFAConfig := mkMFAConfig false "" false false "" "" 0 0 0 0 [] [] false 0 0 "" false 0 0 0 false 0.

Record MfaPolicy := mkMfaPolicy {
  MfEnabled : bool; MfMode : string; MfFailClosed : bool; MfOTPEnabled : bool; MfIssuer : string; MfAlgorithm : string; MfDigits : Z; MfPeriodSeconds : Z; MfWindowSteps : Z;
  MfMaxAttempts : Z; MfStepUpRoles : list string; MfStepUpRealms : list string; MfRequiredForAdmins : bool; MfChallengeTTL : Z; MfChallengeMax : Z; MfChallengePrompt : string;
  MfRecoveryEnabled : bool; MfRecoveryCodeCount : Z; MfRecoveryCodeBytes : Z; MfRecoveryCodeTTL : Z; MfAuditEnabled : bool; MfRetentionLimit : Z }.

Record StepUpContext := mkStepUp { StUsername : string; StRole : string; StIdentitySource : string; StAuthMethod : string; StSource : string }.


Section policy.
Context {U : Unicode}.

Definition EffectiveMFAConfig (raw : MFAConfig) : MFAConfig :=
  mkMFAConfig (McEnabled raw) (text_or (McMode raw) "monitor") (McFailClosed raw) (McOTPEnabled raw) (text_or (McIssuer raw) "AegisNAS") (text_or (McAlgorithm raw) "SHA1")
    (number_or (McDigits raw) 6) (number_or (McPeriodSeconds raw) 30) (number_or (McWindowSteps raw) 1) (number_or (McMaxAttempts raw) 5)
    (match McStepUpRoles raw with [] => ["admin"; "super_admin"; "ops_admin"] | roles => roles end) (McStepUpRealms raw) (McRequiredForAdmins raw)
    (number_or (McTTLSeconds raw) 300) (number_or (McMaxPending raw) 10000) (text_or (McPrompt raw) "Enter one-time password") (McRecoveryEnabled raw)
    (number_or (McCodeCount raw) 10) (number_or (McCodeBytes raw) 16) (McCodeTTLSeconds raw) (McAuditEnabled raw) (number_or (McRetentionLimit raw) 6000).

Definition mfa_normalizeMode (mode : string) : string := let mode := lower_trim mode in if (mode =? "")%string then "monitor" else mode.

Definition PolicyFromConfig (cfg : option MFAConfig) : MfaPolicy :=
  let raw := match cfg with Some c => EffectiveMFAConfig c | None => empty_mfa_config end in
  mkMfaPolicy (McEnabled raw) (mfa_normalizeMode (McMode raw)) (McFailClosed raw) (McOTPEnabled raw) (TrimSpace (McIssuer raw)) (ToUpper (TrimSpace (McAlgorithm raw))) (McDigits raw)
    (McPeriodSeconds raw) (McWindowSteps raw) (McMaxAttempts raw) (distinct_normalized (McStepUpRoles raw)) (distinct_normalized (McStepUpRealms raw)) (McRequiredForAdmins raw)
    (McTTLSeconds raw) (McMaxPending raw) (TrimSpace (McPrompt raw)) (McRecoveryEnabled raw) (McCodeCount raw) (McCodeBytes raw) (McCodeTTLSeconds raw) (McAuditEnabled raw) (McRetentionLimit raw).

Definition usernameRealm (username : string) : string :=
  match after_last "@"%char (TrimSpace username) with Some realm => if (realm =? "")%string then "" else ToLower realm | None => "" end.

Definition RequiresStepUp (cfg : option MFAConfig) (ctx : StepUpContext) : bool :=
  let policy := PolicyFromConfig cfg in
  let role := lower_trim (StRole ctx) in
  let realm := usernameRealm (StUsername ctx) in
  MfEnabled policy && MfOTPEnabled policy
  && (MfRequiredForAdmins policy && ((role =? "admin")%string || (role =? "super_admin")%string || (role =? "ops_admin")%string)
      || existsb (fun candidate => EqualFold candidate role) (MfStepUpRoles policy)
      || existsb (fun candidate => (candidate =? "*")%string || EqualFold candidate realm) (MfStepUpRealms policy)).

(** ** Codes *)

Definition normalizeCode (code : string) : string :=
  ToUpper (RemoveAllChar (RemoveAllChar (RemoveAllChar (RemoveAllChar (RemoveAllChar (TrimSpace code) " "%char) "-"%char) (ascii_of_nat 9)) (ascii_of_nat 10)) (ascii_of_nat 13)).

Definition addBase32Padding (value : string) : string :=
  let value := TrimSpace value in
  let remainder := Nat.modulo (String.length value) 8 in
  if (value =? "")%string then "" else if Nat.eqb remainder 0 then value else value +:+ string_of_bytes (repeat 61 (8 - remainder)).

(** The size of the block and the digest *)
Definition hashFactory (algorithm : string) : nat * (list Z -> list Z) :=
  let algorithm := ToUpper (TrimSpace algorithm) in
  if (algorithm =? "SHA256")%string then (64%nat, sha256) else if (algorithm =? "SHA512")%string then (128%nat, sha512) else (64%nat, sha1).

(** [fmt.Sprintf("%0*d", width, v)] of a number that is not negative *)
Definition zero_padded (width v : Z) : string := string_of_bytes (repeat 48 (Z.to_nat width - String.length (Itoa v))) +:+ Itoa v.

Record TOTPOptions := mkOptions { ToAlgorithm : string; ToDigits : Z; ToPeriodSeconds : Z; ToWindowSteps : Z }.
Definition with_defaults (opts : TOTPOptions) : TOTPOptions :=
  mkOptions (ToAlgorithm opts) (if ToDigits opts =? 0 then 6 else ToDigits opts) (if ToPeriodSeconds opts <=? 0 then 30 else ToPeriodSeconds opts) (ToWindowSteps opts).

(** The 31 bits at the offset that the last byte of the digest gives *)
Definition truncated (sum : list Z) : Z :=
  let offset := Z.to_nat (Z.land (default 0 (last sum)) 15) in
  let at_ i := default 0 (sum !! (offset + i)%nat) in
  Z.lor (Z.lor (Z.lor (Z.shiftl (Z.land (at_ 0%nat) 127) 24) (Z.shiftl (at_ 1%nat) 16)) (Z.shiftl (at_ 2%nat) 8)) (at_ 3%nat).
Definition hotp (secret : list Z) (counter : Z) (opts : TOTPOptions) : string :=
  if counter >=? 2 ^ 63 then ""
  else
    let '(block, digest) := hashFactory (ToAlgorithm opts) in
    zero_padded (ToDigits opts) (truncated (hmac block digest secret (be_bytes 8 counter)) mod to_uint32 (10 ^ ToDigits opts)).
End policy.

Section totp.
Context {U : Unicode} {B : Base32}.

Definition decode_secret (secret : string) : option (list Z) :=
  match base32_decode (ToUpper secret) with
  | Some bytes => Some bytes
  | None => let padded := addBase32Padding (ToUpper secret) in if (padded =? "")%string then None else base32_decode_padded padded
  end.
Definition offsets (window : Z) : list Z := (fun i => Z.of_nat i - window) <$> seq 0 (Z.to_nat (2 * window + 1)).

Definition VerifyTOTP (secret code : string) (opts : TOTPOptions) (now : Z) : bool :=
  let secret := TrimSpace secret in
  let code := normalizeCode code in
  if (secret =? "")%string || (code =? "")%string then false
  else
    match decode_secret secret with
    | None => false
    | Some bytes =>
        let opts := with_defaults opts in
        let counter := Z.quot now (ToPeriodSeconds opts) in
        existsb (fun offset => negb (counter + offset <? 0) && (hotp bytes (counter + offset) opts =? code)%string) (offsets (ToWindowSteps opts))
    end.

Definition GenerateTOTP (secret : string) (opts : TOTPOptions) (now : Z) : string :=
  match base32_decode (ToUpper (TrimSpace secret)) with
  | None => ""
  | Some bytes => let opts := with_defaults opts in hotp bytes (Z.quot now (ToPeriodSeconds opts)) opts
  end.
End totp.

(** ** The tables *)

Record TotpSecret := mkTotpSecret {
  TsSecret : string * string; TsAlgorithm : string; TsDigits : Z; TsPeriodSeconds : Z; TsIssuer : string; TsEnabled : bool; TsUpdatedAt : Z; TsLastVerifiedAt : option Z }.
Record RecoveryCode := mkRecoveryCode { RyID : Z; RyUsernameHash : string; RyCodeHash : string; RyExpiresAt : option Z; RyCreatedAt : Z; RyUsedAt : option Z }.
Record MFAChallenge := mkMFAChallenge {
  ChID : string; ChStateHash : string; ChUsernameHash : string; ChSource : string; ChRole : string; ChIdentitySource : string; ChAuthMethod : string; ChChallengeType : string;
  ChStatus : string; ChAttemptCount : Z; ChMaxAttempts : Z; ChPrompt : string; ChExpiresAt : Z; ChFailureReason : string; ChVerifiedAt : option Z }.
Record MFAEvent := mkMFAEvent {
  MeUsernameHash : string; MeSource : string; MeMethod : string; MeDecision : string; MeReason : string; MeChallengeID : string; MeRole : string; MeIdentitySource : string; MeAuthMethod : string }.

(** [mfa_totp_secrets] by the hash of the user name, [mfa_recovery_codes] with the ids given out, [mfa_challenges], [mfa_events] *)
Record MfaDB := mkMfaDB {
  MdSecrets : gmap string TotpSecret; MdCodes : list RecoveryCode; MdCodeSequence : Z; MdChallenges : list MFAChallenge; MdEvents : EventLog MFAEvent }.
Definition empty_mfa_db : MfaDB := mkMfaDB ∅ [] 0 [] empty_log.
Definition with_secrets (db : MfaDB) (secrets : gmap string TotpSecret) : MfaDB := mkMfaDB secrets (MdCodes db) (MdCodeSequence db) (MdChallenges db) (MdEvents db).
Definition with_codes (db : MfaDB) (codes : list RecoveryCode) (sequence : Z) : MfaDB := mkMfaDB (MdSecrets db) codes sequence (MdChallenges db) (MdEvents db).
Definition with_challenges (db : MfaDB) (challenges : list MFAChallenge) : MfaDB := mkMfaDB (MdSecrets db) (MdCodes db) (MdCodeSequence db) challenges (MdEvents db).
Definition with_mfa_events (db : MfaDB) (events : EventLog MFAEvent) : MfaDB := mkMfaDB (MdSecrets db) (MdCodes db) (MdCodeSequence db) (MdChallenges db) events.

(** A result with the tables that are left, errors included *)
Definition mfa_outcome (A : Type) : Type := result string A * MfaDB.

Section tables.
Context {U : Unicode} {HD : HexDigest} {PH : PasswordHash}.

Definition UpsertMFATOTPSecret (username : string) (secret : string * string) (algorithm : string) (digits periodSeconds : Z) (issuer : string) (enabled : bool) (now : Z) (db : MfaDB)
    : mfa_outcome unit :=
  let usernameHash := HashIdentityUsername username in
  if (usernameHash =? "")%string then (Err "username is required", db)
  else if blank secret.1 || blank secret.2 then (Err "ciphertext and nonce are required", db)
  else (Ok (), with_secrets db (<[usernameHash := mkTotpSecret (TrimSpace secret.1, TrimSpace secret.2) (TrimSpace algorithm) digits periodSeconds (TrimSpace issuer) enabled now None]> (MdSecrets db))).
Definition GetMFATOTPSecret (username : string) (db : MfaDB) : option TotpSecret :=
  let usernameHash := HashIdentityUsername username in if (usernameHash =? "")%string then None else MdSecrets db !! usernameHash.
Definition TouchMFATOTPVerified (username : string) (now : Z) (db : MfaDB) : mfa_outcome unit :=
  let usernameHash := HashIdentityUsername username in
  if (usernameHash =? "")%string then (Err "username is required", db)
  else (Ok (), with_secrets db (alter (fun s => mkTotpSecret (TsSecret s) (TsAlgorithm s) (TsDigits s) (TsPeriodSeconds s) (TsIssuer s) (TsEnabled s) now (Some now)) usernameHash (MdSecrets db))).

Fixpoint insert_codes (usernameHash : string) (expiresAt : option Z) (now : Z) (hashes : list string) (codes : list RecoveryCode) (sequence : Z) : list RecoveryCode * Z :=
  match hashes with
  | [] => (codes, sequence)
  | hash :: hashes =>
      let hash := TrimSpace hash in
      if (hash =? "")%string then insert_codes usernameHash expiresAt now hashes codes sequence
      else insert_codes usernameHash expiresAt now hashes (codes ++ [mkRecoveryCode (sequence + 1) usernameHash hash expiresAt now None]) (sequence + 1)
  end.
Definition unused (c : RecoveryCode) : bool := match RyUsedAt c with None => true | Some _ => false end.
Definition ReplaceMFARecoveryCodes (username : string) (codeHashes : list string) (expiresAt : option Z) (now : Z) (db : MfaDB) : mfa_outcome unit :=
  let usernameHash := HashIdentityUsername username in
  if (usernameHash =? "")%string then (Err "username is required", db)
  else
    let kept := List.filter (fun c => negb ((RyUsernameHash c =? usernameHash)%string && unused c)) (MdCodes db) in
    let '(codes, sequence) := insert_codes usernameHash expiresAt now codeHashes kept (MdCodeSequence db) in
    (Ok (), with_codes db codes sequence).

(** [VerifyMFARecoveryCode] reads the codes that can be used, in the order of their ids, and marks the first that matches, if it is still unused. *)
Definition usable (usernameHash : string) (now : Z) (c : RecoveryCode) : bool :=
  (RyUsernameHash c =? usernameHash)%string && unused c && match RyExpiresAt c with None => true | Some t => t >? now end.
Definition code_before (a b : RecoveryCode) : bool := RyID a <? RyID b.
Definition find_code (username code : string) (now : Z) (db : MfaDB) : option RecoveryCode :=
  let usernameHash := HashIdentityUsername username in
  if (usernameHash =? "")%string || blank code then None
  else List.find (fun c => password_matches (RyCodeHash c) code) (sort_by code_before (List.filter (usable usernameHash now) (MdCodes db))).
Definition use_code (now id : Z) (c : RecoveryCode) : RecoveryCode :=
  if (RyID c =? id) && unused c then mkRecoveryCode (RyID c) (RyUsernameHash c) (RyCodeHash c) (RyExpiresAt c) (RyCreatedAt c) (Some now) else c.
Definition consume_code (now : Z) (found : option RecoveryCode) (db : MfaDB) : bool * MfaDB :=
  match found with None => (false, db) | Some c => (true, with_codes db (use_code now (RyID c) <$> MdCodes db) (MdCodeSequence db)) end.
Definition VerifyMFARecoveryCode (username code : string) (now : Z) (db : MfaDB) : bool * MfaDB := consume_code now (find_code username code now db) db.

Definition HashMFARecoveryCode (salt code : string) : result string string :=
  let code := TrimSpace code in if (code =? "")%string then Err "recovery code is required" else hash_password salt code.

(** The primary key and the unique column refuse an id or state that is there already. *)
Definition InsertMFAChallenge (record : MFAChallenge) (db : MfaDB) : mfa_outcome unit :=
  if blank (ChID record) || blank (ChStateHash record) || blank (ChUsernameHash record) then (Err "challenge id, state hash, and username hash are required", db)
  else
    let row := mkMFAChallenge (TrimSpace (ChID record)) (TrimSpace (ChStateHash record)) (TrimSpace (ChUsernameHash record)) (TrimSpace (ChSource record)) (TrimSpace (ChRole record))
      (TrimSpace (ChIdentitySource record)) (TrimSpace (ChAuthMethod record)) (text_or (TrimSpace (ChChallengeType record)) "totp") (text_or (TrimSpace (ChStatus record)) "pending")
      (ChAttemptCount record) (if ChMaxAttempts record <=? 0 then 5 else ChMaxAttempts record) (TrimSpace (ChPrompt record)) (ChExpiresAt record) "" None in
    if existsb (fun c => (ChID c =? ChID row)%string || (ChStateHash c =? ChStateHash row)%string) (MdChallenges db) then (Err "UNIQUE constraint failed", db)
    else (Ok (), with_challenges db (MdChallenges db ++ [row])).

Definition set_status (id status : string) (attemptCount : Z) (failureReason : string) (now : Z) (c : MFAChallenge) : MFAChallenge :=
  if (ChID c =? TrimSpace id)%string
  then mkMFAChallenge (ChID c) (ChStateHash c) (ChUsernameHash c) (ChSource c) (ChRole c) (ChIdentitySource c) (ChAuthMethod c) (ChChallengeType c) (TrimSpace status) attemptCount
         (ChMaxAttempts c) (ChPrompt c) (ChExpiresAt c) (TrimSpace failureReason) (if (status =? "verified")%string then Some now else ChVerifiedAt c)
  else c.
Definition UpdateMFAChallengeStatus (id status : string) (attemptCount : Z) (failureReason : string) (now : Z) (db : MfaDB) : mfa_outcome unit :=
  if blank id then (Err "challenge id is required", db) else (Ok (), with_challenges db (set_status id status attemptCount failureReason now <$> MdChallenges db)).

Definition GetMFAChallengeByStateHash (stateHash : string) (now : Z) (db : MfaDB) : option MFAChallenge * MfaDB :=
  let stateHash := TrimSpace stateHash in
  if (stateHash =? "")%string then (None, db)
  else
    match List.find (fun c => ChStateHash c =? stateHash)%string (MdChallenges db) with
    | None => (None, db)
    | Some c =>
        if (ChStatus c =? "pending")%string && (ChExpiresAt c <=? now)
        then (Some (mkMFAChallenge (ChID c) (ChStateHash c) (ChUsernameHash c) (ChSource c) (ChRole c) (ChIdentitySource c) (ChAuthMethod c) (ChChallengeType c) "expired" (ChAttemptCount c)
                      (ChMaxAttempts c) (ChPrompt c) (ChExpiresAt c) "challenge expired" (ChVerifiedAt c)),
              (UpdateMFAChallengeStatus (ChID c) "expired" (ChAttemptCount c) "challenge expired" now db).2)
        else (Some c, db)
    end.

Definition RecordMFAEvent (now : Z) (e : MFAEvent) (retentionLimit : Z) (db : MfaDB) : MfaDB :=
  with_mfa_events db (record_event (if retentionLimit <=? 0 then 6000 else retentionLimit) now
    (mkMFAEvent (TrimSpace (MeUsernameHash e)) (TrimSpace (MeSource e)) (TrimSpace (MeMethod e)) (TrimSpace (MeDecision e)) (TrimSpace (MeReason e)) (TrimSpace (MeChallengeID e))
       (TrimSpace (MeRole e)) (TrimSpace (MeIdentitySource e)) (TrimSpace (MeAuthMethod e))) (MdEvents db)).
Definition recordEvent (policy : MfaPolicy) (now : Z) (e : MFAEvent) (db : MfaDB) : MfaDB :=
  if negb (MfAuditEnabled policy) || blank (MeUsernameHash e) then db
  else RecordMFAEvent now (mkMFAEvent (MeUsernameHash e) (text_or (MeSource e) "portal") (text_or (MeMethod e) "totp") (MeDecision e) (MeReason e) (MeChallengeID e) (MeRole e)
                             (MeIdentitySource e) (MeAuthMethod e)) (MfRetentionLimit policy) db.

(** The challenges that [GetMFACredentialSummary] counts as pending *)
Definition pending_challenges (now : Z) (db : MfaDB) : Z := zlen (List.filter (fun c => (ChStatus c =? "pending")%string && (ChExpiresAt c >? now)) (MdChallenges db)).
End tables.

(** ** The operations *)

Record Challenge := mkChallenge { CgID : string; CgState : string; CgPrompt : string; CgExpiresAt : Z }.
Record VerifyResult := mkVerify { VrAllowed : bool; VrMethod : string; VrReason : string; VrConsumed : bool }.
Record VerifiedChallenge := mkVerified {
  VcAllowed : bool; VcReason : string; VcUsernameHash : string; VcRole : string; VcIdentitySource : string; VcAuthMethod : string; VcSource : string; VcMethod : string }.
Record Enrollment := mkEnrollment { EnUsernameHash : string; EnSecret : string; EnRecoveryCodes : list string }.

(** What an enrolment draws: the bytes of the secret, the nonce, and for each recovery code its bytes, as many as are asked for, and its salt *)
Record Draws := mkDraws { DwSecret : list Z; DwNonce : string; DwCodes : nat -> (Z -> list Z) * string }.

Section operations.
Context {U : Unicode} {HD : HexDigest} {PH : PasswordHash} {B : Base32} {SE : Sealing}.
(** The configuration, and what the reference of the sealing key resolves to *)
Context (cfg : option MFAConfig) (key : result string string).

Definition localStatePrefix : string := "aegis1.".
Definition IsLocalState (state : string) : bool := HasPrefix (TrimSpace state) localStatePrefix.
Definition StateHash (state : string) : string := hex_digest (TrimSpace state).
Definition sourceOrDefault (source : string) : string := let source := TrimSpace source in if (source =? "")%string then "portal" else source.

Definition resolveSealingKey : result string string :=
  match cfg with
  | None => Err "configuration not loaded"
  | Some _ => value ← key; if Z.of_nat (String.length value) <? 16 then Err "mfa.otp.sealing_key_ref must resolve to at least 16 bytes" else Ok value
  end.
Definition openStoredSecret (record : TotpSecret) (usernameHash : string) : result string string := key ← resolveSealingKey; open_secret key usernameHash (TsSecret record).
Definition sealSecret (nonce usernameHash secret : string) : result string (string * string) := key ← resolveSealingKey; Ok (seal_secret key nonce usernameHash secret).

Definition RecordMonitorAllowed (ctx : StepUpContext) (reason : string) (now : Z) (db : MfaDB) : MfaDB :=
  recordEvent (PolicyFromConfig cfg) now
    (mkMFAEvent (HashIdentityUsername (StUsername ctx)) (sourceOrDefault (StSource ctx)) "totp" "monitor_allowed" (TrimSpace reason) "" (TrimSpace (StRole ctx))
       (TrimSpace (StIdentitySource ctx)) (TrimSpace (StAuthMethod ctx))) db.

(** [random]: the random parts of the state and of the id *)
Definition StartChallenge (ctx : StepUpContext) (random : string * string) (now : Z) (db : MfaDB) : mfa_outcome Challenge :=
  let policy := PolicyFromConfig cfg in
  if negb (MfEnabled policy) || negb (MfOTPEnabled policy) then (Err "MFA is not enabled", db)
  else if (MfChallengeMax policy >? 0) && (pending_challenges now db >=? MfChallengeMax policy) then (Err "maximum pending MFA challenges reached", db)
  else
    let state := localStatePrefix +:+ random.1 in
    let challenge := mkChallenge ("mfa_" +:+ random.2) state (MfChallengePrompt policy) (now + MfChallengeTTL policy) in
    let record := mkMFAChallenge (CgID challenge) (StateHash state) (HashIdentityUsername (StUsername ctx)) (sourceOrDefault (StSource ctx)) (TrimSpace (StRole ctx))
      (TrimSpace (StIdentitySource ctx)) (TrimSpace (StAuthMethod ctx)) "totp" "pending" 0 (MfMaxAttempts policy) (CgPrompt challenge) (CgExpiresAt challenge) "" None in
    match InsertMFAChallenge record db with
    | (Err e, db) => (Err e, db)
    | (Ok _, db) =>
        (Ok challenge, recordEvent policy now (mkMFAEvent (ChUsernameHash record) (ChSource record) "totp" "challenge_issued" "step-up MFA challenge issued" (ChID record) (ChRole record)
                                                 (ChIdentitySource record) (ChAuthMethod record)) db)
    end.

Definition VerifyOTP (username code : string) (stepCtx : StepUpContext) (audit : bool) (now : Z) (db : MfaDB) : mfa_outcome VerifyResult :=
  let policy := PolicyFromConfig cfg in
  let usernameHash := HashIdentityUsername username in
  let record method decision reason db :=
    if audit then recordEvent policy now (mkMFAEvent usernameHash (sourceOrDefault (StSource stepCtx)) method decision reason "" (TrimSpace (StRole stepCtx))
                                            (TrimSpace (StIdentitySource stepCtx)) (TrimSpace (StAuthMethod stepCtx))) db else db in
  let denied reason db := (Ok (mkVerify false "totp" reason false), record "totp" "denied" reason db) in
  let code := normalizeCode code in
  if (code =? "")%string then denied "missing one-time password" db
  else
    match GetMFATOTPSecret username db with
    | None => denied "user is not enrolled for MFA" db
    | Some secretRecord =>
        if negb (TsEnabled secretRecord) then denied "user is not enrolled for MFA" db
        else
          match openStoredSecret secretRecord usernameHash with
          | Err e => (Err e, db)
          | Ok secret =>
              if VerifyTOTP secret code (mkOptions (TsAlgorithm secretRecord) (TsDigits secretRecord) (TsPeriodSeconds secretRecord) (MfWindowSteps policy)) now then
                match TouchMFATOTPVerified username now db with
                | (Err e, db) => (Err e, db)
                | (Ok _, db) => (Ok (mkVerify true "totp" "one-time password accepted" false), record "totp" "accepted" "one-time password accepted" db)
                end
              else
                match VerifyMFARecoveryCode username code now db with
                | (true, db) => (Ok (mkVerify true "recovery" "MFA recovery code accepted" true), record "recovery" "accepted" "MFA recovery code accepted" db)
                | (false, db) => denied "invalid one-time password" db
                end
          end
    end.

Definition refused (reason : string) : VerifiedChallenge := mkVerified false reason "" "" "" "" "" "".
Definition VerifyChallenge (state username code : string) (now : Z) (db : MfaDB) : mfa_outcome VerifiedChallenge :=
  let policy := PolicyFromConfig cfg in
  if negb (IsLocalState state) then (Ok (refused "not an AegisNAS MFA challenge"), db)
  else
    match GetMFAChallengeByStateHash (StateHash state) now db with
    | (None, db) => (Ok (refused "challenge not found"), db)
    | (Some c, db) =>
        let record method decision reason db :=
          recordEvent policy now (mkMFAEvent (ChUsernameHash c) (sourceOrDefault (ChSource c)) method decision reason (ChID c) (ChRole c) (ChIdentitySource c) (ChAuthMethod c)) db in
        let usernameHash := HashIdentityUsername username in
        if negb (ChStatus c =? "pending")%string then (Ok (refused "challenge is not pending"), record "totp" "denied" "challenge is not pending" db)
        else if negb (usernameHash =? "")%string && negb (usernameHash =? ChUsernameHash c)%string then
          (Ok (refused "challenge username mismatch"),
           record "totp" "denied" "challenge username mismatch" (UpdateMFAChallengeStatus (ChID c) "failed" (ChAttemptCount c + 1) "challenge username mismatch" now db).2)
        else
          match VerifyOTP username code (mkStepUp username (ChRole c) (ChIdentitySource c) (ChAuthMethod c) (ChSource c)) false now db with
          | (Err e, db) => (Err e, db)
          | (Ok r, db) =>
              if VrAllowed r then
                match UpdateMFAChallengeStatus (ChID c) "verified" (ChAttemptCount c + 1) "" now db with
                | (Err e, db) => (Err e, db)
                | (Ok _, db) =>
                    (Ok (mkVerified true "step-up MFA challenge verified" (ChUsernameHash c) (ChRole c) (ChIdentitySource c) (ChAuthMethod c) (ChSource c) (VrMethod r)),
                     record (VrMethod r) "accepted" "step-up MFA challenge verified" db)
                end
              else
                let attempts := ChAttemptCount c + 1 in
                match UpdateMFAChallengeStatus (ChID c) (if attempts >=? ChMaxAttempts c then "failed" else "pending") attempts (VrReason r) now db with
                | (Err e, db) => (Err e, db)
                | (Ok _, db) => (Ok (refused (VrReason r)), record (VrMethod r) "denied" (VrReason r) db)
                end
          end
    end.

(** ** Enrolment *)

(** Groups of four characters, five at most *)
Fixpoint groups_of_four (n : nat) (s : string) : list string :=
  match n with O => [] | S n => if (s =? "")%string then [] else String.substring 0 4 s :: groups_of_four n (string_drop 4 s) end.
Definition randomRecoveryCode (byteCount : Z) (raw : Z -> list Z) : string :=
  Join (groups_of_four 5 (base32_encode (raw (if byteCount <=? 0 then 16 else byteCount)))) "-".

Definition rotateRecoveryCodes (username : string) (draws : nat -> (Z -> list Z) * string) (now : Z) (db : MfaDB) : mfa_outcome (list string) :=
  let policy := PolicyFromConfig cfg in
  if negb (MfRecoveryEnabled policy) then (Ok [], db)
  else
    let username := TrimSpace username in
    if (username =? "")%string then (Err "username is required", db)
    else
      let draws := draws <$> seq 0 (Z.to_nat (MfRecoveryCodeCount policy)) in
      let codes := (fun draw => randomRecoveryCode (MfRecoveryCodeBytes policy) draw.1) <$> draws in
      match mapM (fun draw => HashMFARecoveryCode draw.2 (normalizeCode (randomRecoveryCode (MfRecoveryCodeBytes policy) draw.1))) draws with
      | Err e => (Err e, db)
      | Ok hashes =>
          let expiresAt := if MfRecoveryCodeTTL policy >? 0 then Some (now + MfRecoveryCodeTTL policy) else None in
          match ReplaceMFARecoveryCodes username hashes expiresAt now db with (Err e, db) => (Err e, db) | (Ok _, db) => (Ok codes, db) end
      end.

Definition RotateRecoveryCodes (username : string) (draws : nat -> (Z -> list Z) * string) (now : Z) (db : MfaDB) : mfa_outcome (list string) :=
  let policy := PolicyFromConfig cfg in
  if negb (MfRecoveryEnabled policy) then (Err "MFA recovery codes are disabled", db)
  else
    match rotateRecoveryCodes username draws now db with
    | (Err e, db) => (Err e, db)
    | (Ok codes, db) => (Ok codes, recordEvent policy now (mkMFAEvent (HashIdentityUsername username) "admin-api" "recovery" "enrolled" "MFA recovery codes rotated" "" "" "" "") db)
    end.

Definition EnrollTOTP (username : string) (draws : Draws) (now : Z) (db : MfaDB) : mfa_outcome Enrollment :=
  let policy := PolicyFromConfig cfg in
  if negb (MfEnabled policy) || negb (MfOTPEnabled policy) then (Err "MFA TOTP is not enabled", db)
  else
    let username := TrimSpace username in
    if (username =? "")%string then (Err "username is required", db)
    else
      let secret := base32_encode (DwSecret draws) in
      let usernameHash := HashIdentityUsername username in
      match sealSecret (DwNonce draws) usernameHash secret with
      | Err e => (Err e, db)
      | Ok sealed =>
          match UpsertMFATOTPSecret username sealed (MfAlgorithm policy) (MfDigits policy) (MfPeriodSeconds policy) (MfIssuer policy) true now db with
          | (Err e, db) => (Err e, db)
          | (Ok _, db) =>
              match rotateRecoveryCodes username (DwCodes draws) now db with
              | (Err e, db) => (Err e, db)
              | (Ok codes, db) =>
                  (Ok (mkEnrollment usernameHash secret codes), recordEvent policy now (mkMFAEvent usernameHash "admin-api" "totp" "enrolled" "TOTP secret enrolled" "" "" "" "") db)
              end
          end
      end.
End operations.

(** ** The codes of an enrolment *)

Lemma code_char_spec c : code_char c = true -> visible_char c = true /\ upper_char c = c /\ is_ascii_char c = true /\ (c =? " ")%char = false /\ (c =? "-")%char = false
  /\ (c =? ascii_of_nat 9)%char = false /\ (c =? ascii_of_nat 10)%char = false /\ (c =? ascii_of_nat 13)%char = false.
Proof. destruct c as [[] [] [] [] [] [] [] []]; vm_compute; intros H; first [discriminate H | repeat split]. Qed.
Lemma code_char_digit c : is_digit c = true -> code_char c = true.
Proof. unfold code_char, is_digit. by intros ->. Qed.

Section codes.
Context {U : Unicode} {UL : UnicodeLaws}.

Lemma RemoveAllChar_none s old : all_chars (fun c => negb (c =? old)%char) s = true -> RemoveAllChar s old = s.
Proof. induction s as [|c s IH]; simpl; [done|]. intros [Hc%negb_true_iff Hs]%andb_true_iff. by rewrite Hc, IH. Qed.
Lemma code_text s : all_chars code_char s = true -> TrimSpace s = s /\ ToUpper s = s /\ normalizeCode s = s.
Proof.
  intros Hs. assert (TrimSpace s = s) as Ht by (eapply TrimSpace_visible_chars, all_chars_impl; [|exact Hs]; intros c Hc; by apply code_char_spec).
  assert (ToUpper s = s) as Hu.
  { unfold ToUpper, is_ascii. rewrite (all_chars_impl _ is_ascii_char s (fun c Hc => proj1 (proj2 (proj2 (code_char_spec c Hc)))) Hs).
    clear Ht. induction s as [|c s IH]; simpl in *; [done|]. apply andb_true_iff in Hs as [Hc Hs]. rewrite IH by done. f_equal. by apply code_char_spec. }
  split; [done|]. split; [done|]. unfold normalizeCode. rewrite Ht.
  assert (forall old, (forall c, code_char c = true -> (c =? old)%char = false) -> RemoveAllChar s old = s) as Hr.
  { intros old Hold. apply RemoveAllChar_none. eapply all_chars_impl; [|exact Hs]. intros c Hc. apply negb_true_iff. by apply Hold. }
  rewrite !Hr; [exact Hu|..]; intros c Hc; by apply code_char_spec.
Qed.

Lemma zero_padded_digits width v : 0 <= v -> all_chars is_digit (zero_padded width v) = true /\ zero_padded width v <> "".
Proof.
  intros Hv. destruct (digits_Itoa v Hv) as [Hd Hn]. unfold zero_padded. split.
  - rewrite all_chars_app, Hd, andb_true_r. by induction (Z.to_nat width - String.length (Itoa v))%nat.
  - intros E. apply Hn. by destruct (repeat 48 (Z.to_nat width - String.length (Itoa v))).
Qed.

Lemma hotp_code bytes counter opts : counter < 2 ^ 63 -> 1 <= ToDigits opts <= 9 -> all_chars code_char (hotp bytes counter opts) = true /\ hotp bytes counter opts <> "".
Proof.
  intros Hc Hd. unfold hotp. destruct (Z.geb_spec counter (2 ^ 63)); [lia|]. destruct (hashFactory (ToAlgorithm opts)) as [block digest].
  assert (10 ^ 1 <= 10 ^ ToDigits opts <= 10 ^ 9) by (split; apply Z.pow_le_mono_r; lia). rewrite to_uint32_small by (unfold is_uint32; lia).
  match goal with |- context [zero_padded _ (?x mod ?m)] => destruct (zero_padded_digits (ToDigits opts) (x mod m)) as [Ha Hn]; [apply Z.mod_pos_bound; lia|] end.
  split; [|done]. eapply all_chars_impl; [apply code_char_digit | done].
Qed.
Lemma hotp_same bytes counter o o' : hashFactory (ToAlgorithm o) = hashFactory (ToAlgorithm o') -> ToDigits o = ToDigits o' -> hotp bytes counter o = hotp bytes counter o'.
Proof. intros Ha Hd. unfold hotp. by rewrite Ha, Hd. Qed.

Context {B : Base32} {BL : Base32Laws}.

Lemma generated_code_verifies bytes (o o' : TOTPOptions) t1 t2 (period := ToPeriodSeconds (with_defaults o)) :
  wf_bytes bytes -> bytes <> [] -> hashFactory (ToAlgorithm o) = hashFactory (ToAlgorithm o') -> ToDigits o = ToDigits o' -> ToPeriodSeconds o = ToPeriodSeconds o' ->
  1 <= ToDigits (with_defaults o) <= 9 -> 0 <= t1 < 2 ^ 63 -> Z.abs (Z.quot t1 period - Z.quot t2 period) <= ToWindowSteps o' ->
  let code := GenerateTOTP (base32_encode bytes) o t1 in normalizeCode code = code /\ code <> "" /\ VerifyTOTP (base32_encode bytes) code o' t2 = true.
Proof.
  intros Hwf Hne Ha Hd Hp Hdigits Ht1 Hwindow. destruct (code_text _ (base32_alphabet bytes)) as (Htrim & Hupper & _).
  cbv zeta. unfold GenerateTOTP, VerifyTOTP, decode_secret. rewrite Htrim, Hupper, base32_decode_encode by done. fold period.
  assert (0 < period) by (unfold period, with_defaults; simpl; destruct (Z.leb_spec (ToPeriodSeconds o) 0); lia).
  assert (0 <= Z.quot t1 period < 2 ^ 63) as Hcounter.
  { rewrite Z.quot_div_nonneg by lia. split; [apply Z.div_pos; lia|]. apply Z.div_lt_upper_bound; nia. }
  destruct (hotp_code bytes (Z.quot t1 period) (with_defaults o)) as [Hcode Hcne]; [lia | done|]. destruct (code_text _ Hcode) as (_ & _ & Hnorm). rewrite Hnorm. split; [done|]. split; [done|].
  destruct (String.eqb_spec (base32_encode bytes) "") as [E|_]; [by apply base32_empty in E|]. apply String.eqb_neq in Hcne. rewrite Hcne. simpl orb. cbv iota.
  assert (ToPeriodSeconds (with_defaults o') = period) as Ep by (unfold period, with_defaults; simpl; by rewrite Hp). rewrite Ep.
  apply existsb_exists. exists (Z.quot t1 period - Z.quot t2 period). split.
  - apply list_elem_of_In. unfold offsets. apply list_elem_of_fmap. exists (Z.to_nat (Z.quot t1 period - Z.quot t2 period + ToWindowSteps o')). split; [simpl; lia|].
    apply elem_of_seq. simpl. lia.
  - replace (Z.quot t2 period + (Z.quot t1 period - Z.quot t2 period)) with (Z.quot t1 period) by lia. apply andb_true_iff. split; [apply negb_true_iff, Z.ltb_ge; lia|].
    apply String.eqb_eq, hotp_same; simpl; [by rewrite Ha | by rewrite Hd].
Qed.
End codes.

Section enrolled.
Context {U : Unicode} {UL : UnicodeLaws} {HD : HexDigest} {PH : PasswordHash} {B : Base32} {BL : Base32Laws} {SE : Sealing} {SL : SealingLaws}.
Context (cfg : option MFAConfig) (key : result string string).

Lemma HashIdentityUsername_trim username : HashIdentityUsername (TrimSpace username) = HashIdentityUsername username.
Proof. unfold HashIdentityUsername, lower_trim. by rewrite TrimSpace_idem. Qed.
Lemma MdSecrets_recordEvent policy now e db : MdSecrets (recordEvent policy now e db) = MdSecrets db.
Proof. unfold recordEvent. by split_if. Qed.
Lemma MdSecrets_Replace username hashes expiresAt now db : MdSecrets (ReplaceMFARecoveryCodes username hashes expiresAt now db).2 = MdSecrets db.
Proof. unfold ReplaceMFARecoveryCodes. split_if; [done|]. by destruct (insert_codes _ _ _ _ _ _). Qed.
Lemma MdSecrets_rotate username draws now db : MdSecrets (rotateRecoveryCodes cfg username draws now db).2 = MdSecrets db.
Proof.
  unfold rotateRecoveryCodes. split_if; [done|]. split_if; [done|]. destruct (mapM _ _) as [hashes|]; [|done].
  match goal with |- context [ReplaceMFARecoveryCodes ?u ?h ?x ?t db] => pose proof (MdSecrets_Replace u h x t db) as H; destruct (ReplaceMFARecoveryCodes u h x t db) as [[] db2] end;
    exact H.
Qed.

(** What an enrolment leaves: the row of the user, with the secret that was handed out under the sealing key *)
Lemma EnrollTOTP_stores username draws now db e db' (policy := PolicyFromConfig cfg) : EnrollTOTP cfg key username draws now db = (Ok e, db') ->
  EnSecret e = base32_encode (DwSecret draws) /\ HashIdentityUsername username <> "" /\
  exists k, resolveSealingKey cfg key = Ok k /\ MdSecrets db' !! HashIdentityUsername username =
    Some (mkTotpSecret (seal_secret k (DwNonce draws) (HashIdentityUsername username) (EnSecret e)) (TrimSpace (MfAlgorithm policy)) (MfDigits policy) (MfPeriodSeconds policy)
            (TrimSpace (MfIssuer policy)) true now None).
Proof.
  unfold EnrollTOTP. fold policy. destruct (negb (MfEnabled policy) || negb (MfOTPEnabled policy)); [done|].
  destruct (String.eqb_spec (TrimSpace username) ""); [done|]. rewrite HashIdentityUsername_trim. set (hash := HashIdentityUsername username). unfold sealSecret.
  destruct (resolveSealingKey cfg key) as [k|err] eqn:Ek; [|done]. simpl. set (secret := base32_encode (DwSecret draws)).
  pose proof (sealed_trimmed k (DwNonce draws) hash secret) as Hsealed. cbv zeta in Hsealed.
  unfold UpsertMFATOTPSecret. rewrite HashIdentityUsername_trim. fold hash. destruct (String.eqb_spec hash "") as [|Hhash]; [done|]. destruct (blank _ || blank _); [done|]. rewrite Hsealed.
  match goal with |- context [rotateRecoveryCodes cfg ?u ?d ?t ?x] => pose proof (MdSecrets_rotate u d t x) as Er; destruct (rotateRecoveryCodes cfg u d t x) as [[codes|err] db2] end; [|done].
  cbn [snd] in Er. intros [= <- <-]. simpl. split; [done|]. split; [done|]. exists k. split; [done|].
  rewrite MdSecrets_recordEvent, Er. apply lookup_insert_eq.
Qed.

(** After an enrolment, the code that the user's device computes from the secret handed out is accepted, as long as its time step is within the window of
    the time step of the check. *)
Theorem enrolled_code_accepted username draws enrolled db e db' stepCtx audit t1 t2 (policy := PolicyFromConfig cfg)
    (device := mkOptions (MfAlgorithm policy) (MfDigits policy) (MfPeriodSeconds policy) 0) (period := ToPeriodSeconds (with_defaults device)) :
  EnrollTOTP cfg key username draws enrolled db = (Ok e, db') -> wf_bytes (DwSecret draws) -> DwSecret draws <> [] -> 1 <= ToDigits (with_defaults device) <= 9 ->
  0 <= t1 < 2 ^ 63 -> Z.abs (Z.quot t1 period - Z.quot t2 period) <= MfWindowSteps policy ->
  exists after, VerifyOTP cfg key username (GenerateTOTP (EnSecret e) device t1) stepCtx audit t2 db' = (Ok (mkVerify true "totp" "one-time password accepted" false), after).
Proof.
  intros Henroll Hwf Hne Hdigits Ht1 Hwindow. destruct (EnrollTOTP_stores _ _ _ _ _ _ Henroll) as (Esecret & Hhash & k & Hk & Hrow).
  destruct (generated_code_verifies (DwSecret draws) device (mkOptions (TrimSpace (MfAlgorithm policy)) (MfDigits policy) (MfPeriodSeconds policy) (MfWindowSteps policy)) t1 t2)
    as (Hnorm & Hcode & Hverify); try done; [unfold hashFactory; simpl; by rewrite TrimSpace_idem|].
  rewrite <- Esecret in Hnorm, Hcode, Hverify. fold policy in Hrow. unfold VerifyOTP. fold policy. set (code := GenerateTOTP (EnSecret e) device t1) in *.
  rewrite Hnorm. apply String.eqb_neq in Hcode. rewrite Hcode. unfold GetMFATOTPSecret, TouchMFATOTPVerified. apply String.eqb_neq in Hhash. rewrite Hhash, Hrow. cbn [negb TsEnabled orb].
  unfold openStoredSecret. rewrite Hk. cbn [mbind result_bind TsSecret]. rewrite open_seal. cbn [TsAlgorithm TsDigits TsPeriodSeconds]. rewrite Hverify. by eexists.
Qed.
End enrolled.

(** ** Challenges over time *)

Inductive MfaOp :=
| OpStart (ctx : StepUpContext) (random : string * string)
| OpAnswer (state username code : string)
| OpVerify (username code : string) (ctx : StepUpContext) (audit : bool)
| OpEnroll (username : string) (draws : Draws)
| OpRotate (username : string) (draws : nat -> (Z -> list Z) * string)
| OpMonitor (ctx : StepUpContext) (reason : string).

Section runs.
Context {U : Unicode} {HD : HexDigest} {PH : PasswordHash} {B : Base32} {SE : Sealing}.
Context (cfg : option MFAConfig) (key : result string string).
Implicit Types (db : MfaDB) (cs : list MFAChallenge).

Definition known (hash : string) db : bool := existsb (fun c => ChStateHash c =? hash)%string (MdChallenges db).

Definition mfa_step (now : Z) (op : MfaOp) db : MfaDB :=
  match op with
  | OpStart ctx random => (StartChallenge cfg ctx random now db).2
  | OpAnswer state username code => (VerifyChallenge cfg key state username code now db).2
  | OpVerify username code ctx audit => (VerifyOTP cfg key username code ctx audit now db).2
  | OpEnroll username draws => (EnrollTOTP cfg key username draws now db).2
  | OpRotate username draws => (RotateRecoveryCodes cfg username draws now db).2
  | OpMonitor ctx reason => RecordMonitorAllowed cfg ctx reason now db
  end.
(** The decision on an answer to the challenge with this hash, once it is in the table; a request that ends in an error decides nothing. *)
Definition decided_answer (hash : string) (now : Z) (op : MfaOp) db : option VerifiedChallenge :=
  match op with
  | OpAnswer state username code =>
      if IsLocalState state && (TrimSpace (StateHash state) =? hash)%string && known hash db
      then match (VerifyChallenge cfg key state username code now db).1 with Ok r => Some r | Err _ => None end
      else None
  | _ => None
  end.
Fixpoint answers (hash : string) (ops : list (Z * MfaOp)) db : list VerifiedChallenge :=
  match ops with
  | [] => []
  | (now, op) :: ops => match decided_answer hash now op db with Some r => [r] | None => [] end ++ answers hash ops (mfa_step now op db)
  end.
Definition attempts_allowed : Z := let n := MfMaxAttempts (PolicyFromConfig cfg) in if n <=? 0 then 5 else n.

(** The answers that a challenge has left *)
Definition budget (hash : string) cs : Z :=
  match List.find (fun c => ChStateHash c =? hash)%string cs with
  | None => attempts_allowed
  | Some c => if (ChStatus c =? "pending")%string then ChMaxAttempts c - ChAttemptCount c else 0
  end.
Definition challenge_ok (c : MFAChallenge) : Prop :=
  ChStateHash c <> "" /\ ChID c <> "" /\ TrimSpace (ChID c) = ChID c /\ ChMaxAttempts c = attempts_allowed /\ 0 <= ChAttemptCount c /\ (ChStatus c = "pending" -> ChAttemptCount c < ChMaxAttempts c).
Definition challenges_ok cs : Prop := NoDup (ChID <$> cs) /\ Forall challenge_ok cs.

Lemma attempts_allowed_pos : 0 < attempts_allowed.
Proof. unfold attempts_allowed. cbv zeta. destruct (Z.leb_spec (MfMaxAttempts (PolicyFromConfig cfg)) 0); lia. Qed.

Lemma budget_nonneg hash cs : challenges_ok cs -> 0 <= budget hash cs.
Proof.
  intros [_ Hok]. unfold budget. destruct (List.find _ cs) as [c|] eqn:E; [|pose proof attempts_allowed_pos; lia]. apply List.find_some in E as [Hc _].
  rewrite Forall_forall in Hok. destruct (Hok c) as (_ & _ & _ & _ & _ & Hp); [by apply list_elem_of_In|]. destruct (String.eqb_spec (ChStatus c) "pending"); [|lia]. specialize (Hp ltac:(done)). lia.
Qed.

Lemma ChID_set_status id status n reason now c : ChID (set_status id status n reason now c) = ChID c.
Proof. unfold set_status. by split_if. Qed.
Lemma find_map_hash hash f cs : (forall c, ChStateHash (f c) = ChStateHash c) ->
  List.find (fun c => ChStateHash c =? hash)%string (f <$> cs) = f <$> List.find (fun c => ChStateHash c =? hash)%string cs.
Proof. intros Hf. induction cs as [|c cs IH]; simpl; [done|]. rewrite Hf. by split_if. Qed.
Lemma same_id cs c c' : NoDup (ChID <$> cs) -> c ∈ cs -> c' ∈ cs -> ChID c = ChID c' -> c = c'.
Proof.
  intros Hn [i Hi]%list_elem_of_lookup [j Hj]%list_elem_of_lookup E. rewrite NoDup_alt in Hn.
  assert (i = j) as -> by (apply (Hn i j (ChID c)); rewrite list_lookup_fmap; [by rewrite Hi | rewrite Hj; simpl; by rewrite E]). congruence.
Qed.

(** One challenge changes its status; the others keep their budget. *)
Lemma set_status_effect hash cs c status n reason now :
  challenges_ok cs -> List.find (fun c => ChStateHash c =? hash)%string cs = Some c -> TrimSpace status = status -> ChAttemptCount c <= n -> (status = "pending" -> n < ChMaxAttempts c) ->
  challenges_ok (set_status (ChID c) status n reason now <$> cs)
  /\ budget hash (set_status (ChID c) status n reason now <$> cs) = (if (status =? "pending")%string then ChMaxAttempts c - n else 0)
  /\ forall other, other <> hash -> budget other (set_status (ChID c) status n reason now <$> cs) = budget other cs.
Proof.
  intros [Hnodup Hok] Hfind Htrim Hn Hpending. pose proof (List.find_some _ _ Hfind) as [Hc%list_elem_of_In Ehash%String.eqb_eq]. rewrite Forall_forall in Hok.
  destruct (Hok c Hc) as (Hstate & Hid & Eid & Hmax & Hcount & _).
  assert (forall x, ChStateHash (set_status (ChID c) status n reason now x) = ChStateHash x) as Hhash by (intros x; unfold set_status; by split_if).
  split; [split|split].
  - rewrite <- list_fmap_compose. erewrite list_fmap_ext; [exact Hnodup|]. intros i x _. apply ChID_set_status.
  - apply Forall_fmap, Forall_forall. intros x Hx. simpl. unfold set_status. rewrite Eid, Htrim. destruct (String.eqb_spec (ChID x) (ChID c)) as [E|E]; [|by apply Hok].
    apply (same_id cs) in E as ->; try done. repeat split; simpl; [done..|lia|]. done.
  - unfold budget. rewrite (find_map_hash _ _ _ Hhash), Hfind. simpl. unfold set_status. rewrite Eid, String.eqb_refl, Htrim. done.
  - intros other Hother. unfold budget. rewrite (find_map_hash _ _ _ Hhash). destruct (List.find (fun c => ChStateHash c =? other)%string cs) as [x|] eqn:Ex; simpl; [|done].
    apply List.find_some in Ex as [Hx%list_elem_of_In Ehash'%String.eqb_eq]. unfold set_status. rewrite Eid.
    destruct (String.eqb_spec (ChID x) (ChID c)) as [E|E]; [|done]. apply (same_id cs) in E; try done. subst x. congruence.
Qed.

(** *** What leaves the challenges alone *)

Lemma MdChallenges_recordEvent policy now e db : MdChallenges (recordEvent policy now e db) = MdChallenges db.
Proof. unfold recordEvent. by split_if. Qed.
Lemma MdChallenges_consume now found db : MdChallenges (consume_code now found db).2 = MdChallenges db.
Proof. by destruct found. Qed.
Lemma MdChallenges_Upsert username secret algorithm digits period issuer enabled now db :
  MdChallenges (UpsertMFATOTPSecret username secret algorithm digits period issuer enabled now db).2 = MdChallenges db.
Proof. unfold UpsertMFATOTPSecret. by repeat split_if. Qed.
Lemma MdChallenges_Touch username now db : MdChallenges (TouchMFATOTPVerified username now db).2 = MdChallenges db.
Proof. unfold TouchMFATOTPVerified. by split_if. Qed.
Lemma MdChallenges_rotate username draws now db : MdChallenges (rotateRecoveryCodes cfg username draws now db).2 = MdChallenges db.
Proof.
  unfold rotateRecoveryCodes. split_if; [done|]. split_if; [done|]. destruct (mapM _ _) as [hashes|]; [|done].
  unfold ReplaceMFARecoveryCodes. split_if; [done|]. by destruct (insert_codes _ _ _ _ _ _).
Qed.
Lemma MdChallenges_VerifyOTP username code ctx audit now db : MdChallenges (VerifyOTP cfg key username code ctx audit now db).2 = MdChallenges db.
Proof.
  unfold VerifyOTP. assert (forall (b : bool) policy e db', MdChallenges db' = MdChallenges db -> MdChallenges (if b then recordEvent policy now e db' else db') = MdChallenges db) as Hrecord.
  { intros [] policy e db' H; [by rewrite MdChallenges_recordEvent | done]. }
  split_if; [by apply Hrecord|]. destruct (GetMFATOTPSecret username db) as [row|]; [|by apply Hrecord]. split_if; [by apply Hrecord|].
  destruct (openStoredSecret cfg key row _) as [secret|]; [|done]. destruct (VerifyTOTP _ _ _ _).
  - pose proof (MdChallenges_Touch username now db) as H. destruct (TouchMFATOTPVerified username now db) as [[] db']; [by apply Hrecord | exact H].
  - unfold VerifyMFARecoveryCode. match goal with |- context [consume_code now ?f db] => pose proof (MdChallenges_consume now f db) as H; destruct (consume_code now f db) as [[] db'] end;
      by apply Hrecord.
Qed.
Lemma MdChallenges_Rotate username draws now db : MdChallenges (RotateRecoveryCodes cfg username draws now db).2 = MdChallenges db.
Proof.
  unfold RotateRecoveryCodes. split_if; [done|]. pose proof (MdChallenges_rotate username draws now db) as H. destruct (rotateRecoveryCodes cfg username draws now db) as [[] db']; [|exact H].
  simpl. by rewrite MdChallenges_recordEvent.
Qed.
Lemma MdChallenges_Enroll username draws now db : MdChallenges (EnrollTOTP cfg key username draws now db).2 = MdChallenges db.
Proof.
  unfold EnrollTOTP. split_if; [done|]. split_if; [done|]. destruct (sealSecret _ _ _ _ _); [|done].
  match goal with |- context [UpsertMFATOTPSecret ?a ?b ?c ?d ?e ?f ?g ?h db] => pose proof (MdChallenges_Upsert a b c d e f g h db) as H; destruct (UpsertMFATOTPSecret a b c d e f g h db) as [[] db'] end; [|exact H].
  match goal with |- context [rotateRecoveryCodes cfg ?u ?d ?t ?x] => pose proof (MdChallenges_rotate u d t x) as H'; destruct (rotateRecoveryCodes cfg u d t x) as [[] db2] end; simpl in *;
    rewrite ?MdChallenges_recordEvent; congruence.
Qed.

(** *** A new challenge, an answer *)

Lemma find_app_hash hash cs row : List.find (fun c => ChStateHash c =? hash)%string (cs ++ [row]) =
  match List.find (fun c => ChStateHash c =? hash)%string cs with Some c => Some c | None => if (ChStateHash row =? hash)%string then Some row else None end.
Proof. induction cs as [|c cs IH]; simpl; [done|]. by split_if. Qed.

Lemma InsertMFAChallenge_spec record db r db' : InsertMFAChallenge record db = (r, db') ->
  db' = db \/ exists row, MdChallenges db' = MdChallenges db ++ [row] /\ ChStateHash row <> "" /\ ChID row = TrimSpace (ChID record) /\ ChID row <> "" /\ (forall c, c ∈ MdChallenges db -> ChID c <> ChID row)
    /\ ChAttemptCount row = ChAttemptCount record /\ ChMaxAttempts row = (if ChMaxAttempts record <=? 0 then 5 else ChMaxAttempts record)
    /\ ChStatus row = text_or (TrimSpace (ChStatus record)) "pending".
Proof.
  unfold InsertMFAChallenge. destruct (blank (ChID record) || blank (ChStateHash record) || blank (ChUsernameHash record)) eqn:Hblank; [intros [= <- <-]; by left|].
  cbv zeta. destruct (existsb _ (MdChallenges db)) eqn:Hnew; [intros [= <- <-]; by left|]. intros [= <- <-]. right. eexists. split; [reflexivity|]. cbn [ChID ChAttemptCount ChMaxAttempts ChStatus].
  apply orb_false_iff in Hblank as [[Hid%String.eqb_neq Hstate%String.eqb_neq]%orb_false_iff _]. split; [exact Hstate|]. split; [done|]. split; [exact Hid|]. split; [|done].
  intros c Hc E. apply not_true_iff_false in Hnew. apply Hnew, existsb_exists. exists c. split; [by apply list_elem_of_In|]. cbn [ChID]. by rewrite E, String.eqb_refl.
Qed.

Lemma StartChallenge_effect hash ctx random now db : challenges_ok (MdChallenges db) ->
  challenges_ok (MdChallenges (StartChallenge cfg ctx random now db).2) /\ budget hash (MdChallenges (StartChallenge cfg ctx random now db).2) = budget hash (MdChallenges db).
Proof.
  intros Hstart. unfold StartChallenge. cbv zeta. destruct (negb _ || negb _); [by split|]. destruct ((_ >? 0) && _); [by split|].
  match goal with |- context [InsertMFAChallenge ?r db] => destruct (InsertMFAChallenge r db) as [reply db'] eqn:E end.
  apply InsertMFAChallenge_spec in E.
  assert (challenges_ok (MdChallenges db') /\ budget hash (MdChallenges db') = budget hash (MdChallenges db)) as H.
  { destruct E as [->|(row & -> & Hstate & Eid & Hid & Hfresh & Ecount & Emax & Estatus)]; [by split|]. cbn [ChID ChAttemptCount ChMaxAttempts ChStatus] in *. destruct Hstart as [Hnodup Hok].
    pose proof attempts_allowed_pos as Hpos. assert (ChMaxAttempts row = attempts_allowed) as Emax' by (rewrite Emax; reflexivity). split; [split|].
    - rewrite fmap_app. apply NoDup_app. split; [done|]. split; [|by apply NoDup_singleton]. intros id Hin Hnewid. apply list_elem_of_singleton in Hnewid as ->.
      apply list_elem_of_fmap in Hin as (c & E & Hc). by apply (Hfresh c).
    - apply Forall_app. split; [done|]. constructor; [|done]. split; [done|]. split; [done|]. rewrite Eid, TrimSpace_idem, Emax', Ecount. split; [done|]. split; [done|]. split; [lia|]. intros _. lia.
    - unfold budget. rewrite find_app_hash. destruct (List.find _ _); [done|]. split_if; [|done]. rewrite Estatus, Emax', Ecount. simpl. lia. }
  destruct reply as [[]|]; [|exact H]. simpl. by rewrite MdChallenges_recordEvent.
Qed.

Lemma UpdateMFAChallengeStatus_eq c status n reason now db : challenge_ok c ->
  UpdateMFAChallengeStatus (ChID c) status n reason now db = (Ok (), with_challenges db (set_status (ChID c) status n reason now <$> MdChallenges db)).
Proof. intros (_ & Hid & Eid & _). unfold UpdateMFAChallengeStatus, blank. rewrite Eid. apply String.eqb_neq in Hid. by rewrite Hid. Qed.

(** What an answer does to the budgets: that of its own challenge falls, to nothing when the answer is accepted. *)
Definition answered (hash : string) (allowed : option bool) cs cs' : Prop :=
  challenges_ok cs' /\ (forall other, other <> hash -> budget other cs' = budget other cs) /\ budget hash cs' <= budget hash cs /\
  match allowed with
  | Some true => 0 < budget hash cs /\ budget hash cs' = 0
  | Some false => budget hash cs' <= Z.max 0 (budget hash cs - 1)
  | None => True
  end.
Lemma answered_same hash cs : challenges_ok cs -> answered hash None cs cs.
Proof. intros H. repeat split; try apply H; lia. Qed.
Lemma answered_status hash cs c status n reason now (allowed : bool) :
  challenges_ok cs -> List.find (fun c => ChStateHash c =? hash)%string cs = Some c -> ChStatus c = "pending" -> TrimSpace status = status -> ChAttemptCount c <= n ->
  (if (status =? "pending")%string then allowed = false /\ ChAttemptCount c + 1 <= n < ChMaxAttempts c else True) ->
  answered hash (Some allowed) cs (set_status (ChID c) status n reason now <$> cs).
Proof.
  intros Hok Hfind Hpending Htrim Hn Hstatus. assert (budget hash cs = ChMaxAttempts c - ChAttemptCount c) as Ebudget by (unfold budget; rewrite Hfind, Hpending; done).
  assert (0 < budget hash cs) as Hpos.
  { rewrite Ebudget. destruct Hok as [_ Hok]. rewrite Forall_forall in Hok. apply List.find_some in Hfind as [Hc%list_elem_of_In _]. destruct (Hok c Hc) as (_ & _ & _ & _ & _ & H). specialize (H Hpending). lia. }
  destruct (set_status_effect hash cs c status n reason now Hok Hfind Htrim Hn) as (Hok' & Enew & Hother).
  { intros ->. simpl in Hstatus. lia. }
  split; [done|]. split; [done|]. rewrite Enew. destruct (String.eqb_spec status "pending"); [destruct Hstatus as [-> ?]; split; lia|]. split; [lia|]. destruct allowed; [done|lia].
Qed.
Lemma answered_weaken hash allowed cs cs' : answered hash allowed cs cs' -> answered hash None cs cs'.
Proof. intros (? & ? & ? & _). done. Qed.

Lemma answer_effect state username code now db (hash := TrimSpace (StateHash state)) : challenges_ok (MdChallenges db) ->
  answered hash (match (VerifyChallenge cfg key state username code now db).1 with Ok r => if IsLocalState state && known hash db then Some (VcAllowed r) else None | Err _ => None end)
    (MdChallenges db) (MdChallenges (VerifyChallenge cfg key state username code now db).2).
Proof.
  intros Hok. unfold VerifyChallenge. destruct (IsLocalState state); simpl; [|by apply answered_same]. unfold GetMFAChallengeByStateHash. fold hash.
  destruct (String.eqb_spec hash "") as [Ehash|_].
  { simpl. destruct (known hash db) eqn:Hknown; [|by apply answered_same]. apply existsb_exists in Hknown as (c & Hc%list_elem_of_In & E%String.eqb_eq).
    destruct Hok as [_ Hok]. rewrite Forall_forall in Hok. destruct (Hok c Hc) as [Hne _]. congruence. }
  destruct (List.find _ (MdChallenges db)) as [c|] eqn:Hfind.
  2:{ simpl. destruct (known hash db) eqn:Hknown; [|by apply answered_same]. apply existsb_exists in Hknown as (c & Hc & E). pose proof (List.find_none _ _ Hfind c Hc). congruence. }
  pose proof (List.find_some _ _ Hfind) as [Hc Ec]. assert (known hash db = true) as Hknown by (apply existsb_exists; eauto). rewrite Hknown. apply list_elem_of_In in Hc.
  assert (challenge_ok c) as Hcok by (destruct Hok as [_ Hok]; rewrite Forall_forall in Hok; auto).
  destruct ((ChStatus c =? "pending")%string && (ChExpiresAt c <=? now)) eqn:Hexpired.
  { apply andb_true_iff in Hexpired as [Hp%String.eqb_eq _]. simpl. rewrite UpdateMFAChallengeStatus_eq, MdChallenges_recordEvent by done. simpl.
    apply answered_status; try done; lia. }
  destruct (String.eqb_spec (ChStatus c) "pending") as [Hp|Hp]; simpl.
  2:{ rewrite MdChallenges_recordEvent. split; [done|]. split; [done|]. split; [lia|]. apply String.eqb_neq in Hp. unfold budget. rewrite Hfind, Hp. lia. }
  destruct (negb _ && negb _).
  { simpl. rewrite UpdateMFAChallengeStatus_eq, MdChallenges_recordEvent by done. simpl. apply answered_status; try done; lia. }
  match goal with |- context [VerifyOTP cfg key ?u ?p ?x ?a now db] => pose proof (MdChallenges_VerifyOTP u p x a now db) as Hsame; destruct (VerifyOTP cfg key u p x a now db) as [[r|e] db2] end;
    simpl in Hsame; [|simpl; rewrite Hsame; by apply answered_same].
  rewrite !UpdateMFAChallengeStatus_eq by done. destruct (VrAllowed r); simpl; rewrite MdChallenges_recordEvent; simpl; rewrite Hsame.
  - apply answered_status; try done; lia.
  - destruct (Z.geb_spec (ChAttemptCount c + 1) (ChMaxAttempts c)); apply answered_status; try done; simpl; lia.
Qed.

Lemma step_effect hash now op db : challenges_ok (MdChallenges db) ->
  challenges_ok (MdChallenges (mfa_step now op db)) /\ budget hash (MdChallenges (mfa_step now op db)) <= budget hash (MdChallenges db) /\
  match decided_answer hash now op db with
  | Some r => if VcAllowed r then 0 < budget hash (MdChallenges db) /\ budget hash (MdChallenges (mfa_step now op db)) = 0
              else budget hash (MdChallenges (mfa_step now op db)) <= Z.max 0 (budget hash (MdChallenges db) - 1)
  | None => True
  end.
Proof.
  intros Hok. destruct op as [ctx random|state username code|username code ctx audit|username draws|username draws|ctx reason]; simpl.
  - destruct (StartChallenge_effect hash ctx random now db Hok) as [Hok' ->]. split; [done|]. by split.
  - destruct (answer_effect state username code now db Hok) as (Hok' & Hother & Hle & Hdecided). split; [done|].
    destruct (String.eqb_spec (TrimSpace (StateHash state)) hash) as [<-|Hne].
    + split; [exact Hle|]. rewrite andb_true_r. destruct (VerifyChallenge cfg key state username code now db).1 as [r|]; [|by split_if].
      destruct (IsLocalState state && known _ db); [|done]. by destruct (VcAllowed r).
    + rewrite andb_false_r. simpl. split; [rewrite Hother by congruence; lia | done].
  - rewrite MdChallenges_VerifyOTP. split; [done|]. by split.
  - rewrite MdChallenges_Enroll. split; [done|]. by split.
  - rewrite MdChallenges_Rotate. split; [done|]. by split.
  - unfold RecordMonitorAllowed. rewrite MdChallenges_recordEvent. split; [done|]. by split.
Qed.

Lemma no_budget hash ops db : challenges_ok (MdChallenges db) -> budget hash (MdChallenges db) <= 0 -> Forall (fun r => VcAllowed r = false) (answers hash ops db).
Proof.
  revert db. induction ops as [|[now op] ops IH]; intros db Hok Hbudget; simpl; [done|]. destruct (step_effect hash now op db Hok) as (Hok' & Hle & Hdecided).
  apply Forall_app. split; [|apply IH; [done|lia]]. destruct (decided_answer hash now op db) as [r|]; [|done]. constructor; [|done]. destruct (VcAllowed r); [lia|done].
Qed.

Lemma answers_within_budget hash ops db pre r post : challenges_ok (MdChallenges db) -> answers hash ops db = pre ++ r :: post -> VcAllowed r = true ->
  zlen pre < budget hash (MdChallenges db) /\ Forall (fun r => VcAllowed r = false) post.
Proof.
  revert db pre. induction ops as [|[now op] ops IH]; intros db pre Hok; simpl; [by destruct pre|]. destruct (step_effect hash now op db Hok) as (Hok' & Hle & Hdecided).
  pose proof (budget_nonneg hash _ Hok) as Hpos. pose proof (budget_nonneg hash _ Hok') as Hpos'.
  destruct (decided_answer hash now op db) as [x|]; simpl; intros E Hr; [|destruct (IH _ pre Hok' E Hr); split; [lia|done]].
  destruct pre as [|y pre]; simplify_eq/=.
  - rewrite Hr in Hdecided. split; [unfold zlen; simpl; lia|]. apply no_budget; [done|lia].
  - destruct (IH _ pre Hok' ltac:(eassumption) Hr) as [Hlen Hpost]. rewrite zlen_cons. pose proof (zlen_nonneg pre). split; [|done]. destruct (VcAllowed y); lia.
Qed.

(** C20: Over any run of operations, and whatever is tried, a challenge is passed at most once, and only within its first [max_attempts] answers. *)
Theorem challenge_bounded hash ops pre r post : answers hash ops empty_mfa_db = pre ++ r :: post -> VcAllowed r = true ->
  zlen pre < attempts_allowed /\ Forall (fun r => VcAllowed r = false) (pre ++ post).
Proof.
  intros E Hr. assert (challenges_ok (MdChallenges empty_mfa_db)) as Hok by (split; constructor). assert (budget hash (MdChallenges empty_mfa_db) = attempts_allowed) as Ebudget by done.
  destruct (answers_within_budget hash ops empty_mfa_db pre r post Hok E Hr) as [Hlen Hpost]. split; [lia|]. apply Forall_app. split; [|done].
  apply Forall_forall. intros x Hx. apply list_elem_of_split in Hx as (p1 & p2 & ->). rewrite <- app_assoc in E. simpl in E. destruct (VcAllowed x) eqn:Ex; [|done].
  destruct (answers_within_budget hash ops empty_mfa_db p1 x (p2 ++ r :: post) Hok E Ex) as [_ Hlater]. apply Forall_app in Hlater as [_ Hlater]. apply Forall_inv in Hlater. congruence.
Qed.

Lemma MdSecrets_record (b : bool) policy now e db : MdSecrets (if b then recordEvent policy now e db else db) = MdSecrets db.
Proof. destruct b; [apply MdSecrets_recordEvent | done]. Qed.

Lemma VerifyTOTP_step secret code alg digits period window now now' (p := if period <=? 0 then 30 else period) :
  Z.quot now' p = Z.quot now p -> VerifyTOTP secret code (mkOptions alg digits period window) now' = VerifyTOTP secret code (mkOptions alg digits period window) now.
Proof. intros E. unfold VerifyTOTP. cbn [ToPeriodSeconds with_defaults]. fold p. by rewrite E. Qed.

(** Nothing records the time step of an accepted code: for the rest of the time step the same code is accepted again, so a code that is seen in transit can be used. *)
Theorem totp_code_replayable username code ctx ctx' audit audit' now now' db db' row
    (period := if TsPeriodSeconds row <=? 0 then 30 else TsPeriodSeconds row) :
  GetMFATOTPSecret username db = Some row -> Z.quot now' period = Z.quot now period ->
  VerifyOTP cfg key username code ctx audit now db = (Ok (mkVerify true "totp" "one-time password accepted" false), db') ->
  exists after, VerifyOTP cfg key username code ctx' audit' now' db' = (Ok (mkVerify true "totp" "one-time password accepted" false), after).
Proof.
  intros Hrow Hperiod. unfold VerifyOTP. set (policy := PolicyFromConfig cfg). set (hash := HashIdentityUsername username).
  destruct (normalizeCode code =? "")%string; [done|]. rewrite Hrow. destruct (TsEnabled row) eqn:Henabled; [|done]. cbn [negb].
  destruct (openStoredSecret cfg key row hash) as [secret|err] eqn:Eopen; [|done].
  destruct (VerifyTOTP secret (normalizeCode code) _ now) eqn:Everify; [|destruct (VerifyMFARecoveryCode _ _ _ _) as [[] ?]; done].
  assert (exists touched, GetMFATOTPSecret username (TouchMFATOTPVerified username now db).2 = Some touched /\ TsEnabled touched = true /\ openStoredSecret cfg key touched hash = Ok secret
    /\ TsAlgorithm touched = TsAlgorithm row /\ TsDigits touched = TsDigits row /\ TsPeriodSeconds touched = TsPeriodSeconds row /\ hash <> "") as (touched & Htouched & Hen & Hopen & Ea & Ed & Ep & Hhash).
  { unfold GetMFATOTPSecret, TouchMFATOTPVerified in *. fold hash in Hrow |- *. destruct (String.eqb_spec hash ""); [done|]. simpl. eexists. rewrite lookup_alter_eq, Hrow. split; [reflexivity|].
    repeat split; try done. }
  apply String.eqb_neq in Hhash. unfold TouchMFATOTPVerified in Htouched |- *. fold hash in Htouched |- *. rewrite Hhash in Htouched |- *. simpl in Htouched. intros [= <-].
  assert (forall x, GetMFATOTPSecret username (if audit then recordEvent policy now x (with_secrets db (alter (fun s => mkTotpSecret (TsSecret s) (TsAlgorithm s) (TsDigits s) (TsPeriodSeconds s)
    (TsIssuer s) (TsEnabled s) now (Some now)) hash (MdSecrets db))) else (with_secrets db (alter (fun s => mkTotpSecret (TsSecret s) (TsAlgorithm s) (TsDigits s) (TsPeriodSeconds s)
    (TsIssuer s) (TsEnabled s) now (Some now)) hash (MdSecrets db)))) = Some touched) as Hget.
  { intros x. rewrite <- Htouched. unfold GetMFATOTPSecret. by rewrite MdSecrets_record. }
  rewrite Hget, Hen. cbn [negb]. rewrite Hopen, Ea, Ed, Ep, (VerifyTOTP_step _ _ _ _ _ _ _ _ Hperiod), Everify. by eexists.
Qed.

Lemma use_code_twice now now' id c : use_code now' id (use_code now id c) = use_code now id c.
Proof. unfold use_code, unused. destruct (Z.eqb_spec (RyID c) id) as [E|E]; simpl; [|apply Z.eqb_neq in E; by rewrite E]. destruct (RyUsedAt c) eqn:Eu; simpl; rewrite E, Z.eqb_refl; simpl; by rewrite ?Eu. Qed.

(** Two requests that both look a recovery code up before either of them marks it are both accepted, and mark one code: the update of the second matches no row, and
    its count of rows is not looked at. *)
Theorem recovery_code_race username code now1 now2 db c (db1 := (consume_code now1 (Some c) db).2) :
  find_code username code now1 db = Some c -> find_code username code now2 db = Some c ->
  VerifyMFARecoveryCode username code now1 db = (true, db1) /\ consume_code now2 (find_code username code now2 db) db1 = (true, db1).
Proof.
  intros H1 H2. unfold VerifyMFARecoveryCode. rewrite H1, H2. split; [done|]. subst db1. simpl. f_equal. unfold with_codes. simpl. f_equal.
  rewrite <- list_fmap_compose. apply list_fmap_ext. intros i x _. apply use_code_twice.
Qed.
End runs.

(** ** Examples *)

(** Two letters for a byte, one for each half *)
Definition letter (v : Z) : ascii := ascii_of_N (Z.to_N (65 + v mod 16)).
Fixpoint letters_encode (l : list Z) : string := match l with [] => "" | b :: l => String (letter (b / 16)) (String (letter b) (letters_encode l)) end.
Fixpoint letters_decode (s : string) : option (list Z) :=
  match s with
  | EmptyString => Some []
  | String a (String b s) => match letters_decode s with Some l => Some ((byte_of a - 65) * 16 + (byte_of b - 65) :: l) | None => None end
  | _ => None
  end.
Lemma byte_of_letter v : byte_of (letter v) = 65 + v mod 16.
Proof. unfold byte_of, letter. pose proof (Z.mod_pos_bound v 16 ltac:(lia)). rewrite N_ascii_embedding by lia. lia. Qed.

#[export] Instance letters : Base32 | 100 := {| base32_encode := letters_encode; base32_decode := letters_decode; base32_decode_padded := fun _ => None |}.
#[export] Instance letters_laws : Base32Laws (H := letters).
Proof.
  split; simpl.
  - induction l as [|b l IH]; intros Hwf; simpl; [done|]. apply Forall_cons in Hwf as [Hb Hwf]. rewrite IH, !byte_of_letter by done. unfold is_byte in Hb. do 2 f_equal.
    rewrite (Z.mod_small (b / 16)) by (split; [apply Z.div_pos; lia | apply Z.div_lt_upper_bound; lia]). pose proof (Z.div_mod b 16 ltac:(lia)). lia.
  - induction l as [|b l IH]; simpl; [done|]. rewrite IH, andb_true_r. apply andb_true_iff.
    assert (forall v, code_char (letter v) = true) as H; [|by split]. intros v. pose proof (Z.mod_pos_bound v 16 ltac:(lia)). unfold code_char, in_range. rewrite byte_of_letter.
    apply orb_true_iff. right. change (byte_of "A"%char) with 65. change (byte_of "Z"%char) with 90. apply andb_true_iff. split; lia.
  - by destruct l.
Qed.

(** Sealing that hides nothing *)
#[export] Instance open_sealing : Sealing | 100 := {|
  seal_secret key nonce aad plaintext := (letters_encode (bytes_of_string plaintext), letters_encode (bytes_of_string nonce));
  open_secret key aad sealed := match letters_decode sealed.1 with Some l => Ok (string_of_bytes l) | None => Err "cipher: message authentication failed" end |}.
#[export] Instance open_sealing_laws : SealingLaws (H := open_sealing).
Proof.
  split; simpl; intros key nonce aad plaintext.
  - rewrite (base32_decode_encode (Base32Laws := letters_laws)); [by rewrite string_of_bytes_of_string | apply bytes_of_string_bound].
  - f_equal; apply code_text, (base32_alphabet (Base32Laws := letters_laws)).
Qed.

Module example.
#[local] Instance plain_digest : HexDigest := fun text => "sha256:" +:+ text.
Definition config : option MFAConfig := Some (mkMFAConfig true "enforce" true true "" "" 0 0 0 2 [] ["example.org"] true 0 0 "" true 2 0 0 true 0).
Definition key : result string string := Ok "0123456789abcdef".
Definition draws : Draws := mkDraws (Z.of_nat <$> seq 1 20) "nonce" (fun i => (fun count => repeat (Z.of_nat i) (Z.to_nat count), "salt")).
Definition enrolled : MfaDB := (EnrollTOTP config key "Bob@example.org" draws 1000 empty_mfa_db).2.
Definition secret : string := match (EnrollTOTP config key "Bob@example.org" draws 1000 empty_mfa_db).1 with Ok e => EnSecret e | Err e => e end.
Definition device : TOTPOptions := mkOptions "SHA1" 6 30 0.
Definition code : string := GenerateTOTP secret device 1500.
Definition ctx : StepUpContext := mkStepUp "bob@example.org" "user" "local" "local" "portal".
Definition once : MfaDB := (VerifyOTP config key "bob@example.org" code ctx true 1500 enrolled).2.

Example step_up : RequiresStepUp config ctx = true /\ RequiresStepUp config (mkStepUp "bob" "user" "" "" "") = false.
Proof. vm_compute. split; reflexivity. Qed.
(** The example of RFC 6238 *)
Example rfc_6238 : hotp (bytes_of_string "12345678901234567890") (59 / 30) (mkOptions "SHA1" 8 30 0) = "94287082"
  /\ hotp (bytes_of_string "12345678901234567890123456789012") (59 / 30) (mkOptions "SHA256" 8 30 0) = "46119246".
Proof. vm_compute. split; reflexivity. Qed.
Definition decisions (hash : string) (ops : list (Z * MfaOp)) : list bool := VcAllowed <$> answers config key hash ops enrolled.
Definition challenge_hash : string := StateHash "aegis1.r".
Example second_answer_passes : decisions challenge_hash
  [(1500, OpStart ctx ("r", "1")); (1500, OpAnswer "aegis1.r" "bob@example.org" "000000"); (1510, OpAnswer "aegis1.r" "bob@example.org" code); (1511, OpAnswer "aegis1.r" "bob@example.org" code)]
  = [false; true; false].
Proof. vm_compute. reflexivity. Qed.
Example third_answer_is_late : decisions challenge_hash
  [(1500, OpStart ctx ("r", "1")); (1500, OpAnswer "aegis1.r" "bob@example.org" "000000"); (1501, OpAnswer "aegis1.r" "bob@example.org" "111111"); (1502, OpAnswer "aegis1.r" "bob@example.org" code)]
  = [false; false; false].
Proof. vm_compute. reflexivity. Qed.

Lemma enrolled_code_accepted_witness : exists after, VerifyOTP config key "Bob@example.org" code ctx true 1525 enrolled = (Ok (mkVerify true "totp" "one-time password accepted" false), after).
Proof.
  apply (enrolled_code_accepted config key "Bob@example.org" draws 1000 empty_mfa_db (mkEnrollment (HashIdentityUsername "bob@example.org") secret ["AAAA-AAAA-AAAA-AAAA-AAAA"; "ABAB-ABAB-ABAB-ABAB-ABAB"])
    enrolled ctx true 1500 1525); [vm_compute; reflexivity | decided | discriminate | vm_compute; split; discriminate | lia | vm_compute; discriminate].
Defined.
Definition run : list (Z * MfaOp) :=
  [(1000, OpEnroll "bob@example.org" draws); (1500, OpStart ctx ("r", "1")); (1500, OpAnswer "aegis1.r" "bob@example.org" "000000"); (1510, OpAnswer "aegis1.r" "bob@example.org" code);
   (1511, OpAnswer "aegis1.r" "bob@example.org" code)].
Definition passed : VerifiedChallenge :=
  mkVerified true "step-up MFA challenge verified" (HashIdentityUsername "bob@example.org") "user" "local" "local" "portal" "totp".
Lemma challenge_bounded_witness : zlen [refused "invalid one-time password"] < attempts_allowed config
  /\ Forall (fun r => VcAllowed r = false) ([refused "invalid one-time password"] ++ [refused "challenge is not pending"]).
Proof. apply (challenge_bounded config key challenge_hash run [refused "invalid one-time password"] passed [refused "challenge is not pending"]); vm_compute; reflexivity. Defined.
Definition row : TotpSecret := mkTotpSecret (seal_secret "" "nonce" "" secret) "SHA1" 6 30 "AegisNAS" true 1000 None.
Lemma totp_code_replayable_witness : exists after, VerifyOTP config key "bob@example.org" code ctx true 1509 once = (Ok (mkVerify true "totp" "one-time password accepted" false), after).
Proof. apply (totp_code_replayable config key "bob@example.org" code ctx ctx true true 1500 1509 enrolled once row); vm_compute; reflexivity. Defined.
Definition recovery : RecoveryCode := default (mkRecoveryCode 0 "" "" None 0 None) (MdCodes enrolled !! 1%nat).
Lemma recovery_code_race_witness (db1 := (consume_code 1500 (Some recovery) enrolled).2) :
  VerifyMFARecoveryCode "bob@example.org" "ABABABABABABABABABAB" 1500 enrolled = (true, db1)
  /\ consume_code 1500 (find_code "bob@example.org" "ABABABABABABABABABAB" 1500 enrolled) db1 = (true, db1).
Proof. apply (recovery_code_race "bob@example.org" "ABABABABABABABABABAB" 1500 1500 enrolled recovery); vm_compute; reflexivity. Defined.
End example.
