(* ===== verification/PortalAuth.v ===== *)
(** * Logins at the captive portal ([internal/portal/auth/auth.go])

    A login with a user name and a password is checked against the local users, the RADIUS broker or the identity sources, and may then need a second factor.
    Here the parts meet: the failover of the sources ([IdentityFailover]), the policy for outages ([FallbackPolicy]), the local policy of a session
    ([SessionPolicy]) and one-time passwords ([Mfa]).

    What comes from outside is an argument: the answers of the broker, of LDAP and of Active Directory ([activedirectory.Authenticate] is its answer here), whether the
    request has been cancelled, salts and random texts, the sealing key. The clock stands still during a login. The exchange with the broker is modelled by its outcome and
    the runtime status that it leaves; the vendor health records and the copy for FreeRADIUS's tables are left out, as are log lines. *)

From S2P Require Import Prelude GoStrings Bytes EventLog SessionPolicy Sha IdentityFailover FallbackPolicy Mfa.
From Stdlib Require Import Ascii.

Record PortalConfig := mkPortalConfig {
  PcIdentity : IdentityConfig; PcMFA : MFAConfig; PcOutage : OutageConfig; PcRadiusAuth : bool; PcDefaultRole : string }.
Definition identity_of (cfg : PortalConfig) : option IdentityConfig := Some (PcIdentity cfg).
Definition mfa_of (cfg : PortalConfig) : option MFAConfig := Some (PcMFA cfg).
Definition outage_of (cfg : PortalConfig) : option OutageConfig := Some (PcOutage cfg).

Record Result := mkResult {
  RtAccepted : bool; RtUsername : string; RtRole : string; RtGroups : list string; RtIdentitySource : string; RtAuthMethod : string; RtReplyMessage : string;
  RtFilterID : string; RtACLPolicyName : string; RtRadiusClass : string; RtBandwidthProfile : string; RtVLAN : Z; RtSessionTimeout : Z; RtIdleTimeout : Z;
  RtMFARequired : bool; RtMFAState : string; RtMFAPrompt : string; RtMFAExpiresAt : option Z }.
Definition turned_away (reply : string) : Result := mkResult false "" "" [] "" "" reply "" "" "" "" 0 0 0 false "" "" None.
Definition let_in (username role : string) (groups : list string) (source method reply : string) : Result :=
  mkResult true username role groups source method reply "" "" "" "" 0 0 0 false "" "" None.
Definition second_factor (username role state prompt : string) (expiresAt : option Z) (reply : string) : Result :=
  mkResult false username role [] "" "" reply "" "" "" "" 0 0 0 true state prompt expiresAt.
Definition with_reply (r : Result) (method reply : string) : Result :=
  mkResult (RtAccepted r) (RtUsername r) (RtRole r) (RtGroups r) (RtIdentitySource r) method reply (RtFilterID r) (RtACLPolicyName r) (RtRadiusClass r) (RtBandwidthProfile r)
    (RtVLAN r) (RtSessionTimeout r) (RtIdleTimeout r) (RtMFARequired r) (RtMFAState r) (RtMFAPrompt r) (RtMFAExpiresAt r).
Definition of_policy (username method reply : string) (p : SessionPolicy) : Result :=
  mkResult true username (PlRole p) [] (PlIdentitySource p) method reply (PlFilterID p) (PlACLPolicyName p) (PlRadiusClass p) (PlBandwidthProfile p) (PlVLAN p) (PlSessionTimeout p)
    (PlIdleTimeout p) false "" "" None.

Record LoginRequest := mkLogin {
  LoUsername : string; LoPassword : string; LoCallingStationID : string; LoCalledStationID : string; LoFramedIPAddress : string; LoNASPort : Z; LoOTP : string; LoMFAState : string }.

Record BrokerAuthRequest := mkBrokerRequest {
  BrUsername : string; BrPassword : string; BrCallingStationID : string; BrCalledStationID : string; BrFramedIPAddress : string; BrNASPort : Z; BrState : string }.
(** A response: its code, its Reply-Message and State (in base64), and the attributes that [SessionPolicy] reads *)
Record BrokerPacket := mkBrokerPacket { BpCode : Z; BpReplyMessage : string; BpState : string; BpAttributes : Auth }.
Record BrokerAuthResult := mkBrokerResult {
  BaAccepted : bool; BaChallenge : bool; BaChallengeState : string; BaChallengePrompt : string; BaReplyMessage : string; BaAuth : Auth }.
(** The request cannot be built, the exchange fails, or a response comes back. *)
Inductive BrokerOutcome := Unbuildable (error : string) | NoAnswer (error : string) | Answered (packet : BrokerPacket).

Record AdResult := mkAdResult { AdrAccepted : bool; AdrRole : string; AdrGroups : list string; AdrAuthMethod : string; AdrReplyMessage : string }.

(** What the world answers during a login *)
Record LoginEnv := mkLoginEnv {
  EnBroker : BrokerAuthRequest -> BrokerOutcome;
  EnLDAP : string -> string -> result string (option (result string (list string)));   (** error, wrong password, or the groups *)
  EnAD : string -> string -> string -> result string AdResult;
  EnCancelled : string -> bool;                                                        (** the request, when the turn of a source comes *)
  EnSalt : string; EnRandom : string * string; EnSealingKey : result string string }.

(** [local_users], the tables of the other components, and the roles of groups in the first enabled LDAP source, all as reading them gives it or the error *)
Record LoginDB := mkLoginDB {
  LgUsers : result string (gmap string (string * string)); LgIdentity : IdentityDB; LgMfa : MfaDB; LgBroker : option RuntimeStatus; LgFallback : EventLog RadiusFallbackEvent;
  LgPolicy : PolicyDB; LgGroupRoles : result string (gmap string string) }.
Definition with_identity (db : LoginDB) (i : IdentityDB) : LoginDB := mkLoginDB (LgUsers db) i (LgMfa db) (LgBroker db) (LgFallback db) (LgPolicy db) (LgGroupRoles db).
Definition with_mfa (db : LoginDB) (m : MfaDB) : LoginDB := mkLoginDB (LgUsers db) (LgIdentity db) m (LgBroker db) (LgFallback db) (LgPolicy db) (LgGroupRoles db).
Definition with_broker (db : LoginDB) (b : option RuntimeStatus) : LoginDB := mkLoginDB (LgUsers db) (LgIdentity db) (LgMfa db) b (LgFallback db) (LgPolicy db) (LgGroupRoles db).
Definition with_fallback (db : LoginDB) (f : EventLog RadiusFallbackEvent) : LoginDB := mkLoginDB (LgUsers db) (LgIdentity db) (LgMfa db) (LgBroker db) f (LgPolicy db) (LgGroupRoles db).
Definition login_outcome : Type := result string Result * LoginDB.

Section login.
Context {U : Unicode} {MR : MapRange} {HD : HexDigest} {PH : PasswordHash} {B : Base32} {SE : Sealing}.
Context (cfg : PortalConfig) (env : LoginEnv) (now : Z).

Fixpoint firstNonEmpty (values : list string) : string := match values with [] => "" | v :: values => if blank v then firstNonEmpty values else TrimSpace v end.

(** Valid, the role, and whether the user is there *)
Definition ValidateUserDetailed (username password : string) (db : LoginDB) : result string (bool * string * bool) :=
  users ← LgUsers db;
  Ok (match users !! username with
      | None => (false, "", false)
      | Some (hash, role) => if password_matches hash password then (true, role, true) else (false, "", true)
      end).
Definition authenticateLocal (username password : string) (db : LoginDB) : result string Result :=
  checked ← ValidateUserDetailed username password db;
  Ok (match checked with (valid, role, _) => if negb valid then turned_away "" else let_in username role [] "local" "portal-local" "" end).

(** [ldap.GetRoleForGroups] *)
Fixpoint first_group_role (roles : gmap string string) (groups : list string) : string :=
  match groups with [] => "" | g :: groups => match roles !! g with Some role => role | None => first_group_role roles groups end end.
Definition GetRoleForGroups (groups : list string) (db : LoginDB) : result string string :=
  match groups with [] => Ok "" | _ => roles ← LgGroupRoles db; Ok (first_group_role roles groups) end.

Definition authenticateLDAP (username password : string) (db : LoginDB) : result string Result :=
  if negb (IcLDAPEnabled (PcIdentity cfg)) then Ok (turned_away "")
  else
    answer ← EnLDAP env username password;
    match answer with
    | None => Ok (turned_away "")
    | Some groups =>
        groups ← groups;
        role ← GetRoleForGroups groups db;
        Ok (let_in username (if blank role then PcDefaultRole cfg else role) groups "ldap" "portal-ldap" "")
    end.

(** *** Identity sources *)

Definition authenticateLocalSource (source : SourcePlan) (username password : string) (db : LoginDB) : result string (Result * string * string) :=
  checked ← ValidateUserDetailed username password db;
  Ok (match checked with (valid, role, found) =>
        if negb found then (turned_away "", "not_found", "user not found")
        else if negb valid then (turned_away "", "rejected", "invalid credentials")
        else (let_in username role [] (PnName source) "portal-local" "", "accepted", "credentials accepted")
      end).

Definition cache_accepted (policy : FailoverPolicy) (source : SourcePlan) (username password : string) (r : Result) (db : IdentityDB) : IdentityDB :=
  if PoCacheCredentials policy then
    match UpsertIdentitySourceCache (EnSalt env) (PnName source) username password (RtRole r) (RtIdentitySource r) (RtGroups r) (PoStaleCacheSeconds policy) now db with
    | Ok db => db
    | Err _ => db
    end
  else db.

(** The result, the decision and its reason, or the error, and what is left in the tables of the identity sources *)
Definition authenticateIdentitySource (source : SourcePlan) (username password : string) (policy : FailoverPolicy) (db : LoginDB) : result string (Result * string * string) * IdentityDB :=
  let idb := LgIdentity db in
  if EnCancelled env (PnName source) then (Err "context canceled", idb)
  else if (PnType source =? "local")%string then (authenticateLocalSource source username password db, idb)
  else if (PnType source =? "ldap")%string then
    match authenticateLDAP username password db with
    | Err e => if Contains (ToLower e) "user not found" then (Ok (turned_away "", "not_found", "user not found"), idb) else (Err e, idb)
    | Ok r =>
        if negb (RtAccepted r) then (Ok (r, "rejected", "invalid credentials"), idb)
        else (Ok (r, "accepted", "credentials accepted"), cache_accepted policy source username password r idb)
    end
  else if (PnType source =? "active_directory")%string then
    match EnAD env (PnName source) username password with
    | Err e => (Err e, idb)
    | Ok a =>
        if negb (AdrAccepted a) then
          let reason := text_or (TrimSpace (AdrReplyMessage a)) "invalid credentials" in
          if Contains (ToLower reason) "not found" then (Ok (turned_away "", "not_found", reason), idb) else (Ok (turned_away reason, "rejected", reason), idb)
        else
          let r := let_in username (AdrRole a) (AdrGroups a) (PnName source) (AdrAuthMethod a) (AdrReplyMessage a) in
          (Ok (r, "accepted", "credentials accepted"), cache_accepted policy source username password r idb)
    end
  else (Ok (turned_away "", "skipped", "unsupported identity source type"), idb).

Definition authenticateStaleIdentityCache (source : SourcePlan) (username password : string) (policy : FailoverPolicy) (db : IdentityDB) : option Result :=
  if negb (PoCacheCredentials policy) then None
  else
    match VerifyIdentitySourceCache (PnName source) username password now db with
    | None => None
    | Some row =>
        Some (let_in username (CrRole row) (CrGroups row) (CrIdentitySource row)
                (if blank (CrIdentitySource row) then "portal-ldap-cache" else "portal-" +:+ TrimSpace (CrIdentitySource row) +:+ "-cache")
                "identity source unavailable; stale cache accepted")
    end.

Definition splitResultDenied (policy : FailoverPolicy) : bool := negb (normalizeSplitResultPolicy (PoSplitResultPolicy policy) =? "prefer_success")%string.
Definition recordIdentitySourceEvent (policy : FailoverPolicy) (source : SourcePlan) (username decision reason circuitState : string) (cacheUsed : bool) (db : IdentityDB) : IdentityDB :=
  RecordEvent policy now (mkSourceEvent (PnName source) (PnType source) "" decision reason circuitState cacheUsed) username db.
Definition is_directory (source : SourcePlan) : bool := (PnType source =? "ldap")%string || (PnType source =? "active_directory")%string.

(** The loop over the plan: [rejected] once a source has rejected the credentials, then the numbers of sources asked and passed over *)
Fixpoint ask_sources (policy : FailoverPolicy) (username password : string) (plan : list SourcePlan) (rejected : bool) (attempted skipped : Z) (db : LoginDB) : Result * LoginDB :=
  match plan with
  | [] =>
      (if rejected then turned_away "invalid credentials"
       else if (PoMode policy =? "enforce")%string && PoFailClosed policy && (attempted =? 0) && (skipped >? 0) then turned_away "identity sources unavailable"
       else turned_away "", db)
  | source :: plan =>
      let record decision reason state cacheUsed i := recordIdentitySourceEvent policy source username decision reason state cacheUsed i in
      if negb (PnExecutable source) then
        ask_sources policy username password plan rejected attempted (skipped + 1)
          (with_identity db (record "skipped" (PnReason source) (CiState (PnCircuitState source)) false (LgIdentity db)))
      else
        match authenticateIdentitySource source username password policy db with
        | (Err e, i) =>
            let i := record "failed" e "closed" false i in
            match if is_directory source then authenticateStaleIdentityCache source username password policy i else None with
            | Some cached => (cached, with_identity db (record "stale_accepted" "ldap unavailable; stale cache accepted" "closed" true i))
            | None => ask_sources policy username password plan rejected (attempted + 1) skipped (with_identity db i)
            end
        | (Ok (r, decision, reason), i) =>
            let i := record decision reason "closed" false i in
            if (decision =? "accepted")%string then
              if rejected && splitResultDenied policy
              then (turned_away "identity source split-result policy denied login",
                    with_identity db (record "split_denied" "identity source accepted after earlier credential rejection" "closed" false i))
              else (r, with_identity db i)
            else ask_sources policy username password plan (rejected || (decision =? "rejected")%string) (attempted + 1) skipped (with_identity db i)
        end
  end.

Definition authenticateFallback (username password : string) (db : LoginDB) : login_outcome :=
  let policy := FailoverPolicyFromConfig (identity_of cfg) in
  if negb (PoEnabled policy) then
    (match authenticateLocal username password db with
     | Err e => Err e
     | Ok r => if RtAccepted r then Ok r else authenticateLDAP username password db
     end, db)
  else let '(r, db) := ask_sources policy username password (BuildSourcePlan (identity_of cfg) now (LgIdentity db)) false 0 0 db in (Ok r, db).

(** *** The broker *)

Definition AuthenticatePAP (req : BrokerAuthRequest) (db : LoginDB) : result string BrokerAuthResult * LoginDB :=
  match EnBroker env req with
  | Unbuildable e => (Err e, db)
  | NoAnswer e => (Err e, with_broker db (UpsertRuntimeStatus "down" e now (LgBroker db)))
  | Answered p =>
      let accepted := BpCode p =? 2 in
      let challenge := BpCode p =? 11 in
      let r := mkBrokerResult accepted challenge (if challenge then BpState p else "") (if challenge then TrimSpace (BpReplyMessage p) else "") (BpReplyMessage p) (BpAttributes p) in
      let '(status, message) :=
        if challenge then ("ok", "broker auth issued access challenge") else if accepted then ("ok", "broker auth succeeded") else ("degraded", "broker auth rejected") in
      (Ok r, with_broker db (UpsertRuntimeStatus status message now (LgBroker db)))
  end.
Definition broker_request (req : LoginRequest) (password state : string) : BrokerAuthRequest :=
  mkBrokerRequest (LoUsername req) password (LoCallingStationID req) (LoCalledStationID req) (LoFramedIPAddress req) (LoNASPort req) state.

(** *** The second factor *)

Definition step_up_context (r : Result) : StepUpContext := mkStepUp (RtUsername r) (RtRole r) (RtIdentitySource r) (RtAuthMethod r) "portal".
Definition applyMFA (req : LoginRequest) (r : Result) (db : LoginDB) : login_outcome :=
  if negb (RtAccepted r) then (Ok r, db)
  else
    let stepCtx := step_up_context r in
    let policy := PolicyFromConfig (mfa_of cfg) in
    if negb (RequiresStepUp (mfa_of cfg) stepCtx) then (Ok r, db)
    else if (MfMode policy =? "monitor")%string then
      (Ok r, with_mfa db (RecordMonitorAllowed (mfa_of cfg) stepCtx "MFA step-up would be required in enforce mode" now (LgMfa db)))
    else if negb (blank (LoOTP req)) then
      match VerifyOTP (mfa_of cfg) (EnSealingKey env) (RtUsername r) (LoOTP req) stepCtx true now (LgMfa db) with
      | (Err e, m) => (Err e, with_mfa db m)
      | (Ok v, m) =>
          (Ok (if VrAllowed v then with_reply r (RtAuthMethod r +:+ "+mfa-" +:+ VrMethod v) (firstNonEmpty [RtReplyMessage r; "MFA accepted"]) else turned_away (VrReason v)), with_mfa db m)
      end
    else
      match StartChallenge (mfa_of cfg) stepCtx (EnRandom env) now (LgMfa db) with
      | (Err e, m) =>
          (if MfFailClosed policy then Err e else Ok (with_reply r (RtAuthMethod r) "MFA challenge unavailable; fail-open policy allowed login"), with_mfa db m)
      | (Ok c, m) => (Ok (second_factor (RtUsername r) (RtRole r) (CgState c) (CgPrompt c) (Some (CgExpiresAt c)) "MFA required"), with_mfa db m)
      end.

Definition of_broker (req : LoginRequest) (method : string) (b : BrokerAuthResult) (db : LoginDB) : result string Result :=
  p ← ResolveSessionPolicy (Some (LgPolicy db)) (PcDefaultRole cfg) (Some (BaAuth b));
  Ok (of_policy (LoUsername req) method (BaReplyMessage b) p).
Definition broker_challenge (b : BrokerAuthResult) (reply : string) : Result :=
  second_factor "" "" (BaChallengeState b) (firstNonEmpty [BaChallengePrompt b; "Enter one-time password"]) None reply.

Definition authenticateMFAChallenge (req : LoginRequest) (db : LoginDB) : login_outcome :=
  if IsLocalState (LoMFAState req) then
    match VerifyChallenge (mfa_of cfg) (EnSealingKey env) (LoMFAState req) (LoUsername req) (LoOTP req) now (LgMfa db) with
    | (Err e, m) => (Err e, with_mfa db m)
    | (Ok v, m) =>
        (Ok (if negb (VcAllowed v) then turned_away (VcReason v)
             else let_in (LoUsername req) (VcRole v) [] (VcIdentitySource v) (text_or (TrimSpace (VcAuthMethod v)) "portal-local" +:+ "+mfa-" +:+ VcMethod v) "MFA challenge verified"),
         with_mfa db m)
    end
  else if negb (PcRadiusAuth cfg) then (Ok (turned_away "unknown MFA challenge"), db)
  else
    match AuthenticatePAP (broker_request req (LoOTP req) (LoMFAState req)) db with
    | (Err e, db) => (Err e, db)
    | (Ok b, db) =>
        if BaChallenge b then (Ok (broker_challenge b (BaReplyMessage b)), db)
        else if negb (BaAccepted b) then (Ok (turned_away (TrimSpace (BaReplyMessage b))), db)
        else (of_broker req "radius-pap+mfa-challenge" b db, db)
    end.

(** The broker does not answer. *)
Definition broker_unavailable (req : LoginRequest) (db : LoginDB) : login_outcome :=
  if negb (OcLocalFallback (PcOutage cfg)) then (Ok (turned_away "upstream AAA unavailable"), db)
  else
    match authenticateFallback (LoUsername req) (LoPassword req) db with
    | (Err e, db) => (Err e, db)
    | (Ok r, db) =>
        if negb (RtAccepted r) then (Ok (turned_away "upstream AAA unavailable"), db)
        else
          let decision := EvaluateFallbackPolicy (outage_of cfg) (mkEvaluation (LoUsername req) (RtRole r) (RtIdentitySource r) "portal" "" "" None) now (LgBroker db) in
          let db := with_fallback db (RecordFallbackDecision (outage_of cfg) now decision (LgFallback db)) in
          if negb (DcAllowed decision) then (Ok (turned_away "upstream AAA unavailable; local fallback denied by policy"), db)
          else applyMFA req (with_reply r (RtAuthMethod r) "upstream AAA unavailable; local fallback granted") db
    end.

Definition AuthenticateUser (req : LoginRequest) (db : LoginDB) : login_outcome :=
  if negb (blank (LoMFAState req)) then authenticateMFAChallenge req db
  else
    match authenticateLocal (LoUsername req) (LoPassword req) db with
    | Err e => (Err e, db)
    | Ok breakGlass =>
        if RtAccepted breakGlass && (RtRole breakGlass =? "admin")%string then applyMFA req breakGlass db
        else if PcRadiusAuth cfg then
          match AuthenticatePAP (broker_request req (LoPassword req) "") db with
          | (Err _, db) => broker_unavailable req db
          | (Ok b, db) =>
              if BaChallenge b then (Ok (broker_challenge b (TrimSpace (BaReplyMessage b))), db)
              else if negb (BaAccepted b) then (Ok (turned_away (TrimSpace (BaReplyMessage b))), db)
              else match of_broker req "radius-pap" b db with Err e => (Err e, db) | Ok r => applyMFA req r db end
          end
        else
          match authenticateFallback (LoUsername req) (LoPassword req) db with
          | (Err e, db) => (Err e, db)
          | (Ok r, db) => if negb (RtAccepted r) then (Ok r, db) else applyMFA req r db
          end
    end.
End login.

(** ** What the sources say *)

(** The outcome of one source: it is passed over, does not know the user, rejects or accepts the credentials, fails, or fails while the cache knows them. *)
Inductive Verdict := Passed | Unknown | Rejected | Failed | Accepts (r : Result) | Stale (r : Result).

Section verdicts.
Context {U : Unicode} {UL : UnicodeLaws} {MR : MapRange} {HD : HexDigest} {PH : PasswordHash} {B : Base32} {SE : Sealing}.
Context (cfg : PortalConfig) (env : LoginEnv) (now : Z).
Implicit Types (db : LoginDB) (plan : list SourcePlan).

Definition verdict (policy : FailoverPolicy) (username password : string) db (source : SourcePlan) : Verdict :=
  if negb (PnExecutable source) then Passed
  else
    match (authenticateIdentitySource cfg env now source username password policy db).1 with
    | Err _ =>
        match if is_directory source then authenticateStaleIdentityCache now source username password policy (LgIdentity db) else None with Some r => Stale r | None => Failed end
    | Ok (r, decision, _) => if (decision =? "accepted")%string then Accepts r else if (decision =? "rejected")%string then Rejected else Unknown
    end.
Definition settles (v : Verdict) : bool := match v with Accepts _ | Stale _ => true | _ => false end.
Definition rejects (v : Verdict) : bool := match v with Rejected => true | _ => false end.

(** Two states in which the sources answer alike *)
Definition alike db db' : Prop := LgUsers db' = LgUsers db /\ LgGroupRoles db' = LgGroupRoles db /\ DbCache (LgIdentity db') = DbCache (LgIdentity db).

Lemma recorded_cache policy source username decision reason state used i : DbCache (recordIdentitySourceEvent now policy source username decision reason state used i) = DbCache i.
Proof. apply RecordEvent_cache. Qed.

Lemma identity_source_alike source username password policy db db' : alike db db' ->
  (authenticateIdentitySource cfg env now source username password policy db').1 = (authenticateIdentitySource cfg env now source username password policy db).1.
Proof.
  intros (Eu & Eg & _). unfold authenticateIdentitySource, authenticateLocalSource, ValidateUserDetailed, authenticateLDAP, GetRoleForGroups. rewrite Eu, Eg.
  repeat match goal with |- context [if ?b then _ else _] => lazymatch b with EnCancelled _ _ => destruct b; [done|] | (PnType source =? _)%string => destruct b end end; try done.
  - destruct (if negb (IcLDAPEnabled (PcIdentity cfg)) then _ else _) as [r|e]; [by destruct (negb (RtAccepted r)) | by destruct (Contains (ToLower e) "user not found")].
  - destruct (EnAD env (PnName source) username password) as [a|]; [|done]. destruct (negb (AdrAccepted a)); [|done]. cbv zeta. by destruct (Contains _ "not found").
Qed.

(** A source that does not accept leaves the cache alone. *)
Lemma identity_source_cache source username password policy db : 
  match authenticateIdentitySource cfg env now source username password policy db with
  | (Ok (r, decision, _), i) => if (decision =? "accepted")%string then RtAccepted r = true else i = LgIdentity db
  | (Err _, i) => i = LgIdentity db
  end.
Proof.
  unfold authenticateIdentitySource. destruct (EnCancelled env (PnName source)); [done|]. destruct (PnType source =? "local")%string.
  { unfold authenticateLocalSource. destruct (ValidateUserDetailed username password db) as [[[valid role] found]|]; [|done]. simpl. by destruct found, valid. }
  destruct (PnType source =? "ldap")%string.
  { destruct (authenticateLDAP cfg env username password db) as [r|e]; [destruct (RtAccepted r) eqn:E; simpl; done | by destruct (Contains (ToLower e) "user not found")]. }
  destruct (PnType source =? "active_directory")%string; [|done]. destruct (EnAD env (PnName source) username password) as [a|]; [|done].
  destruct (AdrAccepted a); simpl; [done|]. cbv zeta. by destruct (Contains _ "not found").
Qed.

Lemma verdict_alike policy username password db db' source : alike db db' -> verdict policy username password db' source = verdict policy username password db source.
Proof.
  intros H. unfold verdict. rewrite (identity_source_alike _ _ _ _ db db' H). destruct H as (_ & _ & Ec). unfold authenticateStaleIdentityCache, VerifyIdentitySourceCache. by rewrite Ec.
Qed.

Lemma stale_accepted_result source username password policy i r : authenticateStaleIdentityCache now source username password policy i = Some r -> RtAccepted r = true.
Proof. unfold authenticateStaleIdentityCache. destruct (negb _); [done|]. destruct (VerifyIdentitySourceCache _ _ _ _ _); [|done]. by intros [= <-]. Qed.

(** The decision of a login, from what the sources say *)
Fixpoint settled (policy : FailoverPolicy) (verdicts : list Verdict) (rejected : bool) (attempted skipped : Z) : Result :=
  match verdicts with
  | [] =>
      if rejected then turned_away "invalid credentials"
      else if (PoMode policy =? "enforce")%string && PoFailClosed policy && (attempted =? 0) && (skipped >? 0) then turned_away "identity sources unavailable"
      else turned_away ""
  | Passed :: vs => settled policy vs rejected attempted (skipped + 1)
  | Accepts r :: _ => if rejected && splitResultDenied policy then turned_away "identity source split-result policy denied login" else r
  | Stale r :: _ => r
  | v :: vs => settled policy vs (rejected || rejects v) (attempted + 1) skipped
  end.

Lemma alike_identity db db' i : alike db db' -> DbCache i = DbCache (LgIdentity db) -> alike db (with_identity db' i).
Proof. intros (Eu & Eg & _) Ec. done. Qed.

Lemma ask_sources_settled policy username password db : forall plan rejected attempted skipped db', alike db db' ->
  (ask_sources cfg env now policy username password plan rejected attempted skipped db').1 = settled policy (verdict policy username password db <$> plan) rejected attempted skipped.
Proof.
  induction plan as [|source plan IH]; intros rejected attempted skipped db' Hlike; [done|]. pose proof Hlike as (_ & _ & Ecache). rewrite fmap_cons.
  rewrite <- (verdict_alike policy username password db db' source Hlike). unfold verdict at 1. cbn [ask_sources]. destruct (negb (PnExecutable source)).
  { apply IH. apply alike_identity; [done|]. by rewrite recorded_cache. }
  pose proof (identity_source_cache source username password policy db') as Hcache.
  destruct (authenticateIdentitySource cfg env now source username password policy db') as [[[[r decision] reason]|e] i]; cbn [fst].
  - destruct (decision =? "accepted")%string eqn:Eaccepted.
    + cbn [settled]. by destruct (rejected && splitResultDenied policy).
    + subst i. rewrite IH by (apply alike_identity; [done|]; rewrite recorded_cache; done). by destruct (decision =? "rejected")%string.
  - subst i. set (i := recordIdentitySourceEvent now policy source username "failed" e "closed" false (LgIdentity db')).
    assert (authenticateStaleIdentityCache now source username password policy i = authenticateStaleIdentityCache now source username password policy (LgIdentity db')) as ->.
    { unfold authenticateStaleIdentityCache, VerifyIdentitySourceCache. unfold i. by rewrite recorded_cache. }
    destruct (if is_directory source then _ else _) as [cached|]; cbn [settled]; [done|]. rewrite IH; [by rewrite orb_false_r|]. apply alike_identity; [done|]. unfold i. by rewrite recorded_cache.
Qed.

Lemma settled_accepts policy vs rejected attempted skipped r : (forall v, v ∈ vs -> match v with Accepts x | Stale x => RtAccepted x = true | _ => True end) ->
  settled policy vs rejected attempted skipped = r /\ RtAccepted r = true <->
  exists pre v post, vs = pre ++ v :: post /\ Forall (fun v => settles v = false) pre /\
    (v = Stale r \/ v = Accepts r /\ (rejected || existsb rejects pre) && splitResultDenied policy = false).
Proof.
  revert rejected attempted skipped. induction vs as [|v vs IH]; intros rejected attempted skipped Hvs.
  { simpl. split; [|intros ([|] & ? & ? & ? & _); done]. intros [<- H]. destruct rejected; [done|]. by destruct (_ && _ && _ && _). }
  assert (forall x, x ∈ vs -> match x with Accepts x | Stale x => RtAccepted x = true | _ => True end) as Hvs' by (intros x Hx; apply Hvs; by right). specialize (Hvs v ltac:(by left)).
  assert (settles v = false -> forall rejected' attempted skipped, rejected' = rejected || rejects v ->
    (settled policy vs rejected' attempted skipped = r /\ RtAccepted r = true <->
     exists pre x post, v :: vs = pre ++ x :: post /\ Forall (fun v => settles v = false) pre /\ (x = Stale r \/ x = Accepts r /\ (rejected || existsb rejects pre) && splitResultDenied policy = false))) as Hstep.
  { intros Hv rejected' a k ->. rewrite (IH _ a k Hvs'). split.
    - intros (pre & x & post & -> & Hpre & H). exists (v :: pre), x, post. split; [done|]. split; [by constructor|]. simpl. by rewrite orb_assoc.
    - intros ([|y pre] & x & post & E & Hpre & H); simplify_eq/=; [destruct H as [->|[-> _]]; done|]. apply Forall_cons in Hpre as [_ Hpre]. exists pre, x, post. split; [done|]. split; [done|].
      simpl in H. by rewrite orb_assoc in H. }
  destruct v as [| | | |x|x]; cbn [settled];
    [apply Hstep; [done|by rewrite orb_false_r] | apply Hstep; done | apply Hstep; done | apply Hstep; done | |].
  - split.
    + destruct (rejected && splitResultDenied policy) eqn:E; intros [<- Hr]; [done|]. exists [], (Accepts x), vs. repeat split; [constructor|]. right. simpl. by rewrite orb_false_r.
    + intros ([|y pre] & z & post & E & Hpre & H); simplify_eq/=; [|by apply Forall_cons in Hpre as [? _]]. destruct H as [|[[= ->] H]]; [done|]. rewrite orb_false_r in H. by rewrite H.
  - split.
    + intros [<- _]. exists [], (Stale x), vs. repeat split; [constructor|]. by left.
    + intros ([|y pre] & z & post & E & Hpre & H); simplify_eq/=; [|by apply Forall_cons in Hpre as [? _]]. destruct H as [[= ->]|[[=] _]]. done.
Qed.

Lemma existsb_fmap {A C} (f : A -> C) (p : C -> bool) (l : list A) : existsb p (f <$> l) = existsb (fun x => p (f x)) l.
Proof. induction l as [|x l IH]; simpl; [done|]. f_equal. exact IH. Qed.
Lemma verdict_accepted policy username password db source : match verdict policy username password db source with Accepts x | Stale x => RtAccepted x = true | _ => True end.
Proof.
  unfold verdict. destruct (negb (PnExecutable source)); [done|]. pose proof (identity_source_cache source username password policy db) as H.
  destruct (authenticateIdentitySource cfg env now source username password policy db) as [[[[r decision] reason]|e] i]; cbn [fst] in *.
  - destruct (decision =? "accepted")%string; [done|]. by destruct (decision =? "rejected")%string.
  - destruct (is_directory source); [|done]. destruct (authenticateStaleIdentityCache _ _ _ _ _ _) eqn:E; [by eapply stale_accepted_result | done].
Qed.

(** C10: The sources let a user in exactly when one of them accepts, no earlier one settled the login, and no earlier one rejected the credentials under a policy that
    lets a rejection stand; or when a directory fails whose cache knows the credentials, whatever the earlier sources said. *)
Theorem fallback_accepts username password db r (policy := FailoverPolicyFromConfig (identity_of cfg)) (said := verdict policy username password db) :
  PoEnabled policy = true ->
  (authenticateFallback cfg env now username password db).1 = Ok r /\ RtAccepted r = true <->
  exists pre source post, BuildSourcePlan (identity_of cfg) now (LgIdentity db) = pre ++ source :: post /\ Forall (fun s => settles (said s) = false) pre /\
    (said source = Stale r \/ said source = Accepts r /\ existsb (fun s => rejects (said s)) pre && splitResultDenied policy = false).
Proof.
  intros Henabled. unfold authenticateFallback. fold policy. rewrite Henabled. cbn [negb]. set (plan := BuildSourcePlan _ _ _).
  pose proof (ask_sources_settled policy username password db plan false 0 0 db ltac:(done)) as E. fold said in E.
  destruct (ask_sources _ _ _ _ _ _ _ _ _ _ _) as [x db']. cbn [fst] in *. subst x.
  assert (forall v, v ∈ said <$> plan -> match v with Accepts x | Stale x => RtAccepted x = true | _ => True end) as Hsaid.
  { intros v (s & -> & _)%list_elem_of_fmap. apply verdict_accepted. }
  pose proof (settled_accepts policy (said <$> plan) false 0 0 r Hsaid) as H. split.
  - intros [[= Hr] Ha]. destruct (proj1 H (conj Hr Ha)) as (pre & v & post & E & Hpre & Hv). apply fmap_app_inv in E as (pre' & rest & -> & E & ->).
    symmetry in E. apply fmap_cons_inv in E as (source & post' & -> & -> & ->). exists pre', source, post'. split; [done|]. split; [by apply Forall_fmap in Hpre|].
    destruct Hv as [Hv|[Hv Hs]]; [by left|]. right. split; [done|]. by rewrite existsb_fmap in Hs.
  - intros (pre & source & post & E & Hpre & Hv). destruct (proj2 H) as [Hr Ha].
    { exists (said <$> pre), (said source), (said <$> post). rewrite E, fmap_app. split; [done|]. split; [by apply Forall_fmap|]. destruct Hv as [Hv|[Hv Hs]]; [by left|]. right. split; [done|].
      by rewrite existsb_fmap. }
    by rewrite Hr.
Qed.
End verdicts.

(** ** The circuit of a source that is passed over *)

Section passed_over.
Context {U : Unicode} {UL : UnicodeLaws} {MR : MapRange} {HD : HexDigest} {PH : PasswordHash} {B : Base32} {SE : Sealing}.
Context (cfg : PortalConfig) (env : LoginEnv) (now : Z).

Definition in_time (i : IdentityDB) : Prop := log_ok (DbEvents i) /\ until now (DbEvents i).
Lemma recorded_in_time policy source username decision reason state used i : in_time i -> in_time (recordIdentitySourceEvent now policy source username decision reason state used i).
Proof. intros [Hok Huntil]. split; [by apply RecordEvent_ok | by apply RecordEvent_until]. Qed.

Lemma cache_accepted_events policy source username password r i : DbEvents (cache_accepted env now policy source username password r i) = DbEvents i.
Proof.
  unfold cache_accepted. destruct (PoCacheCredentials policy); [|done]. unfold UpsertIdentitySourceCache. destruct (_ || _); [done|]. destruct (_ <=? 0); [done|].
  by destruct (hash_password _ _).
Qed.
Lemma identity_source_events source username password policy db : DbEvents (authenticateIdentitySource cfg env now source username password policy db).2 = DbEvents (LgIdentity db).
Proof.
  unfold authenticateIdentitySource. destruct (EnCancelled env (PnName source)); [done|]. destruct (PnType source =? "local")%string; [done|]. destruct (PnType source =? "ldap")%string.
  { destruct (authenticateLDAP cfg env username password db) as [r|e]; [destruct (negb (RtAccepted r)); [done | apply cache_accepted_events] | by destruct (Contains (ToLower e) "user not found")]. }
  destruct (PnType source =? "active_directory")%string; [|done]. destruct (EnAD env (PnName source) username password) as [a|]; [|done].
  destruct (negb (AdrAccepted a)); [cbv zeta; by destruct (Contains _ "not found") | apply cache_accepted_events].
Qed.

(** The last turn of a login that no earlier source settles, when the last source is passed over *)
Lemma ask_sources_last policy username password source : PnExecutable source = false -> forall pre rejected attempted skipped db,
  Forall (fun s => settles (verdict cfg env now policy username password db s) = false) pre -> in_time (LgIdentity db) ->
  exists i, in_time i /\ LgIdentity (ask_sources cfg env now policy username password (pre ++ [source]) rejected attempted skipped db).2 =
    recordIdentitySourceEvent now policy source username "skipped" (PnReason source) (CiState (PnCircuitState source)) false i.
Proof.
  intros Hlast. induction pre as [|s pre IH]; intros rejected attempted skipped db Hpre Htime; cbn [app ask_sources].
  { rewrite Hlast. cbn. by exists (LgIdentity db). }
  apply Forall_cons in Hpre as [Hs Hpre]. unfold verdict in Hs.
  assert (forall db', alike db db' -> in_time (LgIdentity db') -> forall rejected attempted skipped, exists i, in_time i /\
    LgIdentity (ask_sources cfg env now policy username password (pre ++ [source]) rejected attempted skipped db').2 =
    recordIdentitySourceEvent now policy source username "skipped" (PnReason source) (CiState (PnCircuitState source)) false i) as Hnext.
  { intros db' Hlike Htime' rejected' attempted' skipped'. apply IH; [|done]. eapply Forall_impl; [exact Hpre|]. intros x Hx. by rewrite (verdict_alike cfg env now policy username password db db' x Hlike). }
  destruct (negb (PnExecutable s)); [apply Hnext; [apply alike_identity; [done | apply recorded_cache] | by apply recorded_in_time]|].
  pose proof (identity_source_cache cfg env now s username password policy db) as Hcache. pose proof (identity_source_events s username password policy db) as Hevents.
  destruct (authenticateIdentitySource cfg env now s username password policy db) as [[[[r decision] reason]|e] i]; cbn [fst snd] in *.
  - destruct (decision =? "accepted")%string; [done|]. subst i. apply Hnext; [apply alike_identity; [done | apply recorded_cache] | by apply recorded_in_time].
  - subst i. unfold authenticateStaleIdentityCache, VerifyIdentitySourceCache in *. rewrite recorded_cache.
    destruct (if is_directory s then _ else _); [done|]. apply Hnext; [apply alike_identity; [done | apply recorded_cache] | by apply recorded_in_time].
Qed.

Lemma plan_name_normal source at_ db : source ∈ BuildSourcePlan (identity_of cfg) at_ db -> PnName source <> "" /\ lower_trim (PnName source) = PnName source.
Proof.
  intros Hin. assert (PnName source ∈ PnName <$> BuildSourcePlan (identity_of cfg) at_ db) as H by (apply list_elem_of_fmap; by exists source).
  rewrite source_plan_names in H. apply elem_of_app in H as [H|H]; [exact (normalized_order_elem _ _ H)|]. rewrite sort_by_perm in H. apply list_elem_of_fmap in H as (s & -> & [Hl _]%elem_of_remaining).
  destruct (proj1 (by_name_spec _ _ _ _ _ ∅ _) (mk_is_Some _ _ Hl)) as [[? [=]]|(Hn & r & _ & E)]. split; [done|]. rewrite <- E. apply lower_trim_idem.
Qed.

(** A login that passes a source over, because its circuit is open or for any other reason, leaves its circuit closed: the event of being passed over ends the run
    of failures that keeps the circuit open, so the next login asks the failing source again. *)
Theorem skipped_login_closes_circuit username password db pre source (policy := FailoverPolicyFromConfig (identity_of cfg)) at_ :
  PoEnabled policy = true -> PoAuditEnabled policy = true -> 0 < PoMaxFailures policy -> in_time (LgIdentity db) ->
  BuildSourcePlan (identity_of cfg) now (LgIdentity db) = pre ++ [source] -> PnExecutable source = false ->
  Forall (fun s => settles (verdict cfg env now policy username password db s) = false) pre ->
  CiState (circuitStateForSource (PnName source) policy at_ (LgIdentity (authenticateFallback cfg env now username password db).2)) = "closed".
Proof.
  intros Henabled Haudit Hmax Htime Hplan Hlast Hpre. unfold authenticateFallback. fold policy. rewrite Henabled, Hplan. cbn [negb].
  destruct (plan_name_normal source now (LgIdentity db)) as [Hname Hnormal]; [rewrite Hplan; apply elem_of_app; right; by left|].
  destruct (ask_sources_last policy username password source Hlast pre false 0 0 db Hpre Htime) as (i & [Hok Huntil] & E).
  destruct (ask_sources _ _ _ _ _ _ _ _ _ _ _) as [r db']. cbn [snd] in *. unfold circuitStateForSource. rewrite Henabled. cbn [negb]. rewrite E.
  apply other_event_closes; try done.
Qed.
End passed_over.

(** ** Second factors and outages *)

Section second_factors.
Context {U : Unicode} {MR : MapRange} {HD : HexDigest} {PH : PasswordHash} {B : Base32} {SE : Sealing}.
Context (cfg : PortalConfig) (env : LoginEnv) (now : Z).

Lemma RequiresStepUp_identity c r r' : RtUsername r = RtUsername r' -> RtRole r = RtRole r' -> RequiresStepUp c (step_up_context r) = RequiresStepUp c (step_up_context r').
Proof. intros Eu Er. unfold RequiresStepUp, step_up_context. simpl. by rewrite Eu, Er. Qed.

Definition passed_second_factor (req : LoginRequest) (r : Result) : Prop :=
  exists ctx m v m', VerifyOTP (mfa_of cfg) (EnSealingKey env) (RtUsername r) (LoOTP req) ctx true now m = (Ok v, m') /\ VrAllowed v = true.

Lemma applyMFA_enforced req r x db db' : applyMFA cfg env now req r db = (Ok x, db') -> RtAccepted x = true -> MfMode (PolicyFromConfig (mfa_of cfg)) <> "monitor" ->
  MfFailClosed (PolicyFromConfig (mfa_of cfg)) = true -> RequiresStepUp (mfa_of cfg) (step_up_context x) = true -> passed_second_factor req x.
Proof.
  intros H Ha Hmode Hclosed Hstep. unfold applyMFA in H. destruct (RtAccepted r) eqn:Er; cbn [negb] in H; [|congruence].
  destruct (RequiresStepUp (mfa_of cfg) (step_up_context r)) eqn:Ereq; cbn [negb] in H; [|congruence]. apply String.eqb_neq in Hmode. rewrite Hmode, Hclosed in H.
  destruct (negb (blank (LoOTP req))).
  - destruct (VerifyOTP _ _ _ _ _ _ _ _) as [[v|e] m] eqn:Ev; [|done]. destruct (VrAllowed v) eqn:Eallowed; injection H as <- <-; [|done]. by repeat eexists.
  - destruct (StartChallenge _ _ _ _ _) as [[c|e] m]; [|done]. injection H as <- <-. done.
Qed.


(** The same login, and one that sends the password as the answer to a challenge that was never issued *)
Definition forged (req : LoginRequest) (state : string) : LoginRequest :=
  mkLogin (LoUsername req) "" (LoCallingStationID req) (LoCalledStationID req) (LoFramedIPAddress req) (LoNASPort req) (LoPassword req) state.

(** C11: When the broker answers a password whatever the state that comes with it, the second factor can be left out: a user who has to pass it is let in without,
    by a request that makes a challenge state up and sends the password as the one-time password. *)
Theorem forged_state_skips_step_up req state db p sp :
  PcRadiusAuth cfg = true -> blank (LoMFAState req) = true -> blank (LoOTP req) = true -> blank state = false -> IsLocalState state = false ->
  (forall s, EnBroker env (broker_request req (LoPassword req) s) = Answered p) -> BpCode p = 2 -> ResolveSessionPolicy (Some (LgPolicy db)) (PcDefaultRole cfg) (Some (BpAttributes p)) = Ok sp ->
  authenticateLocal (LoUsername req) (LoPassword req) db = Ok (turned_away "") ->
  MfMode (PolicyFromConfig (mfa_of cfg)) <> "monitor" -> MfFailClosed (PolicyFromConfig (mfa_of cfg)) = true -> RequiresStepUp (mfa_of cfg) (mkStepUp (LoUsername req) (PlRole sp) "" "" "") = true ->
  (forall r, (AuthenticateUser cfg env now req db).1 = Ok r -> RtAccepted r = false) /\
  exists r, (AuthenticateUser cfg env now (forged req state) db).1 = Ok r /\ RtAccepted r = true /\ RtRole r = PlRole sp /\ LgMfa (AuthenticateUser cfg env now (forged req state) db).2 = LgMfa db.
Proof.
  intros Hradius Hstate Hotp Hforged Hlocal Hbroker Hcode Hpolicy Huser Hmode Hclosed Hstep. split.
  - intros r. unfold AuthenticateUser, AuthenticatePAP. rewrite Hstate, Huser, Hradius, Hbroker, Hcode. cbn [negb turned_away RtAccepted andb Z.eqb Pos.eqb BaChallenge BaAccepted].
    unfold of_broker. cbn [LgPolicy with_broker BaAuth BaReplyMessage]. rewrite Hpolicy. cbn [mbind result_bind]. set (x := of_policy _ _ _ sp).
    assert (RequiresStepUp (mfa_of cfg) (step_up_context x) = true) as E by exact Hstep. unfold applyMFA. change (RtAccepted x) with true. rewrite E. cbn [negb].
    apply String.eqb_neq in Hmode. rewrite Hmode, Hotp, Hclosed. cbn [negb]. destruct (StartChallenge _ _ _ _ _) as [[c|e] m]; [|done]. by intros [= <-].
  - unfold AuthenticateUser, authenticateMFAChallenge. cbn [LoMFAState forged]. rewrite Hforged, Hlocal, Hradius. cbn [negb]. unfold AuthenticatePAP. cbn [LoOTP forged].
    change (broker_request (forged req state) (LoPassword req) state) with (broker_request req (LoPassword req) state). rewrite Hbroker, Hcode.
    cbn [Z.eqb Pos.eqb BaChallenge BaAccepted negb]. unfold of_broker. cbn [LgPolicy with_broker BaAuth BaReplyMessage]. rewrite Hpolicy. cbn. by eexists.
Qed.

(** The window of an outage never closes for the logins of the portal: the broker's failure, which every such login runs into first, sets the start of the outage to the
    time of the login, so the policy judges it as if there was no window. *)
Theorem outage_window_restarts breq db e ev (decision := EvaluateFallbackPolicy (outage_of cfg) ev now (LgBroker (AuthenticatePAP env now breq db).2))
    (violations := fallbackPolicyViolations (FallbackPolicyFromConfig (outage_of cfg)) (outage_of cfg) ev (identityRealm (EvUsername ev))) :
  EnBroker env breq = NoAnswer e -> EvOutageStartedAt ev = None -> DcOutageStartedAt decision = Some now /\ violations (DcExpiresAt decision) now = violations None now.
Proof.
  intros Hbroker Hev. unfold decision, AuthenticatePAP, EvaluateFallbackPolicy. rewrite Hbroker, Hev. cbn [snd LgBroker with_broker].
  change (UpsertRuntimeStatus "down" e now (LgBroker db)) with (Some (mkRuntimeStatus "down" e now)). unfold CurrentFallbackOutageSnapshot. cbn [RsStatus RsMessage RsUpdatedAt].
  change (EqualFold (TrimSpace "down") "ok") with false. cbn [SnStartedAt DcOutageStartedAt DcExpiresAt]. split; [done|]. unfold violations, fallbackPolicyViolations. cbn [outage_of].
  set (policy := FallbackPolicyFromConfig _). destruct (FpMaxOutageSeconds policy >? 0) eqn:Emax; [|done]. apply Z.gtb_lt in Emax.
  assert (now >? now + FpMaxOutageSeconds policy = false) as -> by (rewrite Z.gtb_ltb; apply Z.ltb_ge; lia). done.
Qed.
End second_factors.

(** ** Examples *)

Module example.
#[local] Instance plain_digest : HexDigest := fun text => "sha256:" +:+ text.
Definition failover : FailoverConfig := mkFailoverConfig true "enforce" true ["local"; "ldap-primary"] 2 300 3600 true "deny" 60 true 6000.
Definition identity : IdentityFailover.IdentityConfig := IdentityFailover.mkIdentityConfig failover true (mkADConfig false "" "" "" "" "" false false "").
Definition mfa : MFAConfig := mkMFAConfig true "enforce" true true "" "" 0 0 0 0 [] [] true 0 0 "" true 0 0 0 true 0.
Definition fallback : FallbackConfig := mkFallbackConfig true "enforce" true true true false 900 3600 2 [] [] [] true 6000.
Definition config (radius : bool) : PortalConfig := mkPortalConfig identity mfa (mkOutageConfig fallback radius true) radius "guest".
Definition staff : BrokerPacket := mkBrokerPacket 2 "welcome" "" (mkAuth "" "" 0 false 0 false 0 false 0 0 "ops_admin" "" "" "" "" 0 false 0 false 0 false false false).
Definition up : LoginEnv := mkLoginEnv (fun _ => Answered staff) (fun _ password => Ok (if (password =? "pw")%string then Some (Ok ["Staff"]) else None)) (fun _ _ _ => Err "down") (fun _ => false) "s"
  ("r", "1") (Ok "0123456789abcdef").
Definition down : LoginEnv := mkLoginEnv (fun _ => NoAnswer "timeout") (fun _ _ => Err "connection refused") (fun _ _ _ => Err "down") (fun _ => false) "s" ("r", "1") (Ok "0123456789abcdef").
Definition start : LoginDB := mkLoginDB (Ok {["carol" := ("s:other", "user")]}) (mkIdentityDB (Ok [mkSourceRecord "ldap-primary" "ldap" true 10]) empty_log ∅) empty_mfa_db None empty_log
  (mkPolicyDB (Ok []) ∅ [] []) (Ok {["Staff" := "staff"]}).
Definition login (username password otp state : string) : LoginRequest := mkLogin username password "" "" "" 1 otp state.
Definition replies (outcome : login_outcome) : result string (bool * string * string) := match outcome.1 with Ok r => Ok (RtAccepted r, RtRole r, RtReplyMessage r) | Err e => Err e end.

(** A login that LDAP accepts is kept; during an outage it is accepted again, until the circuit opens. *)
Definition after (env : LoginEnv) (at_ : Z) (db : LoginDB) : LoginDB := (authenticateFallback (config false) env at_ "bob" "pw" db).2.
Definition kept : LoginDB := after up 100 start.
Definition failed_twice : LoginDB := after down 130 (after down 120 start).
Example bob_from_the_cache : replies (authenticateFallback (config false) down 3699 "bob" "pw" kept) = Ok (true, "staff", "identity source unavailable; stale cache accepted")
  /\ replies (authenticateFallback (config false) down 3700 "bob" "pw" kept) = Ok (false, "", "").
Proof. vm_compute. split; reflexivity. Qed.
(** Carol's password is wrong locally, but the cache of the directory that is down lets her in. *)
Example carol_from_the_cache :
  replies (authenticateFallback (config false) down 200 "carol" "pw" (with_identity start (cache_accepted up 100 (FailoverPolicyFromConfig (Some identity))
    (mkSourcePlan "ldap-primary" "ldap" true true 0 "" (mkCircuit "" "" 0 None "" None None)) "carol" "pw" (let_in "carol" "staff" [] "ldap" "" "") (LgIdentity start))))
  = Ok (true, "staff", "identity source unavailable; stale cache accepted").
Proof. vm_compute. reflexivity. Qed.
Example circuits : (fun s => (PnName s, PnExecutable s)) <$> BuildSourcePlan (Some identity) 140 (LgIdentity failed_twice) = [("local", true); ("ldap-primary", false)]
  /\ (fun s => (PnName s, PnExecutable s)) <$> BuildSourcePlan (Some identity) 141 (LgIdentity (after down 140 failed_twice)) = [("local", true); ("ldap-primary", true)].
Proof. vm_compute. split; reflexivity. Qed.
Example long_outage : replies (AuthenticateUser (config true) (mkLoginEnv (EnBroker down) (EnLDAP up) (EnAD up) (EnCancelled up) "s" ("r", "1") (Ok "0123456789abcdef")) 100000 (login "bob" "pw" "" "")
    (with_broker start (Some (mkRuntimeStatus "down" "timeout" 0)))) = Ok (true, "staff", "upstream AAA unavailable; local fallback granted").
Proof. vm_compute. reflexivity. Qed.

Definition plan : list SourcePlan := BuildSourcePlan (Some identity) 140 (LgIdentity failed_twice).
Definition source (i : nat) : SourcePlan := default (mkSourcePlan "" "" false false 0 "" (mkCircuit "" "" 0 None "" None None)) (plan !! i).
Lemma fallback_accepts_witness :
  (authenticateFallback (config false) up 100 "bob" "pw" start).1 = Ok (let_in "bob" "staff" ["Staff"] "ldap" "portal-ldap" "") /\ RtAccepted (let_in "bob" "staff" ["Staff"] "ldap" "portal-ldap" "") = true.
Proof.
  apply (fallback_accepts (config false) up 100 "bob" "pw" start); [vm_compute; reflexivity|].
  assert (exists a b, BuildSourcePlan (identity_of (config false)) 100 (LgIdentity start) = [a; b]) as (a & b & E) by (vm_compute; repeat eexists).
  exists [a], b, []. split; [exact E|]. vm_compute in E. injection E as <- <-. split; [constructor; [vm_compute; reflexivity | constructor]|]. right. split; vm_compute; reflexivity.
Defined.
Lemma skipped_login_closes_circuit_witness :
  CiState (circuitStateForSource "ldap-primary" (FailoverPolicyFromConfig (Some identity)) 141 (LgIdentity (authenticateFallback (config false) down 140 "bob" "pw" failed_twice).2)) = "closed".
Proof.
  apply (skipped_login_closes_circuit (config false) down 140 "bob" "pw" failed_twice [source 0] (source 1) 141); try (vm_compute; reflexivity).
  - split; [|decided]. split; decided.
  - constructor; [vm_compute; reflexivity | constructor].
Defined.
Definition mallory : LoginRequest := login "mallory" "pw" "" "".
Lemma forged_state_skips_step_up_witness :
  (forall r, (AuthenticateUser (config true) up 100 mallory start).1 = Ok r -> RtAccepted r = false) /\
  exists r, (AuthenticateUser (config true) up 100 (forged mallory "x") start).1 = Ok r /\ RtAccepted r = true /\ RtRole r = "ops_admin" /\
    LgMfa (AuthenticateUser (config true) up 100 (forged mallory "x") start).2 = LgMfa start.
Proof.
  apply (forged_state_skips_step_up (config true) up 100 mallory "x" start staff (mkSessionPolicy "ops_admin" "radius" "" "" "" "" 0 0 0)); try (vm_compute; reflexivity). discriminate.
Defined.
Definition admin_db : LoginDB :=
  mkLoginDB (Ok {["root" := ("s:pw", "admin")]}) (LgIdentity start) (EnrollTOTP (Some mfa) (Ok "0123456789abcdef") "root" (Mfa.example.draws) 50 empty_mfa_db).2 None empty_log (LgPolicy start) (LgGroupRoles start).
Definition root_login : LoginRequest := login "root" "pw" (GenerateTOTP Mfa.example.secret Mfa.example.device 100) "".
Definition root_result : Result := let_in "root" "admin" [] "local" "portal-local+mfa-totp" "MFA accepted".
Definition root_done : LoginDB := (AuthenticateUser (config true) up 100 root_login admin_db).2.
Definition evaluation : FallbackEvaluationRequest := mkEvaluation "bob" "staff" "ldap" "portal" "" "" None.
Lemma outage_window_restarts_witness :
  DcOutageStartedAt (EvaluateFallbackPolicy (outage_of (config true)) evaluation 5000 (LgBroker (AuthenticatePAP down 5000 (broker_request mallory "pw" "") start).2)) = Some 5000.
Proof. apply (outage_window_restarts (config true) down 5000 (broker_request mallory "pw" "") start "timeout" evaluation); reflexivity. Defined.
End example.
