(* ===== verification/Mab.v ===== *)
(** * MAC authentication bypass ([internal/mab/mab.go], [internal/db/mab.go])

    Devices that cannot log in are let onto the network by their MAC address: from a table of endpoints with a status, or by the policy for unknown ones. The decision
    is taken by [Evaluate] for a request, and once more by the entries that the generator writes for FreeRADIUS ([renderMABAuthorizeUsers] in [radius/generator.go]).

    The database is open; [time.Parse] of RFC 3339, [json.Valid] and the order in which a map is walked are arguments. The reply attributes of the generated entries, latencies and
    the details of events are left out, as are reports and summaries. *)

From S2P Require Import Prelude GoStrings Bytes EventLog IdentityFailover.
From Stdlib Require Import Ascii.

(** Instants in whole seconds *)
Class TimeText := { parse_rfc3339 : string -> option Z; format_rfc3339 : Z -> string }.

Record MABConfig := mkMABConfig {
  MbEnabled : bool; MbMode : string; MbFailClosed : bool; MbUnknownEndpointPolicy : string; MbDefaultRole : string; MbGuestRole : string; MbQuarantineRole : string;
  MbAllowedNASPortTypes : list string; MbMACFormats : list string; MbPasswordPolicy : string; MbProfilingLinkEnabled : bool; MbEndpointInventoryFallback : bool;
  MbRevalidateIntervalSeconds : Z; MbCacheTTLSeconds : Z; MbAuditEnabled : bool; MbRetentionLimit : Z }.
Definition empty_mab_config : MABConfig := mkMABConfig false "" false "" "" "" "" [] [] "" false false 0 0 false 0.
(** [mab.Policy] has the fields of the configuration, normalized. *)
Record MabPolicy := mkMabPolicy {
  MpEnabled : bool; MpMode : string; MpFailClosed : bool; MpUnknownEndpointPolicy : string; MpDefaultRole : string; MpGuestRole : string; MpQuarantineRole : string;
  MpAllowedNASPortTypes : list string; MpMACFormats : list string; MpPasswordPolicy : string; MpProfilingLinkEnabled : bool; MpEndpointInventoryFallback : bool;
  MpRevalidateIntervalSeconds : Z; MpCacheTTLSeconds : Z; MpAuditEnabled : bool; MpRetentionLimit : Z }.

Record MABEndpoint := mkEndpoint {
  EpID : Z; EpMAC : string; EpStatus : string; EpRole : string; EpVLAN : Z; EpBandwidthProfile : string; EpACLPolicyName : string; EpTenant : string; EpDeviceGroup : string;
  EpPosture : string; EpOwner : string; EpSource : string; EpDescription : string; EpExpiresAt : string; EpLastSeenAt : string; EpProfileSnapshotJSON : string; EpUpdatedAt : Z }.
Record MABDeviceProfile := mkProfile {
  DpTenant : string; DpPlatform : string; DpDeviceType : string; DpRiskScore : Z; DpCompliant : option bool; DpComplianceStatus : string }.
Record MABEvent := mkMABEvent {
  EvMAC : string; EvMACHash : string; EvNASIdentifier : string; EvNASIPAddress : string; EvNASPort : string; EvNASPortType : string; EvCalledStationID : string; EvUsername : string;
  EvDecision : string; EvState : string; EvReason : string; EvRole : string; EvVLAN : Z; EvBandwidthProfile : string; EvACLPolicyName : string; EvTenant : string; EvDeviceGroup : string;
  EvPosture : string }.
Record AccessRequest := mkAccess {
  AqUsername : string; AqPassword : string; AqCallingStationID : string; AqCalledStationID : string; AqNASIdentifier : string; AqNASIPAddress : string; AqNASPort : string;
  AqNASPortType : string; AqEAPMessagePresent : bool }.
Record MabResult := mkMabResult {
  MrCandidate : bool; MrAccepted : bool; MrDecision : string; MrState : string; MrReason : string; MrMAC : string; MrMACHash : string; MrRole : string; MrVLAN : Z;
  MrBandwidthProfile : string; MrACLPolicyName : string; MrTenant : string; MrDeviceGroup : string; MrPosture : string; MrReplyMessage : string; MrWarnings : list string }.

(** [mab_endpoints] by MAC, as reading it gives it or the error, with the ids given out; the profiles in [device_inventory]; [mab_events] *)
Record MabDB := mkMabDB { MdbEndpoints : result string (gmap string MABEndpoint); MdbSequence : Z; MdbProfiles : gmap string MABDeviceProfile; MdbEvents : EventLog MABEvent }.

(** ** MAC addresses *)

Definition is_hex_char (c : ascii) : bool := in_range "0"%char "9"%char c || in_range "a"%char "f"%char c.
Definition is_separator (c : ascii) : bool := (c =? ":")%char || (c =? "-")%char || (c =? ".")%char.
(** The hexadecimal digits of a text of digits and separators *)
Fixpoint hex_digits (s : string) : option string :=
  match s with
  | EmptyString => Some ""
  | String c s => if is_hex_char c then String c <$> hex_digits s else if is_separator c then hex_digits s else None
  end.
(** Pairs of characters, with colons between them *)
Fixpoint colon_pairs (s : string) : string :=
  match s with
  | String a (String b s) => String a (String b (match s with EmptyString => "" | _ => String ":"%char (colon_pairs s) end))
  | s => s
  end.

Section mab.
Context {U : Unicode} {MR : MapRange} {HD : HexDigest} {TT : TimeText}.

Definition NormalizeMABMAC (value : string) : string :=
  let raw := lower_trim value in
  if (raw =? "")%string then ""
  else match hex_digits raw with Some digits => if Nat.eqb (String.length digits) 12 then colon_pairs digits else "" | None => "" end.
Definition HashMABMAC (mac : string) : string := let normalized := NormalizeMABMAC mac in if (normalized =? "")%string then "" else hex_digest normalized.

Definition format_names : list string := ["colon"; "hyphen"; "plain"; "cisco-dot"].
Definition normalizeFormats (values : list string) : list string :=
  distinct_from [] (List.filter (fun value => existsb (String.eqb value) format_names) (lower_trim <$> values)).

Definition mac_format (normalized : string) (format : string) : string :=
  let plain := RemoveAllChar normalized ":"%char in
  if (format =? "colon")%string then normalized
  else if (format =? "hyphen")%string then ReplaceAllChar normalized ":"%char "-"%char
  else if (format =? "plain")%string then plain
  else String.substring 0 4 plain +:+ "." +:+ String.substring 4 4 plain +:+ "." +:+ String.substring 8 4 plain.
Definition MACVariants (mac : string) (formats : list string) : list string :=
  let normalized := NormalizeMABMAC mac in
  if (normalized =? "")%string then []
  else
    let formats := match normalizeFormats formats with [] => format_names | formats => formats end in
    distinct_from [] (concat ((fun format => let value := TrimSpace (mac_format normalized format) in [ToLower value; ToUpper value]) <$> formats)).

(** ** The table of endpoints *)

Definition normalizeMABEndpointStatus (value : string) : string :=
  let status := lower_trim value in
  if (status =? "")%string || (status =? "pending")%string then "pending"
  else if existsb (String.eqb status) ["approved"; "quarantined"; "denied"; "expired"] then status else "".
Fixpoint firstMABString (values : list string) : string := match values with [] => "" | v :: values => if blank v then firstMABString values else TrimSpace v end.

Definition with_endpoints (db : MabDB) (endpoints : gmap string MABEndpoint) (sequence : Z) : MabDB := mkMabDB (Ok endpoints) sequence (MdbProfiles db) (MdbEvents db).
Definition UpsertMABEndpoint (json_valid : string -> bool) (e : MABEndpoint) (now : Z) (db : MabDB) : result string MABEndpoint * MabDB :=
  let mac := NormalizeMABMAC (EpMAC e) in
  let status := normalizeMABEndpointStatus (EpStatus e) in
  let snapshot := text_or (TrimSpace (EpProfileSnapshotJSON e)) "{}" in
  if (mac =? "")%string then (Err "valid endpoint MAC is required", db)
  else if (status =? "")%string then (Err "MAB endpoint status is invalid", db)
  else if negb (json_valid snapshot) then (Err "profile_snapshot_json must be valid JSON", db)
  else
    match MdbEndpoints db with
    | Err e => (Err e, db)
    | Ok endpoints =>
        let old := endpoints !! mac in
        let id := match old with Some row => EpID row | None => MdbSequence db + 1 end in
        let lastSeen := text_or (TrimSpace (EpLastSeenAt e)) (match old with Some row => EpLastSeenAt row | None => "" end) in
        let row := mkEndpoint id mac status (TrimSpace (EpRole e)) (EpVLAN e) (TrimSpace (EpBandwidthProfile e)) (TrimSpace (EpACLPolicyName e)) (TrimSpace (EpTenant e))
          (TrimSpace (EpDeviceGroup e)) (TrimSpace (EpPosture e)) (TrimSpace (EpOwner e)) (firstMABString [EpSource e; "manual"]) (TrimSpace (EpDescription e)) (TrimSpace (EpExpiresAt e))
          lastSeen snapshot now in
        (Ok row, with_endpoints db (<[mac := row]> endpoints) (match old with Some _ => MdbSequence db | None => MdbSequence db + 1 end))
    end.
Definition GetMABEndpoint (mac : string) (db : MabDB) : result string (option MABEndpoint) :=
  let normalized := NormalizeMABMAC mac in
  if (normalized =? "")%string then Ok None else endpoints ← MdbEndpoints db; Ok (endpoints !! normalized).
Definition DeleteMABEndpoint (mac : string) (db : MabDB) : result string bool * MabDB :=
  let normalized := NormalizeMABMAC mac in
  if (normalized =? "")%string then (Err "valid endpoint MAC is required", db)
  else
    match MdbEndpoints db with
    | Err e => (Err e, db)
    | Ok endpoints => (Ok (match endpoints !! normalized with Some _ => true | None => false end), with_endpoints db (delete normalized endpoints) (MdbSequence db))
    end.
Definition seen_at (at_ : Z) (e : MABEndpoint) : MABEndpoint :=
  mkEndpoint (EpID e) (EpMAC e) (EpStatus e) (EpRole e) (EpVLAN e) (EpBandwidthProfile e) (EpACLPolicyName e) (EpTenant e) (EpDeviceGroup e) (EpPosture e) (EpOwner e) (EpSource e)
    (EpDescription e) (EpExpiresAt e) (format_rfc3339 at_) (EpProfileSnapshotJSON e) at_.
Definition TouchMABEndpoint (mac : string) (at_ : Z) (db : MabDB) : MabDB :=
  let normalized := NormalizeMABMAC mac in
  if (normalized =? "")%string then db
  else match MdbEndpoints db with Err _ => db | Ok endpoints => with_endpoints db (alter (seen_at at_) normalized endpoints) (MdbSequence db) end.

(** [ORDER BY datetime(updated_at) DESC, id DESC LIMIT ?] *)
Definition endpoint_before (a b : MABEndpoint) : bool := (EpUpdatedAt b <? EpUpdatedAt a) || (EpUpdatedAt a =? EpUpdatedAt b) && (EpID b <? EpID a).
Definition ListMABEndpoints (status : string) (limit : Z) (db : MabDB) : result string (list MABEndpoint) :=
  let limit := if limit <=? 0 then 100 else if limit >? 50000 then 50000 else limit in
  let wanted := normalizeMABEndpointStatus status in
  if negb (blank status) && (wanted =? "")%string then Err "MAB endpoint status is invalid"
  else
    endpoints ← MdbEndpoints db;
    Ok (take (Z.to_nat limit) (sort_by endpoint_before (List.filter (fun e => blank status || (EpStatus e =? wanted)%string) (snd <$> range_map endpoints)))).

Definition RecordMABEvent (now : Z) (e : MABEvent) (retentionLimit : Z) (db : MabDB) : MabDB :=
  let mac := NormalizeMABMAC (EvMAC e) in
  if (mac =? "")%string then db
  else mkMabDB (MdbEndpoints db) (MdbSequence db) (MdbProfiles db) (record_event (if retentionLimit <=? 0 then 6000 else retentionLimit) now
    (mkMABEvent mac (HashMABMAC mac) (TrimSpace (EvNASIdentifier e)) (TrimSpace (EvNASIPAddress e)) (TrimSpace (EvNASPort e)) (TrimSpace (EvNASPortType e)) (TrimSpace (EvCalledStationID e))
       (TrimSpace (EvUsername e)) (firstMABString [EvDecision e; "rejected"]) (firstMABString [EvState e; "unknown"]) (firstMABString [EvReason e; "no reason recorded"]) (TrimSpace (EvRole e))
       (EvVLAN e) (TrimSpace (EvBandwidthProfile e)) (TrimSpace (EvACLPolicyName e)) (TrimSpace (EvTenant e)) (TrimSpace (EvDeviceGroup e)) (TrimSpace (EvPosture e))) (MdbEvents db)).

(** ** The policy *)

Definition EffectiveMABConfig (raw : MABConfig) : MABConfig :=
  mkMABConfig (MbEnabled raw) (text_or (MbMode raw) "monitor") (MbFailClosed raw) (text_or (MbUnknownEndpointPolicy raw) "deny") (MbDefaultRole raw) (text_or (MbGuestRole raw) "guest")
    (text_or (MbQuarantineRole raw) "quarantine") (match MbAllowedNASPortTypes raw with [] => ["ethernet"; "wireless-802.11"; "wireless80211"] | l => l end)
    (match MbMACFormats raw with [] => format_names | l => l end) (text_or (MbPasswordPolicy raw) "accept_known_mac") (MbProfilingLinkEnabled raw) (MbEndpointInventoryFallback raw)
    (number_or (MbRevalidateIntervalSeconds raw) 300) (number_or (MbCacheTTLSeconds raw) 300) (MbAuditEnabled raw) (number_or (MbRetentionLimit raw) 6000).
Definition one_of (values : list string) (fallback value : string) : string := let value := lower_trim value in if existsb (String.eqb value) values then value else fallback.
Definition normalizeUnknownPolicy : string -> string := one_of ["guest"; "quarantine"; "fail_open"] "deny".
Definition normalizePasswordPolicy : string -> string := one_of ["username_equals_password"; "calling_station_id"] "accept_known_mac".

Definition MabPolicyFromConfig (cfg : option MABConfig) : MabPolicy :=
  let raw := match cfg with Some c => EffectiveMABConfig c | None => empty_mab_config end in
  mkMabPolicy (MbEnabled raw) (normalizeMode (MbMode raw)) (MbFailClosed raw) (normalizeUnknownPolicy (MbUnknownEndpointPolicy raw)) (TrimSpace (MbDefaultRole raw)) (TrimSpace (MbGuestRole raw))
    (TrimSpace (MbQuarantineRole raw)) (distinct_normalized (MbAllowedNASPortTypes raw)) (normalizeFormats (MbMACFormats raw)) (normalizePasswordPolicy (MbPasswordPolicy raw))
    (MbProfilingLinkEnabled raw) (MbEndpointInventoryFallback raw) (MbRevalidateIntervalSeconds raw) (MbCacheTTLSeconds raw) (MbAuditEnabled raw) (MbRetentionLimit raw).

Definition normalizePortType (value : string) : string :=
  let value := ReplaceAllChar (ReplaceAllChar (lower_trim value) "_"%char "-"%char) " "%char "-"%char in
  if existsb (String.eqb value) ["wireless80211"; "wireless-80211"; "wireless-802.11"; "ieee80211"] then "wireless-802.11"
  else if existsb (String.eqb value) ["ethernet"; "ethernet-csmacd"; "15"] then "ethernet" else value.
Definition policyAllowsPortType (policy : MabPolicy) (value : string) : bool :=
  let normalized := normalizePortType value in
  (normalized =? "")%string || match MpAllowedNASPortTypes policy with [] => true | allowed => existsb (fun a => normalizePortType a =? normalized)%string allowed end.
Fixpoint firstNormalizedMAC (values : list string) : string :=
  match values with [] => "" | v :: values => let mac := NormalizeMABMAC v in if (mac =? "")%string then firstNormalizedMAC values else mac end.
Definition passwordPolicyRejects (policy : MabPolicy) (req : AccessRequest) (mac : string) : bool :=
  if (MpPasswordPolicy policy =? "username_equals_password")%string
  then negb (NormalizeMABMAC (AqUsername req) =? mac)%string || negb (NormalizeMABMAC (AqPassword req) =? mac)%string
  else if (MpPasswordPolicy policy =? "calling_station_id")%string then negb (NormalizeMABMAC (AqCallingStationID req) =? mac)%string
  else false.
Definition isExpired (raw : string) (now : Z) : bool :=
  if blank raw then false else match parse_rfc3339 (TrimSpace raw) with Some t => negb (t >? now) | None => false end.

(** ** The decision *)

Definition profileTenant (p : option MABDeviceProfile) : string := match p with Some p => TrimSpace (DpTenant p) | None => "" end.
Definition profileDeviceGroup (p : option MABDeviceProfile) : string := match p with Some p => firstMABString [DpDeviceType p; DpPlatform p] | None => "" end.
Definition profilePosture (p : option MABDeviceProfile) : string :=
  match p with
  | None => ""
  | Some p =>
      if negb (blank (DpComplianceStatus p)) then TrimSpace (DpComplianceStatus p)
      else match DpCompliant p with Some true => "compliant" | Some false => "non_compliant" | None => "" end
  end.
Definition failDecision (policy : MabPolicy) : string := if MpFailClosed policy then "rejected" else "fail_open".
Definition failOpenRole (policy : MabPolicy) : string := firstMABString [MpGuestRole policy; MpDefaultRole policy].

(** A decision without the attributes of an endpoint *)
Definition skipped_result (state reason : string) : MabResult := mkMabResult false false "skipped" state reason "" "" "" 0 "" "" "" "" "" "" [].
Definition plain_result (candidate accepted : bool) (decision state reason mac role : string) : MabResult :=
  mkMabResult candidate accepted decision state reason mac (HashMABMAC mac) role 0 "" "" "" "" "" "" [].

Definition endpointStatusDecision (policy : MabPolicy) (e : MABEndpoint) (profile : option MABDeviceProfile) (mac : string) (now : Z) : MabResult :=
  let status := if isExpired (EpExpiresAt e) now then "expired" else lower_trim (EpStatus e) in
  let decide accepted decision role reason reply :=
    mkMabResult true accepted decision status reason mac (HashMABMAC mac) role (EpVLAN e) (TrimSpace (EpBandwidthProfile e)) (TrimSpace (EpACLPolicyName e))
      (firstMABString [EpTenant e; profileTenant profile]) (TrimSpace (EpDeviceGroup e)) (firstMABString [EpPosture e; profilePosture profile]) reply [] in
  let role := firstMABString [EpRole e; MpDefaultRole policy] in
  if (status =? "approved")%string then decide true "accepted" role "endpoint is approved for MAC Authentication Bypass" "MAB accepted"
  else if (status =? "quarantined")%string then
    decide true "quarantined" (firstMABString [EpRole e; MpQuarantineRole policy; MpDefaultRole policy]) "endpoint is assigned to quarantine policy" "MAB quarantined"
  else if (status =? "denied")%string then decide false "rejected" role "endpoint is explicitly denied" ""
  else if (status =? "expired")%string then decide false "rejected" role "endpoint authorization has expired" ""
  else decide false "rejected" role "endpoint is pending approval" "".

Definition risky (p : MABDeviceProfile) : bool := (DpRiskScore p >=? 50) || EqualFold (DpComplianceStatus p) "non_compliant".
Definition unknownEndpointDecision (policy : MabPolicy) (profile : option MABDeviceProfile) (mac : string) : MabResult :=
  let decide accepted decision state role reason reply :=
    mkMabResult true accepted decision state reason mac (HashMABMAC mac) role 0 "" "" (profileTenant profile) (profileDeviceGroup profile) (profilePosture profile) reply [] in
  let quarantine := firstMABString [MpQuarantineRole policy; MpDefaultRole policy] in
  if match profile with Some p => MpProfilingLinkEnabled policy && risky p | None => false end then
    decide true "quarantined" "profile_quarantine" quarantine "unknown endpoint matched high-risk or non-compliant device profile" "MAB profile quarantine"
  else if (MpUnknownEndpointPolicy policy =? "guest")%string then
    decide true "accepted" "unknown" (failOpenRole policy) "unknown endpoint placed into guest policy" "MAB guest access"
  else if (MpUnknownEndpointPolicy policy =? "quarantine")%string then
    decide true "quarantined" "unknown" quarantine "unknown endpoint placed into quarantine policy" "MAB quarantine access"
  else if (MpUnknownEndpointPolicy policy =? "fail_open")%string then
    decide true "fail_open" "unknown" (failOpenRole policy) "unknown endpoint accepted by explicit fail-open policy" "MAB fail-open access"
  else decide false "rejected" "unknown" "" "unknown endpoint is denied by policy" "".

Definition applyMonitorMode (policy : MabPolicy) (r : MabResult) : MabResult :=
  if (MpMode policy =? "monitor")%string && MrCandidate r && negb (MrAccepted r) && ((MrDecision r =? "rejected")%string || (MrDecision r =? "unsupported")%string) then
    mkMabResult true true "monitor_allowed" (MrState r) (MrReason r) (MrMAC r) (MrMACHash r) (firstMABString [MrRole r; MpGuestRole policy; MpDefaultRole policy]) (MrVLAN r)
      (MrBandwidthProfile r) (MrACLPolicyName r) (MrTenant r) (MrDeviceGroup r) (MrPosture r) (MrReplyMessage r)
      (MrWarnings r ++ ["monitor mode allowed a request that enforce mode would deny"])
  else r.

Definition maybeRecord (policy : MabPolicy) (req : AccessRequest) (r : MabResult) (enabled : bool) (now : Z) (db : MabDB) : MabDB :=
  if negb enabled || negb (MpAuditEnabled policy) || (MrMAC r =? "")%string then db
  else RecordMABEvent now
    (mkMABEvent (MrMAC r) "" (AqNASIdentifier req) (AqNASIPAddress req) (AqNASPort req) (AqNASPortType req) (AqCalledStationID req) (AqUsername req) (MrDecision r) (MrState r) (MrReason r)
       (MrRole r) (MrVLAN r) (MrBandwidthProfile r) (MrACLPolicyName r) (MrTenant r) (MrDeviceGroup r) (MrPosture r)) (MpRetentionLimit policy) db.

Definition Evaluate (cfg : option MABConfig) (req : AccessRequest) (recordAudit : bool) (now : Z) (db : MabDB) : MabResult * MabDB :=
  let policy := MabPolicyFromConfig cfg in
  let recorded r := (r, maybeRecord policy req r recordAudit now db) in
  if negb (MpEnabled policy) then (skipped_result "disabled" "MAB is disabled", db)
  else if AqEAPMessagePresent req then (skipped_result "not_mab" "EAP-Message is present; request belongs to 802.1X", db)
  else if negb (blank (AqNASPortType req)) && negb (policyAllowsPortType policy (AqNASPortType req)) then
    recorded (plain_result false false "unsupported" "unsupported_nas_port" "NAS-Port-Type is not allowed for MAB" "" "")
  else
    let mac := firstNormalizedMAC [AqCallingStationID req; AqUsername req] in
    if (mac =? "")%string then recorded (applyMonitorMode policy (plain_result false false "rejected" "invalid_mac" "request does not contain a valid MAC identity" "" ""))
    else if passwordPolicyRejects policy req mac then
      recorded (applyMonitorMode policy (plain_result true false "rejected" "password_mismatch" "MAB password policy did not match the MAC identity" mac ""))
    else
      match GetMABEndpoint mac db with
      | Err e => recorded (applyMonitorMode policy (plain_result true (failDecision policy =? "fail_open")%string (failDecision policy) "lookup_failed" e mac (failOpenRole policy)))
      | Ok found =>
          let profile := if MpEndpointInventoryFallback policy || MpProfilingLinkEnabled policy then MdbProfiles db !! mac else None in
          let r := applyMonitorMode policy (match found with Some e => endpointStatusDecision policy e profile mac now | None => unknownEndpointDecision policy profile mac end) in
          let db := if MrAccepted r && match found with Some _ => true | None => false end then TouchMABEndpoint mac now db else db in
          (r, maybeRecord policy req r recordAudit now db)
      end.

(** ** The entries for FreeRADIUS *)

(** A user name that is accepted whatever the password, with the endpoint, its role and status *)
Record UsersEntry := mkUsersEntry { UeName : string; UeEndpoint : MABEndpoint; UeRole : string; UeStatus : string }.

Definition endpoint_entries (policy : MabPolicy) (e : MABEndpoint) : list UsersEntry :=
  let status := lower_trim (EpStatus e) in
  if negb ((status =? "approved")%string || (status =? "quarantined")%string) then []
  else
    let role := TrimSpace (EpRole e) in
    let role := if (role =? "")%string && (status =? "quarantined")%string then MpQuarantineRole policy else role in
    let role := if (role =? "")%string then MpDefaultRole policy else role in
    (fun variant => mkUsersEntry variant e role status) <$> MACVariants (EpMAC e) (MpMACFormats policy).
(** Each user name is written once. *)
Fixpoint first_entries (seen : list string) (entries : list UsersEntry) : list UsersEntry :=
  match entries with
  | [] => []
  | e :: entries => if existsb (String.eqb (UeName e)) seen then first_entries seen entries else e :: first_entries (UeName e :: seen) entries
  end.
Definition renderMABAuthorizeUsers (cfg : option MABConfig) (db : MabDB) : result string (list UsersEntry) :=
  let policy := MabPolicyFromConfig cfg in
  if negb (MpEnabled policy) then Ok []
  else
    match ListMABEndpoints "" 50000 db with
    | Err e => if Contains (ToLower e) "no such table" then Ok [] else Err ("load MAB endpoints: " +:+ e)
    | Ok endpoints => Ok (first_entries [] (concat (endpoint_entries policy <$> endpoints)))
    end.
End mab.

(** ** Spellings of an address *)

Definition mac_char (c : ascii) : bool := is_hex_char c || is_separator c.
Lemma mac_char_spec c : mac_char c = true ->
  visible_char c = true /\ visible_char (upper_char c) = true /\ lower_char c = c /\ lower_char (upper_char c) = c /\ is_ascii_char c = true /\ is_ascii_char (upper_char c) = true.
Proof. destruct c as [[] [] [] [] [] [] [] []]; vm_compute; intros H; first [discriminate H | repeat split]. Qed.
Lemma hex_char_spec c : is_hex_char c = true -> mac_char c = true /\ (c =? ":")%char = false.
Proof. destruct c as [[] [] [] [] [] [] [] []]; vm_compute; intros H; first [discriminate H | repeat split]. Qed.

Lemma hex_digits_hex s digits : hex_digits s = Some digits -> all_chars is_hex_char digits = true.
Proof.
  revert digits. induction s as [|c s IH]; intros digits; simpl; [by intros [= <-]|]. destruct (is_hex_char c) eqn:E.
  - destruct (hex_digits s) as [d|]; [|done]. intros [= <-]. simpl. by rewrite E, IH.
  - destruct (is_separator c); [apply IH | done].
Qed.

Lemma hex_digits_cons c s : is_hex_char c = true -> hex_digits (String c s) = String c <$> hex_digits s.
Proof. intros H. simpl. by rewrite H. Qed.
Lemma hex_digits_separator c s : is_hex_char c = false -> is_separator c = true -> hex_digits (String c s) = hex_digits s.
Proof. intros H H'. simpl. by rewrite H, H'. Qed.
Lemma RemoveAllChar_cons c s old : RemoveAllChar (String c s) old = if (c =? old)%char then RemoveAllChar s old else String c (RemoveAllChar s old).
Proof. done. Qed.
Lemma ReplaceAllChar_cons c s old new : ReplaceAllChar (String c s) old new = String (if (c =? old)%char then new else c) (ReplaceAllChar s old new).
Proof. done. Qed.

Lemma String_app c s t : String c s +:+ t = String c (s +:+ t).
Proof. done. Qed.
Lemma Empty_app t : "" +:+ t = t.
Proof. done. Qed.

(** Rewrites with what is known of the digits [c] *)
Ltac with_digits :=
  repeat match goal with
  | H : is_hex_char ?c = true |- context [RemoveAllChar (String ?c _) ":"%char] => rewrite (RemoveAllChar_cons c), (proj2 (hex_char_spec c H))
  | H : is_hex_char ?c = true |- context [ReplaceAllChar (String ?c _) ":"%char _] => rewrite (ReplaceAllChar_cons c), (proj2 (hex_char_spec c H))
  | |- context [RemoveAllChar (String ":"%char _) ":"%char] => rewrite (RemoveAllChar_cons ":"%char), Ascii.eqb_refl
  | |- context [ReplaceAllChar (String ":"%char _) ":"%char _] => rewrite (ReplaceAllChar_cons ":"%char), Ascii.eqb_refl
  end.
Ltac digits_of :=
  cbn [all_chars]; rewrite ?andb_true_iff; repeat split; try (by apply hex_char_spec); try done;
  repeat first [rewrite hex_digits_cons by assumption | rewrite hex_digits_separator by reflexivity]; reflexivity.

(** Every format of twelve digits is a text of digits and separators, with those digits. *)
Lemma mac_format_spec digits format : all_chars is_hex_char digits = true -> String.length digits = 12%nat -> format ∈ format_names ->
  all_chars mac_char (mac_format (colon_pairs digits) format) = true /\ hex_digits (mac_format (colon_pairs digits) format) = Some digits.
Proof.
  intros Hhex Hlen Hformat. do 12 (destruct digits as [|?c digits]; [discriminate Hlen|]). destruct digits; [|discriminate Hlen]. clear Hlen.
  cbn [all_chars] in Hhex. rewrite !andb_true_iff in Hhex. destruct Hhex as (? & ? & ? & ? & ? & ? & ? & ? & ? & ? & ? & ? & _). cbn [colon_pairs]. unfold mac_format.
  unfold format_names in Hformat. repeat (apply elem_of_cons in Hformat as [->|Hformat]); [..|by apply not_elem_of_nil in Hformat]; cbn [String.eqb Ascii.eqb Bool.eqb].
  - digits_of.
  - with_digits. digits_of.
  - with_digits. digits_of.
  - with_digits. cbn [String.substring RemoveAllChar]. rewrite !String_app, !Empty_app. digits_of.
Qed.

Section spellings.
Context {U : Unicode} {UL : UnicodeLaws}.

Lemma NormalizeMABMAC_digits value : NormalizeMABMAC value <> "" ->
  exists digits, all_chars is_hex_char digits = true /\ String.length digits = 12%nat /\ NormalizeMABMAC value = colon_pairs digits.
Proof.
  unfold NormalizeMABMAC. cbv zeta. destruct (lower_trim value =? "")%string; [done|]. destruct (hex_digits (lower_trim value)) as [digits|] eqn:E; [|done].
  destruct (Nat.eqb_spec (String.length digits) 12); [|done]. intros _. exists digits. split; [by eapply hex_digits_hex|]. done.
Qed.

(** A text of digits and separators, in lower or upper case *)
Lemma lower_trim_mac s : all_chars mac_char s = true -> TrimSpace s = s /\ lower_trim (ToLower s) = s /\ lower_trim (ToUpper s) = s.
Proof.
  intros Hs. assert (TrimSpace s = s) as Ht by (eapply TrimSpace_visible_chars, all_chars_impl; [|exact Hs]; intros c Hc; by apply mac_char_spec).
  assert (is_ascii s = true) as Ha by (eapply all_chars_impl; [|exact Hs]; intros c Hc; by apply mac_char_spec).
  assert (ToLower s = s) as Hl.
  { unfold ToLower. rewrite Ha. clear Ht Ha. induction s as [|c s IH]; simpl in *; [done|]. apply andb_true_iff in Hs as [Hc Hs]. rewrite IH by done. f_equal. by apply mac_char_spec. }
  split; [done|]. unfold lower_trim. rewrite Hl, Ht, Hl. split; [done|].
  assert (forall t, all_chars mac_char t = true -> all_chars visible_char (map_chars upper_char t) = true /\ is_ascii (map_chars upper_char t) = true /\ map_chars lower_char (map_chars upper_char t) = t) as H.
  { clear. induction t as [|c t IH]; simpl; [done|]. intros [Hc Ht]%andb_true_iff. destruct (IH Ht) as (-> & Ea & ->). destruct (mac_char_spec c Hc) as (_ & -> & _ & -> & _ & Eb).
    unfold is_ascii in *. simpl. by rewrite Eb, Ea. }
  destruct (H s Hs) as (Hv & Hu & Hid). unfold ToUpper. rewrite Ha, (TrimSpace_visible_chars _ Hv). unfold ToLower. by rewrite Hu.
Qed.

Lemma NormalizeMABMAC_spelling value s digits : lower_trim s = value -> all_chars mac_char value = true -> hex_digits value = Some digits -> String.length digits = 12%nat ->
  NormalizeMABMAC s = colon_pairs digits.
Proof. intros <- Hv Hd Hlen. unfold NormalizeMABMAC. cbv zeta. rewrite Hd, Hlen. destruct (String.eqb_spec (lower_trim s) "") as [E|]; [|done]. rewrite E in Hd. by injection Hd as <-. Qed.

Lemma NormalizeMABMAC_idem value : NormalizeMABMAC (NormalizeMABMAC value) = NormalizeMABMAC value.
Proof.
  destruct (String.eqb_spec (NormalizeMABMAC value) "") as [->|Hne]; [done|]. destruct (NormalizeMABMAC_digits value Hne) as (digits & Hhex & Hlen & ->).
  destruct (mac_format_spec digits "colon" Hhex Hlen ltac:(by left)) as [Hchars Hdigits]. change (mac_format (colon_pairs digits) "colon") with (colon_pairs digits) in *.
  eapply NormalizeMABMAC_spelling; [|exact Hchars | done..]. destruct (lower_trim_mac _ Hchars) as (Ht & Hl & _). unfold lower_trim in *. rewrite Ht.
  assert (TrimSpace (ToLower (colon_pairs digits)) = ToLower (colon_pairs digits)) as E by by apply TrimSpace_ToLower. rewrite E, ToLower_idem in Hl. exact Hl.
Qed.
Lemma firstNormalizedMAC_normal values : NormalizeMABMAC (firstNormalizedMAC values) = firstNormalizedMAC values.
Proof. induction values as [|v values IH]; simpl; [done|]. destruct (NormalizeMABMAC v =? "")%string; [exact IH | apply NormalizeMABMAC_idem]. Qed.

Lemma elem_of_formats values format : format ∈ normalizeFormats values -> format ∈ format_names.
Proof.
  unfold normalizeFormats. intros [Hin _]%elem_of_distinct_from. apply list_elem_of_In, filter_In in Hin as [_ Hin]. by apply existsb_elem in Hin.
Qed.

Lemma variant_normalizes variant mac formats : variant ∈ MACVariants mac formats -> NormalizeMABMAC mac <> "" /\ NormalizeMABMAC variant = NormalizeMABMAC mac.
Proof.
  unfold MACVariants. destruct (String.eqb_spec (NormalizeMABMAC mac) "") as [|Hmac]; [by intros ?%not_elem_of_nil|]. intros [Hin _]%elem_of_distinct_from. split; [done|].
  destruct (NormalizeMABMAC_digits mac Hmac) as (digits & Hhex & Hlen & E). rewrite E in Hin |- *. apply list_elem_of_In, in_concat in Hin as (spellings & Hs & Hin).
  apply list_elem_of_In, list_elem_of_fmap in Hs as (format & -> & Hformat). apply list_elem_of_In in Hin.
  assert (format ∈ format_names) as Hname by (destruct (normalizeFormats formats) eqn:Ef; [done|]; rewrite <- Ef in Hformat; by eapply elem_of_formats).
  destruct (mac_format_spec digits format Hhex Hlen Hname) as [Hchars Hdigits]. destruct (lower_trim_mac _ Hchars) as (Htrim & Hlower & Hupper). cbv zeta in Hin. rewrite Htrim in Hin.
  apply elem_of_cons in Hin as [->|Hin]; [by eapply NormalizeMABMAC_spelling|]. apply list_elem_of_singleton in Hin as ->. by eapply NormalizeMABMAC_spelling.
Qed.

(** Every spelling of an address that is written for FreeRADIUS reads back as that address. *)
Theorem mac_variants_roundtrip variant mac formats : variant ∈ MACVariants mac formats -> NormalizeMABMAC variant = NormalizeMABMAC mac /\ NormalizeMABMAC variant <> "".
Proof. intros H. destruct (variant_normalizes variant mac formats H) as [Hne ->]. done. Qed.
End spellings.

(** ** Who is let in *)

Section decisions.
Context {U : Unicode} {UL : UnicodeLaws} {MR : MapRange} {HD : HexDigest} {TT : TimeText}.
Implicit Types (db : MabDB) (policy : MabPolicy) (req : AccessRequest).

Lemma endpoint_accepted policy e profile mac now : MrAccepted (endpointStatusDecision policy e profile mac now) = true <->
  isExpired (EpExpiresAt e) now = false /\ lower_trim (EpStatus e) ∈ ["approved"; "quarantined"].
Proof.
  unfold endpointStatusDecision. destruct (isExpired (EpExpiresAt e) now); [by split; [|intros [? _]]|].
  destruct (String.eqb_spec (lower_trim (EpStatus e)) "approved") as [->|H1]; [split; [intros _; split; [done | by left] | done]|].
  destruct (String.eqb_spec (lower_trim (EpStatus e)) "quarantined") as [->|H2]; [split; [intros _; split; [done | right; by left] | done]|].
  split; [by repeat split_if|]. intros [_ [?|[?|?%not_elem_of_nil]%elem_of_cons]%elem_of_cons]; done.
Qed.

Definition profile_of policy mac db : option MABDeviceProfile := if MpEndpointInventoryFallback policy || MpProfilingLinkEnabled policy then MdbProfiles db !! mac else None.
Lemma unknown_accepted policy profile mac : MrAccepted (unknownEndpointDecision policy profile mac) = true <->
  (exists p, profile = Some p /\ MpProfilingLinkEnabled policy = true /\ risky p = true) \/ MpUnknownEndpointPolicy policy ∈ ["guest"; "quarantine"; "fail_open"].
Proof.
  unfold unknownEndpointDecision. rewrite !elem_of_cons, elem_of_nil.
  destruct (match profile with Some p => MpProfilingLinkEnabled policy && risky p | None => false end) eqn:Hrisky.
  - split; [intros _; left | done]. destruct profile as [p|]; [|done]. apply andb_true_iff in Hrisky as [? ?]. by exists p.
  - assert (~ exists p, profile = Some p /\ MpProfilingLinkEnabled policy = true /\ risky p = true) as Hno by (intros (p & -> & Hl & Hr); by rewrite Hl, Hr in Hrisky).
    repeat match goal with |- context [(MpUnknownEndpointPolicy policy =? ?x)%string] => destruct (String.eqb_spec (MpUnknownEndpointPolicy policy) x); [by intuition|] end.
    split; [done|]. by intuition.
Qed.

Lemma enforced_monitor policy r : MpMode policy = "enforce" -> applyMonitorMode policy r = r.
Proof. intros E. unfold applyMonitorMode. by rewrite E. Qed.

(** C21: With the policy enforced and the table readable, a device is let in exactly when its request is no 802.1X request, comes over an allowed port type, names an address
    and satisfies the password policy, and the address is that of an approved or quarantined endpoint that has not expired; or that of no endpoint, and unknown ones are let in or
    its profile is a risk. *)
Theorem mab_accepts cfg req audit now db endpoints (policy := MabPolicyFromConfig cfg) (mac := firstNormalizedMAC [AqCallingStationID req; AqUsername req]) :
  MpMode policy = "enforce" -> MdbEndpoints db = Ok endpoints ->
  MrAccepted (Evaluate cfg req audit now db).1 = true <->
  MpEnabled policy = true /\ AqEAPMessagePresent req = false /\ (blank (AqNASPortType req) = true \/ policyAllowsPortType policy (AqNASPortType req) = true) /\ mac <> "" /\
  passwordPolicyRejects policy req mac = false /\
  match endpoints !! mac with
  | Some e => isExpired (EpExpiresAt e) now = false /\ lower_trim (EpStatus e) ∈ ["approved"; "quarantined"]
  | None => (exists p, profile_of policy mac db = Some p /\ MpProfilingLinkEnabled policy = true /\ risky p = true) \/ MpUnknownEndpointPolicy policy ∈ ["guest"; "quarantine"; "fail_open"]
  end.
Proof.
  intros Hmode Hdb. unfold Evaluate. fold policy. fold mac. destruct (MpEnabled policy); [|by split; [|intros [? _]]]. cbn [negb].
  destruct (AqEAPMessagePresent req); [by split; [|intros (_ & ? & _)]|].
  destruct (blank (AqNASPortType req)) eqn:Hblank; cbn [negb andb]; [|destruct (policyAllowsPortType policy (AqNASPortType req)) eqn:Hport; cbn [negb]].
  3:{ split; [done|]. by intros (_ & _ & [?|?] & _). }
  all: rewrite !enforced_monitor by done; destruct (String.eqb_spec mac "") as [Emac|Hmac]; [by split; [|intros (_ & _ & _ & ? & _)]|];
    (destruct (passwordPolicyRejects policy req mac); [by split; [|intros (_ & _ & _ & _ & ? & _)]|]);
    unfold GetMABEndpoint; rewrite (firstNormalizedMAC_normal _ : NormalizeMABMAC mac = mac), Hdb; apply String.eqb_neq in Hmac as Hmac'; rewrite Hmac'; cbn [mbind result_bind fst];
    rewrite enforced_monitor by done; fold (profile_of policy mac db); destruct (endpoints !! mac) as [e|]; cbn [fst];
    rewrite ?endpoint_accepted, ?unknown_accepted; intuition.
Qed.

Lemma first_entries_names name : forall entries seen, name ∈ UeName <$> entries -> name ∉ seen -> name ∈ UeName <$> first_entries seen entries.
Proof.
  induction entries as [|e entries IH]; intros seen Hin Hseen; [by apply not_elem_of_nil in Hin|]. rewrite fmap_cons in Hin. simpl.
  destruct (existsb (String.eqb (UeName e)) seen) eqn:E.
  - apply existsb_elem in E. apply elem_of_cons in Hin as [->|Hin]; [done|]. by apply IH.
  - rewrite fmap_cons. apply elem_of_cons. destruct (decide (name = UeName e)) as [->|Hne]; [by left|]. right. apply elem_of_cons in Hin as [->|Hin]; [done|]. apply IH; [done|].
    by intros [->|?]%elem_of_cons.
Qed.

Lemma listed_endpoints db endpoints : MdbEndpoints db = Ok endpoints -> Z.of_nat (size endpoints) <= 50000 ->
  exists l, ListMABEndpoints "" 50000 db = Ok l /\ forall mac e, endpoints !! mac = Some e -> e ∈ l.
Proof.
  intros Hdb Hsize. unfold ListMABEndpoints. rewrite Hdb. change (50000 <=? 0) with false. change (50000 >? 50000) with false. change (blank "") with true. cbn [negb andb orb mbind result_bind].
  eexists. split; [reflexivity|]. intros mac e He. assert (forall l : list MABEndpoint, List.filter (fun _ => true) l = l) as -> by (induction l as [|x l IH]; simpl; congruence).
  rewrite take_ge.
  - rewrite sort_by_perm. apply list_elem_of_fmap. exists (mac, e). split; [done|]. by apply elem_of_range_map.
  - rewrite sort_by_perm, length_fmap, (Permutation_length (range_map_perm endpoints)). rewrite length_map_to_list. lia.
Qed.

(** An approved endpoint whose time is over is refused by [Evaluate], and still has its entries in the file for FreeRADIUS, which lets it in whatever the password. *)
Theorem generated_entries_outlive_endpoint cfg db endpoints mac e variant now req audit (policy := MabPolicyFromConfig cfg) :
  MpEnabled policy = true -> MpMode policy = "enforce" -> MdbEndpoints db = Ok endpoints -> Z.of_nat (size endpoints) <= 50000 ->
  endpoints !! mac = Some e -> EpMAC e = mac -> NormalizeMABMAC mac = mac -> lower_trim (EpStatus e) = "approved" -> isExpired (EpExpiresAt e) now = true ->
  variant ∈ MACVariants mac (MpMACFormats policy) -> AqCallingStationID req = variant ->
  (exists entries, renderMABAuthorizeUsers cfg db = Ok entries /\ variant ∈ UeName <$> entries) /\ MrAccepted (Evaluate cfg req audit now db).1 = false.
Proof.
  intros Henabled Hmode Hdb Hsize He Emac Hmac Hstatus Hexpired Hvariant Hreq. destruct (variant_normalizes _ _ _ Hvariant) as [Hne Hnormal]. rewrite Hmac in Hne, Hnormal. split.
  - destruct (listed_endpoints db endpoints Hdb Hsize) as (l & Hl & Hlisted). unfold renderMABAuthorizeUsers. fold policy. rewrite Henabled, Hl. cbn [negb]. eexists. split; [reflexivity|].
    apply first_entries_names; [|apply not_elem_of_nil]. apply list_elem_of_fmap. exists (mkUsersEntry variant e
      (let role := TrimSpace (EpRole e) in let role := if (role =? "")%string && false then MpQuarantineRole policy else role in if (role =? "")%string then MpDefaultRole policy else role) "approved").
    split; [done|]. apply list_elem_of_In, in_concat. exists (endpoint_entries policy e). split.
    + apply list_elem_of_In, list_elem_of_fmap. exists e. split; [done|]. by eapply Hlisted.
    + apply list_elem_of_In. unfold endpoint_entries. rewrite Hstatus. cbn [String.eqb Ascii.eqb Bool.eqb orb negb]. apply list_elem_of_fmap. exists variant. split; [done|]. by rewrite Emac.
  - unfold Evaluate. fold policy. rewrite Henabled. cbn [negb]. destruct (AqEAPMessagePresent req); [done|]. destruct (negb _ && negb _); [done|]. cbn [firstNormalizedMAC]. rewrite Hreq, Hnormal.
    apply String.eqb_neq in Hne. rewrite Hne, Hne, !enforced_monitor by done. destruct (passwordPolicyRejects policy req mac); [done|]. unfold GetMABEndpoint. rewrite Hmac, Hne, Hdb. cbn [mbind result_bind].
    rewrite He, enforced_monitor by done. cbn [fst]. unfold endpointStatusDecision. by rewrite Hexpired.
Qed.
End decisions.

(** ** Examples *)

(** Times written as their seconds *)
#[export] Instance decimal_times : TimeText | 100 := {| parse_rfc3339 := Atoi; format_rfc3339 := Itoa |}.

Module example.
#[local] Instance plain_digest : HexDigest := fun text => "sha256:" +:+ text.
Definition config : option MABConfig := Some (mkMABConfig true "enforce" true "" "" "" "" [] ["colon"; "cisco-dot"] "username_equals_password" true true 0 0 true 0).
Definition endpoint (mac status expires : string) : MABEndpoint := mkEndpoint 0 mac status "printer" 30 "" "" "" "" "" "" "" "" expires "" "" 0.
Definition upsert (e : MABEndpoint) (at_ : Z) (db : MabDB) : MabDB := (UpsertMABEndpoint (fun _ => true) e at_ db).2.
Definition start : MabDB := upsert (endpoint "AA-BB-CC-00-11-22" "Approved" "500") 10 (upsert (endpoint "aabb.cc00.1133" "" "") 20 (mkMabDB (Ok ∅) 0 {["aa:bb:cc:00:11:44" := mkProfile "" "" "" 80 None ""]} empty_log)).
Definition mac : string := "aa:bb:cc:00:11:22".
Definition device (name : string) : AccessRequest := mkAccess name name name "" "" "" "" "Ethernet" false.

Example spellings : MACVariants "AABB.CC00.1122" ["colon"; "cisco-dot"] = ["aa:bb:cc:00:11:22"; "AA:BB:CC:00:11:22"; "aabb.cc00.1122"; "AABB.CC00.1122"].
Proof. vm_compute. reflexivity. Qed.
Definition outcome (name : string) (at_ : Z) : bool * string := let r := (Evaluate config (device name) true at_ start).1 in (MrAccepted r, MrReason r).
(** The printer, before and after its time; an endpoint that is still pending; an unknown device, and one with a risk. *)
Example outcomes :
  outcome "AABBCC001122" 499 = (true, "endpoint is approved for MAC Authentication Bypass") /\ outcome "AABBCC001122" 500 = (false, "endpoint authorization has expired")
  /\ outcome "AABBCC001133" 100 = (false, "endpoint is pending approval") /\ outcome "AABBCC001155" 100 = (false, "unknown endpoint is denied by policy")
  /\ outcome "AABBCC001144" 100 = (true, "unknown endpoint matched high-risk or non-compliant device profile").
Proof. vm_compute. repeat split. Qed.

Lemma mac_variants_roundtrip_witness : NormalizeMABMAC "AABB.CC00.1122" = NormalizeMABMAC "aa-bb-cc-00-11-22" /\ NormalizeMABMAC "AABB.CC00.1122" <> "".
Proof. apply (mac_variants_roundtrip "AABB.CC00.1122" "aa-bb-cc-00-11-22" ["cisco-dot"]). decided. Defined.
Definition stored : gmap string MABEndpoint := match MdbEndpoints start with Ok m => m | Err _ => ∅ end.
Lemma mab_accepts_witness : MrAccepted (Evaluate config (device mac) true 499 start).1 = true.
Proof.
  apply (mab_accepts config (device mac) true 499 start stored); [vm_compute; reflexivity | vm_compute; reflexivity|].
  split; [vm_compute; reflexivity|]. split; [reflexivity|]. split; [right; vm_compute; reflexivity|]. split; [vm_compute; discriminate|]. split; [vm_compute; reflexivity|].
  vm_compute. split; [reflexivity | left].
Defined.
Definition printer : MABEndpoint := default (endpoint "" "" "") (stored !! mac).
Lemma generated_entries_outlive_endpoint_witness :
  (exists entries, renderMABAuthorizeUsers config start = Ok entries /\ mac ∈ UeName <$> entries) /\ MrAccepted (Evaluate config (device mac) true 1000 start).1 = false.
Proof.
  apply (generated_entries_outlive_endpoint config start stored mac printer mac 1000 (device mac) true); try (vm_compute; reflexivity); [vm_compute; discriminate | decided].
Defined.
End example.
