(* ===== verification/AccountingEvents.v ===== *)
(** * Accounting events ([internal/db/accounting_events.go], [internal/db/accounting_counters.go])

    A ledger keeps each accounting packet once; applying a packet merges it into its session's row, in
    whatever order packets arrive, are repeated or replayed. Octet counters come as 32-bit halves and are
    64 bits wide. The texts of times are the interface [TimeText]; an instant is a number of nanoseconds
    since 1970. The columns that describe address assignments, services and charging, which the merge
    does not read, are left out; address texts are taken as the address normalisation leaves them. The
    database takes the statements, except that those after the session's may fail. *)

From S2P Require Import Prelude GoStrings Bytes.

(** ** Times *)

(** Go's zero time: the first instant of the year 1. *)
Definition zero_time : Z := -62135596800 * 1000000000.

(** The layouts the code reads, [time.RFC3339Nano] as it is written, and the instants whose year has four digits. *)
Class TimeText := {
  parse_layouts : string -> option Z;
  rfc3339nano : Z -> string;
  four_digit_year : Z -> bool;
}.

(** What is written reads back, and is a text without spaces around it. *)
Class TimeTextLaws `{TimeText} := {
  parse_rfc3339nano t : four_digit_year t = true -> parse_layouts (rfc3339nano t) = Some t;
  rfc3339nano_trimmed t : four_digit_year t = true -> TrimSpace (rfc3339nano t) = rfc3339nano t /\ rfc3339nano t <> "";
}.

Definition max_uint64 : Z := 2 ^ 64 - 1.
Definition max_int64 : Z := 2 ^ 63 - 1.
Definition low32_mask : Z := 4294967295.   (** [accountingCounterLow32Mask] *)
Definition wrap_uint64 (z : Z) : Z := z mod 2 ^ 64.
Definition wrap_int64 (z : Z) : Z := (z + 2 ^ 63) mod 2 ^ 64 - 2 ^ 63.

Definition boundedUint64ToInt64 (value : Z) : Z := if value >? max_int64 then max_int64 else value.
Definition maxUint64 (a b : Z) : Z := if b >? a then b else a.
Definition maxInt64 (a b : Z) : Z := if b >? a then b else a.

Fixpoint firstNonEmptyString (values : list string) : string :=
  match values with
  | [] => ""
  | value :: values' => if negb (TrimSpace value =? "")%string then TrimSpace value else firstNonEmptyString values'
  end.

(** [nullIfEmpty] written and read back with [COALESCE(..., '')]. *)
Definition stored_text (value : string) : string := TrimSpace value.

(** ** Counters *)

Record CounterParts := mkCounterParts {
  Low32 : Z; Gigawords : Z; Total : Z; Rollover : bool; CpStatus : string; CpError : string }.

Definition normalizeCounterParts (rawOctets rawGigawords : Z) : CounterParts :=
  if rawGigawords >? low32_mask then
    mkCounterParts (Z.land rawOctets low32_mask) low32_mask max_uint64 true "overflow"
      ("gigawords value " +:+ Itoa rawGigawords +:+ " exceeds 32-bit high-counter range")
  else if rawGigawords >? 0 then
    let low := Z.land rawOctets low32_mask in
    mkCounterParts low rawGigawords (wrap_uint64 (wrap_uint64 (Z.shiftl rawGigawords 32) + low)) true "gigaword" ""
  else if rawOctets >? low32_mask then
    let giga := Z.shiftr rawOctets 32 in
    mkCounterParts (Z.land rawOctets low32_mask) giga rawOctets (giga >? 0) (if giga >? 0 then "gigaword" else "ok") ""
  else mkCounterParts rawOctets 0 rawOctets false "ok" "".

(** [strconv.ParseUint] in base 10: digits only, below 2^64; an error is zero. *)
Definition uint64FromCounterText (value : string) : Z :=
  let value := TrimSpace value in
  if (value =? "")%string then 0
  else match decimal_value 0 value with
       | Some parsed => if parsed >? max_uint64 then 0 else parsed
       | None => 0
       end.

Section accounting.
Context {U : Unicode} {T : TimeText} {HD : HexDigest}.

(** The loop of [combineCounterStatus], with the status so far. *)
Fixpoint combine_status (status : string) (values : list string) : string :=
  match values with
  | [] => status
  | value :: values' =>
      let value := lower_trim value in
      if (value =? "overflow")%string then "overflow"
      else if (value =? "reset_detected")%string then combine_status "reset_detected" values'
      else if (value =? "gigaword")%string && (status =? "ok")%string then combine_status "gigaword" values'
      else combine_status status values'
  end.
Definition combineCounterStatus (values : list string) : string := combine_status "ok" values.

(** The counter fields of an event. *)
Record Counters := mkCounters {
  InputOctets : Z; InputGigawords : Z; InputOctets64 : string; OutputOctets : Z; OutputGigawords : Z; OutputOctets64 : string;
  CounterStatus : string; CounterError : string; ResetDetected : bool; RolloverDetected : bool }.

(** The nine results: low octets, gigawords and total of each direction, the status, the error, and whether a counter rolled over. *)
Definition NormalizeAccountingCounters (inputOctets inputGigawords outputOctets outputGigawords : Z)
    : CounterParts * CounterParts * string * string * bool :=
  let input := normalizeCounterParts inputOctets inputGigawords in
  let output := normalizeCounterParts outputOctets outputGigawords in
  (input, output, combineCounterStatus [CpStatus input; CpStatus output], firstNonEmptyString [CpError input; CpError output],
   Rollover input || Rollover output).

Definition normalizeAccountingEventCounterFields (c : Counters) : Counters :=
  let '(input, output, status, errText, rollover) := NormalizeAccountingCounters (InputOctets c) (InputGigawords c) (OutputOctets c) (OutputGigawords c) in
  let combined := combineCounterStatus [CounterStatus c; status] in
  mkCounters (Low32 input) (Gigawords input) (Itoa (Total input)) (Low32 output) (Gigawords output) (Itoa (Total output))
    (if (combined =? "")%string then "ok" else combined) (firstNonEmptyString [CounterError c; errText])
    (ResetDetected c) (RolloverDetected c || rollover).

Definition counter_total (octets64 : string) (gigawords octets : Z) : Z :=
  let total := uint64FromCounterText octets64 in
  if total >? 0 then total else wrap_uint64 (wrap_uint64 (Z.shiftl gigawords 32) + Z.land octets low32_mask).
Definition accountingEventInputTotal64 (c : Counters) : Z := counter_total (InputOctets64 c) (InputGigawords c) (InputOctets c).
Definition accountingEventOutputTotal64 (c : Counters) : Z := counter_total (OutputOctets64 c) (OutputGigawords c) (OutputOctets c).

(** ** Times as texts *)

(** The layouts that fail leave the zero time. *)
Definition parseAccountingTime (value : string) : Z :=
  let value := TrimSpace value in if (value =? "")%string then zero_time else default zero_time (parse_layouts value).
Definition IsZero (t : Z) : bool := t =? zero_time.
Definition formatAccountingTime (t : Z) : string := if IsZero t then "" else rfc3339nano t.
Definition normalizeAccountingTimeString (value : string) : string :=
  let value := TrimSpace value in
  if (value =? "")%string then "" else let parsed := parseAccountingTime value in if IsZero parsed then value else formatAccountingTime parsed.

Definition minAccountingTime (a b : string) : string :=
  let a := normalizeAccountingTimeString a in
  let b := normalizeAccountingTimeString b in
  if (a =? "")%string then b else if (b =? "")%string then a
  else
    let pa := parseAccountingTime a in
    let pb := parseAccountingTime b in
    if negb (IsZero pa) && negb (IsZero pb) then if pb <? pa then b else a
    else if string_less b a then b else a.

Definition maxAccountingTime (a b : string) : string :=
  let a := normalizeAccountingTimeString a in
  let b := normalizeAccountingTimeString b in
  if (a =? "")%string then b else if (b =? "")%string then a
  else
    let pa := parseAccountingTime a in
    let pb := parseAccountingTime b in
    if negb (IsZero pa) && negb (IsZero pb) then if pb >? pa then b else a
    else if string_less a b then b else a.

(** ** Events *)

(** The texts that name the user, the device and the addresses *)
Record Names := mkNames {
  Username : string; NASIPAddress : string; NASPortID : string; CallingStationID : string; CalledStationID : string;
  FramedIPAddress : string; FramedIPv6Address : string; FramedIPv6Prefix : string; DelegatedIPv6Prefix : string;
  FramedInterfaceID : string; FramedRoute : string; FramedIPv6Route : string; ClassText : string }.

(** [AccountingEventRecord]; [EvRow] is the row's id. *)
Record Event := mkEvent {
  EvRow : Z; EventID : string; AcctUniqueID : string; AcctSessionID : string; SessionKey : string; StatusType : string; EventTime : string;
  EvNames : Names; EvCounters : Counters; AcctSessionTime : Z; AcctTerminateCause : string; Source : string;
  ApplyStatus : string; OrderingStatus : string; DuplicateCount : Z }.

Definition canonicalAccountingStatus (value : string) : string :=
  let value := lower_trim value in
  if bool_decide (value ∈ ["start"; "acct-start"]) then "Start"
  else if bool_decide (value ∈ ["interim-update"; "interim"; "update"; "acct-interim-update"]) then "Interim-Update"
  else if bool_decide (value ∈ ["stop"; "acct-stop"]) then "Stop"
  else if bool_decide (value ∈ ["accounting-on"; "acct-on"]) then "Accounting-On"
  else if bool_decide (value ∈ ["accounting-off"; "acct-off"]) then "Accounting-Off"
  else "Unknown".

Definition nul : string := String (Ascii.ascii_of_nat 0) "".

Definition FreeRADIUSAcctUniqueID (parts : list string) : string := String.substring 0 32 (hex_digest (Join (lower_trim <$> parts) nul)).

Definition trim_names (n : Names) : Names :=
  mkNames (TrimSpace (Username n)) (TrimSpace (NASIPAddress n)) (TrimSpace (NASPortID n)) (TrimSpace (CallingStationID n)) (TrimSpace (CalledStationID n))
    (TrimSpace (FramedIPAddress n)) (TrimSpace (FramedIPv6Address n)) (TrimSpace (FramedIPv6Prefix n)) (TrimSpace (DelegatedIPv6Prefix n))
    (TrimSpace (FramedInterfaceID n)) (TrimSpace (FramedRoute n)) (TrimSpace (FramedIPv6Route n)) (TrimSpace (ClassText n)).

Definition trim_counters (c : Counters) : Counters :=
  mkCounters (InputOctets c) (InputGigawords c) (InputOctets64 c) (OutputOctets c) (OutputGigawords c) (OutputOctets64 c)
    (TrimSpace (CounterStatus c)) (TrimSpace (CounterError c)) (ResetDetected c) (RolloverDetected c).

Definition normalizeAccountingEventRecordForHash (e : Event) : Event :=
  mkEvent (EvRow e) (TrimSpace (EventID e)) (TrimSpace (AcctUniqueID e)) (TrimSpace (AcctSessionID e)) (TrimSpace (SessionKey e))
    (canonicalAccountingStatus (StatusType e)) (normalizeAccountingTimeString (EventTime e)) (trim_names (EvNames e))
    (normalizeAccountingEventCounterFields (trim_counters (EvCounters e))) (if AcctSessionTime e <? 0 then 0 else AcctSessionTime e)
    (TrimSpace (AcctTerminateCause e)) (firstNonEmptyString [Source e; "aegis"]) (TrimSpace (ApplyStatus e)) (TrimSpace (OrderingStatus e))
    (DuplicateCount e).

Definition AccountingEventID (e : Event) : string :=
  let e := normalizeAccountingEventRecordForHash e in
  let n := EvNames e in
  let c := EvCounters e in
  "acct-" +:+ String.substring 0 32 (hex_digest (Join
    [AcctUniqueID e; AcctSessionID e; SessionKey e; StatusType e; EventTime e; NASIPAddress n; NASPortID n; CallingStationID n; CalledStationID n;
     FramedIPAddress n; FramedIPv6Address n; FramedIPv6Prefix n; DelegatedIPv6Prefix n; FramedInterfaceID n; FramedRoute n; FramedIPv6Route n;
     Itoa (InputOctets c); Itoa (InputGigawords c); InputOctets64 c; Itoa (OutputOctets c); Itoa (OutputGigawords c); OutputOctets64 c;
     Itoa (AcctSessionTime e); ToLower (AcctTerminateCause e); ToLower (Source e)] nul)).

Definition or_text (value fallback : string) : string := if (value =? "")%string then fallback else value.

(** The fields the event lacks are filled in one after the other. *)
Definition normalizeAccountingEventRecord (now : Z) (e : Event) : Event :=
  let e := normalizeAccountingEventRecordForHash e in
  let n := EvNames e in
  let time := or_text (EventTime e) (formatAccountingTime now) in
  let unique := or_text (AcctUniqueID e) (FreeRADIUSAcctUniqueID [AcctSessionID e; Username n; NASIPAddress n; NASPortID n; CallingStationID n]) in
  let session := or_text (AcctSessionID e) unique in
  let key := or_text (SessionKey e) (firstNonEmptyString [session; unique]) in
  let with_id id := mkEvent (EvRow e) id unique session key (StatusType e) time n (EvCounters e) (AcctSessionTime e) (AcctTerminateCause e)
    (Source e) (or_text (ApplyStatus e) "pending") (or_text (OrderingStatus e) "in_order") (DuplicateCount e) in
  with_id (or_text (EventID e) (AccountingEventID (mkEvent (EvRow e) (EventID e) unique session key (StatusType e) time n (EvCounters e)
    (AcctSessionTime e) (AcctTerminateCause e) (Source e) (ApplyStatus e) (OrderingStatus e) (DuplicateCount e)))).

(** ** Sessions *)

(** [accountingSessionSnapshot]; a session that does not exist is the empty one. *)
Record Snapshot := mkSnapshot {
  SnUsername : string; SnMAC : string; SnIP : string; SnAuthMethod : string; SnStartTime : string; SnLastActivity : string; SnEndTime : string;
  SnStopReason : string; SnRadiusSessionID : string; SnBytesIn : Z; SnBytesOut : Z; SnAcctSessionTime : Z; SnCalledStationID : string;
  SnNASIdentifier : string; SnRadiusClass : string; SnIPv6Address : string; SnIPv6Prefix : string; SnDelegatedPrefix : string;
  SnInterfaceID : string; SnFramedRoute : string; SnFramedIPv6Route : string }.

Definition no_session : Snapshot := mkSnapshot "" "" "" "" "" "" "" "" "" 0 0 0 "" "" "" "" "" "" "" "" "".

(** What [loadAccountingSessionSnapshot] reads after [upsertAccountingSession] wrote it. *)
Definition upsertAccountingSession (s : Snapshot) : Snapshot :=
  mkSnapshot (firstNonEmptyString [SnUsername s; "unknown"]) (stored_text (SnMAC s)) (stored_text (SnIP s)) (stored_text (SnAuthMethod s))
    (normalizeAccountingTimeString (SnStartTime s)) (normalizeAccountingTimeString (stored_text (SnLastActivity s)))
    (normalizeAccountingTimeString (stored_text (SnEndTime s))) (stored_text (SnStopReason s)) (stored_text (SnRadiusSessionID s))
    (maxInt64 (boundedUint64ToInt64 (SnBytesIn s)) 0) (maxInt64 (boundedUint64ToInt64 (SnBytesOut s)) 0) (maxInt64 (SnAcctSessionTime s) 0)
    (stored_text (SnCalledStationID s)) (stored_text (SnNASIdentifier s)) (stored_text (SnRadiusClass s)) (stored_text (SnIPv6Address s))
    (stored_text (SnIPv6Prefix s)) (stored_text (SnDelegatedPrefix s)) (stored_text (SnInterfaceID s)) (stored_text (SnFramedRoute s))
    (stored_text (SnFramedIPv6Route s)).

Definition merged_start (current : Snapshot) (e : Event) (eventTime : string) : string :=
  let start := or_text (SnStartTime current) eventTime in
  let start :=
    if negb (StatusType e =? "Start")%string && (AcctSessionTime e >? 0) then
      let derived := parseAccountingTime eventTime - wrap_int64 (AcctSessionTime e * 1000000000) in
      if IsZero derived then start else minAccountingTime start (formatAccountingTime derived)
    else start in
  if (StatusType e =? "Start")%string then minAccountingTime start eventTime else start.

Definition merged_end (current : Snapshot) (e : Event) (eventTime : string) : string * string :=
  if (StatusType e =? "Stop")%string then
    let endTime := maxAccountingTime (SnEndTime current) eventTime in
    (endTime,
     if negb (TrimSpace (AcctTerminateCause e) =? "")%string && (endTime =? eventTime)%string then TrimSpace (AcctTerminateCause e)
     else or_text (SnStopReason current) "accounting-stop")
  else (SnEndTime current, SnStopReason current).

Definition mergeAccountingSessionSnapshot (current : Snapshot) (now : Z) (e : Event) : Snapshot :=
  let eventTime := or_text (normalizeAccountingTimeString (EventTime e)) (formatAccountingTime now) in
  let lastActivity := or_text (maxAccountingTime (SnLastActivity current) eventTime) eventTime in
  let '(endTime, stopReason) := merged_end current e eventTime in
  let n := EvNames e in
  mkSnapshot (firstNonEmptyString [Username n; SnUsername current; "unknown"]) (firstNonEmptyString [CallingStationID n; SnMAC current])
    (firstNonEmptyString [FramedIPAddress n; SnIP current]) (firstNonEmptyString [SnAuthMethod current; "radius-accounting"])
    (merged_start current e eventTime) lastActivity endTime stopReason (firstNonEmptyString [AcctSessionID e; SnRadiusSessionID current])
    (maxUint64 (SnBytesIn current) (accountingEventInputTotal64 (EvCounters e))) (maxUint64 (SnBytesOut current) (accountingEventOutputTotal64 (EvCounters e)))
    (maxInt64 (SnAcctSessionTime current) (AcctSessionTime e)) (firstNonEmptyString [CalledStationID n; SnCalledStationID current])
    (firstNonEmptyString [NASIPAddress n; SnNASIdentifier current]) (firstNonEmptyString [ClassText n; SnRadiusClass current])
    (firstNonEmptyString [FramedIPv6Address n; SnIPv6Address current]) (firstNonEmptyString [FramedIPv6Prefix n; SnIPv6Prefix current])
    (firstNonEmptyString [DelegatedIPv6Prefix n; SnDelegatedPrefix current]) (firstNonEmptyString [FramedInterfaceID n; SnInterfaceID current])
    (firstNonEmptyString [FramedRoute n; SnFramedRoute current]) (firstNonEmptyString [FramedIPv6Route n; SnFramedIPv6Route current]).

(** ** The ledger *)

(** The tables [radius_accounting_events], by event id, and [sessions]. *)
Record Ledger := mkLedger { Rows : gmap string Event; NextRow : Z; Sessions : gmap string Snapshot }.

Inductive accounting_error :=
| EventIDEmpty
| SessionKeyEmpty
| NoSuchEvent
| SessionIDEmpty
| StatementFailed.

Definition with_duplicate (e : Event) : Event :=
  mkEvent (EvRow e) (EventID e) (AcctUniqueID e) (AcctSessionID e) (SessionKey e) (StatusType e) (EventTime e) (EvNames e) (EvCounters e)
    (AcctSessionTime e) (AcctTerminateCause e) (Source e) (ApplyStatus e) (OrderingStatus e) (DuplicateCount e + 1).
Definition with_row (row : Z) (e : Event) : Event :=
  mkEvent row (EventID e) (AcctUniqueID e) (AcctSessionID e) (SessionKey e) (StatusType e) (EventTime e) (EvNames e) (EvCounters e)
    (AcctSessionTime e) (AcctTerminateCause e) (Source e) (ApplyStatus e) (OrderingStatus e) (DuplicateCount e).
Definition with_counters (c : Counters) (e : Event) : Event :=
  mkEvent (EvRow e) (EventID e) (AcctUniqueID e) (AcctSessionID e) (SessionKey e) (StatusType e) (EventTime e) (EvNames e) c
    (AcctSessionTime e) (AcctTerminateCause e) (Source e) (ApplyStatus e) (OrderingStatus e) (DuplicateCount e).
Definition with_marks (apply ordering : string) (e : Event) : Event :=
  mkEvent (EvRow e) (EventID e) (AcctUniqueID e) (AcctSessionID e) (SessionKey e) (StatusType e) (EventTime e) (EvNames e) (EvCounters e)
    (AcctSessionTime e) (AcctTerminateCause e) (Source e) apply ordering (DuplicateCount e).

(** The row stored and whether it was there before. *)
Definition IngestAccountingEvent (now : Z) (e : Event) (l : Ledger) : result accounting_error (Event * bool * Ledger) :=
  let e := normalizeAccountingEventRecord now e in
  if (EventID e =? "")%string then Err EventIDEmpty
  else if (SessionKey e =? "")%string then Err SessionKeyEmpty
  else match Rows l !! EventID e with
  | Some row => let row := with_duplicate row in Ok (row, true, mkLedger (<[EventID e := row]> (Rows l)) (NextRow l) (Sessions l))
  | None => let row := with_row (NextRow l) e in Ok (row, false, mkLedger (<[EventID e := row]> (Rows l)) (NextRow l + 1) (Sessions l))
  end.

(** [MAX(event_time)] compares texts. *)
Definition text_max (values : list string) : string := foldr (fun v best => if string_less best v then v else best) "" values.

Definition classifyAccountingEventOrdering (e : Event) (l : Ledger) : string :=
  let eventTime := parseAccountingTime (EventTime e) in
  if IsZero eventTime then "unknown"
  else
    let endTime := default "" (SnEndTime <$> Sessions l !! SessionKey e) in
    if (StatusType e =? "Stop")%string && negb (TrimSpace endTime =? "")%string
       && (IsZero (parseAccountingTime endTime) || negb (parseAccountingTime endTime =? eventTime))
    then "late_stop"
    else
      let others := List.filter (fun r => (SessionKey r =? SessionKey e)%string && (ApplyStatus r =? "applied")%string && negb (EvRow r =? EvRow e))
                      (map_to_list (Rows l)).*2 in
      let latestTime := parseAccountingTime (text_max (EventTime <$> others)) in
      if negb (IsZero latestTime) && (eventTime <? latestTime) then
        if (StatusType e =? "Start")%string then "late_start" else "reordered"
      else "in_order".

Definition classifyAccountingEventCounters (current : option Snapshot) (now : Z) (e : Event) : Event :=
  let e := normalizeAccountingEventRecord now e in
  match current with
  | None => e
  | Some s =>
      let c := EvCounters e in
      if (StatusType e =? "Start")%string
         || negb ((SnBytesIn s >? accountingEventInputTotal64 c) || (SnBytesOut s >? accountingEventOutputTotal64 c)) then e
      else with_counters (mkCounters (InputOctets c) (InputGigawords c) (InputOctets64 c) (OutputOctets c) (OutputGigawords c) (OutputOctets64 c)
             (combineCounterStatus [CounterStatus c; "reset_detected"])
             (if (TrimSpace (CounterError c) =? "")%string
              then "counter reset detected for session " +:+ SessionKey e +:+ ": current input/output " +:+ Itoa (SnBytesIn s) +:+ "/" +:+ Itoa (SnBytesOut s)
                   +:+ " exceeds event input/output " +:+ Itoa (accountingEventInputTotal64 c) +:+ "/" +:+ Itoa (accountingEventOutputTotal64 c)
              else CounterError c) true (RolloverDetected c)) e
  end.

(** A statement that fails: the first update of the event's row, the session's statement, or a later one. *)
Inductive fault := NoFault | CountersFail | SessionFails | LaterFails.

(** Updates of an event's row, by its id. *)
Definition alter_row (f : Event -> Event) (e : Event) (l : Ledger) : Ledger := mkLedger (alter f (EventID e) (Rows l)) (NextRow l) (Sessions l).

Record ApplyRowResult := mkApplyRowResult { RrCreated : Z; RrUpdated : Z; RrClosed : Z; RrOrdering : string }.

(** What is done with the ordering and the session as they were read. An error leaves what was written before it. *)
Definition apply_with (ordering : string) (before : option Snapshot) (f : fault) (now : Z) (e : Event) (l : Ledger) : result accounting_error ApplyRowResult * Ledger :=
  let e := classifyAccountingEventCounters before now e in
  let after := mergeAccountingSessionSnapshot (default no_session before) now e in
  match f with
  | CountersFail => (Err StatementFailed, l)
  | _ =>
      let l := alter_row (with_counters (EvCounters e)) e l in
      if (TrimSpace (SessionKey e) =? "")%string then (Err SessionIDEmpty, l)
      else match f with
      | SessionFails => (Err StatementFailed, l)
      | _ =>
          let l := mkLedger (Rows l) (NextRow l) (<[SessionKey e := upsertAccountingSession after]> (Sessions l)) in
          match f with
          | LaterFails => (Err StatementFailed, l)
          | _ => (Ok (mkApplyRowResult (match before with Some _ => 0 | None => 1 end) (match before with Some _ => 1 | None => 0 end)
                        (if (StatusType e =? "Stop")%string then 1 else 0) ordering),
                  alter_row (with_marks "applied" ordering) e l)
          end
      end
  end.

Definition applyAccountingEventRecord (f : fault) (now : Z) (e : Event) (l : Ledger) : result accounting_error ApplyRowResult * Ledger :=
  let e := normalizeAccountingEventRecord now e in
  apply_with (classifyAccountingEventOrdering e l) (Sessions l !! SessionKey e) f now e l.

Record ApplyResult := mkApplyResult {
  Scanned : Z; Applied : Z; Duplicates : Z; Reordered : Z; LateStops : Z; CreatedSessions : Z; UpdatedSessions : Z; ClosedSessions : Z; ErrorCount : Z }.

(** One event's part of the result. *)
Definition count_applied (r : result accounting_error ApplyRowResult) (a : ApplyResult) : ApplyResult :=
  match r with
  | Err _ => mkApplyResult (Scanned a) (Applied a) (Duplicates a) (Reordered a) (LateStops a) (CreatedSessions a) (UpdatedSessions a) (ClosedSessions a) (ErrorCount a + 1)
  | Ok r => mkApplyResult (Scanned a) (Applied a + 1) (Duplicates a)
              (if (RrOrdering r =? "reordered")%string || (RrOrdering r =? "late_start")%string then Reordered a + 1 else Reordered a)
              (if (RrOrdering r =? "late_stop")%string then LateStops a + 1 else LateStops a)
              (CreatedSessions a + RrCreated r) (UpdatedSessions a + RrUpdated r) (ClosedSessions a + RrClosed r) (ErrorCount a)
  end.

(** Apply one event; an error marks its row. *)
Definition apply_and_mark (f : fault) (now : Z) (e : Event) (l : Ledger) : result accounting_error ApplyRowResult * Ledger :=
  let '(r, l) := applyAccountingEventRecord f now e l in
  (r, match r with Err _ => alter_row (with_marks "error" "unknown") e l | Ok _ => l end).

Definition ApplyAccountingEventByID (f : fault) (now : Z) (eventID : string) (l : Ledger) : result accounting_error ApplyResult * Ledger :=
  match Rows l !! TrimSpace eventID with
  | None => (Err NoSuchEvent, l)
  | Some e =>
      if (ApplyStatus e =? "applied")%string || (ApplyStatus e =? "ignored")%string
      then (Ok (mkApplyResult 1 0 (DuplicateCount e) 0 0 0 0 0 0), l)
      else
        let '(r, l) := apply_and_mark f now e l in
        (match r with Err err => Err err | Ok _ => Ok (count_applied r (mkApplyResult 1 0 0 0 0 0 0 0 0)) end, l)
  end.

(** [applyAccountingEvents]: an event after the other, with what fails for each. *)
Fixpoint applyAccountingEvents (faults : nat -> fault) (now : Z) (i : nat) (events : list Event) (a : ApplyResult) (l : Ledger) : ApplyResult * Ledger :=
  match events with
  | [] => (a, l)
  | e :: events' =>
      let '(r, l) := apply_and_mark (faults i) now e l in
      applyAccountingEvents faults now (S i) events' (count_applied r a) l
  end.

Definition status_rank (status : string) : Z :=
  if (status =? "Accounting-On")%string then 0 else if (status =? "Start")%string then 1 else if (status =? "Interim-Update")%string then 2
  else if (status =? "Stop")%string then 3 else if (status =? "Accounting-Off")%string then 4 else 5.

(** [ORDER BY session_key, event_time, rank, id]; times compare as texts. *)
Definition pending_less (x y : Event) : bool :=
  if negb (SessionKey x =? SessionKey y)%string then string_less (SessionKey x) (SessionKey y)
  else if negb (EventTime x =? EventTime y)%string then string_less (EventTime x) (EventTime y)
  else if negb (status_rank (StatusType x) =? status_rank (StatusType y)) then status_rank (StatusType x) <? status_rank (StatusType y)
  else EvRow x <? EvRow y.

Definition is_pending (e : Event) : bool := (ApplyStatus e =? "pending")%string || (ApplyStatus e =? "error")%string.
Definition pending_events (l : Ledger) : list Event := sort_by pending_less (List.filter is_pending (map_to_list (Rows l)).*2).
Definition batch_limit (limit : Z) : Z := if (limit <=? 0) || (limit >? 10000) then 1000 else limit.

Definition ApplyPendingAccountingEvents (faults : nat -> fault) (now limit : Z) (l : Ledger) : ApplyResult * Ledger :=
  let events := take (Z.to_nat (batch_limit limit)) (pending_events l) in
  applyAccountingEvents faults now 0 events (mkApplyResult (zlen events) 0 0 0 0 0 0 0 0) l.

(** [ORDER BY event_time DESC, id DESC] *)
Definition newest_less (x y : Event) : bool :=
  if negb (EventTime x =? EventTime y)%string then string_less (EventTime y) (EventTime x) else EvRow y <? EvRow x.

(** [ListAccountingEvents]: a limit above 1000 becomes 100. *)
Definition ListAccountingEvents (limit : Z) (status sessionKey : string) (l : Ledger) : list Event :=
  let limit := if (limit <=? 0) || (limit >? 1000) then 100 else limit in
  let keep e := ((TrimSpace status =? "")%string || (ApplyStatus e =? TrimSpace status)%string)
                && ((TrimSpace sessionKey =? "")%string || (SessionKey e =? TrimSpace sessionKey)%string) in
  take (Z.to_nat limit) (sort_by newest_less (List.filter keep (map_to_list (Rows l)).*2)).

Definition ReplayAccountingEvents (faults : nat -> fault) (now limit : Z) (sessionKey : string) (l : Ledger) : ApplyResult * Ledger :=
  let limit := batch_limit limit in
  let events := ListAccountingEvents limit "" sessionKey l in
  let l := foldl (fun l e => if (ApplyStatus e =? "ignored")%string then l else alter_row (fun r => with_marks "pending" (OrderingStatus r) r) e l) l events in
  ApplyPendingAccountingEvents faults now limit l.

Definition PruneAccountingEvents (retention now : Z) (l : Ledger) : Ledger :=
  if retention <=? 0 then l
  else mkLedger (filter (fun kv => negb (((ApplyStatus kv.2 =? "applied")%string || (ApplyStatus kv.2 =? "ignored")%string)
                                         && string_less (EventTime kv.2) (formatAccountingTime (now - retention))) = true) (Rows l))
         (NextRow l) (Sessions l).

(** ** Specification

    What a session keeps of its packets is a join: the earliest start, the latest activity and end, and
    the largest counters. *)

Record Core := mkCore { CoStart : option Z; CoLast : option Z; CoEnd : option Z; CoIn : Z; CoOut : Z; CoTime : Z }.

Definition opt_join (f : Z -> Z -> Z) (a b : option Z) : option Z :=
  match a, b with None, _ => b | _, None => a | Some x, Some y => Some (f x y) end.

Definition join (a b : Core) : Core :=
  mkCore (opt_join Z.min (CoStart a) (CoStart b)) (opt_join Z.max (CoLast a) (CoLast b)) (opt_join Z.max (CoEnd a) (CoEnd b))
    (Z.max (CoIn a) (CoIn b)) (Z.max (CoOut a) (CoOut b)) (Z.max (CoTime a) (CoTime b)).

Definition no_core : Core := mkCore None None None 0 0 0.

(** One packet's part *)
Definition contribution (e : Event) : Core :=
  let t := parseAccountingTime (EventTime e) in
  mkCore (Some (if (StatusType e =? "Start")%string then t else t - AcctSessionTime e * 1000000000)) (Some t)
    (if (StatusType e =? "Stop")%string then Some t else None)
    (Z.min max_int64 (accountingEventInputTotal64 (EvCounters e))) (Z.min max_int64 (accountingEventOutputTotal64 (EvCounters e))) (AcctSessionTime e).

Definition instant (text : string) : option Z := let t := parseAccountingTime text in if IsZero t then None else Some t.

Definition core_of (s : Snapshot) : Core :=
  mkCore (instant (SnStartTime s)) (instant (SnLastActivity s)) (instant (SnEndTime s)) (SnBytesIn s) (SnBytesOut s) (SnAcctSessionTime s).
Definition session_core (l : Ledger) (key : string) : Core := core_of (default no_session (Sessions l !! key)).

(** The packets of a session *)
Definition all_of (key : string) (events : list Event) : Core :=
  foldr (fun e c => if (SessionKey e =? key)%string then join (contribution e) c else c) no_core events.

#[export] Instance opt_join_comm f : Comm (=) f -> Comm (=) (opt_join f).
Proof. intros Hf [x|] [y|]; cbn; try done. f_equal. apply Hf. Qed.
#[export] Instance opt_join_assoc f : Assoc (=) f -> Assoc (=) (opt_join f).
Proof. intros Hf [x|] [y|] [z|]; cbn; try done. f_equal. apply Hf. Qed.
#[export] Instance opt_join_idemp f : IdemP (=) f -> IdemP (=) (opt_join f).
Proof. intros Hf [x|]; cbn; try done. f_equal. apply Hf. Qed.
#[export] Instance Zmin_comm : Comm (=) Z.min. Proof. intros x y. lia. Qed.
#[export] Instance Zmax_comm : Comm (=) Z.max. Proof. intros x y. lia. Qed.
#[export] Instance Zmin_assoc : Assoc (=) Z.min. Proof. intros x y z. lia. Qed.
#[export] Instance Zmax_assoc : Assoc (=) Z.max. Proof. intros x y z. lia. Qed.
#[export] Instance Zmin_idemp : IdemP (=) Z.min. Proof. intros x. lia. Qed.
#[export] Instance Zmax_idemp : IdemP (=) Z.max. Proof. intros x. lia. Qed.

(** The join is a semilattice's. *)
#[export] Instance join_comm : Comm (=) join.
Proof. intros a b. unfold join. f_equal; apply (comm _). Qed.
#[export] Instance join_assoc : Assoc (=) join.
Proof. intros a b c. unfold join. cbn. f_equal; apply (assoc _). Qed.
#[export] Instance join_idemp : IdemP (=) join.
Proof. intros [s l e i o t]. unfold join. cbn. f_equal; apply (idemp _). Qed.

(** The order of the join *)
Definition below (a b : Core) : Prop := join a b = b.

Lemma below_refl a : below a a.
Proof. apply (idemp join). Qed.
Lemma below_trans a b c : below a b -> below b c -> below a c.
Proof. unfold below. intros Hab Hbc. by rewrite <- Hbc, (assoc join), Hab. Qed.
Lemma below_antisym a b : below a b -> below b a -> a = b.
Proof. unfold below. intros Hab Hba. by rewrite <- Hba, (comm join), Hab. Qed.
Lemma join_below_l a b : below a (join a b).
Proof. unfold below. by rewrite (assoc join), (idemp join). Qed.
Lemma join_below_r a b : below b (join a b).
Proof. rewrite (comm join). apply join_below_l. Qed.
Lemma join_least a b c : below a c -> below b c -> below (join a b) c.
Proof. unfold below. intros Ha Hb. by rewrite <- (assoc join), Hb. Qed.

(** A nonnegative core *)
Definition core_ok (a : Core) : Prop := 0 <= CoIn a /\ 0 <= CoOut a /\ 0 <= CoTime a.

Lemma no_core_below a : core_ok a -> below no_core a.
Proof. intros (?&?&?). destruct a. unfold below, join. cbn in *. f_equal; lia. Qed.

Lemma all_of_below key events c : core_ok c -> (forall e, e ∈ events -> SessionKey e = key -> below (contribution e) c) -> below (all_of key events) c.
Proof.
  intros Hc. induction events as [|e events IH]; intros Hb; cbn [all_of foldr]; [by apply no_core_below|].
  assert (below (all_of key events) c) as Hrest by (apply IH; intros e' He'; apply Hb; by right).
  destruct (String.eqb_spec (SessionKey e) key); [|done]. apply join_least; [|done]. apply Hb; [left|done].
Qed.

Lemma below_all_of key events e : e ∈ events -> SessionKey e = key -> below (contribution e) (all_of key events).
Proof.
  induction events as [|e' events IH]; [by intros ?%not_elem_of_nil|]. cbn [all_of foldr]. intros [->|He]%elem_of_cons Hk.
  - rewrite Hk, String.eqb_refl. apply join_below_l.
  - destruct (_ =? _)%string; [|by apply IH]. eapply below_trans; [by apply IH|]. apply join_below_r.
Qed.

(** ** Times and counters in normal form *)

Section laws.
Context {TL : TimeTextLaws}.

Definition time_ok (t : Z) : bool := four_digit_year t && negb (IsZero t).
Definition canonical (text : string) : Prop := text = "" \/ exists t, time_ok t = true /\ text = rfc3339nano t.

Lemma parse_written t : time_ok t = true -> parseAccountingTime (rfc3339nano t) = t /\ TrimSpace (rfc3339nano t) = rfc3339nano t /\ rfc3339nano t <> "".
Proof.
  unfold time_ok. intros [Hy Hz]%andb_true_iff. destruct (rfc3339nano_trimmed t Hy) as [Ht Hne]. unfold parseAccountingTime. rewrite Ht.
  apply String.eqb_neq in Hne as Hne'. rewrite Hne', parse_rfc3339nano by done. done.
Qed.

Lemma format_ok t : time_ok t = true -> formatAccountingTime t = rfc3339nano t.
Proof. unfold time_ok, formatAccountingTime. intros [_ Hz]%andb_true_iff. apply negb_true_iff in Hz. by rewrite Hz. Qed.

Lemma instant_written t : time_ok t = true -> instant (rfc3339nano t) = Some t.
Proof. intros Ht. unfold instant. destruct (parse_written t Ht) as [-> _]. unfold time_ok in Ht. apply andb_true_iff in Ht as [_ Hz]. by apply negb_true_iff in Hz as ->. Qed.

Lemma instant_empty : instant "" = None.
Proof. unfold instant, parseAccountingTime, IsZero. rewrite (eq_refl : TrimSpace "" = ""). cbn [String.eqb]. by rewrite Z.eqb_refl. Qed.

Lemma normalize_canonical text : canonical text -> normalizeAccountingTimeString text = text /\ TrimSpace text = text.
Proof.
  intros [->|(t & Ht & ->)]; [done|]. destruct (parse_written t Ht) as (Hp & Htr & Hne). unfold normalizeAccountingTimeString. rewrite Htr.
  apply String.eqb_neq in Hne. rewrite Hne, Hp. unfold time_ok in Ht. apply andb_true_iff in Ht as [? Hz]. apply negb_true_iff in Hz.
  unfold formatAccountingTime. by rewrite Hz.
Qed.

(** Earlier and later texts are those of the earlier and later instants. *)
Lemma minAccountingTime_canonical a b : canonical a -> canonical b ->
  canonical (minAccountingTime a b) /\ instant (minAccountingTime a b) = opt_join Z.min (instant a) (instant b).
Proof.
  intros Ha Hb. unfold minAccountingTime. destruct (normalize_canonical a Ha) as [-> _]. destruct (normalize_canonical b Hb) as [-> _].
  destruct Ha as [->|(ta & Hta & ->)]; [cbn [String.eqb]; rewrite instant_empty; by destruct (instant b)|].
  destruct (parse_written ta Hta) as (Hpa & _ & Hna). apply String.eqb_neq in Hna. rewrite Hna.
  destruct Hb as [->|(tb & Htb & ->)]; [cbn [String.eqb]; rewrite instant_empty, instant_written by done; split; [right; by exists ta|done]|].
  destruct (parse_written tb Htb) as (Hpb & _ & Hnb). apply String.eqb_neq in Hnb. rewrite Hnb, Hpa, Hpb.
  pose proof Hta as Hta'. pose proof Htb as Htb'. unfold time_ok in Hta', Htb'. apply andb_true_iff in Hta' as [_ ->], Htb' as [_ ->]. cbn [andb].
  rewrite !instant_written by done. cbn [opt_join]. destruct (tb <? ta) eqn:E; bool_arith; (split; [right; eauto|]); rewrite instant_written by done; f_equal; lia.
Qed.

Lemma maxAccountingTime_canonical a b : canonical a -> canonical b ->
  canonical (maxAccountingTime a b) /\ instant (maxAccountingTime a b) = opt_join Z.max (instant a) (instant b).
Proof.
  intros Ha Hb. unfold maxAccountingTime. destruct (normalize_canonical a Ha) as [-> _]. destruct (normalize_canonical b Hb) as [-> _].
  destruct Ha as [->|(ta & Hta & ->)]; [cbn [String.eqb]; rewrite instant_empty; by destruct (instant b)|].
  destruct (parse_written ta Hta) as (Hpa & _ & Hna). apply String.eqb_neq in Hna. rewrite Hna.
  destruct Hb as [->|(tb & Htb & ->)]; [cbn [String.eqb]; rewrite instant_empty, instant_written by done; split; [right; by exists ta|done]|].
  destruct (parse_written tb Htb) as (Hpb & _ & Hnb). apply String.eqb_neq in Hnb. rewrite Hnb, Hpa, Hpb.
  pose proof Hta as Hta'. pose proof Htb as Htb'. unfold time_ok in Hta', Htb'. apply andb_true_iff in Hta' as [_ ->], Htb' as [_ ->]. cbn [andb].
  rewrite !instant_written by done. cbn [opt_join]. destruct (tb >? ta) eqn:E; bool_arith; (split; [right; eauto|]); rewrite instant_written by done; f_equal; lia.
Qed.
End laws.

(** ** Counters in normal form *)

Lemma land_low32 v : Z.land v low32_mask = v mod 2 ^ 32.
Proof. apply (to_uint32_mod v). Qed.

(** A 64-bit number as its two halves *)
Lemma halves n : 0 <= n <= max_uint64 -> 0 <= n mod 2 ^ 32 < 2 ^ 32 /\ 0 <= n / 2 ^ 32 < 2 ^ 32 /\ n = n / 2 ^ 32 * 2 ^ 32 + n mod 2 ^ 32.
Proof.
  unfold max_uint64. intros Hn. pose proof (Z.mod_pos_bound n (2 ^ 32) eq_refl). pose proof (Z.div_mod n (2 ^ 32) ltac:(done)).
  assert (0 <= n / 2 ^ 32 < 2 ^ 32) by (split; [apply Z.div_pos; lia|apply Z.div_lt_upper_bound; lia]). lia.
Qed.

Lemma wrap_uint64_small v : 0 <= v <= max_uint64 -> wrap_uint64 v = v.
Proof. unfold max_uint64. intros. apply Z.mod_small. lia. Qed.

(** The raw parts of a counter that does not overflow. *)
Definition raw_total (octets gigawords : Z) : Z := if gigawords >? 0 then gigawords * 2 ^ 32 + octets mod 2 ^ 32 else octets.

Lemma raw_total_bound octets gigawords : 0 <= octets <= max_uint64 -> 0 <= gigawords <= low32_mask -> 0 <= raw_total octets gigawords <= max_uint64.
Proof.
  intros Ho Hg. destruct (halves octets Ho) as ([] & _). unfold raw_total, low32_mask, max_uint64 in *. destruct (gigawords >? 0); lia.
Qed.

Lemma normalizeCounterParts_total octets gigawords : 0 <= octets <= max_uint64 -> 0 <= gigawords <= low32_mask ->
  let n := raw_total octets gigawords in
  let p := normalizeCounterParts octets gigawords in
  Low32 p = n mod 2 ^ 32 /\ Gigawords p = n / 2 ^ 32 /\ Total p = n /\ CpError p = "" /\ CpStatus p = (if Gigawords p >? 0 then "gigaword" else "ok")
  /\ Rollover p = (Gigawords p >? 0).
Proof.
  intros Ho Hg. pose proof (raw_total_bound octets gigawords Ho Hg) as Hn. destruct (halves octets Ho) as (Hl & Hh & Heq).
  cbv zeta. unfold normalizeCounterParts. replace (gigawords >? low32_mask) with false by lia.
  unfold raw_total in *. destruct (gigawords >? 0) eqn:E.
  - cbn [Low32 Gigawords Total CpError CpStatus Rollover]. rewrite land_low32, Z.shiftl_mul_pow2 by lia. rewrite E.
    assert ((gigawords * 2 ^ 32 + octets mod 2 ^ 32) mod 2 ^ 32 = octets mod 2 ^ 32) as ->.
    { rewrite Z.add_comm, Z.mod_add by done. apply Z.mod_mod. done. }
    assert ((gigawords * 2 ^ 32 + octets mod 2 ^ 32) / 2 ^ 32 = gigawords) as ->.
    { rewrite Z.add_comm, Z.div_add, Z.div_small by lia. lia. }
    rewrite (wrap_uint64_small (gigawords * 2 ^ 32)) by (unfold low32_mask, max_uint64 in *; lia). rewrite wrap_uint64_small by lia. done.
  - destruct (octets >? low32_mask) eqn:E2; cbn [Low32 Gigawords Total CpError CpStatus Rollover].
    + rewrite land_low32, Z.shiftr_div_pow2 by lia. done.
    + assert (octets < 2 ^ 32) by (unfold low32_mask in *; lia). rewrite Z.mod_small, Z.div_small by lia. done.
Qed.

(** A counter in normal form, of this value *)
Definition counted (n octets gigawords : Z) (text : string) : Prop :=
  0 <= n <= max_uint64 /\ octets = n mod 2 ^ 32 /\ gigawords = n / 2 ^ 32 /\ text = Itoa n.
Definition counters_are (i o : Z) (c : Counters) : Prop :=
  counted i (InputOctets c) (InputGigawords c) (InputOctets64 c) /\ counted o (OutputOctets c) (OutputGigawords c) (OutputOctets64 c).

Lemma counter_total_counted n octets gigawords text : counted n octets gigawords text -> counter_total text gigawords octets = n.
Proof.
  intros (Hn & -> & -> & ->). unfold counter_total, uint64FromCounterText. destruct (TrimSpace_Itoa n) as [-> Hne]; [lia|].
  apply String.eqb_neq in Hne. rewrite Hne, decimal_value_Itoa by lia. replace (n >? max_uint64) with false by lia.
  destruct (n >? 0) eqn:E; [done|]. assert (n = 0) as -> by lia. done.
Qed.

Lemma counted_again n octets gigawords text : counted n octets gigawords text -> 0 <= octets <= max_uint64 /\ 0 <= gigawords <= low32_mask /\ raw_total octets gigawords = n.
Proof.
  intros (Hn & -> & -> & _). destruct (halves n Hn) as (Hl & Hh & Heq). unfold low32_mask, max_uint64, raw_total in *.
  split_and!; try lia. destruct (n / 2 ^ 32 >? 0) eqn:E.
  - rewrite Z.mod_mod by done. lia.
  - assert (n / 2 ^ 32 = 0) as H0 by lia. rewrite H0 in Heq. lia.
Qed.

Lemma counted_parts n octets gigawords : 0 <= octets <= max_uint64 -> 0 <= gigawords <= low32_mask -> raw_total octets gigawords = n ->
  let p := normalizeCounterParts octets gigawords in counted n (Low32 p) (Gigawords p) (Itoa (Total p)).
Proof.
  intros Ho Hg <-. cbv zeta. unfold counted. destruct (normalizeCounterParts_total octets gigawords Ho Hg) as (-> & -> & -> & _). split_and!; try done; apply raw_total_bound; done.
Qed.

(** Normalising keeps counters that are in normal form. *)
Lemma counters_again i o c : counters_are i o c -> counters_are i o (normalizeAccountingEventCounterFields c).
Proof.
  intros [(Hi1 & Hi2 & Hi3)%counted_again (Ho1 & Ho2 & Ho3)%counted_again]. split; cbn; by apply counted_parts.
Qed.

(** A counter keeps its value through the split into halves: for gigawords within their 32 bits the octets and gigawords
    are below 2^32, make up the 64-bit total, and normalising them again changes nothing; larger gigawords saturate the total and
    are marked as an overflow, but only once: normalised again, as applying the stored event does, the halves give a
    smaller total. *)
Theorem counter_halves (octets gigawords : Z) :
  0 <= octets <= max_uint64 -> 0 <= gigawords <= max_uint64 ->
  let p := normalizeCounterParts octets gigawords in
  let again := normalizeCounterParts (Low32 p) (Gigawords p) in
  0 <= Low32 p < 2 ^ 32 /\ 0 <= Gigawords p < 2 ^ 32 /\ 0 <= Total p < 2 ^ 64
  /\ (gigawords <= low32_mask ->
      Total p = Gigawords p * 2 ^ 32 + Low32 p /\ Total p = (if gigawords >? 0 then gigawords * 2 ^ 32 + octets mod 2 ^ 32 else octets)
      /\ (Low32 again, Gigawords again, Total again) = (Low32 p, Gigawords p, Total p))
  /\ (low32_mask < gigawords ->
      Total p = 2 ^ 64 - 1 /\ CpStatus p = "overflow" /\ CpStatus again = "gigaword" /\ (octets mod 2 ^ 32 < low32_mask -> Total again < Total p)).
Proof.
  intros Ho Hg. cbv zeta. set (p := normalizeCounterParts octets gigawords). destruct (decide (gigawords <= low32_mask)) as [Hle|Hgt].
  - destruct (normalizeCounterParts_total octets gigawords) as (Hlow & Hgig & Htot & _); [done|lia|]. fold p in Hlow, Hgig, Htot.
    assert (0 <= raw_total octets gigawords <= max_uint64) as Hn by (apply raw_total_bound; lia). destruct (halves _ Hn) as (H1 & H2 & H3).
    assert (counted (raw_total octets gigawords) (Low32 p) (Gigawords p) (Itoa (Total p))) as Hc by (apply counted_parts; lia || done).
    apply counted_again in Hc as (Ha1 & Ha2 & Ha3). destruct (normalizeCounterParts_total _ _ Ha1 Ha2) as (Hl & Hg2 & Ht & _). rewrite Ha3 in *.
    split_and!; try (unfold max_uint64 in *; lia). intros _. split_and!; [lia|done|]. congruence.
  - assert (p = mkCounterParts (octets mod 2 ^ 32) low32_mask max_uint64 true "overflow" (CpError p)) as Hp.
    { unfold p, normalizeCounterParts. replace (gigawords >? low32_mask) with true by lia. by rewrite land_low32. }
    destruct (halves octets Ho) as (Hl & _). rewrite Hp. cbn [Low32 Gigawords Total CpStatus].
    destruct (normalizeCounterParts_total (octets mod 2 ^ 32) low32_mask) as (_ & Hg2 & Ht & _ & Hs & _); [unfold max_uint64; lia|done|].
    split_and!; try (unfold low32_mask, max_uint64 in *; lia). intros _. assert (raw_total (octets mod 2 ^ 32) low32_mask = low32_mask * 2 ^ 32 + octets mod 2 ^ 32) as Hr.
    { unfold raw_total. change (low32_mask >? 0) with true. cbn iota. by rewrite Z.mod_mod. }
    rewrite Hs, Hg2, Ht, Hr. assert ((low32_mask * 2 ^ 32 + octets mod 2 ^ 32) / 2 ^ 32 = low32_mask) as ->.
    { rewrite Z.add_comm, Z.div_add, Z.div_small by lia. lia. }
    split_and!; [done..|]. unfold low32_mask, max_uint64. lia.
Qed.

(** ** Packets and sessions in normal form *)

Section packets.
Context {TL : TimeTextLaws}.

(** A packet with a readable time, a session time of 32 bits, counters without overflow, and either a Start or with a
    session time. *)
Record event_ok (e : Event) : Prop := {
  eo_time : exists t, EventTime e = rfc3339nano t /\ time_ok t = true /\ time_ok (t - AcctSessionTime e * 1000000000) = true;
  eo_session_time : 0 <= AcctSessionTime e < 2 ^ 32;
  eo_timed : StatusType e = "Start" \/ 0 < AcctSessionTime e;
  eo_status : canonicalAccountingStatus (StatusType e) = StatusType e;
  eo_key : TrimSpace (SessionKey e) = SessionKey e /\ SessionKey e <> "";
  eo_id : TrimSpace (EventID e) = EventID e /\ EventID e <> "";
  eo_counters : exists i o, counters_are i o (EvCounters e);
}.

Record snap_ok (s : Snapshot) : Prop := {
  so_start : canonical (SnStartTime s); so_last : canonical (SnLastActivity s); so_end : canonical (SnEndTime s);
  so_in : 0 <= SnBytesIn s <= max_int64; so_out : 0 <= SnBytesOut s <= max_int64; so_time : 0 <= SnAcctSessionTime s }.

Lemma snap_ok_none : snap_ok no_session.
Proof. split; cbn; try (by left); unfold max_int64; lia. Qed.

(** [e'] is [e] as far as sessions are concerned. *)
Definition same_event (e e' : Event) : Prop :=
  event_ok e' /\ EventID e' = EventID e /\ SessionKey e' = SessionKey e /\ contribution e' = contribution e.

Lemma contribution_counters e i o : counters_are i o (EvCounters e) ->
  accountingEventInputTotal64 (EvCounters e) = i /\ accountingEventOutputTotal64 (EvCounters e) = o.
Proof. intros [Hi Ho]. split; by apply counter_total_counted. Qed.

(** Packets that agree in time, status and counters *)
Lemma same_event_intro e e' i o : event_ok e -> counters_are i o (EvCounters e) -> counters_are i o (EvCounters e') ->
  EventTime e' = EventTime e -> StatusType e' = StatusType e -> AcctSessionTime e' = AcctSessionTime e -> SessionKey e' = SessionKey e -> EventID e' = EventID e ->
  same_event e e'.
Proof.
  intros [H1 H2 H3 H4 H5 H6 H7] Hc Hc' Ht Hs Ha Hk Hid. split_and!; [|done|done|].
  - split; rewrite ?Ht, ?Hs, ?Ha, ?Hk, ?Hid; eauto.
  - unfold contribution. rewrite Ht, Hs, Ha. destruct (contribution_counters _ _ _ Hc) as [-> ->]. by destruct (contribution_counters _ _ _ Hc') as [-> ->].
Qed.

Lemma or_text_nonempty s t : s <> "" -> or_text s t = s.
Proof. unfold or_text. by intros ->%String.eqb_neq. Qed.

Lemma normalize_same now e : event_ok e -> same_event e (normalizeAccountingEventRecord now e).
Proof.
  intros He. destruct (eo_counters _ He) as (i & o & Hc). destruct (eo_time _ He) as (t & Ht & Htok & _).
  destruct (eo_key _ He) as [Hk Hkne]. destruct (eo_id _ He) as [Hid Hidne]. pose proof (eo_session_time _ He) as Hst.
  destruct (normalize_canonical (EventTime e)) as [Hnt _]; [right; eauto|]. destruct (parse_written t Htok) as (_ & _ & Hne).
  apply (same_event_intro _ _ i o); try done; unfold normalizeAccountingEventRecord, normalizeAccountingEventRecordForHash; cbn.
  - by apply counters_again.
  - rewrite Hnt, or_text_nonempty; [done|]. by rewrite Ht.
  - apply (eo_status _ He).
  - by replace (AcctSessionTime e <? 0) with false by lia.
  - by rewrite Hk, or_text_nonempty.
  - by rewrite Hid, or_text_nonempty.
Qed.

Lemma same_event_trans e1 e2 e3 : same_event e1 e2 -> same_event e2 e3 -> same_event e1 e3.
Proof. intros (A1 & A2 & A3 & A4) (B1 & B2 & B3 & B4). split_and!; congruence || done. Qed.

Lemma with_counters_same e i o c : event_ok e -> counters_are i o (EvCounters e) -> counters_are i o c -> same_event e (with_counters c e).
Proof. intros He Hc Hc'. by apply (same_event_intro _ _ i o). Qed.

Lemma classify_same before now e : event_ok e -> same_event e (classifyAccountingEventCounters before now e).
Proof.
  intros He. pose proof (normalize_same now e He) as Hn. unfold classifyAccountingEventCounters. destruct before as [s|]; [|done].
  destruct (_ || _); [done|]. apply (same_event_trans _ _ _ Hn). destruct Hn as (Hn & _). destruct (eo_counters _ Hn) as (i & o & Hc).
  apply (with_counters_same _ i o); [done|done|]. destruct Hc as [Hi Ho]. by split.
Qed.

(** ** The merge is the join *)

Lemma merged_start_core s e : snap_ok s -> event_ok e ->
  canonical (merged_start s e (EventTime e)) /\ instant (merged_start s e (EventTime e)) = opt_join Z.min (instant (SnStartTime s)) (CoStart (contribution e)).
Proof.
  intros Hs He. destruct (eo_time _ He) as (t & Ht & Htok & Hdok). pose proof (eo_session_time _ He) as Hst.
  destruct (parse_written t Htok) as (Hp & _ & Hne). unfold merged_start, contribution. cbn [CoStart]. rewrite Ht, Hp.
  set (start := or_text (SnStartTime s) (rfc3339nano t)).
  assert (canonical start /\ instant start = Some (default t (instant (SnStartTime s)))) as [Hstart Hsi].
  { unfold start, or_text. destruct (so_start _ Hs) as [->|(u & Hu & ->)]; [cbn [String.eqb]; rewrite instant_empty, instant_written by done; split; [right; eauto|done]|].
    destruct (parse_written u Hu) as (_ & _ & Hun). apply String.eqb_neq in Hun. rewrite Hun, instant_written by done. split; [right; eauto|done]. }
  assert (canonical (rfc3339nano t)) as Hct by (right; eauto).
  destruct (String.eqb_spec (StatusType e) "Start") as [Hss|Hss]; cbn [negb andb].
  - destruct (minAccountingTime_canonical _ _ Hstart Hct) as [Hc Hi]. split; [done|]. rewrite Hi, Hsi, instant_written by done. cbn [opt_join].
    destruct (instant (SnStartTime s)); cbn; f_equal; lia.
  - destruct (eo_timed _ He) as [?|Hpos]; [done|]. replace (AcctSessionTime e >? 0) with true by lia. cbn [andb].
    assert (wrap_int64 (AcctSessionTime e * 1000000000) = AcctSessionTime e * 1000000000) as -> by (unfold wrap_int64; rewrite Z.mod_small; lia).
    assert (IsZero (t - AcctSessionTime e * 1000000000) = false) as Hz by (unfold time_ok in Hdok; by apply andb_true_iff in Hdok as [_ ?%negb_true_iff]).
    rewrite Hz, format_ok by done. destruct (minAccountingTime_canonical start (rfc3339nano (t - AcctSessionTime e * 1000000000))) as [Hc Hi]; [done|right; eauto|].
    split; [done|]. rewrite Hi, Hsi, instant_written by done. cbn [opt_join]. destruct (instant (SnStartTime s)); cbn; f_equal; lia.
Qed.

Lemma merged_end_core s e : snap_ok s -> event_ok e ->
  canonical (merged_end s e (EventTime e)).1 /\ instant (merged_end s e (EventTime e)).1 = opt_join Z.max (instant (SnEndTime s)) (CoEnd (contribution e)).
Proof.
  intros Hs He. destruct (eo_time _ He) as (t & Ht & Htok & _). destruct (parse_written t Htok) as (Hp & _ & _).
  unfold merged_end, contribution. cbn [CoEnd]. rewrite Ht, Hp. pose proof (so_end _ Hs) as Hend.
  destruct (_ =? "Stop")%string; cbn [fst]; [|by destruct (instant (SnEndTime s))].
  destruct (maxAccountingTime_canonical (SnEndTime s) (rfc3339nano t)) as [Hc Hi]; [done|right; eauto|]. split; [done|]. by rewrite Hi, instant_written.
Qed.

Lemma stored_canonical text : canonical text -> normalizeAccountingTimeString (stored_text text) = text.
Proof. intros Hc. unfold stored_text. destruct (normalize_canonical text Hc) as [Hn ->]. done. Qed.

Lemma bounded_max x y : 0 <= x <= max_int64 -> 0 <= y -> maxInt64 (boundedUint64ToInt64 (maxUint64 x y)) 0 = Z.max x (Z.min max_int64 y).
Proof. unfold maxInt64, boundedUint64ToInt64, maxUint64. intros. destruct (y >? x) eqn:E1; case_match; case_match; lia. Qed.

(** Merging a packet and storing the session joins the packet's part. *)
Lemma merge_core s now e : snap_ok s -> event_ok e ->
  let s' := upsertAccountingSession (mergeAccountingSessionSnapshot s now e) in snap_ok s' /\ core_of s' = join (core_of s) (contribution e).
Proof.
  intros Hs He. cbv zeta. destruct (eo_time _ He) as (t & Ht & Htok & _). destruct (parse_written t Htok) as (Hp & _ & Hne).
  destruct (eo_counters _ He) as (i & o & Hc). destruct (contribution_counters _ _ _ Hc) as [Hi Ho]. destruct Hc as [[Hin _] [Hout _]].
  destruct (merged_start_core s e Hs He) as [Hsc Hsi]. destruct (merged_end_core s e Hs He) as [Hec Hei].
  assert (canonical (EventTime e)) as Hct by (rewrite Ht; right; eauto). destruct (normalize_canonical _ Hct) as [Hnt _].
  assert (or_text (normalizeAccountingTimeString (EventTime e)) (formatAccountingTime now) = EventTime e) as Htime by (rewrite Hnt; apply or_text_nonempty; by rewrite Ht).
  destruct (maxAccountingTime_canonical (SnLastActivity s) (EventTime e) (so_last _ Hs) Hct) as [Hlc Hli].
  assert (instant (EventTime e) = Some t) as Hte by (rewrite Ht; by apply instant_written).
  assert (or_text (maxAccountingTime (SnLastActivity s) (EventTime e)) (EventTime e) = maxAccountingTime (SnLastActivity s) (EventTime e)) as Hlast.
  { apply or_text_nonempty. intros Hempty. rewrite Hempty, instant_empty, Hte in Hli. by destruct (instant (SnLastActivity s)). }
  pose proof (so_in _ Hs). pose proof (so_out _ Hs). pose proof (so_time _ Hs). pose proof (eo_session_time _ He).
  unfold mergeAccountingSessionSnapshot. rewrite Htime, Hlast. destruct (merged_end s e (EventTime e)) as [endTime reason]. cbn [fst] in Hec, Hei.
  unfold upsertAccountingSession, core_of, join. cbn [SnStartTime SnLastActivity SnEndTime SnBytesIn SnBytesOut SnAcctSessionTime CoStart CoLast CoEnd CoIn CoOut CoTime contribution].
  rewrite Hi, Ho, !bounded_max by (try done; apply Hin || apply Hout).
  rewrite (proj1 (normalize_canonical _ Hsc)), !stored_canonical by done.
  assert (maxInt64 (maxInt64 (SnAcctSessionTime s) (AcctSessionTime e)) 0 = Z.max (SnAcctSessionTime s) (AcctSessionTime e)) as ->.
  { unfold maxInt64. repeat case_match; lia. }
  split.
  - split; cbn; try done; unfold max_int64 in *; lia.
  - f_equal; [exact Hsi| |exact Hei]. rewrite Hli, Hte. by rewrite Ht, Hp.
Qed.

(** ** Runs of the ledger *)

(** The ledger and the packets it took in; the packets of an event id agree on what matters to the session, since the id
    is the digest of it. Each operation runs to its end. *)
Inductive ledger_step : Ledger * list Event -> Ledger * list Event -> Prop :=
| StepIngest now e l received row duplicate l' :
    let packet := normalizeAccountingEventRecord now e in
    event_ok packet -> ApplyStatus packet = "pending" -> Forall (fun e0 => EventID e0 = EventID packet -> same_event e0 packet) received ->
    IngestAccountingEvent now e l = Ok (row, duplicate, l') -> ledger_step (l, received) (l', packet :: received)
| StepApply f now id l received : ledger_step (l, received) ((ApplyAccountingEventByID f now id l).2, received)
| StepPending faults now limit l received : ledger_step (l, received) ((ApplyPendingAccountingEvents faults now limit l).2, received)
| StepReplay faults now limit key l received : ledger_step (l, received) ((ReplayAccountingEvents faults now limit key l).2, received)
| StepPrune retention now l received : ledger_step (l, received) (PruneAccountingEvents retention now l, received).

(** A row of the ledger: of a packet received, in a known status. *)
Definition row_ok (received : list Event) (id : string) (r : Event) : Prop :=
  EventID r = id /\ ApplyStatus r ∈ ["pending"; "applied"; "error"] /\ exists e, e ∈ received /\ same_event e r.

(** A received packet is in its session or waits in the ledger. *)
Definition accounted (l : Ledger) (e : Event) : Prop :=
  below (contribution e) (session_core l (SessionKey e)) \/ exists r, Rows l !! EventID e = Some r /\ ApplyStatus r <> "applied".

Record ledger_ok (start : Ledger) (w : Ledger * list Event) : Prop := {
  lo_ids e1 e2 : e1 ∈ w.2 -> e2 ∈ w.2 -> EventID e1 = EventID e2 -> same_event e1 e2;
  lo_rows id r : Rows w.1 !! id = Some r -> row_ok w.2 id r;
  lo_sessions key s : Sessions w.1 !! key = Some s -> snap_ok s;
  lo_above key : below (session_core start key) (session_core w.1 key);
  lo_within key : below (session_core w.1 key) (join (session_core start key) (all_of key w.2));
  lo_accounted e : e ∈ w.2 -> accounted w.1 e;
}.

Lemma same_event_sym e e' : event_ok e -> same_event e e' -> same_event e' e.
Proof. intros He (? & ? & ? & ?). split_and!; congruence || done. Qed.

Lemma snap_core_ok s : snap_ok s -> core_ok (core_of s).
Proof. intros Hs. pose proof (so_in _ Hs). pose proof (so_out _ Hs). pose proof (so_time _ Hs). repeat split; cbn; lia. Qed.

Lemma session_snap start w key : ledger_ok start w -> snap_ok (default no_session (Sessions w.1 !! key)).
Proof. intros Hw. destruct (Sessions w.1 !! key) as [s|] eqn:E; [by apply (lo_sessions _ _ Hw key)|apply snap_ok_none]. Qed.

(** What applying a packet does to the sessions, which were read before: nothing, or the join with what was read. *)
Definition merged_from (before : option Snapshot) (e : Event) (l l' : Ledger) : Prop :=
  exists s, Sessions l' = <[SessionKey e := s]> (Sessions l) /\ snap_ok s /\ core_of s = join (core_of (default no_session before)) (contribution e).
Definition merged (e : Event) (l l' : Ledger) : Prop := merged_from (Sessions l !! SessionKey e) e l l'.

(** What it does to the rows: the packet's row gets its counters again, and a status. *)
Definition remarked (e : Event) (ok : bool) (l l' : Ledger) : Prop :=
  exists g, Rows l' = alter g (EventID e) (Rows l) /\ forall r, same_event e r ->
    same_event e (g r) /\ (ApplyStatus (g r) ∈ [ApplyStatus r; "error"] \/ ok = true /\ ApplyStatus (g r) = "applied") /\ (ok = true -> ApplyStatus (g r) = "applied").

Lemma marks_same e r a o : same_event e r -> same_event e (with_marks a o r).
Proof.
  intros Hr. apply (same_event_trans _ _ _ Hr). destruct Hr as (Hr & _). destruct (eo_counters _ Hr) as (i & j & Hc).
  by apply (same_event_intro _ _ i j).
Qed.

Lemma counters_same e r c i o : same_event e r -> counters_are i o (EvCounters e) -> counters_are i o c -> same_event e (with_counters c r).
Proof.
  intros (Hr & Hid & Hk & Hc) Hi Hj. destruct Hr as [R1 R2 R3 R4 R5 R6 R7]. split_and!; [|done|done|].
  - split; try done. by exists i, o.
  - unfold contribution in *. cbn in *. destruct (contribution_counters _ _ _ Hi) as [E1 E2]. rewrite E1, E2 in *.
    assert (accountingEventInputTotal64 c = i /\ accountingEventOutputTotal64 c = o) as [-> ->] by (destruct Hj; split; by apply counter_total_counted).
    injection Hc as H1 H2 H3 H4 H5 H6. f_equal; congruence.
Qed.

Lemma apply_with_effect ordering before f now e l : event_ok e -> snap_ok (default no_session before) ->
  let '(r, l') := apply_with ordering before f now e l in
  (is_Ok r = false /\ Sessions l' = Sessions l \/ merged_from before e l l') /\ (is_Ok r = true -> merged_from before e l l') /\ remarked e (is_Ok r) l l'
  /\ (f = NoFault -> is_Ok r = true).
Proof.
  intros He Hs. unfold apply_with.
  pose proof (classify_same before now e He) as Hc. set (e' := classifyAccountingEventCounters before now e) in *.
  destruct Hc as (He' & Hid & Hk & Hcon). destruct (eo_key _ He') as [Htk Hkne].
  destruct (merge_core (default no_session before) now e' Hs He') as [Hsnap Hcore]. rewrite Hcon in Hcore.
  destruct (eo_counters _ He) as (i & o & Hio). assert (counters_are i o (EvCounters e')) as Hio'.
  { unfold e', classifyAccountingEventCounters. pose proof (normalize_same now e He) as Hn.
    assert (counters_are i o (EvCounters (normalizeAccountingEventRecord now e))) as Hnc by (apply counters_again; by destruct Hio).
    destruct before; [|done]. destruct (_ || _); [done|]. destruct Hnc. by split. }
  assert (forall l', merged_from before e l (mkLedger l' (NextRow l) (<[SessionKey e' := upsertAccountingSession (mergeAccountingSessionSnapshot (default no_session before) now e')]> (Sessions l)))) as Hm.
  { intros l'. exists (upsertAccountingSession (mergeAccountingSessionSnapshot (default no_session before) now e')). split_and!; [cbn; by rewrite Hk|exact Hsnap|exact Hcore]. }
  assert (forall l', Rows l' = alter (with_counters (EvCounters e')) (EventID e) (Rows l) -> remarked e false l l') as Hrc.
  { intros l' Hl'. exists (with_counters (EvCounters e')). split; [done|]. intros r Hr. split_and!; [by apply (counters_same _ _ _ i o)|left; by left|done]. }
  rewrite Htk. apply String.eqb_neq in Hkne as ->. destruct f; cbn [is_Ok]; rewrite ?Hid.
  - split; [right; apply (Hm _)|]. split; [intros _; apply (Hm _)|]. split; [|done]. exists (fun r => with_marks "applied" ordering (with_counters (EvCounters e') r)).
    cbn. rewrite Hid. split; [by rewrite alter_alter_eq|]. intros r Hr. split_and!; [|by right|done]. apply marks_same. by apply (counters_same _ _ _ i o).
  - split; [by left|]. split; [done|]. split; [|done]. exists (fun r => r). split; [by rewrite alter_id|]. intros r Hr. split_and!; [done|left; by left|done].
  - split; [by left|]. split; [done|]. split; [|done]. apply Hrc. cbn. by rewrite Hid.
  - split; [right; apply (Hm _)|]. split; [done|]. split; [|done]. apply Hrc. cbn. by rewrite Hid.
Qed.

Lemma session_core_insert l l' e key : merged e l l' ->
  session_core l' key = if decide (SessionKey e = key) then join (session_core l key) (contribution e) else session_core l key.
Proof.
  intros (s & Hs & _ & Hc). unfold session_core at 1. rewrite Hs. destruct (decide _) as [<-|Hne]; [by rewrite lookup_insert_eq|by rewrite lookup_insert_ne].
Qed.

(** Applying a packet that was received, with success or not, keeps the invariant; with success its row is done. *)
Lemma ledger_ok_applied start l l' received e e0 ok : ledger_ok start (l, received) -> e0 ∈ received -> same_event e0 e ->
  (Sessions l' = Sessions l /\ ok = false \/ merged e l l') -> remarked e ok l l' -> ledger_ok start (l', received).
Proof.
  intros Hw He0 (Heok & Hid & Hk & Hcon) Hse (g & Hrows & Hg). destruct Hw as [W1 W2 W3 W4 W5 W6]. cbn in *.
  assert (forall key, below (session_core l key) (session_core l' key)) as Hup.
  { intros key. destruct Hse as [[Hs _]|Hm]; [unfold session_core; rewrite Hs; apply below_refl|]. rewrite (session_core_insert _ _ _ _ Hm).
    destruct (decide _); [apply join_below_l|apply below_refl]. }
  assert (forall r, Rows l !! EventID e = Some r -> same_event e r) as Hsame.
  { intros r Hr. destruct (W2 _ _ Hr) as (Hrid & _ & e1 & He1 & Hr1). assert (same_event e0 e1) as He01.
    { apply W1; [done|done|]. destruct Hr1 as (_ & H1 & _). congruence. }
    assert (event_ok e0) as Hok0 by (by destruct (W1 e0 e0 He0 He0 eq_refl)). apply (same_event_trans e e0 r); [by apply same_event_sym|].
    by apply (same_event_trans e0 e1 r). }
  split; cbn; [done|..].
  - intros id r. rewrite Hrows, lookup_alter_Some. intros [(<- & r0 & Hr0 & ->)|[Hne Hr]]; [|by apply W2].
    destruct (W2 _ _ Hr0) as (Hrid & Hst & e1 & He1 & Hr1). pose proof (Hsame _ Hr0) as Hs0. destruct (Hg r0 Hs0) as (Hgs & Hgst & _).
    split_and!; [by destruct Hgs as (_ & ? & _)| |].
    + destruct Hgst as [Hgst|[_ ->]]; [|set_solver]. apply elem_of_cons in Hgst as [->|Hgst]; [done|]. apply list_elem_of_singleton in Hgst as ->. set_solver.
    + exists e0. split; [done|]. apply (same_event_trans _ _ _ (conj Heok (conj Hid (conj Hk Hcon))) Hgs).
  - intros key s. destruct Hse as [[-> _]|(s' & -> & Hs' & _)]; [apply W3|]. intros [[_ <-]|[_ Hs]]%lookup_insert_Some; [done|by apply (W3 key)].
  - intros key. by apply (below_trans _ _ _ (W4 key)).
  - intros key. destruct Hse as [[Hs _]|Hm]; [unfold session_core; rewrite Hs; apply W5|]. rewrite (session_core_insert _ _ _ _ Hm).
    destruct (decide _) as [Heq|]; [|apply W5]. apply join_least; [apply W5|]. rewrite Hcon. eapply below_trans; [apply (below_all_of key _ e0 He0); congruence|].
    apply join_below_r.
  - intros e1 He1. destruct (W6 e1 He1) as [Hb|(r & Hr & Hst)]; [left; by apply (below_trans _ _ _ Hb)|].
    destruct (decide (EventID e1 = EventID e)) as [Heq|Hne].
    + rewrite Heq in Hr. destruct (Hg r (Hsame _ Hr)) as (_ & Hgst & Hok). destruct Hse as [[Hs ->]|Hm].
      * right. exists (g r). rewrite Hrows, Heq, lookup_alter_eq, Hr. split; [done|]. destruct Hgst as [Hgst|[? _]]; [|done].
        apply elem_of_cons in Hgst as [->|Hgst]; [done|]. apply list_elem_of_singleton in Hgst as ->. done.
      * left. assert (same_event e1 e0) as (_ & _ & Hk1 & Hc1) by (apply W1; [done|done|congruence]). rewrite (session_core_insert _ _ _ _ Hm).
        rewrite decide_True by congruence. rewrite <- Hc1, <- Hcon. apply join_below_r.
    + right. exists r. rewrite Hrows, lookup_alter_ne by congruence. done.
Qed.

Lemma apply_and_mark_ok start f now e e0 l received : ledger_ok start (l, received) -> e0 ∈ received -> same_event e0 e ->
  ledger_ok start ((apply_and_mark f now e l).2, received).
Proof.
  intros Hw He0 He. pose proof He as (Heok & _). unfold apply_and_mark, applyAccountingEventRecord.
  pose proof (normalize_same now e Heok) as Hn. set (e' := normalizeAccountingEventRecord now e) in *.
  assert (same_event e0 e') as He' by (by apply (same_event_trans _ e)). pose proof He' as (Hok' & _).
  pose proof (apply_with_effect (classifyAccountingEventOrdering e' l) (Sessions l !! SessionKey e') f now e' l Hok' (session_snap start _ (SessionKey e') Hw)) as Heff.
  destruct (apply_with _ _ _ _ _ _) as [r l']. destruct Heff as (Hs & _ & Hr & _). cbn [fst snd].
  assert (ledger_ok start (l', received)) as Hw'.
  { apply (ledger_ok_applied start l l' received e' e0 (is_Ok r) Hw He0 He'); [|done]. destruct Hs as [[Hr1 Hs]|Hm]; [by left|by right]. }
  destruct r as [rr|err]; [done|]. assert (same_event e0 e) as (_ & Hid & _) by done. assert (EventID e' = EventID e) as Hid' by (by destruct Hn as (_ & -> & _)).
  apply (ledger_ok_applied start l' _ received e e0 false Hw' He0 He); [by left|]. exists (with_marks "error" "unknown"). split; [done|].
  intros r Hr1. split_and!; [by apply marks_same|left; right; left|done].
Qed.

Lemma rows_received start l received r : ledger_ok start (l, received) -> r ∈ (map_to_list (Rows l)).*2 -> exists e, e ∈ received /\ same_event e r.
Proof.
  intros Hw Hr. apply list_elem_of_fmap in Hr as ([id r'] & -> & Hr%elem_of_map_to_list). destruct (lo_rows _ _ Hw _ _ Hr) as (_ & _ & e & He). by exists e.
Qed.

Lemma applyAccountingEvents_ok start faults now i events a l received : ledger_ok start (l, received) ->
  (forall e, e ∈ events -> exists e0, e0 ∈ received /\ same_event e0 e) -> ledger_ok start ((applyAccountingEvents faults now i events a l).2, received).
Proof.
  revert i a l. induction events as [|e events IH]; intros i a l Hw He; cbn [applyAccountingEvents]; [done|].
  destruct (He e) as (e0 & He0 & Hs); [left|]. pose proof (apply_and_mark_ok start (faults i) now e e0 l received Hw He0 Hs) as Hw'.
  destruct (apply_and_mark _ _ _ _) as [r l']. apply IH; [done|]. intros e' He'. apply He. by right.
Qed.

Lemma pending_ok start faults now limit l received : ledger_ok start (l, received) -> ledger_ok start ((ApplyPendingAccountingEvents faults now limit l).2, received).
Proof.
  intros Hw. apply applyAccountingEvents_ok; [done|]. intros e He%subseteq_take. apply (rows_received start l); [done|].
  unfold pending_events in He. rewrite sort_by_perm in He. apply list_elem_of_In, filter_In in He as [He _]. by apply list_elem_of_In.
Qed.

(** Staging a row again *)
Lemma staged_ok start l received e0 e : ledger_ok start (l, received) -> e0 ∈ received -> same_event e0 e ->
  ledger_ok start (alter_row (fun r => with_marks "pending" (OrderingStatus r) r) e l, received).
Proof.
  intros [W1 W2 W3 W4 W5 W6] He0 He. split; cbn in *; try done.
  - intros id r. rewrite lookup_alter_Some. intros [(<- & r0 & Hr0 & ->)|[Hne Hr]]; [|by apply W2]. destruct (W2 _ _ Hr0) as (H1 & H2 & e1 & H3 & H4).
    split_and!; [done|cbn; set_solver|]. exists e1. split; [done|]. by apply marks_same.
  - intros e1 He1. destruct (W6 e1 He1) as [Hb|(r & Hr & Hst)]; [by left|]. right. destruct (decide (EventID e1 = EventID e)) as [Heq|Hne]; cbn.
    + exists (with_marks "pending" (OrderingStatus r) r). by rewrite Heq, lookup_alter_eq, <- Heq, Hr.
    + exists r. by rewrite lookup_alter_ne by congruence.
Qed.

Lemma staging_ok start events l received : ledger_ok start (l, received) -> (forall e, e ∈ events -> exists e0, e0 ∈ received /\ same_event e0 e) ->
  ledger_ok start (foldl (fun l e => if (ApplyStatus e =? "ignored")%string then l else alter_row (fun r => with_marks "pending" (OrderingStatus r) r) e l) l events, received).
Proof.
  revert l. induction events as [|e events IH]; intros l Hw He; cbn [foldl]; [done|]. destruct (He e) as (e0 & He0 & Hs); [left|].
  apply IH; [|intros e' He'; apply He; by right]. destruct (_ =? _)%string; [done|]. by apply (staged_ok _ _ _ e0).
Qed.

Lemma replay_ok start faults now limit key l received : ledger_ok start (l, received) -> ledger_ok start ((ReplayAccountingEvents faults now limit key l).2, received).
Proof.
  intros Hw. unfold ReplayAccountingEvents. cbv zeta. apply pending_ok. apply staging_ok; [done|]. intros e He. apply (rows_received start l); [done|].
  unfold ListAccountingEvents in He. apply subseteq_take in He. rewrite sort_by_perm in He. apply list_elem_of_In, filter_In in He as [He _]. by apply list_elem_of_In.
Qed.

Lemma ingest_ok start now e l received row dup l' : let packet := normalizeAccountingEventRecord now e in
  event_ok packet -> ApplyStatus packet = "pending" -> Forall (fun e0 => EventID e0 = EventID packet -> same_event e0 packet) received ->
  IngestAccountingEvent now e l = Ok (row, dup, l') -> ledger_ok start (l, received) -> ledger_ok start (l', packet :: received).
Proof.
  cbv zeta. set (packet := normalizeAccountingEventRecord now e). intros Hok Hst Hids Hin [W1 W2 W3 W4 W5 W6].
  unfold IngestAccountingEvent in Hin. fold packet in Hin. clearbody packet. cbn in *. rewrite Forall_forall in Hids. assert (same_event packet packet) as Hself by done.
  destruct (EventID packet =? "")%string; [done|]. destruct (SessionKey packet =? "")%string; [done|].
  assert (Sessions l' = Sessions l /\ (forall id r, Rows l' !! id = Some r -> row_ok (packet :: received) id r) /\ accounted l' packet
          /\ forall id r, Rows l !! id = Some r -> exists r', Rows l' !! id = Some r' /\ ApplyStatus r' = ApplyStatus r) as (Hs & Hrows & Hacc & Hkeep).
  { assert (forall id r, row_ok received id r -> row_ok (packet :: received) id r) as Hmore.
    { intros id r (A & B & e1 & C & D). split_and!; [done|done|]. exists e1. split; [by right|done]. }
    assert (forall r', r' = r' -> forall id r, <[EventID packet := r']> (Rows l) !! id = Some r -> id <> EventID packet -> row_ok (packet :: received) id r) as Hother.
    { intros r' _ id r Hr Hne. rewrite lookup_insert_ne in Hr by done. by apply Hmore, W2. }
    destruct (Rows l !! EventID packet) as [r0|] eqn:Er; injection Hin as <- <- <-; cbn.
    - destruct (W2 _ _ Er) as (Hid0 & Hst0 & e1 & He1 & Hs1). assert (same_event e1 packet) as Hs1p by (apply Hids; [done|]; destruct Hs1 as (_ & ? & _); congruence).
      split_and!; [done|..].
      + intros id r Hr. destruct (decide (id = EventID packet)) as [->|Hne]; [|by apply (Hother (with_duplicate r0))].
        rewrite lookup_insert_eq in Hr. injection Hr as <-. split_and!; [done|done|]. exists e1. split; [by right|]. destruct Hs1 as ([R1 R2 R3 R4 R5 R6 R7] & ? & ? & ?). by split_and!.
      + unfold accounted. destruct Hs1p as (_ & Hidp & Hkp & Hcp). destruct (W6 e1 He1) as [Hb|(r & Hr & Hne)].
        * left. rewrite Hkp, Hcp. exact Hb.
        * right. cbn. exists (with_duplicate r0). rewrite lookup_insert_eq. split; [done|]. rewrite <- Hidp, Er in Hr. injection Hr as ->. exact Hne.
      + intros id r Hr. destruct (decide (id = EventID packet)) as [->|Hne]; [exists (with_duplicate r0)|exists r; by rewrite lookup_insert_ne].
        rewrite lookup_insert_eq. split; [done|]. rewrite Er in Hr. by injection Hr as ->.
    - split_and!; [done|..].
      + intros id r Hr. destruct (decide (id = EventID packet)) as [->|Hne]; [|by apply (Hother (with_row (NextRow l) packet))].
        rewrite lookup_insert_eq in Hr. injection Hr as <-. split_and!; [done|cbn; rewrite Hst; left|]. exists packet. split; [left|].
        destruct (eo_counters _ Hok) as (i & o & Hc). by apply (same_event_intro _ _ i o).
      + right. cbn. exists (with_row (NextRow l) packet). rewrite lookup_insert_eq. split; [done|]. cbn. by rewrite Hst.
      + intros id r Hr. exists r. rewrite lookup_insert_ne; [done|]. intros <-. congruence. }
  split; cbn.
  - intros e1 e2 [->|H1]%elem_of_cons [->|H2]%elem_of_cons Heq; [done|..|by apply W1]; [apply same_event_sym|]; try (apply Hids; done || congruence).
    by destruct (W1 e2 e2 H2 H2 eq_refl).
  - done.
  - by rewrite Hs.
  - intros key. unfold session_core. rewrite Hs. apply W4.
  - intros key. unfold session_core at 1. rewrite Hs. eapply below_trans; [apply W5|]. apply join_least; [apply join_below_l|].
    apply (below_trans _ (all_of key (packet :: received))); [|apply join_below_r]. cbn [all_of foldr]. destruct (_ =? _)%string; [apply join_below_r|apply below_refl].
  - intros e1 [->|He1]%elem_of_cons; [done|]. destruct (W6 e1 He1) as [Hb|(r & Hr & Hne)]; [left; unfold session_core; by rewrite Hs|].
    right. destruct (Hkeep _ _ Hr) as (r' & Hr' & Hst'). exists r'. split; [done|]. congruence.
Qed.

Lemma prune_ok start retention now l received : ledger_ok start (l, received) -> ledger_ok start (PruneAccountingEvents retention now l, received).
Proof.
  intros Hw. unfold PruneAccountingEvents. destruct (retention <=? 0); [done|]. destruct Hw as [W1 W2 W3 W4 W5 W6]. split; cbn in *; try done.
  - intros id r [Hr _]%map_lookup_filter_Some. by apply W2.
  - intros e He. destruct (W6 e He) as [Hb|(r & Hr & Hne)]; [by left|]. right. exists r. split; [|done]. cbn. apply map_lookup_filter_Some. split; [done|]. cbn.
    destruct (W2 _ _ Hr) as (_ & Hst & _). apply elem_of_cons in Hst as [Hst|[Hst|Hst%list_elem_of_singleton]%elem_of_cons]; [|done|]; by rewrite Hst.
Qed.

Lemma ledger_ok_reachable start l received : Rows start = ∅ -> (forall key s, Sessions start !! key = Some s -> snap_ok s) ->
  rtc ledger_step (start, []) (l, received) -> ledger_ok start (l, received).
Proof.
  intros Hempty Hsnap Hr. assert (ledger_ok start (start, [])) as H0.
  { assert (forall key, snap_ok (default no_session (Sessions start !! key))) as Hs.
    { intros key. destruct (Sessions start !! key) eqn:E; [by apply (Hsnap key)|apply snap_ok_none]. }
    split; cbn; try (intros ? ?%not_elem_of_nil); try done.
    - by intros ? ? ?%not_elem_of_nil.
    - intros id r. by rewrite Hempty, lookup_empty.
    - intros key. apply below_refl.
    - intros key. apply join_below_l. }
  assert (forall w, rtc ledger_step w (l, received) -> ledger_ok start w -> ledger_ok start (l, received)) as Hind; [|by apply (Hind _ Hr)].
  clear Hr H0. intros w Hr. induction Hr as [w|w w' w'' Hs _ IH]; [done|]. intros Hw. apply IH. destruct Hs.
  - by eapply ingest_ok.
  - unfold ApplyAccountingEventByID. destruct (Rows l0 !! TrimSpace id) as [e|] eqn:He; [|done]. destruct (_ || _); [done|].
    destruct (lo_rows _ _ Hw _ _ He) as (_ & _ & e0 & He0 & Hsame). pose proof (apply_and_mark_ok start f now e e0 l0 received0 Hw He0 Hsame) as Hw'.
    by destruct (apply_and_mark f now e l0).
  - by apply pending_ok.
  - by apply replay_ok.
  - by apply prune_ok.
Qed.

Lemma contribution_core_ok e : event_ok e -> core_ok (contribution e).
Proof.
  intros He. destruct (eo_counters _ He) as (i & o & Hc). destruct (contribution_counters _ _ _ Hc) as [Hi Ho]. pose proof (eo_session_time _ He).
  destruct Hc as [[? _] [? _]]. unfold core_ok, contribution. cbn. rewrite Hi, Ho. unfold max_int64. lia.
Qed.

Lemma all_of_core_ok key events : (forall e, e ∈ events -> event_ok e) -> core_ok (all_of key events).
Proof.
  induction events as [|e events IH]; intros Hok; cbn [all_of foldr]; [done|]. fold (all_of key events).
  assert (core_ok (all_of key events)) as (?&?&?) by (apply IH; intros; apply Hok; by right).
  destruct (_ =? _)%string; [|done]. destruct (contribution_core_ok e) as (?&?&?); [apply Hok; left|].
  unfold core_ok, join. cbn [CoIn CoOut CoTime]. lia.
Qed.

(** When nothing waits, every packet received is in its session. *)
Lemma ledger_settled start l received : ledger_ok start (l, received) -> (forall id r, Rows l !! id = Some r -> is_pending r = false) ->
  forall key, session_core l key = join (session_core start key) (all_of key received).
Proof.
  intros Hw Hdone key. apply below_antisym; [apply (lo_within _ _ Hw)|]. apply join_least; [apply (lo_above _ _ Hw)|].
  apply all_of_below; [apply snap_core_ok; by apply (session_snap start (l, received))|]. intros e He Hk.
  destruct (lo_accounted _ _ Hw e He) as [Hb|(r & Hr & Hne)]; [by rewrite <- Hk|]. exfalso. apply Hne.
  destruct (lo_rows _ _ Hw _ _ Hr) as (_ & Hst & _). specialize (Hdone _ _ Hr). unfold is_pending in Hdone.
  apply elem_of_cons in Hst as [Hst|[Hst|Hst%list_elem_of_singleton]%elem_of_cons]; rewrite Hst in Hdone; done.
Qed.



(** ** Draining *)

Definition pending_map (l : Ledger) : gmap string Event := filter (fun kv => is_pending kv.2 = true) (Rows l).

Lemma apply_pending_one start l received e now i events a : ledger_ok start (l, received) -> Rows l !! EventID e = Some e ->
  exists l', applyAccountingEvents (fun _ => NoFault) now i (e :: events) a l = applyAccountingEvents (fun _ => NoFault) now (S i) events (count_applied (apply_and_mark NoFault now e l).1 a) l'
  /\ ledger_ok start (l', received) /\ pending_map l' = delete (EventID e) (pending_map l)
  /\ forall id, id <> EventID e -> Rows l' !! id = Rows l !! id.
Proof.
  intros Hw He. destruct (lo_rows _ _ Hw _ _ He) as (_ & _ & e0 & He0 & Hse). pose proof (apply_and_mark_ok start NoFault now e e0 l received Hw He0 Hse) as Hw'.
  cbn [applyAccountingEvents]. destruct (apply_and_mark NoFault now e l) as [r l'] eqn:E. exists l'. split; [done|]. split; [done|].
  unfold apply_and_mark, applyAccountingEventRecord in E. pose proof Hse as (Heok & _). pose proof (normalize_same now e Heok) as Hn.
  set (e' := normalizeAccountingEventRecord now e) in *. pose proof Hn as (Hok' & Hid' & _).
  pose proof (apply_with_effect (classifyAccountingEventOrdering e' l) (Sessions l !! SessionKey e') NoFault now e' l Hok' (session_snap start _ (SessionKey e') Hw)) as Heff.
  destruct (apply_with _ _ _ _ _ _) as [r1 l1]. destruct Heff as (_ & _ & (g & Hg & Hgr) & Hnf). rewrite (Hnf eq_refl) in Hgr. destruct r1 as [rr|]; [|by specialize (Hnf eq_refl)].
  injection E as <- <-. rewrite Hid' in Hg. destruct (Hgr e) as (_ & _ & Hst); [by apply same_event_sym|]. specialize (Hst eq_refl). split.
  - apply map_eq. intros id. unfold pending_map. destruct (decide (id = EventID e)) as [->|Hne].
    + rewrite lookup_delete_eq. apply map_lookup_filter_None_2. right. intros r. rewrite Hg, lookup_alter_eq, He. cbn. intros [= <-]. unfold is_pending. by rewrite Hst.
    + rewrite lookup_delete_ne by done. rewrite !map_lookup_filter, Hg, lookup_alter_ne by done. done.
  - intros id Hne. by rewrite Hg, lookup_alter_ne.
Qed.

Lemma drain_events start received now events : forall l i a, ledger_ok start (l, received) -> NoDup (EventID <$> events) ->
  (forall e, e ∈ events -> Rows l !! EventID e = Some e /\ is_pending e = true) ->
  let l' := (applyAccountingEvents (fun _ => NoFault) now i events a l).2 in
  ledger_ok start (l', received) /\ (size (pending_map l') + length events = size (pending_map l))%nat.
Proof.
  induction events as [|e events IH]; intros l i a Hw Hnd He; [cbn; split; [done|lia]|]. cbv zeta in *. destruct (He e) as [Hrow Hp]; [left|].
  destruct (apply_pending_one start l received e now i events a Hw Hrow) as (l1 & -> & Hw1 & Hpm & Hkeep).
  cbn [fmap list_fmap] in Hnd. apply NoDup_cons in Hnd as [Hnotin Hnd]. destruct (IH l1 (S i) (count_applied (apply_and_mark NoFault now e l).1 a) Hw1 Hnd) as [Hw2 Hsize].
  - intros e1 He1. destruct (He e1) as [Hrow1 Hp1]; [by right|]. split; [|done]. rewrite Hkeep; [done|]. intros Heq. apply Hnotin. rewrite <- Heq. by apply list_elem_of_fmap_2.
  - split; [done|]. rewrite Hpm in Hsize. rewrite map_size_delete_Some in Hsize; [|exists e; apply map_lookup_filter_Some_2; done].
    assert (size (pending_map l) <> 0)%nat; [|cbn; lia]. rewrite map_size_ne_0_lookup. exists (EventID e), e. by apply map_lookup_filter_Some_2.
Qed.

Lemma NoDup_fst_filter {A} (P : string * A -> Prop) `{forall x, Decision (P x)} l : NoDup l.*1 -> NoDup (filter P l).*1.
Proof.
  induction l as [|[k a] l IH]; [done|]. cbn [fmap list_fmap]. intros [Hni Hnd]%NoDup_cons. rewrite filter_cons. destruct (decide _); [|by apply IH].
  cbn. apply NoDup_cons. split; [|by apply IH]. intros ([k' a'] & Heq & [_ Hin]%list_elem_of_filter)%list_elem_of_fmap. apply Hni. cbn in *. subst k'.
  by apply (list_elem_of_fmap_2 fst _ (k, a')).
Qed.

Lemma pending_events_spec start l received : ledger_ok start (l, received) ->
  length (pending_events l) = size (pending_map l) /\ NoDup (EventID <$> pending_events l)
  /\ forall e, e ∈ pending_events l -> Rows l !! EventID e = Some e /\ is_pending e = true.
Proof.
  intros Hw. pose proof (fun id r => lo_rows _ _ Hw id r) as Hrows. cbn in Hrows. unfold pending_events, pending_map. rewrite length_sort_by.
  assert (NoDup (EventID <$> List.filter is_pending (map_to_list (Rows l)).*2)
    /\ length (List.filter is_pending (map_to_list (Rows l)).*2) = size (filter (fun kv => is_pending kv.2 = true) (Rows l))) as [Hnd Hlen].
  { assert (NoDup (map_to_list (Rows l)).*1) as Hkeys by apply NoDup_fst_map_to_list.
    rewrite map_filter_alt, <- length_map_to_list, map_to_list_to_map by (by apply NoDup_fst_filter).
    assert (forall kv, kv ∈ map_to_list (Rows l) -> EventID kv.2 = kv.1) as Hids.
    { intros [id r] Hr%elem_of_map_to_list. by destruct (Hrows _ _ Hr). }
    induction (map_to_list (Rows l)) as [|[id r] m IH]; [by split; [apply NoDup_nil|]|]. cbn [fmap list_fmap List.filter] in *.
    apply NoDup_cons in Hkeys as [Hni Hkeys]. destruct IH as [IH1 IH2]; [done|intros; apply Hids; by right|]. rewrite filter_cons. cbn [snd].
    destruct (is_pending r) eqn:E; [rewrite decide_True by done|by rewrite decide_False]. cbn. split; [|by rewrite IH2].
    apply NoDup_cons. split; [|done]. pose proof (Hids (id, r) ltac:(left)) as Hidr. cbn in Hidr. rewrite Hidr. intros Hin. apply Hni. apply list_elem_of_fmap in Hin as (e & -> & He).
    apply list_elem_of_In, filter_In in He as [He _]. apply list_elem_of_In, list_elem_of_fmap in He as ([id' r'] & -> & He). cbn.
    pose proof (Hids (id', r') ltac:(by right)) as Hidr'. cbn in Hidr'. rewrite Hidr'. by apply (list_elem_of_fmap_2 fst _ (id', r')). }
  split_and!; [done|by rewrite sort_by_perm|]. intros e He. rewrite sort_by_perm in He. apply list_elem_of_In, filter_In in He as [He Hp]. split; [|done].
  apply list_elem_of_In, list_elem_of_fmap in He as ([id r] & -> & He%elem_of_map_to_list). cbn. by destruct (Hrows _ _ He) as (-> & _).
Qed.

(** One pass of the replay worker when no statement fails *)
Definition pass (now limit : Z) (l : Ledger) : Ledger := (ApplyPendingAccountingEvents (fun _ => NoFault) now limit l).2.

Lemma pass_spec start l received now limit : ledger_ok start (l, received) ->
  ledger_ok start (pass now limit l, received) /\ size (pending_map (pass now limit l)) = (size (pending_map l) - Z.to_nat (batch_limit limit))%nat.
Proof.
  intros Hw. destruct (pending_events_spec start l received Hw) as (Hlen & Hnd & Hall). unfold pass, ApplyPendingAccountingEvents. set (n := Z.to_nat (batch_limit limit)).
  destruct (drain_events start received now (take n (pending_events l)) l 0 (mkApplyResult (zlen (take n (pending_events l))) 0 0 0 0 0 0 0 0) Hw) as [Hw' Hsize].
  - rewrite fmap_take. eapply sublist_NoDup; [exact Hnd|]. apply sublist_take.
  - intros e He%subseteq_take. by apply Hall.
  - split; [done|]. rewrite length_take, Hlen in Hsize. lia.
Qed.


(** ** What the order of arrival does matter for *)

(** Two packets of one session applied at the same time can lose one of them: each application reads the session before it writes it,
    so when the second reads before the first has written, the session ends without the first packet's part, although both rows
    are marked as applied. *)
Theorem overlapping_applies_lose_a_packet (l : Ledger) (e1 e2 : Event) (now : Z) (ordering1 ordering2 : string) :
  event_ok e1 -> event_ok e2 -> SessionKey e1 = SessionKey e2 -> EventID e1 <> EventID e2 -> Rows l !! EventID e1 = Some e1 -> Rows l !! EventID e2 = Some e2 ->
  snap_ok (default no_session (Sessions l !! SessionKey e1)) ->
  let read := Sessions l !! SessionKey e1 in
  let l1 := (apply_with ordering1 read NoFault now e1 l).2 in
  let l2 := (apply_with ordering2 read NoFault now e2 l1).2 in
  session_core l2 (SessionKey e1) = join (session_core l (SessionKey e1)) (contribution e2)
  /\ (ApplyStatus <$> Rows l2 !! EventID e1 = Some "applied") /\ (ApplyStatus <$> Rows l2 !! EventID e2 = Some "applied").
Proof.
  intros He1 He2 Hk Hid Hr1 Hr2 Hs. cbv zeta.
  pose proof (apply_with_effect ordering1 (Sessions l !! SessionKey e1) NoFault now e1 l He1 Hs) as H1. destruct (apply_with ordering1 _ _ _ _ _) as [r1 l1].
  destruct H1 as (_ & Hm1 & (g1 & Hg1 & Hgr1) & Hok1). rewrite (Hok1 eq_refl) in *. cbn [snd].
  pose proof (apply_with_effect ordering2 (Sessions l !! SessionKey e1) NoFault now e2 l1 He2 Hs) as H2. destruct (apply_with ordering2 _ _ _ _ _) as [r2 l2].
  destruct H2 as (_ & Hm2 & (g2 & Hg2 & Hgr2) & Hok2). rewrite (Hok2 eq_refl) in *. cbn [snd].
  assert (forall e, event_ok e -> same_event e e) as Hself by done. split_and!.
  - destruct (Hm2 eq_refl) as (s & Hs2 & _ & Hc). unfold session_core at 1. rewrite Hs2, Hk, lookup_insert_eq. cbn. rewrite Hc. unfold session_core. by rewrite Hk.
  - rewrite Hg2, lookup_alter_ne by done. rewrite Hg1, lookup_alter_eq, Hr1. cbn. f_equal. by apply Hgr1; [apply Hself|].
  - rewrite Hg2, lookup_alter_eq. rewrite Hg1, lookup_alter_ne, Hr2 by done. cbn. f_equal. by apply Hgr2; [apply Hself|].
Qed.

(** The session after one packet *)
Definition session_after (before : option Snapshot) (now : Z) (e : Event) : Snapshot :=
  upsertAccountingSession (mergeAccountingSessionSnapshot (default no_session before) now (classifyAccountingEventCounters before now e)).

Lemma classified e before now : event_ok e -> let e' := classifyAccountingEventCounters before now e in
  event_ok e' /\ EventTime e' = EventTime e /\ StatusType e' = StatusType e /\ AcctTerminateCause e' = TrimSpace (AcctTerminateCause e)
  /\ accountingEventInputTotal64 (EvCounters e') = accountingEventInputTotal64 (EvCounters e)
  /\ accountingEventOutputTotal64 (EvCounters e') = accountingEventOutputTotal64 (EvCounters e).
Proof.
  intros He. cbv zeta. destruct (classify_same before now e He) as (He' & _). destruct (eo_counters _ He) as (i & o & Hc). destruct (contribution_counters _ _ _ Hc) as [-> ->].
  assert (counters_are i o (normalizeAccountingEventCounterFields (trim_counters (EvCounters e)))) as Hc' by (apply counters_again; by destruct Hc).
  destruct (eo_time _ He) as (t & Ht & Htok & _). destruct (parse_written t Htok) as (_ & _ & Hne). destruct (normalize_canonical (EventTime e)) as [Hnt _]; [right; eauto|].
  assert (EventTime (normalizeAccountingEventRecord now e) = EventTime e) as Htime by (cbn; rewrite Hnt; apply or_text_nonempty; by rewrite Ht).
  split; [done|]. unfold classifyAccountingEventCounters in *. destruct before as [s|]; [destruct (_ || _)|];
    (split_and!; [exact Htime|apply (eo_status _ He)|done|..]; destruct Hc'; by apply counter_total_counted).
Qed.

Lemma merged_stop s now e : event_ok e -> StatusType e = "Stop" ->
  SnStopReason (upsertAccountingSession (mergeAccountingSessionSnapshot s now e))
  = TrimSpace (if negb (TrimSpace (AcctTerminateCause e) =? "")%string && (maxAccountingTime (SnEndTime s) (EventTime e) =? EventTime e)%string
               then TrimSpace (AcctTerminateCause e) else or_text (SnStopReason s) "accounting-stop").
Proof.
  intros He Hst. destruct (eo_time _ He) as (t & Ht & Htok & _). destruct (parse_written t Htok) as (_ & _ & Hne). destruct (normalize_canonical (EventTime e)) as [Hnt _]; [right; eauto|].
  unfold mergeAccountingSessionSnapshot, merged_end. rewrite Hst, Hnt, or_text_nonempty by (by rewrite Ht). done.
Qed.

(** Why a session ended depends on the order of arrival: of two Stops of a session, the earlier with a cause and the later without, the session
    keeps the cause when they arrive in order, and records that accounting stopped when they arrive the other way. *)
Theorem stop_reason_depends_on_order (now t1 t2 : Z) (e1 e2 : Event) :
  event_ok e1 -> event_ok e2 -> StatusType e1 = "Stop" -> StatusType e2 = "Stop" -> EventTime e1 = rfc3339nano t1 -> EventTime e2 = rfc3339nano t2 ->
  time_ok t1 = true -> time_ok t2 = true -> t1 < t2 -> TrimSpace (AcctTerminateCause e1) <> "" -> TrimSpace (AcctTerminateCause e2) = "" ->
  SnStopReason (session_after (Some (session_after None now e1)) now e2) = TrimSpace (AcctTerminateCause e1)
  /\ SnStopReason (session_after (Some (session_after None now e2)) now e1) = "accounting-stop".
Proof.
  intros He1 He2 Hs1 Hs2 Ht1 Ht2 Hok1 Hok2 Hlt Hc1 Hc2.
  assert (forall before e t, event_ok e -> StatusType e = "Stop" -> EventTime e = rfc3339nano t -> time_ok t = true -> snap_ok (default no_session before) ->
    SnStopReason (session_after before now e)
    = TrimSpace (if negb (TrimSpace (AcctTerminateCause e) =? "")%string && (maxAccountingTime (SnEndTime (default no_session before)) (EventTime e) =? EventTime e)%string
                 then TrimSpace (AcctTerminateCause e) else or_text (SnStopReason (default no_session before)) "accounting-stop")
    /\ snap_ok (session_after before now e)
    /\ instant (SnEndTime (session_after before now e)) = opt_join Z.max (instant (SnEndTime (default no_session before))) (Some t)) as Hstep.
  { intros before e t He Hst Ht Hok Hsn. destruct (classified e before now He) as (He' & Htime & Hst' & Hcause & _). unfold session_after.
    destruct (merge_core (default no_session before) now _ Hsn He') as [Hsnap Hcore]. split_and!; [|done|].
    - rewrite merged_stop by (done || congruence). rewrite Hcause, Htime. by autorewrite with gostrings.
    - apply (f_equal CoEnd) in Hcore. cbn [CoEnd core_of join contribution] in Hcore. rewrite Hcore. cbn [default]. rewrite Hst', Hst, Htime, Ht. cbn [String.eqb Ascii.eqb Bool.eqb]. f_equal. f_equal. by apply parse_written. }
  destruct (Hstep None e1 t1 He1 Hs1 Ht1 Hok1 snap_ok_none) as (R1 & S1 & E1). destruct (Hstep None e2 t2 He2 Hs2 Ht2 Hok2 snap_ok_none) as (R2 & S2 & E2).
  destruct (Hstep (Some (session_after None now e1)) e2 t2 He2 Hs2 Ht2 Hok2 S1) as (R12 & _). destruct (Hstep (Some (session_after None now e2)) e1 t1 He1 Hs1 Ht1 Hok1 S2) as (R21 & _).
  change (SnEndTime (default no_session None)) with "" in *. rewrite instant_empty in E1, E2. cbn [opt_join] in E1, E2.
  apply String.eqb_neq in Hc1 as Hc1b. rewrite Hc2 in *. cbn [from_option id] in *. split.
  - rewrite R12. cbn [String.eqb negb andb]. rewrite R1, Hc1b, Ht1. cbn [negb andb].
    assert (maxAccountingTime "" (rfc3339nano t1) = rfc3339nano t1) as ->.
    { unfold maxAccountingTime. by destruct (normalize_canonical (rfc3339nano t1)) as [-> _]; [right; eauto|]. }
    rewrite String.eqb_refl, or_text_nonempty; by autorewrite with gostrings.
  - rewrite R21. destruct (maxAccountingTime_canonical (SnEndTime (session_after None now e2)) (EventTime e1)) as [_ Hi]; [apply S2|rewrite Ht1; right; eauto|].
    rewrite E2, Ht1, instant_written in Hi by done. cbn [opt_join] in Hi. rewrite Ht1.
    destruct (String.eqb_spec (maxAccountingTime (SnEndTime (session_after None now e2)) (rfc3339nano t1)) (rfc3339nano t1)) as [Heq|_].
    + rewrite Heq, instant_written in Hi by done. injection Hi as Hi. lia.
    + rewrite andb_false_r, R2. cbn [String.eqb negb andb]. done.
Qed.

Lemma marked_after (now : Z) (e : Event) s : event_ok e -> StatusType e <> "Start" ->
  ResetDetected (EvCounters (classifyAccountingEventCounters (Some s) now e))
  = (SnBytesIn s >? accountingEventInputTotal64 (EvCounters e)) || (SnBytesOut s >? accountingEventOutputTotal64 (EvCounters e)) || ResetDetected (EvCounters e).
Proof.
  intros He Hst. destruct (classified e None now He) as (_ & _ & Hst' & _ & Hi & Ho). unfold classifyAccountingEventCounters in *.
  rewrite Hi, Ho. apply String.eqb_neq in Hst. rewrite Hst', Hst. cbn [orb]. destruct (_ || _); [done|]. done.
Qed.

Lemma merged_octets s e : core_of s = join (core_of no_session) (contribution e) ->
  SnBytesIn s = Z.max 0 (Z.min max_int64 (accountingEventInputTotal64 (EvCounters e)))
  /\ SnBytesOut s = Z.max 0 (Z.min max_int64 (accountingEventOutputTotal64 (EvCounters e))).
Proof. intros H. split; [exact (f_equal CoIn H)|exact (f_equal CoOut H)]. Qed.

Lemma octets_after (now : Z) (e : Event) : event_ok e ->
  SnBytesIn (session_after None now e) = Z.min max_int64 (accountingEventInputTotal64 (EvCounters e))
  /\ SnBytesOut (session_after None now e) = Z.min max_int64 (accountingEventOutputTotal64 (EvCounters e)).
Proof.
  intros He. destruct (classified e None now He) as (He' & _ & _ & _ & Hi & Ho). destruct (merge_core no_session now _ snap_ok_none He') as [_ Hcore].
  destruct (eo_counters _ He) as (i & o & Hc). pose proof (contribution_counters _ _ _ Hc) as [Ei Eo]. destruct Hc as [[? _] [? _]].
  assert (0 <= max_int64) by by compute. apply merged_octets in Hcore as [Hin Hout]. rewrite Hi, Ei in Hin. rewrite Ho, Eo in Hout.
  unfold session_after. cbn [default]. rewrite Hin, Hout, Ei, Eo. clear - H H0 H1. lia.
Qed.

(** A late packet is taken for a counter reset: when two packets of a session, the later with more octets, are applied in order, neither is
    marked, and when the earlier one comes late it is marked as a reset of the counters. *)
Theorem late_packet_marked_as_reset (now : Z) (e1 e2 : Event) :
  event_ok e1 -> event_ok e2 -> StatusType e1 <> "Start" -> StatusType e2 <> "Start" ->
  ResetDetected (EvCounters e1) = false -> ResetDetected (EvCounters e2) = false ->
  accountingEventInputTotal64 (EvCounters e1) < accountingEventInputTotal64 (EvCounters e2) <= max_int64 ->
  accountingEventOutputTotal64 (EvCounters e1) <= accountingEventOutputTotal64 (EvCounters e2) ->
  let marked before e := ResetDetected (EvCounters (classifyAccountingEventCounters before now e)) in
  marked None e1 = false /\ marked (Some (session_after None now e1)) e2 = false
  /\ marked None e2 = false /\ marked (Some (session_after None now e2)) e1 = true.
Proof.
  intros He1 He2 Hs1 Hs2 Hr1 Hr2 Hin Hout. cbv zeta. destruct (octets_after now e1 He1) as [A1 A2]. destruct (octets_after now e2 He2) as [B1 B2].
  rewrite !marked_after, A1, A2, B1, B2, Hr1, Hr2 by done.
  split_and!; [exact Hr1| |exact Hr2|]; [|replace (_ >? _) with true by lia; done]. rewrite orb_false_r. apply orb_false_iff. lia.
Qed.
End packets.

End accounting.

(** ** Witnesses *)

(** Times written as their number of nanoseconds. *)
Definition clock : TimeText := {| parse_layouts := decimal_value 0; rfc3339nano := Itoa; four_digit_year t := 0 <=? t |}.
Definition cut_digest : HexDigest := fun text => text.

Lemma clock_laws : @TimeTextLaws clock.
Proof.
  split; cbn; intros t Ht; [apply decimal_value_Itoa; lia|]. apply TrimSpace_Itoa. lia.
Qed.

#[local] Existing Instances clock cut_digest clock_laws.

Definition example_names : Names := mkNames "bob" "10.0.0.1" "7" "aa-bb" "" "" "" "" "" "" "" "" "".
Definition packet (id status : string) (seconds session_time input output : Z) (cause : string) : Event :=
  normalizeAccountingEventRecord 0 (mkEvent 0 id "u1" "s1" "s1" status (Itoa (seconds * 1000000000)) example_names
    (mkCounters input 0 "" output 0 "" "" "" false false) session_time cause "" "" "" 0).

Definition p_start : Event := packet "p1" "start" 100 0 0 0 "".
Definition p_interim : Event := packet "p2" "interim" 160 60 7000000000 500 "".
Definition p_stop : Event := packet "p3" "stop" 220 120 9000000000 700 "user-request".
Definition p_stop_again : Event := packet "p4" "stop" 230 130 9000000000 700 "".
Definition packets : list Event := [p_start; p_interim; p_stop].

Ltac packet_ok t i o :=
  split; [exists t; repeat split; vm_compute; reflexivity|vm_compute; split; congruence|vm_compute; tauto|vm_compute; reflexivity
         |split; [vm_compute; reflexivity|vm_compute; congruence]|split; [vm_compute; reflexivity|vm_compute; congruence]
         |exists i, o; repeat split; vm_compute; congruence].

Lemma p_start_ok : event_ok p_start.
Proof. packet_ok 100000000000 0 0. Qed.
Lemma p_interim_ok : event_ok p_interim.
Proof. packet_ok 160000000000 7000000000 500. Qed.
Lemma p_stop_ok : event_ok p_stop.
Proof. packet_ok 220000000000 9000000000 700. Qed.
Lemma p_stop_again_ok : event_ok p_stop_again.
Proof. packet_ok 230000000000 9000000000 700. Qed.

Lemma packets_ok e : e ∈ packets -> event_ok e /\ normalizeAccountingEventRecord 0 e = e /\ ApplyStatus e = "pending".
Proof.
  intros [->|[->|[->|[]%not_elem_of_nil]%elem_of_cons]%elem_of_cons]%elem_of_cons; (split_and!; [|vm_compute; reflexivity..]);
    [apply p_start_ok|apply p_interim_ok|apply p_stop_ok].
Qed.

Lemma packets_unique e1 e2 : e1 ∈ packets -> e2 ∈ packets -> EventID e1 = EventID e2 -> e1 = e2.
Proof.
  intros [->|[->|[->|[]%not_elem_of_nil]%elem_of_cons]%elem_of_cons]%elem_of_cons [->|[->|[->|[]%not_elem_of_nil]%elem_of_cons]%elem_of_cons]%elem_of_cons Hid;
    (reflexivity || (exfalso; vm_compute in Hid; congruence)).
Qed.

(** The packets of a list, received one after the other *)
Definition ingested (events : list Event) (l : Ledger) : Ledger :=
  foldl (fun l e => match IngestAccountingEvent 0 e l with Ok (_, _, l') => l' | Err _ => l end) l events.

Lemma ingest_steps events : forall l received, events ⊆ packets -> received ⊆ packets -> rtc ledger_step (l, received) (ingested events l, reverse events ++ received).
Proof.
  induction events as [|e events IH]; intros l received He Hr; [done|]. rewrite reverse_cons, <- (assoc (++)).
  assert (e ∈ packets) as Hin by (apply He; left). destruct (packets_ok e Hin) as (Hok & Hn & Hp). destruct (eo_id _ Hok) as [_ Hid]. destruct (eo_key _ Hok) as [_ Hk].
  transitivity (match IngestAccountingEvent 0 e l with Ok (_, _, l') => l' | Err _ => l end, e :: received).
  - apply rtc_once. destruct (IngestAccountingEvent 0 e l) as [[[row duplicate] l']|err] eqn:Hi.
    + pose proof (StepIngest 0 e l received row duplicate l') as Hstep. cbv zeta in Hstep. rewrite Hn in Hstep. apply Hstep; try done. apply Forall_forall. intros e0 He0 Heq.
      rewrite (packets_unique e0 e); [done|by apply Hr|done|done].
    + exfalso. unfold IngestAccountingEvent in Hi. rewrite Hn in Hi. apply String.eqb_neq in Hid, Hk. rewrite Hid, Hk in Hi. by destruct (Rows l !! EventID e).
  - apply IH; intros x Hx; [apply He; by right|]. apply elem_of_cons in Hx as [->|Hx]; [done|by apply Hr].
Qed.

Definition empty_ledger : Ledger := mkLedger ∅ 1 ∅.
(** In order and applied at once, and out of order with a duplicate and a replay. *)
Definition in_order : Ledger := (ApplyPendingAccountingEvents (fun _ => NoFault) 0 0 (ingested packets empty_ledger)).2.
Definition received_again : Ledger := ingested [p_stop; p_interim; p_stop; p_start] empty_ledger.
Definition out_of_order : Ledger := (ReplayAccountingEvents (fun _ => NoFault) 0 0 "s1" (ApplyAccountingEventByID NoFault 0 "p3" received_again).2).2.

Lemma in_order_reached : rtc ledger_step (empty_ledger, []) (in_order, reverse packets ++ []).
Proof. eapply rtc_r; [apply ingest_steps; set_solver|]. apply StepPending. Qed.
Lemma received_again_reached : rtc ledger_step (empty_ledger, []) (received_again, reverse [p_stop; p_interim; p_stop; p_start] ++ []).
Proof. apply ingest_steps; unfold packets; set_solver. Qed.
Lemma out_of_order_reached : rtc ledger_step (empty_ledger, []) (out_of_order, reverse [p_stop; p_interim; p_stop; p_start] ++ []).
Proof. eapply rtc_r; [eapply rtc_r; [apply received_again_reached|apply StepApply]|apply StepReplay]. Qed.

Lemma no_sessions key s : Sessions empty_ledger !! key = Some s -> snap_ok s.
Proof. cbn. by rewrite lookup_empty. Qed.

(** No row of a concrete ledger waits. *)
Lemma none_pending l : forallb (fun kv => negb (is_pending kv.2)) (map_to_list (Rows l)) = true -> forall id r, Rows l !! id = Some r -> is_pending r = false.
Proof. intros Hl id r Hr%elem_of_map_to_list. rewrite forallb_forall in Hl. apply negb_true_iff. apply (Hl (id, r)). by apply list_elem_of_In. Qed.

Definition example_core : Core := mkCore (Some 100000000000) (Some 220000000000) (Some 220000000000) 9000000000 700 120.

Lemma counter_halves_witness : Total (normalizeCounterParts 5000000000 2) = 2 * 2 ^ 32 + 705032704 /\ Total (normalizeCounterParts 0 4294967296) = 2 ^ 64 - 1.
Proof.
  split.
  - destruct (counter_halves 5000000000 2) as (_ & _ & _ & H & _); [vm_compute; split; congruence..|]. destruct (H ltac:(vm_compute; congruence)) as (_ & -> & _). reflexivity.
  - destruct (counter_halves 0 4294967296) as (_ & _ & _ & _ & H); [vm_compute; split; congruence..|]. apply H. reflexivity.
Defined.




Lemma overlapping_applies_lose_a_packet_witness :
  let l := mkLedger {["p1" := p_start; "p2" := p_interim]} 3 ∅ in
  CoIn (session_core (apply_with "in_order" None NoFault 0 p_start (apply_with "in_order" None NoFault 0 p_interim l).2).2 "s1") = 0.
Proof.
  cbv zeta. destruct (overlapping_applies_lose_a_packet (mkLedger {["p1" := p_start; "p2" := p_interim]} 3 ∅) p_interim p_start 0 "in_order" "in_order") as [H _];
    [apply p_interim_ok|apply p_start_ok|reflexivity|vm_compute; congruence|vm_compute; reflexivity|vm_compute; reflexivity|apply snap_ok_none|].
  apply (f_equal CoIn) in H. etransitivity; [exact H|]. vm_compute. reflexivity.
Defined.

Lemma stop_reason_depends_on_order_witness :
  SnStopReason (session_after (Some (session_after None 0 p_stop)) 0 p_stop_again) = "user-request"
  /\ SnStopReason (session_after (Some (session_after None 0 p_stop_again)) 0 p_stop) = "accounting-stop".
Proof.
  destruct (stop_reason_depends_on_order 0 220000000000 230000000000 p_stop p_stop_again) as [H1 H2];
    [apply p_stop_ok|apply p_stop_again_ok|vm_compute; (reflexivity || congruence)..|]. split; [rewrite H1; vm_compute; reflexivity|exact H2].
Defined.

Lemma late_packet_marked_as_reset_witness :
  ResetDetected (EvCounters (classifyAccountingEventCounters (Some (session_after None 0 p_stop)) 0 p_interim)) = true.
Proof.
  apply (late_packet_marked_as_reset 0 p_interim p_stop);
    [apply p_interim_ok|apply p_stop_ok|vm_compute; try split; (reflexivity || congruence)..].
Defined.
