(* ===== verification/RuntimeFirewall.v ===== *)
(** * The runtime firewall ([internal/enforcement/runtime_firewall.go])

    The active sessions are compiled into one nftables table: sets of quarantined addresses, and for each session with
    an ACL policy the lines of its rules followed by a default drop. Addresses and prefixes of [net/netip] are the
    interface [NetIP], the stored ACL policies are [AclStore], the digest of a ruleset is [RulesetDigest]. The
    specification reads the table as a packet filter. Constant fields of the plan (schema version, RFCs, attribute
    names, time of generation) are left out. *)

From S2P Require Import Prelude GoStrings Bytes.
From Stdlib Require Import Ascii.

(** ** What the code uses of [net/netip] *)

Class NetIP := {
  Addr : Type;
  Addr_eq_dec : EqDecision Addr;
  IPPrefix : Type;
  ParseAddr : string -> option Addr;
  ParsePrefix : string -> option IPPrefix;
  Unmap : Addr -> Addr;
  Is4 : Addr -> bool;
  Is6 : Addr -> bool;
  AddrString : Addr -> string;
  PrefixAddr : IPPrefix -> Addr;
  Masked : IPPrefix -> IPPrefix;
  PrefixFrom : Addr -> Z -> IPPrefix;
  PrefixContains : IPPrefix -> Addr -> bool;
  PrefixString : IPPrefix -> string;
}.
#[export] Existing Instance Addr_eq_dec.

(** ** Data *)

(** [radius.ACLRule] *)
Record ACLRule := mkACLRule {
  RlID : string; RlSequence : Z; RlAction : string; RlDirection : string; RlAddressFamily : string; RlProtocol : string;
  RlSource : string; RlSources : list string; RlSourceObjects : list string; RlSourcePort : string; RlSourcePorts : list string;
  RlDestination : string; RlDestinations : list string; RlDestinationObjects : list string; RlDestinationPort : string;
  RlDestinationPorts : list string; RlApplications : list string; RlURLCategories : list string; RlStates : list string;
  RlTCPFlags : list string; RlICMPTypes : list string; RlDSCP : list string; RlTimeRange : string; RlRemark : string;
  RlLog : bool; RlTags : list string }.

(** [radius.ACLDiagnostic], and what the code reads of [radius.StoredACLPolicy] *)
Record ACLDiagnostic := mkACLDiagnostic { AdSeverity : string; AdCode : string; AdPath : string; AdMessage : string }.
Record StoredACLPolicy := mkStoredACLPolicy { SpRules : list ACLRule; SpDiagnostics : list ACLDiagnostic }.

(** [radius.LoadACLPolicy]: an error, no enabled policy of this name, or the policy. *)
Class AclStore := LoadACLPolicy : string -> result string (option StoredACLPolicy).

(** [fingerprintRuntimeFirewallRuleset] *)
Class RulesetDigest := ruleset_digest : string -> string.

Record Session := mkSession {
  SessionID : string; Username : string; MAC : string; IP : string; IPv6Address : string; Role : string; FilterID : string;
  ACLPolicyName : string; VLAN : Z }.

Record Diagnostic := mkDiagnostic {
  Severity : string; Code : string; DgSessionID : string; PolicyName : string; DgRuleID : string; Path : string; Message : string }.

Record CompiledRule := mkCompiledRule {
  CrSessionID : string; CrPolicyName : string; CrRuleID : string; Direction : string; Family : string; Action : string; Line : string }.

Record SessionPlan := mkSessionPlan {
  SpSession : Session; IPv4 : string; IPv6 : string; Managed : bool; Quarantined : bool; PolicyFound : bool;
  SpRuleCount : Z; SpAppliedRuleCount : Z; SpPlanDiagnostics : list Diagnostic }.

Record Summary := mkSummary {
  TotalActiveSessions : Z; ManagedSessions : Z; QuarantineSessions : Z; IPv4Sessions : Z; IPv6Sessions : Z; PolicyCount : Z;
  RuleCount : Z; AppliedRuleCount : Z; BlockedRuleCount : Z }.

Record Plan := mkPlan {
  Status : string; PlMessage : string; Ruleset : string; RulesetFingerprint : string; PlSummary : Summary;
  PlDiagnostics : list Diagnostic; PlSessions : list SessionPlan; PlRules : list CompiledRule }.

(** ** Texts for nft *)

Definition dquote : string := String (Ascii.ascii_of_nat 34) "".
Definition newline : string := String (Ascii.ascii_of_nat 10) "".

Fixpoint escape_quotes (s : string) : string :=
  match s with
  | EmptyString => ""
  | String c s' => if (c =? Ascii.ascii_of_nat 34)%char then "\" +:+ dquote +:+ escape_quotes s' else String c (escape_quotes s')
  end.
Definition quoteNftString (value : string) : string := dquote +:+ escape_quotes value +:+ dquote.

Definition continuation (c : ascii) : bool := (128 <=? byte_of c) && (byte_of c <=? 191).

(** The bytes that a [range] over a string takes for one character: valid UTF-8 as it is encoded, anything else a byte. *)
Definition rune_width (s : string) : nat :=
  match s with
  | String a (String b s2) =>
      let x := byte_of a in
      let y := byte_of b in
      if (194 <=? x) && (x <=? 223) && continuation b then 2%nat
      else match s2 with
      | String c s3 =>
          if (224 <=? x) && (x <=? 239) && continuation b && continuation c && implb (x =? 224) (160 <=? y) && implb (x =? 237) (y <=? 159) then 3%nat
          else match s3 with
          | String d _ =>
              if (240 <=? x) && (x <=? 244) && continuation b && continuation c && continuation d && implb (x =? 240) (144 <=? y) && implb (x =? 244) (y <=? 143)
              then 4%nat else 1%nat
          | EmptyString => 1%nat
          end
      | EmptyString => 1%nat
      end
  | _ => 1%nat
  end.

Definition safe_char (c : ascii) : bool :=
  in_range "a"%char "z"%char c || in_range "A"%char "Z"%char c || in_range "0"%char "9"%char c || bool_decide (c ∈ ["."; "_"; ":"; "-"]%char).

(** The loop of [safeNftCommentToken]; [skip] bytes belong to the character written already. *)
Fixpoint safe_token (skip : nat) (s : string) : string :=
  match s with
  | EmptyString => ""
  | String c s' =>
      match skip with
      | S skip' => safe_token skip' s'
      | O => String (if safe_char c then c else "_"%char) (safe_token (rune_width s - 1) s')
      end
  end.

Definition safeNftCommentToken (value : string) : string :=
  let value := TrimSpace value in
  if (value =? "")%string then "none" else let token := safe_token 0 value in if (token =? "")%string then "none" else token.

(** [firstRuntimeFirewallString] *)
Definition firstRuntimeFirewallString (a b : string) : string :=
  if negb (TrimSpace a =? "")%string then TrimSpace a else if negb (TrimSpace b =? "")%string then TrimSpace b else "".

Definition withRuntimeFirewallRuleContext (diagnostics : list Diagnostic) (sessionID policyName ruleID : string) : list Diagnostic :=
  (fun d => mkDiagnostic (Severity d) (Code d) (firstRuntimeFirewallString (DgSessionID d) sessionID)
              (firstRuntimeFirewallString (PolicyName d) policyName) (firstRuntimeFirewallString (DgRuleID d) ruleID) (Path d) (Message d)) <$> diagnostics.

Definition diagnostic (severity code message : string) : Diagnostic := mkDiagnostic severity code "" "" "" "" message.

Section firewall.
Context {U : Unicode} {NI : NetIP} {AS : AclStore} {RD : RulesetDigest}.

(** ** Addresses, ports and protocols *)

Definition Contains_char (s : string) (c : ascii) : bool := negb (all_chars (fun x => negb (x =? c)%char) s).

Definition parseRuntimeFirewallAddress (value : string) : option Addr :=
  let value := TrimSpace value in
  if (value =? "")%string then None
  else if Contains_char value "/"%char then PrefixAddr <$> ParsePrefix value
  else Unmap <$> ParseAddr value.

Definition parseRuntimeFirewallPrefix (value : string) : option IPPrefix :=
  let value := TrimSpace value in
  if (value =? "")%string then None
  else if Contains_char value "/"%char then Masked <$> ParsePrefix value
  else match ParseAddr value with
       | None => None
       | Some addr => let addr := Unmap addr in Some (PrefixFrom addr (if Is4 addr then 32 else 128))
       end.

(** The address of each column, when it has one and the first does not have the same. *)
Definition runtimeFirewallSessionAddresses (session : Session) : list Addr :=
  let add out value :=
    match parseRuntimeFirewallAddress value with
    | None => out
    | Some addr => if bool_decide (AddrString addr ∈ (AddrString <$> out)) then out else out ++ [addr]
    end in
  add (add [] (IP session)) (IPv6Address session).

Definition normalizeRuntimeFirewallPort (value : string) : option string :=
  let value := TrimSpace value in
  if (value =? "")%string then None
  else if Contains_char value "-"%char then
    let '(low, high, _) := CutChar value "-"%char in
    if Contains_char high "-"%char then None
    else match Atoi low, Atoi high with
         | Some first, Some last =>
             if (first <? 0) || (last <? 0) || (first >? 65535) || (last >? 65535) || (first >? last) then None
             else Some (Itoa first +:+ "-" +:+ Itoa last)
         | _, _ => None
         end
  else match Atoi value with
       | Some port => if (port <? 0) || (port >? 65535) then None else Some (Itoa port)
       | None => None
       end.

(** The protocol, its selector, and diagnostics. *)
Definition runtimeFirewallProtocolSelector (protocol : string) (sessionAddress : Addr) : string * string * list Diagnostic :=
  let p := lower_trim protocol in
  if bool_decide (p ∈ [""; "ip"; "ipv4"; "ipv6"; "any"]) then ("ip", "", [])
  else if bool_decide (p ∈ ["tcp"; "udp"]) then (p, "meta l4proto " +:+ p, [])
  else if (p =? "icmp")%string then
    if Is6 sessionAddress then ("icmpv6", "meta l4proto ipv6-icmp", []) else ("icmp", "ip protocol icmp", [])
  else if bool_decide (p ∈ ["icmpv6"; "ipv6-icmp"]) then
    if negb (Is6 sessionAddress) then
      ("", "", [diagnostic "warning" "protocol_family_mismatch" "IPv6 ICMP rule does not apply to an IPv4 session address"])
    else ("icmpv6", "meta l4proto ipv6-icmp", [])
  else ("", "", [diagnostic "error" "unsupported_protocol" ("protocol " +:+ protocol +:+ " is not supported by local nftables ACL compiler")]).

(** The selector, diagnostics, and whether the rule can match the session. *)
Definition runtimeFirewallEndpointSelector (family field value : string) (sessionAddress : Addr) (mustMatchSession : bool) : string * list Diagnostic * bool :=
  let value := TrimSpace value in
  let own := family +:+ " " +:+ field +:+ " " +:+ AddrString sessionAddress in
  if (value =? "")%string || EqualFold value "any" then if mustMatchSession then (own, [], true) else ("", [], true)
  else match parseRuntimeFirewallPrefix value with
  | None => ("", [diagnostic "error" "invalid_address_selector" ("address selector " +:+ value +:+ " is not a valid address or prefix")], false)
  | Some prefix =>
      if negb (Bool.eqb (Is4 sessionAddress) (Is4 (PrefixAddr prefix))) then
        ("", [diagnostic "warning" "address_family_mismatch" ("address selector " +:+ value +:+ " does not match session address family")], false)
      else if mustMatchSession then if negb (PrefixContains prefix sessionAddress) then ("", [], false) else (own, [], true)
      else (family +:+ " " +:+ field +:+ " " +:+ PrefixString prefix, [], true)
  end.

Definition any_port (port : string) : string := if EqualFold port "any" then "" else port.

(** One port: no selector when the text is blank. *)
Definition port_selector (protocol side port : string) : option (list string) :=
  if (TrimSpace port =? "")%string then Some []
  else match normalizeRuntimeFirewallPort port with Some text => Some [protocol +:+ " " +:+ side +:+ " " +:+ text] | None => None end.

Definition runtimeFirewallPortSelectors (protocol sourcePort destinationPort : string) : list string * list Diagnostic :=
  let sourcePort := any_port sourcePort in
  let destinationPort := any_port destinationPort in
  if (sourcePort =? "")%string && (destinationPort =? "")%string then ([], [])
  else if negb (protocol =? "tcp")%string && negb (protocol =? "udp")%string then
    ([], [diagnostic "error" "port_requires_tcp_or_udp" "source or destination ports require tcp or udp protocol"])
  else match port_selector protocol "sport" sourcePort with
  | None => ([], [diagnostic "error" "invalid_source_port" ("source port " +:+ sourcePort +:+ " is invalid")])
  | Some source =>
      match port_selector protocol "dport" destinationPort with
      | None => ([], [diagnostic "error" "invalid_destination_port" ("destination port " +:+ destinationPort +:+ " is invalid")])
      | Some destination => (source ++ destination, [])
      end
  end.

(** ** Rules *)

Definition family_words (address : Addr) : string * string := if Is6 address then ("ip6", "ipv6") else ("ip", "ipv4").

Definition rule_comment (sessionID policyName rule : string) : string :=
  quoteNftString ("aegisnas:" +:+ safeNftCommentToken sessionID +:+ ":" +:+ safeNftCommentToken policyName +:+ ":" +:+ rule).

Definition optional_part (part : string) : list string := if (part =? "")%string then [] else [part].

(** The compiled line, if the rule applies to the address, and diagnostics. *)
Definition compileRuntimeFirewallACLRule (session : Session) (policyName : string) (sessionAddress : Addr) (rule : ACLRule)
    : list CompiledRule * list Diagnostic :=
  let context diagnostics := withRuntimeFirewallRuleContext diagnostics (SessionID session) policyName (RlID rule) in
  if (RlAddressFamily rule =? "ipv4")%string && negb (Is4 sessionAddress) then ([], [])
  else if (RlAddressFamily rule =? "ipv6")%string && negb (Is6 sessionAddress) then ([], [])
  else
    let '(family, ruleFamily) := family_words sessionAddress in
    let '(protocol, protocolSelector, protoDiagnostics) := runtimeFirewallProtocolSelector (RlProtocol rule) sessionAddress in
    if zlen protoDiagnostics >? 0 then ([], context protoDiagnostics)
    else
      let is_in := (RlDirection rule =? "in")%string in
      let is_out := (RlDirection rule =? "out")%string in
      let '(sourceSelector, sourceDiagnostics, sourceMatches) := runtimeFirewallEndpointSelector family "saddr" (RlSource rule) sessionAddress is_in in
      let '(destinationSelector, destinationDiagnostics, destinationMatches) :=
        runtimeFirewallEndpointSelector family "daddr" (RlDestination rule) sessionAddress is_out in
      let diagnostics := sourceDiagnostics ++ destinationDiagnostics in
      if negb sourceMatches || negb destinationMatches then
        ([], context (diagnostics ++ [diagnostic "warning" "session_endpoint_mismatch" "ACL rule endpoint does not match this session address and was skipped"]))
      else
        let '(portSelectors, portDiagnostics) := runtimeFirewallPortSelectors protocol (RlSourcePort rule) (RlDestinationPort rule) in
        if zlen portDiagnostics >? 0 then ([], context (diagnostics ++ portDiagnostics))
        else
          let parts :=
            [if is_out then destinationSelector else sourceSelector]
            ++ (if is_in then optional_part destinationSelector else [])
            ++ (if is_out then optional_part sourceSelector else [])
            ++ optional_part protocolSelector ++ portSelectors
            ++ (if RlLog rule then ["log"; "prefix"; quoteNftString ("aegisnas " +:+ safeNftCommentToken (SessionID session) +:+ " ")] else [])
            ++ [if (RlAction rule =? "deny")%string then "drop" else "accept"; "comment";
                rule_comment (SessionID session) policyName (safeNftCommentToken (firstRuntimeFirewallString (RlID rule) (Itoa (RlSequence rule))))] in
          ([mkCompiledRule (SessionID session) policyName (RlID rule) (RlDirection rule) ruleFamily (RlAction rule) (Join parts " ")], context diagnostics).

Definition runtimeFirewallDefaultDropRules (sessionID policyName : string) (sessionAddress : Addr) : list CompiledRule :=
  let '(family, ruleFamily) := family_words sessionAddress in
  let line field := family +:+ " " +:+ field +:+ " " +:+ AddrString sessionAddress +:+ " drop comment " +:+ rule_comment sessionID policyName "default" in
  [mkCompiledRule sessionID policyName "default-in" "in" ruleFamily "deny" (line "saddr");
   mkCompiledRule sessionID policyName "default-out" "out" ruleFamily "deny" (line "daddr")].

Definition isQuarantined (role filterID : string) (vlan : Z) : bool :=
  (vlan =? 99) || Contains (lower_trim role) "quarantine" || Contains (lower_trim filterID) "quarantine".

(** ** The table *)

Definition table_line (line : string) : string := line +:+ newline.

Definition set_text (name type : string) (elements : list string) : string :=
  table_line ("    set " +:+ name +:+ " {") +:+ table_line ("        type " +:+ type)
  +:+ (if zlen elements >? 0 then table_line ("        elements = { " +:+ Join elements ", " +:+ " }") else "") +:+ table_line "    }".

Definition rule_text (rule : CompiledRule) : string :=
  let line := TrimSpace (Line rule) in if (line =? "")%string then "" else table_line ("        " +:+ line).

Definition renderRuntimeFirewallRuleset (quarantineIPv4 quarantineIPv6 : list string) (rules : list CompiledRule) : string :=
  table_line "table inet aegis_runtime {" +:+ set_text "quarantine_ipv4" "ipv4_addr" quarantineIPv4 +:+ set_text "quarantine_ipv6" "ipv6_addr" quarantineIPv6
  +:+ table_line "    chain forward {" +:+ table_line "        type filter hook forward priority -5; policy accept;"
  +:+ table_line "        ip saddr @quarantine_ipv4 drop" +:+ table_line "        ip daddr @quarantine_ipv4 drop"
  +:+ table_line "        ip6 saddr @quarantine_ipv6 drop" +:+ table_line "        ip6 daddr @quarantine_ipv6 drop"
  +:+ table_line "        ct state invalid drop" +:+ table_line "        ct state established,related accept"
  +:+ String.concat "" (rule_text <$> rules) +:+ table_line "    }" +:+ table_line "}".

Definition sortedRuntimeFirewallSet (values : gset string) : list string := sort_by string_less (elements values).

(** ** The plan *)

(** The plan under construction, the quarantined addresses, the names of the policies and the policies loaded so far, by name in lower case. *)
Record Building := mkBuilding {
  BdSummary : Summary; BdDiagnostics : list Diagnostic; BdSessions : list SessionPlan; BdRules : list CompiledRule;
  BdQuarantine4 : gset string; BdQuarantine6 : gset string; BdPolicyNames : gset string; BdCache : gmap string StoredACLPolicy }.

Definition addresses4 (addresses : list Addr) : list Addr := List.filter Is4 addresses.
Definition addresses6 (addresses : list Addr) : list Addr := List.filter (fun a => negb (Is4 a) && Is6 a) addresses.

(** The session's rules: for each of its addresses the compiled rules, then the default drop. *)
Definition compile_address (session : Session) (policyName : string) (rules : list ACLRule) (address : Addr) : list CompiledRule * list Diagnostic :=
  let compiled := compileRuntimeFirewallACLRule session policyName address <$> rules in
  (concat compiled.*1 ++ runtimeFirewallDefaultDropRules (SessionID session) policyName address, concat compiled.*2).

(** The first part of the loop: addresses, counts and quarantine. *)
Definition note_addresses (session : Session) (addresses : list Addr) (b : Building) : Building :=
  let quarantined := isQuarantined (Role session) (FilterID session) (VLAN session) in
  let four := AddrString <$> addresses4 addresses in
  let six := AddrString <$> addresses6 addresses in
  let s := BdSummary b in
  mkBuilding (mkSummary (TotalActiveSessions s) (ManagedSessions s) (QuarantineSessions s + (if quarantined then 1 else 0)) (IPv4Sessions s + zlen four)
                (IPv6Sessions s + zlen six) (PolicyCount s) (RuleCount s) (AppliedRuleCount s) (BlockedRuleCount s))
    (BdDiagnostics b) (BdSessions b) (BdRules b)
    (if quarantined then list_to_set four ∪ BdQuarantine4 b else BdQuarantine4 b)
    (if quarantined then list_to_set six ∪ BdQuarantine6 b else BdQuarantine6 b) (BdPolicyNames b) (BdCache b).

Definition head_text (l : list Addr) : string := match l with [] => "" | a :: _ => AddrString a end.

Definition session_plan (session : Session) (addresses : list Addr) (managed found : bool) (rules applied : Z) (diagnostics : list Diagnostic) : SessionPlan :=
  mkSessionPlan session (head_text (addresses4 addresses)) (head_text (addresses6 addresses)) managed
    (isQuarantined (Role session) (FilterID session) (VLAN session)) found rules applied diagnostics.

(** A managed session without rules, for a reason. *)
Definition give_up_session (session : Session) (addresses : list Addr) (diag : Diagnostic) (b : Building) : Building :=
  mkBuilding (BdSummary b) (BdDiagnostics b ++ [diag]) (BdSessions b ++ [session_plan session addresses true false 0 0 [diag]]) (BdRules b)
    (BdQuarantine4 b) (BdQuarantine6 b) (BdPolicyNames b) (BdCache b).

(** The stored policy's own errors *)
Definition policy_errors (session : Session) (policyName : string) (policy : StoredACLPolicy) : list Diagnostic :=
  (fun d => mkDiagnostic "error" "acl_ast_diagnostic" (SessionID session) policyName "" (AdPath d) (AdMessage d)) <$>
    List.filter (fun d => EqualFold (AdSeverity d) "error") (SpDiagnostics policy).

Definition add_rules (session : Session) (policyName : string) (addresses : list Addr) (policy : StoredACLPolicy) (b : Building) : Building :=
  let compiled := compile_address session policyName (SpRules policy) <$> addresses in
  let rules := concat compiled.*1 in
  let diagnostics := policy_errors session policyName policy ++ concat compiled.*2 in
  let s := BdSummary b in
  mkBuilding (mkSummary (TotalActiveSessions s) (ManagedSessions s) (QuarantineSessions s) (IPv4Sessions s) (IPv6Sessions s) (PolicyCount s)
                (RuleCount s + zlen (SpRules policy)) (AppliedRuleCount s + zlen rules) (BlockedRuleCount s))
    (BdDiagnostics b ++ diagnostics)
    (BdSessions b ++ [session_plan session addresses true true (zlen (SpRules policy)) (zlen rules) diagnostics])
    (BdRules b ++ rules) (BdQuarantine4 b) (BdQuarantine6 b) (BdPolicyNames b) (BdCache b).

Definition managed_session (policyName : string) (b : Building) : Building :=
  let s := BdSummary b in
  mkBuilding (mkSummary (TotalActiveSessions s) (ManagedSessions s + 1) (QuarantineSessions s) (IPv4Sessions s) (IPv6Sessions s) (PolicyCount s)
                (RuleCount s) (AppliedRuleCount s) (BlockedRuleCount s))
    (BdDiagnostics b) (BdSessions b) (BdRules b) (BdQuarantine4 b) (BdQuarantine6 b) ({[ToLower policyName]} ∪ BdPolicyNames b) (BdCache b).

Definition cache_policy (key : string) (policy : StoredACLPolicy) (b : Building) : Building :=
  mkBuilding (BdSummary b) (BdDiagnostics b) (BdSessions b) (BdRules b) (BdQuarantine4 b) (BdQuarantine6 b) (BdPolicyNames b) (<[key := policy]> (BdCache b)).

(** One turn of the loop of [buildRuntimeFirewallPlan]. *)
Definition build_session (b : Building) (session : Session) : Building :=
  let addresses := runtimeFirewallSessionAddresses session in
  let b := note_addresses session addresses b in
  let policyName := TrimSpace (ACLPolicyName session) in
  if (policyName =? "")%string then
    mkBuilding (BdSummary b) (BdDiagnostics b) (BdSessions b ++ [session_plan session addresses false false 0 0 []]) (BdRules b)
      (BdQuarantine4 b) (BdQuarantine6 b) (BdPolicyNames b) (BdCache b)
  else
    let b := managed_session policyName b in
    let fail code message := mkDiagnostic "error" code (SessionID session) policyName "" "" message in
    if zlen addresses =? 0 then
      give_up_session session addresses (fail "session_address_missing" "session has an ACL policy but no IPv4 or IPv6 address to enforce locally") b
    else match BdCache b !! ToLower policyName with
    | Some policy => add_rules session policyName addresses policy b
    | None =>
        match LoadACLPolicy policyName with
        | Err message => give_up_session session addresses (fail "acl_policy_load_failed" message) b
        | Ok None => give_up_session session addresses (fail "acl_policy_not_found" "enabled ACL policy was not found") b
        | Ok (Some policy) => add_rules session policyName addresses policy (cache_policy (ToLower policyName) policy b)
        end
    end.

Definition blockedRuntimeFirewallDiagnostics (diagnostics : list Diagnostic) : Z := zlen (List.filter (fun d => EqualFold (Severity d) "error") diagnostics).

Definition severity_count (severity : string) (diagnostics : list Diagnostic) : Z :=
  zlen (List.filter (fun d => (ToLower (Severity d) =? severity)%string) diagnostics).

Definition runtimeFirewallPlanStatus (diagnostics : list Diagnostic) (s : Summary) : string * string :=
  let errors := severity_count "error" diagnostics in
  let warnings := severity_count "warning" diagnostics in
  if errors >? 0 then ("blocked", "Runtime firewall plan is blocked by " +:+ Itoa errors +:+ " error diagnostic(s).")
  else if warnings >? 0 then ("degraded", "Runtime firewall plan is ready with " +:+ Itoa warnings +:+ " warning diagnostic(s).")
  else if (ManagedSessions s =? 0) && (QuarantineSessions s =? 0) then ("ready", "Runtime firewall has no active managed or quarantined sessions.")
  else ("ready", "Runtime firewall plan covers " +:+ Itoa (ManagedSessions s) +:+ " managed and " +:+ Itoa (QuarantineSessions s) +:+ " quarantined session(s).").

Definition empty_building (sessions : list Session) : Building := mkBuilding (mkSummary (zlen sessions) 0 0 0 0 0 0 0 0) [] [] [] ∅ ∅ ∅ ∅.

Definition buildRuntimeFirewallPlan (sessions : list Session) : Plan :=
  let b := foldl build_session (empty_building sessions) sessions in
  let s := BdSummary b in
  let s := mkSummary (TotalActiveSessions s) (ManagedSessions s) (QuarantineSessions s) (IPv4Sessions s) (IPv6Sessions s) (Z.of_nat (size (BdPolicyNames b)))
             (RuleCount s) (AppliedRuleCount s) (blockedRuntimeFirewallDiagnostics (BdDiagnostics b)) in
  let '(status, message) := runtimeFirewallPlanStatus (BdDiagnostics b) s in
  let ruleset := renderRuntimeFirewallRuleset (sortedRuntimeFirewallSet (BdQuarantine4 b)) (sortedRuntimeFirewallSet (BdQuarantine6 b)) (BdRules b) in
  mkPlan status message ruleset (ruleset_digest ruleset) s (BdDiagnostics b) (BdSessions b) (BdRules b).

(** ** Specification: the table as a packet filter *)

Inductive l4 := Tcp | Udp | Icmp | Icmp6.
#[export] Instance l4_eq_dec : EqDecision l4. Proof. solve_decision. Defined.

Inductive connection := NewFlow | EstablishedFlow | InvalidFlow.

Record Packet := mkPacket { PkSource : Addr; PkDestination : Addr; PkProtocol : option l4; PkSourcePort : Z; PkDestinationPort : Z; PkState : connection }.

Inductive ports := OnePort (port : Z) | PortRange (first last : Z).

(** A rule about the traffic of a session's address: what the session sends, or what is sent to it. *)
Record FilterRule := mkFilterRule {
  FrOutbound : bool; FrSession : Addr; FrPeer : option IPPrefix; FrProtocol : option l4; FrSourcePort : option ports; FrDestinationPort : option ports;
  FrAccept : bool }.

Definition in_ports (p : option ports) (port : Z) : bool :=
  match p with None => true | Some (OnePort v) => port =? v | Some (PortRange low high) => (low <=? port) && (port <=? high) end.

Definition rule_matches (r : FilterRule) (p : Packet) : bool :=
  let own := if FrOutbound r then PkDestination p else PkSource p in
  let peer := if FrOutbound r then PkSource p else PkDestination p in
  bool_decide (own = FrSession r) && match FrPeer r with None => true | Some prefix => PrefixContains prefix peer end
  && match FrProtocol r with None => true | Some l => bool_decide (PkProtocol p = Some l) end
  && in_ports (FrSourcePort r) (PkSourcePort p) && in_ports (FrDestinationPort r) (PkDestinationPort p).

Record Entry := mkEntry { EnRule : FilterRule; EnLog : list string; EnComment : string }.
Record Table := mkTable { Quarantine4 : gset string; Quarantine6 : gset string; Entries : list Entry }.

Definition in_quarantine (t : Table) (a : Addr) : bool :=
  if Is4 a then bool_decide (AddrString a ∈ Quarantine4 t) else bool_decide (AddrString a ∈ Quarantine6 t).

(** Whether the packet is forwarded: quarantine, the state of the connection, the first rule that matches, and accept. *)
Definition forwarded (t : Table) (p : Packet) : bool :=
  if in_quarantine t (PkSource p) || in_quarantine t (PkDestination p) then false
  else match PkState p with
  | InvalidFlow => false
  | EstablishedFlow => true
  | NewFlow => default true (firstSome (fun e => if rule_matches (EnRule e) p then Some (FrAccept (EnRule e)) else None) (Entries t))
  end.

(** The text of an entry *)
Definition own_text (r : FilterRule) : string :=
  (family_words (FrSession r)).1 +:+ " " +:+ (if FrOutbound r then "daddr" else "saddr") +:+ " " +:+ AddrString (FrSession r).
Definition peer_text (r : FilterRule) : list string :=
  match FrPeer r with
  | None => []
  | Some prefix => [(family_words (FrSession r)).1 +:+ " " +:+ (if FrOutbound r then "saddr" else "daddr") +:+ " " +:+ PrefixString prefix]
  end.
Definition l4_text (l : option l4) : string :=
  match l with None => "" | Some Tcp => "meta l4proto tcp" | Some Udp => "meta l4proto udp" | Some Icmp => "ip protocol icmp" | Some Icmp6 => "meta l4proto ipv6-icmp" end.
Definition l4_word (l : option l4) : string :=
  match l with None => "ip" | Some Tcp => "tcp" | Some Udp => "udp" | Some Icmp => "icmp" | Some Icmp6 => "icmpv6" end.
Definition ports_text (p : ports) : string := match p with OnePort v => Itoa v | PortRange low high => Itoa low +:+ "-" +:+ Itoa high end.
Definition side_text (l : option l4) (side : string) (p : option ports) : list string :=
  match p with None => [] | Some v => [l4_word l +:+ " " +:+ side +:+ " " +:+ ports_text v] end.
Definition entry_line (e : Entry) : string :=
  let r := EnRule e in
  Join ([own_text r] ++ peer_text r ++ optional_part (l4_text (FrProtocol r)) ++ side_text (FrProtocol r) "sport" (FrSourcePort r)
        ++ side_text (FrProtocol r) "dport" (FrDestinationPort r) ++ EnLog e ++ [if FrAccept r then "accept" else "drop"; "comment"; EnComment e]) " ".

(** What an ACL rule says about an address; [None] when it says nothing. *)
Definition is_any (value : string) : bool := (TrimSpace value =? "")%string || EqualFold (TrimSpace value) "any".

Definition protocol_of (protocol : string) (address : Addr) : option (option l4) :=
  let p := lower_trim protocol in
  if bool_decide (p ∈ [""; "ip"; "ipv4"; "ipv6"; "any"]) then Some None
  else if (p =? "tcp")%string then Some (Some Tcp)
  else if (p =? "udp")%string then Some (Some Udp)
  else if (p =? "icmp")%string then Some (Some (if Is6 address then Icmp6 else Icmp))
  else if bool_decide (p ∈ ["icmpv6"; "ipv6-icmp"]) && Is6 address then Some (Some Icmp6)
  else None.

Definition same_family (address : Addr) (prefix : IPPrefix) : bool := Bool.eqb (Is4 address) (Is4 (PrefixAddr prefix)).

Definition own_matches (value : string) (address : Addr) : bool :=
  is_any value || match parseRuntimeFirewallPrefix value with Some prefix => same_family address prefix && PrefixContains prefix address | None => false end.

Definition peer_of (value : string) (address : Addr) : option (option IPPrefix) :=
  if is_any value then Some None
  else match parseRuntimeFirewallPrefix value with Some prefix => if same_family address prefix then Some (Some prefix) else None | None => None end.

Definition ports_of (value : string) : option ports :=
  let value := TrimSpace value in
  if (value =? "")%string then None
  else if Contains_char value "-"%char then
    let '(low, high, _) := CutChar value "-"%char in
    if Contains_char high "-"%char then None
    else match Atoi low, Atoi high with
         | Some first, Some last => if (first <? 0) || (last <? 0) || (first >? 65535) || (last >? 65535) || (first >? last) then None else Some (PortRange first last)
         | _, _ => None
         end
  else match Atoi value with Some port => if (port <? 0) || (port >? 65535) then None else Some (OnePort port) | None => None end.

Definition side_of (port : string) : option (option ports) := if (TrimSpace port =? "")%string then Some None else Some <$> ports_of port.

Definition port_pair (l : option l4) (source destination : string) : option (option ports * option ports) :=
  let source := any_port source in
  let destination := any_port destination in
  if (source =? "")%string && (destination =? "")%string then Some (None, None)
  else match l with
       | Some (Tcp | Udp) =>
           match side_of source, side_of destination with Some s, Some d => Some (s, d) | _, _ => None end
       | _ => None
       end.

Definition family_applies (rule : ACLRule) (address : Addr) : bool :=
  negb ((RlAddressFamily rule =? "ipv4")%string && negb (Is4 address)) && negb ((RlAddressFamily rule =? "ipv6")%string && negb (Is6 address)).

Definition filter_of (rule : ACLRule) (address : Addr) : option FilterRule :=
  let outbound := (RlDirection rule =? "out")%string in
  let own := if outbound then RlDestination rule else RlSource rule in
  let other := if outbound then RlSource rule else RlDestination rule in
  if negb (family_applies rule address) || negb (own_matches own address) then None
  else match protocol_of (RlProtocol rule) address, peer_of other address with
       | Some l, Some peer =>
           match port_pair l (RlSourcePort rule) (RlDestinationPort rule) with
           | Some (source, destination) => Some (mkFilterRule outbound address peer l source destination (negb (RlAction rule =? "deny")%string))
           | None => None
           end
       | _, _ => None
       end.

Definition log_text (session : Session) (rule : ACLRule) : list string :=
  if RlLog rule then ["log"; "prefix"; quoteNftString ("aegisnas " +:+ safeNftCommentToken (SessionID session) +:+ " ")] else [].

Definition rule_entry (session : Session) (policyName : string) (address : Addr) (rule : ACLRule) : option Entry :=
  (fun r => mkEntry r (log_text session rule)
     (rule_comment (SessionID session) policyName (safeNftCommentToken (firstRuntimeFirewallString (RlID rule) (Itoa (RlSequence rule))))))
  <$> filter_of rule address.

Definition drop_entry (session : Session) (policyName : string) (address : Addr) (outbound : bool) : Entry :=
  mkEntry (mkFilterRule outbound address None None None None false) [] (rule_comment (SessionID session) policyName "default").

Definition address_entries (session : Session) (policyName : string) (rules : list ACLRule) (address : Addr) : list Entry :=
  omap (rule_entry session policyName address) rules ++ [drop_entry session policyName address false; drop_entry session policyName address true].

Definition policy_name (session : Session) : string := TrimSpace (ACLPolicyName session).

Definition session_entries (session : Session) : list Entry :=
  if (policy_name session =? "")%string then []
  else match LoadACLPolicy (policy_name session) with
       | Ok (Some policy) => concat (address_entries session (policy_name session) (SpRules policy) <$> runtimeFirewallSessionAddresses session)
       | _ => []
       end.

Definition session_quarantined (session : Session) : bool := isQuarantined (Role session) (FilterID session) (VLAN session).

Definition quarantine_texts (pick : list Addr -> list Addr) (sessions : list Session) : list string :=
  concat ((fun s => AddrString <$> pick (runtimeFirewallSessionAddresses s)) <$> List.filter session_quarantined sessions).

Definition table_of (sessions : list Session) : Table :=
  mkTable (list_to_set (quarantine_texts addresses4 sessions)) (list_to_set (quarantine_texts addresses6 sessions)) (concat (session_entries <$> sessions)).

(** ** The compiled lines are the entries' *)

Lemma protocol_selector_spec protocol address :
  match protocol_of protocol address with
  | Some l => runtimeFirewallProtocolSelector protocol address = (l4_word l, l4_text l, [])
  | None => exists d, runtimeFirewallProtocolSelector protocol address = ("", "", [d])
  end.
Proof.
  unfold protocol_of, runtimeFirewallProtocolSelector. cbv zeta. generalize (lower_trim protocol) as p. intros p.
  case_bool_decide; [done|]. destruct (String.eqb_spec p "tcp") as [->|]; [done|]. destruct (String.eqb_spec p "udp") as [->|]; [done|].
  rewrite (bool_decide_eq_false_2 (p ∈ ["tcp"; "udp"])) by set_solver. destruct (p =? "icmp")%string; [by destruct (Is6 address)|].
  destruct (bool_decide (p ∈ ["icmpv6"; "ipv6-icmp"])); [|by eexists]. destruct (Is6 address); [done|]. by eexists.
Qed.

Lemma own_selector_spec family field value address : exists diagnostics,
  runtimeFirewallEndpointSelector family field value address true
  = (if own_matches value address then family +:+ " " +:+ field +:+ " " +:+ AddrString address else "", diagnostics, own_matches value address).
Proof.
  unfold runtimeFirewallEndpointSelector, own_matches, is_any, parseRuntimeFirewallPrefix, same_family. rewrite TrimSpace_idem. cbv zeta.
  destruct (_ || _); [by eexists|]. cbn [orb]. destruct (if (TrimSpace value =? "")%string then _ else _) as [prefix|]; [|by eexists].
  destruct (Bool.eqb _ _); cbn [negb andb]; [|by eexists]. destruct (PrefixContains prefix address); by eexists.
Qed.

Lemma peer_selector_spec family field value address : exists diagnostics,
  runtimeFirewallEndpointSelector family field value address false
  = (match peer_of value address with Some (Some prefix) => family +:+ " " +:+ field +:+ " " +:+ PrefixString prefix | _ => "" end, diagnostics,
     bool_decide (is_Some (peer_of value address))).
Proof.
  unfold runtimeFirewallEndpointSelector, peer_of, is_any, parseRuntimeFirewallPrefix, same_family. rewrite TrimSpace_idem. cbv zeta.
  destruct (_ || _); [by eexists|]. destruct (if (TrimSpace value =? "")%string then _ else _) as [prefix|]; [|by eexists].
  destruct (Bool.eqb _ _); by eexists.
Qed.

Lemma normalize_port_spec value : normalizeRuntimeFirewallPort value = ports_text <$> ports_of value.
Proof.
  unfold normalizeRuntimeFirewallPort, ports_of. cbv zeta. destruct (TrimSpace value =? "")%string; [done|].
  destruct (Contains_char (TrimSpace value) "-"); [|by destruct (Atoi _) as [port|]; [destruct (_ || _)|]].
  destruct (CutChar _ _) as [[low high] ?]. destruct (Contains_char high "-"); [done|]. destruct (Atoi low), (Atoi high); try done. by destruct (_ || _).
Qed.

Lemma port_selector_spec l side port : port_selector (l4_word l) side port = side_text l side <$> side_of port.
Proof. unfold port_selector, side_of. destruct (_ =? _)%string; [done|]. rewrite normalize_port_spec. by destruct (ports_of port). Qed.

Lemma port_selectors_spec l source destination :
  match port_pair l source destination with
  | Some (s, d) => runtimeFirewallPortSelectors (l4_word l) source destination = (side_text l "sport" s ++ side_text l "dport" d, [])
  | None => exists dg, runtimeFirewallPortSelectors (l4_word l) source destination = ([], [dg])
  end.
Proof.
  unfold port_pair, runtimeFirewallPortSelectors. cbv zeta. destruct ((any_port source =? "")%string && _); [done|].
  rewrite !port_selector_spec.
  destruct l as [[]|]; cbn [l4_word String.eqb Ascii.eqb Bool.eqb negb andb]; try (by eexists);
    (destruct (side_of (any_port source)) as [s|]; cbn [fmap option_fmap option_map]; [|by eexists];
     destruct (side_of (any_port destination)) as [d|]; cbn [fmap option_fmap option_map]; [done|by eexists]).
Qed.

Definition directed (rule : ACLRule) : Prop := RlDirection rule = "in" \/ RlDirection rule = "out".

Definition compiled_entry (session : Session) (policyName : string) (address : Addr) (rule : ACLRule) (e : Entry) : CompiledRule :=
  mkCompiledRule (SessionID session) policyName (RlID rule) (RlDirection rule) (family_words address).2 (RlAction rule) (entry_line e).

Lemma optional_peer (family field text : string) : family = "ip" \/ family = "ip6" ->
  optional_part (family +:+ " " +:+ field +:+ " " +:+ text) = [family +:+ " " +:+ field +:+ " " +:+ text].
Proof. by intros [->| ->]. Qed.

Lemma compile_rule_entry session policyName address rule : directed rule ->
  (compileRuntimeFirewallACLRule session policyName address rule).1
  = match rule_entry session policyName address rule with None => [] | Some e => [compiled_entry session policyName address rule e] end.
Proof.
  intros Hdir. unfold compileRuntimeFirewallACLRule, rule_entry, filter_of, family_applies. cbv zeta.
  destruct ((RlAddressFamily rule =? "ipv4")%string && _); [done|]. destruct ((RlAddressFamily rule =? "ipv6")%string && _); [done|]. cbn [negb andb orb].
  destruct (family_words address) as [family ruleFamily] eqn:Ef. assert (family = "ip" \/ family = "ip6") as Hfam.
  { unfold family_words in Ef. destruct (Is6 address); injection Ef as <- _; auto. }
  pose proof (protocol_selector_spec (RlProtocol rule) address) as Hp. destruct (protocol_of (RlProtocol rule) address) as [l|].
  2: { destruct Hp as [d ->]. cbn. destruct (own_matches _ _); done. }
  rewrite Hp. change (zlen [] >? 0) with false. cbn iota.
  assert (forall own other, (exists d, runtimeFirewallEndpointSelector family own (if (RlDirection rule =? "out")%string then RlDestination rule else RlSource rule) address true
    = (if own_matches (if (RlDirection rule =? "out")%string then RlDestination rule else RlSource rule) address then family +:+ " " +:+ own +:+ " " +:+ AddrString address else "", d,
       own_matches (if (RlDirection rule =? "out")%string then RlDestination rule else RlSource rule) address))
    /\ exists d, runtimeFirewallEndpointSelector family other (if (RlDirection rule =? "out")%string then RlSource rule else RlDestination rule) address false
    = (match peer_of (if (RlDirection rule =? "out")%string then RlSource rule else RlDestination rule) address with
       | Some (Some prefix) => family +:+ " " +:+ other +:+ " " +:+ PrefixString prefix | _ => "" end, d,
       bool_decide (is_Some (peer_of (if (RlDirection rule =? "out")%string then RlSource rule else RlDestination rule) address)))) as Hends
    by (intros own other; split; [apply own_selector_spec|apply peer_selector_spec]).
  pose proof (port_selectors_spec l (RlSourcePort rule) (RlDestinationPort rule)) as Hports.
  destruct Hdir as [Hd|Hd]; rewrite Hd in *; cbn [String.eqb Ascii.eqb Bool.eqb] in *;
    [destruct (Hends "saddr" "daddr") as [[d1 ->] [d2 ->]]|destruct (Hends "daddr" "saddr") as [[d1 ->] [d2 ->]]];
    (destruct (own_matches _ address); [|destruct (peer_of _ address); reflexivity]);
    (destruct (peer_of _ address) as [peer|]; [|reflexivity]); change (bool_decide (is_Some (Some peer))) with true; cbn [negb orb];
    (destruct (port_pair _ _ _) as [[s d]|]; [rewrite Hports|destruct Hports as [dg ->]; done]);
    change (zlen [] >? 0) with false; cbn iota; cbn [fst fmap option_fmap option_map]; unfold compiled_entry, entry_line, own_text, peer_text;
    cbn [EnRule EnLog EnComment FrSession FrOutbound FrPeer FrProtocol FrSourcePort FrDestinationPort FrAccept]; rewrite Ef, Hd; cbn [fst snd];
    (destruct peer as [prefix|]; [rewrite optional_peer by done|]); rewrite ?app_nil_l, <- ?(app_assoc); unfold log_text; by destruct (RlAction rule =? "deny")%string.
Qed.

(** What the stored policies promise: the rules are normalised to the directions in and out, and letter case does not tell two policies apart. *)
Class AclStoreLaws : Prop := {
  load_directed name policy : LoadACLPolicy name = Ok (Some policy) -> Forall directed (SpRules policy);
  load_case name name' : ToLower name = ToLower name' -> LoadACLPolicy name = LoadACLPolicy name';
}.

Lemma drop_lines session policyName address :
  Line <$> runtimeFirewallDefaultDropRules (SessionID session) policyName address
  = entry_line <$> [drop_entry session policyName address false; drop_entry session policyName address true].
Proof.
  unfold runtimeFirewallDefaultDropRules, drop_entry. destruct (family_words address) as [family ruleFamily] eqn:E. cbn [fmap list_fmap Line].
  unfold entry_line, own_text, peer_text. cbn [EnRule FrSession FrOutbound FrPeer EnLog EnComment FrProtocol FrSourcePort FrDestinationPort FrAccept].
  rewrite E. cbn [fst l4_text side_text app]. unfold optional_part, Join. cbn [String.eqb app String.concat]. by rewrite !app_assoc_str.
Qed.

Lemma address_lines session policyName rules address : Forall directed rules ->
  Line <$> (compile_address session policyName rules address).1 = entry_line <$> address_entries session policyName rules address.
Proof.
  intros Hd. unfold compile_address, address_entries. cbn [fst]. rewrite !fmap_app, drop_lines. f_equal.
  induction Hd as [|rule rules Hr Hd IH]; [done|]. cbn [fmap list_fmap concat omap list_omap]. rewrite fmap_app, IH, compile_rule_entry by done.
  by destruct (rule_entry session policyName address rule).
Qed.

Section store.
Context {ASL : AclStoreLaws}.

Lemma policy_lines session policy : policy_name session <> "" -> LoadACLPolicy (policy_name session) = Ok (Some policy) ->
  Line <$> concat (compile_address session (policy_name session) (SpRules policy) <$> runtimeFirewallSessionAddresses session).*1 = entry_line <$> session_entries session.
Proof.
  intros Hn Hl. unfold session_entries. apply String.eqb_neq in Hn. rewrite Hn, Hl. pose proof (load_directed _ _ Hl) as Hd.
  induction (runtimeFirewallSessionAddresses session) as [|a l IH]; [done|]. cbn [fmap list_fmap concat]. rewrite !fmap_app, IH. f_equal. by apply address_lines.
Qed.

(** A managed session has an address and a policy. *)
Definition enforceable (session : Session) : Prop :=
  runtimeFirewallSessionAddresses session <> [] /\ exists policy, LoadACLPolicy (policy_name session) = Ok (Some policy).

Record built (seen : list Session) (b : Building) : Prop := {
  bt_lines : Line <$> BdRules b = entry_line <$> concat (session_entries <$> seen);
  bt_quarantine4 : BdQuarantine4 b = list_to_set (quarantine_texts addresses4 seen);
  bt_quarantine6 : BdQuarantine6 b = list_to_set (quarantine_texts addresses6 seen);
  bt_cache key policy : BdCache b !! key = Some policy -> forall name, ToLower name = key -> LoadACLPolicy name = Ok (Some policy);
  bt_managed s : s ∈ seen -> policy_name s <> "" -> enforceable s \/ exists d, d ∈ BdDiagnostics b /\ Severity d = "error";
}.

Lemma quarantine_texts_app pick seen session :
  (list_to_set (quarantine_texts pick (seen ++ [session])) : gset string)
  = (if session_quarantined session then list_to_set (AddrString <$> pick (runtimeFirewallSessionAddresses session)) else ∅) ∪ list_to_set (quarantine_texts pick seen).
Proof.
  unfold quarantine_texts. rewrite List.filter_app, fmap_app, concat_app, list_to_set_app_L. cbn [List.filter].
  destruct (session_quarantined session); cbn [fmap list_fmap concat]; rewrite ?app_nil_r; set_solver.
Qed.

Lemma note_built seen b session : built seen b -> let b' := note_addresses session (runtimeFirewallSessionAddresses session) b in
  BdRules b' = BdRules b /\ BdDiagnostics b' = BdDiagnostics b /\ BdCache b' = BdCache b
  /\ BdQuarantine4 b' = list_to_set (quarantine_texts addresses4 (seen ++ [session])) /\ BdQuarantine6 b' = list_to_set (quarantine_texts addresses6 (seen ++ [session])).
Proof.
  intros Hb. cbv zeta. rewrite !quarantine_texts_app. unfold note_addresses, session_quarantined. cbn [BdRules BdDiagnostics BdCache BdQuarantine4 BdQuarantine6].
  rewrite (bt_quarantine4 _ _ Hb), (bt_quarantine6 _ _ Hb). split_and!; try done; destruct (isQuarantined _ _ _); set_solver.
Qed.

(** Sessions added without a rule *)
Lemma built_extend seen b b' session :
  built seen b -> session_entries session = [] -> BdRules b' = BdRules b -> BdDiagnostics b ⊆ BdDiagnostics b' -> BdCache b' = BdCache b ->
  BdQuarantine4 b' = list_to_set (quarantine_texts addresses4 (seen ++ [session])) -> BdQuarantine6 b' = list_to_set (quarantine_texts addresses6 (seen ++ [session])) ->
  (policy_name session = "" \/ exists d, d ∈ BdDiagnostics b' /\ Severity d = "error") -> built (seen ++ [session]) b'.
Proof.
  intros Hb He Hr Hd Hc H4 H6 Hs. split; [|done|done| |].
  - rewrite Hr, (bt_lines _ _ Hb), fmap_app, concat_app. cbn. by rewrite He, !app_nil_r.
  - rewrite Hc. apply (bt_cache _ _ Hb).
  - intros s [Hs'| ->%list_elem_of_singleton]%elem_of_app Hn.
    + destruct (bt_managed _ _ Hb s Hs' Hn) as [|(d & ? & ?)]; [by left|]. right. exists d. set_solver.
    + destruct Hs as [|]; [done|by right].
Qed.

Lemma build_session_built seen b session : built seen b -> built (seen ++ [session]) (build_session b session).
Proof.
  intros Hb. destruct (note_built seen b session Hb) as (N1 & N2 & N3 & N4 & N5). unfold build_session. cbv zeta.
  set (b1 := note_addresses _ _ b) in *. clearbody b1. fold (policy_name session). destruct (String.eqb_spec (policy_name session) "") as [Hn|Hn].
  { apply (built_extend seen b); try done; cbn; [|by rewrite N2|by left]. unfold session_entries. by rewrite Hn. }
  assert (forall code message b2, session_entries session = [] -> b2 = give_up_session session (runtimeFirewallSessionAddresses session)
      (mkDiagnostic "error" code (SessionID session) (policy_name session) "" "" message) (managed_session (policy_name session) b1) -> built (seen ++ [session]) b2) as Hgive.
  { intros code message b2 He ->. apply (built_extend seen b); try done; cbn; [rewrite N2; set_solver|]. right. eexists. split; [apply elem_of_app; right; by left|done]. }
  destruct (zlen _ =? 0) eqn:Ez.
  { eapply Hgive; [|done]. unfold session_entries. apply String.eqb_neq in Hn. rewrite Hn. destruct (runtimeFirewallSessionAddresses session) eqn:E; [|by rewrite zlen_cons in Ez; pose proof (zlen_nonneg l); lia].
    cbn. by destruct (LoadACLPolicy _) as [[]|]. }
  assert (runtimeFirewallSessionAddresses session <> []) as Ha by (intros E; by rewrite E in Ez).
  assert (forall policy b2, LoadACLPolicy (policy_name session) = Ok (Some policy) -> BdRules b2 = BdRules b -> BdDiagnostics b2 = BdDiagnostics b ->
      (forall key p, BdCache b2 !! key = Some p -> forall name, ToLower name = key -> LoadACLPolicy name = Ok (Some p)) ->
      BdQuarantine4 b2 = list_to_set (quarantine_texts addresses4 (seen ++ [session])) -> BdQuarantine6 b2 = list_to_set (quarantine_texts addresses6 (seen ++ [session])) ->
      built (seen ++ [session]) (add_rules session (policy_name session) (runtimeFirewallSessionAddresses session) policy b2)) as Hadd.
  { intros policy b2 Hl Hr Hd Hc H4 H6. split; cbn; [|done..|].
    - rewrite !fmap_app, Hr, (bt_lines _ _ Hb), concat_app, fmap_app, policy_lines by done. cbn. by rewrite app_nil_r.
    - intros s [Hs'| ->%list_elem_of_singleton]%elem_of_app Hn'; [|left; by split; eauto].
      rewrite Hd. destruct (bt_managed _ _ Hb s Hs' Hn') as [|(d & ? & ?)]; [by left|]. right. exists d. set_solver. }
  change (BdCache (managed_session (policy_name session) b1)) with (BdCache b1). rewrite N3. destruct (BdCache b !! ToLower (policy_name session)) as [policy|] eqn:Ec.
  - apply Hadd; try done; [by apply (bt_cache _ _ Hb _ _ Ec)|]. cbn. rewrite N3. apply (bt_cache _ _ Hb).
  - destruct (LoadACLPolicy (policy_name session)) as [[policy|]|message] eqn:El.
    + apply Hadd; try done. cbn. rewrite N3. intros key p [[<- <-]|[_ Hk]]%lookup_insert_Some name Hname; [|by apply (bt_cache _ _ Hb _ _ Hk)].
      by rewrite (load_case name (policy_name session)).
    + eapply Hgive; [|done]. unfold session_entries. apply String.eqb_neq in Hn. by rewrite Hn, El.
    + eapply Hgive; [|done]. unfold session_entries. apply String.eqb_neq in Hn. by rewrite Hn, El.
Qed.

Lemma plan_built sessions : built sessions (foldl build_session (empty_building sessions) sessions).
Proof.
  assert (forall todo seen b, built seen b -> built (seen ++ todo) (foldl build_session b todo)) as Hind.
  { induction todo as [|s todo IH]; intros seen b Hb; [by rewrite app_nil_r|]. cbn [foldl]. change (s :: todo) with ([s] ++ todo). rewrite (assoc (++)). by apply IH, build_session_built. }
  apply (Hind sessions []). split; cbn; try done; set_solver.
Qed.
End store.

Lemma plan_table {ASL : AclStoreLaws} (sessions : list Session) :
  let plan := buildRuntimeFirewallPlan sessions in
  let t := table_of sessions in
  Ruleset plan = renderRuntimeFirewallRuleset (sortedRuntimeFirewallSet (Quarantine4 t)) (sortedRuntimeFirewallSet (Quarantine6 t)) (PlRules plan)
  /\ Line <$> PlRules plan = entry_line <$> Entries t /\ RulesetFingerprint plan = ruleset_digest (Ruleset plan).
Proof.
  cbv zeta. pose proof (plan_built sessions) as Hb. unfold buildRuntimeFirewallPlan. set (b := foldl _ _ _) in *. clearbody b. cbv zeta.
  destruct (runtimeFirewallPlanStatus _ _). cbn [Ruleset PlRules RulesetFingerprint]. unfold table_of. cbn [Quarantine4 Quarantine6 Entries].
  by rewrite <- (bt_quarantine4 _ _ Hb), <- (bt_quarantine6 _ _ Hb), (bt_lines _ _ Hb).
Qed.


Lemma quarantine_member pick sessions s a : s ∈ sessions -> session_quarantined s = true -> a ∈ pick (runtimeFirewallSessionAddresses s) ->
  AddrString a ∈ (list_to_set (quarantine_texts pick sessions) : gset string).
Proof.
  intros Hs Hq Ha. apply elem_of_list_to_set. unfold quarantine_texts. apply list_elem_of_In, in_concat. exists (AddrString <$> pick (runtimeFirewallSessionAddresses s)).
  split; apply list_elem_of_In; [|by apply list_elem_of_fmap_2]. apply list_elem_of_fmap. exists s. split; [done|].
  apply list_elem_of_In, filter_In. split; [by apply list_elem_of_In|done].
Qed.

Lemma quarantined_address sessions s a : s ∈ sessions -> session_quarantined s = true -> a ∈ runtimeFirewallSessionAddresses s -> Is4 a = true \/ Is6 a = true ->
  in_quarantine (table_of sessions) a = true.
Proof.
  intros Hs Hq Ha Hv. unfold in_quarantine. cbn [Quarantine4 Quarantine6 table_of]. destruct (Is4 a) eqn:E4; apply bool_decide_eq_true; eapply quarantine_member; try done;
    unfold addresses4, addresses6; apply list_elem_of_In, filter_In; (split; [by apply list_elem_of_In|]); [done|]. rewrite E4. by destruct Hv.
Qed.

Lemma sortedRuntimeFirewallSet_spec (values : gset string) x : x ∈ sortedRuntimeFirewallSet values <-> x ∈ values.
Proof. unfold sortedRuntimeFirewallSet. rewrite sort_by_perm. apply elem_of_elements. Qed.

(** Quarantine is stronger than everything else: the address of a quarantined session is in a quarantine set of the text given to nft,
    and no packet from or to it is forwarded by this table, whatever the ACL policies allow and even on an established connection. *)
Theorem quarantine_cuts_off {ASL : AclStoreLaws} (sessions : list Session) (s : Session) (a : Addr) (p : Packet) :
  s ∈ sessions -> isQuarantined (Role s) (FilterID s) (VLAN s) = true -> a ∈ runtimeFirewallSessionAddresses s -> Is4 a = true \/ Is6 a = true ->
  PkSource p = a \/ PkDestination p = a ->
  (exists four six, Ruleset (buildRuntimeFirewallPlan sessions) = renderRuntimeFirewallRuleset four six (PlRules (buildRuntimeFirewallPlan sessions))
     /\ AddrString a ∈ (if Is4 a then four else six))
  /\ forwarded (table_of sessions) p = false.
Proof.
  intros Hs Hq Ha Hv Hp. pose proof (quarantined_address sessions s a Hs Hq Ha Hv) as H. split.
  - destruct (plan_table sessions) as [Hr _]. eexists _, _. split; [exact Hr|]. unfold in_quarantine in H.
    destruct (Is4 a); apply bool_decide_eq_true in H; by apply sortedRuntimeFirewallSet_spec.
  - unfold forwarded. destruct Hp as [<-|<-]; rewrite H; [done|]. by rewrite orb_true_r.
Qed.

(** The first entry that matches, if it accepts *)
Lemma forwarded_accept t p : PkState p = NewFlow -> forwarded t p = true ->
  (exists e, e ∈ Entries t /\ rule_matches (EnRule e) p = true /\ FrAccept (EnRule e) = true) \/ Forall (fun e => rule_matches (EnRule e) p = false) (Entries t).
Proof.
  intros Hn. unfold forwarded. destruct (_ || _); [discriminate|]. rewrite Hn. destruct (firstSome _ _) as [accept|] eqn:E.
  - cbn. intros ->. apply firstSome_Some in E as (l1 & e & l2 & Hl & He & _). left. exists e. destruct (rule_matches (EnRule e) p) eqn:Em; [|discriminate].
    injection He as He. split_and!; [rewrite Hl; set_solver|done|done].
  - intros _. right. apply firstSome_None in E. eapply Forall_impl; [exact E|]. cbn beta. intros e He. by destruct (rule_matches (EnRule e) p).
Qed.

(** An entry of a table is made by a rule, or drops. *)
Lemma entry_source sessions e : e ∈ Entries (table_of sessions) -> FrAccept (EnRule e) = true ->
  exists s a policy rule, s ∈ sessions /\ a ∈ runtimeFirewallSessionAddresses s /\ LoadACLPolicy (policy_name s) = Ok (Some policy) /\ rule ∈ SpRules policy
    /\ filter_of rule a = Some (EnRule e).
Proof.
  cbn [Entries table_of]. intros (es & Hes & He)%list_elem_of_In%in_concat Hacc. apply list_elem_of_In, list_elem_of_fmap in Hes as (s & -> & Hs).
  apply list_elem_of_In in He. unfold session_entries in He. destruct (_ =? _)%string; [by apply not_elem_of_nil in He|].
  destruct (LoadACLPolicy (policy_name s)) as [[policy|]|] eqn:El; [|by apply not_elem_of_nil in He..].
  apply list_elem_of_In, in_concat in He as (es & Hes & He). apply list_elem_of_In, list_elem_of_fmap in Hes as (a & -> & Ha). apply list_elem_of_In in He.
  unfold address_entries in He. apply elem_of_app in He as [He|[->|[->|[]%not_elem_of_nil]%elem_of_cons]%elem_of_cons]; [|discriminate Hacc..].
  apply list_elem_of_omap in He as (rule & Hrule & Hr). exists s, a, policy, rule. split_and!; try done.
  unfold rule_entry in Hr. destruct (filter_of rule a) as [r|]; [|discriminate]. by injection Hr as <-.
Qed.

Lemma session_drops sessions s a outbound : s ∈ sessions -> policy_name s <> "" -> enforceable s -> a ∈ runtimeFirewallSessionAddresses s ->
  drop_entry s (policy_name s) a outbound ∈ Entries (table_of sessions).
Proof.
  intros Hs Hn [_ [policy Hl]] Ha. cbn [Entries table_of]. apply list_elem_of_In, in_concat. exists (session_entries s). split; [by apply list_elem_of_In, list_elem_of_fmap_2|].
  unfold session_entries. apply String.eqb_neq in Hn. rewrite Hn, Hl. apply in_concat. exists (address_entries s (policy_name s) (SpRules policy) a).
  split; [apply list_elem_of_In; by apply (list_elem_of_fmap_2 (address_entries s (policy_name s) (SpRules policy)))|]. apply list_elem_of_In. unfold address_entries. destruct outbound; set_solver.
Qed.

Lemma not_blocked {ASL : AclStoreLaws} sessions : Status (buildRuntimeFirewallPlan sessions) <> "blocked" ->
  forall s, s ∈ sessions -> policy_name s <> "" -> enforceable s.
Proof.
  intros Hst s Hs Hn. destruct (bt_managed _ _ (plan_built sessions) s Hs Hn) as [|(d & Hd & He)]; [done|]. exfalso. apply Hst. unfold buildRuntimeFirewallPlan. cbv zeta.
  set (b := foldl _ _ _) in *. clearbody b. unfold runtimeFirewallPlanStatus. cbv zeta.
  assert (severity_count "error" (BdDiagnostics b) >? 0 = true) as ->; [|done].
  unfold severity_count. assert (d ∈ List.filter (fun d => (ToLower (Severity d) =? "error")%string) (BdDiagnostics b)) as Hin.
  { apply list_elem_of_In, filter_In. split; [by apply list_elem_of_In|]. by rewrite He. }
  destruct (List.filter _ _) as [|x l]; [by apply not_elem_of_nil in Hin|]. rewrite zlen_cons. pose proof (zlen_nonneg l). lia.
Qed.

Lemma entry_session session policyName rules a e : e ∈ address_entries session policyName rules a -> FrSession (EnRule e) = a.
Proof.
  intros [He|[->|[->|[]%not_elem_of_nil]%elem_of_cons]%elem_of_cons]%elem_of_app; [|done..]. apply list_elem_of_omap in He as (rule & _ & He).
  unfold rule_entry in He. destruct (filter_of rule a) as [r|] eqn:Ef; [|discriminate]. injection He as <-. unfold filter_of in Ef.
  destruct (_ || _); [discriminate|]. destruct (protocol_of _ _); [|discriminate]. destruct (peer_of _ _); [|discriminate]. destruct (port_pair _ _ _) as [[]|]; [|discriminate]. by injection Ef as <-.
Qed.

(** A managed session reaches and is reached by nothing that no rule permits: under a plan that is not blocked, a new flow from or to an address
    of a session with an ACL policy is forwarded only if a permit rule of the policy of some session, compiled for an address of that session,
    matches it; and flows between addresses of no managed and no quarantined session are always forwarded. *)
Theorem managed_needs_permit {ASL : AclStoreLaws} (sessions : list Session) (p : Packet) :
  Status (buildRuntimeFirewallPlan sessions) <> "blocked" -> PkState p = NewFlow ->
  ((exists s a, s ∈ sessions /\ TrimSpace (ACLPolicyName s) <> "" /\ a ∈ runtimeFirewallSessionAddresses s /\ (PkSource p = a \/ PkDestination p = a)) ->
   forwarded (table_of sessions) p = true ->
   exists s a policy rule r, s ∈ sessions /\ a ∈ runtimeFirewallSessionAddresses s /\ LoadACLPolicy (TrimSpace (ACLPolicyName s)) = Ok (Some policy)
     /\ rule ∈ SpRules policy /\ RlAction rule <> "deny" /\ filter_of rule a = Some r /\ rule_matches r p = true)
  /\ ((forall s a, s ∈ sessions -> a ∈ runtimeFirewallSessionAddresses s -> PkSource p = a \/ PkDestination p = a -> TrimSpace (ACLPolicyName s) = "") ->
      in_quarantine (table_of sessions) (PkSource p) = false -> in_quarantine (table_of sessions) (PkDestination p) = false -> forwarded (table_of sessions) p = true).
Proof.
  intros Hst Hnew. split.
  - intros (s & a & Hs & Hn & Ha & Hp) Hf. destruct (forwarded_accept _ _ Hnew Hf) as [(e & He & Hm & Hacc)|Hnone].
    + destruct (entry_source sessions e He Hacc) as (s' & a' & policy & rule & Hs' & Ha' & Hl & Hr & Hf'). exists s', a', policy, rule, (EnRule e). split_and!; try done.
      intros Hdeny. unfold filter_of in Hf'. rewrite Hdeny in Hf'. destruct (_ || _); [discriminate|]. destruct (protocol_of _ _); [|discriminate]. destruct (peer_of _ _); [|discriminate].
      destruct (port_pair _ _ _) as [[]|]; [|discriminate]. injection Hf' as Hf'. rewrite <- Hf' in Hacc. discriminate Hacc.
    + exfalso. rewrite Forall_forall in Hnone. pose proof (not_blocked sessions Hst s Hs Hn) as Hen.
      assert (forall outbound : bool, (if outbound then PkDestination p else PkSource p) = a -> False) as Hdrop.
      { intros outbound Hown. specialize (Hnone _ (session_drops sessions s a outbound Hs Hn Hen Ha)). unfold rule_matches in Hnone. cbn in Hnone. rewrite Hown in Hnone.
        by rewrite bool_decide_eq_true_2 in Hnone. }
      destruct Hp as [Hp|Hp]; [by apply (Hdrop false)|by apply (Hdrop true)].
  - intros Hfree H1 H2. unfold forwarded. rewrite H1, H2, Hnew. cbn [orb].
    assert (firstSome (fun e => if rule_matches (EnRule e) p then Some (FrAccept (EnRule e)) else None) (Entries (table_of sessions)) = None) as ->; [|done].
    apply firstSome_None, Forall_forall. intros e He. destruct (rule_matches (EnRule e) p) eqn:Em; [|done]. exfalso.
    cbn [Entries table_of] in He. apply list_elem_of_In, in_concat in He as (es & Hes & He). apply list_elem_of_In, list_elem_of_fmap in Hes as (s & -> & Hs).
    apply list_elem_of_In in He. unfold session_entries in He. destruct (String.eqb_spec (policy_name s) "") as [|Hn]; [by apply not_elem_of_nil in He|].
    destruct (LoadACLPolicy _) as [[policy|]|]; [|by apply not_elem_of_nil in He..]. apply list_elem_of_In, in_concat in He as (es & Hes & He).
    apply list_elem_of_In, list_elem_of_fmap in Hes as (a & -> & Ha). apply list_elem_of_In in He. apply Hn, (Hfree s a Hs Ha).
    assert (FrSession (EnRule e) = a) as Hown by by eapply entry_session.
    unfold rule_matches in Em. bool_arith. rewrite Hown in *. destruct (FrOutbound (EnRule e)); [right|left]; by eapply bool_decide_eq_true.
Qed.

Definition decision (entries : list Entry) (p : Packet) : option bool :=
  firstSome (fun e => if rule_matches (EnRule e) p then Some (FrAccept (EnRule e)) else None) entries.

Lemma decision_app l1 l2 p : decision (l1 ++ l2) p = match decision l1 p with Some d => Some d | None => decision l2 p end.
Proof. unfold decision. induction l1 as [|e l1 IH]; [done|]. cbn. by destruct (rule_matches (EnRule e) p). Qed.

(** Between two managed sessions the order of the sessions decides: when the policy of one session drops a flow to another session whose
    policy permits it, the flow is dropped if the sender's session comes first and forwarded if the receiver's does, although each
    policy ends in a default drop. *)
Theorem session_order_decides {ASL : AclStoreLaws} (sender receiver : Session) (p : Packet) :
  PkState p = NewFlow -> session_quarantined sender = false -> session_quarantined receiver = false ->
  decision (session_entries sender) p = Some false -> decision (session_entries receiver) p = Some true ->
  Line <$> PlRules (buildRuntimeFirewallPlan [sender; receiver]) = entry_line <$> session_entries sender ++ session_entries receiver
  /\ forwarded (table_of [sender; receiver]) p = false /\ forwarded (table_of [receiver; sender]) p = true.
Proof.
  intros Hnew Hq1 Hq2 Hd1 Hd2. split.
  { destruct (plan_table [sender; receiver]) as (_ & -> & _). cbn [Entries table_of fmap list_fmap concat]. by rewrite app_nil_r. }
  assert (forall l, Forall (fun s => session_quarantined s = false) l -> forall a, in_quarantine (table_of l) a = false) as Hq.
  { intros l Hl a. assert (List.filter session_quarantined l = []) as Hf by (induction Hl as [|s l Hs Hl IH]; [done|]; cbn; by rewrite Hs).
    unfold in_quarantine. cbn [Quarantine4 Quarantine6 table_of]. unfold quarantine_texts. rewrite Hf. cbn. destruct (Is4 a); by apply bool_decide_eq_false. }
  unfold forwarded. rewrite !Hq by (repeat constructor; done). rewrite Hnew. cbn [orb Entries table_of fmap list_fmap concat]. rewrite !app_nil_r.
  fold (decision (session_entries sender ++ session_entries receiver) p). fold (decision (session_entries receiver ++ session_entries sender) p).
  by rewrite !decision_app, Hd1, Hd2.
Qed.
End firewall.

(** ** Witnesses *)

(** Addresses as texts; a prefix is an address and the number of its bits. *)
Definition text_prefix_contains (prefix : string * Z) (a : string) : bool :=
  if prefix.2 =? 0 then Bool.eqb (Contains_char prefix.1 ":"%char) (Contains_char a ":"%char) else (a =? prefix.1)%string.
Definition text_ip : NetIP := {|
  Addr := string; Addr_eq_dec := _ : EqDecision string; IPPrefix := string * Z;
  ParseAddr := fun s => if Contains_char s "."%char || Contains_char s ":"%char then Some s else None;
  ParsePrefix := fun s => match CutChar s "/"%char with (a, bits, true) => (fun b => (a, b)) <$> Atoi bits | _ => None end;
  Unmap := fun a => a; Is4 := fun a => negb (Contains_char a ":"%char); Is6 := fun a => Contains_char a ":"%char; AddrString := fun a => a;
  PrefixAddr := fst; Masked := fun p => p; PrefixFrom := fun a bits => (a, bits);
  PrefixContains := text_prefix_contains; PrefixString := fun p => p.1 +:+ "/" +:+ Itoa p.2 |}.

Definition plain_rule (action direction protocol source destination destinationPort : string) : ACLRule :=
  mkACLRule "" 10 action direction "" protocol source [] [] "" [] destination [] [] destinationPort [] [] [] [] [] [] [] "" "" false [].

Definition example_store : AclStore := fun name =>
  let name := ToLower name in
  if (name =? "guests")%string then Ok (Some (mkStoredACLPolicy [plain_rule "permit" "in" "tcp" "any" "any" "443"] []))
  else if (name =? "printers")%string then Ok (Some (mkStoredACLPolicy [plain_rule "permit" "out" "ip" "any" "any" ""] []))
  else Ok None.
Definition text_digest_of : RulesetDigest := fun text => text.

#[local] Existing Instances text_ip example_store text_digest_of.

#[local] Instance example_store_laws : AclStoreLaws.
Proof.
  split; unfold LoadACLPolicy, example_store; cbv zeta; [|by intros name name' ->].
  intros name policy. destruct (_ =? _)%string; [intros [= <-]|destruct (_ =? _)%string; [intros [= <-]|discriminate]]; apply Forall_singleton; by (left + right).
Qed.

Definition example_session (id ip role policy : string) : Session := mkSession id "user" "" ip "" role "" policy 0.
Definition guest : Session := example_session "s1" "10.0.0.1" "guest" "Guests".
Definition printer : Session := example_session "s2" "10.0.0.2" "device" "printers".
Definition locked : Session := example_session "s3" "10.0.0.3" "Quarantine-role" "".
Definition flow (source destination : string) (port : Z) : Packet := mkPacket source destination (Some Tcp) 50000 port NewFlow.

Example guest_rules : Line <$> PlRules (buildRuntimeFirewallPlan [guest])
  = ["ip saddr 10.0.0.1 meta l4proto tcp tcp dport 443 accept comment " +:+ quoteNftString "aegisnas:s1:Guests:10";
     "ip saddr 10.0.0.1 drop comment " +:+ quoteNftString "aegisnas:s1:Guests:default"; "ip daddr 10.0.0.1 drop comment " +:+ quoteNftString "aegisnas:s1:Guests:default"].
Proof. vm_compute. reflexivity. Qed.


Lemma quarantine_cuts_off_witness : forwarded (table_of [guest; locked]) (mkPacket "10.0.0.1" "10.0.0.3" (Some Tcp) 50000 443 EstablishedFlow) = false.
Proof.
  apply (quarantine_cuts_off (NI := text_ip) [guest; locked] locked "10.0.0.3"); [by right; left|vm_compute; reflexivity|vm_compute; by left|by left|by right].
Defined.

Lemma managed_needs_permit_witness : Status (buildRuntimeFirewallPlan [guest]) = "ready"
  /\ (forwarded (table_of [guest]) (flow "10.0.0.1" "192.0.2.1" 443) = true ->
      exists s a policy rule r, s ∈ [guest] /\ a ∈ runtimeFirewallSessionAddresses s /\ LoadACLPolicy (TrimSpace (ACLPolicyName s)) = Ok (Some policy)
        /\ rule ∈ SpRules policy /\ RlAction rule <> "deny" /\ filter_of rule a = Some r /\ rule_matches r (flow "10.0.0.1" "192.0.2.1" 443) = true).
Proof.
  split; [vm_compute; reflexivity|]. apply (managed_needs_permit (NI := text_ip) [guest] (flow "10.0.0.1" "192.0.2.1" 443)); [vm_compute; congruence|reflexivity|].
  exists guest, "10.0.0.1". repeat split; [by left|vm_compute; congruence|vm_compute; by left|by left].
Defined.

Lemma session_order_decides_witness :
  forwarded (table_of [guest; printer]) (flow "10.0.0.1" "10.0.0.2" 80) = false /\ forwarded (table_of [printer; guest]) (flow "10.0.0.1" "10.0.0.2" 80) = true.
Proof.
  apply (session_order_decides (NI := text_ip) guest printer (flow "10.0.0.1" "10.0.0.2" 80)); vm_compute; reflexivity.
Defined.
