(* ===== verification/FirewallSnapshots.v ===== *)
(** * Snapshots of the runtime firewall ([internal/enforcement/runtime_firewall.go], [internal/db/runtime_firewall.go])

    Applying a plan, synchronising, and rolling back: the nftables table of the kernel, the tables of snapshots and
    events and the row of the component's status are one state, each operation a function of it. [Nft] is the nft
    program, [DbEnv] what a call meets: the clock, the identifiers drawn, and which statements fail. Columns of JSON are
    kept as the values they encode. *)

From S2P Require Import Prelude GoStrings Bytes RuntimeFirewall.

(** ** The nft program

    Both commands return the error and the output, or nothing on success. [live_table] is the text the runtime table was
    loaded from, if it exists. *)
Class Nft := {
  Kernel : Type;
  live_table : Kernel -> option string;
  nft_delete : Kernel -> option (string * string) * Kernel;
  nft_load : string -> Kernel -> option (string * string) * Kernel;
}.

(** [strconv.Quote], for [%q] *)
Class Quote := go_quote : string -> string.

(** ** Rows *)

Record Counts := mkCounts {
  CtSessions : Z; CtManaged : Z; CtQuarantine : Z; CtIPv4 : Z; CtIPv6 : Z; CtRules : Z; CtApplied : Z }.

Definition nonNegativeInt (value : Z) : Z := if value <? 0 then 0 else value.
Definition non_negative (c : Counts) : Counts :=
  mkCounts (nonNegativeInt (CtSessions c)) (nonNegativeInt (CtManaged c)) (nonNegativeInt (CtQuarantine c)) (nonNegativeInt (CtIPv4 c))
    (nonNegativeInt (CtIPv6 c)) (nonNegativeInt (CtRules c)) (nonNegativeInt (CtApplied c)).

(** [db.RuntimeFirewallSnapshotInput] and [db.RuntimeFirewallSnapshot] *)
Record SnapshotInput := mkSnapshotInput {
  InSnapshotID : string; InOperation : string; InStatus : string; InActive : bool; InCounts : Counts; InDiagnostics : list Diagnostic;
  InFingerprint : string; InRuleset : string; InPrevious : string; InActor : string; InAppliedAt : option Z; InRolledBackAt : option Z }.

Record Snapshot := mkSnapshot {
  SnID : Z; SnSnapshotID : string; SnOperation : string; SnStatus : string; SnActive : bool; SnCounts : Counts; SnDiagnostics : list Diagnostic;
  SnFingerprint : string; SnRuleset : string; SnPrevious : string; SnActor : string; SnCreatedAt : Z; SnAppliedAt : option Z;
  SnRolledBackAt : option Z }.

(** [db.RuntimeFirewallEventInput] and [db.RuntimeFirewallEvent] *)
Record EventInput := mkEventInput {
  EiEventID : string; EiOperation : string; EiStatus : string; EiSnapshotID : string; EiPrevious : string; EiCounts : Counts;
  EiDiagnostics : list Diagnostic; EiDetails : gmap string string; EiActor : string }.

Record FwEvent := mkFwEvent {
  EvID : Z; EvEventID : string; EvOperation : string; EvStatus : string; EvSnapshotID : string; EvPrevious : string; EvCounts : Counts;
  EvDiagnostics : list Diagnostic; EvDetails : gmap string string; EvActor : string; EvCreatedAt : Z }.

(** The component's row of [runtime_status]; of the details the identifiers. *)
Record StatusRow := mkStatusRow {
  RsStatus : string; RsMessage : string; RsSnapshotID : string; RsPrevious : string; RsEventID : string; RsFingerprint : string }.

(** The statements that can fail, and what a call meets. *)
Inductive statement := QuerySessions | QueryActive | QuerySnapshots | WriteSnapshot | WriteEvent | WriteStatus.
Record DbEnv := mkDbEnv { Clock : Z; NewSnapshotID : string; NewEventID : string; Failing : statement -> option string }.

(** ** The tables of snapshots and events *)

Section ledger.
Context {U : Unicode}.

Definition normalizeRuntimeFirewallOperation (value : string) : string :=
  let v := lower_trim value in if bool_decide (v ∈ ["preview"; "apply"; "rollback"; "sync"]) then v else "".

Definition normalizeRuntimeFirewallStatus (value : string) : string :=
  let v := lower_trim value in
  if bool_decide (v ∈ ["previewed"; "applied"; "rolled_back"; "degraded"; "blocked"; "failed"; "skipped"]) then v else "blocked".

(** The CHECK on the status column *)
Definition status_allowed (status : string) : bool :=
  bool_decide (status ∈ ["previewed"; "applied"; "rolled_back"; "degraded"; "blocked"; "failed"]).

Definition deactivate (s : Snapshot) : Snapshot :=
  mkSnapshot (SnID s) (SnSnapshotID s) (SnOperation s) (SnStatus s) false (SnCounts s) (SnDiagnostics s) (SnFingerprint s) (SnRuleset s)
    (SnPrevious s) (SnActor s) (SnCreatedAt s) (SnAppliedAt s) (SnRolledBackAt s).

(** The row inserted *)
Definition snapshot_row (env : DbEnv) (id : Z) (snapshotID operation status : string) (input : SnapshotInput) : Snapshot :=
  mkSnapshot id snapshotID operation status (InActive input) (non_negative (InCounts input)) (InDiagnostics input) (TrimSpace (InFingerprint input))
    (InRuleset input) (TrimSpace (InPrevious input)) (TrimSpace (InActor input)) (Clock env) (InAppliedAt input) (InRolledBackAt input).

Definition RecordRuntimeFirewallSnapshot (env : DbEnv) (input : SnapshotInput) (rows : list Snapshot) : result string string * list Snapshot :=
  let operation := normalizeRuntimeFirewallOperation (InOperation input) in
  let status := normalizeRuntimeFirewallStatus (InStatus input) in
  let snapshotID := if (TrimSpace (InSnapshotID input) =? "")%string then NewSnapshotID env else TrimSpace (InSnapshotID input) in
  if (operation =? "")%string || (status =? "")%string then (Err "runtime firewall snapshot operation and status are required", rows)
  else if (TrimSpace (InFingerprint input) =? "")%string then (Err "runtime firewall snapshot ruleset fingerprint is required", rows)
  else match Failing env WriteSnapshot with
  | Some message => (Err ("record runtime firewall snapshot: " +:+ message), rows)
  | None =>
      if bool_decide (snapshotID ∈ (SnSnapshotID <$> rows)) || negb (status_allowed status)
      then (Err "record runtime firewall snapshot: constraint failed", rows)
      else
        let cleared := if InActive input then deactivate <$> rows else rows in
        (Ok snapshotID, cleared ++ [snapshot_row env (zlen rows + 1) snapshotID operation status input])
  end.

Definition RecordRuntimeFirewallEvent (env : DbEnv) (input : EventInput) (rows : list FwEvent) : result string string * list FwEvent :=
  let operation := normalizeRuntimeFirewallOperation (EiOperation input) in
  let status := normalizeRuntimeFirewallStatus (EiStatus input) in
  let eventID := if (TrimSpace (EiEventID input) =? "")%string then NewEventID env else TrimSpace (EiEventID input) in
  if (operation =? "")%string || (status =? "")%string then (Err "runtime firewall event operation and status are required", rows)
  else match Failing env WriteEvent with
  | Some message => (Err ("record runtime firewall event: " +:+ message), rows)
  | None =>
      if bool_decide (eventID ∈ (EvEventID <$> rows)) then (Err "record runtime firewall event: constraint failed", rows)
      else (Ok eventID,
            rows ++ [mkFwEvent (zlen rows + 1) eventID operation status (TrimSpace (EiSnapshotID input)) (TrimSpace (EiPrevious input))
                       (non_negative (EiCounts input)) (EiDiagnostics input) (EiDetails input) (TrimSpace (EiActor input)) (Clock env)])
  end.

(** [ORDER BY datetime(created_at) DESC, id DESC] *)
Definition newer (x y : Snapshot) : bool := if SnCreatedAt x =? SnCreatedAt y then SnID x >? SnID y else SnCreatedAt x >? SnCreatedAt y.
Definition newest_first : list Snapshot -> list Snapshot := sort_by newer.

Definition ListRuntimeFirewallSnapshots (env : DbEnv) (limit : Z) (rows : list Snapshot) : result string (list Snapshot) :=
  match Failing env QuerySnapshots with
  | Some message => Err ("list runtime firewall snapshots: " +:+ message)
  | None => Ok (take (Z.to_nat (if limit <=? 0 then 100 else limit)) (newest_first rows))
  end.

Definition GetRuntimeFirewallSnapshot (env : DbEnv) (snapshotID : string) (rows : list Snapshot) : result string (option Snapshot) :=
  let snapshotID := TrimSpace snapshotID in
  if (snapshotID =? "")%string then Ok None
  else match Failing env QuerySnapshots with
  | Some message => Err ("get runtime firewall snapshot: " +:+ message)
  | None => Ok (List.find (fun s => (SnSnapshotID s =? snapshotID)%string) rows)
  end.

Definition GetActiveRuntimeFirewallSnapshot (env : DbEnv) (rows : list Snapshot) : result string (option Snapshot) :=
  match Failing env QueryActive with
  | Some message => Err ("get active runtime firewall snapshot: " +:+ message)
  | None => Ok (head (newest_first (List.filter SnActive rows)))
  end.

Definition activeRuntimeFirewallSnapshotID (env : DbEnv) (rows : list Snapshot) : string :=
  match GetActiveRuntimeFirewallSnapshot env rows with Ok (Some active) => SnSnapshotID active | _ => "" end.

(** The snapshots the loop of [selectRuntimeFirewallRollbackTarget] stops at *)
Definition rollback_candidate (currentSnapshotID : string) (s : Snapshot) : bool :=
  negb ((SnSnapshotID s =? "")%string || (SnSnapshotID s =? currentSnapshotID)%string || (TrimSpace (SnRuleset s) =? "")%string)
  && bool_decide (SnStatus s ∈ ["applied"; "degraded"; "rolled_back"]).

Definition selectRuntimeFirewallRollbackTarget (env : DbEnv) (snapshotID currentSnapshotID : string) (rows : list Snapshot) : result string (option Snapshot) :=
  let snapshotID := TrimSpace snapshotID in
  if negb (snapshotID =? "")%string then GetRuntimeFirewallSnapshot env snapshotID rows
  else match ListRuntimeFirewallSnapshots env 100 rows with
  | Err e => Err e
  | Ok snapshots => Ok (List.find (rollback_candidate currentSnapshotID) snapshots)
  end.
End ledger.

(** ** The state and the operations *)

Section operations.
Context {U : Unicode} {NI : NetIP} {AS : AclStore} {RD : RulesetDigest} {N : Nft} {Q : Quote}.

(** The kernel, the active sessions as the query returns them, and the tables. *)
Record FwState := mkFwState {
  FwKernel : Kernel; FwSessions : list Session; FwSnapshots : list Snapshot; FwEvents : list FwEvent; FwStatus : option StatusRow }.

Definition with_kernel (k : Kernel) (s : FwState) : FwState := mkFwState k (FwSessions s) (FwSnapshots s) (FwEvents s) (FwStatus s).
Definition with_snapshots (l : list Snapshot) (s : FwState) : FwState := mkFwState (FwKernel s) (FwSessions s) l (FwEvents s) (FwStatus s).
Definition with_events (l : list FwEvent) (s : FwState) : FwState := mkFwState (FwKernel s) (FwSessions s) (FwSnapshots s) l (FwStatus s).
Definition with_status (r : StatusRow) (s : FwState) : FwState := mkFwState (FwKernel s) (FwSessions s) (FwSnapshots s) (FwEvents s) (Some r).
Definition with_sessions (l : list Session) (s : FwState) : FwState := mkFwState (FwKernel s) l (FwSnapshots s) (FwEvents s) (FwStatus s).

Definition newRuntimeFirewallPlan : Plan := mkPlan "ready" "" "" "" (mkSummary 0 0 0 0 0 0 0 0 0) [] [] [].

(** What a failed call returns for the plan *)
Definition no_plan : Plan := mkPlan "" "" "" "" (mkSummary 0 0 0 0 0 0 0 0 0) [] [] [].

Definition counts_of (s : Summary) : Counts :=
  mkCounts (TotalActiveSessions s) (ManagedSessions s) (QuarantineSessions s) (IPv4Sessions s) (IPv6Sessions s) (RuleCount s) (AppliedRuleCount s).

Definition canIgnoreRuntimeFirewallDeleteError (output : string) : bool := Contains (lower_trim output) "no such file or directory".

Definition resetRuntimeFirewallTable (k : Kernel) : option string * Kernel :=
  match nft_delete k with
  | (None, k') => (None, k')
  | (Some (err, out), k') =>
      let output := TrimSpace out in
      if canIgnoreRuntimeFirewallDeleteError output then (None, k')
      else (Some ("reset runtime firewall: " +:+ err +:+ newline +:+ "Output: " +:+ output), k')
  end.

Definition applyRuntimeFirewallRuleset (ruleset : string) (k : Kernel) : option string * Kernel :=
  match nft_load ruleset k with
  | (None, k') => (None, k')
  | (Some (err, out), k') => (Some ("apply runtime firewall: " +:+ err +:+ newline +:+ "Output: " +:+ TrimSpace out), k')
  end.

(** [recordRuntimeFirewallEvent]; the identifier is empty when the statement fails. *)
Definition recordRuntimeFirewallEvent (env : DbEnv) (operation status snapshotID previousSnapshotID : string) (plan : Plan) (actor : string)
    (details : gmap string string) (s : FwState) : result string string * FwState :=
  let details := <["table_name" := "aegis_runtime"]> (<["ruleset_fingerprint" := RulesetFingerprint plan]> details) in
  let '(r, rows) := RecordRuntimeFirewallEvent env
    (mkEventInput "" operation status snapshotID previousSnapshotID (counts_of (PlSummary plan)) (PlDiagnostics plan) details actor) (FwEvents s) in
  (r, with_events rows s).

Definition or_empty (r : result string string) : string := match r with Ok id => id | Err _ => "" end.

Definition UpsertRuntimeStatus (env : DbEnv) (status message : string) (plan : Plan) (snapshotID previousSnapshotID eventID : string) (s : FwState) : FwState :=
  match Failing env WriteStatus with
  | Some _ => s
  | None => with_status (mkStatusRow status message snapshotID previousSnapshotID eventID (RulesetFingerprint plan)) s
  end.

Definition PreviewRuntimeFirewall (env : DbEnv) (s : FwState) : result string Plan :=
  match Failing env QuerySessions with Some message => Err message | None => Ok (buildRuntimeFirewallPlan (FwSessions s)) end.

Definition PreviewAndRecordRuntimeFirewall (env : DbEnv) (actor : string) (s : FwState) : result string (Plan * string) * FwState :=
  match PreviewRuntimeFirewall env s with
  | Err e => (Err e, s)
  | Ok plan =>
      let '(r, s) := recordRuntimeFirewallEvent env "preview" "previewed" "" "" plan actor ∅ s in
      (match r with Ok eventID => Ok (plan, eventID) | Err e => Err e end, s)
  end.

Record ApplyResult := mkApplyResult {
  ArSnapshotID : string; ArPrevious : string; ArEventID : string; ArStatus : string; ArMessage : string; ArPlan : Plan }.
Definition no_apply : ApplyResult := mkApplyResult "" "" "" "" "" no_plan.

(** An error of nft: the event, the status row, and the result with the error. *)
Definition failed_apply (env : DbEnv) (operation previous actor : string) (plan : Plan) (err : string) (s : FwState) : ApplyResult * option string * FwState :=
  let '(r, s) := recordRuntimeFirewallEvent env operation "failed" "" previous plan actor {["error" := err]} s in
  (mkApplyResult "" previous (or_empty r) "failed" err plan, Some err, UpsertRuntimeStatus env "down" err plan "" previous (or_empty r) s).

(** The snapshot of an applied plan *)
Definition applied_input (env : DbEnv) (operation status previous actor : string) (plan : Plan) : SnapshotInput :=
  mkSnapshotInput "" operation status true (counts_of (PlSummary plan)) (PlDiagnostics plan) (RulesetFingerprint plan) (Ruleset plan) previous actor
    (Some (Clock env)) None.

(** What follows a load that succeeded *)
Definition record_applied (env : DbEnv) (operation previous actor : string) (plan : Plan) (s : FwState) : ApplyResult * option string * FwState :=
  let status := if (Status plan =? "degraded")%string then "degraded" else "applied" in
  let runtimeStatus := if (Status plan =? "degraded")%string then "degraded" else "ok" in
  let '(r, rows) := RecordRuntimeFirewallSnapshot env (applied_input env operation status previous actor plan) (FwSnapshots s) in
  let s := with_snapshots rows s in
  match r with
  | Err e => (no_apply, Some e, s)
  | Ok snapshotID =>
      let '(r, s) := recordRuntimeFirewallEvent env operation status snapshotID previous plan actor ∅ s in
      match r with
      | Err e => (no_apply, Some e, s)
      | Ok eventID =>
          (mkApplyResult snapshotID previous eventID status (PlMessage plan) plan, None,
           UpsertRuntimeStatus env runtimeStatus (PlMessage plan) plan snapshotID previous eventID s)
      end
  end.

Definition ApplyRuntimeFirewall (env : DbEnv) (actor operation : string) (s : FwState) : ApplyResult * option string * FwState :=
  let given := lower_trim operation in
  let operation := if (given =? "")%string then "apply" else given in
  if negb (operation =? "apply")%string && negb (operation =? "sync")%string
  then (no_apply, Some ("runtime firewall operation " +:+ go_quote operation +:+ " is not supported"), s)
  else
    let actor := if (TrimSpace actor =? "")%string then "system" else TrimSpace actor in
    match PreviewRuntimeFirewall env s with
    | Err e => (no_apply, Some e, s)
    | Ok plan =>
        let previous := activeRuntimeFirewallSnapshotID env (FwSnapshots s) in
        if (Status plan =? "blocked")%string then
          let '(r, s) := recordRuntimeFirewallEvent env operation "blocked" "" previous plan actor {["message" := PlMessage plan]} s in
          let s := UpsertRuntimeStatus env "down" (PlMessage plan) plan "" previous (or_empty r) s in
          match r with
          | Err e => (no_apply, Some e, s)
          | Ok eventID => (mkApplyResult "" previous eventID "blocked" (PlMessage plan) plan, Some (PlMessage plan), s)
          end
        else match resetRuntimeFirewallTable (FwKernel s) with
        | (Some err, k) => failed_apply env operation previous actor plan err (with_kernel k s)
        | (None, k) =>
            match applyRuntimeFirewallRuleset (Ruleset plan) k with
            | (Some err, k') => failed_apply env operation previous actor plan err (with_kernel k' s)
            | (None, k') => record_applied env operation previous actor plan (with_kernel k' s)
            end
        end
    end.

Definition SyncRuntimeFirewall (env : DbEnv) (s : FwState) : option string * FwState :=
  let '(_, err, s) := ApplyRuntimeFirewall env "runtime-sync" "sync" s in (err, s).

Record RollbackResult := mkRollbackResult {
  RrSnapshotID : string; RrRestored : string; RrPrevious : string; RrEventID : string; RrStatus : string; RrMessage : string; RrPlan : Plan }.
Definition no_rollback : RollbackResult := mkRollbackResult "" "" "" "" "" "" no_plan.

(** The plan that stands for a snapshot *)
Definition restored_plan (target : Snapshot) : Plan :=
  let c := SnCounts target in
  mkPlan "ready" "Runtime firewall rollback snapshot is ready." (SnRuleset target) (SnFingerprint target)
    (mkSummary (CtSessions c) (CtManaged c) (CtQuarantine c) (CtIPv4 c) (CtIPv6 c) 0 (CtRules c) (CtApplied c) 0) [] [] [].

Definition failed_rollback (env : DbEnv) (target : Snapshot) (current actor err : string) (s : FwState) : RollbackResult * option string * FwState :=
  let plan := restored_plan target in
  let '(r, s) := recordRuntimeFirewallEvent env "rollback" "failed" (SnSnapshotID target) current plan actor {["error" := err]} s in
  (mkRollbackResult "" (SnSnapshotID target) current (or_empty r) "failed" err plan, Some err,
   UpsertRuntimeStatus env "down" err plan (SnSnapshotID target) current (or_empty r) s).

(** The snapshot of a rollback *)
Definition rollback_input (env : DbEnv) (target : Snapshot) (current actor : string) : SnapshotInput :=
  mkSnapshotInput "" "rollback" "rolled_back" true (SnCounts target) (SnDiagnostics target) (SnFingerprint target) (SnRuleset target) current actor
    (Some (Clock env)) (Some (Clock env)).

Definition record_rolled_back (env : DbEnv) (target : Snapshot) (current actor : string) (s : FwState) : RollbackResult * option string * FwState :=
  let plan := restored_plan target in
  let '(r, rows) := RecordRuntimeFirewallSnapshot env (rollback_input env target current actor) (FwSnapshots s) in
  let s := with_snapshots rows s in
  match r with
  | Err e => (no_rollback, Some e, s)
  | Ok snapshotID =>
      let '(r, s) := recordRuntimeFirewallEvent env "rollback" "rolled_back" snapshotID current plan actor {["restored_snapshot_id" := SnSnapshotID target]} s in
      match r with
      | Err e => (no_rollback, Some e, s)
      | Ok eventID =>
          (mkRollbackResult snapshotID (SnSnapshotID target) current eventID "rolled_back" "Runtime firewall rollback applied" plan, None,
           UpsertRuntimeStatus env "ok" "Runtime firewall rollback applied" plan snapshotID current eventID s)
      end
  end.

Definition RollbackRuntimeFirewall (env : DbEnv) (snapshotID actor : string) (s : FwState) : RollbackResult * option string * FwState :=
  let actor := if (TrimSpace actor =? "")%string then "system" else TrimSpace actor in
  let current := activeRuntimeFirewallSnapshotID env (FwSnapshots s) in
  match selectRuntimeFirewallRollbackTarget env snapshotID current (FwSnapshots s) with
  | Err e => (no_rollback, Some e, s)
  | Ok None => (no_rollback, Some "no runtime firewall rollback snapshot is available", s)
  | Ok (Some target) =>
      match resetRuntimeFirewallTable (FwKernel s) with
      | (Some err, k) => failed_rollback env target current actor err (with_kernel k s)
      | (None, k) =>
          match applyRuntimeFirewallRuleset (SnRuleset target) k with
          | (Some err, k') => failed_rollback env target current actor err (with_kernel k' s)
          | (None, k') => record_rolled_back env target current actor (with_kernel k' s)
          end
      end
  end.
End operations.

(** ** What is assumed of nft and of the digest

    Documented: deleting a table that does not exist fails with "No such file or directory", a failed command leaves
    the tables as they were, a ruleset is loaded as a whole. The digest is "sha256:" and hexadecimal digits. *)
Class NftLaws {U : Unicode} {N : Nft} : Prop := {
  delete_done k k' : nft_delete k = (None, k') -> live_table k' = None;
  delete_failed k err out k' : nft_delete k = (Some (err, out), k') -> live_table k' = live_table k;
  delete_missing k err out k' : nft_delete k = (Some (err, out), k') -> canIgnoreRuntimeFirewallDeleteError (TrimSpace out) = true -> live_table k = None;
  load_done text k k' : live_table k = None -> nft_load text k = (None, k') -> live_table k' = Some text;
  load_failed text k err out k' : nft_load text k = (Some (err, out), k') -> live_table k' = live_table k;
}.

Class DigestLaws {RD : RulesetDigest} : Prop := digest_visible text : TrimSpace (ruleset_digest text) = ruleset_digest text /\ ruleset_digest text <> "".

(** ** The ledger's invariant *)

Section invariant.
Context {U : Unicode} {NI : NetIP} {AS : AclStore} {RD : RulesetDigest} {N : Nft} {Q : Quote}.

(** The statuses of snapshots that were loaded *)
Definition loaded_status (status : string) : Prop := status ∈ ["applied"; "degraded"; "rolled_back"].

Record row_ok (r : Snapshot) : Prop := {
  ro_id : TrimSpace (SnSnapshotID r) = SnSnapshotID r /\ SnSnapshotID r <> "";
  ro_ruleset : TrimSpace (SnRuleset r) <> "";
  ro_fingerprint : SnFingerprint r = ruleset_digest (SnRuleset r);
  ro_status : loaded_status (SnStatus r);
}.

(** The rows in the order of their insertion: the last one alone is active. *)
Record ledger_ok (rows : list Snapshot) : Prop := {
  lk_rows : Forall row_ok rows;
  lk_ids : NoDup (SnSnapshotID <$> rows);
  lk_number i r : rows !! i = Some r -> SnID r = Z.of_nat i + 1;
  lk_order : StronglySorted (fun x y => SnCreatedAt x <= SnCreatedAt y) rows;
  lk_active old a : rows = old ++ [a] -> SnActive a = true /\ Forall (fun r => SnActive r = false) old;
}.

Definition active_row (s : FwState) : option Snapshot := last (FwSnapshots s).

(** The table of the kernel is the active snapshot's. *)
Definition table_matches (s : FwState) : Prop := live_table (FwKernel s) = SnRuleset <$> active_row s.

(** The clock does not run backwards, and the identifier drawn is not blank. *)
Definition timely (env : DbEnv) (s : FwState) : Prop :=
  Forall (fun r => SnCreatedAt r <= Clock env) (FwSnapshots s) /\ TrimSpace (NewSnapshotID env) = NewSnapshotID env /\ NewSnapshotID env <> "".

(** Neither nft nor the statement that records the snapshot fails. *)
Definition undisturbed (env : DbEnv) (s : FwState) : Prop :=
  Failing env WriteSnapshot = None /\ (NewSnapshotID env ∉ (SnSnapshotID <$> FwSnapshots s))
  /\ forall text k, live_table k = None -> (nft_load text k).1 = None.

(** *** The order of the rows *)

Lemma insert_newest x l : Forall (fun y => newer y x = true) l -> insert_by newer x l = l ++ [x].
Proof. induction 1 as [|y l Hy Hl IH]; [done|]. cbn. by rewrite Hy, IH. Qed.

Lemma newest_first_reverse rows : StronglySorted (fun x y => newer y x = true) rows -> newest_first rows = reverse rows.
Proof.
  unfold newest_first. induction 1 as [|x l Hs IH HF]; [done|]. cbn [sort_by foldr]. fold (sort_by newer l). rewrite IH, reverse_cons.
  apply insert_newest. by rewrite reverse_Permutation.
Qed.

Lemma newer_rows rows : ledger_ok rows -> StronglySorted (fun x y => newer y x = true) rows.
Proof.
  intros [_ _ Hn Ho _]. assert (forall l n, (forall i r, l !! i = Some r -> SnID r = Z.of_nat (n + i) + 1) -> StronglySorted (fun x y => SnCreatedAt x <= SnCreatedAt y) l ->
    StronglySorted (fun x y => newer y x = true) l) as H; [|by apply (H rows 0%nat)].
  intros l n Hl Hs. revert n Hl. induction Hs as [|x l Hs IH HF]; intros n Hl; constructor.
  - apply (IH (S n)). intros i r Hr. rewrite (Hl (S i) r Hr). f_equal. lia.
  - apply Forall_forall. intros y Hy. rewrite Forall_forall in HF. specialize (HF y Hy). apply list_elem_of_lookup in Hy as [i Hi].
    pose proof (Hl 0%nat x eq_refl). pose proof (Hl (S i) y Hi). unfold newer. destruct (Z.eqb_spec (SnCreatedAt y) (SnCreatedAt x)); rewrite Z.gtb_ltb; apply Z.ltb_lt; lia.
Qed.

Lemma list_snapshots rows : ledger_ok rows -> newest_first rows = reverse rows.
Proof. intros H. by apply newest_first_reverse, newer_rows. Qed.

Lemma active_rows rows old a : ledger_ok rows -> rows = old ++ [a] -> List.filter SnActive rows = [a].
Proof.
  intros Hl ->. destruct (lk_active _ Hl old a eq_refl) as [Ha Hold]. rewrite List.filter_app. cbn [List.filter]. rewrite Ha.
  assert (List.filter SnActive old = []) as ->; [|done]. clear -Hold. induction Hold as [|r l Hr _ IH]; [done|]. cbn. by rewrite Hr.
Qed.

Lemma active_id env rows : ledger_ok rows -> Failing env QueryActive = None ->
  activeRuntimeFirewallSnapshotID env rows = default "" (SnSnapshotID <$> last rows).
Proof.
  intros Hl Hf. unfold activeRuntimeFirewallSnapshotID, GetActiveRuntimeFirewallSnapshot. rewrite Hf.
  destruct rows as [|a old _] using rev_ind; [done|]. rewrite (active_rows _ old a Hl eq_refl), last_snoc. done.
Qed.
(** *** Recording a snapshot *)

Lemma deactivate_ids (rows : list Snapshot) : SnSnapshotID <$> (deactivate <$> rows) = SnSnapshotID <$> rows.
Proof. rewrite <- list_fmap_compose. by apply list_fmap_ext. Qed.

Lemma deactivate_row r : row_ok r -> row_ok (deactivate r).
Proof. intros [? ? ? ?]. by split. Qed.

(** A row is added after the rows there were, which are no longer active. *)
Lemma ledger_ok_add rows row : ledger_ok rows -> row_ok row -> SnActive row = true -> (SnSnapshotID row ∉ (SnSnapshotID <$> rows)) ->
  SnID row = zlen rows + 1 -> Forall (fun r => SnCreatedAt r <= SnCreatedAt row) rows -> ledger_ok ((deactivate <$> rows) ++ [row]).
Proof.
  intros [Hr Hi Hn Ho Ha] Hrow Hact Hfresh Hid Htime. split.
  - apply Forall_app. split; [|by apply Forall_singleton]. apply Forall_fmap. eapply Forall_impl; [exact Hr|]. apply deactivate_row.
  - rewrite fmap_app, deactivate_ids. apply NoDup_app. split_and!; [done| |apply NoDup_singleton]. intros x Hx ->%list_elem_of_singleton. done.
  - intros i r [Hl|[Hlen Hl]]%lookup_app_Some.
    + apply list_lookup_fmap_Some in Hl as (x & -> & Hx). by apply (Hn _ x).
    + rewrite length_fmap in *. apply list_lookup_singleton_Some in Hl as [? <-]. rewrite Hid. unfold zlen. lia.
  - assert (StronglySorted (fun x y => SnCreatedAt x <= SnCreatedAt y) (deactivate <$> rows)) as Hs.
    { clear -Ho. induction Ho as [|x l Hs IH HF]; cbn; constructor; [done|]. by apply Forall_fmap. }
    assert (Forall (fun r => SnCreatedAt r <= SnCreatedAt row) (deactivate <$> rows)) as Ht by by apply Forall_fmap.
    clear -Hs Ht. induction Hs as [|x l Hs IH HF]; cbn; [repeat constructor|]. inv_Forall. constructor; [by apply IH|]. apply Forall_app. by split; [|apply Forall_singleton].
  - intros old a [<- [= <-]]%app_inj_2; [|done]. split; [done|]. apply Forall_fmap. by apply Forall_true.
Qed.

Lemma loaded_status_allowed status : loaded_status status -> (status =? "")%string = false /\ status_allowed status = true.
Proof. unfold loaded_status. intros [H|[H|H%list_elem_of_singleton]%elem_of_cons]%elem_of_cons; by rewrite H. Qed.

(** Inputs that the operations make *)
Record input_ok (input : SnapshotInput) : Prop := {
  io_id : InSnapshotID input = "";
  io_operation : normalizeRuntimeFirewallOperation (InOperation input) <> "";
  io_status : loaded_status (InStatus input) /\ normalizeRuntimeFirewallStatus (InStatus input) = InStatus input;
  io_active : InActive input = true;
  io_fingerprint : InFingerprint input = ruleset_digest (InRuleset input);
  io_ruleset : TrimSpace (InRuleset input) <> "";
}.

Section record.
Context {DL : DigestLaws}.

Lemma record_snapshot env input s : ledger_ok (FwSnapshots s) -> timely env s -> input_ok input ->
  (exists e, RecordRuntimeFirewallSnapshot env input (FwSnapshots s) = (Err e, FwSnapshots s) /\ ~ undisturbed env s)
  \/ (exists row, RecordRuntimeFirewallSnapshot env input (FwSnapshots s) = (Ok (NewSnapshotID env), (deactivate <$> FwSnapshots s) ++ [row])
        /\ SnSnapshotID row = NewSnapshotID env /\ SnRuleset row = InRuleset input /\ SnStatus row = InStatus input
        /\ SnPrevious row = TrimSpace (InPrevious input) /\ SnCreatedAt row = Clock env /\ ledger_ok ((deactivate <$> FwSnapshots s) ++ [row])).
Proof.
  intros Hl (Htime & Htrim & Hid) [Hin Hop [Hst Hnorm] Hact Hfp Htext]. unfold RecordRuntimeFirewallSnapshot. cbv zeta. rewrite Hin, Hnorm, Hfp, Hact.
  change (TrimSpace "") with "". cbn [String.eqb]. destruct (digest_visible (InRuleset input)) as [Hd1 Hd2].
  apply String.eqb_neq in Hop as ->. rewrite Hd1. apply String.eqb_neq in Hd2 as ->.
  destruct (loaded_status_allowed _ Hst) as [-> ->]. cbn [orb negb].
  unfold undisturbed. destruct (Failing env WriteSnapshot) as [m|]; [left; eexists; split; [done|intros [? _]; discriminate]|].
  case_bool_decide as Hfresh; cbn [orb]; [left; eexists; split; [done|by intros (_ & Hf & _)]|]. right.
  eexists. split; [reflexivity|]. split_and!; try reflexivity. apply ledger_ok_add; try done; cbn.
  split; cbn; try done. by rewrite Hfp.
Qed.

(** *** What the operations do to the kernel and the snapshots *)

(** The operation loads [text], or gives up; [quiet] when it was not disturbed. *)
Inductive moved (env : DbEnv) (text : string) (s s' : FwState) (err : option string) : Prop :=
| moved_not : live_table (FwKernel s') = live_table (FwKernel s) -> FwSnapshots s' = FwSnapshots s -> err <> None -> moved env text s s' err
| moved_lost : live_table (FwKernel s') = None -> FwSnapshots s' = FwSnapshots s -> err <> None -> ~ undisturbed env s -> moved env text s s' err
| moved_unrecorded : live_table (FwKernel s') = Some text -> FwSnapshots s' = FwSnapshots s -> err <> None -> ~ undisturbed env s -> moved env text s s' err
| moved_recorded row : live_table (FwKernel s') = Some text -> FwSnapshots s' = (deactivate <$> FwSnapshots s) ++ [row] ->
    SnRuleset row = text -> SnSnapshotID row = NewSnapshotID env -> SnCreatedAt row = Clock env -> loaded_status (SnStatus row) ->
    ledger_ok (FwSnapshots s') -> moved env text s s' err.

Lemma reset_table {NL : NftLaws} k : match resetRuntimeFirewallTable k with
  | (None, k') => live_table k' = None
  | (Some _, k') => live_table k' = live_table k
  end.
Proof.
  unfold resetRuntimeFirewallTable. destruct (nft_delete k) as [[[err out]|] k'] eqn:E; [|by eapply delete_done].
  cbv zeta. destruct (canIgnoreRuntimeFirewallDeleteError _) eqn:Ei; [|by eapply delete_failed].
  rewrite (delete_failed _ _ _ _ E). by eapply delete_missing.
Qed.

Lemma load_table {NL : NftLaws} text k : live_table k = None -> match applyRuntimeFirewallRuleset text k with
  | (None, k') => live_table k' = Some text
  | (Some _, k') => live_table k' = None /\ (nft_load text k).1 <> None
  end.
Proof.
  intros Hk. unfold applyRuntimeFirewallRuleset. destruct (nft_load text k) as [[[err out]|] k'] eqn:E; [|by eapply load_done].
  split; [|done]. by rewrite (load_failed _ _ _ _ _ E).
Qed.

(** Events and the status row do not touch the kernel or the snapshots. *)
Definition same_firewall (s s' : FwState) : Prop := FwKernel s' = FwKernel s /\ FwSnapshots s' = FwSnapshots s.

Lemma record_event_same env operation status id previous plan actor details s :
  same_firewall s (recordRuntimeFirewallEvent env operation status id previous plan actor details s).2.
Proof. unfold recordRuntimeFirewallEvent. cbv zeta. by destruct (RecordRuntimeFirewallEvent _ _ _). Qed.

Lemma upsert_same env status message plan id previous event s : same_firewall s (UpsertRuntimeStatus env status message plan id previous event s).
Proof. unfold UpsertRuntimeStatus. by destruct (Failing env WriteStatus). Qed.

Lemma same_trans s1 s2 s3 : same_firewall s1 s2 -> same_firewall s2 s3 -> same_firewall s1 s3.
Proof. intros [H1 H2] [H3 H4]. split; congruence. Qed.

Lemma failed_apply_same env operation previous actor plan err s :
  (failed_apply env operation previous actor plan err s).1.2 = Some err /\ same_firewall s (failed_apply env operation previous actor plan err s).2
  /\ ArStatus (failed_apply env operation previous actor plan err s).1.1 = "failed" /\ ArPlan (failed_apply env operation previous actor plan err s).1.1 = plan.
Proof.
  unfold failed_apply. pose proof (record_event_same env operation "failed" "" previous plan actor {["error" := err]} s) as H.
  destruct (recordRuntimeFirewallEvent _ _ _ _ _ _ _ _ _) as [r s1]. split_and!; try done. eapply same_trans; [exact H|]. apply upsert_same.
Qed.

Lemma failed_rollback_same env target current actor err s :
  (failed_rollback env target current actor err s).1.2 = Some err /\ same_firewall s (failed_rollback env target current actor err s).2.
Proof.
  unfold failed_rollback. cbv zeta. pose proof (record_event_same env "rollback" "failed" (SnSnapshotID target) current (restored_plan target) actor {["error" := err]} s) as H.
  destruct (recordRuntimeFirewallEvent _ _ _ _ _ _ _ _ _) as [r s1]. split; [done|]. eapply same_trans; [exact H|]. apply upsert_same.
Qed.

Lemma plan_text sessions : let plan := buildRuntimeFirewallPlan sessions in
  RulesetFingerprint plan = ruleset_digest (Ruleset plan) /\ TrimSpace (Ruleset plan) <> "".
Proof.
  unfold buildRuntimeFirewallPlan. cbv zeta. destruct (runtimeFirewallPlanStatus _ _). cbn [RulesetFingerprint Ruleset]. split; [done|].
  apply visible_not_blank. unfold renderRuntimeFirewallRuleset. rewrite visible_app. done.
Qed.

(** After a successful load: the snapshot is recorded, or an error is returned. *)
Lemma record_applied_moved env operation previous actor plan s0 s res err s' : FwSnapshots s0 = FwSnapshots s ->
  record_applied env operation previous actor plan s = (res, err, s') -> live_table (FwKernel s) = Some (Ruleset plan) -> ledger_ok (FwSnapshots s) ->
  timely env s -> operation = "apply" \/ operation = "sync" -> RulesetFingerprint plan = ruleset_digest (Ruleset plan) -> TrimSpace (Ruleset plan) <> "" ->
  moved env (Ruleset plan) s0 s' err
  /\ (err = None -> ArSnapshotID res = NewSnapshotID env /\ ArPrevious res = previous /\ ArPlan res = plan
        /\ ArStatus res = if (Status plan =? "degraded")%string then "degraded" else "applied").
Proof.
  unfold record_applied. cbv zeta. intros Hs0 E Hlive Hl Ht Hop Hfp Hvis.
  set (status := if (Status plan =? "degraded")%string then "degraded" else "applied") in *.
  assert (input_ok (applied_input env operation status previous actor plan)) as Hin.
  { split; cbn; try done; [by destruct Hop as [-> | ->]|]. unfold status, loaded_status. destruct (_ =? _)%string; (split; [repeat ((by left) || right)|reflexivity]). }
  destruct (record_snapshot env _ s Hl Ht Hin) as [(e & Hrec & Hu)|(row & Hrec & Hid & Htext & Hst & _ & Hc & Hl')];
    rewrite Hrec in E.
  - injection E as <- <- <-. split; [|done]. apply moved_unrecorded; [done|by rewrite Hs0|done|]. unfold undisturbed. by rewrite Hs0.
  - pose proof (record_event_same env operation status (NewSnapshotID env) previous plan actor ∅ (with_snapshots ((deactivate <$> FwSnapshots s) ++ [row]) s)) as [Hk Hs].
    destruct (recordRuntimeFirewallEvent _ _ _ _ _ _ _ _ _) as [[eventID|e] s1]; cbn [snd] in Hk, Hs.
    + injection E as <- <- <-. destruct (upsert_same env (if (Status plan =? "degraded")%string then "degraded" else "ok") (PlMessage plan) plan (NewSnapshotID env) previous eventID s1) as [Hk' Hs'].
      split; [|done]. apply (moved_recorded _ _ _ _ _ row); rewrite ?Hk', ?Hs', ?Hk, ?Hs, ?Hs0; try done. rewrite Hst. by apply Hin.
    + injection E as <- <- <-. split; [|done]. apply (moved_recorded _ _ _ _ _ row); rewrite ?Hk, ?Hs, ?Hs0; try done. rewrite Hst. by apply Hin.
Qed.

Lemma apply_moved {NL : NftLaws} env actor operation s res err s' :
  ApplyRuntimeFirewall env actor operation s = (res, err, s') -> ledger_ok (FwSnapshots s) -> timely env s ->
  moved env (Ruleset (buildRuntimeFirewallPlan (FwSessions s))) s s' err
  /\ (err = None -> ArSnapshotID res = NewSnapshotID env /\ ArPrevious res = activeRuntimeFirewallSnapshotID env (FwSnapshots s)
        /\ ArPlan res = buildRuntimeFirewallPlan (FwSessions s) /\ (ArStatus res = "applied" \/ ArStatus res = "degraded")).
Proof.
  unfold ApplyRuntimeFirewall. cbv zeta. intros E Hl Ht. destruct (plan_text (FwSessions s)) as [Hfp Hvis]. cbv zeta in Hfp, Hvis.
  set (op := if (lower_trim operation =? "")%string then "apply" else lower_trim operation) in *.
  destruct (negb (op =? "apply")%string && negb (op =? "sync")%string) eqn:Eop; [injection E as <- <- <-; split; [by apply moved_not|done]|].
  assert (op = "apply" \/ op = "sync") as Hop.
  { destruct (String.eqb_spec op "apply"); [by left|]. destruct (String.eqb_spec op "sync"); [by right|discriminate]. }
  unfold PreviewRuntimeFirewall in E. destruct (Failing env QuerySessions); [injection E as <- <- <-; split; [by apply moved_not|done]|].
  set (plan := buildRuntimeFirewallPlan (FwSessions s)) in *. clearbody plan. set (previous := activeRuntimeFirewallSnapshotID env (FwSnapshots s)) in *.
  set (who := if (TrimSpace actor =? "")%string then "system" else TrimSpace actor) in *.
  destruct (Status plan =? "blocked")%string.
  { pose proof (record_event_same env op "blocked" "" previous plan who {["message" := PlMessage plan]} s) as [Hk Hs].
    destruct (recordRuntimeFirewallEvent _ _ _ _ _ _ _ _ _) as [r s1]. cbn [snd] in Hk, Hs.
    destruct (upsert_same env "down" (PlMessage plan) plan "" previous (or_empty r) s1) as [Hk' Hs']. rewrite Hk in Hk'. rewrite Hs in Hs'.
    destruct r as [eventID|e]; injection E as <- <- <-; (split; [apply moved_not; [by f_equal|done..]|done]). }
  pose proof (reset_table (FwKernel s)) as Hreset. destruct (resetRuntimeFirewallTable (FwKernel s)) as [[e|] k].
  { destruct (failed_apply_same env op previous who plan e (with_kernel k s)) as (He & [Hk Hs] & _). rewrite E in He, Hk, Hs. cbn [fst snd] in He, Hk, Hs. subst err.
    split; [|done]. apply moved_not; [by rewrite Hk|by rewrite Hs|done]. }
  pose proof (load_table (Ruleset plan) k Hreset) as Hload. destruct (applyRuntimeFirewallRuleset (Ruleset plan) k) as [[e|] k'].
  { destruct Hload as [Hnone Hfail]. destruct (failed_apply_same env op previous who plan e (with_kernel k' s)) as (He & [Hk Hs] & _). rewrite E in He, Hk, Hs.
    cbn [fst snd] in He, Hk, Hs. subst err. split; [|done]. apply moved_lost; [by rewrite Hk|by rewrite Hs|done|]. intros (_ & _ & Hok). by apply Hfail, Hok. }
  destruct (record_applied_moved env op previous who plan s (with_kernel k' s) res err s' eq_refl E Hload Hl Ht Hop Hfp Hvis) as [Hm Hr]. split; [done|].
  intros He. destruct (Hr He) as (? & ? & ? & ->). split_and!; try done. destruct (Status plan =? "degraded")%string; auto.
Qed.

Lemma record_rolled_back_moved env target current actor s0 s res err s' : FwSnapshots s0 = FwSnapshots s ->
  record_rolled_back env target current actor s = (res, err, s') -> live_table (FwKernel s) = Some (SnRuleset target) -> ledger_ok (FwSnapshots s) ->
  timely env s -> row_ok target ->
  moved env (SnRuleset target) s0 s' err
  /\ (err = None -> RrSnapshotID res = NewSnapshotID env /\ RrRestored res = SnSnapshotID target /\ RrPrevious res = current /\ RrStatus res = "rolled_back").
Proof.
  unfold record_rolled_back. cbv zeta. intros Hs0 E Hlive Hl Ht [Hid Htx Hfp Hstat].
  assert (input_ok (rollback_input env target current actor)) as Hin.
  { split; cbn; try done. unfold loaded_status. split; [by right; right; left|reflexivity]. }
  destruct (record_snapshot env _ s Hl Ht Hin) as [(e & Hrec & Hu)|(row & Hrec & Hid' & Htext & Hst & _ & Hc & Hl')]; rewrite Hrec in E.
  - injection E as <- <- <-. split; [|done]. apply moved_unrecorded; [done|by rewrite Hs0|done|]. unfold undisturbed. by rewrite Hs0.
  - set (plan := restored_plan target) in *. set (details := {["restored_snapshot_id" := SnSnapshotID target]} : gmap string string) in *.
    pose proof (record_event_same env "rollback" "rolled_back" (NewSnapshotID env) current plan actor details (with_snapshots ((deactivate <$> FwSnapshots s) ++ [row]) s)) as [Hk Hs].
    destruct (recordRuntimeFirewallEvent _ _ _ _ _ _ _ _ _) as [[eventID|e] s1]; cbn [snd] in Hk, Hs.
    + injection E as <- <- <-. destruct (upsert_same env "ok" "Runtime firewall rollback applied" plan (NewSnapshotID env) current eventID s1) as [Hk' Hs'].
      split; [|done]. apply (moved_recorded _ _ _ _ _ row); rewrite ?Hk', ?Hs', ?Hk, ?Hs, ?Hs0; try done. rewrite Hst. by apply Hin.
    + injection E as <- <- <-. split; [|done]. apply (moved_recorded _ _ _ _ _ row); rewrite ?Hk, ?Hs, ?Hs0; try done. rewrite Hst. by apply Hin.
Qed.

Lemma find_elem {A} (p : A -> bool) l x : List.find p l = Some x -> x ∈ l /\ p x = true.
Proof. intros H. apply find_some in H as [Hi Hp]. by rewrite list_elem_of_In. Qed.

(** The target of a rollback is a snapshot of the ledger. *)
Lemma target_row env id current rows target : ledger_ok rows -> selectRuntimeFirewallRollbackTarget env id current rows = Ok (Some target) -> target ∈ rows.
Proof.
  intros Hl. unfold selectRuntimeFirewallRollbackTarget, GetRuntimeFirewallSnapshot, ListRuntimeFirewallSnapshots. cbv zeta.
  destruct (negb (TrimSpace id =? "")%string).
  - rewrite TrimSpace_idem. destruct (_ =? _)%string; [done|]. destruct (Failing env QuerySnapshots); [done|]. intros [= H]. by apply find_elem in H as [H _].
  - destruct (Failing env QuerySnapshots); [done|]. intros [= H]. apply find_elem in H as [H _].
    assert (target ∈ newest_first rows) as Ht by (apply elem_of_take in H as (i & Hi & _); by eapply list_elem_of_lookup_2). unfold newest_first in Ht. by rewrite sort_by_perm in Ht.
Qed.

Lemma rollback_moved {NL : NftLaws} env id actor s res err s' :
  RollbackRuntimeFirewall env id actor s = (res, err, s') -> ledger_ok (FwSnapshots s) -> timely env s ->
  (live_table (FwKernel s') = live_table (FwKernel s) /\ FwSnapshots s' = FwSnapshots s /\ err <> None)
  \/ exists target, selectRuntimeFirewallRollbackTarget env id (activeRuntimeFirewallSnapshotID env (FwSnapshots s)) (FwSnapshots s) = Ok (Some target)
      /\ moved env (SnRuleset target) s s' err
      /\ (err = None -> RrSnapshotID res = NewSnapshotID env /\ RrRestored res = SnSnapshotID target
            /\ RrPrevious res = activeRuntimeFirewallSnapshotID env (FwSnapshots s) /\ RrStatus res = "rolled_back").
Proof.
  unfold RollbackRuntimeFirewall. cbv zeta. intros E Hl Ht. set (current := activeRuntimeFirewallSnapshotID env (FwSnapshots s)) in *.
  set (who := if (TrimSpace actor =? "")%string then "system" else TrimSpace actor) in *.
  destruct (selectRuntimeFirewallRollbackTarget env id current (FwSnapshots s)) as [[target|]|e] eqn:Et; [|injection E as <- <- <-; by left..].
  pose proof (target_row _ _ _ _ _ Hl Et) as Hin. assert (row_ok target) as Hrow by (pose proof (lk_rows _ Hl) as HF; rewrite Forall_forall in HF; by apply HF).
  right. exists target. split; [done|].
  pose proof (reset_table (FwKernel s)) as Hreset. destruct (resetRuntimeFirewallTable (FwKernel s)) as [[e|] k].
  { destruct (failed_rollback_same env target current who e (with_kernel k s)) as (He & [Hk Hs]). rewrite E in He, Hk, Hs. cbn [fst snd] in He, Hk, Hs. subst err.
    split; [|done]. apply moved_not; [by rewrite Hk|by rewrite Hs|done]. }
  pose proof (load_table (SnRuleset target) k Hreset) as Hload. destruct (applyRuntimeFirewallRuleset (SnRuleset target) k) as [[e|] k'].
  { destruct Hload as [Hnone Hfail]. destruct (failed_rollback_same env target current who e (with_kernel k' s)) as (He & [Hk Hs]). rewrite E in He, Hk, Hs.
    cbn [fst snd] in He, Hk, Hs. subst err. split; [|done]. apply moved_lost; [by rewrite Hk|by rewrite Hs|done|]. intros (_ & _ & Hok). by apply Hfail, Hok. }
  by apply (record_rolled_back_moved env target current who s (with_kernel k' s)).
Qed.

(** ** Histories *)

(** What happens to a firewall: sessions come and go, and administrators, the sync and transactions call the operations; in a calm history
    no load and no record fails. *)
Inductive step (calm : bool) : FwState -> FwState -> Prop :=
| step_sessions l s : step calm s (with_sessions l s)
| step_preview env actor s r s' : PreviewAndRecordRuntimeFirewall env actor s = (r, s') -> step calm s s'
| step_apply env actor operation s res err s' : ApplyRuntimeFirewall env actor operation s = (res, err, s') -> timely env s ->
    (calm = true -> undisturbed env s) -> step calm s s'
| step_rollback env id actor s res err s' : RollbackRuntimeFirewall env id actor s = (res, err, s') -> timely env s ->
    (calm = true -> undisturbed env s) -> step calm s s'.

Definition fresh (s : FwState) : Prop := FwSnapshots s = [] /\ live_table (FwKernel s) = None.

Lemma last_added rows row : last ((deactivate <$> rows) ++ [row]) = Some row.
Proof. apply last_snoc. Qed.

Lemma moved_ok env text s s' err calm : moved env text s s' err -> (calm = true -> undisturbed env s) -> ledger_ok (FwSnapshots s) -> (calm = true -> table_matches s) ->
  ledger_ok (FwSnapshots s') /\ (calm = true -> table_matches s').
Proof.
  intros Hm Hcalm Hl Ht. unfold table_matches, active_row in *.
  destruct Hm as [Hk Hs _|Hk Hs _ Hu|Hk Hs _ Hu|row Hk Hs Htext _ _ _ Hl'].
  - rewrite Hk, Hs. done.
  - rewrite Hs. split; [done|]. intros Hc. by destruct (Hu (Hcalm Hc)).
  - rewrite Hs. split; [done|]. intros Hc. by destruct (Hu (Hcalm Hc)).
  - split; [done|]. intros _. rewrite Hk, Hs, last_added. cbn. by rewrite Htext.
Qed.

Lemma step_ok {NL : NftLaws} calm s s' : step calm s s' -> ledger_ok (FwSnapshots s) /\ (calm = true -> table_matches s) ->
  ledger_ok (FwSnapshots s') /\ (calm = true -> table_matches s').
Proof.
  intros Hstep [Hl Ht]. destruct Hstep as [l s|env actor s r s' E|env actor op s res err s' E Htime Hcalm|env id actor s res err s' E Htime Hcalm]; [done|..].
  - assert (same_firewall s s') as [Hk Hs]; [|unfold table_matches, active_row in *; by rewrite Hk, Hs].
    unfold PreviewAndRecordRuntimeFirewall in E. destruct (PreviewRuntimeFirewall env s) as [plan|e]; [|by injection E as <- <-].
    pose proof (record_event_same env "preview" "previewed" "" "" plan actor ∅ s) as H. destruct (recordRuntimeFirewallEvent _ _ _ _ _ _ _ _ _). by injection E as <- <-.
  - destruct (apply_moved env actor op s res err s' E Hl Htime) as [Hm _]. by eapply moved_ok.
  - destruct (rollback_moved env id actor s res err s' E Hl Htime) as [(Hk & Hs & _)|(target & _ & Hm & _)]; [|by eapply moved_ok].
    unfold table_matches, active_row in *. by rewrite Hk, Hs.
Qed.

Lemma ledger_ok_empty : ledger_ok [].
Proof. split; [by constructor|by constructor|done|by constructor|]. intros old a H. by destruct old. Qed.

Lemma history_ok {NL : NftLaws} calm s0 s : fresh s0 -> rtc (step calm) s0 s -> ledger_ok (FwSnapshots s) /\ (calm = true -> table_matches s).
Proof.
  intros [Hs Hk] Hr. assert (ledger_ok (FwSnapshots s0) /\ (calm = true -> table_matches s0)) as H0.
  { unfold table_matches, active_row. rewrite Hs, Hk. split; [apply ledger_ok_empty|done]. }
  clear Hs Hk. induction Hr as [s|s1 s2 s3 H12 _ IH]; [done|]. by eapply IH, step_ok.
Qed.

(** *** Rolling back *)

Lemma previous_target env rows old b c : ledger_ok rows -> rows = old ++ [b; c] -> Failing env QueryActive = None ->
  forall r, selectRuntimeFirewallRollbackTarget env "" (activeRuntimeFirewallSnapshotID env rows) rows = Ok r -> r = Some b.
Proof.
  intros Hl Hrows Hq r. rewrite (active_id _ _ Hl Hq). unfold selectRuntimeFirewallRollbackTarget, ListRuntimeFirewallSnapshots.
  change (TrimSpace "") with "". cbn [String.eqb negb]. destruct (Failing env QuerySnapshots); [done|]. rewrite (list_snapshots _ Hl), Hrows.
  change (old ++ [b; c]) with (old ++ [b] ++ [c]). rewrite (assoc_L (++)), last_snoc, !reverse_app. cbn. intros [= <-].
  assert (rollback_candidate (SnSnapshotID c) c = false) as -> by (unfold rollback_candidate; by rewrite String.eqb_refl, orb_true_r).
  destruct Hl as [HF Hnd _ _ _]. rewrite Hrows in HF, Hnd. apply Forall_app in HF as [_ HF]. apply Forall_cons in HF as [[[_ Hb] Htx _ Hst] _].
  assert (SnSnapshotID b <> SnSnapshotID c) as Hne.
  { rewrite fmap_app in Hnd. apply NoDup_app in Hnd as (_ & _ & Hnd). cbn in Hnd. apply NoDup_cons in Hnd as [Hnd _]. set_solver. }
  assert (rollback_candidate (SnSnapshotID c) b = true) as ->; [|done]. unfold rollback_candidate.
  apply String.eqb_neq in Hb as ->. apply String.eqb_neq in Hne as ->. apply String.eqb_neq in Htx as ->. by apply bool_decide_eq_true.
Qed.

(** ** Properties *)


(** Rolling back undoes an apply, and rolling back once more redoes it: after an apply that succeeded the first rollback loads the
    ruleset of the snapshot that was active before, the second one the ruleset just applied. *)
Theorem rollback_swaps {NL : NftLaws} (s s1 s2 s3 : FwState) (a : Snapshot) env1 env2 env3 actor1 actor2 actor3 operation r1 r2 r3 :
  ledger_ok (FwSnapshots s) -> active_row s = Some a ->
  timely env1 s -> ApplyRuntimeFirewall env1 actor1 operation s = (r1, None, s1) ->
  timely env2 s1 -> Failing env2 QueryActive = None -> RollbackRuntimeFirewall env2 "" actor2 s1 = (r2, None, s2) ->
  timely env3 s2 -> Failing env3 QueryActive = None -> RollbackRuntimeFirewall env3 "" actor3 s2 = (r3, None, s3) ->
  live_table (FwKernel s1) = Some (Ruleset (buildRuntimeFirewallPlan (FwSessions s)))
  /\ RrRestored r2 = SnSnapshotID a /\ live_table (FwKernel s2) = Some (SnRuleset a)
  /\ RrRestored r3 = ArSnapshotID r1 /\ live_table (FwKernel s3) = live_table (FwKernel s1).
Proof.
  intros Hl Ha Ht1 E1 Ht2 Hq2 E2 Ht3 Hq3 E3. unfold active_row in Ha. destruct (apply_moved _ _ _ _ _ _ _ E1 Hl Ht1) as [Hm1 Hr1].
  destruct (Hr1 eq_refl) as (Hid1 & _ & _ & _). destruct Hm1 as [| | |row1 Hk1 Hs1 Htext1 Hrid1 _ _ Hl1]; [done..|].
  apply last_Some in Ha as [old Hold]. rewrite Hold, fmap_app in Hs1. cbn in Hs1. rewrite <- (assoc_L (++)) in Hs1.
  destruct (rollback_moved _ _ _ _ _ _ _ E2 Hl1 Ht2) as [(_ & _ & H)|(t2 & Hsel2 & Hm2 & Hr2)]; [done|].
  pose proof (previous_target env2 _ _ _ _ Hl1 Hs1 Hq2 _ Hsel2) as [= ->]. destruct (Hr2 eq_refl) as (_ & Hres2 & _).
  destruct Hm2 as [| | |row2 Hk2 Hs2 Htext2 _ _ _ Hl2]; [done..|].
  rewrite Hs1, fmap_app in Hs2. cbn in Hs2. change [deactivate (deactivate a); deactivate row1] with ([deactivate (deactivate a)] ++ [deactivate row1]) in Hs2.
  rewrite <- !(assoc_L (++)) in Hs2. rewrite (assoc_L (++)) in Hs2. cbn [app] in Hs2.
  destruct (rollback_moved _ _ _ _ _ _ _ E3 Hl2 Ht3) as [(_ & _ & H)|(t3 & Hsel3 & Hm3 & Hr3)]; [done|].
  pose proof (previous_target env3 _ _ _ _ Hl2 Hs2 Hq3 _ Hsel3) as [= ->]. destruct (Hr3 eq_refl) as (_ & Hres3 & _).
  destruct Hm3 as [| | |row3 Hk3 _ _ _ _ _ _]; [done..|]. cbn in Hres2, Hres3, Hk2, Hk3. split_and!; try done; congruence.
Qed.

(** A load that nft refuses *)
Lemma failed_load {NL : NftLaws} (s s' : FwState) (a : Snapshot) env actor res err k1 :
  ledger_ok (FwSnapshots s) -> active_row s = Some a -> Failing env QuerySessions = None ->
  Status (buildRuntimeFirewallPlan (FwSessions s)) <> "blocked" -> resetRuntimeFirewallTable (FwKernel s) = (None, k1) ->
  (nft_load (Ruleset (buildRuntimeFirewallPlan (FwSessions s))) k1).1 <> None ->
  ApplyRuntimeFirewall env actor "apply" s = (res, err, s') ->
  err <> None /\ ArStatus res = "failed" /\ live_table (FwKernel s') = None /\ active_row s' = Some a
  /\ forall env', Failing env' QueryActive = None -> activeRuntimeFirewallSnapshotID env' (FwSnapshots s') = SnSnapshotID a.
Proof.
  intros Hl Ha Hq Hst Hreset Hload E. pose proof (reset_table (FwKernel s)) as Hk1. rewrite Hreset in Hk1. unfold ApplyRuntimeFirewall in E.
  change (lower_trim "apply") with "apply" in E. cbv zeta in E. change (("apply" =? "")%string) with false in E. cbv iota in E. change (("apply" =? "apply")%string) with true in E. cbn [negb andb] in E.
  unfold PreviewRuntimeFirewall in E. rewrite Hq in E. set (plan := buildRuntimeFirewallPlan (FwSessions s)) in *. clearbody plan.
  apply String.eqb_neq in Hst. rewrite Hst, Hreset in E. pose proof (load_table (Ruleset plan) k1 Hk1) as Hl'.
  unfold applyRuntimeFirewallRuleset in *. destruct (nft_load (Ruleset plan) k1) as [[[e out]|] k2]; [|done]. destruct Hl' as [Hk2 _]. cbv beta iota in E.
  match type of E with failed_apply ?env ?op ?prev ?who ?plan ?e ?st = _ => destruct (failed_apply_same env op prev who plan e st) as (He & [Hk Hs] & Hstat & _) end.
  rewrite E in He, Hk, Hs, Hstat. cbn [fst snd] in He, Hk, Hs, Hstat. subst err. unfold active_row in *. cbn in Hk, Hs. rewrite Hk, Hs. split_and!; try done.
  intros env' Hq'. rewrite (active_id _ _ Hl Hq'), Ha. done.
Qed.

(** An apply whose load fails leaves the gateway open: the old table is deleted before the new one is loaded, so when nft refuses the
    new ruleset the call fails, there is no table at all, and the ledger still shows the previous snapshot as active. *)
Theorem failed_load_opens {NL : NftLaws} (s s' : FwState) (a : Snapshot) env actor res err k1 :
  ledger_ok (FwSnapshots s) -> active_row s = Some a -> Failing env QuerySessions = None ->
  Status (buildRuntimeFirewallPlan (FwSessions s)) <> "blocked" -> resetRuntimeFirewallTable (FwKernel s) = (None, k1) ->
  (nft_load (Ruleset (buildRuntimeFirewallPlan (FwSessions s))) k1).1 <> None ->
  ApplyRuntimeFirewall env actor "apply" s = (res, err, s') ->
  err <> None /\ ArStatus res = "failed" /\ live_table (FwKernel s') = None /\ active_row s' = Some a
  /\ forall env', Failing env' QueryActive = None -> activeRuntimeFirewallSnapshotID env' (FwSnapshots s') = SnSnapshotID a.
Proof. apply failed_load. Qed.

(** One session stops the firewall for all: as long as one active session has an ACL policy but no address, or a policy that is not
    found, no apply and no sync changes the table, so a session that is moved into quarantine meanwhile stays connected. *)
Theorem one_session_blocks_all {ASL : AclStoreLaws} (s s' : FwState) (bad : Session) env actor operation res err :
  bad ∈ FwSessions s -> TrimSpace (ACLPolicyName bad) <> "" ->
  runtimeFirewallSessionAddresses bad = [] \/ LoadACLPolicy (TrimSpace (ACLPolicyName bad)) = Ok None ->
  ApplyRuntimeFirewall env actor operation s = (res, err, s') ->
  Status (buildRuntimeFirewallPlan (FwSessions s)) = "blocked" /\ err <> None /\ FwKernel s' = FwKernel s /\ FwSnapshots s' = FwSnapshots s.
Proof.
  intros Hin Hname Hbad E. destruct (String.eqb_spec (Status (buildRuntimeFirewallPlan (FwSessions s))) "blocked") as [Hst|Hst].
  2: { exfalso. destruct (not_blocked _ Hst bad Hin Hname) as [Haddr [policy Hload]]. unfold policy_name in Hload. by destruct Hbad as [|Hbad]; [|rewrite Hbad in Hload]. }
  split; [done|]. unfold ApplyRuntimeFirewall, PreviewRuntimeFirewall in E. cbv zeta in E.
  destruct (negb _ && _); [by injection E as <- <- <-|]. destruct (Failing env QuerySessions); [by injection E as <- <- <-|]. rewrite Hst in E. cbn in E.
  match type of E with (let '(_, _) := ?call in _) = _ => match call with recordRuntimeFirewallEvent ?env ?op ?st ?id ?prev ?plan ?who ?d ?s =>
    pose proof (record_event_same env op st id prev plan who d s) as [Hk Hs] end; destruct call as [r s1] end. cbn [snd] in Hk, Hs.
  match type of E with context [UpsertRuntimeStatus ?env ?st ?m ?plan ?id ?prev ?ev ?s] => destruct (upsert_same env st m plan id prev ev s) as [Hk' Hs'] end.
  rewrite Hk in Hk'. rewrite Hs in Hs'. destruct r; injection E as <- <- <-; done.
Qed.
End record.
End invariant.

(** ** Witnesses *)

(** An nft that keeps the text, and refuses the texts that [broken] tells. *)
Definition text_nft (broken : string -> bool) : Nft := {|
  Kernel := option string; live_table := fun k => k;
  nft_delete := fun k => match k with Some _ => (None, None) | None => (Some ("exit status 1", "Error: No such file or directory"), None) end;
  nft_load := fun text k => if broken text then (Some ("exit status 1", "Error: syntax error"), k) else (None, match k with None => Some text | Some t => Some (t +:+ text) end) |}.

Lemma text_nft_laws broken : NftLaws (N := text_nft broken).
Proof.
  split; cbn.
  - intros [t|] k' [= <-]; done.
  - intros [t|] err out k' [= <-]; done.
  - intros [t|] err out k'; [discriminate|done].
  - intros text [t|] k'; [done|]. intros _. by destruct (broken text); intros [= <-].
  - intros text k err out k'. by destruct (broken text); intros [= <-].
Qed.

Definition short_digest : RulesetDigest := fun text => "sha256:" +:+ (if Nat.even (String.length text) then "e" else "o").
#[local] Existing Instances text_ip example_store short_digest example_store_laws.
#[local] Instance plain_quote : Quote := fun s => dquote +:+ s +:+ dquote.
#[local] Instance short_digest_laws : DigestLaws.
Proof. intros text. unfold ruleset_digest, short_digest. by destruct (Nat.even _). Qed.

Definition env_at (n : Z) : DbEnv := mkDbEnv n ("fw-snap-" +:+ Itoa n) ("fw-event-" +:+ Itoa n) (fun _ => None).

Definition good : Nft := text_nft (fun _ => false).
(** It refuses rulesets with a quarantined address. *)
Definition picky : Nft := text_nft (fun text => Contains text "10.0.0.3").
#[local] Instance good_laws : NftLaws (N := good) := text_nft_laws _.
#[local] Instance picky_laws : NftLaws (N := picky) := text_nft_laws _.

Definition fw0 {N : Nft} (k : Kernel) (sessions : list Session) : FwState := mkFwState k sessions [] [] None.
Definition apply_at {N : Nft} (n : Z) (s : FwState) := ApplyRuntimeFirewall (env_at n) "admin" "apply" s.
Definition rollback_at {N : Nft} (n : Z) (s : FwState) := RollbackRuntimeFirewall (env_at n) "" "admin" s.

Definition fw1 : FwState (N := good) := (apply_at 1 (fw0 (N := good) None [guest])).2.
Definition fw2 : FwState (N := good) := (apply_at 2 (with_sessions [guest; locked] fw1)).2.
Definition fw3 : FwState (N := good) := (rollback_at 3 fw2).2.
Definition fw4 : FwState (N := good) := (rollback_at 4 fw3).2.
Definition unlucky : FwState (N := picky) := (apply_at 1 (fw0 (N := picky) None [guest])).2.

Lemma result_eta {A B C} (t : A * B * C) : t = (t.1.1, t.1.2, t.2).
Proof. by destruct t as [[]]. Qed.

Lemma apply_step {N : Nft} n s : timely (env_at n) s -> undisturbed (env_at n) s -> step true s (apply_at n s).2.
Proof. intros Ht Hu. by eapply (step_apply true (env_at n) "admin" "apply"); [apply result_eta|..]. Qed.
Lemma troubled_step {N : Nft} n s : timely (env_at n) s -> step false s (apply_at n s).2.
Proof. intros Ht. by eapply (step_apply false (env_at n) "admin" "apply"); [apply result_eta|..]. Qed.
Lemma rollback_step {N : Nft} n s : timely (env_at n) s -> undisturbed (env_at n) s -> step true s (rollback_at n s).2.
Proof. intros Ht Hu. by eapply (step_rollback true (env_at n) "" "admin"); [apply result_eta|..]. Qed.

Definition timely_b {N : Nft} (n : Z) (s : FwState) : bool :=
  let id := NewSnapshotID (env_at n) in
  forallb (fun r => SnCreatedAt r <=? n) (FwSnapshots s) && (TrimSpace id =? id)%string && negb (id =? "")%string.

Lemma timely_at {N : Nft} n s : timely_b n s = true -> timely (env_at n) s.
Proof.
  unfold timely_b. cbv zeta. rewrite !andb_true_iff, negb_true_iff. intros [[H1 H2%String.eqb_eq] H3%String.eqb_neq]. split; [|done].
  apply Forall_forall. intros r Hr. rewrite forallb_forall in H1. apply Z.leb_le, H1. by apply list_elem_of_In.
Qed.

Lemma undisturbed_at n (s : FwState (N := good)) : forallb (fun r => negb (SnSnapshotID r =? NewSnapshotID (env_at n))%string) (FwSnapshots s) = true -> undisturbed (env_at n) s.
Proof.
  intros H. split; [done|]. split; [|done]. intros (r & Hr & Hin)%list_elem_of_fmap. rewrite forallb_forall in H. apply list_elem_of_In in Hin.
  specialize (H r Hin). rewrite Hr, String.eqb_refl in H. discriminate.
Qed.

Ltac at_hand := first [apply timely_at; vm_compute; reflexivity | apply undisturbed_at; vm_compute; reflexivity].

Lemma fw1_step : step true (fw0 (N := good) None [guest]) fw1.
Proof. apply (apply_step (N := good) 1); at_hand. Qed.
Lemma fw2_step : step true (with_sessions [guest; locked] fw1) fw2.
Proof. apply (apply_step (N := good) 2); at_hand. Qed.
Lemma unlucky_step : step (N := picky) false (fw0 (N := picky) None [guest]) unlucky.
Proof. apply (troubled_step (N := picky) 1); at_hand. Qed.

Lemma fw1_sessions : rtc (step true) (fw0 (N := good) None [guest]) (with_sessions [guest; locked] fw1).
Proof. eapply rtc_l; [exact fw1_step|]. apply rtc_once. exact (step_sessions true [guest; locked] fw1). Qed.
Lemma fw2_history : rtc (step true) (fw0 (N := good) None [guest]) fw2.
Proof. eapply rtc_r; [exact fw1_sessions|exact fw2_step]. Qed.


Lemma result_ok {A B C} (t : A * option B * C) : t.1.2 = None -> t = (t.1.1, None, t.2).
Proof. destruct t as [[]]. by cbn; intros ->. Qed.

Lemma apply_result {N : Nft} n s : (apply_at n s).1.2 = None -> ApplyRuntimeFirewall (env_at n) "admin" "apply" s = ((apply_at n s).1.1, None, (apply_at n s).2).
Proof. apply result_ok. Qed.
Lemma rollback_result {N : Nft} n s : (rollback_at n s).1.2 = None -> RollbackRuntimeFirewall (env_at n) "" "admin" s = ((rollback_at n s).1.1, None, (rollback_at n s).2).
Proof. apply result_ok. Qed.

Definition no_row : Snapshot := snapshot_row (env_at 0) 0 "" "" "" (applied_input (env_at 0) "" "" "" "" no_plan).

Lemma rollback_swaps_witness : @live_table good (FwKernel fw4) = @live_table good (FwKernel fw2).
Proof.
  apply (rollback_swaps (N := good) (with_sessions [guest; locked] fw1) fw2 fw3 fw4 (default no_row (active_row fw1))
           (env_at 2) (env_at 3) (env_at 4) "admin" "admin" "admin" "apply" (apply_at 2 (with_sessions [guest; locked] fw1)).1.1 (rollback_at 3 fw2).1.1 (rollback_at 4 fw3).1.1).
  - apply (history_ok true (fw0 (N := good) None [guest])); [split; reflexivity|]. exact fw1_sessions.
  - vm_compute. reflexivity.
  - at_hand.
  - apply (apply_result (N := good)). vm_compute. reflexivity.
  - at_hand.
  - reflexivity.
  - apply (rollback_result (N := good)). vm_compute. reflexivity.
  - at_hand.
  - reflexivity.
  - apply (rollback_result (N := good)). vm_compute. reflexivity.
Defined.

Lemma apply_eta {N : Nft} n s : ApplyRuntimeFirewall (env_at n) "admin" "apply" s = ((apply_at n s).1.1, (apply_at n s).1.2, (apply_at n s).2).
Proof. apply result_eta. Qed.

Lemma failed_load_opens_witness : @live_table picky (FwKernel (apply_at (N := picky) 2 (with_sessions [guest; locked] unlucky)).2) = None.
Proof.
  apply (failed_load_opens (N := picky) (with_sessions [guest; locked] unlucky) (apply_at (N := picky) 2 (with_sessions [guest; locked] unlucky)).2 (default no_row (active_row unlucky)) (env_at 2) "admin" (apply_at (N := picky) 2 (with_sessions [guest; locked] unlucky)).1.1 (apply_at (N := picky) 2 (with_sessions [guest; locked] unlucky)).1.2
           (resetRuntimeFirewallTable (N := picky) (FwKernel unlucky)).2).
  - apply (history_ok false (fw0 (N := picky) None [guest])); [split; reflexivity|]. eapply rtc_l; [exact unlucky_step|].
    apply rtc_once. exact (step_sessions (N := picky) false [guest; locked] unlucky).
  - vm_compute. reflexivity.
  - reflexivity.
  - vm_compute. discriminate.
  - vm_compute. reflexivity.
  - vm_compute. discriminate.
  - apply (apply_eta (N := picky)).
Defined.

(** A session with a policy and no address, and one that has just been quarantined *)
Definition no_address : Session := example_session "s4" "" "guest" "Guests".

Lemma one_session_blocks_all_witness : let s := with_sessions [guest; locked; no_address] fw1 in FwKernel (apply_at (N := good) 2 s).2 = FwKernel s.
Proof.
  intros s.
  refine (proj1 (proj2 (proj2 (one_session_blocks_all (N := good) s (apply_at (N := good) 2 s).2 no_address (env_at 2) "admin" "apply"
    (apply_at (N := good) 2 s).1.1 (apply_at (N := good) 2 s).1.2 _ _ _ (apply_eta (N := good) 2 s))))).
  - right; right; left.
  - vm_compute. discriminate.
  - left. reflexivity.
Defined.
