(* ===== verification/EnforcementTransactions.v ===== *)
(** * Atomic enforcement transactions ([internal/enforcement/transactions.go], [internal/db/enforcement_transactions.go])

    A transaction previews its targets in dependency order, applies one after the other, and compensates in reverse
    order when one fails. What a target offers is the interface [SnapshotOps], which the runtime firewall implements
    ([firewall_ops]); VLANs, routes, QoS and the controller are the other fields of [Targets]. Times of steps,
    free-form details, JSON columns and constant lists are left out. *)

From S2P Require Import Prelude GoStrings Bytes RuntimeFirewall FirewallSnapshots.

(** ** What targets offer *)

(** The preview of a target's plan, its active snapshot, and what applying or rolling back reports. *)
Record PlanReport := mkPlanReport { PrStatus : string; PrMessage : string; PrFingerprint : string }.
Record ActiveReport := mkActiveReport { AcSnapshotID : string; AcFingerprint : string; AcPrevious : string }.
Record TargetReport := mkTargetReport {
  TrStatus : string; TrSnapshotID : string; TrRestored : string; TrPrevious : string; TrFingerprint : string; TrMessage : string }.

Record SnapshotOps (W : Type) := mkSnapshotOps {
  so_preview : W -> result string PlanReport;
  so_active : W -> result string (option ActiveReport);
  so_apply : string -> W -> TargetReport * option string * W;
  so_rollback : string -> string -> W -> TargetReport * option string * W }.
Arguments so_preview {W}. Arguments so_active {W}. Arguments so_apply {W}. Arguments so_rollback {W}.

(** What the controller's synchronisation reports *)
Record ControllerReport := mkControllerReport {
  CrDesired : string; CrObserved : string; CrDriftDetected : bool; CrDriftCount : Z; CrFailedCount : Z }.

Class Targets := {
  World : Type;
  firewall_target : SnapshotOps World;
  qos_target : SnapshotOps World;
  vlan_target : SnapshotOps World;
  routes_target : SnapshotOps World;
  controller_preview : World -> result string string;
  controller_status : World -> result string (option (string * string));
  controller_push : World -> option ControllerReport * option string * World;
}.

(** ** Data *)

(** [policy.enforcement_transactions] of the configuration, and the switches of two targets *)
Record TxConfig := mkTxConfig {
  TcEnabled : bool; TcFailClosed : bool; TcTargets : list string; TcAutoRollbackOnFailure : bool; TcAutoRollbackOnDrift : bool;
  TcDriftCheckAfterApply : bool; TcHistoryRetention : Z; TcCompensationRetention : Z; TcRouteApply : bool; TcController : bool }.

(** [AtomicEnforcementRequest] *)
Record Request := mkRequest { RqTargets : list string; RqTransactionID : string; RqSkipDriftCheck : bool }.

(** [AtomicEnforcementDiagnostic] *)
Record TxDiagnostic := mkTxDiagnostic { TdSeverity : string; TdCode : string; TdTarget : string; TdMessage : string }.

(** [AtomicEnforcementTargetPlan] *)
Record TargetPlan := mkTargetPlan {
  TpTarget : string; TpLabel : string; TpDomain : string; TpEnabled : bool; TpStatus : string; TpMessage : string; TpDesired : string;
  TpActive : string; TpActiveSnapshot : string; TpPrevious : string; TpRollbackSupported : bool; TpApplyRequired : bool;
  TpDriftStatus : string; TpDriftMessage : string; TpLocal : bool; TpController : bool; TpCompensation : string }.

(** [AtomicEnforcementSummary] *)
Record TxSummary := mkTxSummary {
  TsTargets : Z; TsEnabled : Z; TsLocal : Z; TsController : Z; TsReady : Z; TsDegraded : Z; TsBlocked : Z; TsSkipped : Z; TsApplyRequired : Z;
  TsRollback : Z; TsDrifted : Z; TsUnknown : Z }.

(** [AtomicEnforcementPlan] *)
Record TxPlan := mkTxPlan {
  XpStatus : string; XpMessage : string; XpTargets : list TargetPlan; XpSummary : TxSummary; XpDiagnostics : list TxDiagnostic; XpFingerprint : string }.

(** [AtomicEnforcementStep] *)
Record Step := mkStep {
  StOrder : Z; StTarget : string; StOperation : string; StStatus : string; StDesired : string; StActive : string; StActiveSnapshot : string;
  StPrevious : string; StSnapshot : string; StRestored : string; StRollbackSupported : bool; StDriftStatus : string; StMessage : string;
  StError : string }.

(** [AtomicEnforcementDriftFinding] *)
Record DriftFinding := mkDriftFinding { DfTarget : string; DfStatus : string; DfDesired : string; DfActive : string; DfActiveSnapshot : string; DfMessage : string }.

(** [AtomicEnforcementResult] *)
Record TxResult := mkTxResult {
  XrTransactionID : string; XrOperation : string; XrStatus : string; XrMessage : string; XrPlan : TxPlan; XrSteps : list Step; XrDrift : list DriftFinding }.

(** The digest of a plan's targets *)
Class TxPlanDigest := plan_digest : list TargetPlan -> string.

(** Rows of [enforcement_transactions], [enforcement_transaction_steps] and [enforcement_drift_events] *)
Record TxRow := mkTxRow {
  TxID : Z; TxTransactionID : string; TxOperation : string; TxStatus : string; TxActor : string; TxTargetCount : Z; TxAppliedCount : Z;
  TxSkippedCount : Z; TxFailedCount : Z; TxRollbackCount : Z; TxCompensationCount : Z; TxDriftCount : Z; TxFingerprint : string;
  TxPrevious : string; TxSummaryText : string; TxStartedAt : Z }.
Record StepRow := mkStepRow { SrID : Z; SrTransactionID : string; SrStep : Step }.
Record DriftRow := mkDriftRow { DrID : Z; DrDriftID : string; DrTransactionID : string; DrFinding : DriftFinding; DrActor : string; DrObservedAt : Z }.

(** The statements that can fail, and what a call meets: the clock, the identifiers drawn, failures, and the context. *)
Inductive tx_statement := WriteTransaction | WriteDrift | QueryTransactions | WriteTxStatus.
Record TxEnv := mkTxEnv {
  TeClock : Z; TeTransactionID : string; TeDriftID : string -> string; TeFailing : tx_statement -> option string; TeContext : string -> option string }.

(** ** Names, ranks and states *)

Section plans.
Context {U : Unicode} {T : Targets} {PD : TxPlanDigest} {Q : Quote}.

Definition normalizeAtomicTarget (value : string) : string :=
  let v := lower_trim value in
  if bool_decide (v ∈ ["runtime-firewall"; "runtime_firewall"; "firewall"]) then "runtime_firewall"
  else if bool_decide (v ∈ ["runtime-qos"; "runtime_qos"; "qos"; "qos_scheduler"]) then "runtime_qos"
  else if bool_decide (v ∈ ["vlan-lifecycle"; "vlan_lifecycle"; "vlan"]) then "vlan_lifecycle"
  else if bool_decide (v ∈ ["subscriber-route-export"; "subscriber_route_export"; "route-export"; "route_export"; "routing"; "dynamic-routing"])
       then "subscriber_route_export"
  else if bool_decide (v ∈ ["controller-sync"; "controller_sync"; "controller"]) then "controller_sync"
  else v.

Definition atomicTargetRank (target : string) : Z :=
  let t := normalizeAtomicTarget target in
  if (t =? "vlan_lifecycle")%string then 10 else if (t =? "subscriber_route_export")%string then 15 else if (t =? "runtime_qos")%string then 20
  else if (t =? "runtime_firewall")%string then 30 else if (t =? "controller_sync")%string then 40 else 100.

Definition atomicTargetLabel (target : string) : string :=
  let t := normalizeAtomicTarget target in
  if (t =? "runtime_firewall")%string then "Runtime Firewall" else if (t =? "runtime_qos")%string then "Runtime QoS"
  else if (t =? "vlan_lifecycle")%string then "VLAN Lifecycle" else if (t =? "subscriber_route_export")%string then "Subscriber Route Export"
  else if (t =? "controller_sync")%string then "Controller Sync" else TrimSpace target.

Definition atomicTargetDomain (target : string) : string :=
  let t := normalizeAtomicTarget target in
  if (t =? "runtime_firewall")%string then "nftables" else if (t =? "runtime_qos")%string then "tc/ifb"
  else if (t =? "vlan_lifecycle")%string then "ip/hostapd" else if (t =? "subscriber_route_export")%string then "frr/bgp-ospf"
  else if (t =? "controller_sync")%string then "controller-api" else "unknown".

(** One turn of the loop of [atomicTargetOrder]; the targets found are the set [seen]. *)
Definition add_target (targets : list string) (value : string) : list string :=
  let target := normalizeAtomicTarget value in
  if (target =? "")%string then targets else if bool_decide (target ∈ targets) then targets else targets ++ [target].

Definition rank_less (a b : string) : bool := atomicTargetRank a <? atomicTargetRank b.

Definition atomicTargetOrder (cfg : TxConfig) (requested : list string) : list string :=
  let values := if zlen requested =? 0 then TcTargets cfg else requested in
  let values := if zlen values =? 0 then ["vlan_lifecycle"; "subscriber_route_export"; "runtime_qos"; "runtime_firewall"; "controller_sync"] else values in
  sort_by rank_less (foldl add_target [] values).

Definition normalizeAtomicPlanStatus (status : string) : string :=
  let s := lower_trim status in
  if (s =? "ready")%string then "ready" else if (s =? "degraded")%string then "degraded" else if (s =? "blocked")%string then "blocked"
  else if (s =? "skipped")%string || (s =? "disabled")%string then "skipped" else "degraded".

Definition firstNonEmptyAtomicString (a b : string) : string :=
  if negb (TrimSpace a =? "")%string then TrimSpace a else if negb (TrimSpace b =? "")%string then TrimSpace b else "".

Definition skippedAtomicTarget (target message : string) : TargetPlan :=
  let target := normalizeAtomicTarget target in
  mkTargetPlan target (atomicTargetLabel target) (atomicTargetDomain target) false "skipped" (TrimSpace message) "" "" "" "" false false "skipped" "" false false
    "not-needed".

Definition blockedAtomicTarget (target message : string) : TargetPlan :=
  let target := normalizeAtomicTarget target in
  mkTargetPlan target (atomicTargetLabel target) (atomicTargetDomain target) true "blocked" (TrimSpace message) "" "" "" "" false false "blocked" "" false false
    "blocked-before-apply".

(** The status normalised, and the drift state of it *)
Definition with_drift (t : TargetPlan) (applyRequired : bool) (driftStatus driftMessage : string) : TargetPlan :=
  mkTargetPlan (TpTarget t) (TpLabel t) (TpDomain t) (TpEnabled t) (normalizeAtomicPlanStatus (TpStatus t)) (TpMessage t) (TpDesired t) (TpActive t)
    (TpActiveSnapshot t) (TpPrevious t) (TpRollbackSupported t) applyRequired driftStatus driftMessage (TpLocal t) (TpController t) (TpCompensation t).

Definition attachAtomicDriftState (t : TargetPlan) : TargetPlan :=
  let status := normalizeAtomicPlanStatus (TpStatus t) in
  if negb (TpEnabled t) || (status =? "skipped")%string then with_drift t false "skipped" (TpDriftMessage t)
  else if (status =? "blocked")%string then with_drift t false "blocked" (TpDriftMessage t)
  else
    let desired := TrimSpace (TpDesired t) in
    let active := TrimSpace (TpActive t) in
    if (desired =? "")%string then with_drift t (TpApplyRequired t) "unknown" "No desired fingerprint is available."
    else if (active =? "")%string then with_drift t true "unknown" "No active snapshot fingerprint is available."
    else if EqualFold desired active then with_drift t false "in_sync" (TpDriftMessage t)
    else with_drift t true "drifted" "Active target fingerprint differs from the desired plan.".

(** ** Previews *)

(** What the previews of the four targets with snapshots share. *)
Definition preview_with_snapshot (target : string) (enabled : bool) (plan : PlanReport) (active : result string (option ActiveReport)) : result string TargetPlan :=
  match active with
  | Err e => Err e
  | Ok found =>
      let a := default (mkActiveReport "" "" "") found in
      Ok (attachAtomicDriftState (mkTargetPlan target (atomicTargetLabel target) (atomicTargetDomain target) enabled (normalizeAtomicPlanStatus (PrStatus plan))
            (PrMessage plan) (PrFingerprint plan) (AcFingerprint a) (AcSnapshotID a) (AcPrevious a) (negb (AcPrevious a =? "")%string) false "" "" true false
            "snapshot-rollback"))
  end.

Definition not_skipped (plan : PlanReport) : bool := negb (PrStatus plan =? "skipped")%string.

Definition previewAtomicRuntimeFirewall (w : World) : result string TargetPlan :=
  plan ← so_preview firewall_target w; preview_with_snapshot "runtime_firewall" true plan (so_active firewall_target w).
Definition previewAtomicRuntimeQoS (w : World) : result string TargetPlan :=
  plan ← so_preview qos_target w; preview_with_snapshot "runtime_qos" (not_skipped plan) plan (so_active qos_target w).
Definition previewAtomicVLANLifecycle (w : World) : result string TargetPlan :=
  plan ← so_preview vlan_target w; preview_with_snapshot "vlan_lifecycle" (not_skipped plan) plan (so_active vlan_target w).
Definition previewAtomicSubscriberRouteExport (cfg : TxConfig) (w : World) : result string TargetPlan :=
  plan ← so_preview routes_target w;
  if negb (TcRouteApply cfg) then
    Ok (mkTargetPlan "subscriber_route_export" "Subscriber Route Export" "frr/bgp-ospf" false "skipped"
          "Subscriber route export apply is disabled; enable radius.route_policy.dynamic_routing.apply_enabled to join atomic apply."
          (PrFingerprint plan) "" "" "" false false "skipped" "" true false "snapshot-rollback")
  else preview_with_snapshot "subscriber_route_export" (not_skipped plan) plan (so_active routes_target w).

Definition previewAtomicController (cfg : TxConfig) (w : World) : result string TargetPlan :=
  let compensation := "local-compensation; controller rollback requires external controller evidence" in
  if negb (TcController cfg) then
    Ok (mkTargetPlan "controller_sync" "Controller Sync" "controller-api" false "skipped" "Controller sync is disabled." "" "" "" "" false false "skipped" ""
          false true compensation)
  else
    desired ← controller_preview w;
    status ← controller_status w;
    let '(updatedAt, hash) := default ("", "") status in
    Ok (attachAtomicDriftState (mkTargetPlan "controller_sync" "Controller Sync" "controller-api" true "ready" "Controller sync preview is ready."
          (TrimSpace desired) hash updatedAt "" false false "" "" false true compensation)).

Definition previewAtomicTarget (cfg : TxConfig) (target : string) (w : World) : result string TargetPlan :=
  let t := normalizeAtomicTarget target in
  if (t =? "runtime_firewall")%string then previewAtomicRuntimeFirewall w
  else if (t =? "runtime_qos")%string then previewAtomicRuntimeQoS w
  else if (t =? "vlan_lifecycle")%string then previewAtomicVLANLifecycle w
  else if (t =? "subscriber_route_export")%string then previewAtomicSubscriberRouteExport cfg w
  else if (t =? "controller_sync")%string then previewAtomicController cfg w
  else Err ("unsupported enforcement target " +:+ go_quote target).

(** ** Plans *)

Definition count_targets (p : TargetPlan -> bool) (targets : list TargetPlan) : Z := zlen (List.filter p targets).
Definition status_is (status : string) (t : TargetPlan) : bool := (TpStatus t =? status)%string.
Definition drift_is (status : string) (t : TargetPlan) : bool := (TpDriftStatus t =? status)%string.

Definition plan_summary (targets : list TargetPlan) : TxSummary :=
  mkTxSummary (zlen targets) (count_targets TpEnabled targets) (count_targets TpLocal targets) (count_targets TpController targets)
    (count_targets (fun t => negb (bool_decide (TpStatus t ∈ ["blocked"; "degraded"; "skipped"]))) targets)
    (count_targets (status_is "degraded") targets) (count_targets (status_is "blocked") targets) (count_targets (status_is "skipped") targets)
    (count_targets TpApplyRequired targets) (count_targets TpRollbackSupported targets) (count_targets (drift_is "drifted") targets)
    (count_targets (drift_is "unknown") targets).

Definition plan_status (targets : list TargetPlan) (s : TxSummary) : string * string :=
  if TsTargets s =? 0 then ("blocked", "No enforcement transaction targets are configured.")
  else if TsSkipped s =? TsTargets s then ("skipped", "All enforcement transaction targets are skipped.")
  else if TsBlocked s >? 0 then ("blocked", "Atomic enforcement preflight found " +:+ Itoa (TsBlocked s) +:+ " blocked target(s).")
  else if (TsDegraded s >? 0) || (TsDrifted s >? 0) || (TsUnknown s >? 0) then
    ("degraded", "Atomic enforcement preflight is degraded: " +:+ Itoa (TsApplyRequired s) +:+ " target(s) need apply and " +:+ Itoa (TsDrifted s)
                 +:+ " target(s) have drift.")
  else ("ready", "Atomic enforcement preflight is ready for " +:+ Itoa (TsTargets s - TsSkipped s) +:+ " target(s).").

Definition target_less (a b : TargetPlan) : bool := rank_less (TpTarget a) (TpTarget b).

Definition finalizeAtomicEnforcementPlan (targets : list TargetPlan) (diagnostics : list TxDiagnostic) : TxPlan :=
  let summary := plan_summary targets in
  let '(status, message) := plan_status targets summary in
  let targets := sort_by target_less targets in
  mkTxPlan status message targets summary diagnostics (plan_digest targets).

(** The plan of a target, and a diagnostic when its preview fails *)
Definition plan_target (cfg : TxConfig) (w : World) (target : string) : TargetPlan * list TxDiagnostic :=
  match previewAtomicTarget cfg target w with
  | Ok plan => (plan, [])
  | Err e => (blockedAtomicTarget target e, [mkTxDiagnostic "error" "target_preview_failed" target e])
  end.

(** [ctx target] is the error of a context that is done when the loop reaches the target. A disabled transaction's message is overwritten
    by the one of the plan's status. *)
Definition BuildAtomicEnforcementPlan (ctx : string -> option string) (cfg : TxConfig) (requested : list string) (w : World) : result string TxPlan :=
  let targets := atomicTargetOrder cfg requested in
  if negb (TcEnabled cfg) then
    Ok (finalizeAtomicEnforcementPlan ((fun t => skippedAtomicTarget t "Atomic enforcement transactions are disabled.") <$> targets) [])
  else match firstSome ctx targets with
  | Some e => Err e
  | None =>
      let planned := plan_target cfg w <$> targets in
      Ok (finalizeAtomicEnforcementPlan planned.*1 (concat planned.*2))
  end.

(** ** Participants *)

(** The closures that apply and roll back a target with snapshots *)
Definition apply_step (target : string) (r : TargetReport) (err : option string) : Step :=
  mkStep 0 target "apply" (match err with Some _ => "failed" | None => TrStatus r end) (TrFingerprint r) (TrFingerprint r) "" (TrPrevious r) (TrSnapshotID r) ""
    (negb (TrPrevious r =? "")%string) "" (TrMessage r) (default "" err).
Definition rollback_step (target : string) (r : TargetReport) (err : option string) : Step :=
  mkStep 0 target "rollback" (match err with Some _ => "failed" | None => TrStatus r end) (TrFingerprint r) (TrFingerprint r) "" (TrPrevious r) (TrSnapshotID r) (TrRestored r)
    true "" (TrMessage r) (default "" err).

Definition Action := World -> Step * option string * World.

Definition apply_snapshot_target (target : string) (ops : SnapshotOps World) (actor : string) : Action := fun w =>
  let '(r, err, w) := so_apply ops actor w in (apply_step target r err, err, w).
Definition rollback_snapshot_target (target : string) (ops : SnapshotOps World) (snapshotID actor : string) : Action := fun w =>
  let '(r, err, w) := so_rollback ops snapshotID actor w in (rollback_step target r err, err, w).

Definition controller_step (status driftStatus desired active message error : string) : Step :=
  mkStep 0 "controller_sync" "apply" status desired active "" "" "" "" false driftStatus message error.

Definition atomicControllerApplyFn (actor : string) : Action := fun w =>
  let '(report, err, w) := controller_push w in
  let applied := "Controller policy synchronization applied." in
  let '(status, driftStatus, desired, active, message) :=
    match report with
    | None => ("applied", "", "", "", applied)
    | Some r =>
        let status := if CrFailedCount r >? 0 then "failed" else if CrDriftDetected r then "degraded" else "applied" in
        let message := if CrFailedCount r >? 0 then "Controller policy sync reported " +:+ Itoa (CrFailedCount r) +:+ " failed item(s)."
                       else if CrDriftDetected r then "Controller policy sync completed with " +:+ Itoa (CrDriftCount r) +:+ " drift item(s)." else applied in
        (status, if CrDriftDetected r then "drifted" else "", TrimSpace (CrDesired r), firstNonEmptyAtomicString (CrObserved r) (CrDesired r), message)
    end in
  (controller_step (match err with Some _ => "failed" | None => status end) driftStatus desired active message (default "" err), err, w).

(** [atomicParticipantMap]: the action that applies a target, and the one that rolls it back. *)
Record Participant := mkParticipant { PtApply : string -> Action; PtRollback : option (string -> string -> Action) }.

Definition snapshot_participant (target : string) (ops : SnapshotOps World) : Participant :=
  mkParticipant (apply_snapshot_target target ops) (Some (rollback_snapshot_target target ops)).

Definition atomicParticipantMap (target : string) : option Participant :=
  if (target =? "vlan_lifecycle")%string then Some (snapshot_participant target vlan_target)
  else if (target =? "subscriber_route_export")%string then Some (snapshot_participant target routes_target)
  else if (target =? "runtime_qos")%string then Some (snapshot_participant target qos_target)
  else if (target =? "runtime_firewall")%string then Some (snapshot_participant target firewall_target)
  else if (target =? "controller_sync")%string then Some (mkParticipant atomicControllerApplyFn None)
  else None.

(** ** Applying and compensating *)

Definition shouldSkipAtomicTargetApply (t : TargetPlan) : bool := negb (TpEnabled t) || (TpStatus t =? "skipped")%string.

Definition skipped_step (order : Z) (t : TargetPlan) : Step :=
  mkStep order (TpTarget t) "apply" "skipped" (TpDesired t) (TpActive t) (TpActiveSnapshot t) (TpPrevious t) "" "" (TpRollbackSupported t) (TpDriftStatus t)
    (TpMessage t) "".

Definition failedAtomicStep (order : Z) (t : TargetPlan) (err : string) : Step :=
  mkStep order (TpTarget t) "apply" "failed" (TpDesired t) (TpActive t) (TpActiveSnapshot t) (TpPrevious t) "" "" (TpRollbackSupported t) "" err err.

(** What the loop of [ApplyAtomicEnforcement] makes of the participant's step *)
Definition finished_step (order : Z) (t : TargetPlan) (step : Step) : Step :=
  mkStep order (TpTarget t) "apply" (StStatus step) (firstNonEmptyAtomicString (StDesired step) (TpDesired t))
    (firstNonEmptyAtomicString (StActive step) (TpActive t)) (StActiveSnapshot step) (StPrevious step) (StSnapshot step) (StRestored step)
    (StRollbackSupported step) (StDriftStatus step) (if (StMessage step =? "")%string then TpMessage t else StMessage step) (StError step).

Definition is_applied (step : Step) : bool := bool_decide (StStatus step ∈ ["applied"; "degraded"; "rolled_back"]).

(** The loop: the steps, those to compensate, the first error, and the world. *)
Fixpoint apply_targets (actor : string) (order : Z) (targets : list TargetPlan) (w : World) : list Step * list Step * option string * World :=
  match targets with
  | [] => ([], [], None, w)
  | t :: rest =>
      if shouldSkipAtomicTargetApply t then
        let '(steps, applied, err, w) := apply_targets actor (order + 1) rest w in (skipped_step order t :: steps, applied, err, w)
      else match atomicParticipantMap (TpTarget t) with
      | None => let err := "target " +:+ TpTarget t +:+ " has no apply participant" in ([failedAtomicStep order t err], [], Some err, w)
      | Some participant =>
          let '(step, err, w) := PtApply participant actor w in
          let step := finished_step order t step in
          match err with
          | Some e => ([step], [], Some e, w)
          | None =>
              if (StStatus step =? "failed")%string then ([step], [], Some (TpTarget t +:+ " apply failed"), w)
              else
                let '(steps, applied, err, w) := apply_targets actor (order + 1) rest w in
                (step :: steps, (if is_applied step then [step] else []) ++ applied, err, w)
          end
      end
  end.

Definition rollback_of (target : string) : option (string -> string -> Action) :=
  match atomicParticipantMap target with Some participant => PtRollback participant | None => None end.

Definition compensation_skipped (order : Z) (original : Step) : Step :=
  mkStep order (StTarget original) "compensate" "skipped" (StDesired original) (StActive original) "" (StPrevious original) (StSnapshot original) "" false ""
    "No previous snapshot is available for compensation." "".

Definition finished_compensation (order : Z) (original step : Step) (err : option string) : Step :=
  let status := match err with Some _ => "failed" | None => if bool_decide (StStatus step ∈ ["rolled_back"; "applied"]) then "compensated" else StStatus step end in
  mkStep order (StTarget original) "compensate" status (firstNonEmptyAtomicString (StDesired step) (StDesired original)) (StActive step) (StActiveSnapshot step)
    (StPrevious step) (StSnapshot step) (StRestored step) (StRollbackSupported step) (StDriftStatus step) (StMessage step)
    (match err with Some e => e | None => StError step end).

(** One compensation *)
Definition compensate_step (actor : string) (order : Z) (original : Step) (w : World) : Step * World :=
  match rollback_of (StTarget original) with
  | None => (compensation_skipped order original, w)
  | Some rollback =>
      if (TrimSpace (StPrevious original) =? "")%string then (compensation_skipped order original, w)
      else let '(step, err, w) := rollback (StPrevious original) actor w in (finished_compensation order original step err, w)
  end.

Fixpoint compensate_steps (actor : string) (order : Z) (originals : list Step) (w : World) : list Step * World :=
  match originals with
  | [] => ([], w)
  | original :: rest =>
      let '(step, w) := compensate_step actor order original w in
      let '(steps, w) := compensate_steps actor (order + 1) rest w in (step :: steps, w)
  end.

Definition compensateAtomicEnforcement (actor : string) (applied : list Step) (w : World) : list Step * World :=
  compensate_steps actor 1 (reverse applied) w.

Definition atomicCompensationFailed (steps : list Step) : bool := existsb (fun step => (StStatus step =? "failed")%string) steps.
Definition atomicAppliedStepCount (steps : list Step) : Z :=
  zlen (List.filter (fun step => (StOperation step =? "apply")%string && is_applied step) steps).
Definition atomicStepStatusCount (steps : list Step) (status : string) : Z := zlen (List.filter (fun step => (StStatus step =? status)%string) steps).
Definition atomicStepOperationCount (steps : list Step) (operation : string) : Z := zlen (List.filter (fun step => (StOperation step =? operation)%string) steps).
Definition atomicDriftCount (findings : list DriftFinding) : Z := zlen (List.filter (fun f => (DfStatus f =? "drifted")%string) findings).

(** ** The ledger *)

(** The participants' world, the tables with their next row identifiers, and the status row. *)
Record TxState := mkTxState {
  SWorld : World; STransactions : list TxRow; SSteps : list StepRow; SDrifts : list DriftRow; SNext : Z; SNextStep : Z; SNextDrift : Z;
  SStatus : option (string * string) }.

Definition with_world (w : World) (s : TxState) : TxState :=
  mkTxState w (STransactions s) (SSteps s) (SDrifts s) (SNext s) (SNextStep s) (SNextDrift s) (SStatus s).
Definition with_transactions (rows : list TxRow) (steps : list StepRow) (next nextStep : Z) (s : TxState) : TxState :=
  mkTxState (SWorld s) rows steps (SDrifts s) next nextStep (SNextDrift s) (SStatus s).
Definition with_drifts (rows : list DriftRow) (next : Z) (s : TxState) : TxState :=
  mkTxState (SWorld s) (STransactions s) (SSteps s) rows (SNext s) (SNextStep s) next (SStatus s).

Definition set_tx_status (env : TxEnv) (status message : string) (s : TxState) : TxState :=
  match TeFailing env WriteTxStatus with
  | Some _ => s
  | None => mkTxState (SWorld s) (STransactions s) (SSteps s) (SDrifts s) (SNext s) (SNextStep s) (SNextDrift s) (Some (status, message))
  end.

Definition one_of (names : list string) (fallback value : string) : string := let v := lower_trim value in if bool_decide (v ∈ names) then v else fallback.

Definition normalizeEnforcementTransactionOperation : string -> string := one_of ["preview"; "apply"; "drift"; "rollback"] "".
Definition normalizeEnforcementTransactionStatus : string -> string :=
  one_of ["previewed"; "applied"; "degraded"; "blocked"; "failed"; "compensated"; "rolled_back"; "drifted"; "in_sync"; "skipped"] "blocked".
Definition normalizeEnforcementStepStatus : string -> string :=
  one_of ["pending"; "previewed"; "applied"; "degraded"; "blocked"; "failed"; "rolled_back"; "compensated"; "skipped"; "drifted"; "in_sync"; "unknown"] "unknown".
Definition normalizeEnforcementStepOperation : string -> string := one_of ["preview"; "apply"; "drift"; "rollback"; "compensate"] "".
Definition normalizeEnforcementDriftStatus : string -> string := one_of ["in_sync"; "drifted"; "unknown"; "skipped"; "blocked"] "unknown".

Definition normalizeEnforcementTarget (value : string) : string :=
  let v := lower_trim value in
  if bool_decide (v ∈ ["runtime-firewall"; "runtime_firewall"; "firewall"]) then "runtime_firewall"
  else if bool_decide (v ∈ ["runtime-qos"; "runtime_qos"; "qos"; "qos_scheduler"]) then "runtime_qos"
  else if bool_decide (v ∈ ["vlan-lifecycle"; "vlan_lifecycle"; "vlan"]) then "vlan_lifecycle"
  else if bool_decide (v ∈ ["controller-sync"; "controller_sync"; "controller"]) then "controller_sync"
  else v.

(** [insertEnforcementTransactionStep]: the row's step, unless it has no target. *)
Definition stored_step (step : Step) : option Step :=
  let target := normalizeEnforcementTarget (StTarget step) in
  let operation := normalizeEnforcementStepOperation (StOperation step) in
  if (target =? "")%string then None
  else Some (mkStep (nonNegativeInt (StOrder step)) target (if (operation =? "")%string then "apply" else operation) (normalizeEnforcementStepStatus (StStatus step))
               (TrimSpace (StDesired step)) (TrimSpace (StActive step)) (TrimSpace (StActiveSnapshot step)) (TrimSpace (StPrevious step))
               (TrimSpace (StSnapshot step)) (TrimSpace (StRestored step)) (StRollbackSupported step) (TrimSpace (StDriftStatus step)) (TrimSpace (StMessage step))
               (TrimSpace (StError step))).

(** The rows of the steps, numbered from [next] *)
Fixpoint step_rows (transactionID : string) (next : Z) (steps : list Step) : option (list StepRow) :=
  match steps with
  | [] => Some []
  | step :: rest =>
      match stored_step step, step_rows transactionID (next + 1) rest with
      | Some stored, Some rows => Some (mkStepRow next (TrimSpace transactionID) stored :: rows)
      | _, _ => None
      end
  end.

(** The row of a transaction *)
Definition transaction_row (env : TxEnv) (id : Z) (previous actor : string) (r : TxResult) : TxRow :=
  mkTxRow id (TrimSpace (XrTransactionID r)) (normalizeEnforcementTransactionOperation (XrOperation r)) (normalizeEnforcementTransactionStatus (XrStatus r))
    (TrimSpace actor) (nonNegativeInt (TsTargets (XpSummary (XrPlan r)))) (atomicAppliedStepCount (XrSteps r)) (atomicStepStatusCount (XrSteps r) "skipped")
    (atomicStepStatusCount (XrSteps r) "failed") (atomicStepOperationCount (XrSteps r) "rollback") (atomicStepOperationCount (XrSteps r) "compensate")
    (atomicDriftCount (XrDrift r)) (TrimSpace (XpFingerprint (XrPlan r))) (TrimSpace previous) (TrimSpace (XrMessage r)) (TeClock env).

(** One transaction of the database inserts the row and those of the steps. *)
Definition RecordEnforcementTransaction (env : TxEnv) (previous actor : string) (r : TxResult) (s : TxState) : option string * TxState :=
  if (normalizeEnforcementTransactionOperation (XrOperation r) =? "")%string then (Some "enforcement transaction operation and status are required", s)
  else match TeFailing env WriteTransaction with
  | Some e => (Some ("record enforcement transaction: " +:+ e), s)
  | None =>
      let row := transaction_row env (SNext s) previous actor r in
      if bool_decide (TxTransactionID row ∈ (TxTransactionID <$> STransactions s)) then (Some "record enforcement transaction: constraint failed", s)
      else match step_rows (XrTransactionID r) (SNextStep s) (XrSteps r) with
      | None => (Some "enforcement transaction step target and status are required", s)
      | Some rows => (None, with_transactions (STransactions s ++ [row]) (SSteps s ++ rows) (SNext s + 1) (SNextStep s + zlen rows) s)
      end
  end.

(** [ORDER BY datetime(started_at) DESC, id DESC] *)
Definition later_transaction (x y : TxRow) : bool := if TxStartedAt x =? TxStartedAt y then TxID x >? TxID y else TxStartedAt x >? TxStartedAt y.
Definition later_drift (x y : DriftRow) : bool := if DrObservedAt x =? DrObservedAt y then DrID x >? DrID y else DrObservedAt x >? DrObservedAt y.

Definition at_least_hundred (limit : Z) : nat := Z.to_nat (if limit <? 100 then 100 else limit).

Definition TrimEnforcementTransactionHistory (transactionLimit driftLimit : Z) (s : TxState) : TxState :=
  let s :=
    if transactionLimit >? 0 then
      let kept := TxTransactionID <$> take (at_least_hundred transactionLimit) (sort_by later_transaction (STransactions s)) in
      with_transactions (List.filter (fun t => bool_decide (TxTransactionID t ∈ kept)) (STransactions s))
        (List.filter (fun r => bool_decide (SrTransactionID r ∈ kept)) (SSteps s)) (SNext s) (SNextStep s) s
    else s in
  if driftLimit >? 0 then
    let kept := DrDriftID <$> take (at_least_hundred driftLimit) (sort_by later_drift (SDrifts s)) in
    with_drifts (List.filter (fun d => bool_decide (DrDriftID d ∈ kept)) (SDrifts s)) (SNextDrift s) s
  else s.

Definition recordAtomicEnforcementResult (env : TxEnv) (cfg : TxConfig) (previous actor : string) (r : TxResult) (s : TxState) : option string * TxState :=
  match RecordEnforcementTransaction env previous actor r s with
  | (Some e, s) => (Some e, s)
  | (None, s) => (None, TrimEnforcementTransactionHistory (TcHistoryRetention cfg) (TcCompensationRetention cfg) s)
  end.

Definition RecordEnforcementDriftEvent (env : TxEnv) (transactionID actor : string) (f : DriftFinding) (s : TxState) : option string * TxState :=
  let target := normalizeEnforcementTarget (DfTarget f) in
  if (target =? "")%string then (Some "enforcement drift target and status are required", s)
  else match TeFailing env WriteDrift with
  | Some e => (Some ("record enforcement drift event: " +:+ e), s)
  | None =>
      let id := TeDriftID env target in
      if bool_decide (id ∈ (DrDriftID <$> SDrifts s)) then (Some "record enforcement drift event: constraint failed", s)
      else
        let stored := mkDriftFinding target (normalizeEnforcementDriftStatus (DfStatus f)) (TrimSpace (DfDesired f)) (TrimSpace (DfActive f))
                        (TrimSpace (DfActiveSnapshot f)) (TrimSpace (DfMessage f)) in
        (None, with_drifts (SDrifts s ++ [mkDriftRow (SNextDrift s) id (TrimSpace transactionID) stored (TrimSpace actor) (TeClock env)]) (SNextDrift s + 1) s)
  end.

(** Queries *)
Definition ListEnforcementTransactionSteps (transactionID : string) (s : TxState) : list StepRow :=
  sort_by (fun x y => if StOrder (SrStep x) =? StOrder (SrStep y) then SrID x <? SrID y else StOrder (SrStep x) <? StOrder (SrStep y))
    (List.filter (fun r => (SrTransactionID r =? TrimSpace transactionID)%string) (SSteps s)).

Definition with_steps (found : option TxRow) (s : TxState) : option (TxRow * list StepRow) :=
  (fun row => (row, ListEnforcementTransactionSteps (TxTransactionID row) s)) <$> found.

Definition GetEnforcementTransaction (env : TxEnv) (transactionID : string) (s : TxState) : result string (option (TxRow * list StepRow)) :=
  if (TrimSpace transactionID =? "")%string then Ok None
  else match TeFailing env QueryTransactions with
  | Some e => Err e
  | None => Ok (with_steps (List.find (fun row => (TxTransactionID row =? TrimSpace transactionID)%string) (STransactions s)) s)
  end.

Definition rollback_candidate_row (row : TxRow) : bool :=
  (TxOperation row =? "apply")%string && bool_decide (TxStatus row ∈ ["applied"; "degraded"; "drifted"]).

Definition GetLatestEnforcementRollbackCandidate (env : TxEnv) (s : TxState) : result string (option (TxRow * list StepRow)) :=
  match TeFailing env QueryTransactions with
  | Some e => Err ("get enforcement rollback candidate: " +:+ e)
  | None => Ok (with_steps (head (sort_by later_transaction (List.filter rollback_candidate_row (STransactions s)))) s)
  end.

(** ** The operations *)

Definition no_tx_plan : TxPlan := mkTxPlan "" "" [] (mkTxSummary 0 0 0 0 0 0 0 0 0 0 0 0) [] "".
Definition no_result : TxResult := mkTxResult "" "" "" "" no_tx_plan [] [].

Definition Outcome : Type := TxResult * option string * TxState.

(** Ends a call: the result is recorded, then the status row is written and the call returns, unless recording failed. *)
Definition finish (env : TxEnv) (cfg : TxConfig) (previous actor : string) (r : TxResult) (status : option string) (err : option string) (s : TxState) : Outcome :=
  match recordAtomicEnforcementResult env cfg previous actor r s with
  | (Some e, s) => (no_result, Some e, s)
  | (None, s) => (r, err, match status with Some status => set_tx_status env status (XrMessage r) s | None => s end)
  end.

Definition targetPlanStepStatus (t : TargetPlan) : string := if bool_decide (TpStatus t ∈ ["blocked"; "degraded"; "skipped"]) then TpStatus t else "previewed".

Definition preview_step (order : Z) (t : TargetPlan) : Step :=
  mkStep order (TpTarget t) "preview" (targetPlanStepStatus t) (TpDesired t) (TpActive t) (TpActiveSnapshot t) (TpPrevious t) "" "" (TpRollbackSupported t)
    (TpDriftStatus t) (TpMessage t) "".

Definition PreviewAtomicEnforcement (env : TxEnv) (cfg : TxConfig) (req : Request) (actor : string) (s : TxState) : Outcome :=
  match BuildAtomicEnforcementPlan (TeContext env) cfg (RqTargets req) (SWorld s) with
  | Err e => (no_result, Some e, s)
  | Ok plan =>
      let r := mkTxResult (TeTransactionID env) "preview" (if (XpStatus plan =? "blocked")%string then "blocked" else "previewed") (XpMessage plan) plan
                 (imap (fun i t => preview_step (Z.of_nat i + 1) t) (XpTargets plan)) [] in
      finish env cfg (RqTransactionID req) actor r None None s
  end.

(** The drift of the targets as the ledgers show it *)
Definition drift_finding (t : TargetPlan) : DriftFinding :=
  mkDriftFinding (TpTarget t) (if (TpDriftStatus t =? "")%string then "unknown" else TpDriftStatus t) (TpDesired t) (TpActive t) (TpActiveSnapshot t)
    (if (TpDriftMessage t =? "")%string then TpMessage t else TpDriftMessage t).

(** The findings so far, the one whose event cannot be recorded included *)
Fixpoint record_drifts (env : TxEnv) (transactionID actor : string) (targets : list TargetPlan) (s : TxState) : list DriftFinding * option string * TxState :=
  match targets with
  | [] => ([], None, s)
  | t :: rest =>
      match RecordEnforcementDriftEvent env transactionID actor (drift_finding t) s with
      | (Some e, s) => ([drift_finding t], Some e, s)
      | (None, s) => let '(findings, err, s) := record_drifts env transactionID actor rest s in (drift_finding t :: findings, err, s)
      end
  end.

Definition observeAtomicEnforcementDrift (env : TxEnv) (cfg : TxConfig) (req : Request) (transactionID actor : string) (s : TxState)
    : list DriftFinding * option string * TxState :=
  match BuildAtomicEnforcementPlan (TeContext env) cfg (RqTargets req) (SWorld s) with
  | Err e => ([], Some e, s)
  | Ok plan => record_drifts env transactionID actor (XpTargets plan) s
  end.

(** The compensation of a failed apply: the status and message, the compensations' steps, and the world *)
Definition compensate_failure (cfg : TxConfig) (actor firstErr : string) (applied : list Step) (w : World) : string * string * list Step * World :=
  if TcAutoRollbackOnFailure cfg then
    let '(compensations, w) := compensateAtomicEnforcement actor applied w in
    if atomicCompensationFailed compensations then ("failed", firstErr +:+ "; compensation failed", compensations, w)
    else if zlen compensations >? 0 then ("compensated", firstErr +:+ "; applied targets were rolled back", compensations, w)
    else ("failed", firstErr, compensations, w)
  else ("failed", firstErr, [], w).

(** The drift check after an apply without failure: status, message, further steps, findings and state *)
Definition check_drift (env : TxEnv) (cfg : TxConfig) (req : Request) (actor message : string) (applied : list Step) (s : TxState)
    : string * string * list Step * list DriftFinding * TxState :=
  if TcDriftCheckAfterApply cfg && negb (RqSkipDriftCheck req) then
    let '(drift, driftErr, s) := observeAtomicEnforcementDrift env cfg req (TeTransactionID env) actor s in
    let '(status, message) := match driftErr with
                              | Some e => ("degraded", "Atomic enforcement applied, but drift verification failed: " +:+ e)
                              | None => ("applied", message)
                              end in
    if atomicDriftCount drift >? 0 then
      let drifted := "Atomic enforcement applied with " +:+ Itoa (atomicDriftCount drift) +:+ " drifted target(s)." in
      if TcAutoRollbackOnDrift cfg then
        let '(compensations, w) := compensateAtomicEnforcement actor applied (SWorld s) in
        if negb (atomicCompensationFailed compensations) && (zlen compensations >? 0)
        then ("compensated", "Atomic enforcement drift was detected after apply; applied targets were rolled back.", compensations, drift, with_world w s)
        else ("drifted", drifted, compensations, drift, with_world w s)
      else ("drifted", drifted, [], drift, s)
    else (status, message, [], drift, s)
  else ("applied", message, [], [], s).

Definition ApplyAtomicEnforcement (env : TxEnv) (cfg : TxConfig) (req : Request) (actor : string) (s : TxState) : Outcome :=
  match BuildAtomicEnforcementPlan (TeContext env) cfg (RqTargets req) (SWorld s) with
  | Err e => (no_result, Some e, s)
  | Ok plan =>
      let result status message steps drift := mkTxResult (TeTransactionID env) "apply" status message plan steps drift in
      if (XpStatus plan =? "skipped")%string then finish env cfg (RqTransactionID req) actor (result "skipped" (XpMessage plan) [] []) None None s
      else if (XpStatus plan =? "blocked")%string && TcFailClosed cfg then
        let message := "Atomic enforcement apply blocked by preflight diagnostics." in
        finish env cfg (RqTransactionID req) actor (result "blocked" message [] []) (Some "down") (Some message) s
      else
        let '(steps, applied, firstErr, w) := apply_targets actor 1 (XpTargets plan) (SWorld s) in
        match firstErr with
        | Some e =>
            let '(status, message, compensations, w) := compensate_failure cfg actor e applied w in
            finish env cfg (RqTransactionID req) actor (result status message (steps ++ compensations) []) (Some "down") (Some e) (with_world w s)
        | None =>
            let '(status, message, compensations, drift, s) := check_drift env cfg req actor (XpMessage plan) applied (with_world w s) in
            let message := if (message =? "")%string || (message =? XpMessage plan)%string
                           then "Atomic enforcement applied " +:+ Itoa (atomicAppliedStepCount (steps ++ compensations)) +:+ " target(s)." else message in
            finish env cfg (RqTransactionID req) actor (result status message (steps ++ compensations) drift)
              (Some (if bool_decide (status ∈ ["degraded"; "drifted"]) then "degraded" else "ok")) None s
        end
  end.

Definition drift_step (order : Z) (f : DriftFinding) : Step :=
  mkStep order (DfTarget f) "drift" (DfStatus f) (DfDesired f) (DfActive f) (DfActiveSnapshot f) "" "" "" false (DfStatus f) (DfMessage f) "".

Definition DetectAtomicEnforcementDrift (env : TxEnv) (cfg : TxConfig) (req : Request) (actor : string) (s : TxState) : Outcome :=
  match BuildAtomicEnforcementPlan (TeContext env) cfg (RqTargets req) (SWorld s) with
  | Err e => (no_result, Some e, s)
  | Ok plan =>
      let '(drift, err, s) := observeAtomicEnforcementDrift env cfg req (TeTransactionID env) actor s in
      let '(status, message) :=
        if atomicDriftCount drift >? 0 then ("drifted", "Atomic enforcement detected " +:+ Itoa (atomicDriftCount drift) +:+ " drifted target(s).")
        else match err with Some e => ("degraded", e) | None => ("in_sync", "Atomic enforcement targets are in sync.") end in
      let r := mkTxResult (TeTransactionID env) "drift" status message plan (imap (fun i f => drift_step (Z.of_nat i + 1) f) drift) drift in
      finish env cfg (RqTransactionID req) actor r (Some (if bool_decide (status ∈ ["drifted"; "degraded"]) then "degraded" else "ok")) err s
  end.

(** The steps of a transaction that a rollback undoes, the last first *)
Definition rollbackableAtomicSteps (steps : list StepRow) : list StepRow :=
  sort_by (fun x y => StOrder (SrStep x) >? StOrder (SrStep y))
    (List.filter (fun r => (StOperation (SrStep r) =? "apply")%string && bool_decide (StStatus (SrStep r) ∈ ["applied"; "degraded"; "drifted"])) steps).

Definition rollback_skipped (order : Z) (source : Step) : Step :=
  mkStep order (StTarget source) "rollback" "skipped" (StDesired source) (StActive source) "" (StPrevious source) (StSnapshot source) "" false ""
    "No previous target snapshot is available for rollback." "".

Definition finished_rollback (order : Z) (source step : Step) (err : option string) : Step :=
  mkStep order (StTarget source) "rollback" (match err with Some _ => "failed" | None => StStatus step end) (firstNonEmptyAtomicString (StDesired step) (StDesired source)) (StActive step)
    (StActiveSnapshot step) (StPrevious step) (StSnapshot step) (StRestored step) (StRollbackSupported step) (StDriftStatus step) (StMessage step)
    (match err with Some e => e | None => StError step end).

(** The loop of [RollbackAtomicEnforcement]: it ends at the first target that fails. *)
Fixpoint rollback_steps (actor : string) (order : Z) (sources : list Step) (w : World) : list Step * option string * World :=
  match sources with
  | [] => ([], None, w)
  | source :: rest =>
      let go step w := let '(steps, err, w) := rollback_steps actor (order + 1) rest w in (step :: steps, err, w) in
      match rollback_of (StTarget source) with
      | None => go (rollback_skipped order source) w
      | Some rollback =>
          if (TrimSpace (StPrevious source) =? "")%string then go (rollback_skipped order source) w
          else
            let '(step, err, w) := rollback (StPrevious source) actor w in
            let step := finished_rollback order source step err in
            match err with Some e => ([step], Some e, w) | None => go step w end
      end
  end.

Definition RollbackAtomicEnforcement (env : TxEnv) (cfg : TxConfig) (req : Request) (actor : string) (s : TxState) : Outcome :=
  let found := if negb (TrimSpace (RqTransactionID req) =? "")%string then GetEnforcementTransaction env (RqTransactionID req) s
               else GetLatestEnforcementRollbackCandidate env s in
  match found with
  | Err e => (no_result, Some e, s)
  | Ok None => (no_result, Some "no atomic enforcement transaction is available for rollback", s)
  | Ok (Some (source, steps)) =>
      match BuildAtomicEnforcementPlan (TeContext env) cfg (RqTargets req) (SWorld s) with
      | Err e => (no_result, Some e, s)
      | Ok plan =>
          let inputs := SrStep <$> rollbackableAtomicSteps steps in
          let '(done, err, w) := rollback_steps actor 1 inputs (SWorld s) in
          let '(status, message) :=
            if zlen inputs =? 0 then ("skipped", "Transaction " +:+ TxTransactionID source +:+ " has no rollback-capable applied steps.")
            else match err with
                 | Some e => ("failed", "Atomic enforcement rollback failed: " +:+ e)
                 | None => ("rolled_back", "Atomic enforcement rolled back transaction " +:+ TxTransactionID source +:+ ".")
                 end in
          let r := mkTxResult (TeTransactionID env) "rollback" status message plan done [] in
          finish env cfg (TxTransactionID source) actor r (Some (if (status =? "failed")%string then "down" else "ok"))
            (if (status =? "failed")%string then Some message else None) (with_world w s)
      end
  end.
End plans.

(** ** The contract of a target

    What a target promises to transactions: [live] is the state it enforces, [stored] the state a snapshot of it holds.
    Of a target that is [settled] (its active snapshot is its live state) an apply leaves the state before in the
    snapshot it reports as previous; a rollback restores a snapshot; and no target touches another. *)
Section contract.
Context {U : Unicode} {T : Targets} {PD : TxPlanDigest} {Q : Quote}.

Definition snapshot_ops (target : string) : option (SnapshotOps World) :=
  if (target =? "vlan_lifecycle")%string then Some vlan_target
  else if (target =? "subscriber_route_export")%string then Some routes_target
  else if (target =? "runtime_qos")%string then Some qos_target
  else if (target =? "runtime_firewall")%string then Some firewall_target
  else None.

Class TargetStates := {
  live : string -> World -> option string;
  stored : string -> string -> World -> option string;
  sound : string -> World -> Prop;
  settled : string -> World -> Prop;
}.
Context {TS : TargetStates}.

(** A step of the world that has nothing to do with the target *)
Record untouched (t : string) (w w' : World) : Prop := {
  ut_live : live t w' = live t w;
  ut_stored id : stored t id w' = stored t id w;
  ut_sound : sound t w -> sound t w';
  ut_settled : settled t w -> settled t w';
}.

#[export] Instance untouched_preorder t : PreOrder (untouched t).
Proof.
  split; [by split|]. intros w1 w2 w3 [H1 H2 H3 H4] [K1 K2 K3 K4]. split; [congruence|intros id; by rewrite K2|auto|auto].
Qed.

Class TargetLaws : Prop := {
  settled_sound t w : settled t w -> sound t w;
  apply_stores t ops actor w r w' : snapshot_ops t = Some ops -> so_apply ops actor w = (r, None, w') -> settled t w ->
    sound t w' /\ (TrimSpace (TrPrevious r) <> "" -> stored t (TrPrevious r) w' = live t w);
  apply_elsewhere t ops actor w r err w' u : snapshot_ops t = Some ops -> so_apply ops actor w = (r, err, w') -> u <> t -> untouched u w w';
  rollback_restores t ops id actor w r w' : snapshot_ops t = Some ops -> so_rollback ops id actor w = (r, None, w') -> sound t w -> TrimSpace id <> "" ->
    live t w' = stored t id w;
  rollback_elsewhere t ops id actor w r err w' u : snapshot_ops t = Some ops -> so_rollback ops id actor w = (r, err, w') -> u <> t -> untouched u w w';
  push_elsewhere w r err w' u : controller_push w = (r, err, w') -> untouched u w w';
}.

Lemma rollback_of_ops t : rollback_of t = (fun ops => rollback_snapshot_target t ops) <$> snapshot_ops t.
Proof.
  unfold rollback_of, atomicParticipantMap, snapshot_ops. repeat (destruct (_ =? _)%string; [done|]). done.
Qed.

(** An action of a participant: what it does to its target, and to the others. *)
Lemma participant_apply {TL : TargetLaws} t participant actor w step err w' : atomicParticipantMap t = Some participant -> PtApply participant actor w = (step, err, w') ->
  (forall u, u <> t -> untouched u w w')
  /\ (forall ops, snapshot_ops t = Some ops -> err = None -> settled t w ->
        sound t w' /\ (TrimSpace (StPrevious step) <> "" -> stored t (StPrevious step) w' = live t w))
  /\ (is_Some err -> StStatus step = "failed").
Proof.
  intros Hp E. assert ((exists ops, snapshot_ops t = Some ops /\ participant = snapshot_participant t ops)
                      \/ (snapshot_ops t = None /\ participant = mkParticipant atomicControllerApplyFn None)) as [(ops & Ho & ->)|[Ho ->]].
  { unfold atomicParticipantMap, snapshot_ops in *. repeat (destruct (_ =? _)%string; [injection Hp as <-; eauto|]). discriminate. }
  - cbn in E. unfold apply_snapshot_target in E. destruct (so_apply ops actor w) as [[r err'] w1] eqn:Ea. injection E as <- <- <-. split_and!.
    + intros u Hu. by eapply apply_elsewhere.
    + intros ops' Ho' -> Hs. rewrite Ho' in Ho. injection Ho as ->. by eapply apply_stores.
    + intros [e ->]. done.
  - cbn in E. unfold atomicControllerApplyFn in E. destruct (controller_push w) as [[report err'] w1] eqn:Ea. split_and!.
    + intros u Hu. assert (w' = w1) as ->; [|by eapply push_elsewhere]. destruct report; by injection E as _ _ <-.
    + intros ops Ho'. by rewrite Ho' in Ho.
    + destruct report; injection E as <- <- _; by intros [e ->].
Qed.

Lemma apply_targets_spec {TL : TargetLaws} actor targets order w steps applied err w' :
  apply_targets actor order targets w = (steps, applied, err, w') -> NoDup (TpTarget <$> targets) ->
  (forall u, (u ∉ (TpTarget <$> targets)) -> untouched u w w')
  /\ (forall step, step ∈ applied -> StTarget step ∈ (TpTarget <$> targets)) /\ NoDup (StTarget <$> applied)
  /\ (forall step, step ∈ steps -> is_applied step = true -> step ∈ applied)
  /\ (forall step ops, step ∈ applied -> snapshot_ops (StTarget step) = Some ops -> settled (StTarget step) w ->
        sound (StTarget step) w' /\ (TrimSpace (StPrevious step) <> "" -> stored (StTarget step) (StPrevious step) w' = live (StTarget step) w)).
Proof.
  revert order w steps applied err w'. induction targets as [|t rest IH]; intros order w steps applied err w' E Hnd.
  { injection E as <- <- _ <-. split_and!; [done|intros ? []%not_elem_of_nil|constructor|intros ? []%not_elem_of_nil|intros ? ? []%not_elem_of_nil]. }
  cbn [fmap list_fmap] in Hnd |- *. apply NoDup_cons in Hnd as [Hnew Hnd]. cbn [apply_targets] in E. destruct (shouldSkipAtomicTargetApply t).
  { destruct (apply_targets actor (order + 1) rest w) as [[[steps' applied'] err'] w1] eqn:Er. injection E as <- <- <- <-.
    destruct (IH _ _ _ _ _ _ Er Hnd) as (H1 & H2 & H3 & H4 & H5). split_and!; [intros u Hu; apply H1; set_solver|intros step Hs; right; by apply H2|done| |done].
    intros step [->|Hs]%elem_of_cons Ha; [discriminate|by apply H4]. }
  destruct (atomicParticipantMap (TpTarget t)) as [participant|] eqn:Ep.
  2: { injection E as <- <- <- <-. split_and!; [by intros|intros ? []%not_elem_of_nil|constructor| |intros ? ? []%not_elem_of_nil]. by intros step ->%list_elem_of_singleton. }
  destruct (PtApply participant actor w) as [[step err'] w1] eqn:Ea. destruct (participant_apply _ _ _ _ _ _ _ Ep Ea) as (Hother & Hown & Hfail).
  assert (forall u, u <> TpTarget t -> untouched u w w1) as Ht by done.
  destruct err' as [e|].
  { injection E as <- <- <- <-. split_and!; [intros u Hu; apply Ht; set_solver|intros ? []%not_elem_of_nil|constructor| |intros ? ? []%not_elem_of_nil].
    intros s ->%list_elem_of_singleton. unfold is_applied. cbn. by rewrite Hfail by eauto. }
  destruct (StStatus (finished_step order t step) =? "failed")%string eqn:Ef.
  { injection E as <- <- <- <-. split_and!; [intros u Hu; apply Ht; set_solver|intros ? []%not_elem_of_nil|constructor| |intros ? ? []%not_elem_of_nil].
    apply String.eqb_eq in Ef. intros s ->%list_elem_of_singleton. unfold is_applied. by rewrite Ef. }
  destruct (apply_targets actor (order + 1) rest w1) as [[[steps' applied'] err'] w2] eqn:Er. injection E as <- <- <- <-.
  destruct (IH _ _ _ _ _ _ Er Hnd) as (H1 & H2 & H3 & H4 & H5).
  set (mine := if is_applied (finished_step order t step) then [finished_step order t step] else []).
  assert (forall s, s ∈ mine -> s = finished_step order t step) as Hmine by (unfold mine; intros s; destruct (is_applied _); [by intros ->%list_elem_of_singleton|by intros []%not_elem_of_nil]).
  split_and!.
  - intros u Hu. transitivity w1; [apply Ht; set_solver|apply H1; set_solver].
  - intros s [Hs|Hs]%elem_of_app; [rewrite (Hmine s Hs); by left|right; by apply H2].
  - rewrite fmap_app. apply NoDup_app. split_and!; [|intros x Hx Hx'|done]; [unfold mine; destruct (is_applied _); [apply NoDup_singleton|constructor]|].
    apply list_elem_of_fmap in Hx as (s & -> & Hs). apply list_elem_of_fmap in Hx' as (s' & Heq & Hs'). rewrite (Hmine s Hs) in Heq. apply Hnew. cbn in Heq. rewrite Heq. by apply H2.
  - intros s [->|Hs]%elem_of_cons Ha; apply elem_of_app; [left; unfold mine; rewrite Ha; by left|right; by apply H4].
  - intros s ops [Hs|Hs]%elem_of_app Ho Hset.
    + rewrite (Hmine s Hs) in *. cbn [StTarget StPrevious finished_step] in *. destruct (Hown ops Ho eq_refl Hset) as [Hso Hst].
      destruct (H1 (TpTarget t) Hnew) as [_ Hst' Hso' _]. split; [by apply Hso'|]. intros Hp. rewrite Hst'. by apply Hst.
    + assert (StTarget s <> TpTarget t) as Hne by (intros Heq; apply Hnew; rewrite <- Heq; by apply H2).
      destruct (Ht _ Hne) as [Hl _ _ Hset']. rewrite <- Hl. by apply (H5 s ops Hs Ho), Hset'.
Qed.

Lemma compensate_step_spec {TL : TargetLaws} actor order original w step w' : compensate_step actor order original w = (step, w') ->
  (forall u, u <> StTarget original -> untouched u w w')
  /\ (forall ops, snapshot_ops (StTarget original) = Some ops -> sound (StTarget original) w -> TrimSpace (StPrevious original) <> "" ->
        StStatus step <> "failed" -> live (StTarget original) w' = stored (StTarget original) (StPrevious original) w)
  /\ (TrimSpace (StPrevious original) = "" -> w' = w).
Proof.
  unfold compensate_step. rewrite rollback_of_ops. destruct (snapshot_ops (StTarget original)) as [ops|] eqn:Eo; cbn [fmap option_fmap option_map].
  2: { intros [= <- <-]. split_and!; [by intros|done|done]. }
  destruct (String.eqb_spec (TrimSpace (StPrevious original)) "") as [Hb|Hb]; [intros [= <- <-]; split_and!; [by intros|done|done]|].
  unfold rollback_snapshot_target. destruct (so_rollback ops (StPrevious original) actor w) as [[r err] w1] eqn:Er. intros [= <- <-]. split_and!; [| |done].
  - intros u Hu. by eapply rollback_elsewhere.
  - intros ops' [= <-] Hs _ Hf. destruct err as [e|]; [by destruct Hf|]. by eapply rollback_restores.
Qed.

Lemma compensate_steps_spec {TL : TargetLaws} actor originals order w steps w' : compensate_steps actor order originals w = (steps, w') ->
  NoDup (StTarget <$> originals) -> atomicCompensationFailed steps = false ->
  (forall u, (u ∉ (StTarget <$> originals)) -> untouched u w w')
  /\ (forall original ops, original ∈ originals -> snapshot_ops (StTarget original) = Some ops -> sound (StTarget original) w ->
        TrimSpace (StPrevious original) <> "" -> live (StTarget original) w' = stored (StTarget original) (StPrevious original) w).
Proof.
  revert order w steps w'. induction originals as [|o rest IH]; intros order w steps w' E Hnd Hf.
  { injection E as <- <-. split; [done|intros ? ? []%not_elem_of_nil]. }
  cbn [fmap list_fmap] in Hnd |- *. apply NoDup_cons in Hnd as [Hnew Hnd]. cbn [compensate_steps] in E.
  destruct (compensate_step actor order o w) as [step w1] eqn:Es. destruct (compensate_steps actor (order + 1) rest w1) as [steps' w2] eqn:Er. injection E as <- <-.
  cbn [atomicCompensationFailed existsb] in Hf. apply orb_false_iff in Hf as [Hf1 Hf2]. apply String.eqb_neq in Hf1.
  destruct (compensate_step_spec _ _ _ _ _ _ Es) as (Hother & Hown & _). destruct (IH _ _ _ _ Er Hnd Hf2) as [H1 H2]. split.
  - intros u Hu. transitivity w1; [apply Hother; set_solver|apply H1; set_solver].
  - intros original ops [->|Hin]%elem_of_cons Ho Hs Hp.
    + destruct (H1 _ Hnew) as [Hl _ _ _]. rewrite Hl. by eapply Hown.
    + assert (StTarget original <> StTarget o) as Hne by (intros Heq; apply Hnew; rewrite <- Heq; by apply (list_elem_of_fmap_2 StTarget)).
      destruct (Hother _ Hne) as [_ Hst Hso _]. rewrite <- Hst. eapply H2; eauto.
Qed.

Lemma compensate_nothing {TL : TargetLaws} actor originals order w : Forall (fun o => TrimSpace (StPrevious o) = "") originals ->
  (compensate_steps actor order originals w).2 = w /\ atomicCompensationFailed (compensate_steps actor order originals w).1 = false
  /\ length (compensate_steps actor order originals w).1 = length originals.
Proof.
  intros Hb. revert order. induction Hb as [|o rest Ho Hb IH]; intros order; [done|]. cbn [compensate_steps].
  assert (compensate_step actor order o w = (compensation_skipped order o, w)) as ->.
  { unfold compensate_step. destruct (rollback_of _); [|done]. by rewrite Ho. }
  destruct (IH (order + 1)) as (H1 & H2 & H3). destruct (compensate_steps actor (order + 1) rest w) as [steps w2]. cbn in *. split_and!; [done|done|by rewrite H3].
Qed.

(** ** The names of a plan *)

Section names.
Context {UL : UnicodeLaws}.

Lemma normalizeAtomicTarget_cases value : normalizeAtomicTarget value = lower_trim value
  \/ normalizeAtomicTarget value ∈ ["runtime_firewall"; "runtime_qos"; "vlan_lifecycle"; "subscriber_route_export"; "controller_sync"].
Proof.
  unfold normalizeAtomicTarget. cbv zeta. repeat (case_bool_decide; [right; repeat ((by left) || right)|]). by left.
Qed.

Lemma normalizeAtomicTarget_idem value : normalizeAtomicTarget (normalizeAtomicTarget value) = normalizeAtomicTarget value.
Proof.
  destruct (normalizeAtomicTarget_cases value) as [H|H].
  - rewrite H at 1. unfold normalizeAtomicTarget at 1. cbv zeta. rewrite lower_trim_idem. done.
  - repeat (apply elem_of_cons in H as [->|H]; [reflexivity|]). by apply not_elem_of_nil in H.
Qed.

Lemma attach_target t : TpTarget (attachAtomicDriftState t) = TpTarget t.
Proof. unfold attachAtomicDriftState. cbv zeta. by repeat split_if. Qed.

Lemma target_name cfg target w p : previewAtomicTarget cfg target w = Ok p -> TpTarget p = normalizeAtomicTarget target.
Proof.
  unfold previewAtomicTarget. cbv zeta.
  assert (forall name enabled plan active q, preview_with_snapshot name enabled plan active = Ok q -> TpTarget q = name) as Hs.
  { intros name enabled plan [found|e] q; [|discriminate]. intros [= <-]. by rewrite attach_target. }
  destruct (String.eqb_spec (normalizeAtomicTarget target) "runtime_firewall") as [->|]; [by intros (plan & _ & H)%bind_Ok; eapply Hs|].
  destruct (String.eqb_spec (normalizeAtomicTarget target) "runtime_qos") as [->|]; [by intros (plan & _ & H)%bind_Ok; eapply Hs|].
  destruct (String.eqb_spec (normalizeAtomicTarget target) "vlan_lifecycle") as [->|]; [by intros (plan & _ & H)%bind_Ok; eapply Hs|].
  destruct (String.eqb_spec (normalizeAtomicTarget target) "subscriber_route_export") as [->|].
  { intros (plan & _ & H)%bind_Ok. destruct (negb _); [by injection H as <-|by eapply Hs]. }
  destruct (String.eqb_spec (normalizeAtomicTarget target) "controller_sync") as [->|]; [|discriminate].
  unfold previewAtomicController. cbv zeta. destruct (negb _); [by intros [= <-]|]. intros (d & _ & H)%bind_Ok. apply bind_Ok in H as (st & _ & H).
  destruct (default ("", "") st) as [a b]. injection H as <-. by rewrite attach_target.
Qed.

#[local] Instance rank_order : WeakOrder rank_less := Zltb_key atomicTargetRank.

Definition canonical (t : string) : Prop := t <> "" /\ normalizeAtomicTarget t = t.

Lemma add_targets_spec values targets : NoDup targets -> Forall canonical targets ->
  let out := foldl add_target targets values in
  NoDup out /\ Forall canonical out /\ forall t, t ∈ out <-> t ∈ targets \/ (t <> "" /\ exists v, v ∈ values /\ normalizeAtomicTarget v = t).
Proof.
  revert targets. induction values as [|v values IH]; intros targets Hnd HF.
  { cbn. split_and!; try done. intros t. split; [by left|]. intros [|(_ & v & Hv & _)]; [done|]. by apply not_elem_of_nil in Hv. }
  cbn [foldl]. assert (NoDup (add_target targets v) /\ Forall canonical (add_target targets v)
    /\ forall t, t ∈ add_target targets v <-> t ∈ targets \/ (t <> "" /\ normalizeAtomicTarget v = t)) as (Hnd' & HF' & Hin).
  { unfold add_target. cbv zeta. destruct (String.eqb_spec (normalizeAtomicTarget v) "") as [He|He].
    - split_and!; try done. intros t. split; [by left|]. intros [|[Ht Hv]]; [done|congruence].
    - case_bool_decide as Hold; [split_and!; try done; intros t; split; [by left|]; intros [Ht|[_ <-]]; [exact Ht|exact Hold]|]. split_and!.
      + apply NoDup_app. split_and!; [done| |apply NoDup_singleton]. intros x Hx ->%list_elem_of_singleton. done.
      + apply Forall_app. split; [done|]. apply Forall_singleton. split; [done|]. apply normalizeAtomicTarget_idem.
      + intros t. rewrite elem_of_app, list_elem_of_singleton. split; [intros [Ht| ->]; auto|]. intros [|[_ <-]]; auto. }
  destruct (IH _ Hnd' HF') as (H1 & H2 & H3). split_and!; [done|done|]. intros t. rewrite H3, Hin. split.
  - intros [[|[Ht Hv]]|(Ht & v' & Hv' & He)]; [by left|right; split; [done|]; exists v; split; [by left|done]|right; split; [done|]; exists v'; split; [by right|done]].
  - intros [|(Ht & v' & [->|Hv']%elem_of_cons & He)]; [by left; left|by left; right|right; split; [done|]; by exists v'].
Qed.

Lemma target_order_spec cfg requested :
  NoDup (atomicTargetOrder cfg requested) /\ Forall canonical (atomicTargetOrder cfg requested)
  /\ StronglySorted (in_order rank_less) (atomicTargetOrder cfg requested)
  /\ (requested <> [] -> forall t, t ∈ atomicTargetOrder cfg requested <-> t <> "" /\ exists v, v ∈ requested /\ normalizeAtomicTarget v = t).
Proof.
  unfold atomicTargetOrder. cbv zeta. set (values := if zlen (if zlen requested =? 0 then TcTargets cfg else requested) =? 0 then _ else _).
  destruct (add_targets_spec values [] ltac:(constructor) ltac:(constructor)) as (H1 & H2 & H3). split_and!.
  - by rewrite sort_by_perm.
  - by rewrite sort_by_perm.
  - apply sort_by_sorted. apply rank_order.
  - intros Hr t. rewrite sort_by_perm, H3. assert (values = requested) as ->.
    { unfold values. destruct requested as [|v l]; [done|]. assert (zlen (v :: l) =? 0 = false) as Hz by (rewrite zlen_cons; pose proof (zlen_nonneg l); lia). by rewrite Hz, Hz. }
    split; [intros [Ht|Ht]; [by apply not_elem_of_nil in Ht|exact Ht]|by right].
Qed.

Lemma plan_target_name cfg w t : canonical t -> TpTarget (plan_target cfg w t).1 = t.
Proof.
  intros [_ Hc]. unfold plan_target. destruct (previewAtomicTarget cfg t w) as [p|e] eqn:E; [|exact Hc]. cbn. by rewrite (target_name _ _ _ _ E).
Qed.

Lemma plan_names ctx cfg requested w plan : BuildAtomicEnforcementPlan ctx cfg requested w = Ok plan ->
  TpTarget <$> XpTargets plan = atomicTargetOrder cfg requested.
Proof.
  destruct (target_order_spec cfg requested) as (_ & Hc & Hs & _). revert Hc Hs. unfold BuildAtomicEnforcementPlan. cbv zeta.
  generalize (atomicTargetOrder cfg requested). intros order Hc Hs.
  assert (forall targets diagnostics, TpTarget <$> targets = order -> TpTarget <$> XpTargets (finalizeAtomicEnforcementPlan targets diagnostics) = order) as Hfin.
  { intros targets diagnostics Ht. unfold finalizeAtomicEnforcementPlan. cbv zeta. destruct (plan_status _ _). cbn [XpTargets]. rewrite sort_by_id; [done|].
    rewrite <- Ht in Hs. clear -Hs. induction targets as [|t l IH]; [constructor|]. cbn in Hs. inversion Hs as [|?? Hs' HF]; subst. constructor; [by apply IH|].
    rewrite Forall_fmap in HF. exact HF. }
  destruct (negb (TcEnabled cfg)).
  - intros [= <-]. apply Hfin. rewrite <- list_fmap_compose. rewrite <- (list_fmap_id order) at 2. apply list_fmap_ext. intros i t Ht. cbn.
    rewrite Forall_forall in Hc. apply Hc. by eapply list_elem_of_lookup_2.
  - destruct (firstSome ctx order); [discriminate|]. intros [= <-]. apply Hfin. rewrite <- !list_fmap_compose. rewrite <- (list_fmap_id order) at 2.
    apply list_fmap_ext. intros i t Ht. cbn. apply plan_target_name. rewrite Forall_forall in Hc. apply Hc. by eapply list_elem_of_lookup_2.
Qed.

(** ** Helper facts about the operations *)

Lemma trim_world transactionLimit driftLimit s : SWorld (TrimEnforcementTransactionHistory transactionLimit driftLimit s) = SWorld s.
Proof. unfold TrimEnforcementTransactionHistory. cbv zeta. by destruct (transactionLimit >? 0), (driftLimit >? 0). Qed.

Lemma record_world env previous actor r s : SWorld (RecordEnforcementTransaction env previous actor r s).2 = SWorld s.
Proof.
  unfold RecordEnforcementTransaction. cbv zeta. destruct (_ =? _)%string; [done|]. destruct (TeFailing _ _); [done|]. destruct (bool_decide _); [done|]. by destruct (step_rows _ _ _).
Qed.

Lemma finish_cases env cfg previous actor r status err s :
  SWorld (finish env cfg previous actor r status err s).2 = SWorld s
  /\ (((finish env cfg previous actor r status err s).1 = (r, err)) \/ exists e, (finish env cfg previous actor r status err s).1 = (no_result, Some e)).
Proof.
  unfold finish, recordAtomicEnforcementResult. pose proof (record_world env previous actor r s) as Hw.
  destruct (RecordEnforcementTransaction env previous actor r s) as [[e|] s1]; cbn [snd] in Hw; [split; [done|right; by exists e]|].
  split; [|by left]. destruct status as [st|]; cbn; [unfold set_tx_status; destruct (TeFailing env WriteTxStatus)|]; cbn; by rewrite trim_world.
Qed.

Lemma finish_result env cfg previous actor r status err s r' err' s' : finish env cfg previous actor r status err s = (r', err', s') ->
  SWorld s' = SWorld s /\ ((r' = r /\ err' = err) \/ (r' = no_result /\ err' <> None)).
Proof.
  intros E. destruct (finish_cases env cfg previous actor r status err s) as [Hw Hr]. rewrite E in Hw, Hr. split; [done|].
  destruct Hr as [[= -> ->]|(e & [= -> ->])]; auto.
Qed.

Lemma record_drifts_world env id actor targets s : SWorld (record_drifts env id actor targets s).2 = SWorld s.
Proof.
  revert s. induction targets as [|t rest IH]; intros s; [done|]. cbn [record_drifts].
  assert (SWorld (RecordEnforcementDriftEvent env id actor (drift_finding t) s).2 = SWorld s) as Hw.
  { unfold RecordEnforcementDriftEvent. cbv zeta. destruct (_ =? _)%string; [done|]. destruct (TeFailing _ _); [done|]. by destruct (bool_decide _). }
  destruct (RecordEnforcementDriftEvent env id actor (drift_finding t) s) as [[e|] s1]; cbn [snd] in Hw; [done|].
  specialize (IH s1). destruct (record_drifts env id actor rest s1) as [[fs err] s2]. cbn in *. congruence.
Qed.

Lemma observe_world env cfg req id actor s : SWorld (observeAtomicEnforcementDrift env cfg req id actor s).2 = SWorld s.
Proof. unfold observeAtomicEnforcementDrift. destruct (BuildAtomicEnforcementPlan _ _ _ _); [apply record_drifts_world|done]. Qed.

Lemma filter_all {A} (p : A -> bool) l : zlen (List.filter p l) = zlen l -> Forall (fun x => p x = true) l.
Proof.
  assert (forall l, zlen (List.filter p l) <= zlen l) as Hle.
  { induction l0 as [|x l0 IH]; cbn; [lia|]. destruct (p x); rewrite ?zlen_cons; lia. }
  induction l as [|x l IH]; [constructor|]. cbn [List.filter]. destruct (p x) eqn:E; rewrite !zlen_cons; intros H; [constructor; [done|apply IH; lia]|].
  specialize (Hle l). lia.
Qed.

Lemma filter_some {A} (p : A -> bool) l x : x ∈ l -> p x = true -> zlen (List.filter p l) > 0.
Proof.
  intros Hx Hp. assert (x ∈ List.filter p l) as H by (apply list_elem_of_In, filter_In; split; [by apply list_elem_of_In|done]).
  destruct (List.filter p l) as [|y k]; [by apply not_elem_of_nil in H|]. rewrite zlen_cons. pose proof (zlen_nonneg k). lia.
Qed.

Lemma blocked_plan targets diagnostics t : t ∈ targets -> TpStatus t = "blocked" -> XpStatus (finalizeAtomicEnforcementPlan targets diagnostics) = "blocked".
Proof.
  intros Hin Hst. unfold finalizeAtomicEnforcementPlan. cbv zeta. unfold plan_status, plan_summary. cbn [TsTargets TsSkipped TsBlocked].
  destruct (zlen targets =? 0) eqn:E0; [done|].
  destruct (count_targets (status_is "skipped") targets =? zlen targets) eqn:E1.
  { apply Z.eqb_eq, filter_all in E1. rewrite Forall_forall in E1. specialize (E1 t Hin). unfold status_is in E1. by rewrite Hst in E1. }
  assert (count_targets (status_is "blocked") targets >? 0 = true) as ->; [|done].
  pose proof (filter_some (status_is "blocked") targets t Hin ltac:(unfold status_is; by rewrite Hst)). unfold count_targets. lia.
Qed.

Lemma compensated_step order original step err : StOperation (finished_compensation order original step err) = "compensate".
Proof. done. Qed.

Lemma compensations_operation actor originals order w : Forall (fun step => StOperation step = "compensate") (compensate_steps actor order originals w).1.
Proof.
  revert order w. induction originals as [|o rest IH]; intros order w; [constructor|]. cbn [compensate_steps].
  assert (StOperation (compensate_step actor order o w).1 = "compensate") as Ho.
  { unfold compensate_step. destruct (rollback_of _) as [rollback|]; [|done]. destruct (_ =? _)%string; [done|]. by destruct (rollback (StPrevious o) actor w) as [[? ?] ?]. }
  destruct (compensate_step actor order o w) as [step w1]. specialize (IH (order + 1) w1). destruct (compensate_steps actor (order + 1) rest w1) as [steps w2].
  by constructor.
Qed.

(** ** Properties *)

(** The targets of a plan are applied in dependency order, each once: they are exactly the requested names that are not blank, in
    canonical form, ordered by rank (VLANs, routes, QoS, firewall, controller, unknown names last). *)
Theorem targets_in_dependency_order (ctx : string -> option string) (cfg : TxConfig) (requested : list string) (w : World) (plan : TxPlan) :
  BuildAtomicEnforcementPlan ctx cfg requested w = Ok plan ->
  NoDup (TpTarget <$> XpTargets plan)
  /\ StronglySorted (fun a b => atomicTargetRank a <= atomicTargetRank b) (TpTarget <$> XpTargets plan)
  /\ (requested <> [] -> forall t, t ∈ (TpTarget <$> XpTargets plan) <-> t <> "" /\ exists v, v ∈ requested /\ normalizeAtomicTarget v = t).
Proof.
  intros E. rewrite (plan_names _ _ _ _ _ E). destruct (target_order_spec cfg requested) as (H1 & _ & H3 & H4). split_and!; [done| |done].
  clear -H3. induction H3 as [|a l Hs IH HF]; constructor; [done|]. eapply Forall_impl; [exact HF|]. intros b Hb. unfold in_order, rank_less in Hb. by apply Z.ltb_ge.
Qed.

(** A blocked target stops the whole transaction before anything is touched, when the policy fails closed; and neither a preview nor a
    drift check ever touches a target. *)
Theorem blocked_target_stops_all (env : TxEnv) (cfg : TxConfig) (req : Request) (actor : string) (s : TxState) (plan : TxPlan) (t : TargetPlan) :
  SWorld (PreviewAtomicEnforcement env cfg req actor s).2 = SWorld s
  /\ SWorld (DetectAtomicEnforcementDrift env cfg req actor s).2 = SWorld s
  /\ (BuildAtomicEnforcementPlan (TeContext env) cfg (RqTargets req) (SWorld s) = Ok plan -> t ∈ XpTargets plan -> TpStatus t = "blocked" ->
      TcFailClosed cfg = true ->
      SWorld (ApplyAtomicEnforcement env cfg req actor s).2 = SWorld s /\ (ApplyAtomicEnforcement env cfg req actor s).1.2 <> None).
Proof.
  split_and!.
  - unfold PreviewAtomicEnforcement. destruct (BuildAtomicEnforcementPlan _ _ _ _); [|done]. by destruct (finish_cases env cfg (RqTransactionID req) actor
      (mkTxResult (TeTransactionID env) "preview" (if (XpStatus a =? "blocked")%string then "blocked" else "previewed") (XpMessage a) a
         (imap (fun i t => preview_step (Z.of_nat i + 1) t) (XpTargets a)) []) None None s).
  - unfold DetectAtomicEnforcementDrift. destruct (BuildAtomicEnforcementPlan _ _ _ _) as [p|]; [|done].
    pose proof (observe_world env cfg req (TeTransactionID env) actor s) as Hw. destruct (observeAtomicEnforcementDrift _ _ _ _ _ _) as [[drift err] s1]. cbn in Hw.
    destruct (if atomicDriftCount drift >? 0 then _ else _) as [status message].
    match goal with |- SWorld (finish ?env ?cfg ?p ?a ?r ?st ?e ?s).2 = _ => destruct (finish_cases env cfg p a r st e s) as [-> _] end. done.
  - intros Hb Hin Hst Hfc. unfold ApplyAtomicEnforcement. rewrite Hb.
    assert (XpStatus plan = "blocked") as ->.
    { revert Hb. unfold BuildAtomicEnforcementPlan. cbv zeta. intros Hb.
      assert (forall targets diagnostics, plan = finalizeAtomicEnforcementPlan targets diagnostics -> XpStatus plan = "blocked") as H.
      { intros targets diagnostics ->. apply (blocked_plan _ _ t); [|done]. unfold finalizeAtomicEnforcementPlan in Hin. destruct (plan_status _ _) in Hin. cbn [XpTargets] in Hin.
        by rewrite sort_by_perm in Hin. }
      destruct (negb (TcEnabled cfg)); [injection Hb as <-; by eapply H|]. destruct (firstSome _ _); [discriminate|]. injection Hb as <-. by eapply H. }
    rewrite Hfc. cbv zeta. change (("blocked" =? "skipped")%string) with false. change (("blocked" =? "blocked")%string) with true. cbn [andb].
    match goal with |- SWorld (finish ?env ?cfg ?p ?a ?r ?st ?e ?s).2 = _ /\ _ => destruct (finish_cases env cfg p a r st e s) as [Hw Hr] end.
    split; [exact Hw|]. by destruct Hr as [Hr|[e Hr]]; rewrite Hr.
Qed.


(** A transaction is reported as undone although nothing was: when none of the applied targets has a previous snapshot, as at a first
    deployment, every compensation is skipped, the targets keep what was applied, and the transaction is recorded as compensated with a
    message that the applied targets were rolled back. *)
Theorem compensated_without_rollback {TL : TargetLaws} (env : TxEnv) (cfg : TxConfig) (req : Request) (actor e : string) (s s' : TxState) (r : TxResult) err
    (plan : TxPlan) (steps applied : list Step) (w : World) :
  BuildAtomicEnforcementPlan (TeContext env) cfg (RqTargets req) (SWorld s) = Ok plan -> XpStatus plan <> "skipped" -> XpStatus plan <> "blocked" ->
  apply_targets actor 1 (XpTargets plan) (SWorld s) = (steps, applied, Some e, w) -> applied <> [] ->
  Forall (fun step => TrimSpace (StPrevious step) = "") applied -> TcAutoRollbackOnFailure cfg = true ->
  ApplyAtomicEnforcement env cfg req actor s = (r, err, s') -> XrOperation r = "apply" ->
  SWorld s' = w /\ XrStatus r = "compensated" /\ XrMessage r = e +:+ "; applied targets were rolled back".
Proof.
  intros Hb Hns Hnb Ha Hne Hblank Hauto E Hop. unfold ApplyAtomicEnforcement in E. rewrite Hb in E. cbv zeta in E.
  apply String.eqb_neq in Hns, Hnb. rewrite Hns, Hnb in E. cbn [andb] in E. rewrite Ha in E. unfold compensate_failure, compensateAtomicEnforcement in E. rewrite Hauto in E.
  destruct (compensate_nothing actor (reverse applied) 1 w) as (Hw & Hf & Hlen); [by rewrite reverse_Permutation|].
  destruct (compensate_steps actor 1 (reverse applied) w) as [cs w'] eqn:Ec. cbn [fst snd] in Hw, Hf, Hlen. subst w'. rewrite Hf in E.
  assert (zlen cs >? 0 = true) as Hz.
  { unfold zlen. rewrite Hlen, length_reverse. destruct applied; [done|]. apply Z.gtb_lt. cbn [List.length]. lia. }
  rewrite Hz in E. apply finish_result in E as [Hsw [[-> _]|[-> _]]]; [|discriminate]. split; [exact Hsw|done].
Qed.

Lemma filter_true {A} (p : A -> bool) l : Forall (fun x => p x = true) l -> List.filter p l = l.
Proof. induction 1 as [|x l Hx Hl IH]; [done|]. cbn. by rewrite Hx, IH. Qed.

(** What stays of the tables when fewer than a hundred transactions are kept *)
Lemma trim_small transactionLimit driftLimit s : zlen (STransactions s) <= 100 ->
  STransactions (TrimEnforcementTransactionHistory transactionLimit driftLimit s) = STransactions s
  /\ forall id, id ∈ (TxTransactionID <$> STransactions s) ->
      List.filter (fun r => (SrTransactionID r =? id)%string) (SSteps (TrimEnforcementTransactionHistory transactionLimit driftLimit s))
      = List.filter (fun r => (SrTransactionID r =? id)%string) (SSteps s).
Proof.
  intros Hlen. unfold TrimEnforcementTransactionHistory. cbv zeta.
  assert (forall s1 : TxState, STransactions (if driftLimit >? 0 then with_drifts (List.filter (fun d => bool_decide (DrDriftID d ∈
    (DrDriftID <$> take (at_least_hundred driftLimit) (sort_by later_drift (SDrifts s1))))) (SDrifts s1)) (SNextDrift s1) s1 else s1) = STransactions s1
    /\ SSteps (if driftLimit >? 0 then with_drifts (List.filter (fun d => bool_decide (DrDriftID d ∈
    (DrDriftID <$> take (at_least_hundred driftLimit) (sort_by later_drift (SDrifts s1))))) (SDrifts s1)) (SNextDrift s1) s1 else s1) = SSteps s1) as Hd.
  { intros s1. by destruct (driftLimit >? 0). }
  match goal with |- STransactions (if _ then with_drifts _ _ ?s1 else _) = _ /\ _ => destruct (Hd s1) as [-> Hs] end. rewrite Hs. clear Hs Hd.
  destruct (transactionLimit >? 0); [|done]. cbn [STransactions SSteps with_transactions].
  assert (TxTransactionID <$> take (at_least_hundred transactionLimit) (sort_by later_transaction (STransactions s)) ≡ₚ TxTransactionID <$> STransactions s) as Hkept.
  { rewrite take_ge; [by rewrite sort_by_perm|]. rewrite length_sort_by. unfold at_least_hundred, zlen in *. destruct (transactionLimit <? 100) eqn:E; bool_arith; lia. }
  split.
  - apply filter_true, Forall_forall. intros t Ht. apply bool_decide_eq_true. rewrite Hkept. by apply list_elem_of_fmap_2.
  - intros id Hid. induction (SSteps s) as [|r l IH]; [done|]. cbn [List.filter]. destruct (SrTransactionID r =? id)%string eqn:E.
    + apply String.eqb_eq in E. rewrite bool_decide_eq_true_2 by (by rewrite E, Hkept). cbn [List.filter]. rewrite IH. apply String.eqb_eq in E. by rewrite E.
    + destruct (bool_decide _); cbn [List.filter]; [by rewrite E|done].
Qed.

Lemma step_rows_id id next steps rows : step_rows id next steps = Some rows -> Forall (fun r => SrTransactionID r = TrimSpace id) rows.
Proof.
  revert next rows. induction steps as [|step rest IH]; intros next rows; [intros [= <-]; constructor|]. cbn [step_rows].
  destruct (stored_step step); [|discriminate]. destruct (step_rows id (next + 1) rest) as [rows'|] eqn:E; [|discriminate]. intros [= <-]. constructor; [done|by eapply IH].
Qed.

Lemma filter_false {A} (p : A -> bool) l : Forall (fun x => p x = false) l -> List.filter p l = [].
Proof. induction 1 as [|x l Hx Hl IH]; [done|]. cbn. by rewrite Hx, IH. Qed.

(** Recording a transaction that is no candidate leaves the candidate and its steps. *)
Lemma record_keeps_candidate env cfg previous actor r s s' source : recordAtomicEnforcementResult env cfg previous actor r s = (None, s') ->
  zlen (STransactions s) < 100 -> rollback_candidate_row (transaction_row env (SNext s) previous actor r) = false ->
  head (sort_by later_transaction (List.filter rollback_candidate_row (STransactions s))) = Some source ->
  TrimSpace (TxTransactionID source) = TxTransactionID source ->
  head (sort_by later_transaction (List.filter rollback_candidate_row (STransactions s'))) = Some source
  /\ ListEnforcementTransactionSteps (TxTransactionID source) s' = ListEnforcementTransactionSteps (TxTransactionID source) s.
Proof.
  intros E Hlen Hno Hsource Htrim. assert (source ∈ STransactions s) as Hin.
  { destruct (sort_by later_transaction _) as [|x l] eqn:Es; [done|]. injection Hsource as ->.
    assert (source ∈ sort_by later_transaction (List.filter rollback_candidate_row (STransactions s))) as H by (rewrite Es; by left).
    rewrite sort_by_perm in H. apply list_elem_of_In, filter_In in H as [H _]. by apply list_elem_of_In. }
  unfold recordAtomicEnforcementResult, RecordEnforcementTransaction in E. cbv zeta in E. destruct (_ =? _)%string; [discriminate|]. destruct (TeFailing _ _); [discriminate|].
  case_bool_decide as Hnew; [discriminate|]. destruct (step_rows _ _ _) as [rows|] eqn:Er; [|discriminate]. injection E as <-.
  match goal with |- context [TrimEnforcementTransactionHistory ?a ?b ?s1] => destruct (trim_small a b s1) as [Ht Hs] end.
  { cbn [STransactions with_transactions]. unfold zlen in *. rewrite length_app. cbn. lia. }
  rewrite Ht. cbn [STransactions SSteps with_transactions] in Hs |- *. rewrite List.filter_app. cbn [List.filter]. rewrite Hno, app_nil_r. split; [done|].
  unfold ListEnforcementTransactionSteps. rewrite Htrim, Hs, List.filter_app.
  2: { rewrite fmap_app. apply elem_of_app. left. by apply list_elem_of_fmap_2. }
  rewrite (filter_false _ rows), app_nil_r; [done|]. eapply Forall_impl; [by eapply step_rows_id|]. intros row Hrow. cbn. rewrite Hrow. apply String.eqb_neq. intros Heq.
  apply Hnew. cbn [TxTransactionID transaction_row]. rewrite Heq. by apply list_elem_of_fmap_2.
Qed.

(** Rolling back twice does not go further back: after the rollback of the latest transaction the same transaction is the one that the
    next rollback undoes, so earlier transactions are never reached without naming them. *)
Theorem rollback_repeats (env env' : TxEnv) (cfg : TxConfig) (req : Request) (actor : string) (s s' : TxState) (r : TxResult) (source : TxRow) (steps : list StepRow) :
  TrimSpace (RqTransactionID req) = "" -> zlen (STransactions s) < 100 ->
  GetLatestEnforcementRollbackCandidate env s = Ok (Some (source, steps)) -> TrimSpace (TxTransactionID source) = TxTransactionID source ->
  RollbackAtomicEnforcement env cfg req actor s = (r, None, s') -> TeFailing env' QueryTransactions = None ->
  GetLatestEnforcementRollbackCandidate env' s' = Ok (Some (source, steps)).
Proof.
  intros Hreq Hlen Hlatest Htrim E Hq. unfold RollbackAtomicEnforcement in E. rewrite Hreq in E. cbn [String.eqb negb] in E. rewrite Hlatest in E.
  destruct (BuildAtomicEnforcementPlan _ _ _ _) as [plan|]; [|discriminate]. cbv zeta in E.
  destruct (rollback_steps actor 1 _ (SWorld s)) as [[done0 err] w]. destruct (if zlen _ =? 0 then _ else _) as [status message].
  unfold finish in E. destruct (recordAtomicEnforcementResult _ _ _ _ _ _) as [[e|] s1] eqn:Er; [discriminate|].
  assert (forall status text, STransactions (set_tx_status env status text s1) = STransactions s1 /\ SSteps (set_tx_status env status text s1) = SSteps s1) as Hset.
  { intros st text. unfold set_tx_status. by destruct (TeFailing env WriteTxStatus). }
  unfold GetLatestEnforcementRollbackCandidate in *. rewrite Hq. destruct (TeFailing env QueryTransactions); [discriminate|]. injection Hlatest as Hlatest.
  unfold with_steps in Hlatest. destruct (head _) as [found|] eqn:Eh; [|discriminate]. cbn in Hlatest. injection Hlatest as -> <-.
  destruct (record_keeps_candidate _ _ _ _ _ _ _ source Er) as [Hh Hl]; [done|done|exact Eh|done|]. cbn in Hl.
  assert (STransactions s' = STransactions s1 /\ SSteps s' = SSteps s1) as [Ht Hs] by (injection E as _ _ <-; apply Hset).
  rewrite Ht, Hh. unfold with_steps. cbn. do 3 f_equal. unfold ListEnforcementTransactionSteps in *. rewrite Hs. exact Hl.
Qed.
End names.
End contract.

(** ** The runtime firewall as a target *)

Section gateway.
Context {U : Unicode} {UL : UnicodeLaws} {NI : NetIP} {AS : AclStore} {RD : RulesetDigest} {N : Nft} {Q : Quote} {PD : TxPlanDigest}.

(** What the calls meet, one after the other *)
Variable envs : nat -> DbEnv.

(** The firewall, and the number of calls so far that changed it. *)
Record Gateway := mkGateway { GwFirewall : FwState; GwCalls : nat }.

Definition apply_report (r : ApplyResult) : TargetReport :=
  mkTargetReport (ArStatus r) (ArSnapshotID r) "" (ArPrevious r) (RulesetFingerprint (ArPlan r)) (ArMessage r).
Definition rollback_report (r : RollbackResult) : TargetReport :=
  mkTargetReport (RrStatus r) (RrSnapshotID r) (RrRestored r) (RrPrevious r) (RulesetFingerprint (RrPlan r)) (RrMessage r).

Definition firewall_ops : SnapshotOps Gateway := {|
  so_preview := fun w => (fun plan => mkPlanReport (Status plan) (PlMessage plan) (RulesetFingerprint plan)) <$> PreviewRuntimeFirewall (envs (GwCalls w)) (GwFirewall w);
  so_active := fun w =>
    (fun found : option Snapshot => (fun a => mkActiveReport (SnSnapshotID a) (SnFingerprint a) (SnPrevious a)) <$> found)
      <$> GetActiveRuntimeFirewallSnapshot (envs (GwCalls w)) (FwSnapshots (GwFirewall w));
  so_apply := fun actor w =>
    let '(r, err, fw) := ApplyRuntimeFirewall (envs (GwCalls w)) actor "apply" (GwFirewall w) in (apply_report r, err, mkGateway fw (S (GwCalls w)));
  so_rollback := fun id actor w =>
    let '(r, err, fw) := RollbackRuntimeFirewall (envs (GwCalls w)) id actor (GwFirewall w) in (rollback_report r, err, mkGateway fw (S (GwCalls w))) |}.

(** Targets that are not configured *)
Definition idle_ops : SnapshotOps Gateway := {|
  so_preview := fun _ => Ok (mkPlanReport "skipped" "not configured" ""); so_active := fun _ => Ok None;
  so_apply := fun _ w => (mkTargetReport "" "" "" "" "" "", Some "not configured", w);
  so_rollback := fun _ _ w => (mkTargetReport "" "" "" "" "" "", Some "not configured", w) |}.

(** A gateway with a firewall, and a controller that reports [push]. *)
Definition gateway_targets (push : option ControllerReport * option string) : Targets := {|
  World := Gateway; firewall_target := firewall_ops; qos_target := idle_ops; vlan_target := idle_ops; routes_target := idle_ops;
  controller_preview := fun _ => Ok "desired"; controller_status := fun _ => Ok None; controller_push := fun w => (push, w) |}.

Definition is_firewall (t : string) : bool := (t =? "runtime_firewall")%string.

Definition firewall_sound (w : Gateway) : Prop :=
  ledger_ok (FwSnapshots (GwFirewall w)) /\ Forall (fun r => SnCreatedAt r <= Clock (envs (GwCalls w))) (FwSnapshots (GwFirewall w)).

Definition find_snapshot (id : string) (rows : list Snapshot) : option Snapshot := List.find (fun r => (SnSnapshotID r =? TrimSpace id)%string) rows.

Context (push : option ControllerReport * option string).
#[local] Instance gateway_instance : Targets := gateway_targets push.

#[local] Instance gateway_states : TargetStates := {|
  live := fun t w => if is_firewall t then live_table (FwKernel (GwFirewall w)) else None;
  stored := fun t id w => if is_firewall t then SnRuleset <$> find_snapshot id (FwSnapshots (GwFirewall w)) else None;
  sound := fun t w => is_firewall t = true -> firewall_sound w;
  settled := fun t w => is_firewall t = true -> firewall_sound w /\ table_matches (GwFirewall w) |}.

(** Clocks do not run backwards, and identifiers are not blank. *)
Class EnvsOk : Prop := {
  clock_forward n : Clock (envs n) <= Clock (envs (S n));
  snapshot_ids n : TrimSpace (NewSnapshotID (envs n)) = NewSnapshotID (envs n) /\ NewSnapshotID (envs n) <> "";
}.

Section laws.
Context {DL : DigestLaws} {NL : NftLaws} {EO : EnvsOk}.

Lemma sound_timely w : firewall_sound w -> timely (envs (GwCalls w)) (GwFirewall w).
Proof. intros [_ Ht]. split; [done|]. apply snapshot_ids. Qed.

Lemma moved_sound w text fw err : firewall_sound w -> moved (envs (GwCalls w)) text (GwFirewall w) fw err -> firewall_sound (mkGateway fw (S (GwCalls w))).
Proof.
  intros [Hl Ht] Hm. assert (Forall (fun r => SnCreatedAt r <= Clock (envs (S (GwCalls w)))) (FwSnapshots (GwFirewall w))) as Ht'.
  { eapply Forall_impl; [exact Ht|]. intros r Hr. cbn in Hr |- *. pose proof (clock_forward (GwCalls w)). lia. }
  unfold firewall_sound. cbn [GwFirewall GwCalls]. destruct Hm as [_ Hs _|_ Hs _ _|_ Hs _ _|row _ Hs _ _ Hc _ Hl']; [by rewrite Hs..|].
  split; [done|]. rewrite Hs. apply Forall_app. split; [by apply Forall_fmap|]. apply Forall_singleton. rewrite Hc. apply clock_forward.
Qed.

Lemma find_by_id rows r : NoDup (SnSnapshotID <$> rows) -> r ∈ rows -> TrimSpace (SnSnapshotID r) = SnSnapshotID r -> find_snapshot (SnSnapshotID r) rows = Some r.
Proof.
  intros Hnd Hin Ht. unfold find_snapshot. rewrite Ht. induction rows as [|x rows IH]; [by apply not_elem_of_nil in Hin|]. cbn in Hnd |- *.
  apply NoDup_cons in Hnd as [Hx Hnd]. apply elem_of_cons in Hin as [->|Hin]; [by rewrite String.eqb_refl|].
  destruct (String.eqb_spec (SnSnapshotID x) (SnSnapshotID r)) as [E|]; [|by apply IH]. exfalso. apply Hx. rewrite E. by apply list_elem_of_fmap_2.
Qed.

Lemma firewall_name t ops : @snapshot_ops gateway_instance t = Some ops -> (is_firewall t = true /\ ops = firewall_ops) \/ (is_firewall t = false /\ ops = idle_ops).
Proof.
  unfold snapshot_ops, is_firewall. cbn. destruct (String.eqb_spec t "vlan_lifecycle") as [->|]; [intros [= <-]; by right|].
  destruct (String.eqb_spec t "subscriber_route_export") as [->|]; [intros [= <-]; by right|]. destruct (String.eqb_spec t "runtime_qos") as [->|]; [intros [= <-]; by right|].
  destruct (t =? "runtime_firewall")%string; [intros [= <-]; by left|discriminate].
Qed.

Lemma elsewhere_other t u (w w' : Gateway) : is_firewall t = true -> u <> t -> untouched u w w'.
Proof.
  intros Ht Hu. assert (is_firewall u = false) as Hf.
  { unfold is_firewall in *. apply String.eqb_eq in Ht as ->. by apply String.eqb_neq. }
  by split; cbn; rewrite Hf.
Qed.

(** The firewall keeps the contract of a target. *)
#[local] Instance gateway_laws : TargetLaws.
Proof.
  split.
  - intros t w H Ht. by apply H.
  - intros t ops actor w r w' Ho E Hset. destruct (firewall_name _ _ Ho) as [[Ht ->]|[_ ->]]; [|discriminate]. cbn in E, Hset |- *. rewrite Ht.
    destruct (Hset Ht) as [Hsound Hmatch]. destruct (ApplyRuntimeFirewall _ _ _ _) as [[res err] fw] eqn:Ea. injection E as <- -> <-.
    destruct (apply_moved _ _ _ _ _ _ _ Ea (proj1 Hsound) (sound_timely _ Hsound)) as [Hm Hr]. destruct (Hr eq_refl) as (_ & Hp & _ & _).
    split; [intros _; by eapply moved_sound|]. cbn [TrPrevious apply_report]. rewrite Hp. intros Hblank.
    destruct Hm as [| | |row _ Hs _ _ _ _ Hl']; [done..|]. cbn [GwFirewall]. rewrite Hs.
    assert (exists a, active_row (GwFirewall w) = Some a /\ activeRuntimeFirewallSnapshotID (envs (GwCalls w)) (FwSnapshots (GwFirewall w)) = SnSnapshotID a) as (a & Ha & Hid).
    { destruct (Failing (envs (GwCalls w)) QueryActive) eqn:Eq; [by unfold activeRuntimeFirewallSnapshotID, GetActiveRuntimeFirewallSnapshot in Hblank; rewrite Eq in Hblank|].
      rewrite (active_id _ _ (proj1 Hsound) Eq) in Hblank |- *. unfold active_row. destruct (last _) as [a|]; [by exists a|done]. }
    unfold table_matches in Hmatch. rewrite Hmatch, Ha, Hid. cbn [fmap option_fmap option_map].
    assert (deactivate a ∈ FwSnapshots fw) as Hin.
    { rewrite Hs. apply elem_of_app. left. apply list_elem_of_fmap_2. unfold active_row in Ha. apply last_Some in Ha as [old ->]. set_solver. }
    assert (row_ok (deactivate a)) as [[Htrim _] _ _ _] by (pose proof (lk_rows _ Hl') as HF; rewrite Forall_forall in HF; by apply HF).
    pose proof (find_by_id (FwSnapshots fw) (deactivate a) (lk_ids _ Hl') Hin Htrim) as Hfind. rewrite Hs in Hfind.
    change (SnSnapshotID (deactivate a)) with (SnSnapshotID a) in Hfind. by rewrite Hfind.
  - intros t ops actor w r err w' u Ho E Hu. destruct (firewall_name _ _ Ho) as [[Ht ->]|[_ ->]]; [by eapply elsewhere_other|]. by injection E as _ _ <-.
  - intros t ops id actor w r w' Ho E Hset Hid. destruct (firewall_name _ _ Ho) as [[Ht ->]|[_ ->]]; [|discriminate]. cbn in E, Hset |- *. rewrite Ht. specialize (Hset Ht).
    destruct (RollbackRuntimeFirewall _ _ _ _) as [[res err] fw] eqn:Ea. injection E as <- -> <-.
    destruct (rollback_moved _ _ _ _ _ _ _ Ea (proj1 Hset) (sound_timely _ Hset)) as [(_ & _ & H)|(target & Hsel & Hm & _)]; [done|].
    destruct Hm as [| | |row Hk _ _ _ _ _ _]; [done..|]. cbn [GwFirewall]. rewrite Hk. unfold selectRuntimeFirewallRollbackTarget, GetRuntimeFirewallSnapshot in Hsel. cbv zeta in Hsel.
    apply String.eqb_neq in Hid. rewrite TrimSpace_idem, Hid in Hsel. cbn [negb] in Hsel. destruct (Failing _ _); [discriminate|]. injection Hsel as Hsel.
    unfold find_snapshot. by rewrite Hsel.
  - intros t ops id actor w r err w' u Ho E Hu. destruct (firewall_name _ _ Ho) as [[Ht ->]|[_ ->]]; [by eapply elsewhere_other|]. by injection E as _ _ <-.
  - intros w r err w' u E. by injection E as _ <-.
Qed.

Lemma plan_statuses sessions : Status (buildRuntimeFirewallPlan sessions) ∈ ["blocked"; "degraded"; "ready"].
Proof.
  unfold buildRuntimeFirewallPlan. cbv zeta. match goal with |- context [runtimeFirewallPlanStatus ?d ?s] => destruct (runtimeFirewallPlanStatus d s) as [st m] eqn:E end. cbn [Status].
  unfold runtimeFirewallPlanStatus in E. cbv zeta in E. repeat split_if; injection E as <- _; repeat ((by left) || right).
Qed.

(** The preview of the firewall, when its queries succeed *)
Lemma firewall_previewed cfg w : Failing (envs (GwCalls w)) QuerySessions = None -> Failing (envs (GwCalls w)) QueryActive = None ->
  Status (buildRuntimeFirewallPlan (FwSessions (GwFirewall w))) <> "blocked" ->
  exists p, previewAtomicTarget (T := gateway_instance) cfg "runtime_firewall" w = Ok p /\ TpTarget p = "runtime_firewall" /\ TpEnabled p = true
    /\ (TpStatus p = "ready" \/ TpStatus p = "degraded").
Proof.
  intros Hq Ha Hst. unfold previewAtomicTarget. change (normalizeAtomicTarget "runtime_firewall") with "runtime_firewall". cbn [String.eqb].
  change (("runtime_firewall" =? "runtime_firewall")%string) with true. unfold previewAtomicRuntimeFirewall, PreviewRuntimeFirewall. cbn [firewall_target gateway_instance gateway_targets so_preview so_active firewall_ops].
  unfold PreviewRuntimeFirewall. rewrite Hq. unfold GetActiveRuntimeFirewallSnapshot. rewrite Ha. cbn [fmap result_fmap mbind result_bind]. unfold preview_with_snapshot. cbn [fmap result_fmap].
  eexists. split; [reflexivity|]. rewrite attach_target. split; [done|].
  assert (forall status, status = "ready" \/ status = "degraded" -> normalizeAtomicPlanStatus status = status) as Hnorm by (intros status [-> | ->]; reflexivity).
  assert (normalizeAtomicPlanStatus (Status (buildRuntimeFirewallPlan (FwSessions (GwFirewall w)))) = "ready"
          \/ normalizeAtomicPlanStatus (Status (buildRuntimeFirewallPlan (FwSessions (GwFirewall w)))) = "degraded") as Hs.
  { pose proof (plan_statuses (FwSessions (GwFirewall w))) as Hp. apply elem_of_cons in Hp as [Hp|Hp]; [done|].
    apply elem_of_cons in Hp as [->|Hp]; [by right|]. apply list_elem_of_singleton in Hp as ->. by left. }
  unfold attachAtomicDriftState. cbv zeta. cbn [TpStatus TpEnabled TpDesired TpActive PrStatus]. rewrite (Hnorm _ Hs).
  repeat split_if; cbn [TpEnabled TpStatus with_drift]; rewrite ?(Hnorm _ Hs); auto.
Qed.

Lemma single_plan p : TpStatus p = "ready" \/ TpStatus p = "degraded" ->
  XpStatus (finalizeAtomicEnforcementPlan [p] []) <> "skipped" /\ XpStatus (finalizeAtomicEnforcementPlan [p] []) <> "blocked".
Proof.
  intros Hps. unfold finalizeAtomicEnforcementPlan. cbv zeta. unfold plan_status, plan_summary. cbn [TsTargets TsSkipped TsBlocked].
  assert (forall status, status = "skipped" \/ status = "blocked" -> count_targets (status_is status) [p] = 0) as Hcount.
  { intros status Hs. unfold count_targets, status_is. cbn [List.filter]. by destruct Hps as [-> | ->], Hs as [-> | ->]. }
  rewrite !Hcount by auto. change (zlen [p] =? 0) with false. change (0 =? zlen [p]) with false. change (0 >? 0) with false. cbv iota.
  destruct (_ || _); by split.
Qed.

(** The target that fails is not part of the undoing: a transaction whose firewall load is refused by nft ends with an error and without
    compensation of the firewall, whatever the policy of rollbacks: no table is left, while the ledger shows the old snapshot as active. *)
Theorem failed_firewall_left_open (env : TxEnv) (cfg : TxConfig) (req : Request) (actor : string) (s s' : TxState) (r : TxResult) (err : option string)
    (a : Snapshot) k1 :
  TcEnabled cfg = true -> RqTargets req = ["runtime_firewall"] -> TeContext env "runtime_firewall" = None ->
  firewall_sound (SWorld s) -> active_row (GwFirewall (SWorld s)) = Some a ->
  Failing (envs (GwCalls (SWorld s))) QuerySessions = None -> Failing (envs (GwCalls (SWorld s))) QueryActive = None ->
  Status (buildRuntimeFirewallPlan (FwSessions (GwFirewall (SWorld s)))) <> "blocked" ->
  resetRuntimeFirewallTable (FwKernel (GwFirewall (SWorld s))) = (None, k1) ->
  (nft_load (Ruleset (buildRuntimeFirewallPlan (FwSessions (GwFirewall (SWorld s))))) k1).1 <> None ->
  ApplyAtomicEnforcement env cfg req actor s = (r, err, s') ->
  err <> None /\ XrStatus r <> "compensated" /\ live_table (FwKernel (GwFirewall (SWorld s'))) = None /\ active_row (GwFirewall (SWorld s')) = Some a.
Proof.
  intros Hen Hreq Hctx Hsound Ha Hq Hqa Hst Hreset Hload E. destruct (firewall_previewed cfg (SWorld s) Hq Hqa Hst) as (p & Hp & Ht & Hon & Hps).
  assert (atomicTargetOrder cfg (RqTargets req) = ["runtime_firewall"]) as Horder by (rewrite Hreq; reflexivity).
  unfold ApplyAtomicEnforcement in E. destruct (BuildAtomicEnforcementPlan _ _ _ _) as [plan|e] eqn:Eb.
  2: { exfalso. revert Eb. unfold BuildAtomicEnforcementPlan. cbv zeta. rewrite Horder, Hen. cbn [negb firstSome]. rewrite Hctx. discriminate. }
  assert (plan = finalizeAtomicEnforcementPlan [p] []) as ->.
  { revert Eb. unfold BuildAtomicEnforcementPlan. cbv zeta. rewrite Horder, Hen. cbn [negb firstSome]. rewrite Hctx. unfold plan_target. cbn [fmap list_fmap]. rewrite Hp. by intros [= <-]. }
  assert (XpStatus (finalizeAtomicEnforcementPlan [p] []) <> "skipped" /\ XpStatus (finalizeAtomicEnforcementPlan [p] []) <> "blocked") as [Hns Hnb].
  { by apply single_plan. }
  assert (XpTargets (finalizeAtomicEnforcementPlan [p] []) = [p]) as Htargets by (unfold finalizeAtomicEnforcementPlan; cbv zeta; by destruct (plan_status _ _)).
  apply String.eqb_neq in Hns, Hnb. cbv zeta in E. rewrite Hns, Hnb, Htargets in E. cbn [andb apply_targets] in E.
  assert (shouldSkipAtomicTargetApply p = false) as Hskip.
  { unfold shouldSkipAtomicTargetApply. rewrite Hon. by destruct Hps as [-> | ->]. }
  rewrite Hskip, Ht in E. change (@atomicParticipantMap gateway_instance "runtime_firewall") with (Some (snapshot_participant (T := gateway_instance) "runtime_firewall" firewall_ops)) in E.
  cbn [PtApply snapshot_participant] in E. unfold apply_snapshot_target in E. cbn [so_apply firewall_ops] in E.
  destruct (ApplyRuntimeFirewall (envs (GwCalls (SWorld s))) actor "apply" (GwFirewall (SWorld s))) as [[res ferr] fw] eqn:Ef.
  destruct (failed_load _ _ _ _ _ _ _ _ (proj1 Hsound) Ha Hq Hst Hreset Hload Ef) as (Hferr & _ & Hopen & Hrow & _). destruct ferr as [fe|]; [|done].
  unfold compensate_failure in E. cbn [compensateAtomicEnforcement reverse] in E.
  assert (forall auto : bool, (if auto then (let '(compensations, w) := compensateAtomicEnforcement (T := gateway_instance) actor [] (mkGateway fw (S (GwCalls (SWorld s)))) in
    if atomicCompensationFailed compensations then ("failed", fe +:+ "; compensation failed", compensations, w)
    else if zlen compensations >? 0 then ("compensated", fe +:+ "; applied targets were rolled back", compensations, w) else ("failed", fe, compensations, w))
    else ("failed", fe, [], mkGateway fw (S (GwCalls (SWorld s))))) = ("failed", fe, [], mkGateway fw (S (GwCalls (SWorld s))))) as Hcomp by by intros [].
  rewrite Hcomp in E. clear Hcomp. apply finish_result in E as [Hw Hr]. cbn [SWorld with_world] in Hw. rewrite Hw. cbn [GwFirewall].
  destruct Hr as [[-> ->]|[-> Hne]]; by split_and!.
Qed.
End laws.
End gateway.

(** ** Witnesses *)

#[local] Existing Instances text_ip example_store short_digest plain_quote example_store_laws short_digest_laws good_laws picky_laws.
#[local] Instance plain_digest : TxPlanDigest := fun targets => Join (TpDesired <$> targets) ",".

(** The environments of a gateway's first calls *)
Definition calls (n : nat) : DbEnv := match n with O => env_at 1 | 1%nat => env_at 2 | 2%nat => env_at 3 | _ => env_at 4 end.
#[local] Instance calls_ok : EnvsOk calls.
Proof. split; intros [|[|[|n]]]; cbn; try lia; (split; [vm_compute; reflexivity|discriminate]). Qed.

Definition failing_push : option ControllerReport * option string := (Some (mkControllerReport "d" "o" false 0 1), None).
Definition fine_push : option ControllerReport * option string := (Some (mkControllerReport "d" "d" false 0 0), None).
Definition example_config : TxConfig := mkTxConfig true true [] true false false 0 0 false true.
Definition example_request : Request := mkRequest ["controller"; " Firewall"; "runtime_firewall"] "" true.
Definition example_env (n : Z) : TxEnv := mkTxEnv n ("enf-" +:+ Itoa n) (fun t => "drift-" +:+ t) (fun _ => None) (fun _ => None).

Definition tx_state (N : Nft) (push : option ControllerReport * option string) (fw : FwState (N := N)) : TxState (T := gateway_targets (N := N) calls push) :=
  mkTxState (T := gateway_targets (N := N) calls push) (mkGateway (N := N) fw 1) [] [] [] 1 1 1 None.

(** A firewall with one snapshot, and a session quarantined since *)
Definition settled_fw : FwState (N := good) := with_sessions [guest; locked] fw1.
Definition settled_tx := tx_state good failing_push settled_fw.

Lemma settled_history (N : Nft) (HL : NftLaws (N := N)) k : live_table (Nft := N) k = None -> timely_b (N := N) 1 (fw0 k [guest]) = true ->
  ledger_ok (FwSnapshots (with_sessions [guest; locked] (apply_at (N := N) 1 (fw0 k [guest])).2)).
Proof.
  intros Hk Ht. apply (history_ok false (fw0 (N := N) k [guest])); [by split|]. eapply rtc_l; [|apply rtc_once, step_sessions].
  eapply (step_apply false (env_at 1) "admin" "apply"); [apply result_eta|by apply timely_at|discriminate].
Qed.

Lemma settled_sound_fw : firewall_sound (N := good) calls (SWorld settled_tx).
Proof.
  unfold firewall_sound, settled_tx, tx_state. cbn [SWorld GwFirewall GwCalls]. split; [apply (settled_history good); [exact good_laws|reflexivity|vm_compute; reflexivity]|]. apply Forall_forall. intros r Hr.
  apply list_elem_of_In in Hr. assert (forallb (fun r => SnCreatedAt r <=? Clock (calls 1)) (FwSnapshots settled_fw) = true) as H by (vm_compute; reflexivity).
  rewrite forallb_forall in H. by apply Z.leb_le, H.
Qed.

Definition apply_tx (n : Z) {T : Targets} (s : TxState) : Outcome := ApplyAtomicEnforcement (example_env n) example_config example_request "admin" s.

Lemma targets_in_dependency_order_witness : exists plan, BuildAtomicEnforcementPlan (T := gateway_targets calls failing_push) (fun _ => None) example_config
    (RqTargets example_request) (SWorld settled_tx) = Ok plan /\ NoDup (TpTarget <$> XpTargets plan).
Proof.
  destruct (BuildAtomicEnforcementPlan (T := gateway_targets calls failing_push) (fun _ => None) example_config (RqTargets example_request) (SWorld settled_tx)) as [plan|e] eqn:E.
  - exists plan. split; [reflexivity|]. apply (targets_in_dependency_order (T := gateway_targets calls failing_push) _ _ _ _ _ E).
  - exfalso. vm_compute in E. discriminate E.
Defined.

Lemma result_eta4 {A B C D} (t : A * B * C * D) : t = (t.1.1.1, t.1.1.2, t.1.2, t.2).
Proof. by destruct t as [[[]]]. Qed.

Lemma apply_tx_eta {T : Targets} n (s : TxState) : ApplyAtomicEnforcement (example_env n) example_config example_request "admin" s
  = ((apply_tx n s).1.1, (apply_tx n s).1.2, (apply_tx n s).2).
Proof. apply result_eta. Qed.
Lemma apply_tx_err {T : Targets} n (s : TxState) e : (apply_tx n s).1.2 = Some e ->
  ApplyAtomicEnforcement (example_env n) example_config example_request "admin" s = ((apply_tx n s).1.1, Some e, (apply_tx n s).2).
Proof. rewrite (apply_tx_eta n s). by intros ->. Qed.

Lemma blocked_target_stops_all_witness :
  let s := tx_state good failing_push (with_sessions [guest; no_address] fw1) in
  SWorld (apply_tx 1 s).2 = SWorld s /\ (apply_tx 1 s).1.2 <> None.
Proof.
  cbv zeta. set (s := tx_state good failing_push (with_sessions [guest; no_address] fw1)).
  destruct (BuildAtomicEnforcementPlan (T := gateway_targets calls failing_push) (fun _ => None) example_config (RqTargets example_request) (SWorld s)) as [plan|e] eqn:E.
  2: { exfalso. vm_compute in E. discriminate E. }
  assert (exists t, t ∈ XpTargets plan /\ TpStatus t = "blocked") as (t & Ht & Hst).
  { assert (existsb (fun t => (TpStatus t =? "blocked")%string) (XpTargets plan) = true) as H.
    { apply (f_equal (fun r => match r with Ok plan => existsb (fun t => (TpStatus t =? "blocked")%string) (XpTargets plan) | Err _ => false end)) in E.
      rewrite <- E. vm_compute. reflexivity. }
    apply existsb_exists in H as (t & Ht & Hst). exists t. split; [by apply list_elem_of_In|by apply String.eqb_eq]. }
  unfold apply_tx. exact (proj2 (proj2 (blocked_target_stops_all (T := gateway_targets calls failing_push) (example_env 1) example_config example_request "admin" s plan t)) E Ht Hst eq_refl).
Defined.

Definition dummy_step : Step := failedAtomicStep 0 (skippedAtomicTarget "" "") "".
Definition first_step (r : TxResult) : Step := default dummy_step (XrSteps r !! 0%nat).

Lemma first_step_in r : is_Some (XrSteps r !! 0%nat) -> first_step r ∈ XrSteps r.
Proof. intros [step H]. unfold first_step. rewrite H. by eapply list_elem_of_lookup_2. Qed.

Opaque apply_tx.

Lemma apply_targets_err {T : Targets} actor n targets w e : (apply_targets actor n targets w).1.2 = Some e ->
  apply_targets actor n targets w = ((apply_targets actor n targets w).1.1.1, (apply_targets actor n targets w).1.1.2, Some e, (apply_targets actor n targets w).2).
Proof. intros <-. apply result_eta4. Qed.

(** A first deployment: there is no snapshot yet. *)
Definition first_tx := tx_state good failing_push (fw0 (N := good) None [guest]).
Definition first_plan : TxPlan := match BuildAtomicEnforcementPlan (T := gateway_targets calls failing_push) (fun _ => None) example_config (RqTargets example_request) (SWorld first_tx) with Ok plan => plan | Err _ => no_tx_plan end.
Definition first_apply := apply_targets (T := gateway_targets calls failing_push) "admin" 1 (XpTargets first_plan) (SWorld first_tx).

Lemma compensated_without_rollback_witness : SWorld (apply_tx 1 first_tx).2 = first_apply.2 /\ XrStatus (apply_tx 1 first_tx).1.1 = "compensated"
  /\ XrMessage (apply_tx 1 first_tx).1.1 = default "" first_apply.1.2 +:+ "; applied targets were rolled back".
Proof.
  apply (compensated_without_rollback (T := gateway_targets calls failing_push) (TS := gateway_states calls failing_push) (TL := gateway_laws calls failing_push)
      (example_env 1) example_config example_request "admin" (default "" first_apply.1.2) first_tx (apply_tx 1 first_tx).2 (apply_tx 1 first_tx).1.1 (apply_tx 1 first_tx).1.2
      first_plan first_apply.1.1.1 first_apply.1.1.2 first_apply.2).
  - vm_compute. reflexivity.
  - vm_compute. discriminate.
  - vm_compute. discriminate.
  - apply (apply_targets_err (T := gateway_targets calls failing_push)). vm_compute. reflexivity.
  - vm_compute. discriminate.
  - vm_compute. by repeat constructor.
  - reflexivity.
  - apply (apply_tx_eta (T := gateway_targets calls failing_push)).
  - vm_compute. reflexivity.
Defined.

(** A transaction that is applied and rolled back *)
Definition applied_tx : TxState := (apply_tx (T := gateway_targets calls fine_push) 1 (tx_state good fine_push settled_fw)).2.
Definition rollback_request : Request := mkRequest [] "" false.
Definition rolled_back : Outcome := RollbackAtomicEnforcement (T := gateway_targets calls fine_push) (example_env 2) example_config rollback_request "admin" applied_tx.
Definition candidate {T : Targets} (n : Z) (s : TxState) : option (TxRow * list StepRow) :=
  match GetLatestEnforcementRollbackCandidate (example_env n) s with Ok found => found | Err _ => None end.
Definition dummy_row : TxRow := transaction_row (example_env 0) 0 "" "" no_result.

Lemma candidate_some {T : Targets} n (s : TxState) x : is_Some (candidate n s) ->
  GetLatestEnforcementRollbackCandidate (example_env n) s = Ok (Some ((default (x, []) (candidate n s)).1, (default (x, []) (candidate n s)).2)).
Proof. unfold candidate. destruct (GetLatestEnforcementRollbackCandidate (example_env n) s) as [[[]|]|]; intros [? H]; try discriminate H. reflexivity. Qed.

Lemma rolled_back_ok : rolled_back.1.2 = None -> RollbackAtomicEnforcement (T := gateway_targets calls fine_push) (example_env 2) example_config rollback_request "admin" applied_tx
  = (rolled_back.1.1, None, rolled_back.2).
Proof. exact (result_ok (RollbackAtomicEnforcement (T := gateway_targets calls fine_push) (example_env 2) example_config rollback_request "admin" applied_tx)). Qed.

Opaque rolled_back applied_tx.
Lemma rollback_repeats_witness : GetLatestEnforcementRollbackCandidate (T := gateway_targets calls fine_push) (example_env 3) rolled_back.2
  = Ok (Some ((default (dummy_row, []) (candidate 2 applied_tx)).1, (default (dummy_row, []) (candidate 2 applied_tx)).2)).
Proof.
  apply (rollback_repeats (T := gateway_targets calls fine_push) (example_env 2) (example_env 3) example_config rollback_request "admin" applied_tx rolled_back.2 rolled_back.1.1
           (default (dummy_row, []) (candidate 2 applied_tx)).1 (default (dummy_row, []) (candidate 2 applied_tx)).2).
  - reflexivity.
  - vm_compute. reflexivity.
  - apply (candidate_some (T := gateway_targets calls fine_push)). vm_compute. by eexists.
  - vm_compute. reflexivity.
  - apply rolled_back_ok. vm_compute. reflexivity.
  - reflexivity.
Defined.

(** A transaction whose load is refused by nft *)
Definition refused_tx := tx_state picky fine_push (with_sessions [guest; locked] unlucky).
Definition firewall_request : Request := mkRequest ["runtime_firewall"] "" true.
Definition refused : Outcome := ApplyAtomicEnforcement (T := gateway_targets (N := picky) calls fine_push) (example_env 1) example_config firewall_request "admin" refused_tx.

Lemma refused_sound : firewall_sound (N := picky) calls (SWorld refused_tx).
Proof.
  unfold firewall_sound, refused_tx, tx_state. cbn [SWorld GwFirewall GwCalls]. split; [apply (settled_history picky); [exact picky_laws|reflexivity|vm_compute; reflexivity]|]. apply Forall_forall. intros r Hr.
  apply list_elem_of_In in Hr. assert (forallb (fun r => SnCreatedAt r <=? Clock (calls 1)) (FwSnapshots (with_sessions [guest; locked] unlucky)) = true) as H by (vm_compute; reflexivity).
  rewrite forallb_forall in H. by apply Z.leb_le, H.
Qed.

Lemma refused_eta : ApplyAtomicEnforcement (T := gateway_targets (N := picky) calls fine_push) (example_env 1) example_config firewall_request "admin" refused_tx
  = (refused.1.1, refused.1.2, refused.2).
Proof. exact (result_eta (ApplyAtomicEnforcement (T := gateway_targets (N := picky) calls fine_push) (example_env 1) example_config firewall_request "admin" refused_tx)). Qed.

Opaque refused.
Lemma failed_firewall_left_open_witness : refused.1.2 <> None /\ XrStatus refused.1.1 <> "compensated"
  /\ live_table (Nft := picky) (FwKernel (GwFirewall (N := picky) (SWorld refused.2))) = None /\ active_row (GwFirewall (N := picky) (SWorld refused.2)) = active_row unlucky.
Proof.
  apply (failed_firewall_left_open (N := picky) calls fine_push (example_env 1) example_config firewall_request "admin" refused_tx refused.2 refused.1.1 refused.1.2
           (default no_row (active_row unlucky)) (resetRuntimeFirewallTable (N := picky) (FwKernel unlucky)).2).
  - reflexivity.
  - reflexivity.
  - reflexivity.
  - exact refused_sound.
  - vm_compute. reflexivity.
  - reflexivity.
  - reflexivity.
  - vm_compute. discriminate.
  - vm_compute. reflexivity.
  - vm_compute. discriminate.
  - exact refused_eta.
Defined.
