(* ===== verification/VsaCodec.v ===== *)
(** * The codec of vendor-specific RADIUS attributes ([internal/radius/vsa_codec.go])

    A Vendor-Specific attribute carries a vendor id and a payload of vendor attributes, whose type and
    length fields have widths that the vendor's format gives. The decoder splits payloads, takes tags
    off, and descends into grouped attributes; the encoder writes one attribute. RADIUS packets are
    those of the library [layeh.com/radius], whose [VendorSpecific] and [NewVendorSpecific] are
    parameters. *)

From S2P Require Import Prelude GoStrings Bytes.
From Stdlib Require Import Ascii.

Definition maxVendorPayloadLen : Z := 249.
Definition maxVendorTypeValue : Z := 4294967295.

Record VendorAttributeFormat := mkFormat { TypeOctets : Z; LengthOctets : Z }.
#[export] Instance VendorAttributeFormat_eq_dec : EqDecision VendorAttributeFormat.
Proof. solve_decision. Defined.

Record VendorAttributeSpec := mkSpec {
  SpVendorID : Z; SpType : Z; SpOIDPath : list Z; SpWireType : string; SpHasTag : bool; SpFormat : VendorAttributeFormat }.

Record DecodedVendorAttribute := mkDecoded {
  DVendorID : Z; DType : Z; DOIDPath : list Z; DWireType : string; DValue : list Z; DRaw : list Z; DHasTag : bool; DTag : Z;
  DGrouped : bool; DOuterIndex : Z; DInnerIndex : Z; DFormat : VendorAttributeFormat }.

Inductive vsa_error :=
| InvalidFormatOption (option : string)
| InvalidTypeOctets (text : string)
| InvalidLengthOctets (text : string)
| TypeOctetsRange
| LengthOctetsRange
| HeaderExceedsPayload
| NotVendorSpecific (outerIndex : Z) (why : string)
| TypeRequired
| TypeExceedsFormat (typ typeOctets : Z)
| TagRequiresValue
| TagRange
| AttributeTooLong (typ total : Z)
| LengthExceedsField (typ total lengthOctets : Z)
| LibraryError (why : string)
| GroupTooDeep (vendorID : Z)
| ShorterThanHeader (vendorID offset header : Z)
| InvalidLength (vendorID typ length : Z)
| LengthExceedsRemaining (vendorID typ length remaining : Z)
| TaggedValueEmpty (vendorID typ : Z)
| TagOutsideRange (vendorID typ tag : Z)
| FuelExhausted.

(** ** Formats *)

Definition DefaultVendorAttributeFormat : VendorAttributeFormat := mkFormat 1 1.
Definition headerLen (f : VendorAttributeFormat) : Z := TypeOctets f + LengthOctets f.

Definition Validate (f : VendorAttributeFormat) : result vsa_error unit :=
  if negb ((TypeOctets f =? 1) || (TypeOctets f =? 2) || (TypeOctets f =? 4)) then Err TypeOctetsRange
  else if negb ((LengthOctets f =? 0) || (LengthOctets f =? 1) || (LengthOctets f =? 2)) then Err LengthOctetsRange
  else if headerLen f >? maxVendorPayloadLen then Err HeaderExceedsPayload
  else Ok ().

Definition normalized_format (f : VendorAttributeFormat) : VendorAttributeFormat :=
  if is_Ok (Validate f) then f else DefaultVendorAttributeFormat.

Definition TrimSuffix (s p : string) : string :=
  if HasSuffix s p then String.substring 0 (String.length s - String.length p) s else s.

Section Codec.
Context `{Unicode}.

Definition format_option (format : VendorAttributeFormat) (option : string) : result vsa_error VendorAttributeFormat :=
  let option := TrimSpace (TrimSuffix option ",") in
  if negb (HasPrefix (ToLower option) "format=") then Ok format
  else match SplitChar (TrimPrefix option "format=") ","%char with
  | [types; lengths] =>
      match Atoi types with
      | None => Err (InvalidTypeOctets types)
      | Some typeOctets => match Atoi lengths with
                           | None => Err (InvalidLengthOctets lengths)
                           | Some lengthOctets => Ok (mkFormat typeOctets lengthOctets)
                           end
      end
  | _ => Err (InvalidFormatOption option)
  end.

Definition ParseVendorAttributeFormatOptions (options : list string) : result vsa_error VendorAttributeFormat :=
  format ← foldl (fun format option => format ≫= (fun f => format_option f option)) (Ok DefaultVendorAttributeFormat) options;
  _ ← Validate format;
  Ok format.

(** ** Integers and paths *)

Definition readUint (value : list Z) : Z :=
  match value with
  | [b0] => b0
  | [b0; b1] => Uint16 b0 b1
  | [b0; b1; b2; b3] => Uint32 b0 b1 b2 b3
  | _ => foldl (fun out b => Z.lor (to_uint32 (Z.shiftl out 8)) b) 0 value
  end.

(** [writeUint(dst, value)]: what a slice of so many octets holds afterwards. *)
Definition writeUint (octets : Z) (value : Z) : list Z :=
  if octets =? 1 then [to_byte value]
  else if octets =? 2 then PutUint16 (to_uint16 value)
  else if octets =? 4 then PutUint32 value
  else map (fun i => to_byte (Z.shiftr value (8 * (octets - 1 - Z.of_nat i)))) (seq 0 (Z.to_nat octets)).

Definition maxTypeForOctets (octets : Z) : Z :=
  if octets =? 1 then 255 else if octets =? 2 then 65535 else maxVendorTypeValue.

Definition normalizeOIDPath (typ : Z) (oid : list Z) : list Z :=
  match oid with
  | [] => if typ =? 0 then [] else [typ]
  | _ => if existsb (fun value => value =? 0) oid then [] else oid
  end.

Fixpoint hasOIDPrefix_from (oid prefix : list Z) : bool :=
  match prefix, oid with
  | [], _ => true
  | p :: prefix', o :: oid' => (o =? p) && hasOIDPrefix_from oid' prefix'
  | _ :: _, [] => false
  end.

Definition hasOIDPrefix (oid prefix : list Z) : bool :=
  match prefix with [] => false | _ => hasOIDPrefix_from oid prefix end.

Definition normalized_spec (s : VendorAttributeSpec) : VendorAttributeSpec :=
  let oid := normalizeOIDPath (SpType s) (SpOIDPath s) in
  mkSpec (SpVendorID s) (if (SpType s =? 0) then match oid with o :: _ => o | [] => SpType s end else SpType s)
    oid (lower_trim (SpWireType s)) (SpHasTag s) (normalized_format (SpFormat s)).

Definition normalizeVendorAttributeSpecs (specs : list VendorAttributeSpec) : list VendorAttributeSpec :=
  List.filter (fun s => negb ((SpVendorID s =? 0) || (SpType s =? 0))) (map normalized_spec specs).

Definition formatForVendor (specs : list VendorAttributeSpec) (vendorID : Z) (fallback : VendorAttributeFormat) : VendorAttributeFormat :=
  match List.find (fun s => SpVendorID s =? vendorID) specs with
  | Some s => normalized_format (SpFormat s)
  | None => normalized_format fallback
  end.

Definition firstSpecForType (specs : list VendorAttributeSpec) (vendorID typ : Z) (parentOID : list Z) : VendorAttributeSpec :=
  match List.find (fun s => (SpVendorID s =? vendorID) && (SpType s =? typ)
                            && match parentOID with [] => zlen (SpOIDPath s) <=? 1 | _ => hasOIDPrefix (SpOIDPath s) parentOID end) specs with
  | Some s => s
  | None => mkSpec vendorID typ [] "" false DefaultVendorAttributeFormat
  end.

Definition shouldDecodeGrouped (record : DecodedVendorAttribute) (specs : list VendorAttributeSpec) : bool :=
  match DValue record with
  | [] => false
  | _ =>
      if EqualFold (DWireType record) "string" then false
      else bool_decide (DWireType record ∈ ["tlv"; "group"; "struct"; "vsa"; "vendor"]%string)
           || existsb (fun s => (SpVendorID s =? DVendorID record) && (zlen (SpOIDPath s) >? zlen (DOIDPath record))
                                && hasOIDPrefix (SpOIDPath s) (DOIDPath record)) specs
  end.

(** ** Decoding *)

Definition splitTaggedValue (vendorID typ : Z) (value : list Z) : result vsa_error (Z * list Z) :=
  match value with
  | [] => Err (TaggedValueEmpty vendorID typ)
  | tag :: value' => if tag >? 31 then Err (TagOutsideRange vendorID typ tag) else Ok (tag, value')
  end.

Section Payload.
Context (vendorID : Z) (format : VendorAttributeFormat) (specs : list VendorAttributeSpec) (outerIndex : Z) (grouped : bool)
  (parentOID : list Z) (children : list Z -> list Z -> list DecodedVendorAttribute * list vsa_error).

(** One turn of the loop at the rest of the payload: the record and the octets it takes. *)
Definition decode_one (rest : list Z) (offset innerIndex : Z) : result vsa_error (DecodedVendorAttribute * Z) :=
  if zlen rest <? headerLen format then Err (ShorterThanHeader vendorID offset (headerLen format))
  else
    let typ := readUint (take (Z.to_nat (TypeOctets format)) rest) in
    let length :=
      if LengthOctets format >? 0
      then readUint (take (Z.to_nat (LengthOctets format)) (drop (Z.to_nat (TypeOctets format)) rest)) else zlen rest in
    if (LengthOctets format >? 0) && (length <? headerLen format) then Err (InvalidLength vendorID typ length)
    else if (LengthOctets format >? 0) && (length >? zlen rest) then Err (LengthExceedsRemaining vendorID typ length (zlen rest))
    else
      let raw := take (Z.to_nat length) rest in
      let value := drop (Z.to_nat (headerLen format)) raw in
      let spec := firstSpecForType specs vendorID typ parentOID in
      '(tag, value) ← (if SpHasTag spec then splitTaggedValue vendorID typ value else Ok (0, value));
      let oid := match SpOIDPath spec with [] => parentOID ++ [typ] | path => path end in
      Ok (mkDecoded vendorID typ oid (SpWireType spec) value raw (SpHasTag spec) tag grouped outerIndex innerIndex format, length).

Fixpoint decode_loop (fuel : nat) (rest : list Z) (offset innerIndex : Z) : list DecodedVendorAttribute * list vsa_error :=
  match fuel with
  | O => ([], [FuelExhausted])
  | S fuel' =>
      match rest with
      | [] => ([], [])
      | _ =>
          match decode_one rest offset innerIndex with
          | Err e => ([], [e])
          | Ok (record, length) =>
              let '(inner, innerErrs) := if shouldDecodeGrouped record specs then children (DValue record) (DOIDPath record) else ([], []) in
              let '(later, laterErrs) :=
                if LengthOctets format =? 0 then ([], [])
                else decode_loop fuel' (drop (Z.to_nat length) rest) (offset + length) (innerIndex + 1) in
              (record :: inner ++ later, innerErrs ++ laterErrs)
          end
      end
  end.
End Payload.

(** [decodeVendorPayload] at depth [5 - levels]: depths 0 to 4 decode, 5 fails. *)
Fixpoint decodeVendorPayload (levels : nat) (vendorID : Z) (payload : list Z) (format : VendorAttributeFormat)
    (specs : list VendorAttributeSpec) (outerIndex : Z) (grouped : bool) (parentOID : list Z)
    : list DecodedVendorAttribute * list vsa_error :=
  match levels with
  | O => ([], [GroupTooDeep vendorID])
  | S levels' =>
      match Validate format with
      | Err e => ([], [e])
      | Ok _ =>
          decode_loop vendorID format specs outerIndex grouped parentOID
            (fun value oid => decodeVendorPayload levels' vendorID value DefaultVendorAttributeFormat specs outerIndex true oid)
            (S (length payload)) payload 0 0
      end
  end.

Definition all_levels : nat := 5.

(** ** Packets *)

(** The library's view of a Vendor-Specific attribute: its vendor id and payload, and how one is made. *)
Class VendorSpecificAttributes := {
  VendorSpecific : list Z -> result string (Z * list Z);
  NewVendorSpecific : Z -> list Z -> result string (list Z);
}.

(** What is made reads back. *)
Class VendorSpecificLaws `{VendorSpecificAttributes} : Prop := {
  VendorSpecific_New vendorID value attribute : NewVendorSpecific vendorID value = Ok attribute -> VendorSpecific attribute = Ok (vendorID, value);
}.

Context `{VendorSpecificAttributes}.

Definition VendorSpecific_Type : Z := 26.

(** The attributes of a packet: type and contents, in order. *)
Abbreviation Packet := (list (Z * list Z)).

Fixpoint decode_attributes (vendor : Z) (format : VendorAttributeFormat) (specs : list VendorAttributeSpec) (packet : Packet) (outerIndex : Z)
    : list DecodedVendorAttribute * list vsa_error :=
  match packet with
  | [] => ([], [])
  | (type, attribute) :: packet' =>
      let '(later, laterErrs) := decode_attributes vendor format specs packet' (outerIndex + 1) in
      if negb (type =? VendorSpecific_Type) then (later, laterErrs)
      else match VendorSpecific attribute with
      | Err why => (later, NotVendorSpecific outerIndex why :: laterErrs)
      | Ok (vendorID, payload) =>
          if (vendor >? 0) && negb (vendorID =? vendor) then (later, laterErrs)
          else let '(decoded, errs) := decodeVendorPayload all_levels vendorID payload (formatForVendor specs vendorID format) specs outerIndex false [] in
               (decoded ++ later, errs ++ laterErrs)
      end
  end.

(** [VSADecodeOptions] *)
Record VSADecodeOptions := mkOptions { OptVendorID : Z; OptFormat : VendorAttributeFormat; OptSpecs : list VendorAttributeSpec }.

(** [DecodeVendorAttributes] of a packet that is there *)
Definition DecodeVendorAttributes (packet : Packet) (opts : VSADecodeOptions) : list DecodedVendorAttribute * list vsa_error :=
  decode_attributes (OptVendorID opts) (normalized_format (OptFormat opts)) (normalizeVendorAttributeSpecs (OptSpecs opts)) packet 0.

Definition LookupVendorAttributeValues (packet : Packet) (vendorID typ : Z) : list (list Z) :=
  map DValue (List.filter (fun attr => negb (DGrouped attr || negb (DType attr =? typ)))
    (DecodeVendorAttributes packet (mkOptions vendorID (mkFormat 0 0) [])).1).

Definition LookupVendorAttributeValue (packet : Packet) (vendorID typ : Z) : option (list Z) :=
  match LookupVendorAttributeValues packet vendorID typ with [] => None | value :: _ => Some value end.

(** ** Encoding *)

Definition EncodeVendorAttribute (spec : VendorAttributeSpec) (value : list Z) : result vsa_error (list Z) :=
  let spec := normalized_spec spec in
  let format := SpFormat spec in
  if SpType spec =? 0 then Err TypeRequired
  else if (SpType spec >? maxTypeForOctets (TypeOctets format)) || (SpType spec >? maxVendorTypeValue)
  then Err (TypeExceedsFormat (SpType spec) (TypeOctets format))
  else
    _ ← (if SpHasTag spec then match value with [] => Err TagRequiresValue | tag :: _ => if tag >? 31 then Err TagRange else Ok () end else Ok ());
    let totalLen := headerLen format + zlen value in
    if totalLen >? maxVendorPayloadLen then Err (AttributeTooLong (SpType spec) totalLen)
    else if (LengthOctets format >? 0) && (totalLen >? maxTypeForOctets (LengthOctets format))
    then Err (LengthExceedsField (SpType spec) totalLen (LengthOctets format))
    else Ok (writeUint (TypeOctets format) (SpType spec)
             ++ (if LengthOctets format >? 0 then writeUint (LengthOctets format) totalLen else []) ++ value).

Definition AddVendorAttributeWithSpec (packet : Packet) (spec : VendorAttributeSpec) (value : list Z) : result vsa_error Packet :=
  let spec := normalized_spec spec in
  encoded ← EncodeVendorAttribute spec value;
  match NewVendorSpecific (SpVendorID spec) encoded with
  | Err why => Err (LibraryError why)
  | Ok vsa => Ok (packet ++ [(VendorSpecific_Type, vsa)])
  end.

(** ** Lemmas *)

Definition valid_format (f : VendorAttributeFormat) : Prop :=
  (TypeOctets f = 1 \/ TypeOctets f = 2 \/ TypeOctets f = 4) /\ (LengthOctets f = 0 \/ LengthOctets f = 1 \/ LengthOctets f = 2).

Lemma Validate_valid f : Validate f = Ok () <-> valid_format f.
Proof.
  unfold Validate, valid_format, headerLen, maxVendorPayloadLen. destruct f as [t l]. cbn. split.
  - repeat split_if; try done. intros _. repeat match goal with H : negb _ = false |- _ => apply negb_false_iff in H; rewrite !orb_true_iff, !Z.eqb_eq in H end. tauto.
  - intros [Ht Hl]. destruct Ht as [->|[->| ->]], Hl as [->|[->| ->]]; reflexivity.
Qed.

Lemma normalized_format_valid f : valid_format (normalized_format f).
Proof.
  unfold normalized_format. destruct (Validate f) as [[]|] eqn:E; cbn; [by apply Validate_valid|]. by apply Validate_valid.
Qed.

Lemma normalized_format_id f : valid_format f -> normalized_format f = f.
Proof. intros Hf%Validate_valid. unfold normalized_format. by rewrite Hf. Qed.

Lemma zlen_writeUint n v : n = 1 \/ n = 2 \/ n = 4 -> zlen (writeUint n v) = n.
Proof. by intros [->|[->| ->]]. Qed.

Lemma readUint_writeUint n v : n = 1 \/ n = 2 \/ n = 4 -> 0 <= v <= maxTypeForOctets n -> readUint (writeUint n v) = v.
Proof.
  unfold maxTypeForOctets, maxVendorTypeValue. intros [->|[->| ->]] Hv; cbn in Hv |- *.
  - apply to_byte_small. unfold is_byte. lia.
  - rewrite to_uint16_small by (unfold is_uint16; lia). apply Uint16_Put. unfold is_uint16. lia.
  - apply Uint32_Put. unfold is_uint32. lia.
Qed.

Lemma take_app_zlen {A} (l k : list A) n : zlen l = n -> take (Z.to_nat n) (l ++ k) = l.
Proof. unfold zlen. intros <-. rewrite Nat2Z.id. apply take_app_length. Qed.
Lemma drop_app_zlen {A} (l k : list A) n : zlen l = n -> drop (Z.to_nat n) (l ++ k) = k.
Proof. unfold zlen. intros <-. rewrite Nat2Z.id. apply drop_app_length. Qed.

Lemma writeUint_readUint n l : n = 1 \/ n = 2 \/ n = 4 -> zlen l = n -> wf_bytes l -> writeUint n (readUint l) = l.
Proof.
  intros Hn Hl Hwf. unfold zlen in Hl. destruct Hn as [->|[->| ->]]; destruct l as [|b0 [|b1 [|b2 [|b3 [|]]]]]; cbn in Hl; try lia; inv_Forall; cbn.
  - by rewrite to_byte_small.
  - rewrite to_uint16_small by auto with nas. by apply PutUint16_Uint16.
  - by apply PutUint32_Uint32.
Qed.

Lemma readUint_bound n l : n = 1 \/ n = 2 \/ n = 4 -> zlen l = n -> wf_bytes l -> 0 <= readUint l <= maxTypeForOctets n.
Proof.
  intros Hn Hl Hwf. unfold zlen in Hl. unfold maxTypeForOctets, maxVendorTypeValue.
  destruct Hn as [->|[->| ->]]; destruct l as [|b0 [|b1 [|b2 [|b3 [|]]]]]; cbn in Hl; try lia; inv_Forall; cbn -[Uint16 Uint32].
  - unfold is_byte in *. lia.
  - assert (is_uint16 (Uint16 b0 b1)) by auto with nas. unfold is_uint16 in *. lia.
  - assert (is_uint32 (Uint32 b0 b1 b2 b3)) by auto with nas. unfold is_uint32 in *. lia.
Qed.

(** The octets of a record: header, tag and value. *)
Definition tag_octets (d : DecodedVendorAttribute) : list Z := if DHasTag d then [DTag d] else [].
Definition header_octets (f : VendorAttributeFormat) (typ total : Z) : list Z :=
  writeUint (TypeOctets f) typ ++ (if LengthOctets f >? 0 then writeUint (LengthOctets f) total else []).

Lemma zlen_header f typ total : valid_format f -> zlen (header_octets f typ total) = headerLen f.
Proof.
  intros [Ht Hl]. unfold header_octets, headerLen. rewrite zlen_app, zlen_writeUint by done.
  by destruct Hl as [->|[->| ->]].
Qed.

Section one.
Context (vendorID : Z) (format : VendorAttributeFormat) (specs : list VendorAttributeSpec) (outerIndex : Z) (grouped : bool) (parentOID : list Z).
Hypothesis Hformat : valid_format format.
#[local] Abbreviation one := (decode_one vendorID format specs outerIndex grouped parentOID).

Lemma split_tag (hasTag : bool) typ value tag value' :
  (if hasTag then splitTaggedValue vendorID typ value else Ok (0, value)) = Ok (tag, value') ->
  value = (if hasTag then [tag] else []) ++ value' /\ (hasTag = true -> tag <= 31).
Proof.
  destruct hasTag; [|by intros [= <- <-]]. unfold splitTaggedValue. destruct value as [|t v]; [done|].
  destruct (t >? 31) eqn:E; [done|]. intros [= <- <-]. bool_arith. split; [done|]. lia.
Qed.

(** A record takes at least its header, at most what is left, and is a prefix of it. *)
Lemma decode_one_progress rest offset i d n : one rest offset i = Ok (d, n) ->
  1 <= headerLen format <= n /\ n <= zlen rest /\ DRaw d = take (Z.to_nat n) rest /\ DGrouped d = grouped /\ DVendorID d = vendorID
  /\ DFormat d = format /\ drop (Z.to_nat (headerLen format)) (DRaw d) = tag_octets d ++ DValue d /\ (DHasTag d = true -> DTag d <= 31)
  /\ (LengthOctets format = 0 -> n = zlen rest).
Proof using Hformat.
  unfold decode_one. cbv zeta. destruct (zlen rest <? _) eqn:H1; [done|]. destruct (_ && _) eqn:H2; [done|].
  destruct ((_ >? 0) && (_ >? zlen rest)) eqn:H3; [done|]. intros ([tag value] & Htag & Heq)%bind_Ok. injection Heq as <- <-.
  apply split_tag in Htag as [Hval Htag]. cbn [DRaw DGrouped DVendorID DFormat DHasTag DTag DValue tag_octets].
  assert (1 <= headerLen format) by (destruct Hformat as [[|[|]] [|[|]]]; unfold headerLen; lia). bool_arith.
  destruct (LengthOctets format >? 0) eqn:HL; cbn in *; bool_arith; split_and!; try done; try lia.
Qed.

(** The header of a record of bytes is the one that its type and length are written to. *)
Lemma decode_one_raw rest offset i d n : wf_bytes rest -> one rest offset i = Ok (d, n) ->
  DRaw d = header_octets format (DType d) n ++ tag_octets d ++ DValue d /\ 0 <= DType d <= maxTypeForOctets (TypeOctets format)
  /\ n = zlen (DRaw d) /\ (0 < LengthOctets format -> n <= maxTypeForOctets (LengthOctets format)).
Proof using Hformat.
  intros Hwf Ho. destruct (decode_one_progress _ _ _ _ _ Ho) as (Hh & Hn & Hraw & _ & _ & _ & Hdrop & _ & _).
  set (t := take (Z.to_nat (TypeOctets format)) rest).
  set (l := take (Z.to_nat (LengthOctets format)) (drop (Z.to_nat (TypeOctets format)) rest)).
  assert (DType d = readUint t /\ n = if LengthOctets format >? 0 then readUint l else zlen rest) as [Htyp Hlen].
  { revert Ho. unfold decode_one. cbv zeta. destruct (zlen rest <? _); [done|]. destruct (_ && _); [done|].
    destruct ((_ >? 0) && (_ >? zlen rest)); [done|]. intros ([tag value] & _ & Heq)%bind_Ok. by injection Heq as <- <-. }
  assert (1 <= TypeOctets format /\ 0 <= LengthOctets format) as [HT HL0] by (destruct Hformat as [[|[|]] [|[|]]]; lia).
  assert (zlen t = TypeOctets format) as Ht by (unfold t, zlen, headerLen in *; rewrite length_take; lia).
  assert (zlen l = LengthOctets format) as Hl by (unfold l, zlen, headerLen in *; rewrite length_take, length_drop; lia).
  assert (wf_bytes t) as Hwt by (by apply Forall_take). assert (wf_bytes l) as Hwl by (by apply Forall_take, Forall_drop).
  destruct Hformat as [Hto Hlo]. rewrite Htyp. pose proof (readUint_bound _ _ Hto Ht Hwt) as Hb. split_and!; [|lia|lia| |].
  - rewrite <- Hdrop. unfold header_octets. rewrite writeUint_readUint by done.
    assert ((if LengthOctets format >? 0 then writeUint (LengthOctets format) n else []) = l) as ->.
    { destruct (LengthOctets format >? 0) eqn:E; bool_arith.
      - rewrite Hlen. apply writeUint_readUint; [lia|done|done].
      - symmetry. apply nil_length_inv. unfold zlen in Hl. lia. }
    assert (t ++ l = take (Z.to_nat (headerLen format)) (DRaw d)) as ->; [|by rewrite take_drop].
    rewrite Hraw, take_take, Nat.min_l by lia. unfold t, l, headerLen. rewrite Z2Nat.inj_add by lia. apply take_take_drop.
  - unfold zlen in *. rewrite Hraw, length_take. lia.
  - intros Hpos. assert ((LengthOctets format >? 0) = true) as HE by (rewrite Z.gtb_ltb; by apply Z.ltb_lt).
    rewrite Hlen, HE. apply readUint_bound; [lia|done|done].
Qed.
End one.

(** Induction over what a payload decodes to: a relation between the rest of a payload, the records and
    the errors that holds at the ends and is kept by a record with its group and what follows. *)
Section decode_ind.
Context (vendorID : Z) (specs : list VendorAttributeSpec) (outerIndex : Z).
Context (Q : VendorAttributeFormat -> bool -> list Z -> list DecodedVendorAttribute -> list vsa_error -> Prop).
Hypothesis Qdeep : forall f g payload, Q f g payload [] [GroupTooDeep vendorID].
Hypothesis Qnil : forall f g, valid_format f -> Q f g [] [] [].
Hypothesis Qerr : forall f g parent rest offset i e, valid_format f ->
  decode_one vendorID f specs outerIndex g parent rest offset i = Err e -> Q f g rest [] [e].
Hypothesis Qcons : forall f g parent rest offset i d n inner innerErrs later laterErrs, valid_format f ->
  decode_one vendorID f specs outerIndex g parent rest offset i = Ok (d, n) ->
  (inner = [] /\ innerErrs = [] \/ Q DefaultVendorAttributeFormat true (DValue d) inner innerErrs) ->
  (LengthOctets f = 0 /\ later = [] /\ laterErrs = [] \/ Q f g (drop (Z.to_nat n) rest) later laterErrs) ->
  Q f g rest (d :: inner ++ later) (innerErrs ++ laterErrs).

Lemma decode_loop_ind fuel f g parent children rest offset i :
  valid_format f -> (length rest < fuel)%nat ->
  (forall d n r o k, decode_one vendorID f specs outerIndex g parent r o k = Ok (d, n) ->
     Q DefaultVendorAttributeFormat true (DValue d) (children (DValue d) (DOIDPath d)).1 (children (DValue d) (DOIDPath d)).2) ->
  let '(out, errs) := decode_loop vendorID f specs outerIndex g parent children fuel rest offset i in Q f g rest out errs.
Proof using Qnil Qerr Qcons.
  intros Hf Hfuel Hch. revert rest offset i Hfuel. induction fuel as [|fuel IH]; intros rest offset i Hfuel; [lia|]. cbn [decode_loop].
  destruct rest as [|b rest']; [by apply Qnil|]. set (rest := b :: rest') in *.
  destruct (decode_one _ _ _ _ _ _ rest offset i) as [[d n]|e] eqn:Ho; [|by eapply Qerr].
  destruct (decode_one_progress _ _ _ _ _ _ Hf _ _ _ _ _ Ho) as (Hh & Hn & _).
  specialize (IH (drop (Z.to_nat n) rest) (offset + n) (i + 1)). rewrite length_drop in IH. specialize (IH ltac:(unfold zlen in Hn; lia)).
  specialize (Hch _ _ _ _ _ Ho). set (sub := if shouldDecodeGrouped d specs then _ else _).
  assert (sub.1 = [] /\ sub.2 = [] \/ Q DefaultVendorAttributeFormat true (DValue d) sub.1 sub.2) as Hsub.
  { unfold sub. destruct (shouldDecodeGrouped d specs); [by right|by left]. }
  destruct sub as [inner innerErrs]. cbn [fst snd] in Hsub. destruct (LengthOctets f =? 0) eqn:HL.
  - bool_arith. apply (Qcons f g parent rest offset i d n); [done..|]. by left.
  - destruct (decode_loop _ _ _ _ _ _ _ _ _ _ _) as [later laterErrs]. apply (Qcons f g parent rest offset i d n); [done..|]. by right.
Qed.

Lemma decode_ind levels f g parent payload : valid_format f ->
  let '(out, errs) := decodeVendorPayload levels vendorID payload f specs outerIndex g parent in Q f g payload out errs.
Proof using All.
  revert f g parent payload. induction levels as [|levels IH]; intros f g parent payload Hf; cbn [decodeVendorPayload]; [apply Qdeep|].
  rewrite (proj2 (Validate_valid f) Hf). apply decode_loop_ind; [done|lia|]. intros d n r o k _.
  specialize (IH DefaultVendorAttributeFormat true (DOIDPath d) (DValue d)). destruct (decodeVendorPayload _ _ _ _ _ _ _ _). apply IH.
  by apply Validate_valid.
Qed.
End decode_ind.

Lemma decode_one_not_fuel vendorID f specs outerIndex g parent rest offset i :
  decode_one vendorID f specs outerIndex g parent rest offset i <> Err FuelExhausted.
Proof.
  unfold decode_one. cbv zeta. repeat (destruct (_ && _); [done|]). destruct (_ <? _); [done|]. repeat (destruct (_ && _); [done|]).
  intros [He|(x & _ & He)]%bind_Err; [|by destruct x]. revert He. unfold splitTaggedValue. repeat case_match; done.
Qed.

(** Decoding a vendor payload always ends, within at most five levels of grouping; and since every attribute
    decoded, grouped ones included, has two header octets of its own (one, in a format without a length field), there
    are at most half as many attributes as octets. *)
Theorem decodeVendorPayload_bounded (vendorID : Z) (payload : list Z) (format : VendorAttributeFormat) (specs : list VendorAttributeSpec)
    (outerIndex : Z) :
  valid_format format ->
  let '(out, errs) := decodeVendorPayload all_levels vendorID payload format specs outerIndex false [] in
  (FuelExhausted ∉ errs) /\ Z.min 2 (headerLen format) * zlen out <= zlen payload.
Proof.
  intros Hf. apply (decode_ind vendorID specs outerIndex (fun f g rest out errs => (FuelExhausted ∉ errs) /\ Z.min 2 (headerLen f) * zlen out <= zlen rest)); [..|done].
  - intros f g p. split; [|rewrite zlen_nil; pose proof (zlen_nonneg p); lia]. by intros ?%list_elem_of_singleton.
  - intros f g _. split; [apply not_elem_of_nil|unfold zlen; cbn [length]; lia].
  - intros f g parent rest offset i e _ He. split; [|rewrite zlen_nil; pose proof (zlen_nonneg rest); lia].
    intros <-%list_elem_of_singleton. by apply decode_one_not_fuel in He.
  - intros f g parent rest offset i d n inner innerErrs later laterErrs Hv Ho Hin Hla.
    destruct (decode_one_progress _ _ _ _ _ _ Hv _ _ _ _ _ Ho) as (Hh & Hn & Hraw & _ & _ & _ & Hdrop & _).
    assert (zlen (DValue d) <= n - headerLen f) as Hval.
    { apply (f_equal zlen) in Hdrop. rewrite zlen_app in Hdrop. pose proof (zlen_nonneg (tag_octets d)).
      rewrite Hraw in Hdrop. unfold zlen in *. rewrite length_drop, length_take in Hdrop. lia. }
    assert (zlen (drop (Z.to_nat n) rest) = zlen rest - n) as Hrest by (unfold zlen in *; rewrite length_drop; lia).
    change (headerLen DefaultVendorAttributeFormat) with 2 in Hin.
    pose proof (zlen_nonneg (DValue d)). pose proof (zlen_nonneg inner). pose proof (zlen_nonneg later). pose proof (zlen_nonneg (drop (Z.to_nat n) rest)).
    split.
    + intros [Hx|Hx]%elem_of_app; [destruct Hin as [[_ ->]|[Hin _]]|destruct Hla as [(_ & _ & ->)|[Hla _]]]; by try apply not_elem_of_nil in Hx.
    + rewrite zlen_cons, zlen_app. assert (2 * zlen inner <= zlen (DValue d)) by (destruct Hin as [[-> _]|[_ Hin]]; [change (zlen []) with 0|]; lia).
      assert (Z.min 2 (headerLen f) * zlen later <= zlen rest - n) by (destruct Hla as [(_ & -> & _)|[_ Hla]]; [change (zlen []) with 0|]; lia).
      nia.
Qed.

Lemma max_payload_length n : n = 0 \/ n = 1 \/ n = 2 -> 0 < n -> maxVendorPayloadLen <= maxTypeForOctets n.
Proof. unfold maxVendorPayloadLen, maxTypeForOctets. intros [->|[->| ->]] ?; cbn; lia. Qed.

(** The spec with which a record is written again. *)
Definition spec_of (d : DecodedVendorAttribute) : VendorAttributeSpec :=
  mkSpec (DVendorID d) (DType d) [] (DWireType d) (DHasTag d) (DFormat d).

Lemma encode_raw vendorID f specs outerIndex g parent rest offset i d n :
  valid_format f -> wf_bytes rest -> zlen rest <= maxVendorPayloadLen -> DType d <> 0 ->
  decode_one vendorID f specs outerIndex g parent rest offset i = Ok (d, n) ->
  EncodeVendorAttribute (spec_of d) (tag_octets d ++ DValue d) = Ok (DRaw d).
Proof.
  intros Hf Hwf Hlen Htyp Ho. destruct (decode_one_progress _ _ _ _ _ _ Hf _ _ _ _ _ Ho) as (Hh & Hn & _ & _ & _ & Hfmt & _ & Htag & _).
  destruct (decode_one_raw _ _ _ _ _ _ Hf _ _ _ _ _ Hwf Ho) as (Hraw & Ht & Hz & Hl).
  unfold EncodeVendorAttribute. cbn [normalized_spec spec_of SpType SpFormat SpHasTag SpOIDPath]. rewrite Hfmt, normalized_format_id by done.
  apply Z.eqb_neq in Htyp. cbv zeta. cbn [normalized_spec spec_of SpType SpFormat SpHasTag SpOIDPath]. rewrite !Htyp.
  assert (maxTypeForOctets (TypeOctets f) <= maxVendorTypeValue) by (unfold maxTypeForOctets, maxVendorTypeValue; repeat case_match; lia).
  assert ((DType d >? maxTypeForOctets (TypeOctets f)) || (DType d >? maxVendorTypeValue) = false) as ->.
  { rewrite !Z.gtb_ltb. apply orb_false_iff. rewrite !Z.ltb_ge. lia. }
  assert ((if DHasTag d then match tag_octets d ++ DValue d with [] => Err TagRequiresValue | tag :: _ => if tag >? 31 then Err TagRange else Ok () end
           else Ok ()) = Ok (E := vsa_error) ()) as ->.
  { unfold tag_octets. destruct (DHasTag d); [|done]. cbn. specialize (Htag eq_refl). by destruct (Z.gtb_spec (DTag d) 31); [lia|]. }
  cbn [mbind result_bind]. assert (headerLen f + zlen (tag_octets d ++ DValue d) = n) as Htotal.
  { rewrite Hz, Hraw, (zlen_app (header_octets _ _ _)), zlen_header by done. lia. }
  rewrite Htotal. assert ((n >? maxVendorPayloadLen) = false) as -> by (rewrite Z.gtb_ltb; apply Z.ltb_ge; lia).
  assert ((LengthOctets f >? 0) && (n >? maxTypeForOctets (LengthOctets f)) = false) as ->.
  { destruct (LengthOctets f >? 0) eqn:E; [|done]. bool_arith. specialize (Hl E). cbn. rewrite Z.gtb_ltb. apply Z.ltb_ge. lia. }
  f_equal. rewrite Hraw. unfold header_octets. by rewrite <- !app_assoc.
Qed.

(** What the decoder accepts is what the encoder writes: each decoded attribute, grouped ones included, is exactly
    the encoding of its vendor, type, tag and value in its format (apart from type 0, which the encoder refuses), and
    the attributes of a payload that decodes without error, one after the other, are the payload. *)
Theorem decodeVendorPayload_sound (vendorID : Z) (payload : list Z) (format : VendorAttributeFormat) (specs : list VendorAttributeSpec)
    (outerIndex : Z) :
  valid_format format -> wf_bytes payload -> zlen payload <= maxVendorPayloadLen ->
  let '(out, errs) := decodeVendorPayload all_levels vendorID payload format specs outerIndex false [] in
  (forall d, d ∈ out -> DVendorID d = vendorID /\ (DType d <> 0 -> EncodeVendorAttribute (spec_of d) (tag_octets d ++ DValue d) = Ok (DRaw d)))
  /\ (errs = [] -> concat (map DRaw (List.filter (fun d => negb (DGrouped d)) out)) = payload).
Proof.
  intros Hf Hwf Hlen. pose proof (decode_ind vendorID specs outerIndex (fun f g rest out errs => wf_bytes rest -> zlen rest <= maxVendorPayloadLen ->
    (forall d, d ∈ out -> DVendorID d = vendorID /\ (DType d <> 0 -> EncodeVendorAttribute (spec_of d) (tag_octets d ++ DValue d) = Ok (DRaw d)))
    /\ (g = true -> List.filter (fun d => negb (DGrouped d)) out = [])
    /\ (g = false -> errs = [] -> concat (map DRaw (List.filter (fun d => negb (DGrouped d)) out)) = rest))) as Hind.
  specialize (Hind ltac:(cbv beta; intros; split_and!; [by intros ? ?%not_elem_of_nil|done|done])).
  specialize (Hind ltac:(cbv beta; intros; split_and!; [by intros ? ?%not_elem_of_nil|done|done])).
  specialize (Hind ltac:(cbv beta; intros; split_and!; [by intros ? ?%not_elem_of_nil|done|done])).
  match type of Hind with ?P -> _ => assert P as Hcons end; cbv beta in *.
  - clear Hind Hwf Hlen Hf format payload. intros f g parent rest offset i d n inner innerErrs later laterErrs Hv Ho Hin Hla Hwf Hlen.
    destruct (decode_one_progress _ _ _ _ _ _ Hv _ _ _ _ _ Ho) as (Hh & Hn & Hraw & Hg & Hvid & _ & Hdrop & _ & Hzero).
    assert (wf_bytes (DRaw d)) as Hwraw by (rewrite Hraw; by apply Forall_take).
    assert (zlen (DValue d) <= maxVendorPayloadLen /\ wf_bytes (DValue d)) as [Hvl Hvw].
    { assert (wf_bytes (tag_octets d ++ DValue d)) as Hx by (rewrite <- Hdrop; by apply Forall_drop). split; [|by apply Forall_app in Hx as [_ Hx]].
      apply (f_equal zlen) in Hdrop. rewrite zlen_app in Hdrop. pose proof (zlen_nonneg (tag_octets d)).
      rewrite Hraw in Hdrop. unfold zlen in *. rewrite length_drop, length_take in Hdrop. lia. }
    assert (zlen (drop (Z.to_nat n) rest) <= maxVendorPayloadLen /\ wf_bytes (drop (Z.to_nat n) rest)) as [Hrl Hrw].
    { split; [unfold zlen in *; rewrite length_drop; lia|by apply Forall_drop]. }
    assert ((forall d', d' ∈ inner -> DVendorID d' = vendorID /\ (DType d' <> 0 -> EncodeVendorAttribute (spec_of d') (tag_octets d' ++ DValue d') = Ok (DRaw d')))
            /\ List.filter (fun d => negb (DGrouped d)) inner = []) as [Hin1 Hin2].
    { destruct Hin as [[-> ->]|Hin]; [split; [by intros ? ?%not_elem_of_nil|done]|]. destruct (Hin Hvw Hvl) as (? & Hx & _). auto. }
    cbn [List.filter]. rewrite List.filter_app, Hin2, Hg. cbn [app]. split_and!.
    + intros d' [->|[Hd|Hd]%elem_of_app]%elem_of_cons; [|by apply Hin1|].
      * split; [done|]. intros Htyp. eapply encode_raw; [exact Hv|exact Hwf|exact Hlen|exact Htyp|exact Ho].
      * destruct Hla as [(_ & -> & _)|Hla]; [by apply not_elem_of_nil in Hd|]. by apply Hla.
    + intros ->. cbn. destruct Hla as [(_ & -> & _)|Hla]; [done|]. by apply Hla.
    + intros -> Herrs. apply app_eq_nil in Herrs as [_ ->]. cbn. destruct Hla as [(HL & -> & _)|Hla].
      * cbn. rewrite app_nil_r, Hraw, (Hzero HL). apply take_ge. unfold zlen. lia.
      * destruct (Hla Hrw Hrl) as (_ & _ & ->); [|done|done]. rewrite Hraw. apply take_drop.
  - specialize (Hind Hcons all_levels format false [] payload Hf). destruct (decodeVendorPayload _ _ _ _ _ _ _ _) as [out errs].
    destruct (Hind Hwf Hlen) as (H1 & _ & H2). auto.
Qed.

(** ** What was encoded decodes *)

(** The record that an encoded attribute is decoded to, given the specs of the decoder. *)
Definition wire_record (vendorID : Z) (specs : list VendorAttributeSpec) (outerIndex : Z) (spec : VendorAttributeSpec) (value wire : list Z)
    (innerIndex : Z) : DecodedVendorAttribute :=
  let known := firstSpecForType specs vendorID (SpType spec) [] in
  mkDecoded vendorID (SpType spec) (match SpOIDPath known with [] => [SpType spec] | path => path end) (SpWireType known)
    (if SpHasTag spec then tl value else value) wire (SpHasTag spec) (if SpHasTag spec then hd 0 value else 0) false outerIndex innerIndex
    (SpFormat spec).

(** An attribute that the decoder with these specs reads as it was meant: in this format, tagged if the decoder
    knows it to be tagged, and not a group. *)
Definition plain (vendorID : Z) (specs : list VendorAttributeSpec) (format : VendorAttributeFormat) (spec : VendorAttributeSpec) (value wire : list Z)
    : Prop :=
  0 < SpType spec /\ SpFormat spec = format /\ SpHasTag (firstSpecForType specs vendorID (SpType spec) []) = SpHasTag spec
  /\ EncodeVendorAttribute spec value = Ok wire
  /\ forall outerIndex innerIndex, shouldDecodeGrouped (wire_record vendorID specs outerIndex spec value wire innerIndex) specs = false.

Lemma Encode_Ok spec value wire :
  valid_format (SpFormat spec) -> SpType spec <> 0 -> EncodeVendorAttribute spec value = Ok wire ->
  wire = header_octets (SpFormat spec) (SpType spec) (zlen wire) ++ value /\ zlen wire = headerLen (SpFormat spec) + zlen value
  /\ SpType spec <= maxTypeForOctets (TypeOctets (SpFormat spec))
  /\ (0 < LengthOctets (SpFormat spec) -> zlen wire <= maxTypeForOctets (LengthOctets (SpFormat spec)))
  /\ (SpHasTag spec = true -> exists tag rest, value = tag :: rest /\ tag <= 31).
Proof.
  intros Hf Ht. unfold EncodeVendorAttribute. cbv zeta. cbn [normalized_spec SpType SpFormat SpHasTag]. rewrite normalized_format_id by done.
  assert ((SpType spec =? 0) = false) as Ht0 by (by apply Z.eqb_neq). rewrite Ht0, Ht0.
  destruct (_ || _) eqn:H1; [done|]. intros ([] & Htag & Henc)%bind_Ok. destruct (_ >? maxVendorPayloadLen) eqn:H2; [done|].
  destruct (_ && _) eqn:H3; [done|]. injection Henc as <-. bool_arith.
  assert (zlen (writeUint (TypeOctets (SpFormat spec)) (SpType spec) ++
      (if LengthOctets (SpFormat spec) >? 0 then writeUint (LengthOctets (SpFormat spec)) (headerLen (SpFormat spec) + zlen value) else []) ++ value)
    = headerLen (SpFormat spec) + zlen value) as Hz.
  { rewrite (app_assoc _ _ value). rewrite zlen_app. f_equal. by apply zlen_header. }
  rewrite Hz. split_and!; [by unfold header_octets; rewrite <- app_assoc|done|done| |].
  - intros Hpos. destruct (LengthOctets (SpFormat spec) >? 0) eqn:E; bool_arith; [|lia]. cbn in H3. bool_arith. lia.
  - intros Hh. rewrite Hh in Htag. destruct value as [|tag rest]; [done|]. destruct (tag >? 31) eqn:E; [done|]. bool_arith. by exists tag, rest.
Qed.

Lemma decode_one_encoded vendorID specs format outerIndex spec value wire rest offset i :
  valid_format format -> plain vendorID specs format spec value wire -> (LengthOctets format = 0 -> rest = []) ->
  decode_one vendorID format specs outerIndex false [] (wire ++ rest) offset i
  = Ok (wire_record vendorID specs outerIndex spec value wire i, zlen wire).
Proof.
  intros Hf (Hpos & Hfmt & Htag & Henc & _) Hrest. rewrite <- Hfmt in Hf.
  destruct (Encode_Ok _ _ _ Hf ltac:(lia) Henc) as (Hwire & Hz & Hmax & Hlmax & Htagged). rewrite Hfmt in *.
  pose proof (zlen_nonneg value) as Hv. pose proof (zlen_nonneg rest) as Hr. destruct Hf as [Hto Hlo].
  assert (1 <= headerLen format) as Hh by (unfold headerLen; lia).
  unfold decode_one. cbv zeta. rewrite zlen_app, Hz. assert ((headerLen format + zlen value + zlen rest <? headerLen format) = false) as -> by (apply Z.ltb_ge; lia).
  assert (wire ++ rest = writeUint (TypeOctets format) (SpType spec)
    ++ (if LengthOctets format >? 0 then writeUint (LengthOctets format) (zlen wire) else []) ++ value ++ rest) as Hsplit.
  { rewrite Hwire at 1. unfold header_octets. by rewrite <- !app_assoc. }
  rewrite Hsplit. rewrite !take_app_zlen, !drop_app_zlen, readUint_writeUint by (by rewrite ?zlen_writeUint || lia).
  set (total := if LengthOctets format >? 0 then _ else _).
  assert (total = zlen wire) as ->.
  { unfold total. destruct (LengthOctets format >? 0) eqn:E; bool_arith.
    - rewrite take_app_zlen, readUint_writeUint; try lia. apply zlen_writeUint. lia.
    - rewrite Hrest by lia. rewrite Hz, zlen_nil. lia. }
  rewrite <- Hz. assert ((zlen wire <? headerLen format) = false) as -> by (apply Z.ltb_ge; lia).
  assert ((zlen wire >? zlen wire + zlen rest) = false) as -> by (rewrite Z.gtb_ltb; apply Z.ltb_ge; lia). rewrite !andb_false_r.
  assert (drop (Z.to_nat (headerLen format)) wire = value) as Hdrop by (rewrite Hwire; apply drop_app_zlen; by apply zlen_header).
  rewrite <- Hsplit, take_app_zlen, !Hdrop, Htag by done.
  assert ((if SpHasTag spec then splitTaggedValue vendorID (SpType spec) value else Ok (0, value))
          = Ok (if SpHasTag spec then hd 0 value else 0, if SpHasTag spec then tl value else value)) as ->.
  { destruct (SpHasTag spec); [|done]. destruct (Htagged eq_refl) as (tag & value' & -> & Htg). cbn. by destruct (Z.gtb_spec tag 31); [lia|]. }
  cbn [mbind result_bind]. unfold wire_record. cbv zeta. by rewrite Hfmt.
Qed.

(** Attributes that the encoder wrote one after the other decode, in order and without error, to their types, tags
    and values; in a format without a length field this holds for a single attribute, which takes the whole payload. *)
Theorem decode_encoded (vendorID : Z) (specs : list VendorAttributeSpec) (format : VendorAttributeFormat) (outerIndex : Z)
    (attributes : list (VendorAttributeSpec * list Z * list Z)) :
  valid_format format -> (LengthOctets format = 0 -> zlen attributes <= 1) ->
  Forall (fun '(spec, value, wire) => plain vendorID specs format spec value wire) attributes ->
  decodeVendorPayload all_levels vendorID (concat (map snd attributes)) format specs outerIndex false []
  = (imap (fun i '(spec, value, wire) => wire_record vendorID specs outerIndex spec value wire (Z.of_nat i)) attributes, []).
Proof.
  intros Hf Hsingle Hall. unfold all_levels. cbn [decodeVendorPayload]. rewrite (proj2 (Validate_valid format) Hf).
  set (children := fun value oid => _). set (payload := concat _). change (0 : Z) with (Z.of_nat 0) at 2.
  assert (forall fuel n offset, (length payload < fuel)%nat ->
    decode_loop vendorID format specs outerIndex false [] children fuel payload offset (Z.of_nat n)
    = (imap (fun i '(spec, value, wire) => wire_record vendorID specs outerIndex spec value wire (Z.of_nat (n + i))) attributes, [])) as Hloop; [|apply Hloop; lia].
  subst payload. induction attributes as [|[[spec value] wire] attributes IH]; intros fuel n offset Hfuel; (destruct fuel as [|fuel]; [lia|]); [done|].
  apply Forall_cons in Hall as [Hp Hall]. pose proof Hp as (Hpos & Hfmt & _ & Henc & Hgroup).
  assert (valid_format (SpFormat spec)) as Hf' by (by rewrite Hfmt).
  destruct (Encode_Ok _ _ _ Hf' ltac:(lia) Henc) as (_ & Hz & _). pose proof (zlen_nonneg value).
  assert (1 <= headerLen (SpFormat spec)) by (destruct Hf' as [? ?]; unfold headerLen; lia).
  cbn [map concat snd decode_loop]. rewrite decode_one_encoded with (value := value) (spec := spec); [|done|done|].
  2: { intros HL. specialize (Hsingle HL). destruct attributes; [done|]. rewrite !zlen_cons in Hsingle. pose proof (zlen_nonneg attributes). lia. }
  rewrite Hgroup. destruct (wire ++ concat (map snd attributes)) as [|b bs] eqn:Ew.
  { apply app_eq_nil in Ew as [-> _]. rewrite zlen_nil in Hz. lia. }
  rewrite <- Ew. rewrite drop_app_zlen by done. destruct (LengthOctets format =? 0) eqn:HL; bool_arith.
  - specialize (Hsingle HL). destruct attributes; [|rewrite !zlen_cons in Hsingle; pose proof (zlen_nonneg attributes); lia].
    cbn. by rewrite Nat.add_0_r.
  - cbn [map concat snd] in Hfuel. rewrite length_app in Hfuel. replace (Z.of_nat n + 1) with (Z.of_nat (S n)) by lia.
    rewrite IH; [|done|done|unfold zlen in Hz; lia]. cbn. rewrite Nat.add_0_r. f_equal. f_equal. apply imap_ext. intros i [[s v] w] _. cbn. by rewrite Nat.add_succ_r.
Qed.

Definition untagged (spec : VendorAttributeSpec) : VendorAttributeSpec :=
  mkSpec (SpVendorID spec) (SpType spec) (SpOIDPath spec) (SpWireType spec) false (SpFormat spec).

Lemma Encode_untagged spec value wire : EncodeVendorAttribute spec value = Ok wire -> EncodeVendorAttribute (untagged spec) value = Ok wire.
Proof.
  unfold EncodeVendorAttribute. cbv zeta. cbn [normalized_spec untagged SpType SpFormat SpHasTag SpOIDPath].
  destruct (_ =? 0); [done|]. destruct (_ || _); [done|]. intros ([] & _ & He)%bind_Ok. exact He.
Qed.

Lemma plain_without_specs vendorID spec value wire :
  0 < SpType spec -> EncodeVendorAttribute spec value = Ok wire -> plain vendorID [] (SpFormat spec) (untagged spec) value wire.
Proof.
  intros Ht He. split_and!; [done|done|done|by apply Encode_untagged|]. intros o i. unfold shouldDecodeGrouped. cbn. by repeat case_match.
Qed.

(** A type that normalisation leaves 0 stays 0. *)
Lemma normalized_type_zero spec : SpType (normalized_spec spec) = 0 -> SpType (normalized_spec (normalized_spec spec)) = 0.
Proof.
  unfold normalized_spec. cbn [SpType SpOIDPath]. unfold normalizeOIDPath. destruct (SpType spec =? 0) eqn:E; [|bool_arith; congruence].
  destruct (SpOIDPath spec) as [|o oid]; [bool_arith; by rewrite E|]. destruct (existsb _ (o :: oid)) eqn:Ex; [bool_arith; by rewrite E|].
  cbn [existsb] in Ex. bool_arith. congruence.
Qed.

Lemma decode_attributes_app vendor format specs p q o :
  (decode_attributes vendor format specs (p ++ q) o).1
  = (decode_attributes vendor format specs p o).1 ++ (decode_attributes vendor format specs q (o + zlen p)).1.
Proof.
  revert o. induction p as [|[type attribute] p IH]; intros o; cbn [app decode_attributes].
  - by rewrite zlen_nil, Z.add_0_r.
  - specialize (IH (o + 1)). rewrite zlen_cons. replace (o + (1 + zlen p)) with (o + 1 + zlen p) by lia.
    destruct (decode_attributes _ _ _ (p ++ q) _) as [l1 e1]. destruct (decode_attributes _ _ _ p _) as [l2 e2]. cbn [fst] in *.
    destruct (negb _); [done|]. destruct (VendorSpecific attribute) as [[vid payload]|]; [|done]. destruct (_ && _); [done|].
    destruct (decodeVendorPayload _ _ _ _ _ _ _ _) as [l3 e3]. cbn [fst]. by rewrite IH, app_assoc.
Qed.

(** Adding an attribute to a packet in the standard format appends its value (with its tag, if it has one) to those
    that are looked up under its vendor and type, and changes no other lookup. *)
Theorem Lookup_Add `{!VendorSpecificLaws} (packet packet' : Packet) (spec : VendorAttributeSpec) (value : list Z) (vendorID typ : Z) :
  normalized_format (SpFormat spec) = DefaultVendorAttributeFormat -> 0 <= SpType (normalized_spec spec) -> 0 < vendorID ->
  AddVendorAttributeWithSpec packet spec value = Ok packet' ->
  LookupVendorAttributeValues packet' vendorID typ
  = LookupVendorAttributeValues packet vendorID typ
    ++ (if (SpVendorID spec =? vendorID) && (SpType (normalized_spec spec) =? typ) then [value] else []).
Proof.
  intros Hf Htyp Hvid. unfold AddVendorAttributeWithSpec. cbv zeta. intros (wire & He & Hadd)%bind_Ok.
  destruct (NewVendorSpecific _ _) as [vsa|] eqn:Hnew; [|done]. injection Hadd as <-. apply VendorSpecific_New in Hnew.
  set (spec' := normalized_spec spec) in *.
  assert (SpType spec' <> 0) as Hne.
  { intros H0'. revert He. unfold EncodeVendorAttribute. cbv zeta. pose proof (normalized_type_zero spec H0') as Hz. fold spec' in Hz. by rewrite Hz. }
  assert (SpFormat spec' = DefaultVendorAttributeFormat) as Hf' by exact Hf.
  unfold LookupVendorAttributeValues, DecodeVendorAttributes. cbn [OptVendorID OptFormat OptSpecs normalizeVendorAttributeSpecs map List.filter].
  rewrite decode_attributes_app, List.filter_app, map_app. f_equal. cbn [decode_attributes]. rewrite Hnew, Z.eqb_refl. cbn [negb].
  change (SpVendorID spec') with (SpVendorID spec).
  assert ((vendorID >? 0) = true) as -> by (rewrite Z.gtb_ltb; by apply Z.ltb_lt). cbn [andb].
  destruct (SpVendorID spec =? vendorID) eqn:Ev; cbn [negb andb]; [|done]. change (formatForVendor [] _ _) with DefaultVendorAttributeFormat.
  pose proof (decode_encoded (SpVendorID spec) [] DefaultVendorAttributeFormat (0 + zlen packet) [(untagged spec', value, wire)]) as Hdec.
  cbn [map snd concat] in Hdec. rewrite app_nil_r in Hdec. rewrite Hdec; [|by apply Validate_valid|done|].
  2: { constructor; [|done]. rewrite <- Hf'. apply plain_without_specs; [lia|done]. }
  cbn -[spec']. change (DType _) with (SpType spec'). by destruct (SpType spec' =? typ).
Qed.
End Codec.

(** ** Witnesses *)

(** Vendor-Specific attributes as RFC 2865 lays them out. *)
#[export] Instance rfc2865_vendor_specific : VendorSpecificAttributes | 100 := {|
  VendorSpecific attribute := match attribute with b0 :: b1 :: b2 :: b3 :: (_ :: _) as value => Ok (Uint32 b0 b1 b2 b3, skipn 4 attribute) | _ => Err "too short"%string end;
  NewVendorSpecific vendorID value :=
    if decide (is_uint32 vendorID /\ 1 <= zlen value <= 249) then Ok (PutUint32 vendorID ++ value) else Err "too long"%string |}.

#[export] Instance rfc2865_laws : VendorSpecificLaws.
Proof.
  split. intros vendorID value attribute. cbn. destruct (decide _) as [[Hv Hl]|]; [|done]. intros [= <-].
  destruct value as [|v value]; [rewrite zlen_nil in Hl; lia|]. cbn. rewrite Uint32_Put by done. done.
Qed.

Definition wide_format : VendorAttributeFormat := mkFormat 2 1.
Definition sample_specs : list VendorAttributeSpec := [mkSpec 24757 5 [5] "integer" true wide_format].
Definition sample_attributes : list (VendorAttributeSpec * list Z * list Z) :=
  [(mkSpec 24757 5 [] "integer" true wide_format, [3; 10; 20], [0; 5; 6; 3; 10; 20]);
   (mkSpec 24757 300 [] "" false wide_format, [9], [1; 44; 4; 9])].

Lemma decode_encoded_witness :
  let '(out, errs) := decodeVendorPayload all_levels 24757 [0; 5; 6; 3; 10; 20; 1; 44; 4; 9] wide_format sample_specs 0 false [] in
  map (fun d => (DType d, DTag d, DValue d)) out = [(5, 3, [10; 20]); (300, 0, [9])] /\ errs = [].
Proof.
  pose proof (decode_encoded 24757 sample_specs wide_format 0 sample_attributes) as Hdec.
  change (concat (map snd sample_attributes)) with [0; 5; 6; 3; 10; 20; 1; 44; 4; 9] in Hdec. rewrite Hdec; [done|by apply Validate_valid|done|].
  repeat constructor; intros; reflexivity.
Defined.

(** An attribute with a group of two, the second of which is empty. *)
Definition grouped_payload : list Z := [26; 8; 1; 4; 170; 187; 2; 2].
Definition group_specs : list VendorAttributeSpec := [mkSpec 9 26 [26] "tlv" false DefaultVendorAttributeFormat].

Lemma grouped_decodes :
  decodeVendorPayload all_levels 9 grouped_payload DefaultVendorAttributeFormat group_specs 0 false []
  = ([mkDecoded 9 26 [26] "tlv" [1; 4; 170; 187; 2; 2] grouped_payload false 0 false 0 0 DefaultVendorAttributeFormat;
      mkDecoded 9 1 [26; 1] "" [170; 187] [1; 4; 170; 187] false 0 true 0 0 DefaultVendorAttributeFormat;
      mkDecoded 9 2 [26; 2] "" [] [2; 2] false 0 true 0 1 DefaultVendorAttributeFormat], []).
Proof. reflexivity. Qed.

Lemma decodeVendorPayload_bounded_witness : 2 * 3 <= 8.
Proof.
  pose proof (decodeVendorPayload_bounded 9 grouped_payload DefaultVendorAttributeFormat group_specs 0) as Hb.
  rewrite grouped_decodes in Hb. apply Hb. by apply Validate_valid.
Defined.

Lemma decodeVendorPayload_sound_witness :
  EncodeVendorAttribute (mkSpec 9 1 [] "" false DefaultVendorAttributeFormat) [170; 187] = Ok [1; 4; 170; 187]
  /\ concat [grouped_payload] = grouped_payload.
Proof.
  pose proof (decodeVendorPayload_sound 9 grouped_payload DefaultVendorAttributeFormat group_specs 0) as Hs. rewrite grouped_decodes in Hs.
  destruct Hs as [H1 H2]; [by apply Validate_valid|decided|discriminate|]. split; [|exact (H2 eq_refl)].
  apply (H1 (mkDecoded 9 1 [26; 1] "" [170; 187] [1; 4; 170; 187] false 0 true 0 0 DefaultVendorAttributeFormat)); [right; left|discriminate].
Defined.

Lemma Lookup_Add_witness :
  LookupVendorAttributeValues ([(1, [97])] ++ [(26, [0; 0; 0; 9; 1; 4; 170; 187])]) 9 1 = [[170; 187]].
Proof.
  apply (Lookup_Add [(1, [97])] _ (mkSpec 9 1 [] "" false DefaultVendorAttributeFormat) [170; 187] 9 1); [reflexivity|done|lia|reflexivity].
Defined.
