(* ===== verification/Portal.v ===== *)
(** * The captive portal's sessions ([internal/portal/statemachine.go], [internal/portal/server/server.go])

    The portal keeps a record per client MAC address in memory and a row per session in the table
    [sessions]. A login fills the record from the authentication result, the role's profile and the
    policy engine's decision, and then persists it; the record is shared, so what a login writes before
    it fails stays written. Each handler runs to its end. The password check, the RADIUS accounting and
    the firewall are outside: an authentication result is an input, as are the results of the database's
    statements. A stored time is read back as the instant it was. *)

From S2P Require Import Prelude GoStrings Bytes PolicyTypes PolicyTyped PolicySets PolicyEngine ServiceChain.

Inductive ClientState := StateUnknown | StateUnauthenticated | StateAuthenticating | StateAuthenticated.
#[export] Instance ClientState_eq_dec : EqDecision ClientState.
Proof. solve_decision. Defined.

(** [Client]; an absent instant is Go's zero time. *)
Record Client := mkClient {
  ClMAC : string; ClIP : string; ClState : ClientState; ClUsername : string; ClSessionID : string; ClLastSeen : option Z;
  ClAuthMethod : string; ClIdentitySource : string; ClRole : string; ClBandwidthProfile : string; ClFilterID : string;
  ClACLPolicyName : string; ClRadiusClass : string; ClCalledStationID : string; ClNASIdentifier : string;
  ClStartTime : option Z; ClVLAN : Z; ClSessionTimeout : Z; ClIdleTimeout : Z }.

(** A row of [sessions]: the columns the portal writes, [NULL] as [None]. *)
Record SessionRow := mkSessionRow {
  RwUsername : string; RwMAC : string; RwIP : string; RwAuthMethod : string; RwVLAN : Z; RwRole : string;
  RwBandwidthProfile : option string; RwStartTime : Z; RwLastActivity : Z; RwEndTime : option Z; RwStopReason : string;
  RwIdentitySource : string; RwFilterID : option string; RwACLPolicyName : option string; RwRadiusClass : option string;
  RwSessionTimeout : option Z; RwIdleTimeout : option Z; RwCalledStationID : option string; RwNASIdentifier : option string }.

(** [auth.Result], as far as the session uses it *)
Record AuthResult := mkAuthResult {
  AuUsername : string; AuRole : string; AuGroups : list string; AuIdentitySource : string; AuAuthMethod : string;
  AuFilterID : string; AuACLPolicyName : string; AuRadiusClass : string; AuBandwidthProfile : string; AuVLAN : Z;
  AuSessionTimeout : Z; AuIdleTimeout : Z }.

Record RoleProfile := mkRoleProfile {
  PrVLAN : Z; PrBandwidthProfile : string; PrACLPolicyName : string; PrSessionTimeout : Z; PrIdleTimeout : Z }.

(** The columns of a row of [roles] *)
Record RoleRow := mkRoleRow {
  RoVLAN : option Z; RoBandwidthProfile : option string; RoSessionTimeout : option Z; RoIdleTimeout : option Z; RoACLPolicyName : option string }.

(** The clients in memory and the sessions in the database. *)
Record Portal := mkPortal { Clients : gmap string Client; Sessions : gmap string SessionRow }.

Inductive portal_error :=
| ClientNotFound (mac : string)
| RoleLookupFailed (why : string)
| PolicyFailed
| RejectedByPolicy
| UpdateFailed.

Definition put_client (mac : string) (c : Client) (p : Portal) : Portal := mkPortal (<[mac := c]> (Clients p)) (Sessions p).

(** ** The state machine *)

Definition GetOrCreate (mac ip : string) (now : Z) (p : Portal) : Client * Portal :=
  let c := match Clients p !! mac with
    | Some c => mkClient (ClMAC c) ip (ClState c) (ClUsername c) (ClSessionID c) (Some now) (ClAuthMethod c) (ClIdentitySource c)
        (ClRole c) (ClBandwidthProfile c) (ClFilterID c) (ClACLPolicyName c) (ClRadiusClass c) (ClCalledStationID c)
        (ClNASIdentifier c) (ClStartTime c) (ClVLAN c) (ClSessionTimeout c) (ClIdleTimeout c)
    | None => mkClient mac ip StateUnauthenticated "" "" (Some now) "" "" "" "" "" "" "" "" "" None 0 0 0
    end in
  (c, put_client mac c p).

Definition nullIfEmpty (value : string) : option string := if (TrimSpace value =? "")%string then None else Some value.
Definition nullIfZero (value : Z) : option Z := if value =? 0 then None else Some value.

(** The row inserted, or updated except for its start and end. *)
Definition session_row (c : Client) (now : Z) (before : option SessionRow) : SessionRow :=
  let startTime := default now (ClStartTime c) in
  mkSessionRow (ClUsername c) (ClMAC c) (ClIP c) (ClAuthMethod c) (ClVLAN c) (ClRole c) (nullIfEmpty (ClBandwidthProfile c))
    (match before with Some r => RwStartTime r | None => startTime end) (default startTime (ClLastSeen c))
    (match before with Some r => RwEndTime r | None => None end) (match before with Some r => RwStopReason r | None => "" end)
    (ClIdentitySource c) (nullIfEmpty (ClFilterID c)) (nullIfEmpty (ClACLPolicyName c)) (nullIfEmpty (ClRadiusClass c))
    (nullIfZero (ClSessionTimeout c)) (nullIfZero (ClIdleTimeout c)) (nullIfEmpty (ClCalledStationID c)) (nullIfEmpty (ClNASIdentifier c)).

(** [persistSession] when the database takes the statement *)
Definition persistSession (c : Client) (now : Z) (p : Portal) : Portal :=
  mkPortal (Clients p) (<[ClSessionID c := session_row c now (Sessions p !! ClSessionID c)]> (Sessions p)).

(** A failed persistence is logged and the transition succeeds. *)
Definition Transition (mac : string) (newState : ClientState) (username sessionID : string) (persists : bool) (now : Z) (p : Portal)
    : result portal_error Portal :=
  match Clients p !! mac with
  | None => Err (ClientNotFound mac)
  | Some c =>
      let start := if bool_decide (newState = StateAuthenticated) && bool_decide (ClStartTime c = None) then Some now else ClStartTime c in
      let c := mkClient (ClMAC c) (ClIP c) newState username sessionID (Some now) (ClAuthMethod c) (ClIdentitySource c)
        (ClRole c) (ClBandwidthProfile c) (ClFilterID c) (ClACLPolicyName c) (ClRadiusClass c) (ClCalledStationID c)
        (ClNASIdentifier c) start (ClVLAN c) (ClSessionTimeout c) (ClIdleTimeout c) in
      let p := put_client mac c p in
      Ok (if bool_decide (newState = StateAuthenticated) && persists then persistSession c now p else p)
  end.

(** [end_time] and the reason are set once. *)
Definition ended (now : Z) (reason : string) (r : SessionRow) : SessionRow :=
  match RwEndTime r with
  | Some _ => r
  | None =>
      mkSessionRow (RwUsername r) (RwMAC r) (RwIP r) (RwAuthMethod r) (RwVLAN r) (RwRole r) (RwBandwidthProfile r) (RwStartTime r)
        (RwLastActivity r) (Some now) reason (RwIdentitySource r) (RwFilterID r) (RwACLPolicyName r) (RwRadiusClass r)
        (RwSessionTimeout r) (RwIdleTimeout r) (RwCalledStationID r) (RwNASIdentifier r)
  end.

(** What is left of a client whose session ended; [EndSession] keeps the name of the ACL policy. *)
Definition reset_client (acl : string) (seen : option Z) (c : Client) : Client :=
  mkClient (ClMAC c) (ClIP c) StateUnauthenticated "" "" seen "" "" "" "" "" acl "" "" "" None 0 0 0.

Definition EndSession (mac reason : string) (updates : bool) (now : Z) (p : Portal) : result portal_error Portal :=
  match Clients p !! mac with
  | None => Ok p
  | Some c =>
      let hasSession := negb (ClSessionID c =? "")%string in
      if hasSession && negb updates then Err UpdateFailed
      else
        let stopReason := if (TrimSpace reason =? "")%string then "user logout" else TrimSpace reason in
        let sessions := if hasSession then alter (ended now stopReason) (ClSessionID c) (Sessions p) else Sessions p in
        Ok (mkPortal (<[mac := reset_client (ClACLPolicyName c) (Some now) c]> (Clients p)) sessions)
  end.

Definition session_open (p : Portal) (sessionID : string) : bool :=
  match Sessions p !! sessionID with Some r => bool_decide (RwEndTime r = None) | None => false end.

(** [answers]: the database answers the query. *)
Definition ensureSessionStillActive (answers : bool) (mac : string) (c : Client) (p : Portal) : bool * Portal :=
  if (ClSessionID c =? "")%string || negb answers || session_open p (ClSessionID c) then (true, p)
  else match Clients p !! mac with
  | None => (false, p)
  | Some current =>
      if negb (ClSessionID current =? ClSessionID c)%string then (false, p)
      else (false, put_client mac (reset_client "" (ClLastSeen current) current) p)
  end.

Definition IsAuthenticated (answers : bool) (mac : string) (p : Portal) : bool * Portal :=
  match Clients p !! mac with
  | None => (false, p)
  | Some c => if negb (bool_decide (ClState c = StateAuthenticated)) then (false, p) else ensureSessionStillActive answers mac c p
  end.

Definition ShouldRedirect (answers : bool) (mac : string) (p : Portal) : bool * Portal :=
  match Clients p !! mac with
  | None => (true, p)
  | Some c => if negb (bool_decide (ClState c = StateAuthenticated)) then (true, p)
              else let '(active, p) := ensureSessionStillActive answers mac c p in (negb active, p)
  end.

Definition GetClient (answers : bool) (mac : string) (p : Portal) : option Client * Portal :=
  match Clients p !! mac with
  | None => (None, p)
  | Some c => if bool_decide (ClState c = StateAuthenticated)
              then let '(active, p) := ensureSessionStillActive answers mac c p in (if active then Some c else None, p)
              else (Some c, p)
  end.

Definition recent (idleTimeout now : Z) (c : Client) : bool :=
  match ClLastSeen c with Some seen => negb (now - seen >? idleTimeout) | None => false end.

Definition CleanupIdle (idleTimeout now : Z) (p : Portal) : Portal :=
  mkPortal (filter (fun kc => recent idleTimeout now kc.2 = true) (Clients p)) (Sessions p).

Definition restored (sessionID : string) (r : SessionRow) : Client :=
  mkClient (RwMAC r) (RwIP r) StateAuthenticated (RwUsername r) sessionID (Some (RwLastActivity r)) (RwAuthMethod r) (RwIdentitySource r)
    (RwRole r) (default "" (RwBandwidthProfile r)) (default "" (RwFilterID r)) (default "" (RwACLPolicyName r)) (default "" (RwRadiusClass r))
    (default "" (RwCalledStationID r)) (default "" (RwNASIdentifier r)) (Some (RwStartTime r)) (RwVLAN r)
    (default 0 (RwSessionTimeout r)) (default 0 (RwIdleTimeout r)).

(** The columns the scan reads into 32 bits: a row with a wider number is logged and skipped. *)
Definition fits32 (n : Z) : bool := (- 2 ^ 31 <=? n) && (n <? 2 ^ 31).
Definition loaded (r : SessionRow) : bool :=
  bool_decide (RwEndTime r = None) && fits32 (RwVLAN r) && fits32 (default 0 (RwSessionTimeout r)) && fits32 (default 0 (RwIdleTimeout r)).

(** The query has no order: the rows come in any. *)
Definition LoadSessionsFromDB `{MapRange} (p : Portal) : Portal :=
  foldl (fun p '(sessionID, r) => if loaded r then put_client (RwMAC r) (restored sessionID r) p else p)
    p (range_map (Sessions p)).

(** ** The handlers *)

Section Server.
Context {N : Numbers} {U : Unicode} {R : MapRange} {J : Json} {RE : Regexp} {IA : IPAddr}.
Context {CD : ChainDigest} {D : PolicyDigest}.

(** What a login reads: the configuration, the table of roles, and the policy engine's environment. *)
Record Site := mkSite {
  DefaultRole : string; SiteNASIdentifier : string; RoleTable_ : string -> result string (option RoleRow); Engine : Environment; Wall : Z }.

(** [firstNonEmpty] of two: the values are not trimmed. *)
Definition firstNonEmpty2 (a b : string) : string :=
  if negb (TrimSpace a =? "")%string then a else if negb (TrimSpace b =? "")%string then b else "".

Definition no_profile : RoleProfile := mkRoleProfile 0 "" "" 0 0.

Definition lookupRoleProfile (site : Site) (role : string) : result string RoleProfile :=
  if (TrimSpace role =? "")%string then Ok no_profile
  else row ← RoleTable_ site role;
       match row with
       | None => Ok no_profile
       | Some r => Ok (mkRoleProfile (default 0 (RoVLAN r)) (default "" (RoBandwidthProfile r)) (TrimSpace (default "" (RoACLPolicyName r)))
                         (default 0 (RoSessionTimeout r)) (default 0 (RoIdleTimeout r)))
       end.

Definition getVLANForRole (site : Site) (role : string) : Z :=
  match lookupRoleProfile site role with Ok profile => if PrVLAN profile =? 0 then 20 else PrVLAN profile | Err _ => 20 end.

(** The record as the authentication result leaves it. *)
Definition with_result (site : Site) (a : AuthResult) (sessionID : string) (now : Z) (c : Client) : Client :=
  mkClient (ClMAC c) (ClIP c) (ClState c) (AuUsername a) sessionID (Some now) (AuAuthMethod a) (AuIdentitySource a)
    (firstNonEmpty2 (AuRole a) (DefaultRole site)) (AuBandwidthProfile a) (AuFilterID a) (AuACLPolicyName a) (AuRadiusClass a)
    (SiteNASIdentifier site) (SiteNASIdentifier site) (Some now) (AuVLAN a) (AuSessionTimeout a) (AuIdleTimeout a).

Definition or_zero (value fallback : Z) : Z := if value =? 0 then fallback else value.
Definition or_empty (value fallback : string) : string := if (value =? "")%string then fallback else value.

(** The profile's values where the result has none. *)
Definition with_profile (site : Site) (profile : RoleProfile) (c : Client) : Client :=
  mkClient (ClMAC c) (ClIP c) (ClState c) (ClUsername c) (ClSessionID c) (ClLastSeen c) (ClAuthMethod c) (ClIdentitySource c)
    (ClRole c) (or_empty (ClBandwidthProfile c) (PrBandwidthProfile profile)) (ClFilterID c) (or_empty (ClACLPolicyName c) (PrACLPolicyName profile))
    (ClRadiusClass c) (ClCalledStationID c) (ClNASIdentifier c) (ClStartTime c)
    (or_zero (or_zero (ClVLAN c) (PrVLAN profile)) (getVLANForRole site (ClRole c)))
    (or_zero (ClSessionTimeout c) (PrSessionTimeout profile)) (or_zero (ClIdleTimeout c) (PrIdleTimeout profile)).

(** The decision's values where it has some. *)
Definition with_decision (d : Decision_) (c : Client) : Client :=
  mkClient (ClMAC c) (ClIP c) (ClState c) (ClUsername c) (ClSessionID c) (ClLastSeen c) (ClAuthMethod c) (ClIdentitySource c)
    (ClRole c) (default (ClBandwidthProfile c) (DBandwidthProfile d)) (ClFilterID c) (default (ClACLPolicyName c) (DACLPolicyName d))
    (ClRadiusClass c) (ClCalledStationID c) (ClNASIdentifier c) (ClStartTime c) (default (ClVLAN c) (DVLAN d))
    (default (ClSessionTimeout c) (DSessionTimeout d)) (default (ClIdleTimeout c) (DIdleTimeout d)).

Definition portal_request (a : AuthResult) (c : Client) : Request :=
  mkRequest (ClUsername c) (ClRole c) (AuGroups a) "" "" "" (ClAuthMethod c) (ClIdentitySource c) "" (ClNASIdentifier c) "" "" ""
    "" (ClMAC c) "" "" "" 0 true "" "" 0 ∅ None.

(** [populateAuthenticatedClient]: the record, which is written as far as the function came, and the error. *)
Definition populateAuthenticatedClient (site : Site) (c : Client) (a : AuthResult) (sessionID : string) (now : Z) : Client * option portal_error :=
  let c := with_result site a sessionID now c in
  match lookupRoleProfile site (ClRole c) with
  | Err why => (c, Some (RoleLookupFailed why))
  | Ok profile =>
      let c := with_profile site profile c in
      match Evaluate (Engine site) (portal_request a c) (Wall site) with
      | Err _ => (c, Some PolicyFailed)
      | Ok d => if negb (DAllow d) then (c, Some RejectedByPolicy) else (with_decision d c, None)
      end
  end.

(** [establishAuthenticatedSession] and the last part of [HandleVoucherLogin] *)
Definition establishAuthenticatedSession (site : Site) (mac ip : string) (a : AuthResult) (sessionID : string) (persists : bool) (now : Z) (p : Portal)
    : option portal_error * Portal :=
  let '(c, p) := GetOrCreate mac ip now p in
  let '(c, failed) := populateAuthenticatedClient site c a sessionID now in
  let p := put_client mac c p in
  match failed with
  | Some e => (Some e, p)
  | None => match Transition mac StateAuthenticated (AuUsername a) sessionID persists now p with
            | Ok p => (None, p)
            | Err e => (Some e, p)
            end
  end.

Definition voucher_result (code role : string) (durationMinutes : Z) : AuthResult :=
  mkAuthResult ("voucher_" +:+ code) role [] "voucher" "voucher" "" "" "" "" 0 (durationMinutes * 60) 0.

(** [HandleLogout] with a MAC address; errors are logged. *)
Definition HandleLogout (answers updates : bool) (mac : string) (now : Z) (p : Portal) : Portal :=
  if (mac =? "")%string then p
  else let '(found, p) := GetClient answers mac p in
       match found with
       | Some c => if bool_decide (ClState c = StateAuthenticated)
                   then match EndSession mac "user logout" updates now p with Ok p => p | Err _ => p end else p
       | None => p
       end.

(** A restart keeps the table only. *)
Definition restart (p : Portal) : Portal := LoadSessionsFromDB (mkPortal ∅ (Sessions p)).

(** ** Runs *)

(** A login that succeeded: what it was made with. *)
Record Login := mkLogin { LgMAC : string; LgSession : string; LgResult : AuthResult; LgSite : Site }.

(** The portal, the session ids handed out so far, and the logins that succeeded. *)
Record World := mkWorld { WPortal : Portal; Issued : gset string; Logins : list Login }.

(** Session ids are random and assumed new. A session can also be ended from outside (administration, the reaper). *)
Inductive step : World -> World -> Prop :=
| StepLogin site mac ip a sessionID persists now p issued logins e p' :
    sessionID <> "" -> sessionID ∉ issued -> establishAuthenticatedSession site mac ip a sessionID persists now p = (e, p') ->
    step (mkWorld p issued logins)
      (mkWorld p' ({[sessionID]} ∪ issued) (match e with None => mkLogin mac sessionID a site :: logins | Some _ => logins end))
| StepQuery answers mac p issued logins : step (mkWorld p issued logins) (mkWorld (IsAuthenticated answers mac p).2 issued logins)
| StepLogout answers updates mac now p issued logins :
    step (mkWorld p issued logins) (mkWorld (HandleLogout answers updates mac now p) issued logins)
| StepCleanup idleTimeout now p issued logins : step (mkWorld p issued logins) (mkWorld (CleanupIdle idleTimeout now p) issued logins)
| StepRestart p issued logins : step (mkWorld p issued logins) (mkWorld (restart p) issued logins)
| StepEnd sessionID now reason p issued logins :
    step (mkWorld p issued logins) (mkWorld (mkPortal (Clients p) (alter (ended now reason) sessionID (Sessions p))) issued logins).

Definition reachable (w : World) : Prop := rtc step (mkWorld (mkPortal ∅ ∅) ∅ []) w.

(** The policy engine allowed the login. *)
Definition allowed (l : Login) : Prop :=
  exists q d, Evaluate (Engine (LgSite l)) q (Wall (LgSite l)) = Ok d /\ DAllow d = true
    /\ ReqUsername q = AuUsername (LgResult l) /\ ReqCallingStationID q = LgMAC l /\ ReqGroups q = AuGroups (LgResult l) /\ ReqAuthenticated q = true.

(** A client in the record of its MAC address, whose session is its own. *)
Record client_ok (w : World) (mac : string) (c : Client) : Prop := {
  co_mac : ClMAC c = mac;
  co_issued : ClSessionID c <> "" -> ClSessionID c ∈ Issued w;
  co_auth : ClState c = StateAuthenticated -> ClSessionID c <> "";
  co_row r : Sessions (WPortal w) !! ClSessionID c = Some r -> RwMAC r = mac;
}.

Record portal_ok (w : World) : Prop := {
  po_clients mac c : Clients (WPortal w) !! mac = Some c -> client_ok w mac c;
  po_rows sid r : Sessions (WPortal w) !! sid = Some r ->
    sid ∈ Issued w /\ sid <> "" /\ exists l, l ∈ Logins w /\ LgSession l = sid /\ LgMAC l = RwMAC r /\ AuUsername (LgResult l) = RwUsername r;
  po_logins l : l ∈ Logins w -> allowed l;
}.

Lemma portal_ok_init : portal_ok (mkWorld (mkPortal ∅ ∅) ∅ []).
Proof. split; cbn; intros *; rewrite ?lookup_empty; [done..|]. by intros ?%not_elem_of_nil. Qed.

(** A client may be replaced by one that is in order, or removed. *)
Lemma portal_ok_put w mac c : portal_ok w -> client_ok w mac c ->
  portal_ok (mkWorld (put_client mac c (WPortal w)) (Issued w) (Logins w)).
Proof.
  intros [C Rw L] Hc. split; cbn; [|done|done]. intros m c'. intros [[<- <-]|[_ Hm]]%lookup_insert_Some; [by destruct Hc|].
  by destruct (C _ _ Hm).
Qed.

Lemma portal_ok_clients w f : portal_ok w -> (forall mac c, f !! mac = Some c -> Clients (WPortal w) !! mac = Some c) ->
  portal_ok (mkWorld (mkPortal f (Sessions (WPortal w))) (Issued w) (Logins w)).
Proof. intros [C Rw L] Hf. split; cbn; [|done|done]. intros mac c Hc. by destruct (C _ _ (Hf _ _ Hc)). Qed.

(** Ending sessions changes neither owners nor users. *)
Lemma ended_same now reason r : RwMAC (ended now reason r) = RwMAC r /\ RwUsername (ended now reason r) = RwUsername r /\ RwEndTime (ended now reason r) <> None.
Proof. unfold ended. by destruct (RwEndTime r) eqn:E; rewrite ?E. Qed.

Lemma lookup_ended (m : gmap string SessionRow) now reason sid i r : alter (ended now reason) sid m !! i = Some r ->
  exists r0, m !! i = Some r0 /\ RwMAC r0 = RwMAC r /\ RwUsername r0 = RwUsername r /\ (RwEndTime r = None -> r = r0 /\ i <> sid).
Proof.
  rewrite lookup_alter_Some. intros [(<- & r0 & Hr & ->)|[Hne Hr]].
  - exists r0. destruct (ended_same now reason r0) as (-> & -> & He). done.
  - exists r. split_and!; try done.
Qed.

Lemma portal_ok_ended w now reason sid : portal_ok w ->
  portal_ok (mkWorld (mkPortal (Clients (WPortal w)) (alter (ended now reason) sid (Sessions (WPortal w)))) (Issued w) (Logins w)).
Proof.
  intros [C Rw L]. split; cbn; [|..|done].
  - intros mac c Hc. destruct (C _ _ Hc) as [H1 H2 H3 H4]. split; [done..|]. cbn. intros r (r0 & Hr & <- & _)%lookup_ended. by apply H4.
  - intros i r (r0 & Hr & Hm & Hu & _)%lookup_ended. destruct (Rw _ _ Hr) as (? & ? & l & ? & ? & ? & ?). split_and!; [done..|].
    exists l. split_and!; congruence.
Qed.

Lemma client_ok_reset w mac c acl seen : client_ok w mac c -> portal_ok w -> client_ok w mac (reset_client acl seen c).
Proof. intros [H1 H2 H3 H4] [_ Rw _]. split; cbn; [done..|]. intros r Hr. by destruct (Rw _ _ Hr) as (_ & ? & _). Qed.

Lemma portal_ok_active answers mac c w : portal_ok w -> portal_ok (mkWorld (ensureSessionStillActive answers mac c (WPortal w)).2 (Issued w) (Logins w)).
Proof.
  intros Hw. unfold ensureSessionStillActive. destruct (_ || _); [by destruct w|]. destruct (Clients (WPortal w) !! mac) as [cur|] eqn:Hc; [|by destruct w].
  destruct (negb _); [by destruct w|]. cbn [snd]. apply portal_ok_put; [done|]. apply client_ok_reset; [|done]. by eapply po_clients.
Qed.

Lemma portal_ok_query answers mac w : portal_ok w -> portal_ok (mkWorld (IsAuthenticated answers mac (WPortal w)).2 (Issued w) (Logins w)).
Proof.
  intros Hw. unfold IsAuthenticated. destruct (Clients _ !! mac) as [c|]; [|by destruct w]. destruct (negb _); [by destruct w|].
  by apply portal_ok_active.
Qed.

(** The three queries change the same. *)
Lemma GetClient_portal answers mac p : (GetClient answers mac p).2 = (IsAuthenticated answers mac p).2.
Proof.
  unfold GetClient, IsAuthenticated. destruct (Clients p !! mac) as [c|]; [|done]. destruct (bool_decide _); [|done]. cbn [negb].
  by destruct (ensureSessionStillActive _ _ _ _).
Qed.
Lemma ShouldRedirect_IsAuthenticated answers mac p :
  ShouldRedirect answers mac p = (negb (IsAuthenticated answers mac p).1, (IsAuthenticated answers mac p).2).
Proof.
  unfold ShouldRedirect, IsAuthenticated. destruct (Clients p !! mac) as [c|]; [|done]. destruct (negb _); [done|].
  by destruct (ensureSessionStillActive _ _ _ _).
Qed.

Lemma portal_ok_end mac reason updates now w p' : portal_ok w -> EndSession mac reason updates now (WPortal w) = Ok p' ->
  portal_ok (mkWorld p' (Issued w) (Logins w)).
Proof.
  intros Hw. unfold EndSession. destruct (Clients _ !! mac) as [c|] eqn:Hc; [|intros [= <-]; by destruct w]. cbv zeta.
  destruct (_ && _); [done|]. intros [= <-]. pose proof (po_clients _ Hw _ _ Hc) as Hcl.
  destruct (negb _).
  - pose proof (portal_ok_ended w now (if (TrimSpace reason =? "")%string then "user logout" else TrimSpace reason) (ClSessionID c) Hw) as Hw2.
    apply (portal_ok_put _ mac (reset_client (ClACLPolicyName c) (Some now) c) Hw2). apply client_ok_reset; [|done].
    by apply (po_clients _ Hw2).
  - apply (portal_ok_put _ mac (reset_client (ClACLPolicyName c) (Some now) c) Hw). by apply client_ok_reset.
Qed.

Lemma portal_ok_logout answers updates mac now w : portal_ok w -> portal_ok (mkWorld (HandleLogout answers updates mac now (WPortal w)) (Issued w) (Logins w)).
Proof.
  intros Hw. unfold HandleLogout. destruct (_ =? _)%string; [by destruct w|]. pose proof (portal_ok_query answers mac w Hw) as Hq.
  rewrite <- GetClient_portal in Hq. destruct (GetClient answers mac (WPortal w)) as [[c|] p]; [|done]. destruct (bool_decide _); [|done].
  destruct (EndSession _ _ _ _ _) as [p'|] eqn:He; [|done]. by apply (portal_ok_end _ _ _ _ _ _ Hq He).
Qed.

Lemma portal_ok_load w l : portal_ok w -> (forall sid r, (sid, r) ∈ l -> Sessions (WPortal w) !! sid = Some r) ->
  portal_ok (mkWorld (foldl (fun p '(sid, r) => if loaded r then put_client (RwMAC r) (restored sid r) p else p) (WPortal w) l)
               (Issued w) (Logins w)).
Proof.
  revert w. induction l as [|[sid r] l IH]; intros w Hw Hl; cbn [foldl]; [by destruct w|]. destruct (loaded r); [|apply IH; [done|intros; apply Hl; by right]].
  assert (Sessions (WPortal w) !! sid = Some r) as Hr by (apply Hl; left). destruct (po_rows _ Hw _ _ Hr) as (Hi & Hne & _).
  apply (IH (mkWorld (put_client (RwMAC r) (restored sid r) (WPortal w)) (Issued w) (Logins w))).
  - apply portal_ok_put; [done|]. split; cbn; [done..|]. intros r' Hr'. congruence.
  - intros sid' r' Hin. cbn. apply Hl. by right.
Qed.

Lemma portal_ok_restart w : portal_ok w -> portal_ok (mkWorld (restart (WPortal w)) (Issued w) (Logins w)).
Proof.
  intros Hw. unfold restart, LoadSessionsFromDB.
  apply (portal_ok_load (mkWorld (mkPortal ∅ (Sessions (WPortal w))) (Issued w) (Logins w))).
  - apply portal_ok_clients; [done|]. intros mac c. by rewrite lookup_empty.
  - intros sid r. cbn. by rewrite elem_of_range_map.
Qed.

(** ** Logins *)

Lemma populate_fields site c a sid now : let c' := (populateAuthenticatedClient site c a sid now).1 in
  ClMAC c' = ClMAC c /\ ClIP c' = ClIP c /\ ClState c' = ClState c /\ ClSessionID c' = sid /\ ClUsername c' = AuUsername a.
Proof. unfold populateAuthenticatedClient. cbv zeta. repeat case_match; done. Qed.

Lemma populate_allowed site c a sid now mac : ClMAC c = mac -> (populateAuthenticatedClient site c a sid now).2 = None ->
  allowed (mkLogin mac sid a site).
Proof.
  intros Hmac. unfold populateAuthenticatedClient. cbv zeta. destruct (lookupRoleProfile _ _) as [profile|]; [|done].
  set (c2 := with_profile _ _ _). destruct (Evaluate _ _ _) as [d|] eqn:He; [|done]. destruct (negb (DAllow d)) eqn:Ha; [done|]. intros _.
  exists (portal_request a c2), d. split; [exact He|]. bool_arith. by subst.
Qed.

Lemma GetOrCreate_fields mac ip now p : let '(c, p') := GetOrCreate mac ip now p in
  p' = put_client mac c p /\ (ClMAC c = mac \/ exists c0, Clients p !! mac = Some c0 /\ ClMAC c = ClMAC c0).
Proof. unfold GetOrCreate. cbv zeta. split; [done|]. destruct (Clients p !! mac) as [c0|]; [right; by exists c0|by left]. Qed.

(** What a login leaves: the record of the new session, authenticated only if the policy allowed it. *)
Lemma establish_cases site mac ip a sid persists now w e p' : portal_ok w -> sid <> "" -> sid ∉ Issued w ->
  establishAuthenticatedSession site mac ip a sid persists now (WPortal w) = (e, p') ->
  exists c, ClMAC c = mac /\ ClSessionID c = sid /\ ClUsername c = AuUsername a
    /\ match e with
       | Some _ => p' = put_client mac c (WPortal w)
       | None => allowed (mkLogin mac sid a site) /\ ClState c = StateAuthenticated
                 /\ p' = if persists then persistSession c now (put_client mac c (WPortal w)) else put_client mac c (WPortal w)
       end.
Proof.
  intros Hw Hne Hnew. unfold establishAuthenticatedSession. pose proof (GetOrCreate_fields mac ip now (WPortal w)) as Hg.
  destruct (GetOrCreate _ _ _ _) as [c0 p0]. destruct Hg as [-> Hmac].
  assert (ClMAC c0 = mac) as Hm by (destruct Hmac as [?|(c1 & Hc1 & ->)]; [done|by apply (co_mac _ _ _ (po_clients _ Hw _ _ Hc1))]).
  pose proof (populate_fields site c0 a sid now) as Hf. pose proof (populate_allowed site c0 a sid now mac Hm) as Hall.
  destruct (populateAuthenticatedClient _ _ _ _ _) as [c failed]. cbn [fst snd] in Hf, Hall. cbv zeta in Hf. destruct Hf as (H1 & _ & _ & H4 & H5).
  assert (forall c1 c2 q, put_client mac c2 (put_client mac c1 q) = put_client mac c2 q) as Hput.
  { intros c1 c2 q. unfold put_client. cbn. by rewrite insert_insert_eq. }
  destruct failed as [err|].
  - intros [= <- <-]. exists c. rewrite Hput. split_and!; congruence || done.
  - unfold Transition. cbn [Clients put_client]. rewrite lookup_insert_eq. rewrite (bool_decide_true (StateAuthenticated = _)) by done. cbn [andb].
    set (c' := mkClient _ _ StateAuthenticated _ _ _ _ _ _ _ _ _ _ _ _ _ _ _ _). intros [= <- <-]. exists c'.
    split_and!; [cbn; congruence|done|done|by apply Hall|done|]. destruct persists; by rewrite !Hput.
Qed.

Lemma session_row_same c now before : RwMAC (session_row c now before) = ClMAC c /\ RwUsername (session_row c now before) = ClUsername c.
Proof. done. Qed.

Lemma portal_ok_login site mac ip a sid persists now p issued logins e p' :
  portal_ok (mkWorld p issued logins) -> sid <> "" -> sid ∉ issued -> establishAuthenticatedSession site mac ip a sid persists now p = (e, p') ->
  portal_ok (mkWorld p' ({[sid]} ∪ issued) (match e with None => mkLogin mac sid a site :: logins | Some _ => logins end)).
Proof.
  intros Hw Hne Hnew He. destruct (establish_cases site mac ip a sid persists now _ e p' Hw Hne Hnew He) as (c & Hmac & Hsid & Huser & Hcase).
  assert (Sessions p !! sid = None) as Hno.
  { apply eq_None_not_Some. intros [r Hr]. by destruct (po_rows _ Hw _ _ Hr) as (? & _). }
  set (logins' := match e with None => _ | Some _ => _ end).
  assert (portal_ok (mkWorld (put_client mac c p) ({[sid]} ∪ issued) logins')) as Hw1.
  { destruct Hw as [C Rw L]. cbn in *. split; cbn.
    - intros m c'. intros [[<- <-]|[_ Hm]]%lookup_insert_Some.
      + split; cbn; [done|rewrite Hsid; set_solver|by rewrite Hsid|]. intros r. rewrite Hsid. congruence.
      + destruct (C _ _ Hm) as [A1 A2 A3 A4]. split; cbn; [done|set_solver|done|done].
    - intros i r Hr. destruct (Rw _ _ Hr) as (A1 & A2 & l & A3 & A4 & A5 & A6). split_and!; [set_solver|done|]. exists l. split_and!; [|done..].
      unfold logins'. destruct e; [done|by right].
    - intros l Hl. unfold logins' in Hl. destruct e; [by apply L|]. apply elem_of_cons in Hl as [->|Hl]; [apply Hcase|by apply L]. }
  destruct e as [err|]; [by rewrite Hcase|]. destruct Hcase as (Hall & Hst & Hp'). destruct persists; [|by rewrite Hp']. rewrite Hp'.
  unfold persistSession. cbn [Sessions put_client Clients]. rewrite Hsid. destruct Hw1 as [C Rw L]. cbn in C, Rw, L. split; cbn; [..|done].
  - intros m c' Hc'. destruct (C _ _ Hc') as [A1 A2 A3 A4]. split; cbn; [done..|]. intros r [[Heq <-]|[_ Hr]]%lookup_insert_Some; [|by apply A4].
    revert Hc'. intros [[<- <-]|[Hm Hc']]%lookup_insert_Some; [done|]. exfalso. destruct (po_clients _ Hw _ _ Hc') as [_ B2 _ _]. cbn in B2.
    apply Hnew. rewrite Heq. apply B2. by rewrite <- Heq.
  - intros i r [[<- <-]|[_ Hr]]%lookup_insert_Some; [|by apply Rw]. split_and!; [set_solver|done|]. exists (mkLogin mac sid a site).
    split_and!; [unfold logins'; left|done|done|done].
Qed.

Lemma portal_ok_step w w' : step w w' -> portal_ok w -> portal_ok w'.
Proof.
  intros Hs Hw. destruct Hs.
  - by eapply portal_ok_login.
  - by apply (portal_ok_query _ _ _ Hw).
  - by apply (portal_ok_logout _ _ _ _ _ Hw).
  - apply (portal_ok_clients _ _ Hw). cbn. by intros mac c [Hc _]%map_lookup_filter_Some.
  - by apply (portal_ok_restart _ Hw).
  - by apply (portal_ok_ended _ _ _ _ Hw).
Qed.

Lemma portal_ok_reachable w : reachable w -> portal_ok w.
Proof.
  intros Hr. assert (forall w0, rtc step w0 w -> portal_ok w0 -> portal_ok w) as Hind.
  { clear Hr. intros w0 Hr. induction Hr as [|? ? ? Hs _ IH]; [done|]. intros. apply IH. by eapply portal_ok_step. }
  apply (Hind _ Hr portal_ok_init).
Qed.

Lemma IsAuthenticated_inv mac p p' : IsAuthenticated true mac p = (true, p') ->
  exists c, Clients p !! mac = Some c /\ ClState c = StateAuthenticated /\ (ClSessionID c = "" \/ session_open p (ClSessionID c) = true) /\ p' = p.
Proof.
  unfold IsAuthenticated. destruct (Clients p !! mac) as [c|] eqn:Hc; [|done]. case_bool_decide as Hst; [|done]. cbn [negb].
  unfold ensureSessionStillActive. cbn [negb orb]. rewrite orb_false_r. destruct (_ || _) eqn:E.
  - intros [= <-]. exists c. apply orb_true_iff in E as [E|E]; [apply String.eqb_eq in E|]; auto.
  - rewrite Hc. by destruct (negb _).
Qed.


(** ** Logout and restart *)

Lemma load_clients p l mac : let p' := foldl (fun p '(sid, r) => if loaded r then put_client (RwMAC r) (restored sid r) p else p) p l in
  Sessions p' = Sessions p
  /\ match Clients p' !! mac with
     | Some c => (exists sid r, (sid, r) ∈ l /\ loaded r = true /\ RwMAC r = mac /\ c = restored sid r)
                 \/ Clients p !! mac = Some c /\ forall sid r, (sid, r) ∈ l -> loaded r = true -> RwMAC r <> mac
     | None => Clients p !! mac = None /\ forall sid r, (sid, r) ∈ l -> loaded r = true -> RwMAC r <> mac
     end.
Proof.
  revert p. induction l as [|[sid r] l IH]; intros p; cbn [foldl].
  - split; [done|]. assert (forall sid r, (sid, r) ∈ ([] : list (string * SessionRow)) -> loaded r = true -> RwMAC r <> mac) by (by intros ? ? ?%not_elem_of_nil).
    destruct (Clients p !! mac); [right|]; done.
  - set (p1 := if loaded r then _ else p). destruct (IH p1) as [IH1 IH2]. clear IH. split; [rewrite IH1; unfold p1; by destruct (loaded r)|].
    assert (loaded r = true /\ RwMAC r = mac /\ Clients p1 !! mac = Some (restored sid r)
            \/ (loaded r = true -> RwMAC r <> mac) /\ Clients p1 !! mac = Clients p !! mac) as Hone.
    { unfold p1. destruct (loaded r) eqn:He; [|by right]. cbn. destruct (decide (RwMAC r = mac)) as [->|Hne]; [left; by rewrite lookup_insert_eq|].
      right. by rewrite lookup_insert_ne. }
    assert (forall (P : string -> SessionRow -> Prop), (forall s r', (s, r') ∈ l -> P s r') -> P sid r -> forall s r', (s, r') ∈ (sid, r) :: l -> P s r') as Hcons.
    { intros P Hl Hh s r' [Heq|Hin]%elem_of_cons; [by injection Heq as -> ->|by apply Hl]. }
    destruct (Clients _ !! mac) as [c|].
    + destruct IH2 as [(s & r' & Hin & ?)|[Hc Hno]]; [left; exists s, r'; split; [by right|done]|].
      destruct Hone as [(H1 & H2 & H3)|[H1 H2]]; [left; exists sid, r; split_and!; [left|done|done|congruence]|].
      right. rewrite <- H2. split; [done|]. by apply (Hcons (fun s r' => loaded r' = true -> RwMAC r' <> mac)).
    + destruct IH2 as [Hc Hno]. destruct Hone as [(H1 & H2 & H3)|[H1 H2]]; [congruence|]. rewrite <- H2. split; [done|].
      by apply (Hcons (fun s r' => loaded r' = true -> RwMAC r' <> mac)).
Qed.

(** After a restart exactly the clients with a loaded session are there, each from one of them. *)
Lemma restart_clients p mac :
  Sessions (restart p) = Sessions p
  /\ match Clients (restart p) !! mac with
     | Some c => exists sid r, Sessions p !! sid = Some r /\ loaded r = true /\ RwMAC r = mac /\ c = restored sid r
     | None => forall sid r, Sessions p !! sid = Some r -> loaded r = true -> RwMAC r <> mac
     end.
Proof.
  unfold restart, LoadSessionsFromDB. pose proof (load_clients (mkPortal ∅ (Sessions p)) (range_map (Sessions (mkPortal ∅ (Sessions p)))) mac) as [Hs Hc].
  split; [exact Hs|]. cbn [Sessions Clients] in *. destruct (Clients _ !! mac) as [c|].
  - destruct Hc as [(sid & r & Hin & ?)|[Hc _]]; [|by rewrite lookup_empty in Hc]. exists sid, r. by rewrite <- elem_of_range_map.
  - intros sid r Hr. apply (proj2 Hc sid r). by apply elem_of_range_map.
Qed.

(** With an open session in the table a restarted portal lets the client through. *)
Lemma loaded_open r : loaded r = true -> RwEndTime r = None.
Proof. unfold loaded. case_bool_decide; done. Qed.

Lemma restart_lets_in p mac sid r : Sessions p !! sid = Some r -> loaded r = true -> RwMAC r = mac ->
  (IsAuthenticated true mac (restart p)).1 = true.
Proof.
  intros Hr He Hm. destruct (restart_clients p mac) as [Hs Hc]. unfold IsAuthenticated. destruct (Clients (restart p) !! mac) as [c|]; [|by destruct (Hc _ _ Hr He)].
  destruct Hc as (sid' & r' & Hr' & He' & _ & ->). cbn [ClState restored bool_decide]. rewrite bool_decide_true by done. cbn [negb].
  unfold ensureSessionStillActive. cbn [ClSessionID restored]. assert (session_open (restart p) sid' = true) as ->; [|by rewrite orb_true_r].
  unfold session_open. rewrite Hs, Hr'. apply bool_decide_eq_true. by apply loaded_open.
Qed.

Lemma restart_keeps_out p mac : (forall sid r, Sessions p !! sid = Some r -> RwMAC r = mac -> RwEndTime r <> None) ->
  (IsAuthenticated true mac (restart p)).1 = false.
Proof.
  intros Hno. destruct (restart_clients p mac) as [_ Hc]. unfold IsAuthenticated. destruct (Clients (restart p) !! mac) as [c|]; [|done].
  destruct Hc as (sid & r & Hr & He%loaded_open & Hm & _). by destruct (Hno _ _ Hr Hm).
Qed.

(** The effect of a logout on an authenticated client whose session is open. *)
Lemma HandleLogout_open mac now p c r : mac <> "" -> Clients p !! mac = Some c -> ClState c = StateAuthenticated -> ClSessionID c <> "" ->
  Sessions p !! ClSessionID c = Some r -> RwEndTime r = None ->
  HandleLogout true true mac now p
  = mkPortal (<[mac := reset_client (ClACLPolicyName c) (Some now) c]> (Clients p)) (alter (ended now "user logout") (ClSessionID c) (Sessions p)).
Proof.
  intros Hmac%String.eqb_neq Hc Hst Hsid%String.eqb_neq Hr He. unfold HandleLogout, GetClient. rewrite Hmac, Hc. rewrite bool_decide_true by done.
  unfold ensureSessionStillActive, session_open. rewrite Hr. rewrite (bool_decide_true (RwEndTime r = None)) by done. rewrite orb_true_r.
  rewrite bool_decide_true by done. unfold EndSession. rewrite Hc, Hsid. cbn [negb andb]. done.
Qed.

(** Logging out ends the client's session and nothing else: the session is closed with time and reason, the client is
    redirected to the portal again, and when that was the last open session of its MAC address, no restart brings it
    back. *)
Theorem logout_ends (p : Portal) (mac : string) (now : Z) (c : Client) (r : SessionRow) :
  mac <> "" -> Clients p !! mac = Some c -> ClState c = StateAuthenticated -> ClSessionID c <> "" ->
  Sessions p !! ClSessionID c = Some r -> RwEndTime r = None ->
  let p' := HandleLogout true true mac now p in
  Sessions p' !! ClSessionID c = Some (ended now "user logout" r)
  /\ (forall sid, sid <> ClSessionID c -> Sessions p' !! sid = Sessions p !! sid)
  /\ (forall m, m <> mac -> Clients p' !! m = Clients p !! m)
  /\ (ShouldRedirect true mac p').1 = true
  /\ ((forall sid r', Sessions p !! sid = Some r' -> RwMAC r' = mac -> RwEndTime r' = None -> sid = ClSessionID c) ->
      (IsAuthenticated true mac (restart p')).1 = false).
Proof.
  intros Hmac Hc Hst Hsid Hr He. cbv zeta. rewrite (HandleLogout_open _ _ _ _ _ Hmac Hc Hst Hsid Hr He). cbn [Sessions Clients]. split_and!.
  - by rewrite lookup_alter_eq, Hr.
  - intros sid Hne. by rewrite lookup_alter_ne.
  - intros m Hne. by rewrite lookup_insert_ne.
  - unfold ShouldRedirect. cbn [Clients]. by rewrite lookup_insert_eq.
  - intros Honly. apply restart_keeps_out. cbn [Sessions]. intros sid r' (r0 & Hr0 & Hm0 & _ & Hopen)%lookup_ended Hm' He'.
    destruct (Hopen He') as [-> Hne]. apply Hne. by apply (Honly _ _ Hr0).
Qed.

(** A second login of a client that is logged in, by anyone, detaches the first session without ending it: when the
    second login is rejected the client is no longer let through, and when it is accepted and then logged out neither,
    but in both cases the first session stays open in the database, and a restart lets the client through in its name
    without a login. *)
Theorem relogin_leaves_session_open (site : Site) (mac ip : string) (a : AuthResult) (sid1 sid2 : string) (now now2 : Z) (w : World)
    (e : option portal_error) (p2 : Portal) (r1 : SessionRow) :
  reachable w -> mac <> "" -> Sessions (WPortal w) !! sid1 = Some r1 -> loaded r1 = true -> RwMAC r1 = mac ->
  sid2 <> "" -> sid2 ∉ Issued w -> establishAuthenticatedSession site mac ip a sid2 true now (WPortal w) = (e, p2) ->
  let p3 := match e with Some _ => p2 | None => HandleLogout true true mac now2 p2 end in
  (IsAuthenticated true mac p3).1 = false /\ Sessions p3 !! sid1 = Some r1 /\ (IsAuthenticated true mac (restart p3)).1 = true.
Proof.
  intros Hw%portal_ok_reachable Hmac Hr1 He1 Hm1 Hne Hnew Hest. cbv zeta.
  assert (sid1 <> sid2) as Hne12. { intros ->. by destruct (po_rows _ Hw _ _ Hr1) as (? & _). }
  assert (Sessions (WPortal w) !! sid2 = None) as Hno. { apply eq_None_not_Some. intros [r Hr]. by destruct (po_rows _ Hw _ _ Hr) as (? & _). }
  destruct (establish_cases _ _ _ _ _ _ _ _ _ _ Hw Hne Hnew Hest) as (c & Hcm & Hcs & _ & Hcase). destruct e as [err|].
  - subst p2. split_and!; [|exact Hr1|by eapply restart_lets_in]. unfold IsAuthenticated. cbn [Clients put_client]. rewrite lookup_insert_eq.
    destruct (negb _); [done|]. unfold ensureSessionStillActive, session_open. cbn [Sessions put_client Clients]. rewrite Hcs, Hno, lookup_insert_eq, Hcs.
    apply String.eqb_neq in Hne as ->. rewrite String.eqb_refl. done.
  - destruct Hcase as (_ & Hst & ->). cbn iota.
    assert (Sessions (persistSession c now (put_client mac c (WPortal w))) !! sid2 = Some (session_row c now None)) as Hrow.
    { cbn. rewrite Hcs, lookup_insert_eq. by rewrite Hno. }
    rewrite (HandleLogout_open mac now2 _ c (session_row c now None)); [|done|cbn; by rewrite lookup_insert_eq|done|congruence|by rewrite Hcs|done].
    cbn [Clients Sessions persistSession put_client]. rewrite Hcs. split_and!.
    + unfold IsAuthenticated. cbn [Clients]. by rewrite lookup_insert_eq.
    + by rewrite lookup_alter_ne, lookup_insert_ne by done.
    + apply (restart_lets_in _ mac sid1 r1); [|done|done]. cbn [Sessions]. by rewrite lookup_alter_ne, lookup_insert_ne by done.
Qed.

(** A stored string of blanks comes back empty. *)
Definition blank_cleared (value : string) : string := if (TrimSpace value =? "")%string then "" else value.

Definition as_stored (c : Client) : Client :=
  mkClient (ClMAC c) (ClIP c) (ClState c) (ClUsername c) (ClSessionID c) (ClLastSeen c) (ClAuthMethod c) (ClIdentitySource c)
    (ClRole c) (blank_cleared (ClBandwidthProfile c)) (blank_cleared (ClFilterID c)) (blank_cleared (ClACLPolicyName c))
    (blank_cleared (ClRadiusClass c)) (blank_cleared (ClCalledStationID c)) (blank_cleared (ClNASIdentifier c))
    (ClStartTime c) (ClVLAN c) (ClSessionTimeout c) (ClIdleTimeout c).

Lemma nullIfEmpty_default s : default "" (nullIfEmpty s) = blank_cleared s.
Proof. unfold nullIfEmpty, blank_cleared. by destruct (_ =? _)%string. Qed.
Lemma nullIfZero_default n : default 0 (nullIfZero n) = n.
Proof. unfold nullIfZero. destruct (n =? 0) eqn:E; [|done]. by apply Z.eqb_eq in E. Qed.

(** Storing a client for the first time and restoring it. *)
Lemma restored_session_row c now : ClState c = StateAuthenticated -> ClLastSeen c <> None -> ClStartTime c <> None ->
  restored (ClSessionID c) (session_row c now None) = as_stored c.
Proof.
  destruct c as [mac ip st user sid [seen|] meth src role bw fid acl cls called nas [start|] vlan sto ito]; cbn; intros -> ? ?; try done.
  unfold restored, as_stored, session_row. cbn. by rewrite !nullIfEmpty_default, !nullIfZero_default.
Qed.

Lemma populate_times site c a sid now : let c' := (populateAuthenticatedClient site c a sid now).1 in ClLastSeen c' = Some now /\ ClStartTime c' = Some now.
Proof. unfold populateAuthenticatedClient. cbv zeta. repeat case_match; done. Qed.

(** A restart gives back what a login made: after an accepted and stored login of a client without other open
    sessions, the client a restarted portal loads is the one in memory before, every field included, but for strings of
    blanks, which come back empty, when its numbers fit the 32 bits of the scan; no other session's client is changed by the login. *)
Theorem restart_restores_login (site : Site) (mac ip : string) (a : AuthResult) (sid : string) (now : Z) (w : World) (p' : Portal) :
  reachable w -> sid <> "" -> sid ∉ Issued w ->
  (forall s r, Sessions (WPortal w) !! s = Some r -> RwEndTime r = None -> RwMAC r <> mac) ->
  establishAuthenticatedSession site mac ip a sid true now (WPortal w) = (None, p') ->
  exists c, Clients p' !! mac = Some c /\ ClState c = StateAuthenticated /\ ClStartTime c = Some now
    /\ (fits32 (ClVLAN c) && fits32 (ClSessionTimeout c) && fits32 (ClIdleTimeout c) = true -> Clients (restart p') !! mac = Some (as_stored c))
    /\ forall m, m <> mac -> Clients p' !! m = Clients (WPortal w) !! m.
Proof.
  intros Hw%portal_ok_reachable Hne Hnew Hnone Hest.
  destruct (establish_cases _ _ _ _ _ _ _ _ _ _ Hw Hne Hnew Hest) as (c & Hmac & Hsid & _ & _ & Hst & Hp).
  assert (ClLastSeen c = Some now /\ ClStartTime c = Some now) as [Hseen Hstart].
  { revert Hest. unfold establishAuthenticatedSession. destruct (GetOrCreate _ _ _ _) as [c0 p0].
    pose proof (populate_times site c0 a sid now) as Ht. destruct (populateAuthenticatedClient _ _ _ _ _) as [c1 [err|]]; [done|].
    cbn [fst] in Ht. unfold Transition. cbn [Clients put_client]. rewrite lookup_insert_eq. intros [= Heq]. rewrite <- Heq in Hp. clear Heq.
    apply (f_equal (fun p => Clients p !! mac)) in Hp. cbn in Hp. rewrite !lookup_insert_eq in Hp. injection Hp as <-. cbn.
    destruct Ht as [_ ->]. done. }
  exists c. subst p'. cbn. rewrite lookup_insert_eq. split_and!; try done; [|intros m Hm; by rewrite lookup_insert_ne].
  assert (Sessions (WPortal w) !! sid = None) as Hno. { apply eq_None_not_Some. intros [r Hr]. by destruct (po_rows _ Hw _ _ Hr) as (? & _). }
  set (p' := persistSession _ _ _). assert (Sessions p' = <[sid := session_row c now None]> (Sessions (WPortal w))) as Hrows.
  { unfold p'. cbn. by rewrite Hsid, Hno. }
  intros Hfit. destruct (restart_clients p' mac) as [_ Hc]. rewrite Hrows in Hc. destruct (Clients (restart p') !! mac) as [c'|].
  - destruct Hc as (s & r & Hr & He & Hm & ->). apply lookup_insert_Some in Hr as [[<- <-]|[_ Hr]]; [|by destruct (Hnone _ _ Hr (loaded_open _ He))].
    f_equal. rewrite <- Hsid. apply restored_session_row; congruence.
  - destruct (Hc sid (session_row c now None)); [by rewrite lookup_insert_eq| |done].
    unfold loaded. cbn. by rewrite !nullIfZero_default.
Qed.
End Server.

(** ** Witnesses *)

#[local] Instance no_digest : PolicyDigest :=
  {| rules_digest := fun _ => ""; request_digest := fun _ => ""; set_digest := fun _ => ""; rule_digest := fun _ => ""; text_digest := fun s => s |}.
#[local] Instance no_chain_digest : ChainDigest := fun _ => "".

Definition example_site : Site :=
  mkSite "guest" "portal" (fun _ => Ok (Some (mkRoleRow (Some 30) (Some "slow") None (Some 600) None)))
    (mkEnvironment None false 0 (Ok None) (fun _ => Ok None) (Ok [example_rule "a" 9 "allow"]) (fun _ => None) (fun _ _ _ => "")) 0.
Definition bob : AuthResult := mkAuthResult "bob" "" [] "local" "password" "" " " "" "" 0 0 0.
Definition example_login (sid : string) (p : Portal) : option portal_error * Portal :=
  establishAuthenticatedSession example_site "m1" "10.0.0.7" bob sid true 5 p.
Definition after_login : Portal := (example_login "s1" (mkPortal ∅ ∅)).2.
Definition world_after_login : World := mkWorld after_login ({["s1"]} ∪ ∅) [mkLogin "m1" "s1" bob example_site].

Example login_accepted : (example_login "s1" (mkPortal ∅ ∅)).1 = None.
Proof. vm_compute. reflexivity. Qed.

Lemma reachable_after_login : reachable world_after_login.
Proof.
  apply rtc_once. unfold world_after_login.
  apply (StepLogin example_site "m1" "10.0.0.7" bob "s1" true 5 (mkPortal ∅ ∅) ∅ [] None after_login); [done|set_solver|].
  unfold after_login. rewrite <- login_accepted. apply surjective_pairing.
Qed.


(** The records the example's login left. *)
Definition client_after_login : Client := default (mkClient "" "" StateUnknown "" "" None "" "" "" "" "" "" "" "" "" None 0 0 0) (Clients after_login !! "m1").
Definition row_after_login : SessionRow := session_row client_after_login 5 None.

Lemma logout_ends_witness :
  (IsAuthenticated true "m1" (restart (HandleLogout true true "m1" 9 after_login))).1 = false.
Proof.
  refine (proj2 (proj2 (proj2 (proj2 (logout_ends after_login "m1" 9 client_after_login row_after_login _ _ _ _ _ _)))) _);
    try (vm_compute; first [reflexivity|discriminate]).
  intros sid r Hr _ _. destruct (decide (sid = "s1")) as [->|Hne]; [vm_compute; reflexivity|].
  assert (Sessions after_login = {["s1" := row_after_login]}) as Hs by (vm_compute; reflexivity).
  rewrite Hs, lookup_singleton_ne in Hr by congruence. discriminate Hr.
Defined.

Lemma relogin_leaves_session_open_witness :
  (IsAuthenticated true "m1" (restart (HandleLogout true true "m1" 9 (example_login "s2" after_login).2))).1 = true.
Proof.
  assert (example_login "s2" after_login = (None, (example_login "s2" after_login).2)) as Hlogin
    by (vm_compute; reflexivity).
  refine (proj2 (proj2 (relogin_leaves_session_open example_site "m1" "10.0.0.7" bob "s1" "s2" 5 9 world_after_login None
    (example_login "s2" after_login).2 row_after_login reachable_after_login _ _ _ _ _ _ Hlogin)));
    try (vm_compute; first [reflexivity|discriminate]).
Defined.

Lemma restart_restores_login_witness :
  exists c, Clients (restart after_login) !! "m1" = Some (as_stored c) /\ ClACLPolicyName c = " ".
Proof.
  assert (reachable (mkWorld (mkPortal ∅ ∅) ∅ [])) as Hr by apply rtc_refl.
  assert (example_login "s1" (mkPortal ∅ ∅) = (None, after_login)) as Hlogin by (vm_compute; reflexivity).
  destruct (restart_restores_login example_site "m1" "10.0.0.7" bob "s1" 5 _ after_login Hr ltac:(discriminate)
    ltac:(cbn; set_solver) ltac:(intros s r H _; cbn in H; rewrite lookup_empty in H; discriminate H) Hlogin) as (c & Hc & _ & _ & Hres & _).
  exists c. assert (Clients after_login !! "m1" = Some client_after_login) as Hc2 by (vm_compute; reflexivity).
  assert (c = client_after_login) as -> by congruence. split; [apply Hres|]; vm_compute; reflexivity.
Defined.
