(* ===== verification/GuestWorkflow.v ===== *)
(** * Guest registrations ([internal/portal/guestworkflow/service.go])

    A guest registers at the captive portal; a sponsor with the link of the request, or an administrator, approves or rejects it; an approval creates a local
    user, and the guest completes the registration with the link that the portal gave. The handlers, vouchers and the sessions are in [GuestAccess].

    What comes from outside is an argument: random bytes, the id and the salt ([Entropy]), the clock, which stands still during an operation, whether a message
    is delivered ([Sender]), and whether [net/url] accepts an address ([RequestURI]). The configuration is loaded and the database is open; a statement fails
    where a constraint of its table refuses it. An absent text of a column is the empty text, as the queries read it; texts of times are the instants. *)

From S2P Require Import Prelude GoStrings Bytes IdentityFailover Sha.
From Stdlib Require Import Ascii String.

Definition StatusPending : string := "pending".
Definition StatusApproved : string := "approved".
Definition StatusRejected : string := "rejected".
Definition StatusCompleted : string := "completed".

Record RegistrationRequest := mkRegistrationRequest {
  RrFullName : string; RrEmail : string; RrPhone : string; RrCompany : string; RrPurpose : string; RrSponsorName : string; RrSponsorEmail : string;
  RrSponsorPhone : string; RrClientMAC : string; RrClientIP : string; RrPortalBaseURL : string }.

(** What became of a message: its status and error *)
Record Delivery := mkDelivery { DlStatus : string; DlError : string }.

(** [Registration], with the fields that it has from the request as one. *)
Record Registration := mkRegistration {
  RgID : string; RgStatus : string; RgTenant : string; RgGuest : RegistrationRequest; RgUsername : string; RgRole : string; RgApprovedBy : string;
  RgRejectionReason : string; RgApproval : Delivery; RgInvite : Delivery; RgCreatedAt : Z; RgUpdatedAt : Z; RgApprovedAt : option Z; RgRejectedAt : option Z;
  RgCompletedAt : option Z; RgExpiresAt : Z; RgGuestToken : string; RgApprovalToken : string }.
Record GuestAuthResult := mkGuestAuthResult { GaUsername : string; GaRole : string }.

(** The fields of the configuration that the service reads *)
Record GuestConfig := mkGuestConfig {
  GcSelfRegistrationEnabled : bool; GcSponsorApprovalEnabled : bool; GcApprovalDelivery : string; GcInviteDelivery : string; GcEmailFrom : string;
  GcSMSProvider : string; GcSMSEndpoint : string; GcBranding : string; GcDefaultRole : string }.

Inductive Message :=
| Email (from to subject body : string)
| SMS (provider endpoint to message : string).
(** [DeliverySender]: the error of a message that cannot be delivered *)
Definition Sender : Type := Message -> option string.
(** The error of [url.ParseRequestURI] *)
Class RequestURI := parse_request_uri : string -> option string.

(** A row of [guest_registrations], of [local_users] (whose key is the name) and of [audit_logs] *)
Record RegistrationRow := mkRegistrationRow { RowRecord : Registration; RowApprovalHash : option string; RowGuestHash : string }.
Record GuestUser := mkGuestUser { GuPasswordHash : string; GuRole : string; GuFullName : option string; GuEmail : option string; GuTenant : option string }.
Record AuditEntry := mkAuditEntry { AeUser : string; AeAction : string; AeDetails : string; AeResult : string; AeIPAddress : option string }.
(** The rows in the order of their insertion, the users, and what only is written: audit entries, alerts (message and details), the runtime status and the messages
    handed to the sender, latest last *)
Record GuestDB := mkGuestDB {
  DbRows : list RegistrationRow; DbUsers : gmap string GuestUser; DbAudit : list AuditEntry; DbAlerts : list (string * string); DbRuntime : option (string * string);
  DbOutbox : list Message }.
Definition with_rows (rows : list RegistrationRow) (db : GuestDB) : GuestDB := mkGuestDB rows (DbUsers db) (DbAudit db) (DbAlerts db) (DbRuntime db) (DbOutbox db).
Definition with_users (users : gmap string GuestUser) (db : GuestDB) : GuestDB := mkGuestDB (DbRows db) users (DbAudit db) (DbAlerts db) (DbRuntime db) (DbOutbox db).

Record Entropy := mkEntropy { EyID : string; EyGuestToken : list Z; EyApprovalToken : list Z; EyPassword : list Z; EySalt : string }.

(** ** Texts *)

Definition nullable (value : string) : option string := if blank value then None else Some (TrimSpace value).
Definition coalesced (value : string) : string := default "" (nullable value).
Definition blankAs (value fallback : string) : string := if blank value then fallback else TrimSpace value.
Definition compactSMS (value : string) : string := Join (Fields value) " ".
Definition newline : string := String "010"%char "".
Definition slash (c : ascii) : bool := (c =? "/")%char.

(** [url.QueryEscape] *)
Definition unreserved (c : ascii) : bool :=
  in_range "a"%char "z"%char c || in_range "A"%char "Z"%char c || in_range "0"%char "9"%char c
  || (c =? "-")%char || (c =? "_")%char || (c =? ".")%char || (c =? "~")%char.
Definition upper_hex (d : Z) : ascii := ascii_of_N (Z.to_N (if d <? 10 then 48 + d else 55 + d)).
Fixpoint QueryEscape (s : string) : string :=
  match s with
  | EmptyString => ""
  | String c s =>
      if unreserved c then String c (QueryEscape s)
      else if (c =? " ")%char then String "+"%char (QueryEscape s)
      else String "%"%char (String (upper_hex (Z.shiftr (byte_of c) 4)) (String (upper_hex (Z.land (byte_of c) 15)) (QueryEscape s)))
  end.

Section texts.
Context {U : Unicode} {HD : HexDigest}.

Definition hashToken (value : string) : string := hex_digest value.
(** The token and its hash *)
Definition generateToken (bytes : list Z) : string * string := let raw := hex_encode bytes in (raw, hashToken raw).

Definition alphabet : list ascii := list_ascii_of_string "ABCDEFGHJKLMNPQRSTUVWXYZabcdefghijkmnopqrstuvwxyz23456789".
Definition generatePassword (length : Z) (randBytes : list Z) : string :=
  let length := if length <? 8 then 8 else length in
  string_of_list_ascii ((fun b => default "000"%char (alphabet !! Z.to_nat (b mod zlen alphabet))) <$> take (Z.to_nat length) randBytes).

Definition guestRole (cfg : GuestConfig) : string :=
  let role := TrimSpace (GcDefaultRole cfg) in
  if negb (role =? "")%string && negb (EqualFold role "admin") then role else "guest-basic".

Definition normalizeTenant (value : string) : string := TrimSpace (ToLower value).
Definition tenant_of (value : string) : option string :=
  let trimmed := normalizeTenant value in
  if (trimmed =? "")%string then None
  else match SplitChar trimmed "@"%char with
       | [_; domain] => if blank domain then None else Some (TrimSpace domain)
       | _ => None
       end.
Definition deriveTenant (values : list string) : string := default "" (firstSome tenant_of values).
Definition normalizeTenants (scopes : list string) : list string :=
  distinct_from [] (List.filter (fun scope => negb (scope =? "*")%string) (normalizeTenant <$> scopes)).
End texts.

(** ** Statements *)

Section statements.
Context {U : Unicode} {HD : HexDigest} {PH : PasswordHash}.

Definition has_id (id : string) (r : RegistrationRow) : bool := (RgID (RowRecord r) =? id)%string.
Definition row_of (id : string) (db : GuestDB) : option RegistrationRow := List.find (has_id id) (DbRows db).
Definition has_approval_hash (hash : string) (r : RegistrationRow) : bool := match RowApprovalHash r with Some h => (h =? hash)%string | None => false end.
Definition found (r : option RegistrationRow) : result string Registration :=
  match r with None => Err "guest registration not found" | Some r => Ok (RowRecord r) end.

Definition loadByID (id : string) (db : GuestDB) : result string Registration := found (row_of id db).
Definition recordTokenHashByID (id : string) (db : GuestDB) : string := match row_of id db with None => "" | Some r => TrimSpace (RowGuestHash r) end.
Definition matchToken (rawToken expectedHash : string) : option string :=
  if blank rawToken || blank expectedHash then Some "invalid token"
  else if negb (hashToken rawToken =? TrimSpace expectedHash)%string then Some "invalid token"
  else None.

Definition update_rows (id : string) (f : Registration -> Registration) (db : GuestDB) : GuestDB :=
  with_rows ((fun r => if has_id id r then mkRegistrationRow (f (RowRecord r)) (RowApprovalHash r) (RowGuestHash r) else r) <$> DbRows db) db.

(** What each [UPDATE] sets *)
Definition set_rejected (approver reason : string) (now : Z) (r : Registration) : Registration :=
  mkRegistration (RgID r) StatusRejected (RgTenant r) (RgGuest r) (RgUsername r) (RgRole r) (TrimSpace approver) (coalesced (TrimSpace reason)) (RgApproval r) (RgInvite r)
    (RgCreatedAt r) now (RgApprovedAt r) (Some now) (RgCompletedAt r) (RgExpiresAt r) (RgGuestToken r) (RgApprovalToken r).
Definition set_approved (approver username : string) (now : Z) (r : Registration) : Registration :=
  mkRegistration (RgID r) StatusApproved (RgTenant r) (RgGuest r) username (RgRole r) (TrimSpace approver) "" (RgApproval r) (RgInvite r)
    (RgCreatedAt r) now (Some now) (RgRejectedAt r) (RgCompletedAt r) (RgExpiresAt r) (RgGuestToken r) (RgApprovalToken r).
(** [completed_at] keeps its first value. *)
Definition set_completed (nextStatus : string) (now : Z) (r : Registration) : Registration :=
  mkRegistration (RgID r) nextStatus (RgTenant r) (RgGuest r) (RgUsername r) (RgRole r) (RgApprovedBy r) (RgRejectionReason r) (RgApproval r) (RgInvite r)
    (RgCreatedAt r) now (RgApprovedAt r) (RgRejectedAt r) (Some (default now (RgCompletedAt r))) (RgExpiresAt r) (RgGuestToken r) (RgApprovalToken r).
Definition set_delivery (approval : bool) (d : Delivery) (now : Z) (r : Registration) : Registration :=
  mkRegistration (RgID r) (RgStatus r) (RgTenant r) (RgGuest r) (RgUsername r) (RgRole r) (RgApprovedBy r) (RgRejectionReason r)
    (if approval then d else RgApproval r) (if approval then RgInvite r else d)
    (RgCreatedAt r) now (RgApprovedAt r) (RgRejectedAt r) (RgCompletedAt r) (RgExpiresAt r) (RgGuestToken r) (RgApprovalToken r).

Definition updateDeliveryStatus (id deliveryType status message : string) (now : Z) (db : GuestDB) : GuestDB :=
  update_rows id (set_delivery (deliveryType =? "approval")%string (mkDelivery status (coalesced (TrimSpace message))) now) db.

Definition audit (user action details result_ ipAddress : string) (db : GuestDB) : GuestDB :=
  mkGuestDB (DbRows db) (DbUsers db) (DbAudit db ++ [mkAuditEntry (blankAs user "guest") action details result_ (nullable (TrimSpace ipAddress))]) (DbAlerts db) (DbRuntime db) (DbOutbox db).
Definition handed_over (m : Message) (db : GuestDB) : GuestDB :=
  mkGuestDB (DbRows db) (DbUsers db) (DbAudit db) (DbAlerts db) (DbRuntime db) (DbOutbox db ++ [m]).

Definition recordDeliveryFailure (id deliveryType error : string) (now : Z) (db : GuestDB) : GuestDB :=
  let db := updateDeliveryStatus id deliveryType "failed" error now db in
  mkGuestDB (DbRows db) (DbUsers db) (DbAudit db)
    (DbAlerts db ++ [("Guest workflow delivery failed", deliveryType +:+ " delivery failed for " +:+ id +:+ ": " +:+ error)])
    (Some ("degraded", "Guest workflow " +:+ deliveryType +:+ " delivery failed: " +:+ error)) (DbOutbox db).

(** [INSERT INTO guest_registrations] *)
Definition insert_registration (record : Registration) (approvalHash guestHash : string) (db : GuestDB) : result string GuestDB :=
  match row_of (RgID record) db with
  | Some _ => Err "UNIQUE constraint failed: guest_registrations.id"
  | None => Ok (with_rows (DbRows db ++ [mkRegistrationRow record (nullable approvalHash) guestHash]) db)
  end.
Definition insert_user (username : string) (user : GuestUser) (db : GuestDB) : result string GuestDB :=
  match DbUsers db !! username with
  | Some _ => Err "UNIQUE constraint failed: local_users.username"
  | None => Ok (with_users (<[username := user]> (DbUsers db)) db)
  end.

Fixpoint free_username (base : string) (tries : nat) (i : Z) (username : string) (users : gmap string GuestUser) : result string string :=
  match tries with
  | O => Err "could not allocate unique guest username"
  | S tries => match users !! username with
               | None => Ok username
               | Some _ => free_username base tries (i + 1) (base +:+ "_" +:+ Itoa i) users
               end
  end.
(** An id of fewer than eight bytes panics, which ends the transaction like an error. *)
Definition uniqueGuestUsernameTx (record : Registration) (users : gmap string GuestUser) : result string string :=
  if (String.length (RgID record) <? 8)%nat then Err "panic: slice bounds out of range"
  else let base := "guest_" +:+ RemoveAllChar (String.substring 0 8 (RgID record)) "-"%char in free_username base 999 1 base users.
End statements.

(** ** The service *)

Section service.
Context {U : Unicode} {HD : HexDigest} {PH : PasswordHash} {RU : RequestURI}.
Context (cfg : GuestConfig) (send : Sender).

Definition inviteMode : string := lower_trim (GcInviteDelivery cfg).
Definition approvalMode : string := lower_trim (GcApprovalDelivery cfg).

(** The error *)
Definition validateRequest (req : RegistrationRequest) : option string :=
  if blank (RrFullName req) then Some "full name is required"
  else if blank (RrClientMAC req) then Some "client MAC is required"
  else if blank (RrPortalBaseURL req) then Some "portal base URL is required"
  else match parse_request_uri (RrPortalBaseURL req) with
  | Some e => Some ("invalid portal base URL: " +:+ e)
  | None =>
      if (inviteMode =? "email")%string && blank (RrEmail req) then Some "guest email is required for email invite delivery"
      else if (inviteMode =? "sms")%string && blank (RrPhone req) then Some "guest phone is required for SMS invite delivery"
      else if negb (GcSponsorApprovalEnabled cfg) then None
      else if (approvalMode =? "email")%string && blank (RrSponsorEmail req) then Some "sponsor email is required for sponsor approval"
      else if (approvalMode =? "sms")%string && blank (RrSponsorPhone req) then Some "sponsor phone is required for sponsor approval"
      else None
  end.

Definition trimmed_request (req : RegistrationRequest) : RegistrationRequest :=
  mkRegistrationRequest (TrimSpace (RrFullName req)) (TrimSpace (RrEmail req)) (TrimSpace (RrPhone req)) (TrimSpace (RrCompany req)) (TrimSpace (RrPurpose req))
    (TrimSpace (RrSponsorName req)) (TrimSpace (RrSponsorEmail req)) (TrimSpace (RrSponsorPhone req)) (TrimSpace (RrClientMAC req)) (TrimSpace (RrClientIP req))
    (TrimSpace (RrPortalBaseURL req)).

Definition new_registration (req : RegistrationRequest) (id guestToken approvalToken : string) (now : Z) : Registration :=
  mkRegistration id StatusPending (deriveTenant [RrSponsorEmail req; RrEmail req]) (trimmed_request req) "" (guestRole cfg) "" ""
    (mkDelivery (if GcSponsorApprovalEnabled cfg then "pending" else "not_required") "")
    (mkDelivery (if negb (blank (GcInviteDelivery cfg)) && negb (EqualFold (TrimSpace (GcInviteDelivery cfg)) "none") then "queued" else "not_requested") "")
    now now None None None (now + 24 * 3600) guestToken approvalToken.
(** The row is written without the tokens. *)
Definition without_tokens (r : Registration) : Registration :=
  mkRegistration (RgID r) (RgStatus r) (RgTenant r) (RgGuest r) (RgUsername r) (RgRole r) (RgApprovedBy r) (RgRejectionReason r) (RgApproval r) (RgInvite r)
    (RgCreatedAt r) (RgUpdatedAt r) (RgApprovedAt r) (RgRejectedAt r) (RgCompletedAt r) (RgExpiresAt r) "" "".
Definition with_guest_token (token : string) (r : Registration) : Registration :=
  mkRegistration (RgID r) (RgStatus r) (RgTenant r) (RgGuest r) (RgUsername r) (RgRole r) (RgApprovedBy r) (RgRejectionReason r) (RgApproval r) (RgInvite r)
    (RgCreatedAt r) (RgUpdatedAt r) (RgApprovedAt r) (RgRejectedAt r) (RgCompletedAt r) (RgExpiresAt r) token (RgApprovalToken r).

(** *** Messages *)

Definition approval_body (record : Registration) (approvalToken : string) : string :=
  let link := TrimRightChars slash (RrPortalBaseURL (RgGuest record)) +:+ "/register/approve?token=" +:+ QueryEscape approvalToken in
  RrFullName (RgGuest record) +:+ " requested guest network access." +:+ newline +:+ newline +:+ "Guest: " +:+ RrFullName (RgGuest record) +:+ newline
  +:+ "Purpose: " +:+ blankAs (RrPurpose (RgGuest record)) "not provided" +:+ newline +:+ "Approve or reject here:" +:+ newline +:+ link +:+ newline.
Definition invite_body (record : Registration) (password : string) : string :=
  let loginURL := TrimRightChars slash (RrPortalBaseURL (RgGuest record)) +:+ "/?client_mac=" +:+ QueryEscape (RrClientMAC (RgGuest record)) in
  "Your guest access has been approved." +:+ newline +:+ newline +:+ "Username: " +:+ RgUsername record +:+ newline +:+ "Password: " +:+ password +:+ newline
  +:+ "Login portal: " +:+ loginURL +:+ newline.

Definition approval_message (record : Registration) (approvalToken : string) : option Message :=
  if (approvalMode =? "email")%string then
    Some (Email (GcEmailFrom cfg) (TrimSpace (RrSponsorEmail (RgGuest record))) (GcBranding cfg +:+ " guest approval") (approval_body record approvalToken))
  else if (approvalMode =? "sms")%string then
    Some (SMS (GcSMSProvider cfg) (GcSMSEndpoint cfg) (TrimSpace (RrSponsorPhone (RgGuest record))) (compactSMS (approval_body record approvalToken)))
  else None.
(** None is sent either when the mode is none of the three. *)
Definition invite_message (record : Registration) (password : string) : option Message :=
  if (inviteMode =? "")%string || (inviteMode =? "none")%string || blank password then None
  else if (inviteMode =? "email")%string then
    Some (Email (GcEmailFrom cfg) (RrEmail (RgGuest record)) (GcBranding cfg +:+ " guest access") (invite_body record password))
  else if (inviteMode =? "sms")%string then
    Some (SMS (GcSMSProvider cfg) (GcSMSEndpoint cfg) (RrPhone (RgGuest record)) (compactSMS (invite_body record password)))
  else None.

(** The error of a message that there is, and the message handed over *)
Definition send_message (m : option Message) (db : GuestDB) : option string * GuestDB :=
  match m with None => (None, db) | Some m => (send m, handed_over m db) end.

Definition sendApprovalNotification (record : Registration) (approvalToken : string) (now : Z) (db : GuestDB) : option string * GuestDB :=
  let m := approval_message record approvalToken in
  let '(failed, db) := send_message m db in
  match failed, m with
  | None, Some _ => (None, updateDeliveryStatus (RgID record) "approval" "sent" "" now db)
  | _, _ => (failed, db)
  end.
Definition sendInviteNotification (record : Registration) (password : string) (db : GuestDB) : option string * GuestDB := send_message (invite_message record password) db.

(** *** Decisions *)

(** What the transaction of [decide] found or did *)
Inductive Decided :=
| AlreadyApproved (record : Registration)
| NowRejected (record : Registration)
| NowApproved (record : Registration) (password : string).

Definition approved_status (status : string) : bool := EqualFold status StatusApproved || EqualFold status StatusCompleted.

(** The user that an approval creates *)
Definition guest_user (record : Registration) (passwordHash : string) : GuestUser :=
  mkGuestUser passwordHash (RgRole record) (nullable (RrFullName (RgGuest record))) (nullable (RrEmail (RgGuest record))) (nullable (RgTenant record)).

(** The name and the password of the guest *)
Definition allocate_user (record : Registration) (e : Entropy) (db : GuestDB) : result string (string * string * GuestDB) :=
  if negb (blank (RgUsername record)) then Ok (TrimSpace (RgUsername record), "", db)
  else
    username ← uniqueGuestUsernameTx record (DbUsers db);
    let password := generatePassword 14 (EyPassword e) in
    passwordHash ← hash_password (EySalt e) password;
    db ← insert_user username (guest_user record passwordHash) db;
    Ok (username, password, db).

Definition decide_tx (id approver : string) (approve : bool) (reason : string) (e : Entropy) (now : Z) (db : GuestDB) : result string (Decided * GuestDB) :=
  record ← loadByID id db;
  if EqualFold (RgStatus record) StatusRejected && approve then Err "registration has already been rejected"
  else if approved_status (RgStatus record) then
    if approve then Ok (AlreadyApproved record, db) else Err "registration has already been approved"
  else if negb approve then
    Ok (NowRejected (mkRegistration (RgID record) StatusRejected (RgTenant record) (RgGuest record) (RgUsername record) (RgRole record) (TrimSpace approver) (TrimSpace reason)
                       (RgApproval record) (RgInvite record) (RgCreatedAt record) now (RgApprovedAt record) (Some now) (RgCompletedAt record) (RgExpiresAt record) "" ""),
        update_rows id (set_rejected approver reason now) db)
  else
    allocated ← allocate_user record e db;
    match allocated with (username, password, db) =>
      Ok (NowApproved (mkRegistration (RgID record) StatusApproved (RgTenant record) (RgGuest record) username (RgRole record) (TrimSpace approver) (RgRejectionReason record)
                         (RgApproval record) (RgInvite record) (RgCreatedAt record) now (Some now) (RgRejectedAt record) (RgCompletedAt record) (RgExpiresAt record) "" "")
            password,
          update_rows id (set_approved approver username now) db)
    end.

Definition with_invite (d : Delivery) (r : Registration) : Registration :=
  mkRegistration (RgID r) (RgStatus r) (RgTenant r) (RgGuest r) (RgUsername r) (RgRole r) (RgApprovedBy r) (RgRejectionReason r) (RgApproval r) d
    (RgCreatedAt r) (RgUpdatedAt r) (RgApprovedAt r) (RgRejectedAt r) (RgCompletedAt r) (RgExpiresAt r) (RgGuestToken r) (RgApprovalToken r).

(** After the transaction of an approval: the invitation *)
Definition invite (record : Registration) (password : string) (now : Z) (db : GuestDB) : Registration * GuestDB :=
  let '(failed, db) := sendInviteNotification record password db in
  match failed with
  | Some error => (record, recordDeliveryFailure (RgID record) "invite" error now db)
  | None =>
      if negb (blank password) then (with_invite (mkDelivery "sent" "") record, updateDeliveryStatus (RgID record) "invite" "sent" "" now db)
      else if (DlStatus (RgInvite record) =? "")%string then (with_invite (mkDelivery "not_requested" (DlError (RgInvite record))) record, db)
      else (record, db)
  end.

Definition decide (id approver : string) (approve : bool) (reason : string) (e : Entropy) (now : Z) (db : GuestDB) : result string Registration * GuestDB :=
  match decide_tx id approver approve reason e now db with
  | Err error => (Err error, db)
  | Ok (AlreadyApproved record, db) => (Ok record, db)
  | Ok (NowRejected record, db) => (Ok record, audit (TrimSpace approver) "guest_registration_rejected" id "rejected" (RrClientIP (RgGuest record)) db)
  | Ok (NowApproved record password, db) =>
      let db := audit (TrimSpace approver) "guest_registration_approved" id "approved" (RrClientIP (RgGuest record)) db in
      let '(record, db) := invite record password now db in (Ok record, db)
  end.

Definition ApproveByID (id approver : string) : Entropy -> Z -> GuestDB -> result string Registration * GuestDB := decide id approver true "".
Definition RejectByID (id approver reason : string) : Entropy -> Z -> GuestDB -> result string Registration * GuestDB := decide id approver false reason.
Definition LookupForApproval (rawToken : string) (db : GuestDB) : result string Registration :=
  found (List.find (has_approval_hash (hashToken rawToken)) (DbRows db)).
Definition ApproveByToken (rawToken approver : string) (e : Entropy) (now : Z) (db : GuestDB) : result string Registration * GuestDB :=
  match LookupForApproval rawToken db with Err error => (Err error, db) | Ok record => ApproveByID (RgID record) approver e now db end.
Definition RejectByToken (rawToken approver reason : string) (e : Entropy) (now : Z) (db : GuestDB) : result string Registration * GuestDB :=
  match LookupForApproval rawToken db with Err error => (Err error, db) | Ok record => RejectByID (RgID record) approver reason e now db end.

(** *** The guest *)

Definition GetForGuest (id rawGuestToken : string) (db : GuestDB) : result string Registration :=
  record ← loadByID id db;
  match matchToken rawGuestToken (recordTokenHashByID id db) with Some error => Err error | None => Ok record end.
Definition GetByID (id : string) (db : GuestDB) : result string Registration := loadByID (TrimSpace id) db.

Definition Submit (req : RegistrationRequest) (e : Entropy) (now : Z) (db : GuestDB) : result string Registration * GuestDB :=
  if negb (GcSelfRegistrationEnabled cfg) then (Err "guest self-registration is disabled", db)
  else match validateRequest req with
  | Some error => (Err error, db)
  | None =>
      let '(guestToken, guestTokenHash) := generateToken (EyGuestToken e) in
      let '(approvalToken, approvalTokenHash) := if GcSponsorApprovalEnabled cfg then generateToken (EyApprovalToken e) else ("", "") in
      let record := new_registration req (EyID e) guestToken approvalToken now in
      match insert_registration (without_tokens record) approvalTokenHash guestTokenHash db with
      | Err error => (Err error, db)
      | Ok db =>
          let db := audit "guest" "guest_registration_submitted" (RgID record) "submitted" (RrClientIP req) db in
          if GcSponsorApprovalEnabled cfg then
            let '(failed, db) := sendApprovalNotification record approvalToken now db in
            let db := match failed with Some error => recordDeliveryFailure (RgID record) "approval" error now db | None => db end in
            (with_guest_token guestToken <$> GetForGuest (RgID record) guestToken db, db)
          else
            let '(approved, db) := ApproveByID (RgID record) "self-registration" e now db in
            (with_guest_token guestToken <$> approved, db)
      end
  end.

(** The reads and checks of [Complete], and its [UPDATE]: other statements may come between them. *)
Definition complete_check (id rawGuestToken : string) (db : GuestDB) : result string Registration :=
  record ← GetForGuest id rawGuestToken db;
  if EqualFold (RgStatus record) StatusRejected then Err "registration was rejected"
  else if EqualFold (RgStatus record) StatusPending then Err "registration is still pending approval"
  else if blank (RgUsername record) then Err "approved registration is missing local credentials"
  else Ok record.
Definition complete_write (record : Registration) (id : string) (now : Z) (db : GuestDB) : GuestDB :=
  audit (RgUsername record) "guest_registration_completed" id "completed" (RrClientIP (RgGuest record)) (update_rows id (set_completed StatusCompleted now) db).
Definition Complete (id rawGuestToken : string) (now : Z) (db : GuestDB) : result string GuestAuthResult * GuestDB :=
  match complete_check id rawGuestToken db with
  | Err error => (Err error, db)
  | Ok record => (Ok (mkGuestAuthResult (RgUsername record) (RgRole record)), complete_write record id now db)
  end.

(** Rows of the same second come in the order of the table, which the query leaves open. *)
Definition later_created (a b : Registration) : bool := RgCreatedAt b <? RgCreatedAt a.
Definition List_ (status : string) (limit : Z) (tenantScopes : list string) (db : GuestDB) : list Registration :=
  let limit := if limit <=? 0 then 100 else limit in
  let scopes := normalizeTenants tenantScopes in
  let wanted r := (blank status || (RgStatus r =? TrimSpace status)%string) && (bool_decide (scopes = []) || bool_decide (RgTenant r ∈ scopes)) in
  take (Z.to_nat limit) (sort_by later_created (List.filter wanted (RowRecord <$> DbRows db))).
End service.

(** ** Interleavings

    The service's operations run concurrently; a statement, or the transaction of a decision, is one step. Between the checks of a completion and its
    [UPDATE] anything may happen. The configuration may change from step to step. Administrators may add users; they leave the guests' in place. *)

Section steps.
Context {U : Unicode} {HD : HexDigest} {PH : PasswordHash}.

(** The database, and the completions between their checks and their [UPDATE] *)
Record World := mkWorld { WDB : GuestDB; WInFlight : list (string * Registration) }.

Inductive step : World -> World -> Prop :=
| StepSubmit cfg req id guestToken approvalToken approvalHash guestHash now db db' inFlight :
    insert_registration (without_tokens (new_registration cfg req id guestToken approvalToken now)) approvalHash guestHash db = Ok db' ->
    step (mkWorld db inFlight) (mkWorld db' inFlight)
| StepDecide id approver approve reason e now d db db' inFlight :
    decide_tx id approver approve reason e now db = Ok (d, db') -> step (mkWorld db inFlight) (mkWorld db' inFlight)
| StepDelivery id deliveryType status message now db inFlight :
    step (mkWorld db inFlight) (mkWorld (updateDeliveryStatus id deliveryType status message now db) inFlight)
| StepCheck id token record db inFlight :
    complete_check id token db = Ok record -> step (mkWorld db inFlight) (mkWorld db ((id, record) :: inFlight))
| StepComplete id record now db before after :
    step (mkWorld db (before ++ (id, record) :: after)) (mkWorld (complete_write record id now db) (before ++ after))
| StepUsers users db inFlight : DbUsers db ⊆ users -> step (mkWorld db inFlight) (mkWorld (with_users users db) inFlight)
| StepWritten db db' inFlight : DbRows db' = DbRows db -> DbUsers db' = DbUsers db -> step (mkWorld db inFlight) (mkWorld db' inFlight).

(** A database without registrations *)
Definition initial (w : World) : Prop := DbRows (WDB w) = [] /\ WInFlight w = [].
Definition reachable (w : World) : Prop := exists w0, initial w0 /\ rtc step w0 w.

(** How the status of a registration moves *)
Inductive moves : string -> string -> Prop :=
| MoveApproved : moves StatusPending StatusApproved
| MoveRejected : moves StatusPending StatusRejected
| MoveCompleted : moves StatusApproved StatusCompleted.

Definition granted (r : Registration) : Prop := RgStatus r = StatusApproved \/ RgStatus r = StatusCompleted.
Definition withheld (r : Registration) : Prop := RgStatus r = StatusPending \/ RgStatus r = StatusRejected.

(** Approved or completed with an account of the registration's role that is not an administrator's, or without one *)
Definition registration_ok (users : gmap string GuestUser) (r : Registration) : Prop :=
  EqualFold (RgRole r) "admin" = false
  /\ (withheld r /\ RgUsername r = "" \/ granted r /\ HasPrefix (RgUsername r) "guest_" = true /\ exists u, users !! RgUsername r = Some u /\ GuRole u = RgRole r).

(** What stays of a registration *)
Definition keeps (r r' : Registration) : Prop :=
  RgID r' = RgID r /\ RgGuest r' = RgGuest r /\ RgTenant r' = RgTenant r /\ RgRole r' = RgRole r /\ RgExpiresAt r' = RgExpiresAt r
  /\ rtc moves (RgStatus r) (RgStatus r') /\ (granted r -> granted r' /\ RgUsername r' = RgUsername r).

Record world_ok (w : World) : Prop := {
  wo_ids : NoDup ((fun r => RgID (RowRecord r)) <$> DbRows (WDB w));
  wo_rows r : r ∈ DbRows (WDB w) -> registration_ok (DbUsers (WDB w)) (RowRecord r);
  wo_names r q : r ∈ DbRows (WDB w) -> q ∈ DbRows (WDB w) -> RgUsername (RowRecord r) <> "" -> RgUsername (RowRecord q) = RgUsername (RowRecord r) ->
    RgID (RowRecord q) = RgID (RowRecord r);
  wo_inFlight id record : (id, record) ∈ WInFlight w ->
    exists r, row_of id (WDB w) = Some r /\ granted (RowRecord r) /\ RgUsername record = RgUsername (RowRecord r) /\ RgRole record = RgRole (RowRecord r);
}.

Lemma keeps_refl r : keeps r r.
Proof. by repeat split. Qed.
Lemma keeps_trans r1 r2 r3 : keeps r1 r2 -> keeps r2 r3 -> keeps r1 r3.
Proof.
  intros (? & ? & ? & ? & ? & ? & G1) (? & ? & ? & ? & ? & ? & G2). unfold keeps. split_and!; [congruence..|by etrans|].
  intros G. destruct (G1 G) as [G' ?], (G2 G') as [? ?]. split; [done|congruence].
Qed.

(** *** Rows *)

Lemma row_of_Some id db r : row_of id db = Some r -> r ∈ DbRows db /\ RgID (RowRecord r) = id.
Proof. intros H. apply find_some in H as [Hin Hid]. split; [by apply list_elem_of_In|]. by apply String.eqb_eq. Qed.
Lemma row_of_None id db r : row_of id db = None -> r ∈ DbRows db -> RgID (RowRecord r) <> id.
Proof. intros H Hr E. apply list_elem_of_In in Hr. apply (find_none _ _ H) in Hr. unfold has_id in Hr. by rewrite E, String.eqb_refl in Hr. Qed.

Lemma row_of_unique db r : NoDup ((fun r => RgID (RowRecord r)) <$> DbRows db) -> r ∈ DbRows db -> row_of (RgID (RowRecord r)) db = Some r.
Proof.
  intros Hnd Hr. unfold row_of. induction (DbRows db) as [|q rows IH]; [by apply not_elem_of_nil in Hr|]. simpl. unfold has_id at 1.
  rewrite fmap_cons in Hnd. apply NoDup_cons in Hnd as [Hq Hnd]. destruct (String.eqb_spec (RgID (RowRecord q)) (RgID (RowRecord r))) as [E|E].
  - apply elem_of_cons in Hr as [->|Hr]; [done|]. contradict Hq. rewrite E. by apply (list_elem_of_fmap_2 (fun r => RgID (RowRecord r))).
  - apply elem_of_cons in Hr as [->|Hr]; [done|]. by apply IH.
Qed.

Definition updated (id : string) (f : Registration -> Registration) (r : RegistrationRow) : RegistrationRow :=
  if has_id id r then mkRegistrationRow (f (RowRecord r)) (RowApprovalHash r) (RowGuestHash r) else r.

Lemma row_of_updated id f id' db : (forall r, RgID (f r) = RgID r) -> row_of id' (update_rows id f db) = updated id f <$> row_of id' db.
Proof.
  intros Hf. unfold row_of, update_rows, with_rows. cbn [DbRows]. induction (DbRows db) as [|q rows IH]; [done|]. simpl.
  assert (has_id id' (updated id f q) = has_id id' q) as E by (unfold updated, has_id; destruct (String.eqb_spec (RgID (RowRecord q)) id); cbn; by rewrite ?Hf).
  unfold updated at 1 in E. rewrite E. destruct (has_id id' q); [done|]. exact IH.
Qed.

(** A rewrite of a registration that keeps the invariant *)
Definition good_update (users : gmap string GuestUser) (rows : list RegistrationRow) (r r' : Registration) : Prop :=
  registration_ok users r' /\ keeps r r' /\ (RgUsername r' = RgUsername r \/ forall q, q ∈ rows -> RgUsername (RowRecord q) <> RgUsername r').

Lemma registration_ok_users users users' r : users ⊆ users' -> registration_ok users r -> registration_ok users' r.
Proof.
  intros Hu [Hr H]. split; [done|]. destruct H as [H|(H & Hp & u & Hl & Hg)]; [by left|right]. split_and!; [done..|]. exists u. split; [|done].
  by eapply lookup_weaken.
Qed.

Lemma elem_of_updated id f r' db : r' ∈ DbRows (update_rows id f db) -> exists r, r ∈ DbRows db /\ r' = updated id f r.
Proof. unfold update_rows, with_rows. cbn [DbRows]. intros (r & -> & Hr)%list_elem_of_fmap. by exists r. Qed.

Lemma updated_cases id f r : updated id f r = r /\ RgID (RowRecord r) <> id \/ RgID (RowRecord r) = id /\ RowRecord (updated id f r) = f (RowRecord r).
Proof. unfold updated, has_id. destruct (String.eqb_spec (RgID (RowRecord r)) id); [by right|by left]. Qed.

(** An update of one registration, with new users *)
Lemma world_ok_update id f users w :
  world_ok w -> DbUsers (WDB w) ⊆ users -> (forall r, RgID (f r) = RgID r) ->
  (forall r, row_of id (WDB w) = Some r -> good_update users (DbRows (WDB w)) (RowRecord r) (f (RowRecord r))) ->
  world_ok (mkWorld (with_users users (update_rows id f (WDB w))) (WInFlight w)).
Proof.
  intros Hw Hu Hid Hf.
  assert (forall r, r ∈ DbRows (WDB w) -> RgID (RowRecord r) = id -> good_update users (DbRows (WDB w)) (RowRecord r) (f (RowRecord r))) as Hgood.
  { intros r Hr <-. apply Hf. apply row_of_unique; [apply Hw|done]. }
  assert (forall r, r ∈ DbRows (WDB w) -> RgUsername (RowRecord (updated id f r)) = RgUsername (RowRecord r)
      \/ RgID (RowRecord r) = id /\ forall q, q ∈ DbRows (WDB w) -> RgUsername (RowRecord q) <> RgUsername (RowRecord (updated id f r))) as Hname.
  { intros r Hr. destruct (updated_cases id f r) as [[-> _]|[E ->]]; [by left|]. destruct (Hgood r Hr E) as (_ & _ & [->|Hn]); [by left|right]. by split. }
  assert (forall r, RgID (RowRecord (updated id f r)) = RgID (RowRecord r)) as Hids.
  { intros r. destruct (updated_cases id f r) as [[-> _]|[E ->]]; [done|apply Hid]. }
  split; cbn [WDB WInFlight with_users DbUsers].
  - change (DbRows (with_users users (update_rows id f (WDB w)))) with (updated id f <$> DbRows (WDB w)).
    rewrite <- list_fmap_compose. erewrite list_fmap_ext; [apply (wo_ids _ Hw)|]. intros i r _. apply Hids.
  - intros r' (r & Hr & ->)%elem_of_updated. destruct (updated_cases id f r) as [[-> _]|[E ->]]; [|by apply Hgood].
    eapply registration_ok_users; [exact Hu|]. by apply (wo_rows _ Hw).
  - intros r' q' (r & Hr & ->)%elem_of_updated (q & Hq & ->)%elem_of_updated Hne E. rewrite !Hids.
    destruct (Hname r Hr) as [Er|[Er Nr]], (Hname q Hq) as [Eq|[Eq Nq]].
    + rewrite Er in Hne, E. rewrite Eq in E. by eapply (wo_names _ Hw).
    + rewrite Er in E. by destruct (Nq r Hr).
    + rewrite Eq in E. by destruct (Nr q Hq).
    + congruence.
  - intros id' record Hin. destruct (wo_inFlight _ Hw _ _ Hin) as (r & Hr & G & Hu' & Hrole).
    exists (updated id f r). split.
    + change (row_of id' (with_users users (update_rows id f (WDB w)))) with (row_of id' (update_rows id f (WDB w))). by rewrite row_of_updated, Hr.
    + apply row_of_Some in Hr as [Hr _]. destruct (updated_cases id f r) as [[-> _]|[E ->]]; [by split_and!|].
      destruct (Hgood r Hr E) as (_ & (_ & _ & _ & HR & _ & _ & HG) & _). destruct (HG G) as [? ?]. split_and!; [done|congruence..].
Qed.

(** *** Names and statuses *)

Lemma prefix_app p t : String.prefix p (p +:+ t) = true.
Proof. induction p as [|c p IH]; [by destruct t|]. simpl. by destruct (ascii_dec c c). Qed.
Lemma prefix_extend p s t : String.prefix p s = true -> String.prefix p (s +:+ t) = true.
Proof.
  revert s. induction p as [|c p IH]; intros [|d s]; simpl; try done; [by destruct t|]. destruct (ascii_dec c d); [apply IH|done].
Qed.
Lemma guest_name_visible name : HasPrefix name "guest_" = true -> blank name = false.
Proof.
  intros H. unfold blank. apply String.eqb_neq, visible_not_blank. destruct name as [|c name]; [done|].
  unfold HasPrefix in H. cbn [String.prefix] in H. destruct (ascii_dec "g"%char c) as [<-|]; [|done]. reflexivity.
Qed.

Lemma free_username_spec base tries i username users name :
  HasPrefix base "guest_" = true -> HasPrefix username "guest_" = true -> free_username base tries i username users = Ok name ->
  users !! name = None /\ HasPrefix name "guest_" = true.
Proof.
  intros Hb. revert i username. induction tries as [|tries IH]; intros i username Hu; simpl; [done|].
  destruct (users !! username) eqn:E; [|by intros [= <-]]. apply IH. by apply prefix_extend.
Qed.
Lemma uniqueGuestUsernameTx_spec record users name : uniqueGuestUsernameTx record users = Ok name -> users !! name = None /\ HasPrefix name "guest_" = true.
Proof. unfold uniqueGuestUsernameTx. destruct (_ <? _)%nat; [done|]. apply free_username_spec; apply prefix_app. Qed.

Lemma granted_not_withheld r : granted r -> withheld r -> False.
Proof. unfold granted, withheld. intros [G|G] [W|W]; rewrite G in W; discriminate W. Qed.
Lemma granted_tests r : granted r -> approved_status (RgStatus r) = true /\ EqualFold (RgStatus r) StatusRejected = false /\ EqualFold (RgStatus r) StatusPending = false.
Proof. by intros [-> | ->]. Qed.
Lemma withheld_tests r : withheld r -> approved_status (RgStatus r) = false /\ EqualFold (RgStatus r) StatusRejected || EqualFold (RgStatus r) StatusPending = true.
Proof. by intros [-> | ->]. Qed.
Lemma guestRole_not_admin cfg : EqualFold (guestRole cfg) "admin" = false.
Proof.
  unfold guestRole. destruct (_ && _) eqn:E; [|reflexivity]. bool_arith. done.
Qed.

(** *** The statements keep the invariant *)

Lemma world_ok_insert record approvalHash guestHash w db' :
  world_ok w -> registration_ok (DbUsers (WDB w)) record -> RgUsername record = "" -> insert_registration record approvalHash guestHash (WDB w) = Ok db' ->
  world_ok (mkWorld db' (WInFlight w)) /\ forall id r, row_of id (WDB w) = Some r -> row_of id db' = Some r.
Proof.
  intros Hw Hr Hname. unfold insert_registration. destruct (row_of _ _) eqn:Hfree; [done|]. intros [= <-].
  assert (forall id r, row_of id (WDB w) = Some r -> row_of id (with_rows (DbRows (WDB w) ++ [mkRegistrationRow record (nullable approvalHash) guestHash]) (WDB w)) = Some r) as Hold.
  { intros id r. unfold row_of, with_rows. cbn [DbRows]. induction (DbRows (WDB w)) as [|q rows IH]; simpl; [done|]. by destruct (has_id id q). }
  split; [|done]. split; cbn [WDB WInFlight with_rows DbRows DbUsers].
  - rewrite fmap_app. apply NoDup_app. split_and!; [apply Hw| |apply NoDup_singleton]. intros id (r & -> & Hin)%list_elem_of_fmap Hid.
    apply list_elem_of_singleton in Hid. cbn in Hid. by apply (row_of_None _ _ _ Hfree Hin).
  - intros r [Hin|Hin]%elem_of_app; [by apply (wo_rows _ Hw)|]. by apply list_elem_of_singleton in Hin as ->.
  - intros r q [Hin|Hin]%elem_of_app [Hq|Hq]%elem_of_app Hne E; try apply list_elem_of_singleton in Hin as ->; try apply list_elem_of_singleton in Hq as ->; cbn in *; try congruence.
    by eapply (wo_names _ Hw).
  - intros id rec Hin. destruct (wo_inFlight _ Hw _ _ Hin) as (r & Hrow & H). exists r. split; [by apply Hold|done].
Qed.

Lemma good_update_delivery users rows approval d now r : registration_ok users r -> good_update users rows r (set_delivery approval d now r).
Proof. intros H. split_and!; [done| |by left]. by repeat split. Qed.

Lemma good_update_completed users rows now r : registration_ok users r -> granted r -> good_update users rows r (set_completed StatusCompleted now r).
Proof.
  intros (Hrole & [[W _]|(_ & Hp & Hu)]) G; [by destruct (granted_not_withheld r)|]. split_and!; [|unfold keeps; split_and!; try done|by left].
  - split; [done|right]. split_and!; [by right|done..].
  - destruct G as [-> | ->]; cbn; [apply rtc_once; constructor|done].
  - intros _. split; [by right|done].
Qed.

Lemma good_update_rejected users rows approver reason now r : registration_ok users r -> withheld r -> good_update users rows r (set_rejected approver reason now r).
Proof.
  intros (Hrole & [[_ Hn]|(G & _)]) W; [|by destruct (granted_not_withheld r)]. split_and!; [|unfold keeps; split_and!; try done|by left].
  - split; [done|left]. split; [by right|done].
  - destruct W as [-> | ->]; cbn; [apply rtc_once; constructor|done].
  - intros G. by destruct (granted_not_withheld r).
Qed.

Lemma good_update_approved users rows approver name user now r :
  (forall q, q ∈ rows -> registration_ok users (RowRecord q)) -> registration_ok users r -> RgStatus r = StatusPending -> users !! name = None ->
  HasPrefix name "guest_" = true -> GuRole user = RgRole r -> good_update (<[name := user]> users) rows r (set_approved approver name now r).
Proof.
  intros Hrows (Hrole & Hr) P Hfree Hp Hu. split_and!; [|unfold keeps; split_and!; try done|].
  - split; [done|right]. split_and!; [by left|done|]. exists user. split; [apply lookup_insert_eq|done].
  - rewrite P. apply rtc_once. constructor.
  - intros G. destruct (granted_not_withheld r); [done|by left].
  - right. intros q Hq E. cbn in E. destruct (Hrows q Hq) as [_ [[_ Hn]|(_ & _ & u & Hl & _)]]; [|congruence]. rewrite Hn in E. rewrite <- E in Hp. vm_compute in Hp. discriminate Hp.
Qed.

(** *** Steps *)

Lemma registration_row_ok w id r : world_ok w -> row_of id (WDB w) = Some r -> registration_ok (DbUsers (WDB w)) (RowRecord r).
Proof. intros Hw Hr. apply (wo_rows _ Hw). by apply row_of_Some in Hr as [Hr _]. Qed.
Lemma registration_split users r : registration_ok users r -> withheld r /\ RgUsername r = "" \/ granted r.
Proof. intros [_ [W|[? _]]]; [by left|by right]. Qed.

Lemma loadByID_Ok id db record : loadByID id db = Ok record -> exists r, row_of id db = Some r /\ RowRecord r = record.
Proof. unfold loadByID, found. destruct (row_of id db) as [r|]; [|done]. intros [= <-]. by exists r. Qed.
Lemma GetForGuest_Ok id token db record : GetForGuest id token db = Ok record ->
  exists r, row_of id db = Some r /\ RowRecord r = record /\ matchToken token (TrimSpace (RowGuestHash r)) = None.
Proof.
  unfold GetForGuest. intros (rec & (r & Hr & <-)%loadByID_Ok & H)%bind_Ok. unfold recordTokenHashByID in H. rewrite Hr in H.
  destruct (matchToken _ _) eqn:E; [done|]. injection H as <-. by exists r.
Qed.
Lemma complete_check_Ok id token db record : complete_check id token db = Ok record ->
  exists r, row_of id db = Some r /\ RowRecord r = record /\ matchToken token (TrimSpace (RowGuestHash r)) = None
    /\ EqualFold (RgStatus record) StatusRejected = false /\ EqualFold (RgStatus record) StatusPending = false /\ blank (RgUsername record) = false.
Proof.
  unfold complete_check. intros (rec & (r & Hr & <- & Hm)%GetForGuest_Ok & H)%bind_Ok. do 3 (split_if; [done|]). injection H as <-. exists r. by split_and!.
Qed.

(** What a decision does to the table and the users *)
Lemma decide_tx_Ok id approver approve reason e now w d db' :
  world_ok w -> decide_tx id approver approve reason e now (WDB w) = Ok (d, db') ->
  exists r, row_of id (WDB w) = Some r /\
    (approve = true /\ granted (RowRecord r) /\ d = AlreadyApproved (RowRecord r) /\ db' = WDB w
     \/ approve = false /\ withheld (RowRecord r) /\ db' = update_rows id (set_rejected approver reason now) (WDB w)
        /\ (exists record, d = NowRejected record)
     \/ approve = true /\ RgStatus (RowRecord r) = StatusPending
        /\ exists name hash, uniqueGuestUsernameTx (RowRecord r) (DbUsers (WDB w)) = Ok name /\ hash_password (EySalt e) (generatePassword 14 (EyPassword e)) = Ok hash
             /\ db' = with_users (<[name := guest_user (RowRecord r) hash]> (DbUsers (WDB w))) (update_rows id (set_approved approver name now) (WDB w))
             /\ exists record, d = NowApproved record (generatePassword 14 (EyPassword e)) /\ RgID record = id /\ RgStatus record = StatusApproved /\ RgUsername record = name
               /\ RgRole record = RgRole (RowRecord r)).
Proof.
  intros Hw. unfold decide_tx. intros (record & (r & Hr & <-)%loadByID_Ok & H)%bind_Ok. exists r. split; [done|].
  destruct (registration_split _ _ (registration_row_ok _ _ _ Hw Hr)) as [[W Hn]|G].
  - destruct (withheld_tests _ W) as [E1 E2]. rewrite E1 in H. destruct approve; cbn [negb] in H.
    + rewrite andb_true_r in H. destruct (EqualFold _ StatusRejected) eqn:EJ; [discriminate H|]. right; right. split; [done|]. destruct W as [P|J]; [|by rewrite J in EJ]. split; [done|].
      unfold allocate_user in H. rewrite Hn in H. change (blank "") with true in H. cbn [negb] in H.
      apply bind_Ok in H as ([[name pw] db1] & H1 & H). apply bind_Ok in H1 as (name' & Hname & H1). apply bind_Ok in H1 as (hash & Hh & H1).
      apply bind_Ok in H1 as (db2 & Hi & H1). injection H1 as -> <- ->. injection H as <- <-. unfold insert_user in Hi.
      destruct (uniqueGuestUsernameTx_spec _ _ _ Hname) as [Hfree _]. rewrite Hfree in Hi. injection Hi as <-. exists name, hash. split_and!; try done.
      eexists. split_and!; try done. by apply row_of_Some in Hr as [_ ->].
    + rewrite andb_false_r in H. injection H as <- <-. right; left. split_and!; try done. by eexists.
  - destruct (granted_tests _ G) as (E1 & E2 & _). rewrite E1, E2 in H. cbn [andb] in H. destruct approve; [|done]. injection H as <- <-. left. by split_and!.
Qed.

(** Nothing is lost on the way from [w] to [w']. *)
Definition preserved (w w' : World) : Prop :=
  forall id r, row_of id (WDB w) = Some r -> exists r', row_of id (WDB w') = Some r'
    /\ RowApprovalHash r' = RowApprovalHash r /\ RowGuestHash r' = RowGuestHash r /\ keeps (RowRecord r) (RowRecord r').

Lemma preserved_refl w : preserved w w.
Proof. intros id r Hr. exists r. split_and!; [done..|apply keeps_refl]. Qed.
Lemma preserved_trans w1 w2 w3 : preserved w1 w2 -> preserved w2 w3 -> preserved w1 w3.
Proof.
  intros H1 H2 id r Hr. destruct (H1 _ _ Hr) as (r2 & Hr2 & Ha & Hg & K). destruct (H2 _ _ Hr2) as (r3 & Hr3 & Ha' & Hg' & K').
  exists r3. split_and!; [done|congruence..|by eapply keeps_trans].
Qed.
Lemma preserved_same w w' : DbRows (WDB w') = DbRows (WDB w) -> preserved w w'.
Proof. intros E id r Hr. exists r. split_and!; [|done..|apply keeps_refl]. unfold row_of. by rewrite E. Qed.
Lemma preserved_update id f users w inFlight : (forall r, RgID (f r) = RgID r) -> (forall r, row_of id (WDB w) = Some r -> keeps (RowRecord r) (f (RowRecord r))) ->
  preserved w (mkWorld (with_users users (update_rows id f (WDB w))) inFlight).
Proof.
  intros Hid Hf id' r Hr. exists (updated id f r). split.
  - change (row_of id' (update_rows id f (WDB w)) = Some (updated id f r)). by rewrite row_of_updated, Hr.
  - unfold updated. destruct (has_id id r) eqn:E; [|split_and!; [done..|apply keeps_refl]]. split_and!; [done..|]. apply Hf.
    apply String.eqb_eq in E. destruct (row_of_Some _ _ _ Hr) as [_ E']. by rewrite <- E, E'.
Qed.

Lemma world_ok_same w w' : world_ok w -> DbRows (WDB w') = DbRows (WDB w) -> DbUsers (WDB w) ⊆ DbUsers (WDB w') ->
  (forall x, x ∈ WInFlight w' -> x ∈ WInFlight w) -> world_ok w'.
Proof.
  intros [H1 H2 H3 H4] E Eu Hf. split; rewrite ?E; [done| |done|].
  - intros r Hr. by eapply registration_ok_users, H2.
  - intros id record Hin. unfold row_of. rewrite E. by apply H4, Hf.
Qed.

(** An update that leaves the users *)
Lemma update_step id f w inFlight : world_ok w -> (forall r, RgID (f r) = RgID r) -> (forall x, x ∈ inFlight -> x ∈ WInFlight w) ->
  (forall r, row_of id (WDB w) = Some r -> good_update (DbUsers (WDB w)) (DbRows (WDB w)) (RowRecord r) (f (RowRecord r))) ->
  world_ok (mkWorld (update_rows id f (WDB w)) inFlight) /\ preserved w (mkWorld (update_rows id f (WDB w)) inFlight).
Proof.
  intros Hw Hid Hin Hf. assert (with_users (DbUsers (WDB w)) (update_rows id f (WDB w)) = update_rows id f (WDB w)) as E by done. split.
  - eapply (world_ok_same (mkWorld (update_rows id f (WDB w)) (WInFlight w))); [|done..|exact Hin]. rewrite <- E. by apply world_ok_update.
  - rewrite <- E. apply preserved_update; [done|]. intros r Hr. by apply (Hf r Hr).
Qed.

Lemma guest_step_ok w w' : world_ok w -> step w w' -> world_ok w' /\ preserved w w'.
Proof.
  intros Hw Hs. destruct Hs as [cfg req id gt at_ ah gh now db db' fl H|id approver approve reason e now d db db' fl H|id t st msg now db fl|id token record db fl H
    |id record now db before after|users db fl H|db db' fl E Eu].
  - assert (registration_ok (DbUsers db) (without_tokens (new_registration cfg req id gt at_ now))) as Hnew
      by (split; [apply guestRole_not_admin|left; split; [by left|done]]).
    destruct (world_ok_insert _ _ _ _ _ Hw Hnew eq_refl H) as [Hok Hrows]. split; [done|].
    intros id' r Hr. exists r. split_and!; [by apply Hrows|done..|apply keeps_refl].
  - destruct (decide_tx_Ok _ _ _ _ _ _ _ _ _ Hw H) as (r & Hr & C). pose proof (registration_row_ok _ _ _ Hw Hr) as Hreg. cbn [WDB] in *.
    destruct C as [(_ & _ & _ & ->)|[(_ & W & -> & _)|(_ & P & name & hash & Hname & _ & -> & _)]]; [by split; [|apply preserved_refl]|..].
    + apply (update_step id _ (mkWorld db fl)); [done..|]. intros r' Hr'. cbn in Hr'. rewrite Hr in Hr'. injection Hr' as <-. by apply good_update_rejected.
    + destruct (uniqueGuestUsernameTx_spec _ _ _ Hname) as [Hfree Hp].
      assert (good_update (<[name := guest_user (RowRecord r) hash]> (DbUsers db)) (DbRows db) (RowRecord r) (set_approved approver name now (RowRecord r))) as Hgood.
      { apply good_update_approved; try done. apply (wo_rows _ Hw). }
      assert (forall r', row_of id db = Some r' -> r' = r) as Huniq by (intros r' Hr'; congruence). split.
      * apply (world_ok_update id _ _ (mkWorld db fl)); [done| |done|]; cbn; [by apply insert_subseteq|]. by intros r' ->%Huniq.
      * apply (preserved_update id _ _ (mkWorld db fl)); [done|]. cbn. intros r' ->%Huniq. apply Hgood.
  - apply (update_step id _ (mkWorld db fl)); [done..|]. intros r Hr. apply good_update_delivery. by eapply registration_row_ok.
  - split; [|by apply preserved_same]. destruct (complete_check_Ok _ _ _ _ H) as (r & Hr & <- & _ & E1 & E2 & _).
    destruct Hw as [H1 H2 H3 H4]. split; [done..|]. cbn [WDB WInFlight] in *. intros id' record [[= -> ->]|Hin]%elem_of_cons; [|by apply H4]. exists r. split_and!; try done.
    destruct (registration_split _ _ (H2 r (proj1 (row_of_Some _ _ _ Hr)))) as [[[W|W] _]|G]; [by rewrite W in E2|by rewrite W in E1|done].
  - destruct (wo_inFlight _ Hw id record ltac:(apply elem_of_app; right; left)) as (r & Hr & G & _). cbn [WDB] in Hr.
    destruct (update_step id (set_completed StatusCompleted now) (mkWorld db (before ++ (id, record) :: after)) (before ++ after) Hw) as [Hok Hpres]; [done|..].
    + intros x [Hx|Hx]%elem_of_app; apply elem_of_app; [by left|right; by right].
    + cbn. intros r' Hr'. rewrite Hr in Hr'. injection Hr' as <-. apply good_update_completed; [by eapply (registration_row_ok (mkWorld db _))|done].
    + split; [by eapply world_ok_same; [exact Hok|..]|]. eapply preserved_trans; [exact Hpres|]. by apply preserved_same.
  - split; [|by apply preserved_same]. by eapply world_ok_same; [exact Hw|..].
  - split; [|by apply preserved_same]. eapply world_ok_same; [exact Hw|done| |done]. cbn. by rewrite Eu.
Qed.

Lemma run_ok w w' : world_ok w -> rtc step w w' -> world_ok w' /\ preserved w w'.
Proof.
  intros Hw. induction 1 as [w|w w1 w2 Hs _ IH]; [split; [done|apply preserved_refl]|]. destruct (guest_step_ok _ _ Hw Hs) as [Hw1 P1].
  destruct (IH Hw1) as [Hw2 P2]. split; [done|by eapply preserved_trans].
Qed.
Lemma reachable_ok w : reachable w -> world_ok w.
Proof.
  intros (w0 & [E0 E1] & H). apply (run_ok w0); [|done]. split; rewrite ?E0, ?E1; [constructor|..]; intros *; by intros ?%not_elem_of_nil.
Qed.
End steps.

(** ** The operations as runs *)

Section runs.
Context {U : Unicode} {HD : HexDigest} {PH : PasswordHash} {RU : RequestURI}.

Inductive operation :=
| OpSubmit (cfg : GuestConfig) (send : Sender) (req : RegistrationRequest) (e : Entropy) (now : Z)
| OpApprove (cfg : GuestConfig) (send : Sender) (id approver : string) (e : Entropy) (now : Z)
| OpReject (cfg : GuestConfig) (send : Sender) (id approver reason : string) (e : Entropy) (now : Z)
| OpApproveByToken (cfg : GuestConfig) (send : Sender) (token approver : string) (e : Entropy) (now : Z)
| OpRejectByToken (cfg : GuestConfig) (send : Sender) (token approver reason : string) (e : Entropy) (now : Z)
| OpComplete (id token : string) (now : Z).
Definition run (op : operation) (db : GuestDB) : GuestDB :=
  match op with
  | OpSubmit cfg send req e now => (Submit cfg send req e now db).2
  | OpApprove cfg send id approver e now => (ApproveByID cfg send id approver e now db).2
  | OpReject cfg send id approver reason e now => (RejectByID cfg send id approver reason e now db).2
  | OpApproveByToken cfg send token approver e now => (ApproveByToken cfg send token approver e now db).2
  | OpRejectByToken cfg send token approver reason e now => (RejectByToken cfg send token approver reason e now db).2
  | OpComplete id token now => (Complete id token now db).2
  end.

Notation "db1 ~> db2" := (forall fl, rtc step (mkWorld db1 fl) (mkWorld db2 fl)) (at level 70).

Lemma run_trans db1 db2 db3 : db1 ~> db2 -> db2 ~> db3 -> db1 ~> db3.
Proof. intros H1 H2 fl. etrans; [apply H1|apply H2]. Qed.
Lemma run_written db db' : DbRows db' = DbRows db -> DbUsers db' = DbUsers db -> db ~> db'.
Proof. intros H1 H2 fl. apply rtc_once. by constructor. Qed.
Lemma run_send send m db : db ~> (send_message send m db).2.
Proof. destruct m; [|by intros fl]. by apply run_written. Qed.
Lemma run_delivery id deliveryType status message now db : db ~> updateDeliveryStatus id deliveryType status message now db.
Proof. intros fl. apply rtc_once. constructor. Qed.
Lemma run_failure id deliveryType error now db : db ~> recordDeliveryFailure id deliveryType error now db.
Proof. eapply run_trans; [apply run_delivery|]. by apply run_written. Qed.

Lemma run_invite cfg send record password now db : db ~> (invite cfg send record password now db).2.
Proof.
  unfold invite, sendInviteNotification. pose proof (run_send send (invite_message cfg record password) db) as H. destruct (send_message _ _ _) as [[error|] db1]; cbn [snd] in H.
  - eapply run_trans; [exact H|apply run_failure].
  - split_if; [eapply run_trans; [exact H|apply run_delivery]|]. by split_if.
Qed.
Lemma run_decide cfg send id approver approve reason e now db : db ~> (decide cfg send id approver approve reason e now db).2.
Proof.
  unfold decide. destruct (decide_tx _ _ _ _ _ _ _) as [[d db1]|error] eqn:E; [|by intros fl].
  assert (db ~> db1) as H by (intros fl; apply rtc_once; by econstructor). destruct d as [record|record|record password]; cbn [snd]; [done|..].
  - eapply run_trans; [exact H|]. by apply run_written.
  - match goal with |- _ ~> (let '(_, _) := invite _ _ _ _ _ ?db2 in _).2 => pose proof (run_invite cfg send record password now db2) as H2; assert (db1 ~> db2) as H1 by by apply run_written end.
    destruct (invite _ _ _ _ _ _) as [r db3]. cbn [snd] in *. eapply run_trans; [exact H|]. by eapply run_trans.
Qed.
Lemma run_approval_notification cfg send record token now db : db ~> (sendApprovalNotification cfg send record token now db).2.
Proof.
  unfold sendApprovalNotification. pose proof (run_send send (approval_message cfg record token) db) as H. destruct (send_message _ _ _) as [failed db1]. cbn [snd] in H.
  destruct failed; [done|]. destruct (approval_message _ _ _); [|done]. eapply run_trans; [exact H|apply run_delivery].
Qed.
Lemma run_submit cfg send req e now db : db ~> (Submit cfg send req e now db).2.
Proof.
  unfold Submit. split_if; [by intros fl|]. destruct (validateRequest _ _); [by intros fl|]. destruct (generateToken _) as [gt gh].
  destruct (if GcSponsorApprovalEnabled cfg then _ else _) as [at_ ah]. destruct (insert_registration _ _ _ _) as [db1|] eqn:E; [|by intros fl].
  assert (db ~> db1) as H by (intros fl; apply rtc_once; by econstructor). match goal with |- context [audit ?a ?b ?c ?d ?f db1] => set (db2 := audit a b c d f db1) end.
  assert (db1 ~> db2) as H2 by by apply run_written. eapply run_trans; [exact H|]. eapply run_trans; [exact H2|]. destruct (GcSponsorApprovalEnabled cfg).
  - match goal with |- context [sendApprovalNotification _ _ ?r _ _ _] => pose proof (run_approval_notification cfg send r at_ now db2) as H3; set (record := r) in * end.
    destruct (sendApprovalNotification _ _ _ _ _ _) as [[error|] db3]; cbn [snd] in *; [|done]. eapply run_trans; [exact H3|apply run_failure].
  - match goal with |- context [ApproveByID _ _ ?i ?a _ _ _] => pose proof (run_decide cfg send i a true "" e now db2) as H3 end. unfold ApproveByID. by destruct (decide _ _ _ _ _ _ _ _ _).
Qed.

Lemma run_operation op db : db ~> run op db.
Proof.
  destruct op as [cfg send req e now|cfg send id approver e now|cfg send id approver reason e now|cfg send token approver e now|cfg send token approver reason e now|id token now]; cbn [run].
  - apply run_submit.
  - apply run_decide.
  - apply run_decide.
  - unfold ApproveByToken. destruct (LookupForApproval _ _); [apply run_decide|by intros fl].
  - unfold RejectByToken. destruct (LookupForApproval _ _); [apply run_decide|by intros fl].
  - unfold Complete. destruct (complete_check _ _ _) as [record|] eqn:E; [|by intros fl]. intros fl. eapply rtc_l; [by eapply StepCheck|]. apply rtc_once. by apply (StepComplete id record now db []).
Qed.

(** A sequence of operations *)
Definition run_all (ops : list operation) (db : GuestDB) : GuestDB := foldl (fun db op => run op db) db ops.
Lemma run_sequence ops db : db ~> run_all ops db.
Proof. revert db. induction ops as [|op ops IH]; intros db; [by intros fl|]. eapply run_trans; [apply run_operation|apply IH]. Qed.


(** C16: A registration moves from pending to approved or to rejected, and from approved to completed, in every interleaving of the operations; the request, its tenant, its
    role and the hashes of its tokens stay, and so does the user name once it is approved. *)
Theorem registration_lifecycle w w' id r :
  reachable w -> rtc step w w' -> row_of id (WDB w) = Some r ->
  exists r', row_of id (WDB w') = Some r' /\ rtc moves (RgStatus (RowRecord r)) (RgStatus (RowRecord r'))
    /\ RgGuest (RowRecord r') = RgGuest (RowRecord r) /\ RgTenant (RowRecord r') = RgTenant (RowRecord r) /\ RgRole (RowRecord r') = RgRole (RowRecord r)
    /\ RowApprovalHash r' = RowApprovalHash r /\ RowGuestHash r' = RowGuestHash r
    /\ (granted (RowRecord r) -> RgUsername (RowRecord r') = RgUsername (RowRecord r)).
Proof.
  intros Hw%reachable_ok Hrun Hr. destruct (run_ok _ _ Hw Hrun) as [_ P]. destruct (P _ _ Hr) as (r' & Hr' & Ha & Hg & (_ & K1 & K2 & K3 & _ & K5 & K6)).
  exists r'. split_and!; try done. intros G. by apply K6.
Qed.


(** *** Approvals and completions *)

Lemma invite_record cfg send record password now db : let r := (invite cfg send record password now db).1 in
  RgID r = RgID record /\ RgStatus r = RgStatus record /\ RgUsername r = RgUsername record /\ RgRole r = RgRole record.
Proof. unfold invite. destruct (sendInviteNotification _ _ _ _ _) as [[error|] db1]; [done|]. by repeat split_if. Qed.

(** An approval that succeeds leaves a registration that is approved, and returns its name and role. *)
Lemma decide_approved cfg send id approver reason e now db db' record fl :
  world_ok (mkWorld db fl) -> decide cfg send id approver true reason e now db = (Ok record, db') ->
  exists r, row_of id db' = Some r /\ granted (RowRecord r) /\ granted record /\ RgID record = id /\ RgUsername record = RgUsername (RowRecord r) /\ RgRole record = RgRole (RowRecord r).
Proof.
  intros Hw. unfold decide. destruct (decide_tx _ _ _ _ _ _ _) as [[d db1]|error] eqn:E; [|done].
  destruct (guest_step_ok _ _ Hw (StepDecide _ _ _ _ _ _ _ _ _ fl E)) as [Hw1 _].
  destruct (decide_tx_Ok id approver true reason e now (mkWorld db fl) d db1 Hw E) as (r & Hr & [(_ & G & -> & ->)|[(? & _)|(_ & P & name & hash & _ & _ & Hdb & rec & -> & Hid & Hst & Hname & Hrole)]]); [|done|].
  - intros [= <- <-]. exists r. destruct (row_of_Some _ _ _ Hr) as [_ Hid]. by split_and!.
  - set (db2 := audit _ _ _ _ _ _). pose proof (invite_record cfg send rec (generatePassword 14 (EyPassword e)) now db2) as HI.
    pose proof (run_invite cfg send rec (generatePassword 14 (EyPassword e)) now db2 fl) as Hrun.
    destruct (invite _ _ _ _ _ db2) as [rec' db3]. cbn [fst snd] in *. intros [= <- <-]. destruct HI as (I1 & I2 & I3 & I4).
    assert (rtc step (mkWorld db1 fl) (mkWorld db3 fl)) as Hrun' by (etrans; [by apply (run_written _ db2)|exact Hrun]).
    destruct (run_ok _ _ Hw1 Hrun') as [_ Hpres].
    assert (row_of id db1 = Some (updated id (set_approved approver name now) r)) as Hr1.
    { rewrite Hdb. change (row_of id (update_rows id (set_approved approver name now) db) = Some (updated id (set_approved approver name now) r)). rewrite row_of_updated; [|done].
      cbn in Hr. by rewrite Hr. }
    destruct (Hpres _ _ Hr1) as (r' & Hr' & _ & _ & (_ & _ & _ & K3 & _ & _ & K6)). destruct (row_of_Some _ _ _ Hr) as [_ HrID].
    destruct (updated_cases id (set_approved approver name now) r) as [[_ ?]|[_ Hu]]; [done|]. rewrite Hu in K3, K6. destruct K6 as [G Hn]; [by left|]. cbn in Hn, K3.
    exists r'. split_and!; [done|done|left; congruence|congruence|congruence|congruence].
Qed.

(** The completion of a registration that is granted, with its token *)
Lemma Complete_granted w id r token now :
  world_ok w -> row_of id (WDB w) = Some r -> granted (RowRecord r) -> matchToken token (TrimSpace (RowGuestHash r)) = None ->
  (Complete id token now (WDB w)).1 = Ok (mkGuestAuthResult (RgUsername (RowRecord r)) (RgRole (RowRecord r))).
Proof.
  intros Hw Hr G Hm. destruct (wo_rows _ Hw r (proj1 (row_of_Some _ _ _ Hr))) as [_ [[W _]|(_ & Hp & _)]]; [by destruct (granted_not_withheld (RowRecord r))|].
  unfold Complete, complete_check, GetForGuest, recordTokenHashByID, loadByID. rewrite Hr. cbn. rewrite Hm. cbn. destruct (granted_tests _ G) as (_ & -> & ->).
  by rewrite (guest_name_visible _ Hp).
Qed.
Lemma Complete_Ok w id token now result_ db' :
  world_ok w -> Complete id token now (WDB w) = (Ok result_, db') ->
  exists r, row_of id (WDB w) = Some r /\ granted (RowRecord r) /\ matchToken token (TrimSpace (RowGuestHash r)) = None
    /\ result_ = mkGuestAuthResult (RgUsername (RowRecord r)) (RgRole (RowRecord r)).
Proof.
  intros Hw. unfold Complete. destruct (complete_check _ _ _) as [record|] eqn:E; [|done]. intros [= <- _].
  destruct (complete_check_Ok _ _ _ _ E) as (r & Hr & <- & Hm & E1 & E2 & _). exists r. split_and!; try done.
  destruct (registration_split _ _ (registration_row_ok _ _ _ Hw Hr)) as [[[W|W] _]|G]; [by rewrite W in E2|by rewrite W in E1|done].
Qed.

(** C19: The link with which a guest completes an approved registration admits whoever holds it for ever: at any later state and any later time, long after the
    registration's expiry and any number of times, a completion succeeds with the same user and role. *)
Theorem guest_link_never_expires w w' id r token now :
  reachable w -> rtc step w w' -> row_of id (WDB w) = Some r -> granted (RowRecord r) -> matchToken token (TrimSpace (RowGuestHash r)) = None ->
  RgExpiresAt (RowRecord r) < now ->
  (Complete id token now (WDB w')).1 = Ok (mkGuestAuthResult (RgUsername (RowRecord r)) (RgRole (RowRecord r))).
Proof.
  intros Hw%reachable_ok Hrun Hr G Hm _. destruct (run_ok _ _ Hw Hrun) as [Hw' P]. destruct (P _ _ Hr) as (r' & Hr' & _ & Hg & (_ & _ & _ & K3 & _ & _ & K6)).
  destruct (K6 G) as [G' Hn]. rewrite <- K3, <- Hn. apply Complete_granted; [done..|]. by rewrite Hg.
Qed.

(** *** Tokens and passwords *)

Lemma hex_char_visible d : 0 <= d < 16 -> visible_char (hex_char d) = true.
Proof.
  intros Hd. assert (forallb (fun i => visible_char (hex_char (Z.of_nat i))) (seq 0 16) = true) as H by (vm_compute; reflexivity).
  rewrite forallb_forall in H. specialize (H (Z.to_nat d)). rewrite Z2Nat.id in H by lia. apply H, in_seq. lia.
Qed.
Lemma hex_encode_visible l : Forall (fun b => 0 <= b < 256) l -> all_chars visible_char (hex_encode l) = true.
Proof.
  induction 1 as [|b l Hb _ IH]; [done|]. cbn [hex_encode foldr all_chars]. rewrite !hex_char_visible; [done|..].
  - change 15 with (Z.ones 4). rewrite Z.land_ones by lia. apply Z.mod_pos_bound. lia.
  - rewrite Z.shiftr_div_pow2 by lia. split; [apply Z.div_pos; lia|apply Z.div_lt_upper_bound; lia].
Qed.
Lemma alphabet_visible i : 0 <= i < zlen alphabet -> visible_char (default "000"%char (alphabet !! Z.to_nat i)) = true.
Proof.
  intros Hi. assert (forallb visible_char alphabet = true) as H by (vm_compute; reflexivity). rewrite forallb_forall in H. unfold zlen in Hi.
  destruct (lookup_lt_is_Some_2 alphabet (Z.to_nat i) ltac:(lia)) as [c Hc]. rewrite Hc. apply H. apply list_elem_of_In. by eapply list_elem_of_lookup_2.
Qed.
Lemma password_visible length bytes : all_chars visible_char (generatePassword length bytes) = true.
Proof.
  unfold generatePassword. cbv zeta. induction (take _ bytes) as [|b l IH]; [done|]. cbn [fmap list_fmap string_of_list_ascii all_chars]. rewrite alphabet_visible; [exact IH|].
  apply Z.mod_pos_bound. reflexivity.
Qed.
Lemma visible_chars_blank s : all_chars visible_char s = true -> s <> "" -> blank s = false.
Proof. intros H Hs. unfold blank. rewrite TrimSpace_visible_chars by done. by apply String.eqb_neq. Qed.
Lemma password_not_blank bytes : bytes <> [] -> blank (generatePassword 14 bytes) = false.
Proof. intros H. apply visible_chars_blank; [apply password_visible|]. by destruct bytes. Qed.
End runs.

(** The listing shows an administrator with tenants the registrations of these tenants alone. *)
Lemma List_scoped `{Unicode} status limit scopes db r : normalizeTenants scopes <> [] -> r ∈ List_ status limit scopes db -> RgTenant r ∈ normalizeTenants scopes.
Proof.
  intros Hs Hr. unfold List_ in Hr. apply elem_of_take in Hr as (i & Hr & _). apply list_elem_of_lookup_2 in Hr. rewrite sort_by_perm in Hr.
  apply list_elem_of_In, filter_In in Hr as [_ Hr]. apply andb_true_iff in Hr as [_ Hr]. apply orb_true_iff in Hr as [Hr|Hr]; by apply bool_decide_eq_true in Hr.
Qed.

(** ** A registration without a sponsor *)

Section unsponsored.
Context {U : Unicode} {HD : HexDigest} {PH : PasswordHash} {RU : RequestURI}.
(** A digest is text in hexadecimal digits. *)
Hypothesis digest_text : forall text, all_chars visible_char (hex_digest text) = true /\ hex_digest text <> "".

Lemma matchToken_generated bytes : Forall (fun b => 0 <= b < 256) bytes -> bytes <> [] -> matchToken (hex_encode bytes) (TrimSpace (hashToken (hex_encode bytes))) = None.
Proof using digest_text.
  intros Hb Hne. destruct (digest_text (hex_encode bytes)) as [Hd Hd']. unfold matchToken, hashToken. rewrite !(TrimSpace_visible_chars (hex_digest _)) by done.
  rewrite !visible_chars_blank; [|done..|by apply hex_encode_visible|by destruct bytes]. cbn. by rewrite String.eqb_refl.
Qed.

(** Where no sponsor is asked, a submission that succeeds is approved at once, and its guest is admitted with the token that it returned. *)
Theorem self_registration_admits cfg send req e now now' db db' record fl :
  reachable (mkWorld db fl) -> GcSponsorApprovalEnabled cfg = false -> Forall (fun b => 0 <= b < 256) (EyGuestToken e) -> EyGuestToken e <> [] ->
  Submit cfg send req e now db = (Ok record, db') ->
  granted record /\ RgID record = EyID e /\ (Complete (RgID record) (RgGuestToken record) now' db').1 = Ok (mkGuestAuthResult (RgUsername record) (RgRole record)).
Proof using digest_text.
  intros Hw%reachable_ok Hsp Hbytes Hne HS. assert (rtc step (mkWorld db fl) (mkWorld db' fl)) as Hrun.
  { pose proof (run_submit cfg send req e now db fl) as H. by rewrite HS in H. }
  revert HS. unfold Submit. rewrite !Hsp. split_if; [done|]. destruct (validateRequest _ _); [done|]. cbn [generateToken]. cbv zeta.
  destruct (insert_registration _ _ _ _) as [db1|] eqn:Hins; [|done]. set (db2 := audit _ _ _ _ _ db1).
  destruct (ApproveByID _ _ _ _ _ _ _) as [[approved|] db3] eqn:HA; [|done]. intros [= <- <-]. cbn in HA.
  assert (row_of (EyID e) db2 = Some (mkRegistrationRow (without_tokens (new_registration cfg req (EyID e) (hex_encode (EyGuestToken e)) "" now)) None (hashToken (hex_encode (EyGuestToken e))))) as Hrow.
  { change (row_of (EyID e) db1 = Some (mkRegistrationRow (without_tokens (new_registration cfg req (EyID e) (hex_encode (EyGuestToken e)) "" now)) None (hashToken (hex_encode (EyGuestToken e))))).
    revert Hins. unfold insert_registration. cbn [RgID without_tokens new_registration]. destruct (row_of (EyID e) db) eqn:Hfree; [done|]. intros [= <-]. unfold row_of, with_rows in *. cbn [DbRows].
    clear -Hfree. induction (DbRows db) as [|q rows IH]; simpl in *.
    - unfold has_id. cbn. by rewrite String.eqb_refl.
    - destruct (has_id (EyID e) q); [done|]. by apply IH. }
  assert (world_ok (mkWorld db2 fl)) as Hw2.
  { apply (run_ok (mkWorld db fl)); [done|]. eapply rtc_l; [by eapply StepSubmit|]. apply rtc_once. by constructor. }
  pose proof (run_decide cfg send (EyID e) "self-registration" true "" e now db2 fl) as Hrun2. unfold ApproveByID in HA. rewrite HA in Hrun2. cbn [snd] in Hrun2.
  destruct (run_ok _ _ Hw2 Hrun2) as [Hw3 P]. destruct (P _ _ Hrow) as (r3 & Hr3 & _ & Hg & _).
  destruct (decide_approved _ _ _ _ _ _ _ _ _ _ _ Hw2 HA) as (r & Hr & G & Ga & HID & HN & HR). cbn [WDB] in *. rewrite Hr3 in Hr. injection Hr as <-.
  cbn [with_guest_token RgID RgGuestToken RgUsername RgRole]. split_and!; [exact Ga|exact HID|]. rewrite HID, HN, HR.
  apply (Complete_granted (mkWorld db3 fl)); [done..|]. rewrite Hg. cbn [RowGuestHash]. by apply matchToken_generated.
Qed.
End unsponsored.

Section invitation.
Context {U : Unicode} {HD : HexDigest} {PH : PasswordHash} {RU : RequestURI}.

(** With invitations switched off, an approval that creates the account sends nothing and yet records the invitation as sent. *)
Theorem unsent_invitation_recorded cfg send id approver e now db db' record :
  inviteMode cfg = "none" -> EyPassword e <> [] -> (exists r, row_of id db = Some r /\ RgStatus (RowRecord r) = StatusPending /\ RgUsername (RowRecord r) = "") ->
  ApproveByID cfg send id approver e now db = (Ok record, db') ->
  DbOutbox db' = DbOutbox db /\ DlStatus (RgInvite record) = "sent" /\ exists r', row_of id db' = Some r' /\ DlStatus (RgInvite (RowRecord r')) = "sent".
Proof.
  intros Hmode Hpw (r & Hr & P & Hn). unfold ApproveByID, decide, decide_tx, loadByID, found. rewrite Hr. cbn [mbind result_bind]. rewrite P.
  change (EqualFold StatusPending StatusRejected && true) with false. change (approved_status StatusPending) with false. cbn [negb]. unfold allocate_user. rewrite Hn. change (negb (blank "")) with false.
  destruct (uniqueGuestUsernameTx _ _) as [name|]; [|done]. cbn [mbind result_bind]. destruct (hash_password _ _) as [hash|]; [|done]. cbn [mbind result_bind].
  destruct (insert_user _ _ _) as [db1|] eqn:Hi; [|done]. cbn [mbind result_bind]. unfold invite, sendInviteNotification, invite_message. rewrite Hmode.
  change (("none" =? "")%string || ("none" =? "none")%string) with true. cbn [orb send_message]. rewrite password_not_blank by done. cbn [negb]. intros [= <- <-].
  assert (DbRows db1 = DbRows db /\ DbOutbox db1 = DbOutbox db) as [E Eo] by (unfold insert_user in Hi; destruct (DbUsers db !! name); [done|]; by injection Hi as <-).
  split_and!; [done|done|]. exists (updated id (set_delivery false (mkDelivery "sent" (coalesced (TrimSpace ""))) now) (updated id (set_approved approver name now) r)).
  destruct (row_of_Some _ _ _ Hr) as [_ <-]. split.
  - unfold updateDeliveryStatus. change (("invite" =? "approval")%string) with false. cbn [RgID]. rewrite row_of_updated by done.
    match goal with |- _ <$> row_of ?i (audit _ _ _ _ _ ?d) = _ => change (row_of i (audit _ _ _ _ _ d)) with (row_of i d) end. rewrite row_of_updated by done. unfold row_of in *. by rewrite E, Hr.
  - unfold updated, has_id. rewrite String.eqb_refl. cbn. by rewrite String.eqb_refl.
Qed.
End invitation.

(** ** Examples *)

(** Requests name an address with a scheme. *)
#[export] Instance with_scheme : RequestURI | 100 := fun uri => if Contains uri "://" then None else Some ("parse " +:+ uri +:+ ": invalid URI for request").

Module example.
#[local] Instance sha256_digest : HexDigest := fun text => hex_encode (sha256 (bytes_of_string text)).
Lemma sha256_digest_text text : all_chars visible_char (hex_digest text) = true /\ hex_digest text <> "".
Proof.
  unfold hex_digest, sha256_digest. split; [apply hex_encode_visible, sha2_wf|].
  assert (List.length (sha256 (bytes_of_string text)) = 32%nat) as H by apply length_sha2. destruct (sha256 _); [discriminate H|discriminate].
Qed.

Definition open_house : GuestConfig := mkGuestConfig true false "" "None" "" "" "" "AegisNAS Guest" "staff ".
Definition sponsored : GuestConfig := mkGuestConfig true true "email" "sms" "portal@example.com" "" "" "AegisNAS Guest" "Admin".
Definition delivers : Sender := fun _ => None.
Definition unreachable_mail : Sender := fun m => match m with Email _ _ _ _ => Some "connection refused" | SMS _ _ _ _ => None end.
Definition entropy (id : string) (n : Z) : Entropy := mkEntropy id [n; n; 255] [n; 7; n] [n; 1; 56; 57; 112; 200; 3; 9; 5; 8; 17; 44; 90; 255] "salt".
Definition visitor : RegistrationRequest :=
  mkRegistrationRequest " Guest User" "guest@Visitors.example " "+49 30 1" "" "" "Lead" "lead@example.com" "" "aa:bb:cc:dd:ee:ff" "192.168.50.23" "http://192.168.50.1:8081/".
Definition empty_db : GuestDB := mkGuestDB [] ∅ [] [] None [].
Definition shown (r : result string Registration) : string * string * string * string :=
  match r with Ok r => (RgStatus r, RgUsername r, RgRole r, DlStatus (RgInvite r)) | Err e => (e, "", "", "") end.

(** Without a sponsor *)
Definition id1 : string := "0f1e2d3c-0000-4000-8000-000000000001".
Definition submitted := Submit open_house delivers visitor (entropy id1 3) 1000 empty_db.
Definition after_submit : GuestDB := submitted.2.
Definition token1 : string := hex_encode [3; 3; 255].
Definition completed := Complete id1 token1 1060 after_submit.
Example open_registration :
  shown submitted.1 = ("approved", "guest_0f1e2d3c", "staff", "sent") /\ completed.1 = Ok (mkGuestAuthResult "guest_0f1e2d3c" "staff")
  /\ (Complete id1 (token1 +:+ "0") 1060 after_submit).1 = Err "invalid token" /\ DbOutbox after_submit = [].
Proof. vm_compute. repeat split. Qed.

(** With a sponsor, whose mail is not delivered; the tenant is the sponsor's, and the role is not [Admin] *)
Definition id2 : string := "0f1e2d3c-0000-4000-8000-000000000002".
Definition asked := Submit sponsored unreachable_mail visitor (entropy id2 5) 2000 completed.2.
Definition link_token : string := hex_encode [5; 7; 5].
Definition rejected_db : GuestDB := (RejectByToken sponsored delivers link_token "sponsor" " no badge " (entropy "" 0) 2100 asked.2).2.
Definition approved_db := ApproveByToken sponsored delivers link_token "sponsor" (entropy "" 5) 2100 asked.2.
Example sponsored_registration :
  shown asked.1 = ("pending", "", "guest-basic", "queued") /\ (RgTenant <$> asked.1) = Ok "example.com" /\ ((fun r => DlStatus (RgApproval r)) <$> asked.1) = Ok "failed"
  /\ (Complete id2 (hex_encode [5; 5; 255]) 2050 asked.2).1 = Err "registration is still pending approval"
  /\ shown approved_db.1 = ("approved", "guest_0f1e2d3c_1", "guest-basic", "sent")
  /\ DbOutbox approved_db.2 !! 1%nat = Some (SMS "" "" "+49 30 1"
       "Your guest access has been approved. Username: guest_0f1e2d3c_1 Password: FB9A8fDKFJTvjd Login portal: http://192.168.50.1:8081/?client_mac=aa%3Abb%3Acc%3Add%3Aee%3Aff")
  /\ (ApproveByToken sponsored delivers link_token "sponsor" (entropy "" 5) 2200 rejected_db).1 = Err "registration has already been rejected".
Proof. vm_compute. repeat split. Qed.

Definition start : World := mkWorld empty_db [].
Definition op_submit : operation := OpSubmit open_house delivers visitor (entropy id1 3) 1000.
Definition op_complete : operation := OpComplete id1 token1 1060.
Definition op_ask : operation := OpSubmit sponsored unreachable_mail visitor (entropy id2 5) 2000.
Definition op_approve : operation := OpApproveByToken sponsored delivers link_token "sponsor" (entropy "" 5) 2100.
Definition first_db : GuestDB := run_all [op_submit] empty_db.
Definition fourth_db : GuestDB := run_all [op_complete; op_ask; op_approve] first_db.
Definition first : World := mkWorld first_db [].
Definition fourth : World := mkWorld fourth_db [].

Lemma start_first : rtc step start first.
Proof. exact (run_sequence [op_submit] empty_db []). Qed.
Lemma first_fourth : rtc step first fourth.
Proof. exact (run_sequence [op_complete; op_ask; op_approve] first_db []). Qed.
Lemma first_reachable : reachable first.
Proof. exists start. split; [done|apply start_first]. Qed.
Lemma fourth_reachable : reachable fourth.
Proof. exists start. split; [done|]. etrans; [apply start_first|apply first_fourth]. Qed.
Definition first_row : RegistrationRow := default (mkRegistrationRow (new_registration open_house visitor "" "" "" 0) None "") (row_of id1 (WDB first)).

Lemma registration_lifecycle_witness : exists r, row_of id1 (WDB fourth) = Some r /\ rtc moves StatusApproved (RgStatus (RowRecord r)).
Proof.
  destruct (registration_lifecycle first fourth id1 first_row first_reachable first_fourth) as (r & Hr & H & _); [vm_compute; reflexivity|].
  exists r. split; [exact Hr|exact H].
Defined.
Definition second_row : RegistrationRow := default first_row (row_of id2 fourth_db).
Lemma guest_link_never_expires_witness : (Complete id1 token1 1000000 (WDB fourth)).1 = Ok (mkGuestAuthResult "guest_0f1e2d3c" "staff").
Proof.
  apply (guest_link_never_expires first fourth id1 first_row token1 1000000 first_reachable first_fourth); [vm_compute; reflexivity|left; vm_compute; reflexivity|vm_compute; reflexivity|vm_compute; reflexivity].
Defined.
Lemma self_registration_admits_witness : (Complete id1 token1 5000 after_submit).1 = Ok (mkGuestAuthResult "guest_0f1e2d3c" "staff").
Proof.
  apply (self_registration_admits sha256_digest_text open_house delivers visitor (entropy id1 3) 1000 5000 empty_db after_submit
           (match submitted.1 with Ok r => r | Err _ => new_registration open_house visitor "" "" "" 0 end) []);
    [by exists start|reflexivity|repeat constructor; lia|discriminate|vm_compute; reflexivity].
Defined.
(** A configuration that changed between the submission and the approval *)
Definition silent : GuestConfig := mkGuestConfig true true "email" " None" "portal@example.com" "" "" "AegisNAS Guest" "".
Definition silent_approval := ApproveByID silent delivers id2 "carol" (entropy "" 5) 2100 asked.2.
Lemma unsent_invitation_recorded_witness : DbOutbox silent_approval.2 = DbOutbox asked.2.
Proof.
  apply (unsent_invitation_recorded silent delivers id2 "carol" (entropy "" 5) 2100 asked.2 silent_approval.2
           (match silent_approval.1 with Ok r => r | Err _ => new_registration open_house visitor "" "" "" 0 end)); [vm_compute; reflexivity|discriminate| |vm_compute; reflexivity].
  exists (default first_row (row_of id2 asked.2)). vm_compute. repeat split.
Defined.
End example.
