(* ===== verification/GuestAccess.v ===== *)
(** * Guests at the portal ([internal/portal/server/guest.go], [internal/adminapi/guest_registrations.go], [internal/radius/voucher.go])

    The handlers that let guests in: the pages of a registration ([GuestWorkflow]), the decisions of administrators, and the vouchers ([HandleVoucherLogin] of
    [internal/portal/server/server.go]), over the portal's sessions ([Portal]); and the login of an invited guest by [PortalAuth].

    A form or a query is the function from its fields to their values. A response is where it redirects to, the data of its page, an error with its status, or a
    record. The address of the client is an argument, as is the limiter's verdict; observation of clients, accounting and log lines are left out. *)

From S2P Require Import Prelude GoStrings Bytes EventLog IdentityFailover Sha Mfa PortalAuth.
From S2P Require Import PolicyTypes PolicyTyped PolicySets PolicyEngine ServiceChain Portal GuestWorkflow.

Definition fields : Type := string -> string.
Inductive Response :=
| Redirect (location : string)
| StatusPage (record : Registration) (guestToken : string)
| DecisionPage (record : Registration) (approvalToken : string)
| HttpError (code : Z) (message : string)
| JSONRecord (record : Registration)
| JSONRecords (records : list Registration).

(** ** Registrations *)

(** The parts of a request that its base URL comes from *)
Record Connection := mkConnection { CnTLS : bool; CnForwardedProto : string; CnHost : string }.
Definition portalBaseURL (c : Connection) : string :=
  let scheme := if CnTLS c then "https" else if negb (TrimSpace (CnForwardedProto c) =? "")%string then TrimSpace (CnForwardedProto c) else "http" in
  scheme +:+ "://" +:+ CnHost c.
Definition guestworkflowRequestFromHTTP (form : fields) (c : Connection) (clientIP mac : string) : RegistrationRequest :=
  mkRegistrationRequest (TrimSpace (form "full_name")) (TrimSpace (form "email")) (TrimSpace (form "phone")) (TrimSpace (form "company")) (TrimSpace (form "purpose"))
    (TrimSpace (form "sponsor_name")) (TrimSpace (form "sponsor_email")) (TrimSpace (form "sponsor_phone")) mac clientIP (portalBaseURL c).

Section registrations.
Context {U : Unicode} {HD : HexDigest} {PH : PasswordHash} {RU : RequestURI}.
Context (cfg : GuestConfig) (send : Sender).

Definition HandleRegistrationSubmit (form : fields) (c : Connection) (clientIP : string) (e : Entropy) (now : Z) (db : GuestDB) : Response * GuestDB :=
  let mac := TrimSpace (form "client_mac") in
  match Submit cfg send (guestworkflowRequestFromHTTP form c clientIP mac) e now db with
  | (Err error, db) => (Redirect ("/register?error=" +:+ QueryEscape error +:+ "&client_mac=" +:+ QueryEscape mac), db)
  | (Ok record, db) =>
      let page := if EqualFold (RgStatus record) "approved" || EqualFold (RgStatus record) "completed" then "/register/complete" else "/register/pending" in
      (Redirect (page +:+ "?id=" +:+ QueryEscape (RgID record) +:+ "&token=" +:+ QueryEscape (RgGuestToken record) +:+ "&client_mac=" +:+ QueryEscape mac), db)
  end.

Definition HandleRegistrationPending (query : fields) (db : GuestDB) : Response :=
  match GetForGuest (TrimSpace (query "id")) (TrimSpace (query "token")) db with
  | Err _ => Redirect ("/?error=registration_not_found&client_mac=" +:+ QueryEscape (query "client_mac"))
  | Ok record => StatusPage record (query "token")
  end.

Definition HandleRegistrationApprovalPage (query : fields) (db : GuestDB) : Response :=
  match LookupForApproval (TrimSpace (query "token")) db with
  | Err _ => HttpError 404 "Approval request not found."
  | Ok record => DecisionPage record (query "token")
  end.

Definition decision_page (token outcome : string) : Response := Redirect ("/register/approve?token=" +:+ QueryEscape token +:+ outcome).
Definition HandleRegistrationApprovalDecision (form : fields) (e : Entropy) (now : Z) (db : GuestDB) : Response * GuestDB :=
  let token := TrimSpace (form "token") in
  let decision := TrimSpace (form "decision") in
  let reason := TrimSpace (form "reason") in
  if (decision =? "approve")%string then
    match ApproveByToken cfg send token "sponsor" e now db with
    | (Err error, db) => (decision_page token ("&error=" +:+ QueryEscape error), db)
    | (Ok _, db) => (decision_page token "&outcome=approved", db)
    end
  else if (decision =? "reject")%string then
    match RejectByToken cfg send token "sponsor" reason e now db with
    | (Err error, db) => (decision_page token ("&error=" +:+ QueryEscape error), db)
    | (Ok _, db) => (decision_page token "&outcome=rejected", db)
    end
  else (decision_page token "&error=invalid_decision", db).

(** *** Administrators *)

(** [AdminIdentity], as far as the handlers read it *)
Record AdminIdentity := mkAdminIdentity { AiSubject : string; AiTenants : list string; AiBreakGlass : bool }.
Definition tenantAllowed (identity : AdminIdentity) (tenant : string) : bool :=
  if AiBreakGlass identity || bool_decide (AiTenants identity = []) then true
  else
    let tenant := normalizeTenant tenant in
    if (tenant =? "")%string then false else existsb (fun scope => (normalizeTenant scope =? tenant)%string) (AiTenants identity).

Definition HandleListGuestRegistrations (identity : AdminIdentity) (query : fields) (db : GuestDB) : Response :=
  JSONRecords (List_ (TrimSpace (query "status")) 100 (AiTenants identity) db).
Definition decided_by (identity : AdminIdentity) (id : string) (decision : GuestDB -> result string Registration * GuestDB) (db : GuestDB) : Response * GuestDB :=
  match GetByID id db with
  | Err error => (HttpError 404 error, db)
  | Ok record =>
      if negb (tenantAllowed identity (RgTenant record)) then (HttpError 403 "forbidden", db)
      else match decision db with
           | (Err error, db) => (HttpError 400 error, db)
           | (Ok record, db) => (JSONRecord record, db)
           end
  end.
Definition HandleApproveGuestRegistration (identity : AdminIdentity) (id : string) (e : Entropy) (now : Z) : GuestDB -> Response * GuestDB :=
  decided_by identity id (ApproveByID cfg send id (AiSubject identity) e now).
(** The body is what it decodes to. *)
Definition HandleRejectGuestRegistration (identity : AdminIdentity) (id : string) (body : option (gmap string string)) (e : Entropy) (now : Z) (db : GuestDB) : Response * GuestDB :=
  match body with
  | None => (HttpError 400 "invalid request body", db)
  | Some payload => decided_by identity id (RejectByID cfg send id (AiSubject identity) (TrimSpace (default "" (payload !! "reason"))) e now) db
  end.
End registrations.

(** ** Vouchers *)

(** A row of [vouchers] *)
Record VoucherRow := mkVoucher { VcRole : string; VcDuration : Z; VcUsageLimit : option Z; VcUsedCount : option Z; VcExpiresAt : option Z }.
Notation Vouchers := (gmap string VoucherRow).

(** The read and the checks of [ValidateVoucher]; a count that is [NULL] does not scan. *)
Definition voucher_check (code : string) (now : Z) (vs : Vouchers) : result string VoucherRow :=
  match vs !! code with
  | None => Err "invalid voucher code"
  | Some v =>
      match VcUsageLimit v, VcUsedCount v with
      | Some limit, Some used =>
          if limit <=? used then Err "voucher usage limit exceeded"
          else if match VcExpiresAt v with Some expires => expires <? now | None => false end then Err "voucher expired"
          else Ok v
      | _, _ => Err "sql: Scan error: converting NULL to int is unsupported"
      end
  end.
Definition spent (v : VoucherRow) : VoucherRow := mkVoucher (VcRole v) (VcDuration v) (VcUsageLimit v) (Z.succ <$> VcUsedCount v) (VcExpiresAt v).
(** Its [UPDATE] *)
Definition voucher_spend (code : string) (vs : Vouchers) : Vouchers := alter spent code vs.
Definition ValidateVoucher (code : string) (now : Z) (vs : Vouchers) : result string (string * Z) * Vouchers :=
  match voucher_check code now vs with
  | Err error => (Err error, vs)
  | Ok v => (Ok (VcRole v, VcDuration v), voucher_spend code vs)
  end.

(** ** Sessions *)

Section sessions.
Context {N : Numbers} {U : Unicode} {R : MapRange} {J : Json} {RE : Regexp} {IA : IPAddr} {CD : ChainDigest} {D : PolicyDigest}.
Context {HD : HexDigest} {PH : PasswordHash}.
Context (site : Site).

Definition guest_result (a : GuestAuthResult) : AuthResult := mkAuthResult (GaUsername a) (GaRole a) [] "guest-workflow" "guest-self-registration" "" "" "" "" 0 0 0.
Definition HandleRegistrationComplete (query : fields) (clientIP sessionID : string) (persists : bool) (now : Z) (db : GuestDB) (p : Portal)
    : Response * GuestDB * Portal :=
  let mac := TrimSpace (query "client_mac") in
  match Complete (TrimSpace (query "id")) (TrimSpace (query "token")) now db with
  | (Err _, db) =>
      (Redirect ("/register/pending?id=" +:+ QueryEscape (query "id") +:+ "&token=" +:+ QueryEscape (query "token") +:+ "&client_mac=" +:+ QueryEscape mac), db, p)
  | (Ok a, db) =>
      match establishAuthenticatedSession site mac clientIP (guest_result a) sessionID persists now p with
      | (Some _, p) =>
          (Redirect ("/register/pending?id=" +:+ QueryEscape (TrimSpace (query "id")) +:+ "&token=" +:+ QueryEscape (query "token") +:+ "&client_mac=" +:+ QueryEscape mac
             +:+ "&error=session_error"), db, p)
      | (None, p) => (Redirect ("/success?client_mac=" +:+ QueryEscape mac), db, p)
      end
  end.

(** [allows]: the rate limiter. A transition of a client that is not there is the only failure that is not the policy's. *)
Definition HandleVoucherLogin (allows : bool) (form : fields) (clientIP sessionID : string) (persists : bool) (now : Z) (vs : Vouchers) (p : Portal)
    : Response * Vouchers * Portal :=
  let mac := form "client_mac" in
  let code := TrimSpace (form "voucher_code") in
  if negb allows then (Redirect ("/voucher?error=rate_limited&client_mac=" +:+ mac), vs, p)
  else match ValidateVoucher code now vs with
  | (Err _, vs) => (Redirect ("/voucher?error=invalid_voucher&client_mac=" +:+ mac), vs, p)
  | (Ok (role, durationMinutes), vs) =>
      match establishAuthenticatedSession site mac clientIP (voucher_result code role durationMinutes) sessionID persists now p with
      | (Some (ClientNotFound _), p) => (Redirect ("/voucher?error=session_error&client_mac=" +:+ mac), vs, p)
      | (Some _, p) => (Redirect ("/voucher?error=policy_denied&client_mac=" +:+ mac), vs, p)
      | (None, p) => (Redirect ("/success?client_mac=" +:+ mac), vs, p)
      end
  end.
End sessions.

(** ** What a session needs *)

Section session_theorems.
Context {N : Numbers} {U : Unicode} {R : MapRange} {J : Json} {RE : Regexp} {IA : IPAddr} {CD : ChainDigest} {D : PolicyDigest}.
Context {HD : HexDigest} {PH : PasswordHash}.

(** The page of a registration differs from the page of a success in its second letter. *)
Lemma pending_not_success s t : Redirect ("/register/pending?id=" +:+ s) <> Redirect ("/success?client_mac=" +:+ t).
Proof. intros [=]. Qed.

(** C12: The page that completes a registration gives a session exactly if the registration is approved or completed, the token in the link is the guest's, and the portal
    admits its user with its role; and without the first two it leaves all sessions as they are. *)
Theorem guest_session_needs_approval site query clientIP sessionID persists now w p :
  GuestWorkflow.reachable w ->
  let '(response, db', p') := HandleRegistrationComplete site query clientIP sessionID persists now (WDB w) p in
  let mac := TrimSpace (query "client_mac") in
  let login r := establishAuthenticatedSession site mac clientIP (guest_result (mkGuestAuthResult (RgUsername (RowRecord r)) (RgRole (RowRecord r)))) sessionID persists now p in
  let entitled r := row_of (TrimSpace (query "id")) (WDB w) = Some r /\ granted (RowRecord r) /\ matchToken (TrimSpace (query "token")) (TrimSpace (RowGuestHash r)) = None in
  (response = Redirect ("/success?client_mac=" +:+ QueryEscape mac) <-> exists r, entitled r /\ (login r).1 = None)
  /\ (p' = p \/ exists r, entitled r /\ p' = (login r).2).
Proof.
  intros Hw%GuestWorkflow.reachable_ok. unfold HandleRegistrationComplete. destruct (Complete _ _ _ _) as [[a|error] db'] eqn:E.
  - destruct (Complete_Ok _ _ _ _ _ _ Hw E) as (r & Hr & G & Hm & ->). destruct (establishAuthenticatedSession _ _ _ _ _ _ _ _) as [[e|] p'] eqn:EL; cbn [fst snd].
    + split; [|right; exists r; by rewrite EL]. split; [by intros ?%pending_not_success|]. intros (r' & (Hr' & _) & Hl). rewrite Hr in Hr'. injection Hr' as <-. by rewrite EL in Hl.
    + split; [|right; exists r; by rewrite EL]. split; [|done]. intros _. exists r. by rewrite EL.
  - split; [|by left]. split; [by intros ?%pending_not_success|]. intros (r & (Hr & G & Hm) & _).
    pose proof (Complete_granted w _ r _ now Hw Hr G Hm) as HC. by rewrite E in HC.
Qed.
End session_theorems.

(** ** Administrators *)

Section admin_theorems.
Context {U : Unicode} {HD : HexDigest} {PH : PasswordHash}.

Lemma tenantAllowed_scoped identity tenant : AiBreakGlass identity = false -> AiTenants identity <> [] -> tenantAllowed identity tenant = true ->
  normalizeTenant tenant <> "" /\ normalizeTenant tenant ∈ normalizeTenant <$> AiTenants identity.
Proof.
  intros Hb Ht. unfold tenantAllowed. rewrite Hb. rewrite bool_decide_eq_false_2 by done. cbn [orb]. cbv zeta. destruct (String.eqb_spec (normalizeTenant tenant) ""); [done|].
  intros (scope & Hs & E)%existsb_exists. apply String.eqb_eq in E. split; [done|]. apply list_elem_of_fmap. exists scope. split; [done|]. by apply list_elem_of_In.
Qed.

Lemma decided_by_scoped identity id decision db : AiBreakGlass identity = false -> AiTenants identity <> [] -> (decided_by identity id decision db).2 <> db ->
  exists r, row_of (TrimSpace id) db = Some r /\ normalizeTenant (RgTenant (RowRecord r)) <> "" /\ normalizeTenant (RgTenant (RowRecord r)) ∈ normalizeTenant <$> AiTenants identity.
Proof.
  intros Hb Ht. unfold decided_by, GetByID, loadByID, found. destruct (row_of (TrimSpace id) db) as [r|]; [|done].
  destruct (tenantAllowed identity (RgTenant (RowRecord r))) eqn:Ha; [|done]. intros _. exists r. split; [done|]. by apply tenantAllowed_scoped.
Qed.

End admin_theorems.

(** ** Vouchers in interleavings

    Between the read of a voucher and its [UPDATE] other logins may come. In a run at most [k] logins with the same voucher are between the two. *)

Section vouchers.
Record VoucherWorld := mkVoucherWorld { VwRows : Vouchers; VwInFlight : list string }.
Definition in_flight (code : string) (fl : list string) : nat := List.length (List.filter (String.eqb code) fl).

Inductive voucher_step (k : nat) : VoucherWorld -> VoucherWorld -> Prop :=
| VoucherCheck code now v vs fl :
    voucher_check code now vs = Ok v -> (in_flight code fl < k)%nat -> voucher_step k (mkVoucherWorld vs fl) (mkVoucherWorld vs (code :: fl))
| VoucherSpend code vs before after :
    voucher_step k (mkVoucherWorld vs (before ++ code :: after)) (mkVoucherWorld (voucher_spend code vs) (before ++ after))
| VoucherCreate code v vs fl :
    vs !! code = None -> VcUsedCount v = Some 0 -> voucher_step k (mkVoucherWorld vs fl) (mkVoucherWorld (<[code := v]> vs) fl).

(** The uses so far and those on their way *)
Definition vouchers_ok (k : nat) (w : VoucherWorld) : Prop :=
  forall code, match VwRows w !! code with
  | None => in_flight code (VwInFlight w) = 0%nat
  | Some v => forall limit used, VcUsageLimit v = Some limit -> VcUsedCount v = Some used ->
      used + Z.of_nat (in_flight code (VwInFlight w)) <= Z.max 0 (limit + Z.of_nat k - 1)
  end.

Lemma in_flight_cons code c fl : in_flight code (c :: fl) = if (code =? c)%string then S (in_flight code fl) else in_flight code fl.
Proof. unfold in_flight. simpl. by destruct (code =? c)%string. Qed.
Lemma in_flight_app code fl1 fl2 : in_flight code (fl1 ++ fl2) = (in_flight code fl1 + in_flight code fl2)%nat.
Proof. unfold in_flight. by rewrite List.filter_app, length_app. Qed.

Lemma voucher_check_Ok code now vs v : voucher_check code now vs = Ok v ->
  vs !! code = Some v /\ exists limit used, VcUsageLimit v = Some limit /\ VcUsedCount v = Some used /\ used < limit
    /\ forall expires, VcExpiresAt v = Some expires -> now <= expires.
Proof.
  unfold voucher_check. destruct (vs !! code) as [row|]; [|done]. destruct (VcUsageLimit row) as [limit|] eqn:El; [|done]. destruct (VcUsedCount row) as [used|] eqn:Eu; [|done].
  destruct (Z.leb_spec limit used); [done|]. destruct (VcExpiresAt row) as [expires|] eqn:Ee.
  - destruct (Z.ltb_spec expires now); [done|]. intros [= <-]. split; [done|]. exists limit, used. split_and!; [done..|]. rewrite Ee. by intros ? [= <-].
  - intros [= <-]. split; [done|]. exists limit, used. split_and!; [done..|]. by rewrite Ee.
Qed.

Lemma voucher_step_ok k w w' : vouchers_ok k w -> voucher_step k w w' -> vouchers_ok k w'.
Proof.
  intros Hw Hs. destruct Hs as [code now v vs fl H Hk|code vs before after|code v vs fl Hfree H0]; intros c; specialize (Hw c); cbn [VwRows VwInFlight] in *.
  - apply voucher_check_Ok in H as (Hv & limit & used & El & Eu & Hlt & _). rewrite in_flight_cons. destruct (String.eqb_spec c code) as [E|Hne]; [|done].
    rewrite E, Hv in *. intros limit' used' El' Eu'. assert (limit' = limit) as -> by congruence. assert (used' = used) as -> by congruence. lia.
  - rewrite in_flight_app, in_flight_cons in Hw. rewrite in_flight_app. unfold voucher_spend. destruct (String.eqb_spec c code) as [Ec|Hne].
    + revert Hw. rewrite Ec, lookup_alter_eq. intros Hw. destruct (vs !! code) as [v|]; [|cbn in *; lia]. cbn. intros limit used El Eu. destruct (VcUsedCount v) as [u|] eqn:E; [|done]. injection Eu as <-.
      specialize (Hw limit u El eq_refl). lia.
    + by rewrite lookup_alter_ne.
  - destruct (String.eqb_spec c code) as [->|Hne]; [|by rewrite lookup_insert_ne]. rewrite lookup_insert_eq. rewrite Hfree in Hw. rewrite Hw. intros limit used _ Eu. rewrite H0 in Eu.
    injection Eu as <-. lia.
Qed.

Lemma voucher_run_ok k w w' : vouchers_ok k w -> rtc (voucher_step k) w w' -> vouchers_ok k w'.
Proof. intros Hw. induction 1 as [|w1 w2 w3 Hs _ IH]; [done|]. by eapply IH, voucher_step_ok. Qed.

(** C14: A voucher is used at most as often as its limit and the logins that come between the read and the update of another allow: with at most [k] at a time, at most
    [k - 1] times more than the limit, and never more when they come one after the other. *)
Theorem voucher_uses_bounded k vs fl code v limit used :
  rtc (voucher_step k) (mkVoucherWorld ∅ []) (mkVoucherWorld vs fl) -> vs !! code = Some v -> VcUsageLimit v = Some limit -> VcUsedCount v = Some used ->
  used <= Z.max 0 (limit + Z.of_nat k - 1).
Proof.
  intros Hrun Hv El Eu. assert (vouchers_ok k (mkVoucherWorld vs fl)) as H.
  { eapply voucher_run_ok; [|exact Hrun]. intros c. cbn. by rewrite lookup_empty. }
  specialize (H code). cbn in H. rewrite Hv in H. specialize (H limit used El Eu). lia.
Qed.

Definition with_uses (used : Z) (v : VoucherRow) : VoucherRow := mkVoucher (VcRole v) (VcDuration v) (VcUsageLimit v) (Some used) (VcExpiresAt v).
Lemma in_flight_replicate code n : in_flight code (replicate n code) = n.
Proof. induction n as [|n IH]; [done|]. cbn [replicate]. by rewrite in_flight_cons, String.eqb_refl, IH. Qed.

Lemma run_spends k code v used vs n : vs !! code = Some v -> VcUsedCount v = Some used ->
  rtc (voucher_step k) (mkVoucherWorld vs (replicate n code)) (mkVoucherWorld (<[code := with_uses (used + Z.of_nat n) v]> vs) []).
Proof.
  revert v used vs. induction n as [|n IH]; intros v used vs Hv Hu; cbn [replicate].
  - rewrite insert_id; [done|]. rewrite Hv, Z.add_0_r. destruct v. cbn in *. by rewrite Hu.
  - eapply rtc_l; [apply (VoucherSpend k code vs [])|]. cbn [app]. unfold voucher_spend.
    specialize (IH (spent v) (used + 1) (alter spent code vs)). rewrite lookup_alter_eq, Hv in IH. specialize (IH eq_refl). cbn in IH. rewrite Hu in IH. specialize (IH eq_refl).
    match goal with |- rtc _ _ (mkVoucherWorld ?m _) => assert (<[code := with_uses (used + 1 + Z.of_nat n) (spent v)]> (alter spent code vs) = m) as <-; [|exact IH] end.
    apply map_eq. intros c. destruct (String.eqb_spec c code) as [->|Hne]; [|by rewrite !lookup_insert_ne, lookup_alter_ne]. rewrite !lookup_insert_eq. unfold with_uses. cbn. do 2 f_equal. f_equal. lia.
Qed.

(** C15: Logins that come together overspend a voucher: with one use left, [k] of them all pass the checks, and the count ends [k - 1] above the limit. *)
Theorem voucher_overspent k code v limit now vs :
  vs !! code = Some v -> VcUsageLimit v = Some limit -> VcUsedCount v = Some (limit - 1) -> (forall expires, VcExpiresAt v = Some expires -> now <= expires) ->
  rtc (voucher_step k) (mkVoucherWorld vs []) (mkVoucherWorld vs (replicate k code))
  /\ rtc (voucher_step k) (mkVoucherWorld vs (replicate k code)) (mkVoucherWorld (<[code := with_uses (limit + Z.of_nat k - 1) v]> vs) []).
Proof.
  intros Hv El Eu He. split.
  - assert (voucher_check code now vs = Ok v) as Hc.
    { unfold voucher_check. rewrite Hv, El, Eu. destruct (Z.leb_spec limit (limit - 1)); [lia|]. destruct (VcExpiresAt v) as [expires|]; [|done].
      destruct (Z.ltb_spec expires now); [|done]. specialize (He expires eq_refl). lia. }
    assert (forall n, (n <= k)%nat -> rtc (voucher_step k) (mkVoucherWorld vs []) (mkVoucherWorld vs (replicate n code))) as H; [|by apply H].
    induction n as [|n IH]; intros Hn; [done|]. eapply rtc_r; [apply IH; lia|]. cbn [replicate]. apply (VoucherCheck k code now v); [done|]. rewrite in_flight_replicate. lia.
  - replace (limit + Z.of_nat k - 1) with (limit - 1 + Z.of_nat k) by lia. by apply run_spends.
Qed.
End vouchers.

(** ** An invited guest logs in *)

Section invited.
Context {U : Unicode} {HD : HexDigest} {PH : PasswordHash}.
(** [bcrypt] accepts a password for its own hash. *)
Hypothesis password_hashed : forall salt password hash, hash_password salt password = Ok hash -> password_matches hash password = true.

(** [local_users] as a login reads it *)
Definition login_users (db : GuestDB) : gmap string (string * string) := (fun u => (GuPasswordHash u, GuRole u)) <$> DbUsers db.

(** The name and password of an approval's invitation open the portal's login by password, with the registration's role. *)
Theorem invited_guest_can_log_in id approver reason e now w record password db' ldb :
  GuestWorkflow.reachable w -> decide_tx id approver true reason e now (WDB w) = Ok (NowApproved record password, db') -> LgUsers ldb = Ok (login_users db') ->
  ValidateUserDetailed (RgUsername record) password ldb = Ok (true, RgRole record, true).
Proof using password_hashed.
  intros Hw%GuestWorkflow.reachable_ok Hd Hl. destruct (decide_tx_Ok _ _ _ _ _ _ _ _ _ Hw Hd) as (r & Hr & [(_ & _ & ? & _)|[(? & _)|(_ & _ & name & hash & _ & Hh & -> & rec & Hrec & _ & _ & Hname & Hrole)]]);
    [done|done|]. injection Hrec as <- Hpw. unfold ValidateUserDetailed. rewrite Hl. cbn [mbind result_bind]. unfold login_users, with_users. cbn [DbUsers].
  rewrite lookup_fmap, Hname, lookup_insert_eq. cbn. rewrite Hpw, (password_hashed _ _ _ Hh), Hrole. done.
Qed.
End invited.

(** ** Examples *)

Module example.
Import GuestWorkflow.example.
#[local] Existing Instance sha256_digest.
#[local] Instance no_digest : PolicyDigest :=
  {| rules_digest := fun _ => ""; request_digest := fun _ => ""; set_digest := fun _ => ""; rule_digest := fun _ => ""; text_digest := fun s => s |}.
#[local] Instance no_chain_digest : ChainDigest := fun _ => "".

Definition query (fs : list (string * string)) : fields := fun name => default "" ((list_to_map fs : gmap string string) !! name).
Definition no_portal : Portal := mkPortal ∅ ∅.
Definition link (token : string) : fields := query [("id", id1); ("token", token); ("client_mac", " m1 ")].
Definition complete_page (token : string) : Response * GuestDB * Portal := HandleRegistrationComplete example_site (link token) "10.0.0.7" "s1" true 70 first_db no_portal.

(** The link admits; with another token it does not; and it admits a second device. *)
Example completions :
  (complete_page token1).1.1 = Redirect "/success?client_mac=m1" /\ ((fun c => (ClUsername c, ClRole c)) <$> Clients (complete_page token1).2 !! "m1") = Some ("guest_0f1e2d3c", "staff")
  /\ (complete_page "x y").1.1 = Redirect ("/register/pending?id=" +:+ id1 +:+ "&token=x+y&client_mac=m1")
  /\ (HandleRegistrationComplete example_site (query [("id", id1); ("token", token1); ("client_mac", "m2")]) "10.0.0.8" "s2" true 99 (complete_page token1).1.2 (complete_page token1).2).1.1
     = Redirect "/success?client_mac=m2".
Proof. vm_compute. repeat split. Qed.

Lemma guest_session_needs_approval_witness : (complete_page token1).1.1 = Redirect "/success?client_mac=m1".
Proof.
  pose proof (guest_session_needs_approval example_site (link token1) "10.0.0.7" "s1" true 70 first no_portal first_reachable) as H.
  change (WDB first) with first_db in H. fold (complete_page token1) in H. destruct (complete_page token1) as [[response db'] p'] eqn:E. destruct H as [H _].
  change (TrimSpace (link token1 "client_mac")) with "m1" in H. apply H. exists first_row.
  split; [split; [vm_compute; reflexivity|split; [left; vm_compute; reflexivity|vm_compute; reflexivity]]|vm_compute; reflexivity].
Defined.

(** The sponsor's page, and administrators of two tenants *)
Definition decision (answer : string) := HandleRegistrationApprovalDecision sponsored delivers (query [("token", link_token); ("decision", answer)]) (entropy "" 5) 2100 asked.2.
Definition local_admin : AdminIdentity := mkAdminIdentity "carol" [" Example.COM"; "other.example"] false.
Definition other_admin : AdminIdentity := mkAdminIdentity "dave" ["other.example"] false.
Example decisions :
  (decision "approve").1 = Redirect "/register/approve?token=050705&outcome=approved" /\ (decision "later").1 = Redirect "/register/approve?token=050705&error=invalid_decision"
  /\ (HandleApproveGuestRegistration sponsored delivers other_admin id2 (entropy "" 5) 2100 asked.2).1 = HttpError 403 "forbidden"
  /\ (match (HandleRejectGuestRegistration sponsored delivers local_admin id2 (Some ∅) (entropy "" 5) 2100 asked.2).1 with JSONRecord r => RgStatus r | _ => "" end) = "rejected".
Proof. vm_compute. repeat split. Qed.


(** Vouchers: in turn, and two logins together *)
Definition voucher : VoucherRow := mkVoucher "guest" 60 (Some 2) (Some 0) (Some 500).
Definition vouchers : Vouchers := {["CODE" := voucher]}.
Definition redeem (at_ : Z) (vs : Vouchers) := ValidateVoucher "CODE" at_ vs.
Definition voucher_login (code : string) := HandleVoucherLogin example_site true (query [("client_mac", "m9"); ("voucher_code", code)]) "10.0.0.9" "s9" true 400 vouchers no_portal.
Example redemptions :
  (redeem 500 vouchers).1 = Ok ("guest", 60) /\ (redeem 501 vouchers).1 = Err "voucher expired" /\ (redeem 500 (redeem 499 (redeem 498 vouchers).2).2).1 = Err "voucher usage limit exceeded"
  /\ (voucher_login " CODE").1.1 = Redirect "/success?client_mac=m9" /\ (voucher_login "CODE2").1.1 = Redirect "/voucher?error=invalid_voucher&client_mac=m9"
  /\ (ClSessionTimeout <$> Clients (voucher_login "CODE").2 !! "m9") = Some 3600.
Proof. vm_compute. repeat split. Qed.
(** A login that the policy refuses has spent a use. *)
Definition denying_site : Site :=
  mkSite "guest" "portal" (fun _ => Ok None) (mkEnvironment None false 0 (Ok None) (fun _ => Ok None) (Ok [example_rule "a" 9 "deny"]) (fun _ => None) (fun _ _ _ => "")) 0.
Example refused_login_spends :
  let '(response, vs, _) := HandleVoucherLogin denying_site true (query [("client_mac", "m9"); ("voucher_code", "CODE")]) "10.0.0.9" "s9" true 400 vouchers no_portal in
  response = Redirect "/voucher?error=policy_denied&client_mac=m9" /\ (VcUsedCount <$> vs !! "CODE") = Some (Some 1).
Proof. vm_compute. split; reflexivity. Qed.

Definition fresh : VoucherRow := mkVoucher "guest" 60 (Some 1) (Some 0) None.
Lemma overspent_run : rtc (voucher_step 2) (mkVoucherWorld ∅ []) (mkVoucherWorld {["CODE" := with_uses 1 fresh]} ["CODE"]).
Proof.
  eapply rtc_l; [apply (VoucherCreate 2 "CODE" fresh); reflexivity|]. eapply rtc_l; [apply (VoucherCheck 2 "CODE" 7 fresh); [reflexivity|cbn; lia]|].
  eapply rtc_l; [apply (VoucherCheck 2 "CODE" 7 fresh); [reflexivity|cbn; lia]|]. eapply rtc_l; [apply (VoucherSpend 2 "CODE" _ [])|]. apply rtc_refl.
Qed.
Lemma voucher_uses_bounded_witness : 1 <= Z.max 0 (1 + 2 - 1).
Proof. apply (voucher_uses_bounded 2 {["CODE" := with_uses 1 fresh]} ["CODE"] "CODE" (with_uses 1 fresh) 1 1 overspent_run); vm_compute; reflexivity. Defined.
Lemma voucher_overspent_witness :
  rtc (voucher_step 3) (mkVoucherWorld {["CODE" := fresh]} ["CODE"; "CODE"; "CODE"]) (mkVoucherWorld (<["CODE" := with_uses 3 fresh]> {["CODE" := fresh]}) []).
Proof. apply (voucher_overspent 3 "CODE" fresh 1 7 {["CODE" := fresh]}); [reflexivity|reflexivity|reflexivity|intros expires [=]]. Defined.

(** Passwords kept as they are *)
Definition plain_passwords : PasswordHash := {| hash_password := fun _ password => Ok password; password_matches := String.eqb |}.
#[local] Existing Instance plain_passwords.
Lemma plain_hashed salt password hash : hash_password salt password = Ok hash -> password_matches hash password = true.
Proof. cbn. intros [= <-]. apply String.eqb_refl. Qed.
Definition asking : World := mkWorld (run_all [op_ask] empty_db) [].
Lemma asking_reachable : GuestWorkflow.reachable asking.
Proof. exists start. split; [done|]. exact (run_sequence [op_ask] empty_db []). Qed.
Definition approval := decide_tx id2 "sponsor" true "" (entropy "" 5) 2100 (WDB asking).
Definition approval_db : GuestDB := match approval with Ok (_, db) => db | Err _ => empty_db end.
Definition approval_record : Registration := match approval with Ok (NowApproved r _, _) => r | _ => RowRecord first_row end.
Definition tables : LoginDB := mkLoginDB (Ok (login_users approval_db)) (mkIdentityDB (Ok []) empty_log ∅) empty_mfa_db None empty_log (LgPolicy PortalAuth.example.start) (Ok ∅).
Lemma invited_guest_can_log_in_witness : ValidateUserDetailed "guest_0f1e2d3c" "FB9A8fDKFJTvjd" tables = Ok (true, "guest-basic", true).
Proof.
  apply (invited_guest_can_log_in plain_hashed id2 "sponsor" "" (entropy "" 5) 2100 asking approval_record "FB9A8fDKFJTvjd" approval_db tables asking_reachable);
    [vm_compute; reflexivity|reflexivity].
Defined.
End example.
