(* ===== verification/Secrets.v ===== *)
(** * Secret references ([internal/secrets/secrets.go])

    Parsing of [env:NAME] and [file:NAME] references, the checks on a secret's value, and the choice
    between a reference and inline material. The process environment and the files are parameters. *)

From S2P Require Import Prelude GoStrings Bytes.
From Stdlib Require Import Ascii.

Record Options := mkOptions {
  OptEnabled : bool; OptProviders : list string; OptFileBaseDir : string; OptMaxSecretBytes : Z; OptAllowInline : bool }.

Record Ref := mkRef { RefRaw : string; RefProvider : string; RefTarget : string }.

Inductive secret_error :=
| RefFormat
| EnvNameInvalid (name : string)
| FilePathInvalid
| ProviderUnsupported (provider : string)
| ProviderDisabled (provider : string)
| EnvNotSet (name : string)
| FileUnreadable (message : string)
| SecretNUL
| SecretEmpty
| SecretTooLong (max : Z)
| SecretNewline
| InlineNotAllowed (field : string).

Definition is_nul (c : ascii) : bool := byte_of c =? 0.
Definition contains_char (p : ascii -> bool) (s : string) : bool := negb (all_chars (fun c => negb (p c)) s).
Definition len (s : string) : Z := Z.of_nat (String.length s).

Definition name_start (c : ascii) : bool := (c =? "_")%char || in_range "A" "Z" c || in_range "a" "z" c.
Definition name_char (c : ascii) : bool := name_start c || in_range "0" "9" c.

(** The runes of a name are ASCII, so the loop over runes is one over bytes. *)
Definition validEnvName (value : string) : bool :=
  let value := TrimSpace value in
  if (value =? "")%string || (len value >? 128) then false
  else match value with EmptyString => false | String c rest => name_start c && all_chars name_char rest end.

(** [ParseRef], [Resolver.Resolve] and [ResolveConfiguredSecret]. *)
Section secrets.
Context `{Unicode}.

(** [os.LookupEnv], and what [resolveFile] reads below the base directory. *)
Context (lookup_env : string -> option string) (read_file : string -> string -> Z -> result string string).

Definition ParseRef (raw : string) : result secret_error Ref :=
  let raw := TrimSpace raw in
  let '(scheme, target, ok) := CutChar raw ":"%char in
  if negb ok || (TrimSpace scheme =? "")%string || (TrimSpace target =? "")%string then Err RefFormat
  else
    let ref := mkRef raw (lower_trim scheme) (TrimSpace target) in
    if (RefProvider ref =? "env")%string then
      if negb (validEnvName (RefTarget ref)) then Err (EnvNameInvalid (RefTarget ref)) else Ok ref
    else if (RefProvider ref =? "file")%string then
      if (len (RefTarget ref) >? 4096) || contains_char (fun c => line_end c || is_nul c) (RefTarget ref)
      then Err FilePathInvalid else Ok ref
    else Err (ProviderUnsupported (RefProvider ref)).

Definition sanitizeSecretValue (value : string) (maxBytes : Z) : result secret_error string :=
  if contains_char is_nul value then Err SecretNUL
  else
    let value := TrimRightChars line_end value in
    if len value =? 0 then Err SecretEmpty
    else if len value >? maxBytes then Err (SecretTooLong maxBytes)
    else if contains_char line_end value then Err SecretNewline
    else Ok value.

Definition providerAllowed (opts : Options) (provider : string) : bool :=
  if negb (OptEnabled opts) then false
  else existsb (fun candidate => EqualFold (TrimSpace candidate) provider) (OptProviders opts).

Definition Resolve (opts : Options) (raw : string) : result secret_error string :=
  ref ← ParseRef raw;
  if negb (providerAllowed opts (RefProvider ref)) then Err (ProviderDisabled (RefProvider ref))
  else if (RefProvider ref =? "env")%string then
    match lookup_env (RefTarget ref) with
    | Some value => if (TrimSpace value =? "")%string then Err (EnvNotSet (RefTarget ref))
                    else sanitizeSecretValue value (OptMaxSecretBytes opts)
    | None => Err (EnvNotSet (RefTarget ref))
    end
  else if (RefProvider ref =? "file")%string then
    match read_file (OptFileBaseDir opts) (RefTarget ref) (OptMaxSecretBytes opts + 1) with
    | Ok data => sanitizeSecretValue data (OptMaxSecretBytes opts)
    | Err m => Err (FileUnreadable m)
    end
  else Err (ProviderUnsupported (RefProvider ref)).

Definition ResolveConfiguredSecret (opts : Options) (field inline ref : string) : result secret_error string :=
  let inline := TrimRightChars line_end inline in
  let ref := TrimSpace ref in
  if negb (ref =? "")%string then Resolve opts ref
  else if (inline =? "")%string then Ok ""
  else if OptEnabled opts && negb (OptAllowInline opts) then Err (InlineNotAllowed field)
  else sanitizeSecretValue inline (OptMaxSecretBytes opts).

(** ** What a secret is *)

(** No NUL byte, no line ends, of one to [max] bytes. *)
Definition usable_secret (max : Z) (s : string) : Prop :=
  1 <= len s <= max /\ contains_char is_nul s = false /\ contains_char line_end s = false.

Lemma all_chars_TrimRight p cut s : all_chars p s = true -> all_chars p (TrimRightChars cut s) = true.
Proof.
  unfold TrimRightChars. rewrite all_chars_rev, <- (all_chars_rev p s). induction (String.rev s) as [|c t IH]; [done|].
  intros H'. cbn [trim_front]. destruct (cut c); [apply IH; cbn [all_chars] in H'; by apply andb_true_iff in H' as [_ ?]|].
  destruct t as [|c' [|c'' t]]; exact H'.
Qed.

Lemma sanitize_usable value maxBytes s : sanitizeSecretValue value maxBytes = Ok s -> usable_secret maxBytes s.
Proof.
  unfold sanitizeSecretValue. cbv zeta. destruct (contains_char is_nul value) eqn:En; [done|].
  destruct (len _ =? 0) eqn:E0; [done|]. destruct (len _ >? maxBytes) eqn:Em; [done|].
  destruct (contains_char line_end _) eqn:El; [done|]. intros [= <-]. bool_arith. unfold usable_secret, contains_char in *.
  assert (0 <= len (TrimRightChars line_end value)) by apply Nat2Z.is_nonneg.
  split; [lia|]. split; [|exact El]. apply negb_false_iff. apply negb_false_iff in En. by apply all_chars_TrimRight.
Qed.

(** Whatever the source of a secret, what the server gets is a usable secret (no NUL byte, no line
    end, of 1 to [max_secret_bytes] bytes); it gets the empty secret only when neither a reference nor
    inline material is configured. A configured reference is never replaced by the inline material. *)
Theorem ResolveConfiguredSecret_usable opts field inline ref s :
  ResolveConfiguredSecret opts field inline ref = Ok s ->
  usable_secret (OptMaxSecretBytes opts) s /\ (TrimSpace ref <> "" -> Resolve opts (TrimSpace ref) = Ok s)
  \/ s = "" /\ TrimSpace ref = "" /\ TrimRightChars line_end inline = "".
Proof.
  unfold ResolveConfiguredSecret. cbv zeta. destruct (TrimSpace ref =? "")%string eqn:Er; cbn [negb].
  - apply String.eqb_eq in Er. destruct (TrimRightChars line_end inline =? "")%string eqn:Ei.
    + intros [= <-]. right. by apply String.eqb_eq in Ei.
    + destruct (_ && _); [done|]. intros Hs%sanitize_usable. by left.
  - intros Hr. left. split; [|done]. unfold Resolve in Hr. apply bind_Ok in Hr as (r & _ & Hr).
    repeat (case_match; try discriminate); by eapply sanitize_usable.
Qed.
End secrets.

Definition example_options : Options := mkOptions true ["env"; "file"] "/etc/aegisnas/secrets" 16 false.

Lemma ResolveConfiguredSecret_usable_witness :
  usable_secret 16 "hunter2".
Proof.
  destruct (ResolveConfiguredSecret_usable (fun name => if (name =? "AEGIS_SECRET")%string then Some "hunter2" else None)
              (fun _ _ _ => Err "no such file") example_options "tacacs.secret" "ignored" " ENV: AEGIS_SECRET" "hunter2" eq_refl)
    as [[Hu _] | (H & _)].
  - exact Hu.
  - discriminate H.
Defined.

Example inline_refused : ResolveConfiguredSecret (fun _ => None) (fun _ _ _ => Err "") example_options "tacacs.secret" "hunter2" "" = Err (InlineNotAllowed "tacacs.secret").
Proof. reflexivity. Qed.
