(* ===== verification/TacacsPolicy.v ===== *)
(** * TACACS+ command policy ([internal/tacacs/policy.go], [internal/db/tacacs.go])

    The effective configuration and command sets, the attributes of an authorization request, and the
    decision on a command: service and client checks, the typed policy of the engine, then the command
    sets in order. What the database holds is part of the environment; decision ids, hashes and times
    of the evidence are left out of the decision record. *)

From S2P Require Import Prelude GoStrings Bytes ServiceChain PolicyTypes PolicyTyped PolicySets PolicyEngine.
From Stdlib Require Import Ascii.

Record ClientIdentity := mkClientIdentity {
  CIName : string; CIIP : string; CIVendor : string; CIModel : string; CITenant : string; CIKnown : bool; CIEnabled : bool }.

Record CommandRequest := mkCommandRequest {
  CRSessionID : Z; CRUsername : string; CRRole : string; CRTenant : string; CRClient : ClientIdentity;
  CRService : string; CRPort : string; CRRemoteAddress : string; CRCommand : string; CRArgs : list string;
  CRPrivilegeLevel : Z; CRAuthenticated : bool; CREvaluatedAt : option Z }.

Record CommandDecision := mkCommandDecision {
  CDPermit : bool; CDReason : string; CDMatchedCommandSet : string; CDCommand : string; CDResponseArgs : list string;
  CDPolicyEvaluationID : string; CDWarnings : list string }.

(** [CommandSet], and [TACACSCommandSetRecord] of the database; the content hash and the record's
    bookkeeping columns are left out. *)
Record CommandSet := mkCommandSet {
  CSName : string; CSDescription : string; CSEnabled : bool; CSDefaultAction : string; CSPermit : list string;
  CSDeny : list string; CSRoles : list string; CSPrivilegeLevels : list Z; CSVendors : list string;
  CSTenants : list string; CSSource : string }.

(** [TACACSCommandSetConfig] *)
Record TACACSCommandSetConfig := mkCommandSetConfig {
  SCName : string; SCDescription : string; SCEnabled : bool; SCDefaultAction : string; SCPermit : list string;
  SCDeny : list string; SCRoles : list string; SCPrivilegeLevels : list Z; SCVendors : list string; SCTenants : list string }.

Record TACACSClientConfig := mkClientConfig {
  CCName : string; CCAddress : string; CCSecret : string; CCSecretRef : string; CCVendor : string; CCModel : string;
  CCTenant : string; CCEnabled : bool }.

(** The configuration without the vendor profiles, which only the report reads. *)
Record TACACSConfig := mkTACACSConfig {
  TEnabled : bool; TListenAddress : string; TListenPort : Z; TMode : string; TFailClosed : bool; TSecret : string;
  TSecretRef : string; TMaxPacketBytes : Z; TMaxArgs : Z; TMaxCommandBytes : Z; TMaxConnections : Z;
  TIdleTimeoutSeconds : Z; TReadTimeoutSeconds : Z; TAuditEnabled : bool; TRetentionLimit : Z;
  TRequireKnownClient : bool; TAllowUnencrypted : bool; TAuthenticationSource : string;
  TClients : list TACACSClientConfig; TCommandSets : list TACACSCommandSetConfig }.

(** A row of the table [local_users]. *)
Record LocalUser := mkLocalUser { LUPasswordHash : string; LURole : string; LUTenant : string }.

Inductive command_set_error :=
| SetNameMissing
| DefaultActionInvalid (action : string)
| PermitRequired
| PrivilegeRange (level : Z)
| SourceInvalid (source : string).

(** The regular expression engine on texts that are not ASCII. *)
Class GlobTables := unicode_glob : string -> string -> bool.
#[export] Instance no_glob : GlobTables | 100 := fun _ _ => false.

Section policy.
Context {U : Unicode} {R : MapRange}.

Definition default_config : TACACSConfig :=
  mkTACACSConfig false "0.0.0.0" 49 "monitor" true "" "" 65535 64 512 256 300 15 true 10000 true false "local" [] [].

Definition or_positive (value fallback : Z) : Z := if value >? 0 then value else fallback.
Definition or_text (text fallback : string) : string := if negb (TrimSpace text =? "")%string then TrimSpace text else fallback.
Definition or_lower (text fallback : string) : string := if negb (TrimSpace text =? "")%string then lower_trim text else fallback.

Definition EffectiveConfig (cfg : option TACACSConfig) : TACACSConfig :=
  match cfg with
  | None => default_config
  | Some raw =>
      mkTACACSConfig (TEnabled raw) (or_text (TListenAddress raw) "0.0.0.0") (or_positive (TListenPort raw) 49)
        (or_lower (TMode raw) "monitor") (TFailClosed raw) (TrimRightChars line_end (TSecret raw))
        (TrimSpace (TSecretRef raw)) (or_positive (TMaxPacketBytes raw) 65535) (or_positive (TMaxArgs raw) 64)
        (or_positive (TMaxCommandBytes raw) 512) (or_positive (TMaxConnections raw) 256)
        (or_positive (TIdleTimeoutSeconds raw) 300) (or_positive (TReadTimeoutSeconds raw) 15) (TAuditEnabled raw)
        (or_positive (TRetentionLimit raw) 10000) (TRequireKnownClient raw) (TAllowUnencrypted raw)
        (or_lower (TAuthenticationSource raw) "local") (TClients raw) (TCommandSets raw)
  end.

(** ** Command sets *)

(** [normalizeTACACSStringList]; [seen] has the lower-cased values so far. *)
Fixpoint normalizeTACACSStringList (lower : bool) (seen : gset string) (values : list string) : list string :=
  match values with
  | [] => []
  | value :: values' =>
      let value := if lower then ToLower (TrimSpace value) else TrimSpace value in
      if (value =? "")%string then normalizeTACACSStringList lower seen values'
      else if bool_decide (ToLower value ∈ seen) then normalizeTACACSStringList lower seen values'
      else value :: normalizeTACACSStringList lower ({[ToLower value]} ∪ seen) values'
  end.

Fixpoint normalize_levels (seen : gset Z) (levels : list Z) : result command_set_error (list Z) :=
  match levels with
  | [] => Ok []
  | level :: levels' =>
      if (level <? 0) || (level >? 15) then Err (PrivilegeRange level)
      else
        rest ← normalize_levels ({[level]} ∪ seen) levels';
        Ok (if bool_decide (level ∈ seen) then rest else level :: rest)
  end.

Definition normalizeTACACSCommandSetRecord (r : CommandSet) : result command_set_error CommandSet :=
  let name := TrimSpace (CSName r) in
  if (name =? "")%string then Err SetNameMissing
  else
    let action := lower_trim (CSDefaultAction r) in
    let action := if (action =? "")%string then "deny" else action in
    if negb (action =? "permit")%string && negb (action =? "deny")%string then Err (DefaultActionInvalid action)
    else
      let permit := normalizeTACACSStringList false ∅ (CSPermit r) in
      let deny := normalizeTACACSStringList false ∅ (CSDeny r) in
      if CSEnabled r && (zlen permit + zlen deny =? 0) && (action =? "deny")%string then Err PermitRequired
      else
        levels ← normalize_levels ∅ (CSPrivilegeLevels r);
        let source := lower_trim (CSSource r) in
        let source := if (source =? "")%string then "api" else source in
        if negb (bool_decide (source ∈ ["api"; "config"; "migration"])) then Err (SourceInvalid source)
        else Ok (mkCommandSet name (TrimSpace (CSDescription r)) (CSEnabled r) action permit deny
               (normalizeTACACSStringList true ∅ (CSRoles r)) levels (normalizeTACACSStringList true ∅ (CSVendors r))
               (normalizeTACACSStringList true ∅ (CSTenants r)) source).

Definition commandSetFromConfig (raw : TACACSCommandSetConfig) : result command_set_error CommandSet :=
  normalized ← normalizeTACACSCommandSetRecord
    (mkCommandSet (SCName raw) (SCDescription raw) (SCEnabled raw) (SCDefaultAction raw) (SCPermit raw) (SCDeny raw)
       (SCRoles raw) (SCPrivilegeLevels raw) (SCVendors raw) (SCTenants raw) "config");
  Ok (mkCommandSet (CSName normalized) (CSDescription normalized) (CSEnabled normalized) (CSDefaultAction normalized)
        (CSPermit normalized) (CSDeny normalized) (CSRoles normalized) (CSPrivilegeLevels normalized)
        (CSVendors normalized) (CSTenants normalized) "config").

(** Enabled sets first, then by lower-cased name. *)
Definition set_before (x y : CommandSet) : bool :=
  if Bool.eqb (CSEnabled x) (CSEnabled y) then string_less (ToLower (CSName x)) (ToLower (CSName y)) else CSEnabled x.

Definition put_set (byName : gmap string CommandSet) (set : CommandSet) : gmap string CommandSet :=
  <[ToLower (CSName set) := set]> byName.

(** [dbSets] is what [ListTACACSCommandSets] returned. The warnings are the names that were ignored. *)
Definition EffectiveCommandSets (cfg : TACACSConfig) (dbSets : list CommandSet) : list CommandSet * Z * list string :=
  let parsed := map (fun raw => (raw, commandSetFromConfig raw)) (TCommandSets cfg) in
  let warnings := omap (fun '(raw, r) => match r with Err _ => Some (SCName raw) | Ok _ => None end) parsed in
  let configSets := omap (fun '(_, r) => match r with Ok set => Some set | Err _ => None end) parsed in
  let byName := foldl put_set (foldl put_set ∅ configSets) dbSets in
  (sort_by set_before (range_map byName).*2, zlen dbSets, warnings).

(** ** Arguments *)

(** One turn of the loop of [CommandFromArgs]: the command and its arguments so far. *)
Definition command_arg (acc : string * list string) (arg : string) : string * list string :=
  let '(key, value, ok) := CutChar arg "="%char in
  if negb ok then acc
  else
    let name := lower_trim key in
    if (name =? "cmd")%string then (TrimSpace value, acc.2)
    else if (name =? "cmd-arg")%string then
      let value := TrimSpace value in
      if negb (value =? "")%string && negb (value =? "<cr>")%string then (acc.1, acc.2 ++ [value]) else acc
    else acc.

Definition CommandFromArgs (args : list string) : string :=
  let '(cmd, cmdArgs) := foldl command_arg ("", []) args in
  Join ((if negb (cmd =? "")%string then [cmd] else []) ++ cmdArgs) " ".

Definition ServiceFromArgs (args : list string) (fallback : Z) : string :=
  match firstSome (fun arg => let '(key, value, ok) := CutChar arg "="%char in
                     if ok && EqualFold (TrimSpace key) "service" then Some (lower_trim value) else None) args with
  | Some service => service
  | None => if fallback =? 6 then "shell" else ("service-" ++ Itoa fallback)%string
  end.

Definition PrivilegeFromArgs (args : list string) (fallback : Z) : Z :=
  match firstSome (fun arg => let '(key, value, ok) := CutChar arg "="%char in
                     if negb ok || negb (EqualFold (TrimSpace key) "priv-lvl") then None
                     else match Atoi (TrimSpace value) with
                          | Some level => if (level >=? 0) && (level <=? 15) then Some level else None
                          | None => None
                          end) args with
  | Some level => level
  | None => if fallback <? 0 then 0 else if fallback >? 15 then 15 else fallback
  end.

Definition argValue (args : list string) (key : string) : string :=
  default "" (firstSome (fun arg => let '(k, value, ok) := CutChar arg "="%char in
                if ok && EqualFold (TrimSpace k) key then Some (TrimSpace value) else None) args).

(** ** Matching *)

Definition containsFold (values : list string) (target : string) : bool :=
  existsb (fun value => (lower_trim value =? lower_trim target)%string) values.

Definition containsInt (values : list Z) (target : Z) : bool := existsb (fun value => value =? target) values.

(** [^...$] with [*] for [.*] and [?] for [.] (any character but a line feed), letters of any case. *)
Fixpoint glob (pattern : string) : string -> bool :=
  match pattern with
  | EmptyString => fun text => (text =? "")%string
  | String p pattern' =>
      if (p =? "*")%char then
        fix star (text : string) : bool :=
          glob pattern' text ||
          match text with
          | EmptyString => false
          | String c text' => negb (byte_of c =? 10) && star text'
          end
      else if (p =? "?")%char then
        fun text => match text with EmptyString => false | String c text' => negb (byte_of c =? 10) && glob pattern' text' end
      else
        fun text => match text with
                    | EmptyString => false
                    | String c text' => (lower_char p =? lower_char c)%char && glob pattern' text'
                    end
  end.

Section globs.
Context {G : GlobTables}.

Definition commandGlobMatch (pattern command : string) : bool :=
  let pattern := TrimSpace pattern in
  let command := TrimSpace command in
  if (pattern =? "")%string || (command =? "")%string then false
  else if is_ascii pattern && is_ascii command then glob pattern command
  else unicode_glob pattern command.

Definition patternMatchesAny (command : string) (patterns : list string) : bool :=
  existsb (fun pattern => commandGlobMatch pattern command) patterns.

Definition commandSetApplies (set : CommandSet) (req : CommandRequest) : bool :=
  if negb (CSEnabled set) then false
  else if (zlen (CSRoles set) >? 0) && negb (containsFold (CSRoles set) (CRRole req)) then false
  else if (zlen (CSPrivilegeLevels set) >? 0) && negb (containsInt (CSPrivilegeLevels set) (CRPrivilegeLevel req)) then false
  else if (zlen (CSVendors set) >? 0) && negb (containsFold (CSVendors set) (CIVendor (CRClient req))) then false
  else if (zlen (CSTenants set) >? 0) && negb (containsFold (CSTenants set) (CRTenant req))
          && negb (containsFold (CSTenants set) (CITenant (CRClient req))) then false
  else true.

Definition authorizationResponseArgs (req : CommandRequest) : list string :=
  let service := TrimSpace (CRService req) in
  let service := if (service =? "")%string then "shell" else service in
  [("service=" ++ service)%string; ("priv-lvl=" ++ Itoa (CRPrivilegeLevel req))%string]
  ++ (if negb (CRRole req =? "")%string then [("role=" ++ CRRole req)%string] else []).

Definition normalizeCommandRequest (req : CommandRequest) : CommandRequest :=
  let client := CRClient req in
  let command := if (CRCommand req =? "")%string then CommandFromArgs (CRArgs req) else CRCommand req in
  let level := CRPrivilegeLevel req in
  mkCommandRequest (CRSessionID req) (TrimSpace (CRUsername req)) (TrimSpace (CRRole req)) (TrimSpace (CRTenant req))
    (mkClientIdentity (TrimSpace (CIName client)) (TrimSpace (CIIP client)) (lower_trim (CIVendor client))
       (TrimSpace (CIModel client)) (TrimSpace (CITenant client)) (CIKnown client) (CIEnabled client))
    (lower_trim (CRService req)) (TrimSpace (CRPort req)) (TrimSpace (CRRemoteAddress req)) (Join (Fields command) " ")
    (CRArgs req) (if level <? 0 then 0 else if level >? 15 then 15 else level) (CRAuthenticated req) (CREvaluatedAt req).

(** The loop over the command sets. *)
Fixpoint decide_sets (req : CommandRequest) (sets : list CommandSet) (d : CommandDecision) : CommandDecision :=
  match sets with
  | [] => d
  | set :: sets' =>
      let permitted reason := mkCommandDecision true reason (CSName set) (CDCommand d) (authorizationResponseArgs req)
                                (CDPolicyEvaluationID d) (CDWarnings d) in
      if negb (commandSetApplies set req) then decide_sets req sets' d
      else if patternMatchesAny (CRCommand req) (CSDeny set) then
        mkCommandDecision (CDPermit d) "command matched deny pattern" (CSName set) (CDCommand d) (CDResponseArgs d)
          (CDPolicyEvaluationID d) (CDWarnings d)
      else if patternMatchesAny (CRCommand req) (CSPermit set) then permitted "command matched permit pattern"
      else if (CSDefaultAction set =? "permit")%string then permitted "command set default action permits command"
      else decide_sets req sets'
             (if (CDMatchedCommandSet d =? "")%string
              then mkCommandDecision (CDPermit d) "command set default action denies command" (CSName set) (CDCommand d)
                     (CDResponseArgs d) (CDPolicyEvaluationID d) (CDWarnings d)
              else d)
  end.
End globs.
End policy.

(** ** Decisions *)

Section decisions.
Context {N : Numbers} {U : Unicode} {R : MapRange} {J : Json} {RE : Regexp} {IA : IPAddr}.
Context {CD : ChainDigest} {D : PolicyDigest} {G : GlobTables}.

(** [EnvUsers] is the table [local_users], or the error of the query; [EnvTypedEngine] is
    [Policy.TypedEngineEnabled]. *)
Record TacacsEnvironment := mkTacacsEnvironment {
  EnvConfig : option TACACSConfig; EnvTypedEngine : bool; EnvPolicy : Environment;
  EnvCommandSets : list CommandSet; EnvUsers : result string (gmap string LocalUser) }.

Inductive command_error := UserLookupFailed (message : string) | PolicyFailed (e : engine_error).

Definition LocalUserRole (users : result string (gmap string LocalUser)) (username : string)
    : result string (option (string * string)) :=
  match users with
  | Err e => Err e
  | Ok rows => Ok (match rows !! TrimSpace username with Some u => Some (LURole u, LUTenant u) | None => None end)
  end.

Definition nul : string := String "000"%char "".
Definition HashCommand (command : string) : string :=
  let command := TrimSpace command in
  if (command =? "")%string then "" else ("sha256:" ++ text_digest ("command" ++ nul ++ command))%string.

Definition bool_text (b : bool) : string := if b then "true" else "false".

Definition firstNonEmpty (values : list string) : string :=
  default "" (firstSome (fun value => if negb (TrimSpace value =? "")%string then Some (TrimSpace value) else None) values).

Definition commandPolicyRequest (req : CommandRequest) (now : Z) : Request :=
  mkRequest (CRUsername req) (CRRole req) [] "" (firstNonEmpty [CRTenant req; CITenant (CRClient req)]) "" "tacacs" "local"
    "" (CIName (CRClient req)) (CIIP (CRClient req)) (CRPort req) "" "" "" "" (CIIP (CRClient req)) (CIVendor (CRClient req))
    0 (CRAuthenticated req) "" "" 0
    (list_to_map [("protocol", "tacacs"); ("tacacs.command", CRCommand req); ("tacacs.command_hash", HashCommand (CRCommand req));
       ("tacacs.privilege_level", Itoa (CRPrivilegeLevel req)); ("tacacs.service", CRService req); ("tacacs.port", CRPort req);
       ("tacacs.remote_address", CRRemoteAddress req); ("tacacs.client_known", bool_text (CIKnown (CRClient req)));
       ("tacacs.client_enabled", bool_text (CIEnabled (CRClient req)))]) (Some now).

Definition with_identity (req : CommandRequest) (role tenant : string) : CommandRequest :=
  mkCommandRequest (CRSessionID req) (CRUsername req) role tenant (CRClient req) (CRService req) (CRPort req)
    (CRRemoteAddress req) (CRCommand req) (CRArgs req) (CRPrivilegeLevel req) (CRAuthenticated req) (CREvaluatedAt req).

(** The look-up that fills in a missing role or tenant. *)
Definition complete_identity (env : TacacsEnvironment) (req : CommandRequest) : result command_error CommandRequest :=
  if (CRRole req =? "")%string || (CRTenant req =? "")%string then
    match LocalUserRole (EnvUsers env) (CRUsername req) with
    | Err m => Err (UserLookupFailed m)
    | Ok None => Ok req
    | Ok (Some (role, tenant)) =>
        Ok (with_identity req (if (CRRole req =? "")%string then role else CRRole req)
              (if (CRTenant req =? "")%string then tenant else CRTenant req))
    end
  else Ok req.

Definition refused (req : CommandRequest) (reason evaluation : string) (warnings : list string) : CommandDecision :=
  mkCommandDecision false reason "" (CRCommand req) [] evaluation warnings.

(** [EvaluateCommand] from the typed engine on; [wall] is the wall clock. *)
Definition evaluate_request (env : TacacsEnvironment) (request : CommandRequest) (now wall : Z) : result command_error CommandDecision :=
  let effective := EffectiveConfig (EnvConfig env) in
  verdict ← (if match EnvConfig env with Some _ => EnvTypedEngine env | None => false end then
               match EvaluateDetailed (EnvPolicy env) (commandPolicyRequest request now) wall with
               | Err e => Err (PolicyFailed e)
               | Ok result => Ok (Some result)
               end
             else Ok None);
  let evaluation := match verdict with Some r => EEvaluationID r | None => "" end in
  let warnings := match verdict with Some r => EConflicts r | None => [] end in
  if match verdict with Some r => negb (DAllow (EDecision r)) && TFailClosed effective | None => false end
  then Ok (refused request "typed policy denied TACACS+ command request" evaluation [])
  else
    let '(sets, _, ignored) := EffectiveCommandSets effective (EnvCommandSets env) in
    let warnings := warnings ++ ignored in
    if zlen sets =? 0 then Ok (refused request "no TACACS+ command sets configured" evaluation warnings)
    else Ok (decide_sets request sets (refused request "default deny" evaluation warnings)).

Definition EvaluateCommand (env : TacacsEnvironment) (request : CommandRequest) (wall : Z) : result command_error CommandDecision :=
  let effective := EffectiveConfig (EnvConfig env) in
  let now := default wall (CREvaluatedAt request) in
  let request := normalizeCommandRequest request in
  if negb (TEnabled effective) then Ok (refused request "TACACS+ is disabled" "" [])
  else if negb (CIKnown (CRClient request)) && TRequireKnownClient effective then Ok (refused request "unknown TACACS+ client" "" [])
  else if negb (CIEnabled (CRClient request)) then Ok (refused request "TACACS+ client is disabled" "" [])
  else
    request ← complete_identity env request;
    evaluate_request env request now wall.
End decisions.

(** ** Patterns *)

Fixpoint no_line_feed (s : string) : bool :=
  match s with EmptyString => true | String c s' => negb (byte_of c =? 10) && no_line_feed s' end.

(** The texts a pattern stands for. *)
Inductive glob_match : string -> string -> Prop :=
| glob_match_end : glob_match "" ""
| glob_match_star pattern run text : no_line_feed run = true -> glob_match pattern text -> glob_match (String "*" pattern) (run +:+ text)
| glob_match_any pattern c text : byte_of c <> 10 -> glob_match pattern text -> glob_match (String "?" pattern) (String c text)
| glob_match_char pattern p c text :
    p <> "*"%char -> p <> "?"%char -> lower_char p = lower_char c -> glob_match pattern text ->
    glob_match (String p pattern) (String c text).

(** The matcher of command patterns recognises exactly the texts the pattern stands for: [*] any
    run, [?] any one character, other characters themselves in either case, up to the end. *)
Theorem glob_spec (pattern text : string) : glob pattern text = true <-> glob_match pattern text.
Proof.
  revert text. induction pattern as [|p pattern IH]; intros text.
  - cbn. rewrite String.eqb_eq. split; [intros ->; constructor | by inversion 1].
  - cbn [glob]. destruct (p =? "*")%char eqn:Es.
    + apply Ascii.eqb_eq in Es as ->. split.
      * induction text as [|c text IHt]; intros [H|H]%orb_true_iff.
        -- apply (glob_match_star _ ""); [done|by apply IH].
        -- discriminate.
        -- apply (glob_match_star _ ""); [done|by apply IH].
        -- apply andb_true_iff in H as [Hc H]. apply IHt in H.
           inversion H as [|? run t Hr Hm He1 He2| |? ? ? ? Hp]; subst; [|done].
           apply (glob_match_star _ (String c run)); [by cbn; rewrite Hc, Hr | done].
      * inversion 1 as [|? run t Hr Hm He1 He2| |? ? ? ? Hp]; subst; [|done]. clear H. apply IH in Hm.
        induction run as [|c run IHr].
        -- change ("" +:+ t) with t. destruct t; rewrite Hm; done.
        -- change (String c run +:+ t) with (String c (run +:+ t)). cbn [no_line_feed] in Hr.
           apply andb_true_iff in Hr as [Hc Hr]. rewrite Hc. apply orb_true_iff. right. by apply IHr.
    + apply Ascii.eqb_neq in Es. destruct (p =? "?")%char eqn:Eq.
      * apply Ascii.eqb_eq in Eq as ->. split.
        -- destruct text as [|c text]; [discriminate|]. intros [Hc Hm]%andb_true_iff. bool_arith.
           constructor; [done|by apply IH].
        -- inversion 1 as [| |? c t Hc Hm|? ? ? ? ? Hp]; subst; [|done]. rewrite (proj2 (Z.eqb_neq _ _)) by done. by apply IH.
      * apply Ascii.eqb_neq in Eq. split.
        -- destruct text as [|c text]; [discriminate|]. intros [Hc%Ascii.eqb_eq Hm]%andb_true_iff.
           by apply glob_match_char; [..|apply IH].
        -- inversion 1 as [| | |? ? c t H1 H2 Hl Hm]; subst; try done. apply andb_true_iff. split; [by apply Ascii.eqb_eq|by apply IH].
Qed.

(** ** Command sets *)

Section set_lemmas.
Context {U : Unicode}.

Lemma put_sets_keys (m : gmap string CommandSet) l :
  (forall k s, m !! k = Some s -> ToLower (CSName s) = k) ->
  forall k s, foldl put_set m l !! k = Some s -> ToLower (CSName s) = k.
Proof.
  revert m. induction l as [|x l IH]; intros m Hm; [done|]. cbn [foldl]. apply IH. intros k s Hk.
  unfold put_set in Hk. apply lookup_insert_Some in Hk as [[<- <-]|[_ Hk]]; auto.
Qed.

#[export] Instance set_before_order : WeakOrder set_before.
Proof.
  pose proof (string_less_key (fun s => ToLower (CSName s))) as [asym trans]. unfold in_order in *.
  split; unfold in_order, set_before; intros *.
  - destruct (CSEnabled x), (CSEnabled y); try done; apply asym.
  - destruct (CSEnabled x), (CSEnabled y), (CSEnabled z); try done; apply trans.
Qed.

(** The last set of a list with a given lower-cased name: the one that counts. *)
Definition last_named (key : string) (l : list CommandSet) : option CommandSet :=
  last (filter (fun set => ToLower (CSName set) = key) l).

Lemma last_named_snoc key l x :
  last_named key (l ++ [x]) = if decide (ToLower (CSName x) = key) then Some x else last_named key l.
Proof.
  unfold last_named. rewrite filter_app, filter_cons, filter_nil. destruct (decide _); [by rewrite last_snoc|].
  by rewrite app_nil_r.
Qed.

Lemma lookup_put_sets l key : foldl put_set ∅ l !! key = last_named key l.
Proof.
  induction l as [|x l IH] using rev_ind; [apply lookup_empty|].
  rewrite foldl_snoc, last_named_snoc. unfold put_set at 1. destruct (decide _) as [<-|Hne].
  - apply lookup_insert_eq.
  - by rewrite lookup_insert_ne, IH.
Qed.

Lemma set_before_tie x y : in_order set_before x y -> in_order set_before y x -> ToLower (CSName x) = ToLower (CSName y).
Proof.
  unfold in_order, set_before. destruct (CSEnabled x), (CSEnabled y); try done; intros; by apply string_less_total.
Qed.

(** The sets of the configuration that parse. *)
Definition config_sets (cfg : TACACSConfig) : list CommandSet :=
  omap (fun raw => match commandSetFromConfig raw with Ok set => Some set | Err _ => None end) (TCommandSets cfg).

Lemma EffectiveCommandSets_unfold {R : MapRange} cfg dbSets :
  (EffectiveCommandSets cfg dbSets).1.1 = sort_by set_before (range_map (foldl put_set ∅ (config_sets cfg ++ dbSets))).*2.
Proof.
  unfold EffectiveCommandSets. cbn [fst snd]. rewrite foldl_app. do 5 f_equal. unfold config_sets.
  induction (TCommandSets cfg) as [|raw l IH]; [done|]. cbn [map omap list_omap]. rewrite IH. by destruct (commandSetFromConfig raw).
Qed.

Section merged.
Context {R : MapRange} (l : list CommandSet).
Let entries := range_map (foldl put_set ∅ l).

Lemma merged_keys : (fun set => ToLower (CSName set)) <$> entries.*2 = entries.*1.
Proof.
  rewrite <- list_fmap_compose. apply list_fmap_ext. intros i [k set] Hi. cbn.
  apply list_elem_of_lookup_2, elem_of_range_map in Hi.
  by apply (put_sets_keys ∅ l); [intros ? ? E; rewrite lookup_empty in E|].
Qed.

Lemma merged_elem set : set ∈ entries.*2 <-> last_named (ToLower (CSName set)) l = Some set.
Proof.
  rewrite list_elem_of_fmap, <- lookup_put_sets. split.
  - intros ([k set'] & -> & Hin). cbn. unfold entries in Hin. rewrite elem_of_range_map in Hin.
    rewrite (put_sets_keys ∅ l) with (k := k); [done| |done]. intros ? ? E. by rewrite lookup_empty in E.
  - intros Hl. exists (ToLower (CSName set), set). split; [done|]. by apply elem_of_range_map.
Qed.

Lemma merged_no_ties x y : x ∈ entries.*2 -> y ∈ entries.*2 -> in_order set_before x y -> in_order set_before y x -> x = y.
Proof.
  rewrite !merged_elem. intros Hx Hy H1 H2. rewrite (set_before_tie _ _ H1 H2) in Hx. congruence.
Qed.
End merged.
End set_lemmas.

(** The effective command sets are, enabled ones first and each group by name, for every name in
    either list exactly one set: the last one of the configuration sets that parse followed by the
    database's, so that a database set replaces a configured one of the same name in any case. The
    result does not depend on the order in which Go's maps are ranged over. *)
Theorem EffectiveCommandSets_spec {U : Unicode} (R R' : MapRange) (cfg : TACACSConfig) (dbSets : list CommandSet) :
  let sets := (@EffectiveCommandSets U R cfg dbSets).1.1 in
  StronglySorted (in_order set_before) sets
  /\ NoDup (map (fun set => ToLower (CSName set)) sets)
  /\ (forall set, set ∈ sets <-> last_named (ToLower (CSName set)) (config_sets cfg ++ dbSets) = Some set)
  /\ @EffectiveCommandSets U R' cfg dbSets = @EffectiveCommandSets U R cfg dbSets.
Proof.
  cbv zeta. repeat apply conj.
  - rewrite EffectiveCommandSets_unfold. apply sort_by_sorted, _.
  - rewrite EffectiveCommandSets_unfold, sort_by_perm. rewrite (merged_keys (config_sets cfg ++ dbSets)). apply NoDup_range_map.
  - intros set. by rewrite EffectiveCommandSets_unfold, sort_by_perm, merged_elem.
  - enough ((@EffectiveCommandSets U R' cfg dbSets).1.1 = (@EffectiveCommandSets U R cfg dbSets).1.1) as E.
    { unfold EffectiveCommandSets in *. cbn [fst snd] in E. by rewrite E. }
    rewrite !EffectiveCommandSets_unfold. apply sort_by_perm_eq; [apply _|apply merged_no_ties|].
    apply fmap_Permutation. by rewrite !range_map_perm.
Qed.

(** ** The decision *)

Section decision_lemmas.
Context {U : Unicode} {G : GlobTables}.

(** What one set says about a command, [None] when it leaves it to the sets after it. *)
Definition set_verdict (req : CommandRequest) (set : CommandSet) : option bool :=
  if negb (commandSetApplies set req) then None
  else if patternMatchesAny (CRCommand req) (CSDeny set) then Some false
  else if patternMatchesAny (CRCommand req) (CSPermit set) || (CSDefaultAction set =? "permit")%string then Some true
  else None.

Lemma decide_sets_undecided req set sets d :
  set_verdict req set = None -> exists d', decide_sets req (set :: sets) d = decide_sets req sets d' /\ CDPermit d' = CDPermit d.
Proof.
  unfold set_verdict. cbn [decide_sets]. destruct (commandSetApplies set req); cbn [negb]; [|by exists d].
  destruct (patternMatchesAny (CRCommand req) (CSDeny set)), (patternMatchesAny (CRCommand req) (CSPermit set)), (CSDefaultAction set =? "permit")%string; try done.
  intros _. eexists. split; [reflexivity|]. by case_match.
Qed.

Lemma decide_sets_decided req set sets d verdict :
  set_verdict req set = Some verdict ->
  let d' := decide_sets req (set :: sets) d in
  CDMatchedCommandSet d' = CSName set /\
  if verdict then CDPermit d' = true /\ CDResponseArgs d' = authorizationResponseArgs req
  else CDPermit d' = CDPermit d /\ CDReason d' = "command matched deny pattern".
Proof.
  unfold set_verdict. cbn [decide_sets]. destruct (commandSetApplies set req); cbn [negb]; [|done].
  destruct (patternMatchesAny (CRCommand req) (CSDeny set)); [by intros [= <-]|].
  destruct (patternMatchesAny (CRCommand req) (CSPermit set)), (CSDefaultAction set =? "permit")%string; try done; by intros [= <-].
Qed.

(** The decision is that of the first set with a verdict. *)
Lemma decide_sets_first req l1 set l2 d verdict :
  Forall (fun set => set_verdict req set = None) l1 -> set_verdict req set = Some verdict ->
  exists d', CDPermit d' = CDPermit d /\ decide_sets req (l1 ++ set :: l2) d = decide_sets req (set :: l2) d'.
Proof.
  intros Hl Hv. revert d. induction Hl as [|x l1 Hx Hl IH]; intros d; [by exists d|].
  destruct (decide_sets_undecided req x (l1 ++ set :: l2) d Hx) as (d1 & E & Hp).
  destruct (IH d1) as (d' & Hp' & E'). exists d'. split; [congruence|]. change ((x :: l1) ++ set :: l2) with (x :: (l1 ++ set :: l2)).
  by rewrite E.
Qed.

Lemma decide_sets_none req sets d :
  Forall (fun set => set_verdict req set = None) sets -> CDPermit (decide_sets req sets d) = CDPermit d.
Proof.
  intros Hl. revert d. induction Hl as [|x l Hx Hl IH]; intros d; [done|].
  destruct (decide_sets_undecided req x l d Hx) as (d' & -> & Hp). by rewrite IH.
Qed.

(** [set] is the first of [sets] with a verdict, and permits the command. *)
Definition permitted_by (req : CommandRequest) (sets : list CommandSet) (set : CommandSet) : Prop :=
  exists l1 l2, sets = l1 ++ set :: l2 /\ Forall (fun set => set_verdict req set = None) l1 /\ set_verdict req set = Some true.

Lemma decide_sets_permit req sets d :
  CDPermit d = false ->
  let d' := decide_sets req sets d in
  CDPermit d' = true <->
  exists set, permitted_by req sets set /\ CDMatchedCommandSet d' = CSName set /\ CDResponseArgs d' = authorizationResponseArgs req.
Proof.
  intros Hd. cbv zeta. split.
  - intros Hp. destruct (firstSome (set_verdict req) sets) as [verdict|] eqn:E.
    + apply firstSome_Some in E as (l1 & set & l2 & -> & Hv & Hl).
      destruct (decide_sets_first req l1 set l2 d verdict Hl Hv) as (d' & Hd' & E). rewrite E in Hp |- *.
      destruct (decide_sets_decided req set l2 d' verdict Hv) as (Hm & Hr). destruct verdict; [|destruct Hr; congruence].
      destruct Hr as [_ Hr]. exists set. repeat split; try done. by exists l1, l2.
    + apply firstSome_None in E. rewrite decide_sets_none in Hp by done. congruence.
  - intros (set & (l1 & l2 & -> & Hl & Hv) & _). destruct (decide_sets_first req l1 set l2 d true Hl Hv) as (d' & _ & ->).
    by apply (decide_sets_decided req set l2 d' true).
Qed.
End decision_lemmas.

Section commands.
Context {N : Numbers} {U : Unicode} {R : MapRange} {J : Json} {RE : Regexp} {IA : IPAddr}.
Context {CD : ChainDigest} {D : PolicyDigest} {G : GlobTables}.

(** The typed engine, where it is switched on, allows the request or its refusal does not count. *)
Definition engine_agrees (env : TacacsEnvironment) (req : CommandRequest) (now wall : Z) : Prop :=
  EnvTypedEngine env = true -> EnvConfig env <> None ->
  exists res, EvaluateDetailed (EnvPolicy env) (commandPolicyRequest req now) wall = Ok res /\
              (DAllow (EDecision res) = true \/ TFailClosed (EffectiveConfig (EnvConfig env)) = false).

Lemma evaluate_request_permit env req now wall d :
  evaluate_request env req now wall = Ok d ->
  CDPermit d = true <->
  engine_agrees env req now wall
  /\ exists set, permitted_by req (EffectiveCommandSets (EffectiveConfig (EnvConfig env)) (EnvCommandSets env)).1.1 set
       /\ CDMatchedCommandSet d = CSName set /\ CDResponseArgs d = authorizationResponseArgs req.
Proof.
  unfold evaluate_request. cbv zeta. intros (verdict & Hv & H)%bind_Ok.
  set (blocked := match verdict with Some r => negb (DAllow (EDecision r)) && _ | None => false end) in H.
  assert (engine_agrees env req now wall <-> blocked = false) as Hgate.
  { unfold engine_agrees, blocked. destruct (EnvConfig env), (EnvTypedEngine env);
      try (injection Hv as <-; split; [done | intros _ ? ?; congruence]).
    destruct (EvaluateDetailed _ _ _) as [res|]; [|done]. injection Hv as <-.
    rewrite andb_false_iff, negb_false_iff. split; [intros He; destruct He as (r & [= <-] & Hr); [done..|exact Hr]|].
    intros Hr _ _. by exists res. }
  rewrite Hgate. destruct blocked; [injection H as <-; cbn; naive_solver|].
  destruct (EffectiveCommandSets _ _) as [[sets count] ignored]. cbn [fst]. destruct sets as [|x sets].
  - injection H as <-. cbn. split; [done|]. intros (_ & set & (l1 & l2 & E & _) & _). by destruct l1.
  - assert ((zlen (x :: sets) =? 0) = false) as Hz by (apply Z.eqb_neq; unfold zlen; cbn [length]; lia).
    rewrite Hz in H. match type of H with Ok ?e = _ => assert (e = d) as <- by congruence end.
    rewrite (decide_sets_permit req (x :: sets) (refused req _ _ _) eq_refl). naive_solver.
Qed.

End commands.

(** ** Normalised records *)

(** No blank entries, no entry twice in any case, nothing left to trim. *)
Definition clean_list `{Unicode} (l : list string) : Prop :=
  Forall (fun v => v <> "" /\ TrimSpace v = v) l /\ NoDup (map ToLower l).
Definition clean_levels (l : list Z) : Prop := Forall (fun level => 0 <= level <= 15) l /\ NoDup l.

Section normal_lemmas.
Context `{UnicodeLaws}.

Lemma normalize_list_clean lower seen values :
  let l := normalizeTACACSStringList lower seen values in
  clean_list l /\ Forall (fun v => (ToLower v ∉ seen) /\ (lower = true -> ToLower v = v)) l.
Proof.
  revert seen. induction values as [|v values IH]; intros seen; cbn [normalizeTACACSStringList]; [repeat constructor|].
  set (v' := (if lower then _ else _)). destruct (v' =? "")%string eqn:Ev; [apply IH|].
  destruct (bool_decide_reflect (ToLower v' ∈ seen)) as [|Hs]; [apply IH|].
  destruct (IH ({[ToLower v']} ∪ seen)) as ((Hc & Hd) & Hn). apply String.eqb_neq in Ev.
  assert (TrimSpace v' = v') as Ht.
  { unfold v'. destruct lower; [apply TrimSpace_lower_trim|apply TrimSpace_idem]. }
  assert (lower = true -> ToLower v' = v') as Hl by (intros ->; apply ToLower_idem).
  cbv zeta. split; [split|]; cbn [map]; constructor; try done.
  - rewrite list_elem_of_In, in_map_iff. intros (w & Hw & Hin%list_elem_of_In). rewrite Forall_forall in Hn.
    destruct (Hn w Hin) as [Hni _]. set_solver.
  - eapply Forall_impl; [exact Hn|]. cbn. intros w [Hni Hw]. split; [set_solver|exact Hw].
Qed.

Lemma normalize_list_id lower seen l :
  clean_list l -> Forall (fun v => (ToLower v ∉ seen) /\ (lower = true -> ToLower v = v)) l ->
  normalizeTACACSStringList lower seen l = l.
Proof.
  intros [Hc Hd]. revert seen. induction l as [|v l IH]; intros seen Hn; [done|].
  inversion Hc as [|? ? [Hv Ht] Hc']; inversion Hn as [|? ? [Hs Hl] Hn']; subst. cbn [map] in Hd. apply NoDup_cons in Hd as [Hx Hd].
  cbn [normalizeTACACSStringList]. rewrite Ht. assert ((if lower then ToLower v else v) = v) as -> by (destruct lower; auto).
  apply String.eqb_neq in Hv. rewrite Hv, bool_decide_false by done. f_equal. apply IH; [done..|].
  rewrite Forall_forall in Hn' |- *. intros w Hw. destruct (Hn' w Hw) as [Hni Hwl]. split; [|exact Hwl].
  intros [E%elem_of_singleton|]%elem_of_union; [|done]. apply Hx. rewrite list_elem_of_In, <- E. apply in_map. by apply list_elem_of_In.
Qed.

Lemma normalize_list_idem lower values :
  normalizeTACACSStringList lower ∅ (normalizeTACACSStringList lower ∅ values) = normalizeTACACSStringList lower ∅ values.
Proof. destruct (normalize_list_clean lower ∅ values). by apply normalize_list_id. Qed.
End normal_lemmas.

Lemma normalize_levels_clean seen levels l :
  normalize_levels seen levels = Ok l -> clean_levels l /\ Forall (fun level => level ∉ seen) l.
Proof.
  revert seen l. induction levels as [|x levels IH]; intros seen l; cbn [normalize_levels]; [intros [= <-]; repeat constructor|].
  destruct (_ || _) eqn:Ex; [done|]. bool_arith. intros (rest & Hr & Hl)%bind_Ok. injection Hl as <-.
  destruct (IH _ _ Hr) as ((Hb & Hd) & Hn). rewrite Forall_forall in Hn.
  assert (Forall (fun level => level ∉ seen) rest) by (apply Forall_forall; intros y Hy; set_solver).
  destruct (bool_decide_reflect (x ∈ seen)); [done|]. split; [split|]; constructor; try done. set_solver.
Qed.

Lemma normalize_levels_id seen l :
  clean_levels l -> Forall (fun level => level ∉ seen) l -> normalize_levels seen l = Ok l.
Proof.
  intros [Hb Hd]. revert seen. induction l as [|x l IH]; intros seen Hn; [done|].
  inversion Hb; inversion Hn; subst. apply NoDup_cons in Hd as [Hx Hd]. cbn [normalize_levels].
  destruct (_ || _) eqn:Ex; [apply orb_true_iff in Ex as [?%Z.ltb_lt|E]; [lia|]; rewrite Z.gtb_ltb in E; apply Z.ltb_lt in E; lia|].
  rewrite IH; [cbn; by rewrite bool_decide_false|done..|]. rewrite Forall_forall in *. intros y Hy. set_solver.
Qed.

(** A command set record the database accepts comes out in normal form: named, trimmed, its
    default action permit or deny, a set that can only deny refused when enabled, lists without blanks
    or duplicates, privilege levels from 0 to 15; and normalising it again changes nothing. *)
Theorem normalizeTACACSCommandSetRecord_spec `{UnicodeLaws} (r set : CommandSet) :
  normalizeTACACSCommandSetRecord r = Ok set ->
  CSName set <> "" /\ CSDefaultAction set ∈ ["permit"; "deny"] /\ CSSource set ∈ ["api"; "config"; "migration"]
  /\ (CSEnabled set = true -> CSPermit set = [] -> CSDeny set = [] -> CSDefaultAction set = "permit")
  /\ clean_list (CSPermit set) /\ clean_list (CSDeny set) /\ clean_list (CSRoles set)
  /\ clean_list (CSVendors set) /\ clean_list (CSTenants set) /\ clean_levels (CSPrivilegeLevels set)
  /\ normalizeTACACSCommandSetRecord set = Ok set.
Proof.
  unfold normalizeTACACSCommandSetRecord at 1. cbv zeta.
  destruct (TrimSpace (CSName r) =? "")%string eqn:En; [done|].
  set (action := if (lower_trim (CSDefaultAction r) =? "")%string then _ else _).
  destruct (negb (action =? "permit")%string && negb (action =? "deny")%string) eqn:Ea; [done|].
  destruct (CSEnabled r && _ && _) eqn:Ep; [done|]. intros (levels & Hl & Hs)%bind_Ok.
  set (source := if (lower_trim (CSSource r) =? "")%string then _ else _) in Hs.
  destruct (bool_decide_reflect (source ∈ ["api"; "config"; "migration"])) as [Hsrc|]; [|done]. cbn [negb] in Hs. injection Hs as <-.
  assert (action ∈ ["permit"; "deny"]) as Hact.
  { apply andb_false_iff in Ea as [Ea|Ea]; apply negb_false_iff, String.eqb_eq in Ea; rewrite Ea; set_solver. }
  apply normalize_levels_clean in Hl as [Hlv _].
  cbn [CSName CSDefaultAction CSSource CSEnabled CSPermit CSDeny CSRoles CSVendors CSTenants CSPrivilegeLevels].
  split_and!; try (by apply normalize_list_clean); [by apply String.eqb_neq|done|done| |done|].
  - intros He Hp Hd. rewrite He, Hp, Hd in Ep. cbn in Ep. apply String.eqb_neq in Ep. set_solver.
  - unfold normalizeTACACSCommandSetRecord.
    cbn [CSName CSDescription CSDefaultAction CSSource CSEnabled CSPermit CSDeny CSRoles CSVendors CSTenants CSPrivilegeLevels].
    rewrite !TrimSpace_idem, En, !normalize_list_idem.
    assert (lower_trim action = action /\ (action =? "")%string = false) as [-> ->] by (clear -Hact; set_unfold; destruct Hact as [->|[->|[]]]; done).
    cbv zeta. rewrite Ea, Ep, normalize_levels_id by (try done; apply Forall_forall; set_solver). cbn [mbind result_bind].
    assert (lower_trim source = source /\ (source =? "")%string = false) as [-> ->] by (clear -Hsrc; set_unfold; destruct Hsrc as [->|[->|[->|[]]]]; done).
    by rewrite bool_decide_true by done.
Qed.

(** ** Witnesses *)

#[local] Instance no_digest : PolicyDigest :=
  {| rules_digest := fun _ => ""; request_digest := fun _ => ""; set_digest := fun _ => ""; rule_digest := fun _ => ""; text_digest := fun s => s |}.
#[local] Instance no_chain_digest : ChainDigest := fun _ => "".

Definition operators : CommandSet :=
  mkCommandSet " Operators" "" true "" ["show *"; " "; "SHOW *"] ["show tech*"] ["NOC"] [15; 15] [] [] "API ".
Definition example_tacacs (typed : bool) : TacacsEnvironment :=
  mkTacacsEnvironment
    (Some (mkTACACSConfig true "" 0 "" true "" "" 0 0 0 0 0 0 true 0 true false "" [] [])) typed
    (mkEnvironment None false 0 (Ok None) (fun _ => Ok None)
       (Ok [example_rule "staff" 1 "allow"]) (fun _ => None) (fun _ _ _ => ""))
    [mkCommandSet "operators" "" true "deny" ["show *"] ["show tech*"] ["noc"] [15] [] [] "api"]
    (Ok {["alice" := mkLocalUser "hash" "noc" "core"]}).
Definition example_command (command : string) : CommandRequest :=
  mkCommandRequest 7 " alice" "" "" (mkClientIdentity "sw1" "192.0.2.1" "cisco" "" "" true true) "shell" "tty1" "" "" 
    ["service=shell"; "cmd=show"; ("cmd-arg=" ++ command)%string; "cmd-arg=<cr>"] 15 true None.

Definition shown_version : CommandDecision :=
  mkCommandDecision true "command matched permit pattern" "operators" "show version" ["service=shell"; "priv-lvl=15"; "role=noc"] "" [].


Example denied_tech : match EvaluateCommand (example_tacacs false) (example_command "tech-support") 0 with
                      | Ok d => CDPermit d = false /\ CDReason d = "command matched deny pattern" | Err _ => False end.
Proof. by vm_compute. Qed.

Lemma normalizeTACACSCommandSetRecord_spec_witness :
  exists set, normalizeTACACSCommandSetRecord operators = Ok set /\ CSPermit set = ["show *"]
    /\ normalizeTACACSCommandSetRecord set = Ok set.
Proof.
  eexists. split; [reflexivity|]. split; [reflexivity|].
  refine (proj2 (proj2 (proj2 (proj2 (proj2 (proj2 (proj2 (proj2 (proj2 (proj2 (normalizeTACACSCommandSetRecord_spec operators _ _))))))))))).
  reflexivity.
Defined.
