(* ===== verification/TacacsServer.v ===== *)
(** * The TACACS+ server ([internal/tacacs/server.go])

    Recognition of the client, the three packet handlers, and the loop that reads a connection's packets
    and answers them. A connection's input is the list of the bytes the client sends before it closes;
    what the server does is the list of the packets it writes and the evidence it records. Timeouts,
    the listener and the runtime status are left out. *)

From S2P Require Import Prelude GoStrings Bytes TacacsProtocol ServiceChain PolicyTypes PolicyTyped PolicySets PolicyEngine Secrets TacacsPolicy.
From Stdlib Require Import Ascii.

(** [bcrypt.CompareHashAndPassword], of a hash and a password. *)
Class Bcrypt := bcrypt_matches : string -> string -> bool.

Record connectionState := mkConnectionState {
  StClient : ClientIdentity; StSecret : string; StPendingAuth : gmap Z AuthenStart }.

Record AccountingRecord := mkAccountingRecord {
  AcSessionID : Z; AcTaskID : string; AcUser : string; AcRole : string; AcTenant : string; AcClient : ClientIdentity;
  AcService : string; AcPort : string; AcRemoteAddress : string; AcCommand : string; AcPrivilegeLevel : Z; AcFlags : Z;
  AcArgs : list string }.

(** What is passed to the [Record...] functions of [internal/db/tacacs.go]. *)
Inductive evidence :=
| ProtocolEvent (sessionID : Z) (clientName clientIP eventType status summary : string)
| AuthorizationEvent (request : CommandRequest) (decision : CommandDecision) (wireStatus : Z) (serverMsg : string) (args : list string)
| AccountingEvent (record : AccountingRecord).

Inductive client_error :=
| ClientDisabled
| SecretFailed (e : secret_error)
| ClientWithoutSecret
| ClientUnknown
| UnknownWithoutSecret.

(** The server's environment: the policy's, the secret provider, and whether accounting records can be written. *)
Record Server := mkServer {
  SvEnv : TacacsEnvironment; SvOptions : Options; SvLookupEnv : string -> option string;
  SvReadFile : string -> string -> Z -> result string string; SvAccountingWritable : bool }.

Section server.
Context {N : Numbers} {U : Unicode} {R : MapRange} {J : Json} {RE : Regexp} {IA : IPAddr}.
Context {CD : ChainDigest} {D : PolicyDigest} {G : GlobTables} {BC : Bcrypt}.

(** The texts of the errors, which the server puts into its error responses. *)
Context (error_text : TacacsProtocol.error -> string) (command_error_text : command_error -> string)
        (client_error_text : client_error -> string).

Definition effective (s : Server) : TACACSConfig := EffectiveConfig (EnvConfig (SvEnv s)).

(** ** Clients *)

Definition tacacsClientMatches (client : TACACSClientConfig) (remoteIP : string) : bool :=
  match parse_ip remoteIP with
  | None => false
  | Some ip =>
      let address := TrimSpace (CCAddress client) in
      match parse_ip address with
      | Some parsed => ip_equal parsed ip
      | None => match parse_cidr address with Some contains => contains ip | None => false end
      end
  end.

Definition configured_secret (s : Server) (field inline ref : string) : result client_error string :=
  match ResolveConfiguredSecret (SvLookupEnv s) (SvReadFile s) (SvOptions s) field inline ref with
  | Ok secret => Ok secret
  | Err e => Err (SecretFailed e)
  end.

(** A configured client that matches the address. *)
Definition known_client (s : Server) (raw : TACACSClientConfig) (remoteIP : string) : result client_error (ClientIdentity * string) :=
  let client := mkClientIdentity (TrimSpace (CCName raw)) remoteIP (lower_trim (CCVendor raw)) (TrimSpace (CCModel raw))
                  (TrimSpace (CCTenant raw)) true (CCEnabled raw) in
  if negb (CCEnabled raw) then Err ClientDisabled
  else
    secret ← configured_secret s ("tacacs.clients." ++ CIName client ++ ".secret")%string (CCSecret raw) (CCSecretRef raw);
    secret ← (if (secret =? "")%string then configured_secret s "tacacs.secret" (TSecret (effective s)) (TSecretRef (effective s))
              else Ok secret);
    if (secret =? "")%string && negb (TAllowUnencrypted (effective s)) then Err ClientWithoutSecret
    else Ok (client, secret).

Definition clientForRemote (s : Server) (remoteIP : string) : result client_error (ClientIdentity * string) :=
  match firstSome (fun raw => if negb (tacacsClientMatches raw remoteIP) then None else Some (known_client s raw remoteIP))
          (TClients (effective s)) with
  | Some r => r
  | None =>
      if TRequireKnownClient (effective s) then Err ClientUnknown
      else
        secret ← configured_secret s "tacacs.secret" (TSecret (effective s)) (TSecretRef (effective s));
        if (secret =? "")%string && negb (TAllowUnencrypted (effective s)) then Err UnknownWithoutSecret
        else Ok (mkClientIdentity ("unknown-" ++ ReplaceAllChar remoteIP ":" "-")%string remoteIP "" "" "" false true, secret)
  end.

(** ** Authentication *)

(** The role and tenant of the user, when the password is the user's. *)
Definition validateLocalCredential (users : result string (gmap string LocalUser)) (username password : string)
    : result string (option (string * string)) :=
  match users with
  | Err e => Err e
  | Ok rows =>
      match rows !! TrimSpace username with
      | None => Ok None
      | Some u => if bcrypt_matches (LUPasswordHash u) password then Ok (Some (LURole u, LUTenant u)) else Ok None
      end
  end.

Definition reply (status : Z) (message : string) : result TacacsProtocol.error (list Z) :=
  MarshalAuthenReply (mkAuthenReply status 0 message []).

Definition authenticatePassword (s : Server) (sessionID : Z) (state : connectionState) (start : AuthenStart) (password : string)
    : result TacacsProtocol.error (list Z) * list evidence :=
  let event := ProtocolEvent sessionID (CIName (StClient state)) (CIIP (StClient state)) "authentication" in
  match validateLocalCredential (EnvUsers (SvEnv s)) (ASUser start) password with
  | Err _ => (reply AuthenStatusError "authentication error", [event "error" "TACACS+ authentication lookup failed."])
  | Ok None => (reply AuthenStatusFail "authentication failed", [event "failed" "TACACS+ authentication failed."])
  | Ok (Some _) => (reply AuthenStatusPass "authentication successful", [event "ok" "TACACS+ authentication succeeded."])
  end.

Definition with_pending (state : connectionState) (pending : gmap Z AuthenStart) : connectionState :=
  mkConnectionState (StClient state) (StSecret state) pending.

Definition handleAuthentication (s : Server) (packet : Packet) (state : connectionState)
    : result TacacsProtocol.error (list Z) * connectionState * list evidence :=
  let sessionID := HSessionID (PHeader packet) in
  if EqualFold (TAuthenticationSource (effective s)) "disabled" then
    (reply AuthenStatusFail "TACACS+ authentication is disabled", state, [])
  else if HSeqNo (PHeader packet) =? 1 then
    match ParseAuthenStart (PBody packet) with
    | Err e => (Err e, state, [])
    | Ok start =>
        if negb (ASAction start =? AuthenActionLogin) then (reply AuthenStatusFail "unsupported authentication action", state, [])
        else if (ASAuthenType start =? AuthenTypePAP) && (zlen (ASData start) >? 0) then
          let '(r, ev) := authenticatePassword s sessionID state start (string_of_bytes (ASData start)) in (r, state, ev)
        else if ASAuthenType start =? AuthenTypeASCII then
          (reply AuthenStatusGetPass "Password:", with_pending state (<[sessionID := start]> (StPendingAuth state)), [])
        else (reply AuthenStatusFail "unsupported authentication type", state, [])
    end
  else
    match ParseAuthenContinue (PBody packet) with
    | Err e => (Err e, state, [])
    | Ok cont =>
        match StPendingAuth state !! sessionID with
        | None => (reply AuthenStatusError "authentication state not found", state, [])
        | Some start =>
            let state := with_pending state (delete sessionID (StPendingAuth state)) in
            let password := if (ACUserMsg cont =? "")%string && (zlen (ACData cont) >? 0)
                            then string_of_bytes (ACData cont) else ACUserMsg cont in
            let '(r, ev) := authenticatePassword s sessionID state start password in (r, state, ev)
        end
    end.

(** ** Authorization and accounting *)

(** [role, tenant, _, _ := db.LocalUserRole(user)] *)
Definition role_tenant (s : Server) (user : string) : string * string :=
  match LocalUserRole (EnvUsers (SvEnv s)) user with Ok (Some rt) => rt | _ => ("", "") end.

Definition command_request (s : Server) (packet : Packet) (state : connectionState) (req : AuthorRequest) (command : string) (now : Z)
    : CommandRequest :=
  let '(role, tenant) := role_tenant s (QUser req) in
  mkCommandRequest (HSessionID (PHeader packet)) (QUser req) role tenant (StClient state)
    (ServiceFromArgs (QArgs req) (QService req)) (QPort req) (QRemoteAddress req) command (QArgs req)
    (PrivilegeFromArgs (QArgs req) (QPrivilege req)) true (Some now).

(** [now] is the time the handler starts. *)
Definition handleAuthorization (s : Server) (packet : Packet) (state : connectionState) (now : Z)
    : result TacacsProtocol.error (list Z) * list evidence :=
  match ParseAuthorRequest (PBody packet) (TMaxArgs (effective s)) with
  | Err e => (Err e, [])
  | Ok req =>
      let command := CommandFromArgs (QArgs req) in
      let command := if (command =? "")%string then "login" else command in
      if len command >? TMaxCommandBytes (effective s) then
        (MarshalAuthorResponse (mkAuthorResponse AuthorStatusFail "command exceeds TACACS+ command length limit" "" []), [])
      else
        let commandReq := command_request s packet state req command now in
        match EvaluateCommand (SvEnv s) commandReq now with
        | Err e => (Err (ErrHandler (command_error_text e)), [])
        | Ok decision =>
            let pass := CDPermit decision || (TMode (effective s) =? "monitor")%string in
            let responseStatus := if pass then AuthorStatusPassAdd else AuthorStatusFail in
            let serverMsg := if pass && negb (CDPermit decision) then ("monitor mode: " ++ CDReason decision)%string
                             else CDReason decision in
            let responseArgs := if pass then CDResponseArgs decision else [] in
            match MarshalAuthorResponse (mkAuthorResponse responseStatus serverMsg "" responseArgs) with
            | Err e => (Err e, [])
            | Ok body =>
                (Ok body, if TAuditEnabled (effective s)
                          then [AuthorizationEvent commandReq decision responseStatus serverMsg responseArgs] else [])
            end
        end
  end.

Definition handleAccounting (s : Server) (packet : Packet) (state : connectionState)
    : result TacacsProtocol.error (list Z) * list evidence :=
  match ParseAcctRequest (PBody packet) (TMaxArgs (effective s)) with
  | Err e => (Err e, [])
  | Ok req =>
      let '(role, tenant) := role_tenant s (TUser req) in
      let record := mkAccountingRecord (HSessionID (PHeader packet)) (argValue (TArgs req) "task_id") (TUser req) role tenant
                      (StClient state) (ServiceFromArgs (TArgs req) (TService req)) (TPort req) (TRemoteAddress req)
                      (CommandFromArgs (TArgs req)) (PrivilegeFromArgs (TArgs req) (TPrivilege req)) (TFlags req) (TArgs req) in
      if negb (SvAccountingWritable s) then (MarshalAcctResponse (mkAcctResponse AcctStatusError "accounting record failed" ""), [])
      else (MarshalAcctResponse (mkAcctResponse AcctStatusSuccess "accounting recorded" ""), [AccountingEvent record])
  end.

(** ** Packets and connections *)

(** [SeqNo + 1] is a [byte]. *)
Definition responsePacket (request : Packet) (body : list Z) (secret : string) : Packet :=
  let h := PHeader request in
  mkPacket (mkHeader (HVersion h) (HType h) (to_byte (HSeqNo h + 1)) (if (secret =? "")%string then FlagUnencrypted else 0)
              (HSessionID h) 0) body.

Definition body_or_nil (r : result TacacsProtocol.error (list Z)) : list Z := match r with Ok body => body | Err _ => [] end.

Definition errorResponseFor (request : Packet) (message : string) (secret : string) : Packet :=
  let type := HType (PHeader request) in
  let body :=
    if type =? TypeAuthentication then body_or_nil (reply AuthenStatusError message)
    else if type =? TypeAuthorization then body_or_nil (MarshalAuthorResponse (mkAuthorResponse AuthorStatusError message "" []))
    else if type =? TypeAccounting then body_or_nil (MarshalAcctResponse (mkAcctResponse AcctStatusError message ""))
    else bytes_of_string message in
  responsePacket request body secret.

Definition handlePacket (s : Server) (packet : Packet) (state : connectionState) (now : Z)
    : result TacacsProtocol.error Packet * connectionState * list evidence :=
  let respond r := match r with Ok body => Ok (responsePacket packet body (StSecret state)) | Err e => Err e end in
  let type := HType (PHeader packet) in
  if type =? TypeAuthentication then
    let '(r, state, ev) := handleAuthentication s packet state in (respond r, state, ev)
  else if type =? TypeAuthorization then let '(r, ev) := handleAuthorization s packet state now in (respond r, state, ev)
  else if type =? TypeAccounting then let '(r, ev) := handleAccounting s packet state in (respond r, state, ev)
  else (Err (ErrPacketType type), state, []).

(** What [handleConnection] answers a packet with. *)
Definition answer (s : Server) (packet : Packet) (state : connectionState) (now : Z) : Packet * connectionState * list evidence :=
  let '(r, state', ev) := handlePacket s packet state now in
  (match r with Ok response => response | Err e => errorResponseFor packet (error_text e) (StSecret state) end, state', ev).

(** The loop of [handleConnection]: [now n] is the time of the [n]-th packet. [None]: out of fuel. *)
Fixpoint serve (s : Server) (now : nat -> Z) (fuel n : nat) (input : list Z) (state : connectionState)
    : option (list (list Z) * list evidence) :=
  match fuel with
  | O => None
  | S fuel' =>
      match ReadPacket input (StSecret state) (TMaxPacketBytes (effective s)) (TAllowUnencrypted (effective s)) with
      | Err e =>
          Some ([], [ProtocolEvent 0 (CIName (StClient state)) (CIIP (StClient state)) "protocol_error" "error" (error_text e)])
      | Ok (packet, rest) =>
          let '(response, state', ev) := answer s packet state (now n) in
          match WritePacket response (StSecret state) with
          | Err _ => Some ([], ev)
          | Ok wire =>
              if Z.land (HFlags (PHeader packet)) FlagSingleConnect =? 0 then Some ([wire], ev)
              else match serve s now fuel' (S n) rest state' with
                   | None => None
                   | Some (wires, evs) => Some (wire :: wires, ev ++ evs)
                   end
          end
      end
  end.

Definition handleConnection (s : Server) (now : nat -> Z) (remoteIP : string) (input : list Z) : option (list (list Z) * list evidence) :=
  match clientForRemote s remoteIP with
  | Err e => Some ([], [ProtocolEvent 0 "" remoteIP "connection" "denied" (client_error_text e)])
  | Ok (client, secret) =>
      match serve s now (S (length input)) 0 input (mkConnectionState client secret ∅) with
      | None => None
      | Some (wires, evs) => Some (wires, ProtocolEvent 0 (CIName client) remoteIP "connection" "ok" "TACACS+ client connected." :: evs)
      end
  end.
End server.

(** ** Clients *)

Section server_lemmas.
Context {N : Numbers} {U : Unicode} {R : MapRange} {J : Json} {RE : Regexp} {IA : IPAddr}.
Context {CD : ChainDigest} {D : PolicyDigest} {G : GlobTables} {BC : Bcrypt}.

(** A connection is only served for an enabled client and with a shared secret, unless clear packets
    are allowed. The client is the first configured one whose address or network has the remote address;
    a client that no entry matches is served only where known clients are not required. *)
Theorem clientForRemote_spec (s : Server) (remoteIP : string) (client : ClientIdentity) (secret : string) :
  clientForRemote s remoteIP = Ok (client, secret) ->
  CIIP client = remoteIP /\ CIEnabled client = true /\ (secret <> "" \/ TAllowUnencrypted (effective s) = true) /\
  if CIKnown client
  then exists l1 raw l2, TClients (effective s) = l1 ++ raw :: l2 /\ Forall (fun c => tacacsClientMatches c remoteIP = false) l1
         /\ tacacsClientMatches raw remoteIP = true /\ CCEnabled raw = true /\ CIName client = TrimSpace (CCName raw)
  else TRequireKnownClient (effective s) = false /\ Forall (fun c => tacacsClientMatches c remoteIP = false) (TClients (effective s)).
Proof.
  assert (forall b text, (text =? "")%string && negb b = false -> text <> "" \/ b = true) as Hsec.
  { intros b text [H|H]%andb_false_iff; [left; by apply String.eqb_neq | right; by apply negb_false_iff]. }
  unfold clientForRemote. destruct (firstSome _ _) as [r|] eqn:E.
  - intros ->. apply firstSome_Some in E as (l1 & raw & l2 & Hl & Hr & Hn).
    destruct (tacacsClientMatches raw remoteIP) eqn:Em; cbn [negb] in Hr; [|done]. injection Hr as Hr.
    unfold known_client in Hr. cbv zeta in Hr. destruct (CCEnabled raw) eqn:Ee; cbn [negb] in Hr; [|done].
    apply bind_Ok in Hr as (s1 & _ & (s2 & _ & Hr)%bind_Ok). destruct (_ && _) eqn:Es in Hr; [done|]. injection Hr as <- <-.
    cbn [CIIP CIEnabled CIKnown CIName]. split_and!; [done|done|by apply Hsec|].
    exists l1, raw, l2. split_and!; try done. eapply Forall_impl; [exact Hn|]. intros c. cbn. by destruct (tacacsClientMatches c remoteIP).
  - apply firstSome_None in E. destruct (TRequireKnownClient (effective s)); [done|]. intros (s1 & _ & Hr)%bind_Ok.
    destruct (_ && _) eqn:Es in Hr; [done|]. injection Hr as <- <-. cbn [CIIP CIEnabled CIKnown].
    split_and!; [done|done|by apply Hsec|done|]. eapply Forall_impl; [exact E|]. intros c. cbn. by destruct (tacacsClientMatches c remoteIP).
Qed.

(** ** Authentication *)

(** The user and password that a packet puts to the test. *)
Definition attempted_login (packet : Packet) (state : connectionState) : option (string * string) :=
  if HSeqNo (PHeader packet) =? 1 then
    match ParseAuthenStart (PBody packet) with
    | Ok start => if (ASAction start =? AuthenActionLogin) && (ASAuthenType start =? AuthenTypePAP) && (zlen (ASData start) >? 0)
                  then Some (ASUser start, string_of_bytes (ASData start)) else None
    | Err _ => None
    end
  else
    match ParseAuthenContinue (PBody packet), StPendingAuth state !! HSessionID (PHeader packet) with
    | Ok cont, Some start =>
        Some (ASUser start, if (ACUserMsg cont =? "")%string && (zlen (ACData cont) >? 0) then string_of_bytes (ACData cont)
                            else ACUserMsg cont)
    | _, _ => None
    end.

Definition valid_password (users : result string (gmap string LocalUser)) (user password : string) : Prop :=
  exists rows u, users = Ok rows /\ rows !! TrimSpace user = Some u /\ bcrypt_matches (LUPasswordHash u) password = true.

Lemma reply_head status message body : reply status message = Ok body -> head body = Some status.
Proof. unfold reply, MarshalAuthenReply. destruct (_ || _); [done|]. by intros [= <-]. Qed.

(** The head of a reply that a handler returned. *)
Ltac replied :=
  let H := fresh in
  intros H; first [apply (f_equal (fun x => x.1.1)) in H | apply (f_equal fst) in H]; cbn [fst] in H;
  apply reply_head in H; rewrite H.

Ltac replied_so :=
  replied; split;
  [ let Hs := fresh in intros Hs; first [discriminate Hs | eauto 10]
  | intros; repeat match goal with H : exists _, _ |- _ => destruct H | H : _ /\ _ |- _ => destruct H end; simplify_eq; congruence ].

Lemma authenticatePassword_head s sid st start password body ev :
  authenticatePassword s sid st start password = (Ok body, ev) ->
  head body = Some AuthenStatusPass <-> valid_password (EnvUsers (SvEnv s)) (ASUser start) password.
Proof.
  unfold authenticatePassword, validateLocalCredential, valid_password. destruct (EnvUsers (SvEnv s)) as [rows|e].
  - destruct (rows !! TrimSpace (ASUser start)) as [u|] eqn:Er; [destruct (bcrypt_matches _ _) eqn:Eb|];
      replied_so.
  - replied_so.
Qed.

(** C7: A TACACS+ login passes exactly when authentication is not disabled and the packet carries,
    directly (PAP) or as the answer to a password prompt of the same session on the same connection,
    a password that matches the stored hash of the user. *)
Theorem authentication_pass (s : Server) (packet : Packet) (st st' : connectionState) (body : list Z) (ev : list evidence) :
  handleAuthentication s packet st = (Ok body, st', ev) ->
  head body = Some AuthenStatusPass <->
  EqualFold (TAuthenticationSource (effective s)) "disabled" = false
  /\ exists user password, attempted_login packet st = Some (user, password) /\ valid_password (EnvUsers (SvEnv s)) user password.
Proof.
  unfold handleAuthentication, attempted_login. cbv zeta.
  destruct (EqualFold _ "disabled"); [replied_so|].
  destruct (HSeqNo (PHeader packet) =? 1).
  - destruct (ParseAuthenStart (PBody packet)) as [start|e]; [|done].
    destruct (ASAction start =? AuthenActionLogin); cbn [negb andb]; [|replied_so].
    destruct ((ASAuthenType start =? AuthenTypePAP) && _).
    + destruct (authenticatePassword s _ st start _) as [r ev'] eqn:Ea. intros [= -> <- <-].
      rewrite (authenticatePassword_head _ _ _ _ _ _ _ Ea). naive_solver.
    + destruct (ASAuthenType start =? AuthenTypeASCII); replied_so.
  - destruct (ParseAuthenContinue (PBody packet)) as [cont|e]; [|done].
    destruct (StPendingAuth st !! HSessionID (PHeader packet)) as [start|];
      [|replied_so].
    destruct (authenticatePassword s _ _ start _) as [r ev'] eqn:Ea. intros [= -> <- <-].
    rewrite (authenticatePassword_head _ _ _ _ _ _ _ Ea). naive_solver.
Qed.

(** The password dialogue: a start packet of an ASCII login is answered with the password prompt, the
    next packet of the session is decided by its password for the user of the start packet, and the
    prompt is used up, so that a second answer to it finds no state. Other sessions are not touched. *)
Theorem ascii_dialogue (s : Server) (p1 p2 : Packet) (st : connectionState) (start : AuthenStart) (cont : AuthenContinue) :
  EqualFold (TAuthenticationSource (effective s)) "disabled" = false ->
  HSeqNo (PHeader p1) = 1 -> ParseAuthenStart (PBody p1) = Ok start ->
  ASAction start = AuthenActionLogin -> ASAuthenType start = AuthenTypeASCII ->
  HSeqNo (PHeader p2) <> 1 -> ParseAuthenContinue (PBody p2) = Ok cont -> HSessionID (PHeader p2) = HSessionID (PHeader p1) ->
  let password := if (ACUserMsg cont =? "")%string && (zlen (ACData cont) >? 0) then string_of_bytes (ACData cont) else ACUserMsg cont in
  exists st1 st2,
    handleAuthentication s p1 st = (reply AuthenStatusGetPass "Password:", st1, [])
    /\ handleAuthentication s p2 st1
       = (let '(r, ev) := authenticatePassword s (HSessionID (PHeader p1)) st2 start password in (r, st2, ev))
    /\ handleAuthentication s p2 st2 = (reply AuthenStatusError "authentication state not found", st2, [])
    /\ forall sid, sid <> HSessionID (PHeader p1) ->
         StPendingAuth st1 !! sid = StPendingAuth st !! sid /\ StPendingAuth st2 !! sid = StPendingAuth st !! sid.
Proof.
  intros Hd H1 Hs Ha Ht H2 Hc Hsid. cbv zeta.
  exists (with_pending st (<[HSessionID (PHeader p1) := start]> (StPendingAuth st))).
  exists (with_pending st (delete (HSessionID (PHeader p1)) (<[HSessionID (PHeader p1) := start]> (StPendingAuth st)))).
  apply Z.eqb_neq in H2. unfold handleAuthentication. cbv zeta. rewrite Hd, H1, Hs, Ha, Ht, H2, Hc, Hsid.
  cbn [with_pending StPendingAuth StClient StSecret]. rewrite lookup_insert_eq, lookup_delete_eq.
  split_and!; [done|done|done|]. intros sid Hne. by rewrite lookup_delete_ne, lookup_insert_ne.
Qed.

(** ** Authorization *)

Lemma MarshalAuthorResponse_head resp body : MarshalAuthorResponse resp = Ok body -> head body = Some (RStatus resp).
Proof. unfold MarshalAuthorResponse. destruct (_ || _); [done|]. destruct (existsb _ _); [done|]. by intros [= <-]. Qed.

Definition requested_command (req : AuthorRequest) : string :=
  if (CommandFromArgs (QArgs req) =? "")%string then "login" else CommandFromArgs (QArgs req).

Section texts.
Context (error_text : TacacsProtocol.error -> string) (command_error_text : command_error -> string)
        (client_error_text : client_error -> string).

(** An authorization request is answered with PASS_ADD exactly when its command is within the
    configured length and the policy permits it, or the server runs in monitor mode; the arguments
    returned are those of the policy's decision. *)
Theorem authorization_pass (s : Server) (packet : Packet) (st : connectionState) (now : Z) (body : list Z) (ev : list evidence) :
  handleAuthorization command_error_text s packet st now = (Ok body, ev) ->
  head body = Some AuthorStatusPassAdd <->
  exists req d,
    ParseAuthorRequest (PBody packet) (TMaxArgs (effective s)) = Ok req
    /\ len (requested_command req) <= TMaxCommandBytes (effective s)
    /\ EvaluateCommand (SvEnv s) (command_request s packet st req (requested_command req) now) now = Ok d
    /\ (CDPermit d = true \/ TMode (effective s) = "monitor").
Proof.
  unfold handleAuthorization. cbv zeta. destruct (ParseAuthorRequest _ _) as [req|e]; [|done].
  fold (requested_command req). destruct (len (requested_command req) >? TMaxCommandBytes (effective s)) eqn:El; bool_arith.
  { intros H. apply (f_equal fst) in H. cbn [fst] in H. apply MarshalAuthorResponse_head in H. rewrite H. split; [discriminate|].
    intros (req' & d & [= <-] & Hl & _). lia. }
  destruct (EvaluateCommand _ _ _) as [d|e] eqn:Ed; [|done].
  destruct (MarshalAuthorResponse _) as [b|e] eqn:Em; [|done]. intros [= -> _]. apply MarshalAuthorResponse_head in Em. rewrite Em.
  cbn [RStatus]. destruct (CDPermit d || (TMode (effective s) =? "monitor")%string) eqn:Ep.
  - split; [intros _|done]. exists req, d. apply orb_true_iff in Ep as [Hp|Hm%String.eqb_eq]; eauto 10.
  - apply orb_false_iff in Ep as [Hp Hm%String.eqb_neq]. split; [discriminate|].
    intros (req' & d' & [= <-] & _ & Hd & [Hc|Hc]); congruence.
Qed.

(** ** Connections *)

Lemma ReadPacket_shorter r secret maxBytes allow p rest :
  ReadPacket r secret maxBytes allow = Ok (p, rest) -> (length rest < length r)%nat.
Proof.
  unfold ReadPacket. destruct r as [|v [|t [|q [|fl [|i0 [|i1 [|i2 [|i3 [|l0 [|l1 [|l2 [|l3 r]]]]]]]]]]]]; try done.
  cbv zeta. repeat (case_match; try discriminate); intros [= <- <-]; rewrite length_drop; cbn [length]; lia.
Qed.

Lemma serve_total s now fuel n input st :
  (length input < fuel)%nat -> exists wires evs, serve error_text command_error_text s now fuel n input st = Some (wires, evs).
Proof.
  revert n input st. induction fuel as [|fuel IH]; intros n input st Hl; [lia|]. cbn [serve].
  destruct (ReadPacket _ _ _ _) as [[p rest]|e] eqn:Er; [|eauto].
  destruct (answer _ _ _ _ _ _) as [[response st'] ev]. destruct (WritePacket _ _); [|eauto]. destruct (_ =? 0); [eauto|].
  apply ReadPacket_shorter in Er. destruct (IH (S n) rest st') as (ws & evs & ->); [lia|eauto].
Qed.

Lemma answer_shape s p st now response st' ev :
  answer error_text command_error_text s p st now = (response, st', ev) ->
  (exists body, response = responsePacket p body (StSecret st)) /\ StSecret st' = StSecret st /\ StClient st' = StClient st.
Proof.
  unfold answer. destruct (handlePacket _ s p st now) as [[r st1] ev1] eqn:Eh. intros [= <- <- _].
  assert (StSecret st1 = StSecret st /\ StClient st1 = StClient st /\ forall q, r = Ok q -> exists body, q = responsePacket p body (StSecret st))
    as (-> & -> & Hr).
  { unfold handlePacket in Eh. cbv zeta in Eh. destruct (HType (PHeader p) =? TypeAuthentication).
    - destruct (handleAuthentication s p st) as [[r' st2] ev2] eqn:Ea. injection Eh as <- <- _.
      assert (StSecret st2 = StSecret st /\ StClient st2 = StClient st) as [-> ->].
      { unfold handleAuthentication in Ea. cbv zeta in Ea. repeat (case_match; try congruence); by simplify_eq. }
      split_and!; [done..|]. intros q. destruct r'; naive_solver.
    - destruct (HType (PHeader p) =? TypeAuthorization).
      + destruct (handleAuthorization _ s p st now) as [r' ev2]. injection Eh as <- <- _. split_and!; [done..|]. intros q. destruct r'; naive_solver.
      + destruct (HType (PHeader p) =? TypeAccounting).
        * destruct (handleAccounting s p st) as [r' ev2]. injection Eh as <- <- _. split_and!; [done..|]. intros q. destruct r'; naive_solver.
        * injection Eh as <- <- _. by split_and!. }
  split; [|done]. destruct r as [q|e]; [by apply Hr|]. unfold errorResponseFor. cbv zeta. eauto.
Qed.

Lemma WritePacket_response p body secret : exists wire, WritePacket (responsePacket p body secret) secret = Ok wire.
Proof. unfold WritePacket, responsePacket, written_header. cbn [PHeader HFlags]. destruct (secret =? "")%string; cbn; eauto. Qed.

(** The packets read off a connection's input: up to the first that cannot be read, or the first
    without the single-connect flag. *)
Fixpoint packets_read (s : Server) (secret : string) (fuel : nat) (input : list Z) : list Packet :=
  match fuel with
  | O => []
  | S fuel' =>
      match ReadPacket input secret (TMaxPacketBytes (effective s)) (TAllowUnencrypted (effective s)) with
      | Err _ => []
      | Ok (p, rest) => p :: if Z.land (HFlags (PHeader p)) FlagSingleConnect =? 0 then [] else packets_read s secret fuel' rest
      end
  end.

(** What the header of a response takes from the request. *)
Definition answers (secret : string) (request : Packet) (wire : list Z) : Prop :=
  exists response, WritePacket response secret = Ok wire
    /\ HSessionID (PHeader response) = HSessionID (PHeader request) /\ HType (PHeader response) = HType (PHeader request)
    /\ HVersion (PHeader response) = HVersion (PHeader request) /\ HSeqNo (PHeader response) = to_byte (HSeqNo (PHeader request) + 1)
    /\ (HFlags (PHeader response) = FlagUnencrypted <-> secret = "").

Lemma serve_answers s now fuel n input st wires evs :
  serve error_text command_error_text s now fuel n input st = Some (wires, evs) ->
  Forall2 (answers (StSecret st)) (packets_read s (StSecret st) fuel input) wires.
Proof.
  revert n input st wires evs. induction fuel as [|fuel IH]; intros n input st wires evs; [done|]. cbn [serve packets_read].
  destruct (ReadPacket _ _ _ _) as [[p rest]|e]; [|intros [= <- _]; constructor].
  destruct (answer _ _ _ _ _ _) as [[response st'] ev] eqn:Ea. apply answer_shape in Ea as ([body ->] & Hsec & _).
  destruct (WritePacket_response p body (StSecret st)) as [wire Hw]. rewrite Hw.
  assert (answers (StSecret st) p wire) as Hans.
  { exists (responsePacket p body (StSecret st)). split; [exact Hw|]. cbn. split_and!; [done..|].
    destruct (StSecret st =? "")%string eqn:E; bool_arith; by split. }
  destruct (Z.land _ _ =? 0); [intros [= <- _]; by repeat constructor|].
  destruct (serve _ _ _ _ fuel _ _ _) as [[ws es]|] eqn:Es; [|done]. intros [= <- _]. constructor; [done|].
  rewrite <- Hsec. by eapply IH.
Qed.

(** C8: A connection of a rejected client is closed without an answer; every other connection
    terminates with exactly one answer to every packet read from it, in order, each with the type,
    version and session of its request and the next sequence number, and clear only without a secret. *)
Theorem handleConnection_answers (s : Server) (now : nat -> Z) (remoteIP : string) (input : list Z) :
  exists wires evs, handleConnection error_text command_error_text client_error_text s now remoteIP input = Some (wires, evs) /\
  match clientForRemote s remoteIP with
  | Err _ => wires = []
  | Ok (_, secret) => Forall2 (answers secret) (packets_read s secret (S (length input)) input) wires
  end.
Proof.
  unfold handleConnection. destruct (clientForRemote s remoteIP) as [[client secret]|e]; [|eauto].
  destruct (serve_total s now (S (length input)) 0 input (mkConnectionState client secret ∅)) as (ws & es & E); [lia|].
  rewrite E. do 2 eexists. split; [done|]. exact (serve_answers _ _ _ _ _ _ _ _ E).
Qed.

(** An ASCII login over a connection that does not announce single-connect mode gets no further than
    the password prompt: the server closes the connection with the prompt, and with it goes the state
    of the dialogue, whatever the client sends next. *)
Theorem ascii_login_cut_off (s : Server) (now : nat -> Z) (remoteIP : string) (client : ClientIdentity) (secret : string)
    (input rest : list Z) (p : Packet) (start : AuthenStart) :
  clientForRemote s remoteIP = Ok (client, secret) ->
  ReadPacket input secret (TMaxPacketBytes (effective s)) (TAllowUnencrypted (effective s)) = Ok (p, rest) ->
  HType (PHeader p) = TypeAuthentication -> HSeqNo (PHeader p) = 1 -> ParseAuthenStart (PBody p) = Ok start ->
  ASAction start = AuthenActionLogin -> ASAuthenType start = AuthenTypeASCII ->
  EqualFold (TAuthenticationSource (effective s)) "disabled" = false ->
  Z.land (HFlags (PHeader p)) FlagSingleConnect = 0 ->
  exists wire body evs, handleConnection error_text command_error_text client_error_text s now remoteIP input = Some ([wire], evs)
    /\ WritePacket (responsePacket p body secret) secret = Ok wire /\ head body = Some AuthenStatusGetPass.
Proof.
  intros Hc Hr Hty H1 Hs Ha Ht Hd Hf. unfold handleConnection. rewrite Hc. cbn [serve StSecret]. rewrite Hr.
  destruct (reply AuthenStatusGetPass "Password:") as [body|e] eqn:Eb; [|discriminate Eb].
  unfold answer, handlePacket. rewrite Hty. cbn [Z.eqb]. unfold handleAuthentication. cbv zeta.
  rewrite Hd, H1, Hs, Ha, Ht, Eb. destruct (WritePacket_response p body secret) as [wire Hw]. cbn -[WritePacket responsePacket]. rewrite Hw, Hf. cbn [Z.eqb].
  exists wire, body. eexists. split; [done|]. split; [exact Hw|]. by eapply reply_head.
Qed.
End texts.
End server_lemmas.

(** ** Witnesses *)

#[local] Instance no_digest : PolicyDigest :=
  {| rules_digest := fun _ => ""; request_digest := fun _ => ""; set_digest := fun _ => ""; rule_digest := fun _ => ""; text_digest := fun s => s |}.
#[local] Instance no_chain_digest : ChainDigest := fun _ => "".
#[local] Instance plain_passwords : Bcrypt := fun hash password => (hash =? password)%string.
#[local] Instance text_addresses : IPAddr :=
  {| ip := string; parse_ip := fun s => if (s =? "")%string then None else Some s; ip_equal := String.eqb; parse_cidr := fun _ => None |}.

Definition lab_client : TACACSClientConfig := mkClientConfig "sw1 " " 192.0.2.1" "" "" "Cisco" "" "core" true.
Definition lab_set : TACACSCommandSetConfig := mkCommandSetConfig "ops" "" true "deny" ["show *"] [] ["noc"] [] [] [].
Definition lab_server : Server :=
  mkServer
    (mkTacacsEnvironment
       (Some (mkTACACSConfig true "" 0 "enforce" true "" "" 0 0 0 0 0 0 true 0 true true "" [lab_client] [lab_set])) false
       (mkEnvironment None false 0 (Ok None) (fun _ => Ok None) (Ok []) (fun _ => None) (fun _ _ _ => ""))
       [] (Ok {["alice" := mkLocalUser "hunter2" "noc" "core"]}))
    (mkOptions true ["env"] "" 64 true) (fun _ => None) (fun _ _ _ => Err "") true.

Definition lab_packet (type seq flags : Z) (body : list Z) : Packet := mkPacket (mkHeader 192 type seq flags 7 (zlen body)) body.
Definition lab_state : connectionState := mkConnectionState (mkClientIdentity "sw1" "192.0.2.1" "cisco" "" "core" true true) "" ∅.
Definition lab_start (authen : Z) (password : string) : list Z :=
  authen_start_wire (mkAuthenStart 1 1 authen 1 "alice" "tty1" "" (bytes_of_string password)).
Definition lab_continue (password : string) : list Z := [0; len1 password; 0; 0; 0] ++ bytes_of_string password.
Definition lab_author (command : string) : list Z :=
  author_wire (mkAuthorRequest 6 1 1 6 "alice" "tty1" "" ["service=shell"; "cmd=show"; ("cmd-arg=" ++ command)%string]).
Definition no_text {E} (_ : E) : string := "".

Lemma clientForRemote_spec_witness :
  exists client, clientForRemote lab_server "192.0.2.1" = Ok (client, "") /\ CIIP client = "192.0.2.1" /\ CIEnabled client = true.
Proof.
  eexists. split; [reflexivity|].
  refine (let '(conj H1 (conj H2 _)) := clientForRemote_spec lab_server "192.0.2.1" _ "" eq_refl in conj H1 H2).
Defined.

Lemma authentication_pass_witness :
  exists body, (handleAuthentication lab_server (lab_packet 1 1 1 (lab_start 2 "hunter2")) lab_state).1.1 = Ok body
    /\ head body = Some AuthenStatusPass.
Proof.
  eexists. split; [reflexivity|].
  refine (proj2 (authentication_pass lab_server (lab_packet 1 1 1 (lab_start 2 "hunter2")) lab_state lab_state _ _ eq_refl) _).
  split; [reflexivity|]. exists "alice", "hunter2". split; [reflexivity|].
  eexists. eexists. split; [reflexivity|]. split; [vm_compute; reflexivity|reflexivity].
Defined.

Lemma ascii_dialogue_witness :
  exists st1, handleAuthentication lab_server (lab_packet 1 1 5 (lab_start 1 "")) lab_state = (reply AuthenStatusGetPass "Password:", st1, []).
Proof.
  destruct (ascii_dialogue lab_server (lab_packet 1 1 5 (lab_start 1 "")) (lab_packet 1 3 5 (lab_continue "hunter2")) lab_state _ _
              eq_refl eq_refl eq_refl eq_refl eq_refl ltac:(discriminate) eq_refl eq_refl) as (st1 & st2 & H & _).
  exists st1. exact H.
Defined.

Lemma authorization_pass_witness :
  exists body ev, handleAuthorization no_text lab_server (lab_packet 2 1 1 (lab_author "version")) lab_state 0 = (Ok body, ev)
    /\ exists req, ParseAuthorRequest (lab_author "version") 64 = Ok req /\ requested_command req = "show version".
Proof.
  destruct (handleAuthorization no_text lab_server (lab_packet 2 1 1 (lab_author "version")) lab_state 0) as [[body|e] ev] eqn:E;
    [|vm_compute in E; discriminate E].
  exists body, ev. split; [reflexivity|].
  destruct (proj1 (authorization_pass no_text lab_server (lab_packet 2 1 1 (lab_author "version")) lab_state 0 body ev E)) as (req & d & Hp & _).
  - assert (match handleAuthorization no_text lab_server (lab_packet 2 1 1 (lab_author "version")) lab_state 0 with
            | (Ok b, _) => head b | _ => None end = Some AuthorStatusPassAdd) as Hh by (vm_compute; reflexivity).
    rewrite E in Hh. exact Hh.
  - exists req. split; [exact Hp|]. vm_compute in Hp. injection Hp as <-. vm_compute. reflexivity.
Defined.

Definition lab_prompt : list Z := [192; 1; 1; 1; 0; 0; 0; 7; 0; 0; 0; 17] ++ lab_start 1 "".
Definition lab_answer : list Z := [192; 1; 3; 1; 0; 0; 0; 7; 0; 0; 0; 12] ++ lab_continue "hunter2".

Lemma ascii_login_cut_off_witness :
  exists wire evs,
    handleConnection no_text no_text no_text lab_server (fun _ => 0) "192.0.2.1" (lab_prompt ++ lab_answer) = Some ([wire], evs).
Proof.
  destruct (ascii_login_cut_off no_text no_text no_text lab_server (fun _ => 0) "192.0.2.1" (StClient lab_state) ""
    (lab_prompt ++ lab_answer) lab_answer (lab_packet 1 1 1 (lab_start 1 "")) (mkAuthenStart 1 1 1 1 "alice" "tty1" "" [])
    ) as (wire & body & evs & H & _); [vm_compute; reflexivity..|].
  exists wire, evs. exact H.
Defined.
